(* ===== verification/_CoqProject ===== *)
-Q . S2P
Prelude.v
JsString.v
JsDate.v
JsNum.v
JsBits.v
AmountUnits.v
DecimalLib.v
CreditPolicy.v
LoanCalc.v
Strkey.v
StellarSdk.v
CctpMessage.v
CctpTransfer.v
CctpDelivery.v
CctpExecutor.v
Entities.v
Gateway.v
Store.v
Async.v
Trace.v
Judgements.v
Kyc.v
Sponsor.v
EarlyAccess.v
LoanVerification.v
LoanService.v
LoanRepayment.v
Ledger.v
ChainSync.v
ChainSyncProps.v
ChainSyncCredit.v
Requests.v
Lifecycle.v
SorobanQueue.v
SorobanConfig.v
SorobanSample.v
SorobanTx.v
SorobanGateway.v
SorobanGatewayProps.v
SorobanEvents.v
Port.v
SorobanPort.v
EvmConfig.v
EvmGateway.v
EvmTx.v
EvmGatewayProps.v
EvmPort.v
UsdcFormat.v
PendingQueue.v
Recovery.v
RecoveryProps.v
Session.v
SessionProps.v
PhoneVerification.v
UserStore.v
UserQuery.v
Onboarding.v
OnboardingProps.v
OnboardingRuns.v
Profile.v
ProfileProps.v
WalletLink.v
WalletLinkProps.v
Auth.v
AuthProps.v
Acting.v
ActingServices.v
ActingProfile.v
Routes.v
RoutesProps.v
BlockchainQueue.v
HookTrace.v
PhoneFlow.v
OnboardingFlow.v
OnboardingFlowProps.v
LateTicker.v
CreditStore.v
CreditLine.v
Payment.v
PaymentProps.v
