(* ===== verification/Prelude.v ===== *)
(** * Lendoor on Stellar: a verification library for the backend and the page

    Lendoor lends small amounts of USDC to people, on Stellar and on EVM chains. The
    backend (NestJS, [src/backend/src]) decides who may borrow and at what price,
    asks the LoanManager contract for the offer, records what the borrower did on
    chain, and runs jobs that bring its tables in line with the chain; next to it are
    the verification of identities, phones and external wallets, the sponsorship of
    fees, and the delivery of cross-chain USDC burns (CCTP). The page (React,
    [src/frontend/src]) signs people in, sends their transactions, and tells the
    backend. This library models the backend with its HTTP routes, and of the page the
    hooks and stores that decide something: the session, the queues of what the
    backend has yet to hear, the screens of registration, the credit line and the
    live debt, borrowing and repaying. It proves what makes them correct.

    ** How code becomes definitions

    - A synchronous method is a function; one that may throw returns a [result].
    - A method that awaits is a process ([Async.proc]): a tree of atomic operations
      on a shared world, one per await. [run] executes one method alone;
      [pool_step] lets any of several pending methods take its next operation, so a
      theorem about [steps pool_step] holds for every interleaving. The promises of
      an [allSettled] interleave inside a method in the same way ([Scheduler]). The
      methods of the loan services are written in the state monad [M] and proved
      alone; [Requests] gives the process of each, proved to have the same effect
      when it is run alone.
    - The world is [Store.World]: the tables [users] and [loans], the small tables,
      whether a transaction is open or aborted, and the trace of the calls made.
      A transaction that throws is rolled back, a failed statement poisons its
      transaction. The wallet links and the authentication have worlds of their own
      ([WalletLink.LinkWorld], [Auth.AuthWorld]), and so do the profile
      ([Profile.ProfileWorld]) and, in the browser, the session
      ([Session.SessionWorld]), the local storage ([PendingQueue.Browser]) and the
      payments ([Payment.PayWorld], which holds the storage). Registration adds its
      tables to [World] ([UserStore.OnboardWorld]); the routes run over
      [Routes.ApiWorld], which joins it with [AuthWorld] and the profiles. [Judgements.zoom] takes the
      process of a part to the world of the whole, with what was proved of it.
    - A JavaScript number is an IEEE double ([JsNum.num]) where fractions or
      rounding matter and an integer elsewhere; the 32-bit operators wrap
      ([JsBits]); [bigint] is [Z]. Strings are bytes; what the code says of single
      characters is modelled for ASCII.
    - A hook of the page is the list of what happened ([HookTrace]): values set,
      requests answered, messages shown. State is read off that list, and a handler
      is a process that appends to it, so other handlers, effects and renders may come
      in between. The same traces model clients of a server ([Trace]).
    - The services call the chain through the port of [Gateway]; their theorems hold
      for every implementation. [SorobanGateway] is the implementation for Stellar,
      over the RPC server, and [EvmGateway] that for EVM chains, over ethers;
      [SorobanPort] and [EvmPort] instantiate the port with them through the
      interface [Port].
    - What is not in the repository is a parameter: the database ([Store.Database],
      [WalletLink.LinkDatabase]), the chain and the clock ([Gateway.Outside],
      [ChainFeed]: every answer may depend on all the calls before it), decimal.js
      ([DecimalLib]), stellar-sdk ([StellarSdk], [Sponsor]) and its RPC server
      ([SorobanConfig.SorobanRpc]), ethers and its provider ([EvmConfig]), BullMQ
      ([BlockchainQueue]), the WhatsApp client ([Messaging]), hashes, signatures and
      the cache ([LinkOutside], [AuthOutside]), the verifier of Self ([Profile]), and
      for the page the wallets, the contracts, the clock, the translations and what
      the backend answers ([BrowserOutside], [SessionOutside], [PhoneOutside],
      [FlowOutside], [TickerOutside], [LineOutside], [PayOutside]). Classes named [...Laws] state their documented behaviour, and each has an instance
      that satisfies it, used by the witnesses.

    ** Files

    - [Prelude], [JsString], [JsDate], [JsNum], [JsBits]: exceptions, the monads and
      their weakest preconditions, reachability; the JavaScript library.
    - [AmountUnits] ([common/amount-units.ts]), [Strkey] ([common/stellar-strkey.ts],
      [common/normalize-wallet.ts]), [DecimalLib], [StellarSdk].
    - [CreditPolicy] ([domain/services/credit-policy.service.ts] and the score
      helpers of [shared/]), [LoanCalc] ([loan/loan-calculations.service.ts],
      [loan/borrow-cooldown.ts]).
    - [CctpMessage], [CctpTransfer], [CctpDelivery], [CctpExecutor] ([cctp/]): the
      message parser and the forwarder hook, the state machine of a transfer and the
      attestation client, both ends of a burn, the executor.
    - [Entities] ([domain/entities]), [Gateway] ([domain/ports/outbound]), [Store],
      [Async]: rows, ports, statements, processes.
    - [Kyc] ([kyc/]), [Sponsor] ([sponsor/fee-bump.ts]), [EarlyAccess]
      ([user/early-access.service.ts], the gates of [self/self.service.ts]).
    - [LoanVerification], [LoanService], [LoanRepayment] ([loan/]): the credit line,
      the terms, the offer, the opening and the repayment of a loan.
    - [ChainSync] ([loan/chain-sync.service.ts] and its job processor), with
      [ChainSyncProps] and [ChainSyncCredit] for its theorems.
    - [Ledger]: what all of the above promise about the table of loans, and
      [Ledger.Spec], the book it stands for. [Requests]: the methods of the loan
      services, await by await. [Lifecycle]: requests and jobs together.
    - [SorobanQueue], [SorobanConfig] ([config/sorobanConfig.ts]): the queue of the
      signer, the configuration and the calls of the contract. [SorobanGateway]
      ([infrastructure/blockchain/soroban-blockchain.gateway.ts]). [SorobanTx],
      [SorobanGatewayProps] and [SorobanEvents] hold their theorems, [SorobanSample]
      a concrete server, [SorobanPort] the gateway behind the port.
    - [Port], [EvmConfig] ([config/contractConfig.ts]), [EvmGateway]
      ([infrastructure/blockchain/ethers-blockchain.gateway.ts]), with [EvmTx] and
      [EvmGatewayProps] for its theorems and a concrete provider, [EvmPort] the gateway
      behind the port. [BlockchainQueue]
      ([loan/blockchain-queue.service.ts] and its job processor).
    - [PhoneVerification] ([user/phone-verification.service.ts],
      [user/phone-otp.service.ts]).
    - [UserStore], [UserQuery] ([user/user-query.service.ts]), [Onboarding],
      [OnboardingProps], [OnboardingRuns] ([user/user-onboarding.service.ts]):
      registration, its tables, what is shown of a wallet. [Profile], [ProfileProps]
      ([user/user.service.ts], [self/self.service.ts]).
    - [WalletLink], [WalletLinkProps] ([wallet-link/]).
    - [Auth], [AuthProps] ([auth/], [common/assert-wallet-ownership.ts] and the
      refresh route of [infrastructure/http/auth.controller.ts]).
    - [Judgements], [Acting], [ActingServices], [ActingProfile]: that a service
      called for a wallet changes the rows of that wallet only. [Routes],
      [RoutesProps]: the controllers [auth], [loan], [kyc], [user] and [self]
      ([infrastructure/http]) over the services.
    - [Trace], [HookTrace]: processes over a list of events.
    - The page ([src/frontend/src]): [UsdcFormat] ([lib/utils.ts]), [PendingQueue],
      [Recovery], [RecoveryProps] ([lib/repaymentQueue.ts], [lib/loanOpenQueue.ts],
      [hooks/borrow/useRepaymentRecovery.ts]), [Session], [SessionProps]
      ([lib/auth.ts], [hooks/borrow/useRefreshAccessToken.ts],
      [stores/authStore.ts]), [PhoneFlow]
      ([hooks/onboarding/usePhoneVerification.ts]), [OnboardingFlow],
      [OnboardingFlowProps] ([hooks/borrow/backend/useOnBoardingFlow.ts]),
      [LateTicker] ([hooks/borrow/blockchain/useRepayPreflight.ts]),
      [CreditStore] ([stores/creditStore.ts], [stores/loanStatsStore.ts],
      [lib/tiers.ts]), [CreditLine] ([useCreditLine.ts] of that directory), [Payment],
      [PaymentProps] ([useBorrow.ts], [useRepay.ts], and the transactions of
      [providers/ContractsProvider.tsx] and [lib/stellar-contracts.ts]).

    ** What is proved

    - The system. Every interleaving of requests and jobs takes the loan table
      through the steps of the book of loans ([Lifecycle.ledger_refinement]): a
      loan is entered, closed, settled by a transaction that settles no other, and
      never goes back. The table stays well formed, and no loan is lost or
      rewritten. [Lifecycle.requests_terminate] notes that no run is endless.
    - Loans. What borrowing, recording an opening and recording a repayment may do,
      on every branch, whatever the chain and the database answer: one offer past
      every guard, one open loan per user, one loan closed after a proof, the score
      and the limit it earns, idempotence.
    - Synchronisation. What reconciling one loan writes, what the scanner reads,
      inserts and skips, that it catches up with the chain, how many lines a renewal
      job renews, what a recalculation reports.
    - The Soroban gateway. One task of the signer at a time, each lane in order, the
      high lane first, no task forgotten, whatever else happens in between
      ([SorobanQueue.signer_queue_serial], [signer_queue_drains]); a call of the
      contract signs one transaction and answers its hash only after the server
      reported success; no guarded call is made past its guard; the answers about
      openings, repayments and closings are what the events of the server say. End to
      end, a recorded repayment is backed by a successful transaction with the
      repayment event of the contract ([SorobanPort.repayment_backed_by_server]).
    - The EVM gateway. What a write sends and cancels, which errors are retried, what
      receipts and paged searches of events answer, and the same end-to-end theorem
      ([EvmPort.repayment_backed_by_receipt]). The jobs of the queue call the port as
      the services do.
    - Routes. Under any interleaving of requests to the controllers of authentication,
      loans, identity, users and Self, whatever changes belongs to a wallet that signed,
      or, for a user's row, profile and verification, to a wallet in a proof of identity
      that the verifier accepted ([RoutesProps.routes_authentic]).
    - CCTP. Round trips of messages, hooks and burns; the life of a row over every
      interleaving; at most one mint and one deposit per delivery.
    - Identity. The legal moves of an identity check, and that a passed gate means
      the vendor's approval; that a phone is verified with the code of the row only
      and has one owner under every interleaving; that a linked wallet signed and
      has one owner, that its nonces are spent once, and the limit on guesses.
    - Registration. Under every interleaving wallets, e-mails and phones are unique
      and a user is only created for a request that presented a drawn code; what
      presenting a code does on every branch, the transaction included; that the gate
      of Farcaster needs a proof for the wallet of the user.
    - Authentication. Under every interleaving the wallet a token stands for signed;
      what a sign-in, a refresh and a validation do; every request answers after a
      bounded number of its own operations, in any schedule.
    - Policies and text. Exactly which transactions are sponsored and for how much;
      the tiers of the credit policy; exactly which strings are account ids; the
      exact value of an amount in units.
    - The page. Amounts shown read back as the amount, rounded as stated. A token the
      page holds or sends is one of the connected wallet. One page forgets nothing,
      whatever its handlers do at the same time: an entry leaves its queue when the
      backend has settled it or after a week ([RecoveryProps.nothing_forgotten]); two
      pages can lose one ([RecoveryProps.lost_between_pages]). What is queued and told is what was sent
      ([PaymentProps.told_what_was_sent]), and a submission always ends
      ([PaymentProps.submission_ends]). The screens of registration go on only after
      the backend's answer, in the order of the steps. What is shown of the credit line
      belongs to the connected wallet ([CreditLine.line_of_connected_wallet]); the
      score shown after a repayment is the one the backend will give and is not taken
      back; the live debt is the preview of the contract.
    - Where the code does not do what it means to, a theorem exhibits the run:
      concurrent guesses of a code are not counted, an approval is lost in a race, a
      proof of repayment is used twice, a vault deposit is dropped, a code verifies
      another phone, a sign-in message or a revoked token is used again, the live debt
      of a Stellar loan shows tenfold, a paid loan is reported as failed, a second page
      overwrites a queued repayment, a proof of identity changes the row of a wallet that
      never signed in, and others
      stated next to the component they are about.

    ** Bounds and fuel

    Recursion is structural or over a list everywhere; the decimal digits of a
    number use its bit length as fuel and the batches of a job the length of the
    list, both proved enough ([JsString.decimal_digits_spec],
    [Async.batches_concat]). The scanner reads one range of blocks per run, as the
    code does; [ChainSyncProps.scan_catches_up] counts the runs needed. Two loops of
    the gateway are bounded by what the server does. Waiting for a transaction has
    the milliseconds of its limit as fuel, which a clock that moves does not use up
    ([SorobanTx.confirm_terminates]); paging takes its fuel as an argument, and more
    than the number of pages is enough ([SorobanEvents.scan_complete]).

    ** Not modelled

    - Modules, decorators, the validation of DTOs and the counting of the throttler,
      the other controllers (health and public statistics, which only read; those of the
      wallet links, whose service is modelled over its own tables in [WalletLink]; the
      decisions of the identity sandbox are a definition without a route), configuration, migrations and operator scripts: framework glue
      and SQL; the unique indexes the migrations create are laws of the database.
    - The verifier of Self, mail and voice services, the workers of BullMQ: third party.
    - The Soroban contracts: Rust, reached through the gateway.
    - React components and the set-up of the providers, the remaining stores and hooks,
      the views of the vault: what they show or wire is not decided there.
    - Log lines, and pauses no result depends on.

    ** What is left

    The screens of deposits and withdrawals, the hooks that read the vault, and the
    contracts themselves. *)

From stdpp Require Import base tactics list gmap strings numbers.
From Stdlib Require Import Lia ZArith.

(** ** Exceptions

    The classes of exception the services throw.  The argument is the constant
    text (or the machine-readable [code]) of the message. *)
Inductive exn :=
  | BadRequestException (msg : string)
  | NotFoundException (msg : string)
  | ForbiddenException (msg : string)
  | UnauthorizedException (msg : string)
  | ServiceUnavailableException (msg : string)
  | RangeError (msg : string)
  | SyntaxError (msg : string)
  | PlainError (msg : string)
  | CctpMessageError (msg : string)
  | IllegalCctpTransition (from to nonce : string)
  | SponsorPolicyViolation (msg : string)
  | UniqueViolation (index : string)
  | ConflictException (msg : string)
  | HttpException (code : Z) (msg : string).

#[export] Instance exn_eq_dec : EqDecision exn.
Proof. solve_decision. Defined.

(** [err.message] *)
Definition exn_message (e : exn) : string :=
  match e with
  | BadRequestException m | NotFoundException m | ForbiddenException m | UnauthorizedException m
  | ServiceUnavailableException m | RangeError m | SyntaxError m | PlainError m
  | CctpMessageError m | SponsorPolicyViolation m | UniqueViolation m | ConflictException m | HttpException _ m => m
  | IllegalCctpTransition from to nonce =>
      "CCTP transfer " +:+ nonce +:+ ": illegal transition " +:+ from +:+ " -> " +:+ to
  end%string.

(** Outcome of a computation that may throw. *)
Inductive result (A : Type) :=
  | Ok (a : A)
  | Throw (e : exn).
Arguments Ok {A} a.
Arguments Throw {A} e.

#[export] Instance result_eq_dec {A} `{EqDecision A} : EqDecision (result A).
Proof. solve_decision. Defined.

#[export] Instance result_ret : MRet result := fun _ a => Ok a.

#[export] Instance result_bind : MBind result := fun _ _ k m =>
  match m with Ok a => k a | Throw e => Throw e end.

Definition result_of_option {A} (e : exn) (o : option A) : result A :=
  match o with Some a => Ok a | None => Throw e end.

(** [throw_if b e]: the source's [if (b) throw e;]. *)
Definition throw_if (b : bool) (e : exn) : result unit :=
  if b then Throw e else Ok tt.

Definition is_ok {A} (r : result A) : bool :=
  match r with Ok _ => true | Throw _ => false end.

Lemma result_bind_ok {A B} (m : result A) (k : A -> result B) b :
  m ≫= k = Ok b <-> exists a, m = Ok a /\ k a = Ok b.
Proof. destruct m as [a|e]; cbn; naive_solver. Qed.

Lemma Ok_inj {A} (a b : A) : mret a = Ok b -> a = b.
Proof. by intros [= ->]. Qed.

Lemma throw_if_ok b e u : throw_if b e = Ok u <-> b = false.
Proof. destruct b, u; cbn; naive_solver. Qed.

Lemma result_of_option_ok {A} (e : exn) (o : option A) a : result_of_option e o = Ok a <-> o = Some a.
Proof. destruct o; cbn; naive_solver. Qed.

(** ** State and exceptions

    An asynchronous method of a service is a function of the world [W] (database
    tables, record of the calls made to the outside, clock) that returns or
    throws; effects done before a throw stay done, as in JavaScript. *)
Definition M (W A : Type) : Type := W -> result A * W.

#[export] Instance M_ret {W} : MRet (M W) := fun _ a w => (Ok a, w).

#[export] Instance M_bind {W} : MBind (M W) := fun _ _ k m w =>
  match m w with
  | (Ok a, w') => k a w'
  | (Throw e, w') => (Throw e, w')
  end.

Definition throw {W A} (e : exn) : M W A := fun w => (Throw e, w).

Definition lift {W A} (r : result A) : M W A := fun w => (r, w).

Definition gets {W A} (f : W -> A) : M W A := fun w => (Ok (f w), w).

Definition modify {W} (f : W -> W) : M W unit := fun w => (Ok tt, f w).

(** [try { m } catch (e) { h e }]. *)
Definition try_catch {W A} (m : M W A) (h : exn -> M W A) : M W A := fun w =>
  match m w with
  | (Ok a, w') => (Ok a, w')
  | (Throw e, w') => h e w'
  end.

(** A promise settled: its outcome as a value. *)
Definition attempt {W A} (m : M W A) : M W (result A) := fun w => let '(r, w') := m w in (Ok r, w').

Definition when {W} (b : bool) (m : M W unit) : M W unit :=
  if b then m else mret tt.

Definition guard_throw {W} (b : bool) (e : exn) : M W unit :=
  if b then throw e else mret tt.

(** [for (const x of xs) { acc = await f(acc, x) }]. *)
Fixpoint mfold {W A B} (f : B -> A -> M W B) (acc : B) (xs : list A) : M W B :=
  match xs with
  | [] => mret acc
  | x :: xs' => acc' ← f acc x; mfold f acc' xs'
  end.

(** ** Weakest preconditions

    [wp m Q w] says that [m], run in [w], ends with an outcome and a world that
    satisfy [Q]. Every [M] computation is total, so this is total correctness. *)
Definition wp {W A} (m : M W A) (Q : result A -> W -> Prop) (w : W) : Prop :=
  Q (fst (m w)) (snd (m w)).

Lemma wp_ret {W A} (a : A) (Q : result A -> W -> Prop) w :
  Q (Ok a) w -> wp (mret a) Q w.
Proof. done. Qed.

Lemma wp_throw {W A} (e : exn) (Q : result A -> W -> Prop) w :
  Q (Throw e) w -> wp (throw e) Q w.
Proof. done. Qed.

Lemma wp_lift {W A} (r : result A) (Q : result A -> W -> Prop) w :
  Q r w -> wp (lift r) Q w.
Proof. done. Qed.

Lemma wp_gets {W A} (f : W -> A) (Q : result A -> W -> Prop) w :
  Q (Ok (f w)) w -> wp (gets f) Q w.
Proof. done. Qed.

Lemma wp_modify {W} (f : W -> W) (Q : result unit -> W -> Prop) w :
  Q (Ok tt) (f w) -> wp (modify f) Q w.
Proof. done. Qed.

Lemma wp_bind {W A B} (m : M W A) (k : A -> M W B) (Q : result B -> W -> Prop) w :
  wp m (fun r w' => match r with Ok a => wp (k a) Q w' | Throw e => Q (Throw e) w' end) w ->
  wp (m ≫= k) Q w.
Proof. unfold wp, mbind, M_bind. by destruct (m w) as [[a|e] w']. Qed.

Lemma wp_bind_inv {W A B} (m : M W A) (k : A -> M W B) (Q : result B -> W -> Prop) w :
  wp (m ≫= k) Q w ->
  wp m (fun r w' => match r with Ok a => wp (k a) Q w' | Throw e => Q (Throw e) w' end) w.
Proof. unfold wp, mbind, M_bind. by destruct (m w) as [[a|e] w']. Qed.

Lemma wp_try_catch {W A} (m : M W A) (h : exn -> M W A) (Q : result A -> W -> Prop) w :
  wp m (fun r w' => match r with Ok a => Q (Ok a) w' | Throw e => wp (h e) Q w' end) w ->
  wp (try_catch m h) Q w.
Proof. unfold wp, try_catch. by destruct (m w) as [[a|e] w']. Qed.

Lemma wp_mono {W A} (m : M W A) (P Q : result A -> W -> Prop) w :
  (forall r w', P r w' -> Q r w') -> wp m P w -> wp m Q w.
Proof. unfold wp. auto. Qed.

Lemma wp_conj {W A} (m : M W A) (P Q : result A -> W -> Prop) w :
  wp m P w -> wp m Q w -> wp m (fun r w' => P r w' /\ Q r w') w.
Proof. by unfold wp. Qed.

Lemma wp_when {W} (b : bool) (m : M W unit) (Q : result unit -> W -> Prop) w :
  (b = true -> wp m Q w) -> (b = false -> Q (Ok tt) w) -> wp (when b m) Q w.
Proof. destruct b; cbn; intros H1 H2; [auto | apply wp_ret; auto]. Qed.

Lemma wp_guard_throw {W} (b : bool) (e : exn) (Q : result unit -> W -> Prop) w :
  (b = true -> Q (Throw e) w) -> (b = false -> Q (Ok tt) w) -> wp (guard_throw b e) Q w.
Proof. destruct b; cbn; intros H1 H2; [apply wp_throw | apply wp_ret]; auto. Qed.

(** Invariant rule for [for ... of] loops. *)
Lemma wp_mfold {W A B} (I : B -> W -> Prop) (E : exn -> W -> Prop)
    (f : B -> A -> M W B) (xs : list A) :
  (forall acc x w, x ∈ xs -> I acc w ->
     wp (f acc x) (fun r w' => match r with Ok b => I b w' | Throw e => E e w' end) w) ->
  forall acc w, I acc w ->
    wp (mfold f acc xs) (fun r w' => match r with Ok b => I b w' | Throw e => E e w' end) w.
Proof.
  intros Hf. induction xs as [|x xs IH]; intros acc w HI; cbn; [exact HI|].
  apply wp_bind. eapply wp_mono; [|apply Hf; [left|done]].
  intros [b|e] w' H; [|done]. apply IH; [|done].
  intros acc' y w'' Hy. apply Hf. by right.
Qed.

(** ** Tactics *)

(** Case analysis on the innermost scrutinee of the goal, or of a hypothesis. *)
Ltac case_scrut :=
  match goal with
  | |- context [match ?x with _ => _ end] =>
      lazymatch x with
      | context [match _ with _ => _ end] => fail
      | _ => destruct x eqn:?
      end
  end.

Ltac case_scrut_in H :=
  match type of H with
  | context [match ?x with _ => _ end] =>
      lazymatch x with
      | context [match _ with _ => _ end] => fail
      | _ => destruct x eqn:?
      end
  end.

(** Boolean guards to propositions. *)
Ltac bool_to_prop :=
  repeat match goal with
  | H : _ && _ = true |- _ => apply andb_true_iff in H; destruct H
  | H : _ && _ = false |- _ => apply andb_false_iff in H
  | H : _ || _ = true |- _ => apply orb_true_iff in H
  | H : _ || _ = false |- _ => apply orb_false_iff in H; destruct H
  | H : negb _ = true |- _ => apply negb_true_iff in H
  | H : negb _ = false |- _ => apply negb_false_iff in H
  | H : bool_decide _ = true |- _ => apply bool_decide_eq_true_1 in H
  | H : bool_decide _ = false |- _ => apply bool_decide_eq_false_1 in H
  | H : (_ <? _)%Z = true |- _ => apply Z.ltb_lt in H
  | H : (_ <? _)%Z = false |- _ => apply Z.ltb_ge in H
  | H : (_ <=? _)%Z = true |- _ => apply Z.leb_le in H
  | H : (_ <=? _)%Z = false |- _ => apply Z.leb_gt in H
  | H : (_ =? _)%Z = true |- _ => apply Z.eqb_eq in H
  | H : (_ =? _)%Z = false |- _ => apply Z.eqb_neq in H
  end.

(** Inversion of a computation in [result] that returned. *)
Ltac result_inv :=
  repeat match goal with
  | H : _ ≫= _ = Ok _ |- _ => apply result_bind_ok in H as (? & ? & ?)
  | H : throw_if _ _ = Ok _ |- _ => apply throw_if_ok in H
  | H : result_of_option _ _ = Ok _ |- _ => apply result_of_option_ok in H
  | H : mret _ = Ok _ |- _ => apply Ok_inj in H
  | H : ?a = ?x |- _ => is_var x; subst x
  end.

(** One step of symbolic execution of a [wp] goal. *)
Ltac wp_step :=
  lazymatch goal with
  | |- wp (mret _) _ _ => apply wp_ret
  | |- wp (throw _) _ _ => apply wp_throw
  | |- wp (lift _) _ _ => apply wp_lift
  | |- wp (gets _) _ _ => apply wp_gets
  | |- wp (modify _) _ _ => apply wp_modify
  | |- wp (_ ≫= _) _ _ => apply wp_bind
  | |- wp (try_catch _ _) _ _ => apply wp_try_catch
  | |- wp (when _ _) _ _ => apply wp_when; intro
  | |- wp (guard_throw _ _) _ _ => apply wp_guard_throw; intro
  end.

(** Generic lemmas on options, lists and integers. *)

Lemma option_guard_some {A} (b : bool) (x y : A) :
  (if b then Some x else None) = Some y <-> b = true /\ x = y.
Proof. destruct b; naive_solver. Qed.

Lemma forall_below (P : Z -> bool) (n : nat) :
  forallb (fun i => P (Z.of_nat i)) (seq 0 n) = true ->
  forall z, (0 <= z < Z.of_nat n)%Z -> P z = true.
Proof.
  rewrite forallb_forall. intros H z Hz.
  rewrite <- (Z2Nat.id z) by lia. apply H. apply in_seq. lia.
Qed.

(** [xs.sort(compare)] is stable. *)
Fixpoint insert_le {A} (le : A -> A -> bool) (x : A) (l : list A) : list A :=
  match l with
  | [] => [x]
  | y :: l' => if le x y then x :: l else y :: insert_le le x l'
  end.

Definition sort_le {A} (le : A -> A -> bool) (l : list A) : list A := foldr (insert_le le) [] l.

Lemma insert_le_perm {A} (le : A -> A -> bool) x l : insert_le le x l ≡ₚ x :: l.
Proof. induction l as [|y l IH]; cbn; [done|]. destruct (le x y); [done|]. rewrite IH. by constructor. Qed.

Lemma sort_le_perm {A} (le : A -> A -> bool) l : sort_le le l ≡ₚ l.
Proof. induction l as [|x l IH]; cbn; [done|]. rewrite insert_le_perm. by constructor. Qed.

(** ** Reflexive transitive closure of a step relation *)
Section Reachability.
  Context {S : Type} (step : S -> S -> Prop).

Inductive steps : S -> S -> Prop :=
  | steps_refl s : steps s s
  | steps_step s1 s2 s3 : step s1 s2 -> steps s2 s3 -> steps s1 s3.

Lemma steps_trans s1 s2 s3 : steps s1 s2 -> steps s2 s3 -> steps s1 s3.
Proof. induction 1; eauto using steps. Qed.

Lemma steps_invariant (I : S -> Prop) :
  (forall s s', step s s' -> I s -> I s') -> forall s s', steps s s' -> I s -> I s'.
Proof. intros HI s s'. induction 1; eauto. Qed.

Lemma steps_relation (R : S -> S -> Prop) :
  (forall s, R s s) -> (forall a b c, R a b -> R b c -> R a c) ->
  (forall s s', step s s' -> R s s') -> forall s s', steps s s' -> R s s'.
Proof. intros Hr Ht Hs s s'. induction 1; eauto. Qed.
End Reachability.
