(* ===== verification/JsString.v ===== *)
(** * JavaScript strings

    The string operations of the JavaScript standard library that the sources
    use, on ASCII strings: amounts, wallet addresses, transaction hashes, hex
    payloads and status words are ASCII.  A [string] is a sequence of code
    units; the operations work on its list of characters. *)

From S2P Require Import Prelude.
From stdpp Require Import base tactics list strings numbers.
From Stdlib Require Import Lia ZArith Ascii.
From Stdlib Require String.

Local Open Scope Z_scope.

Abbreviation chars := String.list_ascii_of_string.
Abbreviation of_chars := String.string_of_list_ascii.

Definition code (c : ascii) : Z := Z.of_N (N_of_ascii c).
Definition chr (z : Z) : ascii := ascii_of_N (Z.to_N z).

Definition is_digit (c : ascii) : bool := (48 <=? code c) && (code c <=? 57).
Definition digit_val (c : ascii) : Z := code c - 48.
Definition digit_chr (z : Z) : ascii := chr (48 + z).

(** WhiteSpace and LineTerminator of ECMAScript, ASCII part. *)
Definition is_space (c : ascii) : bool :=
  ((9 <=? code c) && (code c <=? 13)) || (code c =? 32).

Definition is_upper (c : ascii) : bool := (65 <=? code c) && (code c <=? 90).
Definition is_lower (c : ascii) : bool := (97 <=? code c) && (code c <=? 122).
Definition upper_char (c : ascii) : ascii := if is_lower c then chr (code c - 32) else c.
Definition lower_char (c : ascii) : ascii := if is_upper c then chr (code c + 32) else c.

Definition toUpperCase (s : string) : string := of_chars (map upper_char (chars s)).
Definition toLowerCase (s : string) : string := of_chars (map lower_char (chars s)).

Fixpoint drop_while (p : ascii -> bool) (l : list ascii) : list ascii :=
  match l with
  | [] => []
  | c :: l' => if p c then drop_while p l' else l
  end.

Definition trim_chars (l : list ascii) : list ascii :=
  rev (drop_while is_space (rev (drop_while is_space l))).

Definition trim (s : string) : string := of_chars (trim_chars (chars s)).

(** [s.split(sep)] for a one-character separator. *)
Fixpoint split_on (sep : ascii) (l : list ascii) : list (list ascii) :=
  match l with
  | [] => [[]]
  | c :: l' =>
      if Ascii.eqb c sep then [] :: split_on sep l'
      else match split_on sep l' with
           | w :: ws => (c :: w) :: ws
           | [] => [[c]]
           end
  end.

(** [s.padEnd(n, c)]. *)
Definition pad_end (n : nat) (c : ascii) (l : list ascii) : list ascii :=
  l ++ replicate (n - length l) c.

(** [s.padStart(n, c)]. *)
Definition pad_start (n : nat) (c : ascii) (l : list ascii) : list ascii :=
  replicate (n - length l) c ++ l.

(** [s.includes(t)] *)
Fixpoint starts_with (t s : list ascii) : bool :=
  match t, s with
  | [], _ => true
  | a :: t', b :: s' => Ascii.eqb a b && starts_with t' s'
  | _ :: _, [] => false
  end.

Fixpoint includes_chars (s t : list ascii) : bool :=
  starts_with t s || match s with [] => false | _ :: s' => includes_chars s' t end.

Definition includes (s t : string) : bool := includes_chars (chars s) (chars t).

(** The value of a list of digits in base [b], most significant first. *)
Definition digits_value (b : Z) (ds : list Z) : Z := fold_left (fun acc d => acc * b + d) ds 0.

Definition decimal_value (l : list ascii) : Z := digits_value 10 (map digit_val l).

Definition hex_digit (c : ascii) : option Z :=
  if is_digit c then Some (code c - 48)
  else if (97 <=? code c) && (code c <=? 102) then Some (code c - 87)
  else if (65 <=? code c) && (code c <=? 70) then Some (code c - 55)
  else None.

Definition is_hex (c : ascii) : bool :=
  match hex_digit c with Some _ => true | None => false end.

(** The lower-case hexadecimal digit of [0 <= n < 16]. *)
Definition hex_char (n : Z) : ascii := if n <? 10 then chr (48 + n) else chr (87 + n).

Definition radix_digit (b : Z) (c : ascii) : option Z :=
  match hex_digit c with
  | Some d => if d <? b then Some d else None
  | None => None
  end.

Definition radix_value (b : Z) (l : list ascii) : option Z :=
  match l with
  | [] => None
  | _ => ds ← mapM (radix_digit b) l; Some (digits_value b ds)
  end.

(** [BigInt(s)]: trims, reads an empty string as zero, accepts a sign only in
    front of decimal digits and the prefixes 0x, 0o and 0b; everything else is a
    SyntaxError. *)
Definition BigInt_chars (l : list ascii) : option Z :=
  match trim_chars l with
  | [] => Some 0
  | "-"%char :: r => Z.opp <$> radix_value 10 r
  | "+"%char :: r => radix_value 10 r
  | "0"%char :: ("x"%char | "X"%char) :: r => radix_value 16 r
  | "0"%char :: ("o"%char | "O"%char) :: r => radix_value 8 r
  | "0"%char :: ("b"%char | "B"%char) :: r => radix_value 2 r
  | r => radix_value 10 r
  end.

(** [String(n)] for a natural number: decimal digits without leading zeros. *)
Fixpoint nat_digits (fuel : nat) (n : Z) (acc : list ascii) : list ascii :=
  match fuel with
  | O => acc
  | S fuel' =>
      let acc' := digit_chr (n mod 10) :: acc in
      if n <? 10 then acc' else nat_digits fuel' (n / 10) acc'
  end.

(** Decimal digits of [n]: [Z.log2 n + 1] steps are more than the digits of [n]. *)
Definition decimal_digits (n : Z) : list ascii := nat_digits (S (Z.to_nat (Z.log2 n))) n [].

Definition String_of_int (n : Z) : string :=
  if n <? 0 then of_chars ("-"%char :: decimal_digits (- n)) else of_chars (decimal_digits n).

(** ** Lemmas *)

Lemma code_range c : 0 <= code c < 256.
Proof. unfold code. pose proof (N_ascii_bounded c). lia. Qed.

Lemma chr_code c : chr (code c) = c.
Proof. unfold chr, code. rewrite N2Z.id. apply ascii_N_embedding. Qed.

Lemma code_chr z : 0 <= z < 256 -> code (chr z) = z.
Proof. intros H. unfold chr, code. rewrite N_ascii_embedding; lia. Qed.

Lemma code_inj c d : code c = code d -> c = d.
Proof. intros H. rewrite <- (chr_code c), <- (chr_code d). by rewrite H. Qed.

Lemma chars_of_chars l : chars (of_chars l) = l.
Proof. apply String.list_ascii_of_string_of_list_ascii. Qed.

Lemma of_chars_chars s : of_chars (chars s) = s.
Proof. apply String.string_of_list_ascii_of_string. Qed.

Lemma digits_value_app b xs ys :
  digits_value b (xs ++ ys) = digits_value b xs * b ^ Z.of_nat (length ys) + digits_value b ys.
Proof.
  unfold digits_value. rewrite fold_left_app.
  generalize (fold_left (fun acc d => acc * b + d) xs 0).
  induction ys as [|y ys IH] using rev_ind; intros a; cbn -[Z.of_nat].
  - rewrite Z.mul_1_r. lia.
  - rewrite !fold_left_app, length_app. cbn [fold_left length]. rewrite (IH a).
    rewrite Nat2Z.inj_add, Z.pow_add_r by lia. cbn. lia.
Qed.

Lemma digits_value_snoc b xs y : digits_value b (xs ++ [y]) = digits_value b xs * b + y.
Proof. rewrite digits_value_app. unfold digits_value at 2. cbn. lia. Qed.

Lemma digits_value_range b ds :
  1 < b -> Forall (fun d => 0 <= d < b) ds ->
  0 <= digits_value b ds < b ^ Z.of_nat (length ds).
Proof.
  intros Hb. induction ds as [|d ds IH] using rev_ind; intros H; [cbn; lia|].
  apply Forall_app in H as [H1 H2]. inversion H2 as [|? ? Hd _]; subst.
  specialize (IH H1). rewrite digits_value_snoc, length_app. cbn [length].
  rewrite Nat2Z.inj_add, Z.pow_add_r by lia. nia.
Qed.

Lemma digits_value_repeat0 b n : digits_value b (replicate n 0) = 0.
Proof.
  induction n as [|n IH]; [done|].
  replace (S n) with (n + 1)%nat by lia. rewrite replicate_add. cbn.
  rewrite digits_value_snoc, IH. lia.
Qed.

Lemma digit_val_range c : is_digit c = true -> 0 <= digit_val c < 10.
Proof. unfold is_digit, digit_val. intros H. bool_to_prop. lia. Qed.

Lemma digit_not_space c : is_digit c = true -> is_space c = false.
Proof.
  unfold is_digit, is_space. intros H. bool_to_prop.
  apply orb_false_iff. split; [apply andb_false_iff; right; apply Z.leb_gt | apply Z.eqb_neq]; lia.
Qed.

Lemma drop_while_none p c l : p c = false -> drop_while p (c :: l) = c :: l.
Proof. cbn. by intros ->. Qed.

Lemma drop_while_all_false p l : Forall (fun c => p c = false) l -> drop_while p l = l.
Proof. intros H. destruct H as [|c l Hc _]; [done|]. by apply drop_while_none. Qed.

Lemma trim_chars_no_space l : Forall (fun c => is_space c = false) l -> trim_chars l = l.
Proof.
  intros H. unfold trim_chars. rewrite (drop_while_all_false _ l H).
  rewrite drop_while_all_false by (apply List.Forall_rev; exact H). apply rev_involutive.
Qed.

Lemma trim_of_chars l : Forall (fun c => is_space c = false) l -> trim (of_chars l) = of_chars l.
Proof. intros H. unfold trim. by rewrite chars_of_chars, trim_chars_no_space. Qed.

Lemma split_on_none sep l : Forall (fun c => c <> sep) l -> split_on sep l = [l].
Proof.
  induction 1 as [|c l Hc H IH]; [done|]. cbn.
  destruct (Ascii.eqb_spec c sep); [done|]. by rewrite IH.
Qed.

Lemma split_on_app sep l r :
  Forall (fun c => c <> sep) l -> split_on sep (l ++ sep :: r) = l :: split_on sep r.
Proof.
  induction 1 as [|c l Hc H IH]; cbn.
  - by rewrite Ascii.eqb_refl.
  - destruct (Ascii.eqb_spec c sep); [done|]. by rewrite IH.
Qed.

Lemma radix_digit_decimal c : is_digit c = true -> radix_digit 10 c = Some (digit_val c).
Proof.
  intros H. unfold radix_digit, hex_digit. rewrite H.
  pose proof (digit_val_range c H). unfold digit_val in *.
  destruct (Z.ltb_spec (code c - 48) 10); [done|lia].
Qed.

Lemma mapM_digits l :
  Forall (fun c => is_digit c = true) l -> mapM (radix_digit 10) l = Some (map digit_val l).
Proof.
  induction 1 as [|c l Hc H IH]; [done|]. cbn. by rewrite radix_digit_decimal, IH.
Qed.

Lemma radix_value_decimal l :
  l <> [] -> Forall (fun c => is_digit c = true) l -> radix_value 10 l = Some (decimal_value l).
Proof.
  intros Hne H. destruct l as [|c l]; [done|]. unfold radix_value. by rewrite mapM_digits.
Qed.

Lemma is_digit_cases c :
  is_digit c = true ->
  c = "0"%char \/ c = "1"%char \/ c = "2"%char \/ c = "3"%char \/ c = "4"%char \/
  c = "5"%char \/ c = "6"%char \/ c = "7"%char \/ c = "8"%char \/ c = "9"%char.
Proof.
  destruct c as [[] [] [] [] [] [] [] []]; vm_compute; intros H; try discriminate; tauto.
Qed.

(** A non-empty string of decimal digits is read in base ten, leading zeros or not. *)
Lemma BigInt_digits l :
  l <> [] -> Forall (fun c => is_digit c = true) l -> BigInt_chars l = Some (decimal_value l).
Proof.
  intros Hne H. unfold BigInt_chars.
  rewrite trim_chars_no_space by (exact (List.Forall_impl _ digit_not_space H)).
  pose proof (radix_value_decimal l Hne H) as E.
  destruct H as [|c l Hc H]; [done|].
  destruct (is_digit_cases c Hc) as [->|Hc']; [|naive_solver].
  destruct H as [|d l Hd H]; [exact E|].
  destruct (is_digit_cases d Hd) as [->|[->|[->|[->|[->|[->|[->|[->|[->| ->]]]]]]]]]; exact E.
Qed.

Lemma is_digit_digit_chr d : 0 <= d < 10 -> is_digit (digit_chr d) = true /\ digit_val (digit_chr d) = d.
Proof.
  intros H. unfold is_digit, digit_val, digit_chr. rewrite code_chr by lia.
  split; [apply andb_true_iff; split; apply Z.leb_le; lia | lia].
Qed.

Lemma nat_digits_spec fuel n acc :
  0 <= n < 2 ^ Z.of_nat fuel -> (0 < fuel)%nat ->
  exists ds, nat_digits fuel n acc = ds ++ acc /\ ds <> [] /\
    Forall (fun c => is_digit c = true) ds /\ decimal_value ds = n.
Proof.
  revert n acc. induction fuel as [|fuel IH]; intros n acc Hn Hf; [lia|].
  pose proof (Z.mod_pos_bound n 10 ltac:(lia)) as Hm.
  destruct (is_digit_digit_chr (n mod 10) Hm) as [Hd Hv].
  cbn [nat_digits]. destruct (Z.ltb_spec n 10) as [Hlt|Hge].
  - exists [digit_chr (n mod 10)]. split_and!; [done|done|by constructor|].
    unfold decimal_value, digits_value. cbn [map fold_left]. rewrite Hv. rewrite Z.mod_small; lia.
  - rewrite Nat2Z.inj_succ, Z.pow_succ_r in Hn by lia.
    destruct (IH (n / 10) (digit_chr (n mod 10) :: acc)) as (ds & E & Hne & Hds & Hval).
    + split; [apply Z.div_pos; lia|]. apply Z.div_lt_upper_bound; lia.
    + destruct fuel; [cbn in Hn; lia|lia].
    + exists (ds ++ [digit_chr (n mod 10)]). rewrite E, <- app_assoc. split_and!; [done| | |].
      * by destruct ds.
      * apply Forall_app. split; [done|by constructor].
      * unfold decimal_value in *. rewrite map_app. cbn [map]. rewrite digits_value_snoc, Hval, Hv.
        pose proof (Z.div_mod n 10). lia.
Qed.

Lemma decimal_digits_spec n :
  0 <= n -> decimal_digits n <> [] /\ Forall (fun c => is_digit c = true) (decimal_digits n) /\
  decimal_value (decimal_digits n) = n.
Proof.
  intros Hn. unfold decimal_digits.
  destruct (nat_digits_spec (S (Z.to_nat (Z.log2 n))) n []) as (ds & E & H); [|lia|].
  - split; [done|]. pose proof (Z.log2_nonneg n).
    rewrite Nat2Z.inj_succ, Z2Nat.id by done.
    destruct (Z.eq_dec n 0) as [->|]; [done|]. apply Z.log2_spec. lia.
  - rewrite E, app_nil_r. tauto.
Qed.

Lemma hex_digit_char n : 0 <= n < 16 -> hex_digit (hex_char n) = Some n.
Proof.
  intros H.
  assert (E : forallb (fun k => bool_decide (hex_digit (hex_char (Z.of_nat k)) = Some (Z.of_nat k)))
                (seq 0 16) = true) by (vm_compute; reflexivity).
  pose proof (forall_below (fun z => bool_decide (hex_digit (hex_char z) = Some z)) 16 E n H) as Hn.
  by apply bool_decide_eq_true in Hn.
Qed.

Lemma is_hex_char n : 0 <= n < 16 -> is_hex (hex_char n) = true.
Proof. intros H. unfold is_hex. by rewrite hex_digit_char. Qed.
