(* ===== verification/JsDate.v ===== *)
(** * Dates

    [Date.prototype.toISOString] of a time in milliseconds since 1970: the civil
    calendar date (proleptic Gregorian) and the time of day, in UTC; and
    [Date.parse] of such strings. *)

From stdpp Require Import base tactics list strings numbers.
From Stdlib Require Import Lia ZArith Ascii.
From S2P Require Import Prelude JsString.

Local Open Scope Z_scope.

Definition DAY_MS : Z := 86400000.

(** The year, month (1-12) and day (1-31) of a day counted from 1970-01-01. Years
    start on the first of March, in cycles of 400 years. *)
Definition civil_of_days (days : Z) : Z * Z * Z :=
  let z := days + 719468 in
  let era := z / 146097 in
  let doe := z mod 146097 in
  let yoe := (doe - doe / 1460 + doe / 36524 - doe / 146096) / 365 in
  let doy := doe - (365 * yoe + yoe / 4 - yoe / 100) in
  let mp := (5 * doy + 2) / 153 in
  let d := doy - (153 * mp + 2) / 5 + 1 in
  let m := if mp <? 10 then mp + 3 else mp - 9 in
  (yoe + era * 400 + (if m <=? 2 then 1 else 0), m, d).

Definition digits_of (width : nat) (n : Z) : list ascii := pad_start width "0"%char (decimal_digits n).

(** Years outside 0-9999 are written with a sign and six digits. *)
Definition iso_year (y : Z) : list ascii :=
  if (0 <=? y) && (y <=? 9999) then digits_of 4 y
  else (if y <? 0 then "-"%char else "+"%char) :: digits_of 6 (Z.abs y).

Definition toISOString (ms : Z) : string :=
  let '(y, m, d) := civil_of_days (ms / DAY_MS) in
  let t := ms mod DAY_MS in
  of_chars (iso_year y ++ "-"%char :: digits_of 2 m ++ "-"%char :: digits_of 2 d ++ "T"%char ::
            digits_of 2 (t / 3600000) ++ ":"%char :: digits_of 2 (t / 60000 mod 60) ++ ":"%char ::
            digits_of 2 (t / 1000 mod 60) ++ "."%char :: digits_of 3 (t mod 1000) ++ ["Z"%char]).

(** ** [Date.parse]

    The strings of the ECMAScript format with a time in UTC: what it says of other
    strings is left to the implementation. *)

(** The day counted from 1970-01-01 of a date. *)
Definition days_of_civil (y m d : Z) : Z :=
  let y' := if m <=? 2 then y - 1 else y in
  let yoe := y' mod 400 in
  let doy := (153 * (if m <=? 2 then m + 9 else m - 3) + 2) / 5 + d - 1 in
  y' / 400 * 146097 + (yoe * 365 + yoe / 4 - yoe / 100 + doy) - 719468.

Definition days_in_month (y m : Z) : Z := days_of_civil (if m =? 12 then y + 1 else y) (if m =? 12 then 1 else m + 1) 1 - days_of_civil y m 1.

(** [n] digits, and the rest. *)
Definition take_digits (n : nat) (l : list ascii) : option (Z * list ascii) :=
  let ds := take n l in
  if bool_decide (length ds = n) && forallb is_digit ds then Some (decimal_value ds, drop n l) else None.

Definition take_char (c : ascii) (l : list ascii) : option (list ascii) :=
  match l with d :: l' => if Ascii.eqb c d then Some l' else None | [] => None end.

Definition Date_parse_iso (s : string) : option Z :=
  '(y, l) ← take_digits 4 (chars s); l ← take_char "-" l;
  '(mo, l) ← take_digits 2 l; l ← take_char "-" l;
  '(d, l) ← take_digits 2 l; l ← take_char "T" l;
  '(h, l) ← take_digits 2 l; l ← take_char ":" l;
  '(mi, l) ← take_digits 2 l; l ← take_char ":" l;
  '(sec, l) ← take_digits 2 l;
  '(ms, l) ← match l with "."%char :: l' => take_digits 3 l' | _ => Some (0, l) end;
  l ← take_char "Z" l;
  if bool_decide (l = []) && (1 <=? mo) && (mo <=? 12) && (1 <=? d) && (d <=? days_in_month y mo)
     && (h <? 24) && (mi <? 60) && (sec <? 60)
  then Some (days_of_civil y mo d * DAY_MS + h * 3600000 + mi * 60000 + sec * 1000 + ms) else None.

(** The implementation's answer on the other strings; [None] is NaN. *)
Class DateParser := { date_parse_other : string -> option Z }.

Definition Date_parse `{DateParser} (s : string) : option Z :=
  match Date_parse_iso s with Some t => Some t | None => date_parse_other s end.

Example parse_iso : Date_parse_iso "2026-01-01T00:00:00Z" = Some 1767225600000.
Proof. vm_compute. reflexivity. Qed.

Example parse_iso_millis : Date_parse_iso (toISOString 1709210096789) = Some 1709210096789.
Proof. vm_compute. reflexivity. Qed.

Example parse_iso_no_leap : Date_parse_iso "2023-02-29T00:00:00Z" = None.
Proof. vm_compute. reflexivity. Qed.

Example epoch : toISOString 0 = "1970-01-01T00:00:00.000Z"%string.
Proof. vm_compute. reflexivity. Qed.

Example before_epoch : toISOString (-1) = "1969-12-31T23:59:59.999Z"%string.
Proof. vm_compute. reflexivity. Qed.

Example far_year : toISOString 8640000000000000 = "+275760-09-13T00:00:00.000Z"%string.
Proof. vm_compute. reflexivity. Qed.

Example leap_day : toISOString 1709210096789 = "2024-02-29T12:34:56.789Z"%string.
Proof. vm_compute. reflexivity. Qed.
