(* ===== verification/JsNum.v ===== *)
(** * JavaScript numbers

    A JavaScript number is an IEEE 754 binary64 value.  The model uses the
    standard library's executable specification [SpecFloat] at precision 53 and
    maximal exponent 1024, so every operation rounds as the source's does.
    Integer-valued quantities that stay below 2^53 (identifiers, counters, unix
    times, scores, units of the token) are plain [Z] in the other files. *)

From S2P Require Import Prelude JsString.
From stdpp Require Import base tactics list strings numbers.
From Stdlib Require Import Lia ZArith Ascii.
From Stdlib Require Export SpecFloat.

Local Open Scope Z_scope.

Declare Scope num_scope.
Delimit Scope num_scope with num.

Abbreviation num := spec_float.

Definition prec : Z := 53.
Definition emax : Z := 1024.

Definition nadd : num -> num -> num := SFadd prec emax.
Definition nsub : num -> num -> num := SFsub prec emax.
Definition nmul : num -> num -> num := SFmul prec emax.
Definition ndiv : num -> num -> num := SFdiv prec emax.
Definition nltb : num -> num -> bool := SFltb.
Definition nleb : num -> num -> bool := SFleb.
Definition neqb : num -> num -> bool := SFeqb.

Notation "x + y" := (nadd x y) : num_scope.
Notation "x - y" := (nsub x y) : num_scope.
Notation "x * y" := (nmul x y) : num_scope.
Notation "x / y" := (ndiv x y) : num_scope.
Notation "x <? y" := (nltb x y) : num_scope.
Notation "x <=? y" := (nleb x y) : num_scope.
Notation "x =? y" := (neqb x y) : num_scope.

(** The number closest to an integer. *)
Definition num_of_Z (z : Z) : num := binary_normalize prec emax z 0 false.

(** The number closest to the quotient of two positive integers: the value of a
    decimal literal, [Number("12.34")] or [Number(bigint)]. *)
Definition num_of_ratio (p q : positive) : num :=
  let '(m, e, l) := SFdiv_core_binary prec emax (Zpos p) 0 (Zpos q) 0 in
  binary_round_aux prec emax false m e l.

(** The literal [n / 10^k]. *)
Definition lit (n : Z) (k : nat) : num :=
  match n with
  | Z0 => S754_zero false
  | Zpos p => num_of_ratio p (Z.to_pos (10 ^ Z.of_nat k))
  | Zneg p => SFopp (num_of_ratio p (Z.to_pos (10 ^ Z.of_nat k)))
  end.

(** [Number.isFinite]. *)
Definition isFinite (x : num) : bool :=
  match x with S754_zero _ | S754_finite _ _ _ => true | _ => false end.

Definition isNaN (x : num) : bool := match x with S754_nan => true | _ => false end.

(** [Math.max] and [Math.min]: NaN if an argument is NaN, and +0 above -0. *)
Definition nmax (x y : num) : num :=
  match x, y with
  | S754_nan, _ | _, S754_nan => S754_nan
  | S754_zero sx, S754_zero sy => S754_zero (sx && sy)
  | _, _ => if nltb x y then y else x
  end.

Definition nmin (x y : num) : num :=
  match x, y with
  | S754_nan, _ | _, S754_nan => S754_nan
  | S754_zero sx, S754_zero sy => S754_zero (sx || sy)
  | _, _ => if nltb y x then y else x
  end.

(** The integer part functions on a finite number, as exact integers. *)
Definition num_floor (x : num) : option Z :=
  match x with
  | S754_zero _ => Some 0
  | S754_finite s m e =>
      let z := if s then Zneg m else Zpos m in
      Some (if 0 <=? e then z * 2 ^ e else z / 2 ^ (- e))
  | _ => None
  end.

(** The value of a number that is an integer ([Number.isInteger]). *)
Definition num_integer (x : num) : option Z :=
  match x with
  | S754_zero _ => Some 0
  | S754_finite s m e =>
      let z := if s then Zneg m else Zpos m in
      if 0 <=? e then Some (z * 2 ^ e) else if z mod 2 ^ (- e) =? 0 then Some (z / 2 ^ (- e)) else None
  | _ => None
  end.

(** [Math.round]: the nearest integer, ties upwards. *)
Definition num_round (x : num) : option Z :=
  match x with
  | S754_zero _ => Some 0
  | S754_finite s m e =>
      let z := if s then Zneg m else Zpos m in
      Some (if 0 <=? e then z * 2 ^ e else (2 * z + 2 ^ (- e)) / (2 * 2 ^ (- e)))
  | _ => None
  end.

(** [Math.ceil]. *)
Definition num_ceil (x : num) : option Z := Z.opp <$> num_floor (SFopp x).

(** [m * 10^e], rounded to the closest number. *)
Definition decimal_num (m e : Z) : num :=
  match m with
  | Zpos p =>
      if 0 <=? e then num_of_Z (m * 10 ^ e) else num_of_ratio p (Z.to_pos (10 ^ (- e)))
  | _ => S754_zero false
  end.

(** Splits the leading decimal digits off. *)
Fixpoint span_digits (l : list ascii) : list ascii * list ascii :=
  match l with
  | c :: l' =>
      if is_digit c then let '(ds, r) := span_digits l' in (c :: ds, r) else ([], l)
  | [] => ([], [])
  end.

(** An unsigned decimal literal: digits, optional fraction, optional exponent. *)
Definition unsigned_decimal (l : list ascii) : option num :=
  let '(w, r) := span_digits l in
  let '(f, r) := match r with "."%char :: r' => span_digits r' | _ => ([], r) end in
  match w ++ f with
  | [] => None
  | ds =>
      let m := decimal_value ds in
      let e0 := - Z.of_nat (length f) in
      match r with
      | [] => Some (decimal_num m e0)
      | ("e"%char | "E"%char) :: r' =>
          let '(neg, r'') := match r' with
                             | "-"%char :: q => (true, q)
                             | "+"%char :: q => (false, q)
                             | q => (false, q)
                             end in
          match span_digits r'' with
          | (x :: xs, []) =>
              let e := decimal_value (x :: xs) in
              Some (decimal_num m (if neg then e0 - e else e0 + e))
          | _ => None
          end
      | _ => None
      end
  end.

Definition signed_decimal (l : list ascii) : option num :=
  let unsigned r :=
    if bool_decide (of_chars r = "Infinity") then Some (S754_infinity false)
    else unsigned_decimal r in
  match l with
  | "-"%char :: r => SFopp <$> unsigned r
  | "+"%char :: r => unsigned r
  | r => unsigned r
  end.

(** [Number(s)]. *)
Definition Number_of_string (s : string) : num :=
  match trim_chars (chars s) with
  | [] => S754_zero false
  | "0"%char :: ("x"%char | "X"%char) :: r => default S754_nan (num_of_Z <$> radix_value 16 r)
  | "0"%char :: ("o"%char | "O"%char) :: r => default S754_nan (num_of_Z <$> radix_value 8 r)
  | "0"%char :: ("b"%char | "B"%char) :: r => default S754_nan (num_of_Z <$> radix_value 2 r)
  | r => default S754_nan (signed_decimal r)
  end.

(** [Number(n)] for a bigint. *)
Definition Number_of_bigint (n : Z) : num := num_of_Z n.

(** The same, as the integer it is: the contracts' values have at most 256 bits, far
    from infinity. *)
Definition Number_Z (n : Z) : Z := default 0 (num_floor (Number_of_bigint n)).

Definition nonneg (x : num) : bool :=
  match x with
  | S754_zero _ => true
  | S754_infinity s | S754_finite s _ _ => negb s
  | S754_nan => false
  end.

Create HintDb jsnum.

(** ** Order lemmas

    Comparison of two numbers that are not NaN is the lexicographic comparison of
    a key: sign class, exponent, mantissa. *)
Definition key (x : num) : option (Z * Z * Z) :=
  match x with
  | S754_nan => None
  | S754_infinity true => Some (-2, 0, 0)
  | S754_finite true m e => Some (-1, - e, Zneg m)
  | S754_zero _ => Some (0, 0, 0)
  | S754_finite false m e => Some (1, e, Zpos m)
  | S754_infinity false => Some (2, 0, 0)
  end.

Definition key_compare (a b : Z * Z * Z) : comparison :=
  let '(a1, a2, a3) := a in
  let '(b1, b2, b3) := b in
  match a1 ?= b1 with
  | Eq => match a2 ?= b2 with Eq => a3 ?= b3 | c => c end
  | c => c
  end.

Definition key_le (a b : Z * Z * Z) : Prop :=
  let '(a1, a2, a3) := a in
  let '(b1, b2, b3) := b in
  a1 < b1 \/ (a1 = b1 /\ (a2 < b2 \/ (a2 = b2 /\ a3 <= b3))).

Definition key_lt (a b : Z * Z * Z) : Prop :=
  let '(a1, a2, a3) := a in
  let '(b1, b2, b3) := b in
  a1 < b1 \/ (a1 = b1 /\ (a2 < b2 \/ (a2 = b2 /\ a3 < b3))).

Lemma key_compare_spec a b :
  match key_compare a b with
  | Lt => key_lt a b | Eq => a = b | Gt => key_lt b a
  end.
Proof.
  destruct a as [[a1 a2] a3], b as [[b1 b2] b3]. cbn.
  destruct (Z.compare_spec a1 b1); [|lia..].
  destruct (Z.compare_spec a2 b2); [|lia..].
  destruct (Z.compare_spec a3 b3); [|lia..]. by subst.
Qed.

Lemma SFcompare_key x y :
  SFcompare x y = a ← key x; b ← key y; Some (key_compare a b).
Proof.
  destruct x as [sx|sx| |[] mx ex], y as [sy|sy| |[] my ey]; try destruct sx; try destruct sy;
    try done; cbn [SFcompare key mbind option_bind key_compare].
  change (-1 ?= -1) with Eq. cbn. rewrite Z.compare_opp, (Z.compare_antisym ex ey).
  by destruct (ex ?= ey).
Qed.

(** Opens every comparison key of the context. *)
Ltac destruct_keys :=
  repeat match goal with k : (Z * Z * Z)%type |- _ => destruct k as [[? ?] ?] end.

Lemma nltb_key x y :
  nltb x y = true <-> exists a b, key x = Some a /\ key y = Some b /\ key_lt a b.
Proof.
  unfold nltb, SFltb. rewrite SFcompare_key.
  destruct (key x) as [a|], (key y) as [b|]; cbn; try (split; [done|naive_solver]).
  pose proof (key_compare_spec a b) as H. destruct (key_compare a b).
  - subst. split; [done|]. intros (? & ? & [= <-] & [= <-] & Hlt).
    destruct b as [[? ?] ?]; cbn in Hlt; lia.
  - naive_solver.
  - split; [done|]. intros (? & ? & [= <-] & [= <-] & Hlt).
    destruct_keys; cbn in *; lia.
Qed.

Lemma nleb_key x y :
  nleb x y = true <-> exists a b, key x = Some a /\ key y = Some b /\ key_le a b.
Proof.
  unfold nleb, SFleb. rewrite SFcompare_key.
  destruct (key x) as [a|], (key y) as [b|]; cbn; try (split; [done|naive_solver]).
  pose proof (key_compare_spec a b) as H.
  destruct (key_compare a b), a as [[? ?] ?], b as [[? ?] ?]; cbn in *.
  - split; [|done]. intros _. eexists _, _. split_and!; [done..|]. simplify_eq; cbn; lia.
  - split; [|done]. intros _. eexists _, _. split_and!; [done..|]. cbn; lia.
  - split; [done|]. intros (? & ? & [= <-] & [= <-] & Hlt); cbn in Hlt; lia.
Qed.

Lemma nltb_trans x y z : nltb x y = true -> nltb y z = true -> nltb x z = true.
Proof.
  rewrite !nltb_key. intros (a & b & Ha & Hb & H1) (b' & c & Hb' & Hc & H2). simplify_eq.
  exists a, c. split_and!; [done..|].
  destruct_keys; cbn in *; lia.
Qed.

Lemma nleb_nltb_trans x y z : nleb x y = true -> nltb y z = true -> nltb x z = true.
Proof.
  rewrite !nltb_key, nleb_key. intros (a & b & Ha & Hb & H1) (b' & c & Hb' & Hc & H2). simplify_eq.
  exists a, c. split_and!; [done..|].
  destruct_keys; cbn in *; lia.
Qed.

Lemma nleb_trans x y z : nleb x y = true -> nleb y z = true -> nleb x z = true.
Proof.
  rewrite !nleb_key. intros (a & b & Ha & Hb & H1) (b' & c & Hb' & Hc & H2). simplify_eq.
  exists a, c. split_and!; [done..|].
  destruct_keys; cbn in *; lia.
Qed.

Lemma nltb_irrefl x : nltb x x = false.
Proof.
  apply not_true_is_false. rewrite nltb_key. intros (a & b & Ha & Hb & H). simplify_eq.
  destruct_keys; cbn in *; lia.
Qed.

Lemma nltb_nleb x y : nltb x y = true -> nleb x y = true.
Proof.
  rewrite nltb_key, nleb_key. intros (a & b & Ha & Hb & H). exists a, b. split_and!; [done..|].
  destruct_keys; cbn in *; lia.
Qed.

Lemma nltb_false_nleb x y : isNaN x = false -> isNaN y = false -> nltb x y = false -> nleb y x = true.
Proof.
  intros Hx Hy H. apply not_true_iff_false in H. rewrite nltb_key in H. rewrite nleb_key.
  destruct (key x) as [a|] eqn:Ea; [|by destruct x as [|[]| |[] ? ?]].
  destruct (key y) as [b|] eqn:Eb; [|by destruct y as [|[]| |[] ? ?]].
  exists b, a. split_and!; [done..|].
  assert (Hn : ~ key_lt a b) by naive_solver.
  destruct a as [[a1 a2] a3], b as [[b1 b2] b3]. cbn in *. lia.
Qed.

(** ** Signs: products, quotients and sums of non-negative numbers *)

Lemma shr_1_nonneg mrs : 0 <= shr_m mrs -> 0 <= shr_m (shr_1 mrs).
Proof. destruct mrs as [[|[p|p|]|p] r t]; cbn; lia. Qed.

Lemma iter_shr_nonneg p mrs : 0 <= shr_m mrs -> 0 <= shr_m (iter_pos shr_1 p mrs).
Proof. revert mrs. induction p; cbn; auto using shr_1_nonneg. Qed.

Lemma shr_record_of_loc_m m l : shr_m (shr_record_of_loc m l) = m.
Proof. by destruct l as [|[]]. Qed.

Lemma shr_fexp_nonneg m e l : 0 <= m -> 0 <= shr_m (fst (shr_fexp prec emax m e l)).
Proof.
  intros H. unfold shr_fexp, shr. destruct (_ - e); cbn; rewrite ?shr_record_of_loc_m; try done.
  apply iter_shr_nonneg. by rewrite shr_record_of_loc_m.
Qed.

Lemma round_nearest_even_nonneg m l : 0 <= m -> 0 <= round_nearest_even m l.
Proof. intros H. destruct l as [|[]]; cbn; try destruct (Z.even m); lia. Qed.

Lemma binary_round_aux_nonneg m e l :
  0 <= m -> nonneg (binary_round_aux prec emax false m e l) = true.
Proof.
  intros Hm. unfold binary_round_aux.
  destruct (shr_fexp prec emax m e l) as [mrs e1] eqn:E1.
  destruct (shr_fexp prec emax (round_nearest_even _ _) e1 loc_Exact) as [mrs2 e2] eqn:E2.
  assert (H1 : 0 <= shr_m mrs).
  { change mrs with (fst (mrs, e1)). rewrite <- E1. by apply shr_fexp_nonneg. }
  assert (H2 : 0 <= shr_m mrs2).
  { change mrs2 with (fst (mrs2, e2)). rewrite <- E2.
    by apply shr_fexp_nonneg, round_nearest_even_nonneg. }
  destruct (shr_m mrs2); [done| |lia]. by destruct (e2 <=? _).
Qed.

Lemma nmul_nonneg x y :
  isFinite x = true -> isFinite y = true -> nonneg x = true -> nonneg y = true ->
  nonneg (nmul x y) = true.
Proof.
  destruct x as [sx|sx| |[] mx ex], y as [sy|sy| |[] my ey]; try done; intros _ _ _ _.
  by apply binary_round_aux_nonneg.
Qed.

Lemma ndiv_nonneg x y :
  isFinite x = true -> nonneg x = true -> isFinite y = true -> nltb (S754_zero false) y = true ->
  nonneg (ndiv x y) = true.
Proof.
  destruct x as [sx|sx| |[] mx ex], y as [sy|sy| |[] my ey]; try done; intros _ _ _ _.
  unfold ndiv, SFdiv. destruct (SFdiv_core_binary _ _ _ _ _ _) as [[m e] l] eqn:E.
  apply binary_round_aux_nonneg. unfold SFdiv_core_binary in E.
  set (n := match _ with Z0 => _ | Zpos _ => _ | Zneg _ => _ end) in E.
  assert (Hn : 0 <= n).
  { unfold n. clear E n. destruct (ex - ey - _); [lia|apply Z.shiftl_nonneg; lia|lia]. }
  pose proof (Z_div_mod n (Zpos my) ltac:(lia)) as Hd. destruct (Z.div_eucl n (Zpos my)) as [q r].
  simplify_eq. nia.
Qed.

Lemma binary_round_nonneg m e : nonneg (binary_round prec emax false m e) = true.
Proof.
  unfold binary_round. destruct (shl_align _ _ _). by apply binary_round_aux_nonneg.
Qed.

Lemma num_of_Z_nonneg z : 0 <= z -> nonneg (num_of_Z z) = true.
Proof. destruct z; intros; [done|apply binary_round_nonneg|lia]. Qed.

Lemma nadd_nonneg x y : nonneg x = true -> nonneg y = true -> nonneg (nadd x y) = true.
Proof.
  destruct x as [sx|[]| |[] mx ex], y as [sy|[]| |[] my ey]; try done; intros _ _.
  1: by destruct sx, sy.
  unfold nadd, SFadd. cbn [cond_Zopp Z.add binary_normalize]. apply binary_round_nonneg.
Qed.

#[export] Hint Resolve nmul_nonneg ndiv_nonneg nadd_nonneg num_of_Z_nonneg : jsnum.
