(* ===== verification/JsBits.v ===== *)
(** * 32-bit operators and byte sequences of JavaScript

    The bitwise operators convert their operands to 32-bit integers: [<<] and [|]
    give a signed result, [>>>] an unsigned one.  Byte arrays ([Uint8Array],
    [Buffer]) are lists of integers between 0 and 255. *)

From stdpp Require Import base tactics list strings numbers.
From Stdlib Require Import Lia ZArith Ascii.
From S2P Require Import Prelude JsString.

Local Open Scope Z_scope.

Definition to_uint32 (z : Z) : Z := z mod 2 ^ 32.
Definition to_int32 (z : Z) : Z := (z + 2 ^ 31) mod 2 ^ 32 - 2 ^ 31.

Definition js_shl (a n : Z) : Z := to_int32 (Z.shiftl (to_int32 a) (n mod 32)).
Definition js_or (a b : Z) : Z := to_int32 (Z.lor (to_int32 a) (to_int32 b)).
Definition js_xor (a b : Z) : Z := to_int32 (Z.lxor (to_int32 a) (to_int32 b)).
Definition js_and (a b : Z) : Z := to_int32 (Z.land (to_int32 a) (to_int32 b)).
Definition js_ushr (a n : Z) : Z := Z.shiftr (to_uint32 a) (n mod 32).

Definition byte_ok (b : Z) : Prop := 0 <= b < 256.
Definition byte_okb (b : Z) : bool := (0 <=? b) && (b <? 256).

(** [bytes[i] ?? 0]. *)
Definition byte_at (bytes : list Z) (i : nat) : Z := default 0 (bytes !! i).

(** [bytes.slice(a, b)] for [0 <= a <= b]. *)
Definition slice (a b : nat) (bytes : list Z) : list Z := take (b - a) (drop a bytes).

(** Big-endian value of a byte sequence: the reference for the fixed-width reads. *)
Definition be_value (bytes : list Z) : Z := digits_value 256 bytes.

(** The [n] lowest digits of [v] in base [base], most significant first. *)
Fixpoint be_digits (base : Z) (n : nat) (v : Z) : list Z :=
  match n with
  | O => []
  | S n' => be_digits base n' (v / base) ++ [v mod base]
  end.

(** Big-endian encoding on [n] bytes. *)
Abbreviation be_bytes := (be_digits 256).

(** ** Lemmas *)

Lemma to_int32_small z : - 2 ^ 31 <= z < 2 ^ 31 -> to_int32 z = z.
Proof. intros H. unfold to_int32. rewrite Z.mod_small; lia. Qed.

Lemma to_int32_mod z : to_int32 z mod 2 ^ 32 = z mod 2 ^ 32.
Proof.
  unfold to_int32. rewrite Zminus_mod_idemp_l.
  by replace (z + 2 ^ 31 - 2 ^ 31) with z by lia.
Qed.

Lemma to_int32_eq_mod a b : a mod 2 ^ 32 = b mod 2 ^ 32 -> to_int32 a = to_int32 b.
Proof.
  intros H. unfold to_int32. rewrite (Z.add_mod a), (Z.add_mod b), H by lia. done.
Qed.

Lemma testbit_mod32 z i : 0 <= i < 32 -> Z.testbit (z mod 2 ^ 32) i = Z.testbit z i.
Proof. intros H. apply Z.mod_pow2_bits_low. lia. Qed.

Lemma testbit_int32 z i : 0 <= i < 32 -> Z.testbit (to_int32 z) i = Z.testbit z i.
Proof.
  intros H. rewrite <- (testbit_mod32 (to_int32 z)), <- (testbit_mod32 z) by done.
  by rewrite to_int32_mod.
Qed.

(** Two integers agree modulo 2^n exactly when their low [n] bits agree. *)
Lemma eq_mod_bits n a b :
  0 <= n -> (forall i, 0 <= i < n -> Z.testbit a i = Z.testbit b i) -> a mod 2 ^ n = b mod 2 ^ n.
Proof.
  intros Hn H. apply Z.bits_inj'. intros i Hi.
  destruct (Z.lt_ge_cases i n).
  - rewrite !Z.mod_pow2_bits_low by lia. apply H. lia.
  - by rewrite !Z.mod_pow2_bits_high by lia.
Qed.

Lemma shiftl_mod32 a k :
  0 <= k -> Z.shiftl (to_int32 a) k mod 2 ^ 32 = Z.shiftl a k mod 2 ^ 32.
Proof.
  intros Hk. apply eq_mod_bits; [lia|]. intros i Hi.
  rewrite !Z.shiftl_spec by lia. destruct (Z.lt_ge_cases i k).
  - by rewrite !Z.testbit_neg_r by lia.
  - apply testbit_int32. lia.
Qed.

Lemma js_shl_mod a n : js_shl a n mod 2 ^ 32 = Z.shiftl a (n mod 32) mod 2 ^ 32.
Proof.
  unfold js_shl. rewrite to_int32_mod. apply shiftl_mod32.
  apply Z.mod_pos_bound. lia.
Qed.

Lemma js_or_mod a b : js_or a b mod 2 ^ 32 = Z.lor a b mod 2 ^ 32.
Proof.
  unfold js_or. rewrite to_int32_mod. apply eq_mod_bits; [lia|]. intros i Hi.
  by rewrite !Z.lor_spec, !testbit_int32.
Qed.

Lemma lor_mod32 a a' b b' :
  a mod 2 ^ 32 = a' mod 2 ^ 32 -> b mod 2 ^ 32 = b' mod 2 ^ 32 ->
  Z.lor a b mod 2 ^ 32 = Z.lor a' b' mod 2 ^ 32.
Proof.
  intros Ha Hb. apply eq_mod_bits; [lia|]. intros i Hi. rewrite !Z.lor_spec.
  by rewrite <- (testbit_mod32 a), <- (testbit_mod32 b), Ha, Hb, !testbit_mod32.
Qed.

(** Disjoint bit ranges: [lor] of a shifted value and a smaller one is a sum. *)
Lemma lor_shiftl_add a b k : 0 <= k -> 0 <= b < 2 ^ k -> Z.lor (Z.shiftl a k) b = a * 2 ^ k + b.
Proof.
  intros Hk Hb.
  assert (H0 : Z.land (Z.shiftl a k) b = 0).
  { apply Z.bits_inj'. intros i Hi. rewrite Z.land_spec, Z.shiftl_spec, Z.bits_0 by done.
    destruct (Z.lt_ge_cases i k); [by rewrite Z.testbit_neg_r by lia|].
    rewrite <- (Z.mod_small b (2 ^ k)) by done.
    by rewrite Z.mod_pow2_bits_high, andb_false_r by lia. }
  rewrite <- Z.lxor_lor, <- Z.add_nocarry_lxor by done. by rewrite Z.shiftl_mul_pow2.
Qed.

Lemma be_value_range bytes :
  Forall byte_ok bytes -> 0 <= be_value bytes < 256 ^ Z.of_nat (length bytes).
Proof. intros H. apply digits_value_range; [lia|]. done. Qed.

Lemma be_value_snoc bytes b : be_value (bytes ++ [b]) = be_value bytes * 256 + b.
Proof. apply digits_value_snoc. Qed.

Lemma be_value_app xs ys :
  be_value (xs ++ ys) = be_value xs * 256 ^ Z.of_nat (length ys) + be_value ys.
Proof. apply digits_value_app. Qed.

Lemma be_digits_length base n v : length (be_digits base n v) = n.
Proof. revert v. induction n; intros v; cbn; [done|]. rewrite length_app, IHn. cbn. lia. Qed.

Lemma be_digits_ok base n v : 1 < base -> Forall (fun d => 0 <= d < base) (be_digits base n v).
Proof.
  intros Hb. revert v. induction n; intros v; cbn; [constructor|]. apply Forall_app. split; [done|].
  constructor; [|done]. apply Z.mod_pos_bound. lia.
Qed.

Lemma digits_value_be base n v :
  1 < base -> digits_value base (be_digits base n v) = v mod base ^ Z.of_nat n.
Proof.
  intros Hb. revert v. induction n as [|n IH]; intros v; [cbn; by rewrite Z.mod_1_r|].
  cbn [be_digits]. rewrite digits_value_snoc, IH, Nat2Z.inj_succ, Z.pow_succ_r by lia.
  rewrite Z.rem_mul_r by lia. lia.
Qed.

Lemma be_digits_value base ds :
  1 < base -> Forall (fun d => 0 <= d < base) ds ->
  be_digits base (length ds) (digits_value base ds) = ds.
Proof.
  intros Hb. induction ds as [|b ds IH] using rev_ind; intros H; [done|].
  apply Forall_app in H as [H1 H2]. inversion H2 as [|? ? Hd _]; subst.
  rewrite length_app. cbn [length]. rewrite Nat.add_1_r. cbn [be_digits].
  rewrite digits_value_snoc. rewrite Z.div_add_l, (Z.div_small b), Z.add_0_r by lia.
  rewrite IH by done. rewrite Z.add_comm, Z.mod_add, Z.mod_small by lia. done.
Qed.

Lemma be_bytes_length n v : length (be_bytes n v) = n.
Proof. apply be_digits_length. Qed.

Lemma be_bytes_ok n v : Forall byte_ok (be_bytes n v).
Proof. by apply be_digits_ok. Qed.

Lemma be_value_bytes n v : be_value (be_bytes n v) = v mod 256 ^ Z.of_nat n.
Proof. by apply digits_value_be. Qed.

Lemma be_bytes_value bytes :
  Forall byte_ok bytes -> be_bytes (length bytes) (be_value bytes) = bytes.
Proof. intros H. by apply be_digits_value. Qed.

Lemma byte_okb_true b : byte_okb b = true <-> byte_ok b.
Proof.
  unfold byte_okb, byte_ok. rewrite andb_true_iff, Z.leb_le, Z.ltb_lt. done.
Qed.

Lemma byte_at_ok bytes i : Forall byte_ok bytes -> byte_ok (byte_at bytes i).
Proof.
  intros H. unfold byte_at. destruct (bytes !! i) eqn:E; cbn; [|red; lia].
  by eapply Forall_lookup_1 in E.
Qed.
