(* ===== verification/AmountUnits.v ===== *)
(** * Amounts in token units ([backend/src/common/amount-units.ts])

    [toUnits] turns a human amount into integer units of the settlement token,
    with the number of decimals the process selected at start-up. *)

From S2P Require Import Prelude JsString.
From stdpp Require Import base tactics list strings numbers.
From Stdlib Require Import Lia ZArith Ascii.

Local Open Scope Z_scope.

(** ** Model *)

Definition EVM_USDC_DECIMALS : nat := 6.
Definition STELLAR_TOKEN_DECIMALS : nat := 7.

(** [process.env.BLOCKCHAIN_GATEWAY], read once when the module is loaded. *)
Definition TOKEN_DECIMALS (gateway : option string) : nat :=
  if bool_decide (toLowerCase (trim (default "" gateway)) = "soroban")
  then STELLAR_TOKEN_DECIMALS else EVM_USDC_DECIMALS.

Definition TOKEN_UNIT (decimals : nat) : Z := 10 ^ Z.of_nat decimals.

(** The argument of [toUnits]: a string, an integer-valued number (rendered
    without an exponent, so below 10^21 in absolute value), or a bigint. *)
Inductive amount_arg :=
  | AString (s : string)
  | ANumber (n : Z)
  | ABigint (n : Z).

Definition toUnits_string (decimals : nat) (v : string) : result Z :=
  let raw := trim_chars (chars v) in
  let negative := match raw with "-"%char :: _ => true | _ => false end in
  let unsigned := if negative then tail raw else raw in
  let parts := split_on "."%char unsigned in
  let wholeRaw := default [] (head parts) in
  let fracRaw := default [] (parts !! 1%nat) in
  let whole := match wholeRaw with [] => ["0"%char] | _ => wholeRaw end in
  let frac := take decimals (pad_end decimals "0"%char fracRaw) in
  w ← result_of_option (SyntaxError "BigInt") (BigInt_chars whole);
  f ← result_of_option (SyntaxError "BigInt")
        (BigInt_chars (match frac with [] => ["0"%char] | _ => frac end));
  let units := w * 10 ^ Z.of_nat decimals + f in
  mret (if negative then - units else units).

Definition toUnits (decimals : nat) (v : amount_arg) : result Z :=
  match v with
  | ABigint n => Ok n
  | AString s => toUnits_string decimals s
  | ANumber n => toUnits_string decimals (String_of_int n)
  end.

(** [DEFAULT_CREDIT_LIMIT_USDC = toUnits(1)]. *)
Definition DEFAULT_CREDIT_LIMIT_USDC (decimals : nat) : Z :=
  match toUnits decimals (ANumber 1) with Ok n => n | Throw _ => 0 end.

(** ** Reference: a decimal numeral *)

(** A plain decimal numeral: optional minus sign, digits, optional fraction. *)
Record numeral := { num_neg : bool; num_whole : list ascii; num_frac : option (list ascii) }.

Definition numeral_ok (n : numeral) : Prop :=
  num_whole n <> [] /\ Forall (fun c => is_digit c = true) (num_whole n) /\
  Forall (fun c => is_digit c = true) (default [] (num_frac n)).

Definition numeral_text (n : numeral) : string :=
  of_chars ((if num_neg n then ["-"%char] else []) ++ num_whole n ++
            match num_frac n with Some f => "."%char :: f | None => [] end).

(** The exact value of the numeral times [10^decimals], truncated towards zero. *)
Definition numeral_units (decimals : nat) (n : numeral) : Z :=
  let f := default [] (num_frac n) in
  let magnitude := decimal_value (num_whole n ++ f) * 10 ^ Z.of_nat decimals
                   / 10 ^ Z.of_nat (length f) in
  if num_neg n then - magnitude else magnitude.

(** ** Lemmas *)

Lemma decimal_value_app xs ys :
  decimal_value (xs ++ ys) = decimal_value xs * 10 ^ Z.of_nat (length ys) + decimal_value ys.
Proof. unfold decimal_value. rewrite map_app, digits_value_app, length_map. done. Qed.

Lemma decimal_value_zeros n : decimal_value (replicate n "0"%char) = 0.
Proof.
  unfold decimal_value.
  replace (map digit_val (replicate n "0"%char)) with (replicate n 0); [apply digits_value_repeat0|].
  induction n as [|n IH]; cbn; [done|]. by rewrite <- IH.
Qed.

Lemma decimal_value_range l :
  Forall (fun c => is_digit c = true) l ->
  0 <= decimal_value l < 10 ^ Z.of_nat (length l).
Proof.
  intros H. unfold decimal_value. rewrite <- (length_map digit_val l).
  apply digits_value_range; [lia|]. apply List.Forall_map.
  exact (List.Forall_impl _ digit_val_range H).
Qed.

Lemma digit_not_char c d : is_digit c = true -> is_digit d = false -> c <> d.
Proof. intros H1 H2 ->. congruence. Qed.

Lemma pad_take_digits d f :
  Forall (fun c => is_digit c = true) f ->
  Forall (fun c => is_digit c = true) (take d (pad_end d "0"%char f)).
Proof.
  intros H. apply Forall_take. unfold pad_end. apply Forall_app. split; [done|].
  by apply Forall_replicate.
Qed.

(** Padding with zeros and cutting to [d] digits scales the fraction by [10^d]
    and truncates. *)
Lemma pad_take_value d f :
  Forall (fun c => is_digit c = true) f ->
  decimal_value (take d (pad_end d "0"%char f)) =
  decimal_value f * 10 ^ Z.of_nat d / 10 ^ Z.of_nat (length f).
Proof.
  intros H. unfold pad_end. destruct (decide (d <= length f)%nat) as [Hle|Hgt].
  - replace (d - length f)%nat with 0%nat by lia. cbn [replicate]. rewrite app_nil_r.
    rewrite <- (take_drop d f) at 2 3. rewrite decimal_value_app.
    rewrite length_app, length_take, length_drop, Nat.min_l by lia.
    pose proof (decimal_value_range (drop d f) ltac:(by apply Forall_drop)) as Hr.
    rewrite length_drop in Hr.
    rewrite Nat2Z.inj_add, Z.pow_add_r by lia.
    symmetry. rewrite (Z.mul_comm (10 ^ Z.of_nat d)). rewrite Z.div_mul_cancel_r by lia.
    rewrite Z.div_add_l by lia. rewrite Z.div_small by lia. lia.
  - rewrite take_ge by (rewrite length_app, length_replicate; lia).
    rewrite decimal_value_app, decimal_value_zeros, length_replicate.
    replace (Z.of_nat d) with (Z.of_nat (d - length f) + Z.of_nat (length f)) by lia.
    rewrite Z.pow_add_r by lia. rewrite Z.mul_assoc, Z.div_mul by lia. lia.
Qed.

Lemma BigInt_frac fr :
  Forall (fun c => is_digit c = true) fr ->
  BigInt_chars (match fr with [] => ["0"%char] | _ => fr end) = Some (decimal_value fr).
Proof.
  intros H. destruct fr as [|c fr]; [done|]. by apply BigInt_digits.
Qed.

Lemma toUnits_unsigned w (f : option (list ascii)) :
  w <> [] -> Forall (fun c => is_digit c = true) w ->
  Forall (fun c => is_digit c = true) (default [] f) ->
  let parts := split_on "."%char (w ++ match f with Some f => "."%char :: f | None => [] end) in
  default [] (head parts) = w /\ default [] (parts !! 1%nat) = default [] f.
Proof.
  intros Hne Hw Hf parts. unfold parts. destruct f as [f|]; cbn in *.
  - rewrite split_on_app by (eapply (List.Forall_impl _ (fun c Hc => digit_not_char c "."%char Hc eq_refl)); done).
    cbn. rewrite split_on_none by (eapply (List.Forall_impl _ (fun c Hc => digit_not_char c "."%char Hc eq_refl)); done).
    done.
  - rewrite app_nil_r.
    rewrite split_on_none by (eapply (List.Forall_impl _ (fun c Hc => digit_not_char c "."%char Hc eq_refl)); done).
    done.
Qed.

Lemma numeral_chars_no_space n :
  numeral_ok n -> Forall (fun c => is_space c = false) (chars (numeral_text n)).
Proof.
  intros (Hne & Hw & Hf). unfold numeral_text. rewrite chars_of_chars.
  apply Forall_app. split; [destruct (num_neg n); repeat constructor|].
  apply Forall_app. split; [exact (List.Forall_impl _ digit_not_space Hw)|].
  destruct (num_frac n) as [f|]; cbn in *; [|done].
  constructor; [done|]. exact (List.Forall_impl _ digit_not_space Hf).
Qed.

Lemma digit_head_not_minus w :
  w <> [] -> Forall (fun c => is_digit c = true) w ->
  forall r, match w ++ r with "-"%char :: _ => true | _ => false end = false.
Proof.
  intros Hne H r. destruct H as [|c w Hc _]; [done|].
  destruct (is_digit_cases c Hc) as [->|[->|[->|[->|[->|[->|[->|[->|[->| ->]]]]]]]]]; done.
Qed.

Lemma toUnits_string_numeral d n :
  numeral_ok n -> toUnits_string d (numeral_text n) = Ok (numeral_units d n).
Proof.
  intros Hok. unfold toUnits_string.
  rewrite (trim_chars_no_space _ (numeral_chars_no_space n Hok)).
  destruct Hok as (Hne & Hw & Hf). unfold numeral_text. rewrite chars_of_chars.
  set (r := match num_frac n with Some f => "."%char :: f | None => [] end).
  assert (Hneg : (match (if num_neg n then ["-"%char] else []) ++ num_whole n ++ r with
                  | "-"%char :: _ => true | _ => false end) = num_neg n).
  { destruct (num_neg n); [reflexivity|]. exact (digit_head_not_minus _ Hne Hw r). }
  rewrite Hneg.
  assert (Htl : (if num_neg n then tail ((if num_neg n then ["-"%char] else []) ++ num_whole n ++ r)
                 else (if num_neg n then ["-"%char] else []) ++ num_whole n ++ r) = num_whole n ++ r)
    by (by destruct (num_neg n)).
  rewrite Htl. subst r.
  destruct (toUnits_unsigned (num_whole n) (num_frac n) Hne Hw Hf) as [E1 E2].
  rewrite E1, E2.
  replace (match num_whole n with [] => ["0"%char] | _ => num_whole n end) with (num_whole n)
    by (by destruct (num_whole n)).
  rewrite (BigInt_digits (num_whole n)) by done. cbn [result_of_option mbind result_bind].
  rewrite BigInt_frac by (by apply pad_take_digits). cbn [result_of_option mbind result_bind mret result_ret].
  rewrite pad_take_value by done. unfold numeral_units.
  rewrite decimal_value_app, Z.mul_add_distr_r.
  set (L := 10 ^ Z.of_nat (length (default [] (num_frac n)))).
  replace (decimal_value (num_whole n) * L * 10 ^ Z.of_nat d)
    with (decimal_value (num_whole n) * 10 ^ Z.of_nat d * L) by lia.
  rewrite Z.div_add_l by (unfold L; lia). done.
Qed.

Lemma String_of_int_numeral z :
  String_of_int z =
  numeral_text {| num_neg := z <? 0; num_whole := decimal_digits (Z.abs z); num_frac := None |}.
Proof.
  unfold String_of_int, numeral_text. cbn. rewrite app_nil_r.
  destruct (Z.ltb_spec z 0); cbn; [by rewrite Z.abs_neq by lia | by rewrite Z.abs_eq].
Qed.

(** An integer-valued number [n] is [n * 10^decimals] units. *)
Lemma toUnits_number d z : toUnits d (ANumber z) = Ok (z * 10 ^ Z.of_nat d).
Proof.
  cbn. rewrite String_of_int_numeral.
  destruct (decimal_digits_spec (Z.abs z)) as (H1 & H2 & H3); [lia|].
  rewrite toUnits_string_numeral by (split_and!; cbn; done).
  unfold numeral_units. cbn [num_whole num_frac num_neg default length].
  rewrite app_nil_r, H3, Z.div_1_r.
  destruct (Z.ltb_spec z 0); f_equal; lia.
Qed.

Lemma DEFAULT_CREDIT_LIMIT_value d : DEFAULT_CREDIT_LIMIT_USDC d = TOKEN_UNIT d.
Proof. unfold DEFAULT_CREDIT_LIMIT_USDC. rewrite toUnits_number. unfold TOKEN_UNIT. lia. Qed.

Lemma TOKEN_UNIT_pos d : 0 < TOKEN_UNIT d.
Proof. unfold TOKEN_UNIT. lia. Qed.

(** ** Properties *)

(** [toUnits] on a plain decimal numeral (any length of whole part and of
    fraction, either sign) never throws and returns the exact decimal value
    scaled by [10^decimals] and truncated towards zero: extra fraction digits
    are dropped, missing ones count as zeros, and the sign covers the fraction
    too (so "-0.5" is negative). *)
Theorem toUnits_exact (decimals : nat) (n : numeral) (Hok : numeral_ok n) :
  toUnits decimals (AString (numeral_text n)) = Ok (numeral_units decimals n).
Proof. exact (toUnits_string_numeral decimals n Hok). Qed.

Lemma toUnits_exact_witness :
  toUnits 7 (AString "-0.5") = Ok (-5000000) /\ toUnits 6 (AString "12.34567899") = Ok 12345678.
Proof.
  split.
  - exact (toUnits_exact 7 {| num_neg := true; num_whole := ["0"%char]; num_frac := Some ["5"%char] |}
      ltac:(split_and!; [done | repeat constructor | repeat constructor])).
  - exact (toUnits_exact 6
      {| num_neg := false; num_whole := ["1"; "2"]%char;
         num_frac := Some ["3"; "4"; "5"; "6"; "7"; "8"; "9"; "9"]%char |}
      ltac:(split_and!; [done | repeat constructor | repeat constructor])).
Defined.
