(* ===== verification/DecimalLib.v ===== *)
(** * The decimal.js interface

    The services compute rates and amounts with the third-party package
    decimal.js, configured with 40 significant digits and ROUND_HALF_UP.  Its
    operations are a parameter of the model ([DecimalJs]); [DecimalLaws] states
    its documented behaviour: every arithmetic operation returns the exact result
    rounded to 40 significant digits, comparisons compare values, [toFixed]
    renders the value rounded half up.  [QDecimal] is a concrete implementation
    on rationals that satisfies the laws, used by the witnesses. *)

From stdpp Require Import base tactics list strings numbers.
From Stdlib Require Import Lia ZArith QArith Qreduction Qabs Ascii.
From S2P Require Import Prelude JsString JsNum AmountUnits.

Local Open Scope Z_scope.

(** ** Reference arithmetic on rationals *)

(** Nearest integer, ties away from zero. *)
Definition round_half_up (q : Q) : Z :=
  let n := Qnum q in
  let d := Zpos (Qden q) in
  Z.sgn n * ((2 * Z.abs n + d) / (2 * d)).

Definition pow10Q (e : Z) : Q := if 0 <=? e then inject_Z (10 ^ e) else 1 # Z.to_pos (10 ^ (- e)).

(** The exponent [e] with [10^e <= |q| < 10^(e+1)], for [q <> 0]. *)
Definition magnitude (q : Q) : Z :=
  let e0 := Z.of_nat (length (decimal_digits (Z.abs (Qnum q))))
            - Z.of_nat (length (decimal_digits (Zpos (Qden q)))) in
  if Qle_bool (pow10Q e0) (Qabs q) then e0 else e0 - 1.

(** [q] rounded half up to [10^-k]. *)
Definition round_at (k : Z) (q : Q) : Q :=
  Qred (inject_Z (round_half_up (q * pow10Q k)) * pow10Q (- k))%Q.

(** [q] rounded half up to [p] significant digits. *)
Definition round_sig (p : Z) (q : Q) : Q :=
  if Qnum q =? 0 then Qred 0 else round_at (p - 1 - magnitude q) q.

Definition precision : Z := 40.

(** The value of a plain numeral. *)
Definition numeral_value (n : numeral) : Q :=
  let f := default [] (num_frac n) in
  let m := decimal_value (num_whole n ++ f) in
  Qred ((if num_neg n then - m else m) # Z.to_pos (10 ^ Z.of_nat (length f))).

(** The text of [toFixed(dp)] for the value [q]. *)
Definition fixed_text (dp : nat) (q : Q) : string :=
  let z := round_half_up (q * pow10Q (Z.of_nat dp))%Q in
  let ds := pad_start (S dp) "0"%char (decimal_digits (Z.abs z)) in
  let whole := take (length ds - dp) ds in
  let frac := drop (length ds - dp) ds in
  of_chars ((if Qnum q <? 0 then ["-"%char] else []) ++ whole ++
            match dp with O => [] | S _ => "."%char :: frac end).

(** ** The interface *)

Class DecimalJs := {
  dec : Type;
  (** [new Decimal(x)] for a fractional number, for an integer-valued one, and
      for a string ([None] when the constructor throws). *)
  dec_of_num : num -> dec;
  dec_of_int : Z -> dec;
  dec_of_string : string -> option dec;
  dec_plus : dec -> dec -> dec;
  dec_minus : dec -> dec -> dec;
  dec_mul : dec -> dec -> dec;
  dec_div : dec -> dec -> dec;
  dec_max : dec -> dec -> dec;
  dec_min : dec -> dec -> dec;
  dec_lte : dec -> dec -> bool;
  dec_gt : dec -> dec -> bool;
  dec_toFixed : nat -> dec -> string;
}.

(** The fractional literals the sources pass to [new Decimal]: numerator and
    number of decimals. *)
Definition decimal_literals : list (Z * nat) :=
  [(25, 2%nat); (24, 2%nat); (23, 2%nat); (22, 2%nat); (21, 2%nat); (15, 2%nat); (3, 1%nat);
   (4, 1%nat); (14, 2%nat); (18, 2%nat); (28, 2%nat); (-5, 2%nat); (5, 2%nat); (8, 2%nat)].

Class DecimalLaws (D : DecimalJs) := {
  dec_val : dec -> Q;
  dec_val_literal : forall n k, (n, k) ∈ decimal_literals ->
    dec_val (dec_of_num (lit n k)) = Qred (n # Z.to_pos (10 ^ Z.of_nat k));
  dec_val_int : forall z, dec_val (dec_of_int z) = inject_Z z;
  dec_val_string : forall n, numeral_ok n ->
    exists d, dec_of_string (numeral_text n) = Some d /\ dec_val d = numeral_value n;
  dec_val_plus : forall a b, dec_val (dec_plus a b) = round_sig precision (dec_val a + dec_val b);
  dec_val_minus : forall a b, dec_val (dec_minus a b) = round_sig precision (dec_val a - dec_val b);
  dec_val_mul : forall a b, dec_val (dec_mul a b) = round_sig precision (dec_val a * dec_val b);
  dec_val_div : forall a b, Qnum (dec_val b) <> 0 ->
    dec_val (dec_div a b) = round_sig precision (dec_val a / dec_val b);
  dec_val_max : forall a b,
    dec_val (dec_max a b) = if Qle_bool (dec_val a) (dec_val b) then dec_val b else dec_val a;
  dec_val_min : forall a b,
    dec_val (dec_min a b) = if Qle_bool (dec_val a) (dec_val b) then dec_val a else dec_val b;
  dec_lte_val : forall a b, dec_lte a b = Qle_bool (dec_val a) (dec_val b);
  dec_gt_val : forall a b, dec_gt a b = negb (Qle_bool (dec_val a) (dec_val b));
  dec_toFixed_val : forall dp a, dec_toFixed dp a = fixed_text dp (dec_val a);
}.

(** ** A concrete implementation *)

(** The shortest decimal [n / 10^k], [k <= fuel], that reads back as [x]. *)
Fixpoint shortest_decimal (fuel k : nat) (x : num) : Q :=
  let exact := match x with
               | S754_finite s m e =>
                   Qred (((if s then Zneg m else Zpos m) # 1) *
                         (if (0 <=? e) then inject_Z (2 ^ e) else 1 # Z.to_pos (2 ^ (- e))))%Q
               | _ => 0%Q
               end in
  match fuel with
  | O => exact
  | S fuel' =>
      let n := round_half_up (exact * pow10Q (Z.of_nat k))%Q in
      if neqb (lit n k) x then Qred (n # Z.to_pos (10 ^ Z.of_nat k))
      else shortest_decimal fuel' (S k) x
  end.

(** Reads a plain numeral. *)
Definition parse_numeral (l : list ascii) : option Q :=
  let '(neg, r) := match l with "-"%char :: r => (true, r) | _ => (false, l) end in
  let '(w, r') := span_digits r in
  let value f :=
    Some (numeral_value {| num_neg := neg; num_whole := w; num_frac := Some f |}) in
  match w, r' with
  | [], _ => None
  | _, [] => value []
  | _, "."%char :: r'' =>
      match span_digits r'' with
      | (f, []) => value f
      | _ => None
      end
  | _, _ => None
  end.

Definition QDecimal : DecimalJs := {|
  dec := Q;
  dec_of_num := shortest_decimal 18 0;
  dec_of_int := inject_Z;
  dec_of_string s := parse_numeral (chars s);
  dec_plus a b := round_sig precision (a + b)%Q;
  dec_minus a b := round_sig precision (a - b)%Q;
  dec_mul a b := round_sig precision (a * b)%Q;
  dec_div a b := round_sig precision (a / b)%Q;
  dec_max a b := if Qle_bool a b then b else a;
  dec_min a b := if Qle_bool a b then a else b;
  dec_lte := Qle_bool;
  dec_gt a b := negb (Qle_bool a b);
  dec_toFixed := fixed_text;
|}.

Lemma span_digits_app l r :
  Forall (fun c => is_digit c = true) l ->
  match r with c :: _ => is_digit c = false | [] => True end ->
  span_digits (l ++ r) = (l, r).
Proof.
  intros Hl Hr. induction Hl as [|c l Hc Hl IH]; cbn.
  - destruct r as [|c r]; [done|]. cbn. by rewrite Hr.
  - by rewrite Hc, IH.
Qed.

Lemma numeral_value_no_frac b w :
  numeral_value {| num_neg := b; num_whole := w; num_frac := Some [] |} =
  numeral_value {| num_neg := b; num_whole := w; num_frac := None |}.
Proof. done. Qed.

Lemma parse_numeral_text n :
  numeral_ok n -> parse_numeral (chars (numeral_text n)) = Some (numeral_value n).
Proof.
  intros (Hne & Hw & Hf). unfold numeral_text. rewrite chars_of_chars.
  destruct n as [neg w f]. cbn [num_neg num_whole num_frac] in *.
  unfold parse_numeral.
  set (r := match f with Some f => "."%char :: f | None => [] end).
  assert (E : match (if neg then ["-"%char] else []) ++ w ++ r with
              | "-"%char :: r => (true, r)
              | _ => (false, (if neg then ["-"%char] else []) ++ w ++ r)
              end = (neg, w ++ r)).
  { destruct neg; [done|]. destruct Hw as [|c w Hc Hw]; [done|].
    destruct (is_digit_cases c Hc) as [->|[->|[->|[->|[->|[->|[->|[->|[->| ->]]]]]]]]]; done. }
  rewrite E. rewrite span_digits_app; [|done|by destruct f].
  destruct w as [|c w]; [done|]. subst r. destruct f as [f|]; [|done].
  rewrite <- (app_nil_r f) at 1. by rewrite span_digits_app.
Qed.

#[export] Instance QDecimal_laws : DecimalLaws QDecimal.
Proof.
  refine {| dec_val := fun q : @dec QDecimal => q |}; try done.
  - intros n k H. unfold decimal_literals in H.
    repeat (apply elem_of_cons in H as [H|H]; [simplify_eq; vm_compute; reflexivity|]).
    by apply not_elem_of_nil in H.
  - intros n Hn. eexists. split; [|reflexivity]. cbn. by apply parse_numeral_text.
Defined.
