(* ===== verification/CreditPolicy.v ===== *)
(** * Credit policy ([backend/src/domain/services/credit-policy.service.ts])

    The reputation ladder (score and limit from the number of loans repaid on
    time), the base and risk-adjusted monthly rates, the wallet classification
    and the five-tier pricing.  The helpers of [shared/] that turn a score into a
    group label and a loan count into reputation points are modelled here too. *)

From stdpp Require Import base tactics list sets strings numbers.
From Stdlib Require Import Lia ZArith Ascii QArith.
From S2P Require Import Prelude JsString JsNum AmountUnits DecimalLib.

Local Open Scope Z_scope.

(** ** Data *)

Definition LATE_RATE_PER_SEC_WAD : Z := 19290123457.

Inductive WalletQuality := buena | media | fea.

Inductive PricingTierName := PrimePlus | Prime | Standard | NearPrime | Developing.

#[export] Instance PricingTierName_eq_dec : EqDecision PricingTierName.
Proof. solve_decision. Defined.

Record PricingTierResult := { tier : PricingTierName; monthlyRate : num }.

Record CreditLadderStep := {
  minOnTimeLoans : Z;
  score : Z;
  limitUsdc : Z;
  xpBase : Z;
}.

Definition ladder_step (n s l x : Z) : CreditLadderStep :=
  {| minOnTimeLoans := n; score := s; limitUsdc := l; xpBase := x |}.

Definition CREDIT_LADDER : list CreditLadderStep :=
  [ ladder_step 0 1 1 1; ladder_step 1 2 3 11; ladder_step 2 3 4 21; ladder_step 3 4 6 31;
    ladder_step 4 5 8 41; ladder_step 5 6 10 51; ladder_step 6 7 12 61; ladder_step 7 8 15 71;
    ladder_step 8 9 18 81; ladder_step 9 10 22 91; ladder_step 10 11 25 101 ].

Definition first_step : CreditLadderStep := ladder_step 0 1 1 1.

(** ** The ladder *)

(** The loop shared by both lookups: keep the last step that passes, stop at the
    first that does not. *)
Fixpoint scan_ladder (passes : CreditLadderStep -> bool) (best : CreditLadderStep)
    (steps : list CreditLadderStep) : CreditLadderStep :=
  match steps with
  | [] => best
  | s :: rest => if passes s then scan_ladder passes s rest else best
  end.

Definition getStepForOnTimeLoans (onTimeLoans : Z) : CreditLadderStep :=
  scan_ladder (fun s => minOnTimeLoans s <=? onTimeLoans) first_step CREDIT_LADDER.

Definition getStepForScore (sc : Z) : CreditLadderStep :=
  scan_ladder (fun s => score s <=? sc) first_step CREDIT_LADDER.

(** ** Rates *)

Section Rates.
  Context `{D : DecimalJs}.

Definition getBaseMonthlyRateForScore (sc : option Z) : dec :=
  let s := default 1 sc in
  if s <=? 3 then dec_of_num (lit 25 2)
  else if s <=? 5 then dec_of_num (lit 24 2)
  else if s <=? 10 then dec_of_num (lit 23 2)
  else if s <=? 15 then dec_of_num (lit 22 2)
  else dec_of_num (lit 21 2).

(** [pDefault] is a probability estimate, or missing. *)
Definition valid_pd (pDefault : option num) : option num :=
  match pDefault with
  | Some p =>
      if isFinite p && nleb (lit 0 0) p && nleb p (lit 1 0) then Some p else None
  | None => None
  end.

Definition getRiskAdjustedMonthlyRate (sc : option Z) (pDefault : option num) : dec :=
  let baseRate := getBaseMonthlyRateForScore sc in
  match valid_pd pDefault with
  | None => baseRate
  | Some p =>
      let adjustment :=
        if nltb p (lit 1 1) then dec_of_num (lit (-5) 2)
        else if nltb p (lit 2 1) then dec_of_int 0
        else if nltb p (lit 3 1) then dec_of_num (lit 5 2)
        else dec_of_num (lit 8 2) in
      let adjusted := dec_plus baseRate adjustment in
      dec_max (dec_of_num (lit 15 2)) (dec_min (dec_of_num (lit 3 1)) adjusted)
  end.

(** A step of the ladder as the frontend sees it; [Number(decimal)] goes through
    the decimal's text. *)
Record CreditTier := {
  level : Z;
  tier_minOnTimeLoans : Z;
  tier_limitUsdc : Z;
  baseRateMonthly : dec;
}.

Definition getLadder : list CreditTier :=
  map (fun s => {| level := score s; tier_minOnTimeLoans := minOnTimeLoans s;
                   tier_limitUsdc := limitUsdc s;
                   baseRateMonthly := getBaseMonthlyRateForScore (Some (score s)) |})
      CREDIT_LADDER.
End Rates.

(** ** Wallet classification *)

Definition classifyWalletQuality (stablecoinVolume walletAgeDays : num)
    (chainsActive gasSpentUsd : option num) : WalletQuality :=
  let chains := default (lit 0 0) chainsActive in
  let gas := default (lit 0 0) gasSpentUsd in
  if nltb (lit 1000 0) stablecoinVolume
     || (nltb (lit 200 0) stablecoinVolume && nleb (lit 3 0) chains
         && nltb (lit 200 0) walletAgeDays)
  then buena
  else if nltb (lit 20 0) stablecoinVolume || nleb (lit 2 0) chains
          || (nleb (lit 5 1) gas && nltb (lit 150 0) walletAgeDays)
  then media
  else fea.

(** ** Five-tier pricing *)

Definition effective_pd (pDefault : option num) : num := default (lit 1 0) (valid_pd pDefault).

Definition buenaOverride (onTimeLoans : Z) (totalRepaidUsd : num) (lateLoans : Z) : bool :=
  (30 <=? onTimeLoans) && nleb (lit 200 0) totalRepaidUsd && (lateLoans =? 0).

Definition mediaOverride (onTimeLoans : Z) (totalRepaidUsd : num) (lateLoans : Z) : bool :=
  (20 <=? onTimeLoans) && nleb (lit 50 0) totalRepaidUsd && (lateLoans <? 3).

(** [Math.max(-0.02, Math.min(0.02, (pd / band - 0.5) * 0.04))]. *)
Definition band_adj (pd band : num) : num :=
  nmax (lit (-2) 2) (nmin (lit 2 2) ((pd / band - lit 5 1) * lit 4 2)%num).

Definition getTieredMonthlyRate (pDefault : option num) (onTimeLoans : Z)
    (walletQuality : WalletQuality) (totalRepaidUsd : num) (lateLoans : Z) : PricingTierResult :=
  let pd := effective_pd pDefault in
  if buenaOverride onTimeLoans totalRepaidUsd lateLoans then
    {| tier := PrimePlus; monthlyRate := lit 14 2 |}
  else if mediaOverride onTimeLoans totalRepaidUsd lateLoans then
    {| tier := Prime; monthlyRate := lit 18 2 |}
  else if nltb pd (lit 5 2) && (7 <=? onTimeLoans) && (lateLoans <=? 1) then
    {| tier := PrimePlus; monthlyRate := lit 14 2 |}
  else if nltb pd (lit 1 1) && (5 <=? onTimeLoans) && (lateLoans <=? 2) then
    {| tier := Prime; monthlyRate := lit 18 2 |}
  else if (3 <=? onTimeLoans) || nltb pd (lit 15 2) then
    {| tier := Standard; monthlyRate := (lit 22 2 + band_adj pd (lit 15 2))%num |}
  else if (1 <=? onTimeLoans) || nltb pd (lit 25 2) then
    {| tier := NearPrime; monthlyRate := (lit 26 2 + band_adj pd (lit 25 2))%num |}
  else {| tier := Developing; monthlyRate := lit 28 2 |}.

(** ** Shared helpers *)

Definition MAX_CREDIT_LEVEL : Z := 11.

Definition GROUP_BY_SCORE (n : Z) : option string :=
  match n with
  | 1 | 2 => Some "Novato"
  | 3 | 4 => Some "Activo"
  | 5 | 6 => Some "Estable"
  | 7 | 8 => Some "Confiable"
  | 9 | 10 => Some "Referente"
  | 11 => Some "Leyenda"
  | _ => None
  end%string.

(** [shared/tierHelpers.ts]; a missing score is [None]. *)
Definition getGroupLabelForScore (sc : option num) : string :=
  let n := match sc with
           | Some x => if isFinite x then default 1 (num_round x) else 1
           | None => 1
           end in
  let clamped := Z.max 1 (Z.min MAX_CREDIT_LEVEL n) in
  default "Novato"%string (GROUP_BY_SCORE clamped).

(** [Math.log10] is implementation-approximated: a parameter. *)
Class JsMath := { log10 : num -> num }.

(** [shared/reputationScore.ts] on a count of loans. *)
Definition reputationScore `{JsMath} (onTimeLoans : Z) : Z :=
  if onTimeLoans <=? 0 then 0
  else match num_round (lit 250 0 * log10 (num_of_Z (1 + onTimeLoans)))%num with
       | Some r => Z.min 1000 r
       | None => 1000
       end.

(** ** Reference: the ladder as a specification *)

(** The best step a borrower qualifies for: none with a larger threshold is met. *)
Definition best_step (n : Z) (s : CreditLadderStep) : Prop :=
  s ∈ CREDIT_LADDER /\ minOnTimeLoans s <= n /\
  forall s', s' ∈ CREDIT_LADDER -> minOnTimeLoans s' <= n -> minOnTimeLoans s' <= minOnTimeLoans s.

Definition tier_rank (t : PricingTierName) : Z :=
  match t with PrimePlus => 4 | Prime => 3 | Standard => 2 | NearPrime => 1 | Developing => 0 end.

(** ** Lemmas *)

Ltac ladder_cases H :=
  unfold CREDIT_LADDER in H;
  repeat (apply elem_of_cons in H as [H|H]; [subst|]); [.. | by apply not_elem_of_nil in H].

(** Both lookups as nested comparisons. *)
Lemma getStepForOnTimeLoans_value n :
  let s := getStepForOnTimeLoans n in
  let k := Z.max 0 (Z.min 10 n) in
  s ∈ CREDIT_LADDER /\ minOnTimeLoans s = k /\ score s = k + 1 /\ xpBase s = 10 * k + 1.
Proof.
  unfold getStepForOnTimeLoans, CREDIT_LADDER, first_step. cbn [scan_ladder ladder_step minOnTimeLoans].
  repeat match goal with
  | |- context [?a <=? n] => destruct (Z.leb_spec a n); cbn [scan_ladder ladder_step minOnTimeLoans]
  end; split; try set_solver; cbn; lia.
Qed.

Lemma getStepForScore_value sc :
  let s := getStepForScore sc in
  s ∈ CREDIT_LADDER /\ score s = Z.max 1 (Z.min 11 sc).
Proof.
  unfold getStepForScore, CREDIT_LADDER, first_step. cbn [scan_ladder ladder_step score].
  repeat match goal with
  | |- context [?a <=? sc] => destruct (Z.leb_spec a sc); cbn [scan_ladder ladder_step score]
  end; split; try set_solver; cbn; lia.
Qed.

(** In the ladder a step is determined by its score, and thresholds, scores and
    limits grow together. *)
Lemma ladder_mono s s' :
  s ∈ CREDIT_LADDER -> s' ∈ CREDIT_LADDER ->
  (score s = score s' -> s = s') /\
  (score s <= score s' -> limitUsdc s <= limitUsdc s' /\ minOnTimeLoans s <= minOnTimeLoans s') /\
  score s = minOnTimeLoans s + 1.
Proof.
  intros H H'. ladder_cases H; ladder_cases H'; cbn; split_and!; try done; lia.
Qed.

Lemma ladder_range s : s ∈ CREDIT_LADDER -> 1 <= score s <= 11 /\ 1 <= limitUsdc s <= 25.
Proof. intros H. ladder_cases H; cbn; lia. Qed.

Lemma limit_for_score_mono s s' :
  s <= s' -> limitUsdc (getStepForScore s) <= limitUsdc (getStepForScore s').
Proof.
  intros H. destruct (getStepForScore_value s) as [H1 H2], (getStepForScore_value s') as [H3 H4].
  apply (ladder_mono _ _ H1 H3). lia.
Qed.

Lemma limit_for_score_range s : 1 <= limitUsdc (getStepForScore s) <= 25.
Proof. apply ladder_range, getStepForScore_value. Qed.

Lemma effective_pd_not_nan p : isNaN (effective_pd p) = false.
Proof.
  unfold effective_pd, valid_pd. destruct p as [p|]; [|done].
  by destruct p as [| | |]; cbn; try destruct (_ && _).
Qed.

(** The conditions of the pricing table, as one record of booleans, are monotone
    in the borrower's history. *)
Lemma override_mono on on' rep rep' late late' :
  on <= on' -> nleb rep rep' = true -> 0 <= late' <= late ->
  (buenaOverride on rep late = true -> buenaOverride on' rep' late' = true) /\
  (mediaOverride on rep late = true -> mediaOverride on' rep' late' = true).
Proof.
  intros Hon Hrep Hlate. unfold buenaOverride, mediaOverride. split; intros H; bool_to_prop;
    rewrite !andb_true_iff; split_and!.
  all: try (eapply nleb_trans; [|exact Hrep]; done).
  all: first [apply Z.leb_le | apply Z.eqb_eq | apply Z.ltb_lt]; lia.
Qed.

Lemma pd_guard_mono pd pd' bound lo hi on on' late late' :
  nleb pd' pd = true -> on <= on' -> late' <= late ->
  nltb pd bound && (lo <=? on) && (late <=? hi) = true ->
  nltb pd' bound && (lo <=? on') && (late' <=? hi) = true.
Proof.
  intros Hpd Hon Hlate H. bool_to_prop. rewrite !andb_true_iff. split_and!.
  - by eapply nleb_nltb_trans.
  - apply Z.leb_le; lia.
  - apply Z.leb_le; lia.
Qed.

Lemma or_guard_mono pd pd' bound lo on on' :
  nleb pd' pd = true -> on <= on' ->
  (lo <=? on) || nltb pd bound = true -> (lo <=? on') || nltb pd' bound = true.
Proof.
  intros Hpd Hon H. rewrite orb_true_iff in *. destruct H as [H|H].
  - left. bool_to_prop. apply Z.leb_le; lia.
  - right. by eapply nleb_nltb_trans.
Qed.

Lemma risk_adjusted_range {D : DecimalJs} {L : DecimalLaws D} sc p pd :
  valid_pd p = Some pd ->
  (Qle_bool (15 # 100) (dec_val (getRiskAdjustedMonthlyRate sc p)) = true /\
   Qle_bool (dec_val (getRiskAdjustedMonthlyRate sc p)) (30 # 100) = true)%Q.
Proof.
  intros E. unfold getRiskAdjustedMonthlyRate. rewrite E.
  set (adj := dec_plus _ _). clearbody adj.
  rewrite dec_val_max, dec_val_min, !dec_val_literal by (unfold decimal_literals; set_solver).
  set (v := dec_val adj). clearbody v.
  change (Qred (15 # Z.to_pos (10 ^ Z.of_nat 2))) with (3 # 20)%Q.
  change (Qred (3 # Z.to_pos (10 ^ Z.of_nat 1))) with (3 # 10)%Q.
  destruct (Qle_bool (3 # 10) v) eqn:E1; [by vm_compute|].
  destruct (Qle_bool (3 # 20) v) eqn:E2; [|by vm_compute].
  rewrite Qle_bool_iff in E2. split; apply Qle_bool_iff.
  - eapply Qle_trans; [|exact E2]. unfold Qle; cbn; lia.
  - apply Qle_trans with (3 # 10)%Q; [|unfold Qle; cbn; lia].
    apply Qlt_le_weak, Qnot_le_lt. rewrite <- Qle_bool_iff. by rewrite E1.
Qed.

(** ** Properties *)

(** The ladder lookups are exact: for every number of on-time loans the step
    found is the best one the borrower qualifies for, and looking the step up
    again by its own score gives the same step, so the two routes by which the
    services compute a limit (from the loan count, from the stored score) agree.
    The resulting limit is between 1 and 25 USDC and never decreases with the
    number of on-time loans. *)
Theorem ladder_lookup_correct (n : Z) (Hn : 0 <= n) :
  best_step n (getStepForOnTimeLoans n) /\
  getStepForScore (score (getStepForOnTimeLoans n)) = getStepForOnTimeLoans n /\
  1 <= limitUsdc (getStepForOnTimeLoans n) <= 25 /\
  forall m, n <= m -> limitUsdc (getStepForOnTimeLoans n) <= limitUsdc (getStepForOnTimeLoans m).
Proof.
  destruct (getStepForOnTimeLoans_value n) as (Hin & Hmin & Hsc & _).
  destruct (getStepForScore_value (score (getStepForOnTimeLoans n))) as [Hin' Hsc'].
  split_and!.
  - split_and!; [done|lia|]. intros s' Hs' Hle. destruct (ladder_mono _ _ Hs' Hs') as (_ & _ & E).
    pose proof (ladder_range _ Hs'). lia.
  - apply (ladder_mono _ _ Hin' Hin). lia.
  - apply ladder_range, Hin.
  - apply ladder_range, Hin.
  - intros m Hm. destruct (getStepForOnTimeLoans_value m) as (Hinm & _ & Hscm & _).
    apply (ladder_mono _ _ Hin Hinm). lia.
Qed.

Lemma ladder_lookup_correct_witness :
  getStepForOnTimeLoans 4 = ladder_step 4 5 8 41 /\
  best_step 4 (getStepForOnTimeLoans 4).
Proof. split; [reflexivity | exact (proj1 (ladder_lookup_correct 4 ltac:(lia)))]. Defined.

(** Pricing is fair: a borrower with at least as many on-time loans, at least
    as much repaid, at most as many late loans and no higher risk estimate is
    never placed in a worse tier, whatever the wallet class, with one exception
    the code has: a Prime+ borrower may fall to Prime exactly when the volume
    override for Prime applies to the better record (it is tested before the
    risk-based Prime+ rule). *)
Theorem tier_monotone (p p' : option num) (on on' : Z) (q q' : WalletQuality)
    (rep rep' : num) (late late' : Z)
    (Hpd : nleb (effective_pd p') (effective_pd p) = true) (Hon : on <= on')
    (Hrep : nleb rep rep' = true) (Hlate : 0 <= late' <= late) :
  let a := tier (getTieredMonthlyRate p on q rep late) in
  let b := tier (getTieredMonthlyRate p' on' q' rep' late') in
  tier_rank a <= tier_rank b \/
  (a = PrimePlus /\ b = Prime /\ mediaOverride on' rep' late' = true).
Proof.
  destruct (override_mono on on' rep rep' late late' Hon Hrep Hlate) as [Hb Hm].
  set (pd := effective_pd p) in *. set (pd' := effective_pd p') in *.
  pose proof (pd_guard_mono pd pd' (lit 5 2) 7 1 on on' late late' Hpd Hon (proj2 Hlate)) as H1.
  pose proof (pd_guard_mono pd pd' (lit 1 1) 5 2 on on' late late' Hpd Hon (proj2 Hlate)) as H2.
  pose proof (or_guard_mono pd pd' (lit 15 2) 3 on on' Hpd Hon) as H3.
  pose proof (or_guard_mono pd pd' (lit 25 2) 1 on on' Hpd Hon) as H4.
  unfold getTieredMonthlyRate. fold pd pd'.
  repeat match goal with
  | |- context [if ?c then _ else _] =>
      lazymatch c with context [if _ then _ else _] => fail | _ => destruct c eqn:? end
  end; cbn [tier tier_rank]; try (left; lia); try (right; split_and!; done); naive_solver.
Qed.

Lemma tier_monotone_witness :
  tier_rank (tier (getTieredMonthlyRate (Some (lit 2 1)) 1 fea (lit 3 0) 2)) <=
  tier_rank (tier (getTieredMonthlyRate (Some (lit 4 2)) 8 buena (lit 40 0) 1)).
Proof.
  pose proof (tier_monotone (Some (lit 2 1)) (Some (lit 4 2)) 1 8 fea buena (lit 3 0) (lit 40 0) 2 1
    ltac:(vm_compute; reflexivity) ltac:(lia) ltac:(vm_compute; reflexivity) ltac:(lia)) as H.
  cbv zeta in H. destruct H as [H|[H _]]; [exact H | vm_compute in H; discriminate H].
Defined.

(** The volume override can worsen the price: a borrower at Prime+ by risk
    (10 on-time loans, 60 USD repaid, no late loan, 2% default estimate) drops to
    Prime, from 14% to 18% a month, when only the number of on-time loans grows
    to 20. *)
Theorem media_override_demotes :
  let before := getTieredMonthlyRate (Some (lit 2 2)) 10 buena (lit 60 0) 0 in
  let after := getTieredMonthlyRate (Some (lit 2 2)) 20 buena (lit 60 0) 0 in
  tier before = PrimePlus /\ tier after = Prime /\
  nltb (monthlyRate before) (monthlyRate after) = true.
Proof. vm_compute. split_and!; reflexivity. Qed.

(** A missing, infinite or out-of-range risk estimate is priced as the worst
    case 1.0 and never reaches Prime+ or Prime through the risk rules, but it does
    not force the Developing tier: without a volume override three on-time loans
    give Standard at the top of its band, one or two give Near-Prime, and only a
    borrower without on-time loans pays the Developing rate. *)
Theorem missing_pd_tiers (p : option num) (on : Z) (q : WalletQuality) (rep : num) (late : Z)
    (Hp : valid_pd p = None)
    (Hm : mediaOverride on rep late = false) (Hb : buenaOverride on rep late = false) :
  getTieredMonthlyRate p on q rep late =
  if 3 <=? on then {| tier := Standard; monthlyRate := (lit 22 2 + lit 2 2)%num |}
  else if 1 <=? on then {| tier := NearPrime; monthlyRate := (lit 26 2 + lit 2 2)%num |}
  else {| tier := Developing; monthlyRate := lit 28 2 |}.
Proof.
  unfold getTieredMonthlyRate. rewrite Hm, Hb.
  unfold effective_pd. rewrite Hp. cbn [default].
  change (nltb (lit 1 0) (lit 5 2)) with false. change (nltb (lit 1 0) (lit 1 1)) with false.
  change (nltb (lit 1 0) (lit 15 2)) with false. change (nltb (lit 1 0) (lit 25 2)) with false.
  change (band_adj (lit 1 0) (lit 15 2)) with (lit 2 2).
  change (band_adj (lit 1 0) (lit 25 2)) with (lit 2 2).
  cbn [andb]. by rewrite !orb_false_r.
Qed.

Lemma missing_pd_tiers_witness :
  tier (getTieredMonthlyRate None 3 fea (lit 12 0) 0) = Standard.
Proof.
  pose proof (missing_pd_tiers None 3 fea (lit 12 0) 0 eq_refl
    ltac:(vm_compute; reflexivity) ltac:(vm_compute; reflexivity)) as H.
  exact (f_equal tier H).
Defined.

(** The risk-adjusted rate of the fallback path is neutral on a missing
    estimate (it is the score's base rate) and otherwise always ends between 15%
    and 30% a month, for every implementation of decimal arithmetic that obeys
    its documentation. *)
Theorem risk_adjusted_rate_clamped {D : DecimalJs} {L : DecimalLaws D} (sc : option Z) (p : option num) :
  (valid_pd p = None -> getRiskAdjustedMonthlyRate sc p = getBaseMonthlyRateForScore sc) /\
  (valid_pd p <> None ->
     Qle_bool (15 # 100) (dec_val (getRiskAdjustedMonthlyRate sc p)) = true /\
     Qle_bool (dec_val (getRiskAdjustedMonthlyRate sc p)) (30 # 100) = true)%Q.
Proof.
  split; intros H.
  - unfold getRiskAdjustedMonthlyRate. by rewrite H.
  - destruct (valid_pd p) as [pd|] eqn:E; [|done]. by eapply risk_adjusted_range.
Qed.

Lemma risk_adjusted_rate_clamped_witness :
  Qle_bool (dec_val (DecimalLaws := QDecimal_laws)
    (getRiskAdjustedMonthlyRate (D := QDecimal) (Some 1) (Some (lit 4 1)))) (30 # 100) = true.
Proof.
  exact (proj2 (proj2 (risk_adjusted_rate_clamped (L := QDecimal_laws) (Some 1) (Some (lit 4 1)))
    ltac:(vm_compute; discriminate))).
Defined.
