(* ===== verification/LoanCalc.v ===== *)
(** * Late fees and cooldown ([backend/src/loan/loan-calculations.service.ts],
      [backend/src/loan/borrow-cooldown.ts])

    The offline late-fee calculator, in binary64 arithmetic, and the check of the
    cooldown after a repayment. *)

From stdpp Require Import base tactics list strings numbers.
From Stdlib Require Import Lia ZArith Ascii.
From S2P Require Import Prelude JsString JsNum.

Local Open Scope Z_scope.

(** ** Model *)

Record LateFeesInput := {
  amountDueAtOpenUsd : num;
  dueAtUnixSec : Z;
  ratePerSecWad : Z;
  gracePeriodSec : Z;
  nowUnixSec : Z;
}.

Record LateFeesResult := {
  lateFeesUsd : num;
  amountDueRealUsd : num;
  daysLate : num;
  inGracePeriod : bool;
  perDayDeltaUsd : num;
  lateStartUnixSec : Z;
}.

(** The fee per dollar and second: [Number(ratePerSecWad) / 1e18]. *)
Definition ratePerSecNum (wad : Z) : num := (Number_of_bigint wad / num_of_Z (10 ^ 18))%num.

(** [nowUnixSec] is the argument, or the clock when the argument is missing. *)
Definition computeLateFees (input : LateFeesInput) : LateFeesResult :=
  let nowUnix := nowUnixSec input in
  let lateStart := dueAtUnixSec input + gracePeriodSec input in
  let inGrace := nowUnix <? lateStart in
  let moraDisabled := ratePerSecWad input =? 0 in
  if inGrace || moraDisabled then
    {| lateFeesUsd := num_of_Z 0;
       amountDueRealUsd := amountDueAtOpenUsd input;
       daysLate := num_of_Z 0;
       inGracePeriod := inGrace;
       perDayDeltaUsd := num_of_Z 0;
       lateStartUnixSec := lateStart |}
  else
    let secondsPastLate := nowUnix - lateStart in
    let rate := ratePerSecNum (ratePerSecWad input) in
    let lateFees := (amountDueAtOpenUsd input * rate * num_of_Z secondsPastLate)%num in
    let perDayDelta := (amountDueAtOpenUsd input * rate * num_of_Z 86400)%num in
    {| lateFeesUsd := lateFees;
       amountDueRealUsd := (amountDueAtOpenUsd input + lateFees)%num;
       daysLate := (num_of_Z secondsPastLate / num_of_Z 86400)%num;
       inGracePeriod := false;
       perDayDeltaUsd := perDayDelta;
       lateStartUnixSec := lateStart |}.

Definition daysOverdue (dueAt now : Z) : num :=
  let diff := now - dueAt in
  nmax (num_of_Z 0)
       (match num_ceil (num_of_Z diff / num_of_Z 86400)%num with
        | Some z => num_of_Z z
        | None => (num_of_Z diff / num_of_Z 86400)%num
        end).

(** Whole units and cents, for the text of a voice call. *)
Definition formatAmountForVoice (amountUsd : num) : option (Z * Z) :=
  whole ← num_floor amountUsd;
  cents ← num_round ((amountUsd - num_of_Z whole) * num_of_Z 100)%num;
  Some (whole, cents).

(** [None]: the borrower may open a loan. The message's date text is left out. *)
Definition borrowCooldownError (nextAt now : Z) : option exn :=
  if (nextAt =? 0) || (nextAt <=? now) then None
  else Some (BadRequestException "BORROW_COOLDOWN").

(** ** Properties *)

(** Late fees: nothing is charged inside the grace period or with the rate at
    zero (the amount due stays the opening amount), and after it, on a finite
    non-negative amount and a non-negative rate, the fee is never negative; the
    late period starts exactly at due date plus grace. *)
Theorem late_fees_correct (i : LateFeesInput)
    (Hamt : isFinite (amountDueAtOpenUsd i) = true) (Hpos : nonneg (amountDueAtOpenUsd i) = true)
    (Hrate : 0 <= ratePerSecWad i)
    (Hfin : isFinite (ratePerSecNum (ratePerSecWad i)) = true)
    (Hfee : isFinite (amountDueAtOpenUsd i * ratePerSecNum (ratePerSecWad i))%num = true)
    (Hsec : isFinite (num_of_Z (nowUnixSec i - lateStartUnixSec (computeLateFees i))) = true) :
  let r := computeLateFees i in
  lateStartUnixSec r = dueAtUnixSec i + gracePeriodSec i /\
  (inGracePeriod r = true <-> nowUnixSec i < lateStartUnixSec r) /\
  (inGracePeriod r = true \/ ratePerSecWad i = 0 ->
     lateFeesUsd r = num_of_Z 0 /\ amountDueRealUsd r = amountDueAtOpenUsd i) /\
  nonneg (lateFeesUsd r) = true.
Proof.
  revert Hsec. unfold computeLateFees. cbv zeta.
  destruct (_ <? _) eqn:Eg; cbn [orb].
  { cbn. intros _. bool_to_prop. split_and!; try done. }
  destruct (ratePerSecWad i =? 0) eqn:Er; cbn; intros Hsec; bool_to_prop.
  { split_and!; try done. split; [done|lia]. }
  split_and!; [done|split; [done|lia]|intros [?|?]; [done|lia]|].
  assert (Hr : nonneg (ratePerSecNum (ratePerSecWad i)) = true).
  { unfold ratePerSecNum, Number_of_bigint in *.
    destruct (isFinite (num_of_Z (ratePerSecWad i))) eqn:Ef.
    - apply ndiv_nonneg; [done|by apply num_of_Z_nonneg|done|done].
    - destruct (num_of_Z (ratePerSecWad i)) as [|[]| |]; done. }
  apply nmul_nonneg; [done|done| |apply num_of_Z_nonneg; lia].
  by apply nmul_nonneg.
Qed.

Lemma late_fees_correct_witness :
  nonneg (lateFeesUsd (computeLateFees
    {| amountDueAtOpenUsd := lit 105 2; dueAtUnixSec := 1000; ratePerSecWad := 19290123457;
       gracePeriodSec := 86400; nowUnixSec := 1000000 |})) = true.
Proof.
  exact (proj2 (proj2 (proj2 (late_fees_correct
    {| amountDueAtOpenUsd := lit 105 2; dueAtUnixSec := 1000; ratePerSecWad := 19290123457;
       gracePeriodSec := 86400; nowUnixSec := 1000000 |}
    ltac:(vm_compute; reflexivity) ltac:(vm_compute; reflexivity) ltac:(cbn; lia)
    ltac:(vm_compute; reflexivity) ltac:(vm_compute; reflexivity) ltac:(vm_compute; reflexivity))))).
Defined.

(** The amount read aloud in a voice call can have a hundred cents: 1.999 USD
    becomes one unit and 100 cents instead of two units. *)
Theorem voice_amount_hundred_cents : formatAmountForVoice (lit 1999 3) = Some (1, 100).
Proof. vm_compute. reflexivity. Qed.
