(* ===== verification/Strkey.v ===== *)
(** * Stellar addresses and wallet normalisation
      ([backend/src/common/stellar-strkey.ts], [backend/src/common/normalize-wallet.ts])

    The base32 decoder works on a 32-bit accumulator that overflows; the model
    keeps the wrap-around, and the theorems relate it to the value of the digit
    string. *)

From stdpp Require Import base tactics list strings numbers.
From Stdlib Require Import Lia ZArith Ascii.
From S2P Require Import Prelude JsString JsBits.

Local Open Scope Z_scope.

(** ** Model *)

Definition ACCOUNT_ID_VERSION_BYTE : Z := Z.shiftl 6 3.

(** [BASE32_ALPHABET.indexOf(char)] for the alphabet A-Z2-7; [None] is -1. *)
Definition base32_index (c : ascii) : option Z :=
  if is_upper c then Some (code c - 65)
  else if (50 <=? code c) && (code c <=? 55) then Some (code c - 24)
  else None.

(** The character of index [i]: [BASE32_ALPHABET[i]]. *)
Definition base32_char (i : Z) : ascii := if i <? 26 then chr (65 + i) else chr (24 + i).

Record b32_state := { b_bits : Z; b_value : Z; b_bytes : list Z }.

Definition decodeBase32_step (st : b32_state) (c : ascii) : result b32_state :=
  match base32_index c with
  | None => Throw (PlainError "Invalid base32 character")
  | Some idx =>
      let value := js_or (js_shl (b_value st) 5) idx in
      let bits := b_bits st + 5 in
      if 8 <=? bits then
        Ok {| b_bits := bits - 8; b_value := value;
              b_bytes := b_bytes st ++ [js_and (js_ushr value (bits - 8)) 255] |}
      else Ok {| b_bits := bits; b_value := value; b_bytes := b_bytes st |}
  end.

Fixpoint decodeBase32_loop (st : b32_state) (l : list ascii) : result b32_state :=
  match l with
  | [] => Ok st
  | c :: l' => st' ← decodeBase32_step st c; decodeBase32_loop st' l'
  end.

Definition decodeBase32 (input : string) : result (list Z) :=
  st ← decodeBase32_loop {| b_bits := 0; b_value := 0; b_bytes := [] |} (chars input);
  mret (b_bytes st).

(** One shift of the CRC register. *)
Definition crc16_bit (crc : Z) : Z :=
  if js_and crc 32768 =? 0 then js_and (js_shl crc 1) 65535
  else js_and (js_xor (js_shl crc 1) 4129) 65535.

Definition crc16_byte (crc byte : Z) : Z :=
  Nat.iter 8 crc16_bit (js_xor crc (js_shl byte 8)).

Definition crc16Xmodem (bytes : list Z) : Z := fold_left crc16_byte bytes 0.

Definition decodeStellarPublicKey (accountId : string) : result (list Z) :=
  decoded ← decodeBase32 accountId;
  _ ← throw_if (negb (bool_decide (length decoded = 35%nat)))
        (PlainError "Invalid Stellar account length");
  _ ← throw_if (negb (byte_at decoded 0 =? ACCOUNT_ID_VERSION_BYTE))
        (PlainError "Invalid Stellar account version byte");
  let payload := slice 0 33 decoded in
  let expected := crc16Xmodem payload in
  let actual := js_or (byte_at decoded 33) (js_shl (byte_at decoded 34) 8) in
  _ ← throw_if (negb (actual =? expected)) (PlainError "Invalid Stellar account checksum");
  mret (slice 1 33 decoded).

Definition isValidStellarPublicKey (accountId : string) : bool :=
  is_ok (decodeStellarPublicKey accountId).

(** *** normalize-wallet.ts *)

(** [/^0x[0-9a-fA-F]{40}$/]. *)
Definition EVM_WALLET_ADDRESS_PATTERN (s : string) : bool :=
  match chars s with
  | "0"%char :: "x"%char :: r => bool_decide (length r = 40%nat) && forallb is_hex r
  | _ => false
  end.

(** [/^G[A-Z2-7]{55}$/]. *)
Definition STELLAR_ACCOUNT_ADDRESS_PATTERN (s : string) : bool :=
  match chars s with
  | "G"%char :: r =>
      bool_decide (length r = 55%nat)
      && forallb (fun c => match base32_index c with Some _ => true | None => false end) r
  | _ => false
  end.

(** The pattern the request DTOs check. *)
Definition WALLET_ADDRESS_PATTERN (s : string) : bool :=
  EVM_WALLET_ADDRESS_PATTERN s || STELLAR_ACCOUNT_ADDRESS_PATTERN s.

(** [/^(0x)?[0-9a-fA-F]{64}$/]. *)
Definition CHAIN_TX_HASH_PATTERN (s : string) : bool :=
  let hash64 r := bool_decide (length r = 64%nat) && forallb is_hex r in
  match chars s with
  | "0"%char :: "x"%char :: r => hash64 r
  | r => hash64 r
  end.

Definition normalizeWallet (addr : string) : result string :=
  let w := trim addr in
  if EVM_WALLET_ADDRESS_PATTERN w then Ok (toLowerCase w)
  else if isValidStellarPublicKey w then Ok w
  else Throw (BadRequestException "Invalid wallet address").

Definition normalizeWalletOrNull (addr : option string) : option string :=
  match addr with
  | None => None
  | Some a =>
      let trimmed := trim a in
      if bool_decide (trimmed = ""%string) then None
      else match normalizeWallet trimmed with Ok w => Some w | Throw _ => None end
  end.

Definition assertValidWalletAddress (addr : string) : result unit :=
  match normalizeWallet addr with
  | Ok _ => Ok tt
  | Throw _ => Throw (BadRequestException "Invalid wallet address")
  end.

(** ** Reference *)

(** The strkey of a 32-byte account key: version byte, key, checksum (low byte
    first), in base32. *)
Definition strkey_bytes (key : list Z) : list Z :=
  let payload := ACCOUNT_ID_VERSION_BYTE :: key in
  let crc := crc16Xmodem payload in
  payload ++ [crc mod 256; crc / 256].

Definition encodeStellarPublicKey (key : list Z) : string :=
  of_chars (map base32_char (be_digits 32 56 (be_value (strkey_bytes key)))).

(** ** Base32 *)

Lemma base32_index_range c i : base32_index c = Some i -> 0 <= i < 32 /\ base32_char i = c.
Proof.
  unfold base32_index, base32_char, is_upper. intros H.
  destruct ((65 <=? code c) && (code c <=? 90)) eqn:E1; simplify_eq; bool_to_prop.
  - destruct (Z.ltb_spec (code c - 65) 26); [|lia]. split; [lia|].
    replace (65 + (code c - 65)) with (code c) by lia. apply chr_code.
  - destruct ((50 <=? code c) && (code c <=? 55)) eqn:E2; simplify_eq; bool_to_prop.
    destruct (Z.ltb_spec (code c - 24) 26); [lia|]. split; [lia|].
    replace (24 + (code c - 24)) with (code c) by lia. apply chr_code.
Qed.

Lemma base32_index_char i : 0 <= i < 32 -> base32_index (base32_char i) = Some i.
Proof.
  intros H.
  assert (E : forallb (fun n => bool_decide (base32_index (base32_char (Z.of_nat n)) = Some (Z.of_nat n)))
                (seq 0 32) = true) by (vm_compute; reflexivity).
  pose proof (forall_below (fun z => bool_decide (base32_index (base32_char z) = Some z)) 32 E i H) as Hi.
  by apply bool_decide_eq_true in Hi.
Qed.

(** Invariant of the decoding loop after the digits [ds]: the accumulator agrees
    with the digit string's value modulo 2^32, and the bytes pushed so far are its
    leading bytes. *)
Definition b32_inv (ds : list Z) (st : b32_state) : Prop :=
  let n := 5 * Z.of_nat (length ds) in
  let v := digits_value 32 ds in
  b_bits st = n mod 8 /\ b_value st mod 2 ^ 32 = v mod 2 ^ 32 /\
  b_bytes st = be_bytes (Z.to_nat (n / 8)) (v / 2 ^ (n mod 8)).

Lemma js_byte_of_value value v k :
  value mod 2 ^ 32 = v mod 2 ^ 32 -> 0 <= k <= 24 ->
  js_and (js_ushr value k) 255 = v / 2 ^ k mod 256.
Proof.
  intros H Hk. unfold js_and, js_ushr, to_uint32. rewrite H, (Z.mod_small k 32) by lia.
  change (to_int32 255) with (Z.ones 8). rewrite Z.land_ones by lia.
  assert (E : to_int32 (Z.shiftr (v mod 2 ^ 32) k) mod 2 ^ 8 = v / 2 ^ k mod 2 ^ 8).
  { apply eq_mod_bits; [lia|]. intros i Hi. rewrite testbit_int32 by lia.
    rewrite Z.shiftr_spec, testbit_mod32 by lia.
    rewrite <- Z.shiftr_div_pow2, Z.shiftr_spec by lia. done. }
  rewrite E. change (2 ^ 8) with 256. apply to_int32_small.
  pose proof (Z.mod_pos_bound (v / 2 ^ k) 256 eq_refl). change (2 ^ 31) with 2147483648. lia.
Qed.

Lemma b32_value_step value v idx :
  value mod 2 ^ 32 = v mod 2 ^ 32 -> 0 <= idx < 32 ->
  js_or (js_shl value 5) idx mod 2 ^ 32 = (v * 32 + idx) mod 2 ^ 32.
Proof.
  intros H Hi. rewrite js_or_mod.
  rewrite (lor_mod32 _ (Z.shiftl v 5) _ idx); [|rewrite js_shl_mod|done].
  - by rewrite lor_shiftl_add by lia.
  - change (5 mod 32) with 5. rewrite !Z.shiftl_mul_pow2 by lia.
    rewrite <- (Z.mul_mod_idemp_l value), <- (Z.mul_mod_idemp_l v) by lia. by rewrite H.
Qed.

Lemma decodeBase32_step_inv ds st c idx :
  b32_inv ds st -> base32_index c = Some idx ->
  exists st', decodeBase32_step st c = Ok st' /\ b32_inv (ds ++ [idx]) st'.
Proof.
  intros (Hbits & Hval & Hbytes) Hc. destruct (base32_index_range c idx Hc) as [Hi _].
  unfold decodeBase32_step. rewrite Hc.
  pose proof (b32_value_step _ _ idx Hval Hi) as Hval'.
  set (n := 5 * Z.of_nat (length ds)) in *. set (v := digits_value 32 ds) in *.
  assert (Hn : 0 <= n) by lia.
  pose proof (Z.mod_pos_bound n 8 ltac:(lia)) as Hm.
  pose proof (Z.div_mod n 8 ltac:(lia)) as Hdm.
  assert (Hdiv : (v * 32 + idx) / 2 ^ (n mod 8 + 5) = v / 2 ^ (n mod 8)).
  { rewrite Z.add_comm, Z.pow_add_r, (Z.mul_comm (2 ^ _)) by lia. change (2 ^ 5) with 32.
    rewrite <- Z.div_div by lia. by rewrite Z.div_add, (Z.div_small idx), Z.add_0_l by lia. }
  unfold b32_inv. rewrite length_app, digits_value_snoc. cbn [length].
  replace (5 * Z.of_nat (length ds + 1)) with (n + 5) by lia. fold v.
  rewrite Hbits. destruct (Z.leb_spec 8 (n mod 8 + 5)) as [Hge|Hlt].
  - assert (Hmod : (n + 5) mod 8 = n mod 8 - 3)
      by (symmetry; apply Z.mod_unique with (n / 8 + 1); lia).
    assert (Hq : (n + 5) / 8 = n / 8 + 1)
      by (symmetry; apply Z.div_unique with (n mod 8 - 3); lia).
    eexists. split; [reflexivity|]. cbn [b_bits b_value b_bytes]. rewrite Hmod, Hq.
    split_and!; [lia|exact Hval'|].
    replace (Z.to_nat (n / 8 + 1)) with (S (Z.to_nat (n / 8))) by lia. cbn [be_digits].
    rewrite Z.div_div by lia.
    replace (2 ^ (n mod 8 - 3) * 256) with (2 ^ (n mod 8 + 5))
      by (change 256 with (2 ^ 8); rewrite <- Z.pow_add_r by lia; f_equal; lia).
    rewrite Hdiv, <- Hbytes. f_equal. f_equal.
    replace (n mod 8 + 5 - 8) with (n mod 8 - 3) by lia.
    apply js_byte_of_value; [exact Hval'|lia].
  - assert (Hmod : (n + 5) mod 8 = n mod 8 + 5)
      by (symmetry; apply Z.mod_unique with (n / 8); lia).
    assert (Hq : (n + 5) / 8 = n / 8)
      by (symmetry; apply Z.div_unique with (n mod 8 + 5); lia).
    eexists. split; [reflexivity|]. cbn [b_bits b_value b_bytes]. rewrite Hmod, Hq.
    split_and!; [lia|exact Hval'|]. by rewrite Hdiv.
Qed.

Lemma decodeBase32_loop_inv l ds st :
  b32_inv ds st ->
  match mapM base32_index l with
  | Some ixs => exists st', decodeBase32_loop st l = Ok st' /\ b32_inv (ds ++ ixs) st'
  | None => decodeBase32_loop st l = Throw (PlainError "Invalid base32 character")
  end.
Proof.
  revert ds st. induction l as [|c l IH]; intros ds st H; cbn.
  - exists st. by rewrite app_nil_r.
  - destruct (base32_index c) as [idx|] eqn:Hc; cbn.
    + destruct (decodeBase32_step_inv ds st c idx H Hc) as (st' & -> & H').
      specialize (IH _ _ H'). cbn. destruct (mapM base32_index l) as [ixs|]; cbn; [|done].
      by rewrite <- app_assoc in IH.
    + unfold decodeBase32_step. by rewrite Hc.
Qed.

(** The decoder returns the leading whole bytes of the digit string's value. *)
Lemma decodeBase32_spec s :
  decodeBase32 s =
  match mapM base32_index (chars s) with
  | Some ixs =>
      let n := 5 * Z.of_nat (length ixs) in
      Ok (be_bytes (Z.to_nat (n / 8)) (digits_value 32 ixs / 2 ^ (n mod 8)))
  | None => Throw (PlainError "Invalid base32 character")
  end.
Proof.
  unfold decodeBase32.
  assert (H0 : b32_inv [] {| b_bits := 0; b_value := 0; b_bytes := [] |}) by (red; cbn; auto).
  pose proof (decodeBase32_loop_inv (chars s) [] _ H0) as H.
  destruct (mapM base32_index (chars s)) as [ixs|]; [|by rewrite H].
  destruct H as (st & -> & _ & _ & Hb). cbn. by rewrite Hb.
Qed.

(** ** Checksum *)

Lemma js_and_ones x n : 0 <= n <= 16 -> js_and x (Z.ones n) = x mod 2 ^ n.
Proof.
  intros Hn. unfold js_and. pose proof (Z.pow_pos_nonneg 2 n).
  assert (Hp : 2 ^ n <= 2 ^ 16) by (apply Z.pow_le_mono_r; lia).
  change (2 ^ 16) with 65536 in Hp.
  rewrite (to_int32_small (Z.ones n)) by (rewrite Z.ones_equiv; lia).
  rewrite Z.land_ones by lia.
  assert (E : to_int32 x mod 2 ^ n = x mod 2 ^ n).
  { apply eq_mod_bits; [lia|]. intros i Hi. apply testbit_int32. lia. }
  rewrite E. apply to_int32_small. pose proof (Z.mod_pos_bound x (2 ^ n)). lia.
Qed.

Lemma crc16_bit_range crc : 0 <= crc16_bit crc < 65536.
Proof.
  unfold crc16_bit. change 65535 with (Z.ones 16).
  destruct (_ =? 0); rewrite js_and_ones by lia; by apply Z.mod_pos_bound.
Qed.

Lemma crc16Xmodem_range bytes : 0 <= crc16Xmodem bytes < 65536.
Proof.
  unfold crc16Xmodem. induction bytes as [|b bytes _] using rev_ind; [cbn; lia|].
  rewrite fold_left_app. cbn [fold_left]. unfold crc16_byte.
  rewrite (Nat.iter_succ 7). apply crc16_bit_range.
Qed.

(** The checksum comparison of the decoder holds exactly when the two stored
    bytes are the checksum, low byte first. *)
Lemma checksum_match a b crc :
  byte_ok a -> byte_ok b -> 0 <= crc < 65536 ->
  js_or a (js_shl b 8) = crc <-> [a; b] = [crc mod 256; crc / 256].
Proof.
  unfold byte_ok. intros Ha Hb Hc.
  assert (E : js_or a (js_shl b 8) = b * 256 + a).
  { assert (E8 : js_shl b 8 = Z.shiftl b 8).
    { unfold js_shl. change (8 mod 32) with 8. rewrite (to_int32_small b) by lia.
      apply to_int32_small. rewrite Z.shiftl_mul_pow2; lia. }
    unfold js_or. rewrite E8, (to_int32_small a), (to_int32_small (Z.shiftl b 8))
      by (rewrite ?Z.shiftl_mul_pow2; lia).
    rewrite Z.lor_comm, lor_shiftl_add by lia. apply to_int32_small. lia. }
  rewrite E. split; [intros <-|intros [= -> ->]].
  - rewrite Z.add_comm, Z.mod_add, Z.mod_small, Z.div_add, (Z.div_small a) by lia. done.
  - rewrite (Z.div_mod crc 256) at 3 by lia. lia.
Qed.

(** ** Decoding an account id *)

Definition key_ok (key : list Z) : Prop := length key = 32%nat /\ Forall byte_ok key.

Lemma strkey_bytes_ok key : key_ok key -> length (strkey_bytes key) = 35%nat /\ Forall byte_ok (strkey_bytes key).
Proof.
  intros [Hl Hb]. unfold strkey_bytes. rewrite length_app. cbn [length]. split; [lia|].
  pose proof (crc16Xmodem_range (ACCOUNT_ID_VERSION_BYTE :: key)) as Hc.
  apply Forall_app. split; [constructor; [by split|done]|].
  constructor; [|constructor; [|constructor]]; red.
  - apply Z.mod_pos_bound. lia.
  - split; [apply Z.div_pos; lia|apply Z.div_lt_upper_bound; lia].
Qed.

(** Splits a list of known length into its first 33 elements and two more. *)
Lemma split_35 (l : list Z) :
  length l = 35%nat ->
  exists v key a b, l = v :: key ++ [a; b] /\ length key = 32%nat.
Proof.
  intros H. destruct l as [|v l]; [done|].
  rewrite <- (take_drop 32 l). exists v, (take 32 l).
  destruct (drop 32 l) as [|a [|b [|? ?]]] eqn:E;
    apply (f_equal length) in E; rewrite length_drop in E; cbn in *; try lia.
  exists a, b. split; [done|]. rewrite length_take. lia.
Qed.

Lemma slice_key v key a b :
  length key = 32%nat ->
  byte_at (v :: key ++ [a; b]) 0 = v /\
  slice 0 33 (v :: key ++ [a; b]) = v :: key /\ slice 1 33 (v :: key ++ [a; b]) = key /\
  byte_at (v :: key ++ [a; b]) 33 = a /\ byte_at (v :: key ++ [a; b]) 34 = b.
Proof.
  intros H. unfold slice, byte_at.
  assert (Ht : take 32 (key ++ [a; b]) = key) by (by apply take_app_length').
  assert (H32 : (key ++ [a; b]) !! 32%nat = Some a) by (by rewrite lookup_app_r, H by lia).
  assert (H33 : (key ++ [a; b]) !! 33%nat = Some b) by (by rewrite lookup_app_r, H by lia).
  split_and!; [done| | | |].
  - change (take (33 - 0) (drop 0 (v :: key ++ [a; b]))) with (v :: take 32 (key ++ [a; b])).
    by rewrite Ht.
  - exact Ht.
  - change ((v :: key ++ [a; b]) !! 33%nat) with ((key ++ [a; b]) !! 32%nat). by rewrite H32.
  - change ((v :: key ++ [a; b]) !! 34%nat) with ((key ++ [a; b]) !! 33%nat). by rewrite H33.
Qed.

Lemma decodeStellarPublicKey_ok s key :
  decodeStellarPublicKey s = Ok key <->
  key_ok key /\ decodeBase32 s = Ok (strkey_bytes key).
Proof.
  unfold decodeStellarPublicKey.
  destruct (decodeBase32 s) as [decoded|e] eqn:E; cbn [mbind result_bind]; [|naive_solver].
  assert (Hok : Forall byte_ok decoded).
  { rewrite decodeBase32_spec in E. destruct (mapM base32_index (chars s)); [|done].
    injection E as <-. apply be_bytes_ok. }
  case_bool_decide as Hlen; cbn [negb throw_if mbind result_bind].
  2: { split; [done|]. intros [Hk [= ->]]. by destruct (strkey_bytes_ok key Hk). }
  destruct (split_35 decoded Hlen) as (v & k & a & b & -> & Hk).
  destruct (slice_key v k a b Hk) as (E0 & E1 & E2 & E3 & E4).
  rewrite E0, E1, E2, E3, E4.
  inversion Hok as [|? ? Hv Hok']; subst. apply Forall_app in Hok' as [Hkb Hab].
  inversion Hab as [|? ? Ha Hb']; subst. inversion Hb' as [|? ? Hb _]; subst.
  destruct (Z.eqb_spec v ACCOUNT_ID_VERSION_BYTE) as [->|Hne]; cbn [negb throw_if mbind result_bind].
  2: { split; [done|]. intros [_ [= -> _]]. done. }
  pose proof (checksum_match a b _ Ha Hb (crc16Xmodem_range (ACCOUNT_ID_VERSION_BYTE :: k))) as Hc.
  destruct (Z.eqb_spec (js_or a (js_shl b 8)) (crc16Xmodem (ACCOUNT_ID_VERSION_BYTE :: k))) as [Heq|Hne];
    cbn [negb throw_if mbind result_bind mret result_ret].
  - apply Hc in Heq. split.
    + intros [= ->]. split; [done|]. unfold strkey_bytes. by rewrite <- Heq.
    + intros [Hk' [= H]]. f_equal. destruct Hk' as [Hl _].
      apply app_inj_1 in H as [-> _]; [done|lia].
  - split; [done|]. intros [[Hl _] [= H]]. exfalso. apply Hne, Hc.
    unfold strkey_bytes in H. apply app_inj_1 in H as [-> H2]; [exact H2|lia].
Qed.

Lemma map_base32_char cs ixs : mapM base32_index cs = Some ixs -> cs = map base32_char ixs.
Proof.
  rewrite mapM_Some. induction 1 as [|c i cs ixs Hc H IH]; [done|]. cbn.
  rewrite <- IH. f_equal. symmetry. by apply base32_index_range.
Qed.

Lemma mapM_base32_index ixs :
  Forall (fun i => 0 <= i < 32) ixs -> mapM base32_index (map base32_char ixs) = Some ixs.
Proof.
  intros H. apply mapM_Some. induction H as [|i ixs Hi H IH]; cbn; constructor; [|done].
  by apply base32_index_char.
Qed.

Lemma mapM_base32_range cs ixs :
  mapM base32_index cs = Some ixs -> Forall (fun i => 0 <= i < 32) ixs.
Proof.
  rewrite mapM_Some. induction 1 as [|c i cs ixs Hc H IH]; constructor; [|done].
  by eapply base32_index_range.
Qed.

(** 56 digits whose value is that of [strkey_bytes key] spell the address. *)
Lemma digits_of_strkey key ixs :
  key_ok key -> length ixs = 56%nat -> Forall (fun i => 0 <= i < 32) ixs ->
  be_bytes 35 (digits_value 32 ixs) = strkey_bytes key <->
  ixs = be_digits 32 56 (be_value (strkey_bytes key)).
Proof.
  intros Hk Hl Hr. destruct (strkey_bytes_ok key Hk) as [Hlen Hb].
  pose proof (digits_value_range 32 ixs ltac:(lia) Hr) as Hv. rewrite Hl in Hv.
  split; intros H.
  - rewrite <- H, be_value_bytes. change (256 ^ Z.of_nat 35) with (32 ^ Z.of_nat 56).
    rewrite Z.mod_small by done. rewrite <- Hl. symmetry. by apply be_digits_value.
  - rewrite H, digits_value_be by lia. pose proof (be_value_range _ Hb) as Hbv. rewrite Hlen in Hbv.
    change (256 ^ Z.of_nat 35) with (32 ^ Z.of_nat 56) in Hbv. rewrite Z.mod_small by done.
    rewrite <- Hlen. by apply be_bytes_value.
Qed.

(** ** Characters of a wallet *)

Lemma base32_not_space c i : base32_index c = Some i -> is_space c = false.
Proof.
  intros H. destruct (base32_index_range c i H) as [Hi <-].
  assert (E : forallb (fun n => negb (is_space (base32_char (Z.of_nat n)))) (seq 0 32) = true)
    by (vm_compute; reflexivity).
  pose proof (forall_below (fun z => negb (is_space (base32_char z))) 32 E i Hi) as Hs.
  by apply negb_true_iff in Hs.
Qed.

Lemma valid_strkey_trim s : isValidStellarPublicKey s = true -> trim s = s.
Proof.
  unfold isValidStellarPublicKey, decodeStellarPublicKey. intros H.
  rewrite <- (of_chars_chars s) at 2. unfold trim. f_equal. apply trim_chars_no_space.
  rewrite decodeBase32_spec in H. destruct (mapM base32_index (chars s)) as [ixs|] eqn:E; [|done].
  clear H. apply mapM_Some in E. induction E as [|c i cs ixs Hc E IH]; constructor; [|done].
  by eapply base32_not_space.
Qed.

(** A property of characters that holds of all 256 codes. *)
Lemma all_ascii (P : ascii -> bool) :
  forallb (fun n => P (chr (Z.of_nat n))) (seq 0 256) = true -> forall c, P c = true.
Proof.
  intros H c. rewrite <- (chr_code c).
  apply (forall_below (fun z => P (chr z)) 256 H). pose proof (code_range c). lia.
Qed.

Lemma hex_lower c :
  is_hex c = true -> is_hex (lower_char c) = true /\ lower_char (lower_char c) = lower_char c /\
                     is_space (lower_char c) = false.
Proof.
  intros H.
  pose proof (all_ascii (fun c => implb (is_hex c)
    (is_hex (lower_char c) && Ascii.eqb (lower_char (lower_char c)) (lower_char c)
     && negb (is_space (lower_char c)))) ltac:(vm_compute; reflexivity) c) as E.
  cbn beta in E. rewrite H in E. cbn [implb] in E. bool_to_prop.
  split_and!; [done|by apply Ascii.eqb_eq|done].
Qed.

Lemma evm_lower_normal w :
  EVM_WALLET_ADDRESS_PATTERN w = true ->
  EVM_WALLET_ADDRESS_PATTERN (toLowerCase w) = true /\
  toLowerCase (toLowerCase w) = toLowerCase w /\ trim (toLowerCase w) = toLowerCase w.
Proof.
  unfold EVM_WALLET_ADDRESS_PATTERN, toLowerCase. rewrite !chars_of_chars.
  destruct (chars w) as [|c0 l] eqn:Ew; [done|].
  destruct c0 as [[] [] [] [] [] [] [] []]; try done.
  destruct l as [|c1 r]; [done|]. destruct c1 as [[] [] [] [] [] [] [] []]; try done.
  intros H. bool_to_prop. rewrite forallb_forall in H0.
  assert (Hr : Forall (fun c => is_hex c = true) r) by (by apply List.Forall_forall).
  cbn [map]. change (lower_char "0"%char) with "0"%char. change (lower_char "x"%char) with "x"%char.
  split_and!.
  - rewrite andb_true_iff, bool_decide_eq_true, length_map. split; [done|].
    apply forallb_forall. intros c Hc. apply in_map_iff in Hc as (d & <- & Hd).
    by apply hex_lower, H0.
  - f_equal. f_equal. f_equal. rewrite map_map. apply map_ext_in. intros c Hc.
    by apply hex_lower, H0.
  - apply trim_of_chars. repeat (constructor; [done|]). apply List.Forall_map.
    eapply List.Forall_impl; [|exact Hr]. intros c Hc. by apply hex_lower.
Qed.

Lemma normalizeWallet_fixed a w : normalizeWallet a = Ok w -> normalizeWallet w = Ok w.
Proof.
  unfold normalizeWallet. destruct (EVM_WALLET_ADDRESS_PATTERN (trim a)) eqn:E.
  - intros [= <-]. destruct (evm_lower_normal _ E) as (E1 & E2 & E3). by rewrite E3, E1, E2.
  - destruct (isValidStellarPublicKey (trim a)) eqn:V; [|done]. intros [= <-].
    rewrite (valid_strkey_trim _ V). by rewrite E, V.
Qed.

(** ** Properties *)

(** The 32-bit base32 decoder is exact: although its accumulator overflows and
    wraps, on every string it returns the leading whole bytes of the digit
    string's value (leftover bits dropped), and it throws exactly on a character
    outside the alphabet. *)
Theorem decodeBase32_correct (s : string) :
  decodeBase32 s =
  match mapM base32_index (chars s) with
  | Some ixs =>
      let n := 5 * Z.of_nat (length ixs) in
      Ok (be_bytes (Z.to_nat (n / 8)) (digits_value 32 ixs / 2 ^ (n mod 8)))
  | None => Throw (PlainError "Invalid base32 character")
  end.
Proof. exact (decodeBase32_spec s). Qed.

(** The address validator accepts a string for a key exactly when the string
    is the key's strkey (version byte, key, checksum) - or that strkey followed by
    one more base32 character: the decoder drops the five leftover bits of a
    57-character input, so 33 strings decode to every key. *)
Theorem decode_strkey_exact (s : string) (key : list Z) :
  decodeStellarPublicKey s = Ok key <->
  key_ok key /\
  (s = encodeStellarPublicKey key \/
   exists i, 0 <= i < 32 /\
     s = of_chars (chars (encodeStellarPublicKey key) ++ [base32_char i])).
Proof.
  rewrite decodeStellarPublicKey_ok.
  assert (forall A B C : Prop, (A -> (B <-> C)) -> (A /\ B <-> A /\ C)) as Hand by tauto.
  apply Hand. intros Hk. clear Hand.
  destruct (strkey_bytes_ok key Hk) as [Hlen _].
  rewrite decodeBase32_spec. unfold encodeStellarPublicKey. rewrite chars_of_chars.
  set (D := be_digits 32 56 (be_value (strkey_bytes key))).
  assert (HD : Forall (fun i => 0 <= i < 32) D) by (by apply be_digits_ok).
  assert (HDl : length D = 56%nat) by apply be_digits_length.
  split.
  - destruct (mapM base32_index (chars s)) as [ixs|] eqn:E; [|done]. intros [= H].
    pose proof (mapM_base32_range _ _ E) as Hr. apply map_base32_char in E.
    apply (f_equal of_chars) in E. rewrite of_chars_chars in E.
    pose proof (f_equal length H) as Hl. rewrite be_bytes_length, Hlen in Hl.
    assert (Hn : length ixs = 56%nat \/ length ixs = 57%nat).
    { pose proof (Z.div_mod (5 * Z.of_nat (length ixs)) 8 ltac:(lia)).
      pose proof (Z.mod_pos_bound (5 * Z.of_nat (length ixs)) 8 ltac:(lia)). lia. }
    destruct Hn as [Hn|Hn]; rewrite Hn in H.
    + left. rewrite E. f_equal. f_equal. apply (digits_of_strkey key ixs Hk Hn Hr).
      change (5 * Z.of_nat 56 mod 8) with 0 in H. rewrite Z.div_1_r in H. exact H.
    + right. destruct ixs as [|i xs _] using rev_ind; [done|].
      apply Forall_app in Hr as [Hr Hi]. inversion Hi; subst.
      exists i. split; [done|]. rewrite map_app. cbn [map]. f_equal. f_equal. f_equal.
      rewrite length_app in Hn. cbn in Hn.
      apply (digits_of_strkey key xs Hk ltac:(lia) Hr).
      change (5 * Z.of_nat 57 mod 8) with 5 in H.
      rewrite digits_value_snoc in H. change (2 ^ 5) with 32 in H.
      rewrite Z.div_add_l, (Z.div_small i), Z.add_0_r in H by lia. exact H.
  - intros [->|(i & Hi & ->)]; rewrite chars_of_chars.
    + rewrite mapM_base32_index by done. rewrite HDl. cbv zeta.
      change (5 * Z.of_nat 56 mod 8) with 0. rewrite Z.div_1_r. f_equal.
      by apply (digits_of_strkey key D Hk HDl HD).
    + change ([base32_char i]) with (map base32_char [i]). rewrite <- map_app.
      rewrite mapM_base32_index by (apply Forall_app; split; [done|by constructor]).
      rewrite length_app, HDl. cbv zeta. cbn [length].
      change (5 * Z.of_nat (56 + 1) mod 8) with 5. rewrite digits_value_snoc.
      change (2 ^ 5) with 32. rewrite Z.div_add_l, (Z.div_small i), Z.add_0_r by lia. f_equal.
      by apply (digits_of_strkey key D Hk HDl HD).
Qed.

(** [normalizeWallet] is idempotent, so looking a user up by the normalised
    address is well defined: a wallet it returns is returned unchanged by a second
    call (lower-case hex for EVM, the trimmed strkey for Stellar). *)
Theorem normalizeWallet_idempotent (a w : string) (H : normalizeWallet a = Ok w) :
  normalizeWallet w = Ok w.
Proof. exact (normalizeWallet_fixed a w H). Qed.

Lemma normalizeWallet_idempotent_witness :
  normalizeWallet "GDCZFUNJ7MXWBIQ6UUTJRGZIJF5EMRVJCSK73MA2U7K57GWMA4N3P6SL" =
  Ok "GDCZFUNJ7MXWBIQ6UUTJRGZIJF5EMRVJCSK73MA2U7K57GWMA4N3P6SL"%string.
Proof.
  exact (normalizeWallet_idempotent
    "  GDCZFUNJ7MXWBIQ6UUTJRGZIJF5EMRVJCSK73MA2U7K57GWMA4N3P6SL "
    "GDCZFUNJ7MXWBIQ6UUTJRGZIJF5EMRVJCSK73MA2U7K57GWMA4N3P6SL"
    ltac:(vm_compute; reflexivity)).
Defined.
