(* ===== verification/StellarSdk.v ===== *)
(** * The interface of @stellar/stellar-sdk

    The part of the SDK the sources call: strkey validation and decoding, and the
    construction of Soroban values.  It is a parameter of the model; the laws
    state documented behaviour.  [ModelSdk] is a concrete implementation, built on
    the repository's own base32 decoder, for the witnesses. *)

From stdpp Require Import base tactics list strings numbers.
From Stdlib Require Import Lia ZArith Ascii.
From S2P Require Import Prelude JsString JsBits Strkey.

Local Open Scope Z_scope.

Class StellarSdk := {
  ScVal : Type;
  StrKey_isValidEd25519PublicKey : string -> bool;
  StrKey_isValidContract : string -> bool;
  StrKey_isValidMed25519PublicKey : string -> bool;
  (** throws on what is not a contract id *)
  StrKey_decodeContract : string -> result (list Z);
  (** [nativeToScVal(Buffer, { type: 'bytes' })] *)
  scv_bytes : list Z -> ScVal;
  (** [new Address(s).toScVal()], which throws on an invalid address *)
  scv_address : string -> result ScVal;
  (** [nativeToScVal(n, { type: 'i128' })], which throws out of range *)
  scv_i128 : Z -> result ScVal;
}.

Definition valid_stellar_address `{StellarSdk} (s : string) : bool :=
  StrKey_isValidEd25519PublicKey s || StrKey_isValidContract s || StrKey_isValidMed25519PublicKey s.

Class StellarSdkLaws (SDK : StellarSdk) := {
  (** strkeys are written in base32, hence in ASCII, and are at most 69 characters *)
  valid_address_ascii : forall s, valid_stellar_address s = true ->
    Forall (fun c => code c < 128) (chars s) /\ (length (chars s) <= 69)%nat;
  (** a contract id is 32 bytes *)
  decodeContract_bytes : forall s, StrKey_isValidContract s = true ->
    exists bs, StrKey_decodeContract s = Ok bs /\ length bs = 32%nat /\ Forall byte_ok bs;
}.

(** ** A concrete SDK *)

Inductive model_scval :=
  | MBytes (bs : list Z)
  | MAddress (s : string)
  | MI128 (n : Z)
  | MU32 (n : Z)
  | MU64 (n : Z)
  | MBool (b : bool)
  | MSymbol (s : string)
  | MPair (a b : Z)
  | MTriple (a b c : Z)
  | MLoan (principal amount_due : Z) (active : bool)
  | MPremium (late_rate : Z)
  | MRisk (score valid_until limit : Z).

(** A strkey of [n] characters with the version byte [v], checksum included. *)
Definition model_strkey (v : Z) (n : nat) (s : string) : bool :=
  bool_decide (length (chars s) = n) &&
  match decodeBase32 s with
  | Ok bs => (byte_at bs 0 =? v) &&
             (let payload := take (length bs - 2) bs in
              let crc := crc16Xmodem payload in
              bool_decide (drop (length bs - 2) bs = [crc mod 256; crc / 256]))
  | Throw _ => false
  end.

Definition model_valid (s : string) : bool :=
  model_strkey (Z.shiftl 6 3) 56 s || model_strkey (Z.shiftl 2 3) 56 s || model_strkey (Z.shiftl 12 3) 69 s.

#[export] Instance ModelSdk : StellarSdk := {|
  ScVal := model_scval;
  StrKey_isValidEd25519PublicKey := model_strkey (Z.shiftl 6 3) 56;
  StrKey_isValidContract := model_strkey (Z.shiftl 2 3) 56;
  StrKey_isValidMed25519PublicKey := model_strkey (Z.shiftl 12 3) 69;
  StrKey_decodeContract s :=
    if model_strkey (Z.shiftl 2 3) 56 s then bs ← decodeBase32 s; Ok (slice 1 33 bs) else Throw (PlainError "invalid encoded string");
  scv_bytes := MBytes;
  scv_address s := if model_valid s then Ok (MAddress s) else Throw (PlainError "Unsupported address type");
  scv_i128 n := if (- 2 ^ 127 <=? n) && (n <? 2 ^ 127) then Ok (MI128 n)
                else Throw (RangeError "i128");
|}.

Lemma base32_ascii c i : base32_index c = Some i -> code c < 128.
Proof.
  unfold base32_index, is_upper. intros H.
  destruct ((65 <=? code c) && (code c <=? 90)) eqn:E1; [bool_to_prop; lia|].
  destruct ((50 <=? code c) && (code c <=? 55)) eqn:E2; [bool_to_prop; lia|done].
Qed.

Lemma model_strkey_chars v n s :
  model_strkey v n s = true ->
  length (chars s) = n /\ exists ixs, mapM base32_index (chars s) = Some ixs /\ length ixs = n.
Proof.
  unfold model_strkey. intros H. bool_to_prop. split; [done|].
  rewrite decodeBase32_spec in H0. destruct (mapM base32_index (chars s)) as [ixs|] eqn:E; [|done].
  exists ixs. split; [done|]. apply mapM_Some, Forall2_length in E. lia.
Qed.

Lemma model_strkey_ascii v n s :
  model_strkey v n s = true -> Forall (fun c => code c < 128) (chars s) /\ length (chars s) = n.
Proof.
  intros H. destruct (model_strkey_chars v n s H) as (Hl & ixs & E & _). split; [|done].
  apply mapM_Some in E. clear -E. induction E as [|c i cs ixs Hc E IH]; constructor; [|done].
  by eapply base32_ascii.
Qed.

#[export] Instance ModelSdk_laws : StellarSdkLaws ModelSdk.
Proof.
  constructor.
  - intros s H. unfold valid_stellar_address in H. bool_to_prop.
    destruct H as [H|H]; [bool_to_prop; destruct H as [H|H]|];
      apply model_strkey_ascii in H as [H1 H2]; rewrite H2; split; done || lia.
  - intros s H. cbn in *. rewrite H. destruct (model_strkey_chars _ _ s H) as (_ & ixs & E & Hl).
    rewrite decodeBase32_spec, E, Hl. cbv zeta. cbn [mbind result_bind]. eexists. split; [reflexivity|].
    change (Z.to_nat (5 * Z.of_nat 56 / 8)) with 35%nat. unfold slice.
    pose proof (be_bytes_length 35 (digits_value 32 ixs / 2 ^ (5 * Z.of_nat 56 mod 8))) as Hlen.
    pose proof (be_bytes_ok 35 (digits_value 32 ixs / 2 ^ (5 * Z.of_nat 56 mod 8))) as Hok.
    split; [rewrite length_take, length_drop, Hlen; done|]. by apply Forall_take, Forall_drop.
Qed.
