(* ===== verification/CctpMessage.v ===== *)
(** * CCTP messages ([backend/src/cctp/cctp-message.ts])

    The parser of a CCTP V2 message (header, burn body, forwarder hook), the
    builder of the hook, and the guard against burns that would strand funds. *)

From stdpp Require Import base tactics list strings numbers.
From Stdlib Require Import Lia ZArith Ascii.
From S2P Require Import Prelude JsString JsBits Strkey StellarSdk.

Local Open Scope Z_scope.

(** ** Data *)

Record CctpMessageHeader := {
  h_version : Z;
  h_sourceDomain : Z;
  h_destinationDomain : Z;
  h_nonce : string;
  h_sender : list Z;
  h_recipient : list Z;
  h_destinationCaller : list Z;
  h_minFinalityThreshold : Z;
  h_finalityThresholdExecuted : Z;
}.

Record CctpBurnBody := {
  b_version : Z;
  b_burnToken : list Z;
  b_mintRecipient : list Z;
  b_amount : Z;
  b_messageSender : list Z;
  b_maxFee : Z;
  b_feeExecuted : Z;
  b_expirationBlock : Z;
  b_hookData : list Z;
}.

Definition HEADER_BYTES : nat := 148.
Definition BODY_FIXED_BYTES : nat := 228.

(** ** Fixed-width reads *)

(** The [>>> 0] at the end turns the signed 32-bit result into an unsigned one. *)
Definition u32 (bytes : list Z) (offset : nat) : Z :=
  js_ushr (js_or (js_or (js_or (js_shl (byte_at bytes offset) 24)
                               (js_shl (byte_at bytes (offset + 1)) 16))
                        (js_shl (byte_at bytes (offset + 2)) 8))
                 (byte_at bytes (offset + 3))) 0.

Definition u256 (bytes : list Z) (offset : nat) : Z :=
  fold_left (fun value i => Z.lor (Z.shiftl value 8) (byte_at bytes (offset + i))) (seq 0 32) 0.

(** ** Hexadecimal *)

Fixpoint hex_pairs (l : list ascii) : list Z :=
  match l with
  | a :: b :: r =>
      match hex_digit a, hex_digit b with
      | Some x, Some y => (16 * x + y) :: hex_pairs r
      | _, _ => []
      end
  | _ => []
  end.

Definition hexToBytes (hex : string) : result (list Z) :=
  let clean := match chars hex with
               | "0"%char :: "x"%char :: r => r
               | r => r
               end in
  if negb (Nat.even (length clean)) || negb (forallb is_hex clean)
  then Throw (CctpMessageError "message is not valid hex")
  else Ok (hex_pairs clean).

Definition hex_of_bytes (bytes : list Z) : list ascii :=
  flat_map (fun b => [hex_char (b / 16); hex_char (b mod 16)]) bytes.

Definition bytesToHex (bytes : list Z) : string :=
  of_chars ("0"%char :: "x"%char :: hex_of_bytes bytes).

(** ** Parsing *)

Definition parseCctpBurnBody (body : list Z) : result CctpBurnBody :=
  if (length body <? BODY_FIXED_BYTES)%nat
  then Throw (CctpMessageError "burn message body is too short")
  else Ok {| b_version := u32 body 0;
             b_burnToken := slice 4 36 body;
             b_mintRecipient := slice 36 68 body;
             b_amount := u256 body 68;
             b_messageSender := slice 100 132 body;
             b_maxFee := u256 body 132;
             b_feeExecuted := u256 body 164;
             b_expirationBlock := u256 body 196;
             b_hookData := drop BODY_FIXED_BYTES body |}.

Definition parseCctpMessage (messageHex : string) : result (CctpMessageHeader * CctpBurnBody) :=
  bytes ← hexToBytes messageHex;
  _ ← throw_if (length bytes <? HEADER_BYTES)%nat (CctpMessageError "message is too short");
  body ← parseCctpBurnBody (drop HEADER_BYTES bytes);
  mret ({| h_version := u32 bytes 0;
           h_sourceDomain := u32 bytes 4;
           h_destinationDomain := u32 bytes 8;
           h_nonce := bytesToHex (slice 12 44 bytes);
           h_sender := slice 44 76 bytes;
           h_recipient := slice 76 108 bytes;
           h_destinationCaller := slice 108 140 bytes;
           h_minFinalityThreshold := u32 bytes 140;
           h_finalityThresholdExecuted := u32 bytes 144 |}, body).

(** ** The forwarder hook *)

Definition HOOK_MAGIC_BYTES : nat := 24.
Definition HOOK_VERSION : Z := 0.
Definition HOOK_HEADER_BYTES : nat := 32.

(** [DataView.setUint32], big-endian. *)
Definition setUint32 (v : Z) : list Z := be_bytes 4 (v mod 2 ^ 32).

(** [DataView.getUint32], big-endian. *)
Definition getUint32 (bytes : list Z) (offset : nat) : Z := be_value (slice offset (offset + 4) bytes).

(** [new TextEncoder().encode(s)] on ASCII text. *)
Definition text_encode (s : string) : list Z := map code (chars s).

(** The byte order mark of UTF-8, which the decoder drops at the start. *)
Definition without_bom (bytes : list Z) : list Z :=
  match bytes with 239 :: 187 :: 191 :: rest => rest | _ => bytes end.

(** [new TextDecoder().decode(bytes)]: [None] when there is a character that is not
    ASCII in the text, U+FFFD for instance, which no address has. *)
Definition text_decode (bytes : list Z) : option string :=
  let text := without_bom bytes in
  if forallb (fun b => b <? 128) text then Some (of_chars (map chr text)) else None.

Record ForwarderHookData := {
  hook_version : Z;
  forwardRecipient : string;
  hook_payload : list Z;
}.

Section Sdk.
  Context `{SDK : StellarSdk}.

Definition assertStellarAddress (addr : string) : result unit :=
  throw_if (negb (StrKey_isValidEd25519PublicKey addr) && negb (StrKey_isValidContract addr)
            && negb (StrKey_isValidMed25519PublicKey addr))
           (CctpMessageError "not a valid Stellar address (G/C/M)").

Definition buildForwarderHookData (recipient : string) (payload : list Z) : result (list Z) :=
  _ ← assertStellarAddress recipient;
  let recipientBytes := text_encode recipient in
  mret (replicate HOOK_MAGIC_BYTES 0 ++ setUint32 HOOK_VERSION
        ++ setUint32 (Z.of_nat (length recipientBytes)) ++ recipientBytes ++ payload).

Definition parseForwarderHookData (hookData : list Z) : result ForwarderHookData :=
  _ ← throw_if (length hookData <? HOOK_HEADER_BYTES)%nat
        (CctpMessageError "hook data is too short");
  let version := getUint32 hookData HOOK_MAGIC_BYTES in
  let len := getUint32 hookData (HOOK_MAGIC_BYTES + 4) in
  _ ← throw_if (Z.of_nat (length hookData) <? Z.of_nat HOOK_HEADER_BYTES + len)
        (CctpMessageError "hook data length prefix exceeds the data");
  let stop := (HOOK_HEADER_BYTES + Z.to_nat len)%nat in
  recipient ← result_of_option (CctpMessageError "not a valid Stellar address (G/C/M)")
                (text_decode (slice HOOK_HEADER_BYTES stop hookData));
  _ ← assertStellarAddress recipient;
  mret {| hook_version := version; forwardRecipient := recipient; hook_payload := drop stop hookData |}.

(** ** The forwarder guard *)

Definition equalBytes (a b : list Z) : bool :=
  bool_decide (length a = length b) && forallb (fun p => (fst p =? snd p)) (zip a b).

Definition contractAddressToBytes32 (contractId : string) : result (list Z) :=
  _ ← throw_if (negb (StrKey_isValidContract contractId))
        (CctpMessageError "not a valid contract address");
  StrKey_decodeContract contractId.

Definition assertForwarderFields (mintRecipient destinationCaller : list Z)
    (forwarderContractId : string) : result unit :=
  forwarder ← contractAddressToBytes32 forwarderContractId;
  _ ← throw_if (negb (equalBytes mintRecipient forwarder))
        (CctpMessageError "mintRecipient must be the CctpForwarder contract id");
  throw_if (negb (equalBytes destinationCaller forwarder))
    (CctpMessageError "destinationCaller must be the CctpForwarder contract id").
End Sdk.

(** ** Reference: the message layout of Circle's guide *)

Record header_fields := {
  rh_version : Z; rh_source : Z; rh_destination : Z; rh_nonce : list Z; rh_sender : list Z;
  rh_recipient : list Z; rh_caller : list Z; rh_min_finality : Z; rh_finality : Z;
}.

Definition u32_ok (v : Z) : Prop := 0 <= v < 2 ^ 32.
Definition u256_ok (v : Z) : Prop := 0 <= v < 2 ^ 256.
Definition bytes32_ok (bs : list Z) : Prop := length bs = 32%nat /\ Forall byte_ok bs.

Definition header_ok (h : header_fields) : Prop :=
  u32_ok (rh_version h) /\ u32_ok (rh_source h) /\ u32_ok (rh_destination h) /\
  bytes32_ok (rh_nonce h) /\ bytes32_ok (rh_sender h) /\ bytes32_ok (rh_recipient h) /\
  bytes32_ok (rh_caller h) /\ u32_ok (rh_min_finality h) /\ u32_ok (rh_finality h).

Definition body_ok (b : CctpBurnBody) : Prop :=
  u32_ok (b_version b) /\ bytes32_ok (b_burnToken b) /\ bytes32_ok (b_mintRecipient b) /\
  u256_ok (b_amount b) /\ bytes32_ok (b_messageSender b) /\ u256_ok (b_maxFee b) /\
  u256_ok (b_feeExecuted b) /\ u256_ok (b_expirationBlock b) /\ Forall byte_ok (b_hookData b).

(** The fields of a layout, in order. *)
Definition encode_body_parts (b : CctpBurnBody) : list (list Z) :=
  [be_bytes 4 (b_version b); b_burnToken b; b_mintRecipient b; be_bytes 32 (b_amount b);
   b_messageSender b; be_bytes 32 (b_maxFee b); be_bytes 32 (b_feeExecuted b);
   be_bytes 32 (b_expirationBlock b); b_hookData b].

Definition encode_header_parts (h : header_fields) : list (list Z) :=
  [be_bytes 4 (rh_version h); be_bytes 4 (rh_source h); be_bytes 4 (rh_destination h);
   rh_nonce h; rh_sender h; rh_recipient h; rh_caller h;
   be_bytes 4 (rh_min_finality h); be_bytes 4 (rh_finality h)].

Definition encode_body (b : CctpBurnBody) : list Z := concat (encode_body_parts b).

Definition encode_message (h : header_fields) (b : CctpBurnBody) : list Z :=
  concat (encode_header_parts h ++ encode_body_parts b).

Definition parsed_header (h : header_fields) : CctpMessageHeader :=
  {| h_version := rh_version h; h_sourceDomain := rh_source h;
     h_destinationDomain := rh_destination h; h_nonce := bytesToHex (rh_nonce h);
     h_sender := rh_sender h; h_recipient := rh_recipient h; h_destinationCaller := rh_caller h;
     h_minFinalityThreshold := rh_min_finality h;
     h_finalityThresholdExecuted := rh_finality h |}.

(** ** Lemmas: fixed-width reads *)

Lemma slice_length a b l : length (slice a b l) = Nat.min (b - a) (length l - a).
Proof. unfold slice. by rewrite length_take, length_drop. Qed.

Lemma slice_seq n i l :
  (i + n <= length l)%nat -> slice i (i + n) l = map (fun j => byte_at l (i + j)) (seq 0 n).
Proof.
  unfold slice. replace (i + n - i)%nat with n by lia.
  induction n as [|n IH]; intros H; [done|].
  assert (Hn : (i + n < length l)%nat) by lia.
  destruct (lookup_lt_is_Some_2 l (i + n) Hn) as [x Hx].
  rewrite (take_S_r _ n x) by (by rewrite lookup_drop).
  rewrite seq_S, map_app, IH by lia. cbn. unfold byte_at. by rewrite Hx.
Qed.

Lemma lor_byte v b : byte_ok b -> Z.lor (Z.shiftl v 8) b = v * 256 + b.
Proof. intros H. apply (lor_shiftl_add v b 8); [lia|exact H]. Qed.

Lemma u32_value bytes i :
  Forall byte_ok bytes -> (i + 4 <= length bytes)%nat ->
  u32 bytes i = be_value (slice i (i + 4) bytes).
Proof.
  intros Hb Hl. rewrite slice_seq by done. unfold u32. cbn [map seq]. rewrite Nat.add_0_r.
  pose proof (byte_at_ok bytes i Hb) as H0. pose proof (byte_at_ok bytes (i + 1) Hb) as H1.
  pose proof (byte_at_ok bytes (i + 2) Hb) as H2. pose proof (byte_at_ok bytes (i + 3) Hb) as H3.
  set (b0 := byte_at bytes i) in *. set (b1 := byte_at bytes (i + 1)) in *.
  set (b2 := byte_at bytes (i + 2)) in *. set (b3 := byte_at bytes (i + 3)) in *.
  assert (Hbe : be_value [b0; b1; b2; b3] = ((b0 * 256 + b1) * 256 + b2) * 256 + b3)
    by (unfold be_value, digits_value; cbn; lia).
  rewrite Hbe. unfold js_ushr, to_uint32. rewrite Z.shiftr_0_r, js_or_mod.
  rewrite (lor_mod32 _ (Z.lor (Z.lor (Z.shiftl b0 24) (Z.shiftl b1 16)) (Z.shiftl b2 8)) _ b3); [|clear Hbe|done].
  - replace (Z.shiftl b0 24) with (Z.shiftl (Z.shiftl b0 8) 16) by (by rewrite Z.shiftl_shiftl).
    rewrite <- Z.shiftl_lor, lor_byte by done.
    replace (Z.shiftl (b0 * 256 + b1) 16) with (Z.shiftl (Z.shiftl (b0 * 256 + b1) 8) 8)
      by (by rewrite Z.shiftl_shiftl).
    rewrite <- Z.shiftl_lor, !lor_byte by done. apply Z.mod_small. unfold byte_ok in *. lia.
  - rewrite js_or_mod. apply lor_mod32; [|by rewrite js_shl_mod].
    rewrite js_or_mod. apply lor_mod32; by rewrite js_shl_mod.
Qed.

Lemma u256_fold bytes i js v :
  Forall byte_ok bytes ->
  fold_left (fun value j => Z.lor (Z.shiftl value 8) (byte_at bytes (i + j))) js v =
  fold_left (fun acc d => acc * 256 + d) (map (fun j => byte_at bytes (i + j)) js) v.
Proof.
  intros Hb. revert v. induction js as [|j js IH]; intros v; [done|]. cbn [fold_left map].
  by rewrite IH, lor_byte by (by apply byte_at_ok).
Qed.

Lemma u256_value bytes i :
  Forall byte_ok bytes -> (i + 32 <= length bytes)%nat ->
  u256 bytes i = be_value (slice i (i + 32) bytes).
Proof. intros Hb Hl. rewrite slice_seq by done. by apply u256_fold. Qed.

(** ** Lemmas: the layout *)

Lemma slice_app_mid (pre x post : list Z) :
  slice (length pre) (length pre + length x) (pre ++ x ++ post) = x.
Proof.
  unfold slice. replace (length pre + length x - length pre)%nat with (length x) by lia.
  by rewrite drop_app_length, take_app_length.
Qed.

(** The [k]-th part of a layout sits at the sum of the lengths before it. *)
Lemma slice_part parts k x off stop :
  parts !! k = Some x -> off = length (concat (take k parts)) -> stop = (off + length x)%nat ->
  slice off stop (concat parts) = x /\ (stop <= length (concat parts))%nat.
Proof.
  intros H -> ->.
  assert (E : concat parts = concat (take k parts) ++ x ++ concat (drop (S k) parts)).
  { rewrite <- (take_drop_middle parts k x H) at 1. by rewrite concat_app. }
  rewrite E. split; [apply slice_app_mid|]. rewrite !length_app. lia.
Qed.

Lemma part_u32 parts k v off :
  parts !! k = Some (be_bytes 4 v) -> off = length (concat (take k parts)) ->
  Forall byte_ok (concat parts) -> u32_ok v -> u32 (concat parts) off = v.
Proof.
  intros H Ho Hb Hv.
  destruct (slice_part parts k _ off (off + 4) H Ho) as [E Hl]; [by rewrite be_digits_length|].
  rewrite u32_value, E, be_value_bytes by done. by apply Z.mod_small.
Qed.

Lemma part_u256 parts k v off :
  parts !! k = Some (be_bytes 32 v) -> off = length (concat (take k parts)) ->
  Forall byte_ok (concat parts) -> u256_ok v -> u256 (concat parts) off = v.
Proof.
  intros H Ho Hb Hv.
  destruct (slice_part parts k _ off (off + 32) H Ho) as [E Hl]; [by rewrite be_digits_length|].
  rewrite u256_value, E, be_value_bytes by done. by apply Z.mod_small.
Qed.

Lemma part_bytes parts k x off stop :
  parts !! k = Some x -> off = length (concat (take k parts)) -> stop = (off + length x)%nat ->
  slice off stop (concat parts) = x.
Proof. intros H Ho Hs. by destruct (slice_part parts k x off stop H Ho Hs). Qed.

Ltac layout_len :=
  cbn [encode_body_parts encode_header_parts take concat app]; rewrite ?length_app, ?be_digits_length;
  cbn [length]; lia.

Ltac layout_bytes :=
  cbn [encode_body_parts encode_header_parts concat]; rewrite ?Forall_app; split_and!;
  first [done | apply be_bytes_ok | constructor].

Lemma body_parts_ok b : body_ok b -> Forall byte_ok (encode_body b) /\
  (228 <= length (encode_body b))%nat.
Proof.
  intros (H1 & [H2 H2'] & [H3 H3'] & H4 & [H5 H5'] & H6 & H7 & H8 & H9). unfold encode_body.
  split; [layout_bytes|layout_len].
Qed.

Lemma parse_encode_body b : body_ok b -> parseCctpBurnBody (encode_body b) = Ok b.
Proof.
  intros Hb. destruct (body_parts_ok b Hb) as [Hbytes Hlen]. unfold parseCctpBurnBody.
  destruct (Nat.ltb_spec (length (encode_body b)) BODY_FIXED_BYTES) as [Hlt|_];
    [unfold BODY_FIXED_BYTES in Hlt; lia|].
  destruct Hb as (H1 & [H2 H2'] & [H3 H3'] & H4 & [H5 H5'] & H6 & H7 & H8 & H9).
  unfold encode_body in *.
  rewrite (part_u32 _ 0 (b_version b)); [|done|layout_len|done|done].
  rewrite (part_bytes _ 1 (b_burnToken b) 4 36); [|done|layout_len|layout_len].
  rewrite (part_bytes _ 2 (b_mintRecipient b) 36 68); [|done|layout_len|layout_len].
  rewrite (part_u256 _ 3 (b_amount b)); [|done|layout_len|done|done].
  rewrite (part_bytes _ 4 (b_messageSender b) 100 132); [|done|layout_len|layout_len].
  rewrite (part_u256 _ 5 (b_maxFee b)); [|done|layout_len|done|done].
  rewrite (part_u256 _ 6 (b_feeExecuted b)); [|done|layout_len|done|done].
  rewrite (part_u256 _ 7 (b_expirationBlock b)); [|done|layout_len|done|done].
  assert (Hd : drop BODY_FIXED_BYTES (concat (encode_body_parts b)) = b_hookData b).
  { replace (concat (encode_body_parts b))
      with (concat (take 8 (encode_body_parts b)) ++ b_hookData b)
      by (cbn [encode_body_parts take concat]; rewrite !app_nil_r, <- !app_assoc; reflexivity).
    apply drop_app_length'. unfold BODY_FIXED_BYTES. layout_len. }
  rewrite Hd. by destruct b.
Qed.

Lemma header_parts_ok h : header_ok h -> Forall byte_ok (concat (encode_header_parts h)) /\
  length (concat (encode_header_parts h)) = HEADER_BYTES.
Proof.
  intros (H1 & H2 & H3 & [H4 H4'] & [H5 H5'] & [H6 H6'] & [H7 H7'] & H8 & H9).
  unfold HEADER_BYTES. split; [layout_bytes|layout_len].
Qed.

(** ** Lemmas: hexadecimal *)

Lemma hex_pairs_of_bytes bytes :
  Forall byte_ok bytes -> hex_pairs (hex_of_bytes bytes) = bytes.
Proof.
  induction 1 as [|b bytes Hb H IH]; [done|]. unfold byte_ok in Hb.
  cbn [hex_of_bytes flat_map app hex_pairs].
  rewrite !hex_digit_char; [|apply Z.mod_pos_bound; lia|split; [apply Z.div_pos; lia|apply Z.div_lt_upper_bound; lia]].
  f_equal; [|exact IH]. symmetry. apply Z.div_mod. lia.
Qed.

Lemma hex_of_bytes_hex bytes :
  Forall byte_ok bytes -> forallb is_hex (hex_of_bytes bytes) = true /\
  Nat.even (length (hex_of_bytes bytes)) = true.
Proof.
  induction 1 as [|b bytes Hb H [IH1 IH2]]; [done|]. unfold byte_ok in Hb. cbn.
  rewrite !is_hex_char; [by split|apply Z.mod_pos_bound; lia|].
  split; [apply Z.div_pos; lia|apply Z.div_lt_upper_bound; lia].
Qed.

Lemma hexToBytes_bytesToHex bytes :
  Forall byte_ok bytes -> hexToBytes (bytesToHex bytes) = Ok bytes.
Proof.
  intros H. unfold hexToBytes, bytesToHex. rewrite chars_of_chars.
  destruct (hex_of_bytes_hex bytes H) as [-> ->]. cbn. by rewrite hex_pairs_of_bytes.
Qed.

(** ** Lemmas: bytes and addresses *)

Lemma equalBytes_spec a b : equalBytes a b = true <-> a = b.
Proof.
  unfold equalBytes. rewrite andb_true_iff, bool_decide_eq_true. split.
  - intros [Hl H]. revert b Hl H. induction a as [|x a IH]; intros [|y b] Hl H; try done.
    cbn in *. bool_to_prop. f_equal; [done|]. apply IH; [lia|done].
  - intros ->. split; [done|]. induction b as [|y b IH]; [done|]. cbn. by rewrite Z.eqb_refl.
Qed.

Lemma without_bom_ascii cs : Forall (fun c => code c < 128) cs -> without_bom (map code cs) = map code cs.
Proof.
  intros H. destruct cs as [|c cs]; [done|]. apply list.Forall_cons in H as [Hc _]. cbn [map without_bom].
  repeat case_match; try done; lia.
Qed.

Lemma text_round_trip s :
  Forall (fun c => code c < 128) (chars s) -> text_decode (text_encode s) = Some s.
Proof.
  intros H. unfold text_decode, text_encode.
  replace (without_bom (map code (chars s))) with (map code (chars s)) by (symmetry; by apply without_bom_ascii).
  replace (forallb (fun b => b <? 128) (map code (chars s))) with true.
  - rewrite map_map. rewrite (map_ext _ id) by (intros; apply chr_code). rewrite map_id.
    by rewrite of_chars_chars.
  - symmetry. apply forallb_forall. intros b Hb. apply in_map_iff in Hb as (c & <- & Hc).
    apply Z.ltb_lt. by eapply List.Forall_forall in H.
Qed.

Lemma assertStellarAddress_ok `{StellarSdk} s :
  assertStellarAddress s = Ok tt <-> valid_stellar_address s = true.
Proof.
  unfold assertStellarAddress, valid_stellar_address, throw_if.
  destruct (StrKey_isValidEd25519PublicKey s), (StrKey_isValidContract s),
    (StrKey_isValidMed25519PublicKey s); cbn; naive_solver.
Qed.

Lemma assertForwarderFields_ok `{StellarSdk} mr dc f :
  assertForwarderFields mr dc f = Ok tt <->
  StrKey_isValidContract f = true /\ StrKey_decodeContract f = Ok mr /\ StrKey_decodeContract f = Ok dc.
Proof.
  unfold assertForwarderFields, contractAddressToBytes32, throw_if.
  destruct (StrKey_isValidContract f); cbn; [|naive_solver]. destruct (StrKey_decodeContract f) as [fw|e]; cbn; [|naive_solver].
  destruct (equalBytes mr _) eqn:E1; cbn.
  - apply equalBytes_spec in E1. destruct (equalBytes dc _) eqn:E2; cbn.
    + apply equalBytes_spec in E2. naive_solver.
    + split; [done|]. intros (_ & _ & [= Hd]). symmetry in Hd. apply equalBytes_spec in Hd. congruence.
  - split; [done|]. intros (_ & [= Hm] & _). symmetry in Hm. apply equalBytes_spec in Hm. congruence.
Qed.

(** ** Lemmas: the two encodings are read back *)

Lemma parse_encoded_message (h : header_fields) (b : CctpBurnBody)
    (Hh : header_ok h) (Hb : body_ok b) :
  parseCctpMessage (bytesToHex (encode_message h b)) = Ok (parsed_header h, b).
Proof.
  destruct (header_parts_ok h Hh) as [Hhb Hhl], (body_parts_ok b Hb) as [Hbb Hbl].
  unfold parseCctpMessage, encode_message.
  rewrite hexToBytes_bytesToHex
    by (rewrite concat_app; apply Forall_app; split; [exact Hhb|exact Hbb]).
  cbn [mbind result_bind].
  assert (Hall : Forall byte_ok (concat (encode_header_parts h ++ encode_body_parts b)))
    by (rewrite concat_app; apply Forall_app; split; [exact Hhb|exact Hbb]).
  assert (Hlen : (HEADER_BYTES <= length (concat (encode_header_parts h ++ encode_body_parts b)))%nat)
    by (rewrite concat_app, length_app; lia).
  destruct (Nat.ltb_spec (length (concat (encode_header_parts h ++ encode_body_parts b))) HEADER_BYTES)
    as [?|_]; [lia|]. cbn [throw_if mbind result_bind].
  rewrite concat_app at 1. rewrite <- Hhl at 1. rewrite drop_app_length.
  change (concat (encode_body_parts b)) with (encode_body b). rewrite parse_encode_body by done.
  cbn [mbind result_bind mret result_ret]. unfold parsed_header.
  destruct Hh as (H1 & H2 & H3 & [H4 H4'] & [H5 H5'] & [H6 H6'] & [H7 H7'] & H8 & H9).
  rewrite (part_u32 _ 0 (rh_version h)); [|done|layout_len|done|done].
  rewrite (part_u32 _ 1 (rh_source h)); [|done|layout_len|done|done].
  rewrite (part_u32 _ 2 (rh_destination h)); [|done|layout_len|done|done].
  rewrite (part_bytes _ 3 (rh_nonce h) 12 44); [|done|layout_len|layout_len].
  rewrite (part_bytes _ 4 (rh_sender h) 44 76); [|done|layout_len|layout_len].
  rewrite (part_bytes _ 5 (rh_recipient h) 76 108); [|done|layout_len|layout_len].
  rewrite (part_bytes _ 6 (rh_caller h) 108 140); [|done|layout_len|layout_len].
  rewrite (part_u32 _ 7 (rh_min_finality h)); [|done|layout_len|done|done].
  rewrite (part_u32 _ 8 (rh_finality h)); [|done|layout_len|done|done]. done.
Qed.

Lemma part_getUint32 parts k v off :
  parts !! k = Some (setUint32 v) -> off = length (concat (take k parts)) -> u32_ok v ->
  getUint32 (concat parts) off = v.
Proof.
  intros H Ho Hv. unfold getUint32. rewrite (part_bytes parts k (setUint32 v) off (off + 4) H Ho)
    by (unfold setUint32; by rewrite be_digits_length).
  unfold setUint32. rewrite be_value_bytes. change (256 ^ Z.of_nat 4) with (2 ^ 32).
  rewrite Z.mod_mod by lia. by apply Z.mod_small.
Qed.

Lemma parse_built_hook {SDK : StellarSdk} {L : StellarSdkLaws SDK} (addr : string) (payload : list Z)
    (Ha : valid_stellar_address addr = true) :
  (hook ← buildForwarderHookData addr payload; parseForwarderHookData hook) =
  Ok {| hook_version := 0; forwardRecipient := addr; hook_payload := payload |}.
Proof.
  destruct (valid_address_ascii addr Ha) as [Hascii Hlen].
  unfold buildForwarderHookData. pose proof (proj2 (assertStellarAddress_ok addr) Ha) as HA.
  rewrite HA. cbn [mbind result_bind mret result_ret].
  set (rb := text_encode addr).
  assert (Hrb : (length rb <= 69)%nat) by (unfold rb, text_encode; by rewrite length_map).
  set (parts := [replicate HOOK_MAGIC_BYTES 0; setUint32 HOOK_VERSION;
                 setUint32 (Z.of_nat (length rb)); rb; payload]).
  replace (replicate _ 0 ++ _) with (concat parts) by (unfold parts; cbn [concat]; by rewrite app_nil_r).
  assert (Hw : forall v, length (setUint32 v) = 4%nat) by (intros; apply be_digits_length).
  assert (Hl : length (concat parts) = (32 + length rb + length payload)%nat).
  { unfold parts. cbn [concat]. rewrite !length_app, !Hw, length_replicate. cbn. lia. }
  unfold parseForwarderHookData, HOOK_HEADER_BYTES.
  rewrite (proj2 (Nat.ltb_ge (length (concat parts)) 32)) by lia. cbn [throw_if mbind result_bind].
  rewrite (part_getUint32 parts 1 HOOK_VERSION) by (done || (split; done)).
  rewrite (part_getUint32 parts 2 (Z.of_nat (length rb)));
    [|done|unfold parts; cbn [take concat]; rewrite !length_app, Hw, length_replicate; done|split; lia].
  rewrite (proj2 (Z.ltb_ge (Z.of_nat (length (concat parts))) _)) by lia.
  cbn [throw_if mbind result_bind]. rewrite Nat2Z.id.
  rewrite (part_bytes parts 3 rb);
    [|done|unfold parts; cbn [take concat]; rewrite !length_app, !Hw, length_replicate; done|done].
  change (text_decode rb) with (text_decode (text_encode addr)).
  rewrite (text_round_trip addr Hascii). cbn [result_of_option mbind result_bind].
  rewrite HA. cbn [mbind result_bind mret result_ret]. do 2 f_equal.
  replace (concat parts) with (concat (take 4 parts) ++ payload)
    by (unfold parts; cbn [take concat]; rewrite !app_nil_r, <- !app_assoc; reflexivity).
  apply drop_app_length'. unfold parts. cbn [take concat].
  rewrite !length_app, !Hw, length_replicate. cbn. lia.
Qed.

(** Hexadecimal text of fewer bytes than a message needs is refused. *)
Lemma parse_short_message bytes :
  Forall byte_ok bytes -> (length bytes < HEADER_BYTES + BODY_FIXED_BYTES)%nat ->
  exists msg, parseCctpMessage (bytesToHex bytes) = Throw (CctpMessageError msg).
Proof.
  intros Hb Hl. unfold parseCctpMessage. rewrite hexToBytes_bytesToHex by done. cbn [mbind result_bind].
  destruct (Nat.ltb_spec (length bytes) HEADER_BYTES); cbn [throw_if mbind result_bind]; [by eexists|].
  unfold parseCctpBurnBody. rewrite length_drop.
  rewrite (proj2 (Nat.ltb_lt (length bytes - HEADER_BYTES) BODY_FIXED_BYTES)) by lia. by eexists.
Qed.

Definition sample_header : header_fields :=
  {| rh_version := 1; rh_source := 6; rh_destination := 27; rh_nonce := be_bytes 32 77;
     rh_sender := be_bytes 32 1; rh_recipient := be_bytes 32 2; rh_caller := be_bytes 32 3;
     rh_min_finality := 2000; rh_finality := 4294967295 |}.

Definition sample_body : CctpBurnBody :=
  {| b_version := 1; b_burnToken := be_bytes 32 4; b_mintRecipient := be_bytes 32 3;
     b_amount := 1000000; b_messageSender := be_bytes 32 5; b_maxFee := 0; b_feeExecuted := 0;
     b_expirationBlock := 0; b_hookData := [1; 2; 3] |}.

Lemma bytes32_be v : bytes32_ok (be_bytes 32 v).
Proof. split; [apply be_bytes_length|apply be_bytes_ok]. Qed.

Lemma sample_header_ok : header_ok sample_header.
Proof. split_and!; try apply bytes32_be; (split; vm_compute; congruence). Qed.

Lemma sample_body_ok : body_ok sample_body.
Proof.
  split_and!; try apply bytes32_be; try (split; vm_compute; congruence).
  repeat (constructor; [split; vm_compute; congruence|]). constructor.
Qed.

(** ** Properties *)

(** C40. The message parser reads back exactly what Circle's layout writes: for
    every header and burn body whose fields fit their widths, parsing the hex text
    of the encoded message returns those fields - the unsigned 32-bit reads
    included, although they go through JavaScript's signed shifts - and a message
    cut anywhere before its hook is refused. *)
Theorem parse_message_roundtrip (h : header_fields) (b : CctpBurnBody)
    (Hh : header_ok h) (Hb : body_ok b) :
  parseCctpMessage (bytesToHex (encode_message h b)) = Ok (parsed_header h, b) /\
  forall n, (n < HEADER_BYTES + BODY_FIXED_BYTES)%nat ->
    exists msg, parseCctpMessage (bytesToHex (take n (encode_message h b))) = Throw (CctpMessageError msg).
Proof.
  split; [by apply parse_encoded_message|]. intros n Hn.
  destruct (header_parts_ok h Hh) as [Hhb _], (body_parts_ok b Hb) as [Hbb _].
  apply parse_short_message.
  - apply Forall_take. unfold encode_message. rewrite concat_app. by apply Forall_app.
  - rewrite length_take. lia.
Qed.

Lemma parse_message_roundtrip_witness :
  parseCctpMessage (bytesToHex (encode_message sample_header sample_body)) =
  Ok (parsed_header sample_header, sample_body).
Proof. exact (proj1 (parse_message_roundtrip _ _ sample_header_ok sample_body_ok)). Defined.

(** The forwarder hook round-trips: for every valid Stellar address (G, C or
    M) and every payload, the hook data built for it is accepted and parses back
    to version 0, that very recipient and that payload, so the recipient of
    bridged funds cannot change between building the burn and delivering it; and
    hook data is never built for an invalid address. *)
Theorem hook_roundtrip {SDK : StellarSdk} {L : StellarSdkLaws SDK} (addr : string) (payload : list Z) :
  if valid_stellar_address addr
  then (hook ← buildForwarderHookData addr payload; parseForwarderHookData hook) =
       Ok {| hook_version := 0; forwardRecipient := addr; hook_payload := payload |}
  else is_ok (buildForwarderHookData addr payload) = false.
Proof.
  destruct (valid_stellar_address addr) eqn:Ha; [by apply parse_built_hook|].
  unfold buildForwarderHookData. destruct (assertStellarAddress addr) as [[]|e] eqn:E; [|done].
  apply assertStellarAddress_ok in E. congruence.
Qed.

Lemma hook_roundtrip_witness :
  (hook ← buildForwarderHookData "GDCZFUNJ7MXWBIQ6UUTJRGZIJF5EMRVJCSK73MA2U7K57GWMA4N3P6SL" [7; 8];
   parseForwarderHookData hook) =
  Ok {| hook_version := 0; forwardRecipient := "GDCZFUNJ7MXWBIQ6UUTJRGZIJF5EMRVJCSK73MA2U7K57GWMA4N3P6SL"; hook_payload := [7; 8] |}.
Proof.
  pose proof (hook_roundtrip (SDK := ModelSdk) "GDCZFUNJ7MXWBIQ6UUTJRGZIJF5EMRVJCSK73MA2U7K57GWMA4N3P6SL" [7; 8]) as H.
  assert (Hv : valid_stellar_address "GDCZFUNJ7MXWBIQ6UUTJRGZIJF5EMRVJCSK73MA2U7K57GWMA4N3P6SL" = true)
    by (vm_compute; reflexivity).
  rewrite Hv in H. exact H.
Defined.
