(* ===== verification/CctpTransfer.v ===== *)
(** * CCTP transfers ([backend/src/cctp/cctp-transfer.ts], [iris-client.ts])

    The state machine of one cross-chain transfer: its transition table, the
    reconciliation of a row with the chain, and the reading of the answers of
    Circle's attestation service (Iris), HTTP client included. *)

From stdpp Require Import base tactics list strings numbers.
From Stdlib Require Import Lia ZArith Ascii.
From S2P Require Import Prelude JsString.

Local Open Scope Z_scope.

(** ** Data *)

(** [CCTP_DOMAINS]. *)
Definition STELLAR_DOMAIN : Z := 27.
Definition BASE_SEPOLIA_DOMAIN : Z := 6.

Inductive CctpTransferState := pending | attested | submitting | delivered | failed.

#[export] Instance CctpTransferState_eq_dec : EqDecision CctpTransferState.
Proof. solve_decision. Defined.

Definition LEGAL_TRANSITIONS (s : CctpTransferState) : list CctpTransferState :=
  match s with
  | pending => [attested; failed]
  | attested => [submitting; failed]
  | submitting => [delivered; submitting; attested; failed]
  | delivered => []
  | failed => [delivered]
  end.

Definition state_name (s : CctpTransferState) : string :=
  match s with
  | pending => "pending" | attested => "attested" | submitting => "submitting"
  | delivered => "delivered" | failed => "failed"
  end.

(** The optional fields are [None] when undefined. *)
Record CctpTransfer := {
  t_nonce : string;
  t_sourceDomain : Z;
  t_destinationDomain : Z;
  t_burnTxHash : string;
  t_amountUsdc6 : Z;
  t_beneficiary : string;
  t_state : CctpTransferState;
  t_attestation : option string;
  t_message : option string;
  t_mintTxHash : option string;
  t_depositTxHash : option string;
  t_lastError : option string;
  t_attempts : Z;
}.

(** A patch object: [None] when the key is absent, [Some v] when it is present
    with the value [v], which may be undefined. *)
Record CctpPatch := {
  p_attestation : option (option string);
  p_message : option (option string);
  p_mintTxHash : option (option string);
  p_depositTxHash : option (option string);
  p_lastError : option (option string);
}.

(** [{}]. *)
Definition no_patch : CctpPatch := Build_CctpPatch None None None None None.

(** [Object.keys(patch).length === 0]. *)
Definition patch_is_empty (p : CctpPatch) : bool :=
  match p with Build_CctpPatch None None None None None => true | _ => false end.

(** [{ ...t, ...patch, state: to }]. *)
Definition spread (t : CctpTransfer) (p : CctpPatch) (to : CctpTransferState) : CctpTransfer := {|
  t_nonce := t_nonce t;
  t_sourceDomain := t_sourceDomain t;
  t_destinationDomain := t_destinationDomain t;
  t_burnTxHash := t_burnTxHash t;
  t_amountUsdc6 := t_amountUsdc6 t;
  t_beneficiary := t_beneficiary t;
  t_state := to;
  t_attestation := default (t_attestation t) (p_attestation p);
  t_message := default (t_message t) (p_message p);
  t_mintTxHash := default (t_mintTxHash t) (p_mintTxHash p);
  t_depositTxHash := default (t_depositTxHash t) (p_depositTxHash p);
  t_lastError := default (t_lastError t) (p_lastError p);
  t_attempts := t_attempts t;
|}.

(** [{ ...t, lastError: undefined }]. *)
Definition clear_error (t : CctpTransfer) : CctpTransfer :=
  spread t (Build_CctpPatch None None None None (Some None)) (t_state t).

(** [LEGAL_TRANSITIONS[from].includes(to)]. *)
Definition legal (from to : CctpTransferState) : bool := bool_decide (to ∈ LEGAL_TRANSITIONS from).

(** ** The choke point *)

Definition transition (t : CctpTransfer) (to : CctpTransferState) (patch : CctpPatch)
  : result CctpTransfer :=
  if bool_decide (t_state t = to) && patch_is_empty patch then Ok t
  else if bool_decide (t_state t = to) && negb (legal (t_state t) to) then Ok (spread t patch (t_state t))
  else if negb (legal (t_state t) to)
  then Throw (IllegalCctpTransition (state_name (t_state t)) (state_name to) (t_nonce t))
  else
    let cleared := if negb (bool_decide (to = failed)) && negb (bool_decide (is_Some (p_lastError patch)))
                   then clear_error t else t in
    Ok (spread cleared patch to).

(** ** Iris *)

Inductive IrisAttestationStatus :=
  | IrisPending
  | IrisComplete (attestation : string) (message : option string)
  | IrisBackoff (retryAfterMs : Z)
  | IrisError (message : string).

(** The body given to [irisStatusFromHttp]; [null] and undefined are [None]. *)
Record IrisBody := {
  ib_attestation : option string;
  ib_status : option string;
  ib_error : option string;
  ib_message : option string;
}.

(** JavaScript truthiness of a string that may be undefined. *)
Definition truthy (o : option string) : bool :=
  match o with Some s => negb (bool_decide (s = ""%string)) | None => false end.

(** A non-empty string other than the sentinel "PENDING". *)
Definition real_attestation (o : option string) : bool :=
  match o with
  | Some att => negb (bool_decide (att = ""%string)) && negb (bool_decide (toUpperCase att = "PENDING"%string))
  | None => false
  end.

Definition irisStatusFromHttp (httpStatus : Z) (body : option IrisBody)
    (retryAfterSeconds : option Z) : IrisAttestationStatus :=
  if httpStatus =? 200 then
    let att := body ≫= ib_attestation in
    let status := body ≫= ib_status in
    let ready := match status with None => true | Some s => bool_decide (s = "complete"%string) end
                 && real_attestation att in
    if ready then IrisComplete (default ""%string att) (body ≫= ib_message) else IrisPending
  else if httpStatus =? 404 then IrisPending
  else if httpStatus =? 429 then IrisBackoff (default 5 retryAfterSeconds * 1000)
  else if (httpStatus =? 401) || (httpStatus =? 403) then IrisBackoff 60000
  else if 500 <=? httpStatus then IrisPending
  else if (httpStatus =? 400) && truthy (body ≫= ib_error)
  then IrisError (default ""%string (body ≫= ib_error))
  else IrisBackoff 30000.

(** ** Reconciliation *)

Definition iris_patch (iris : IrisAttestationStatus) : CctpPatch :=
  match iris with
  | IrisComplete att msg => Build_CctpPatch (Some (Some att)) (Some msg) None None None
  | _ => no_patch
  end.

Definition iris_complete (iris : IrisAttestationStatus) : bool :=
  match iris with IrisComplete _ _ => true | _ => false end.

Definition with_attempts (t : CctpTransfer) (n : Z) : CctpTransfer := {|
  t_nonce := t_nonce t; t_sourceDomain := t_sourceDomain t;
  t_destinationDomain := t_destinationDomain t; t_burnTxHash := t_burnTxHash t;
  t_amountUsdc6 := t_amountUsdc6 t; t_beneficiary := t_beneficiary t; t_state := t_state t;
  t_attestation := t_attestation t; t_message := t_message t; t_mintTxHash := t_mintTxHash t;
  t_depositTxHash := t_depositTxHash t; t_lastError := t_lastError t; t_attempts := n |}.

(** The branch of [reconcile] for a nonce the chain reports as consumed. *)
Definition reconcile_used (t : CctpTransfer) (iris : IrisAttestationStatus) : result CctpTransfer :=
  let att := iris_patch iris in
  if bool_decide (t_state t = failed) then transition t delivered att
  else
    cur ← (if bool_decide (t_state t = pending) then transition t attested att else Ok t);
    let cur := if bool_decide (t_state cur = attested) && iris_complete iris
                  && negb (truthy (t_attestation cur))
               then spread cur att (t_state cur) else cur in
    cur ← (if bool_decide (t_state cur = attested) then transition cur submitting no_patch else Ok cur);
    let finalAtt := if negb (truthy (t_attestation cur)) && iris_complete iris then att else no_patch in
    transition cur delivered finalAtt.

Definition reconcile (t : CctpTransfer) (iris : IrisAttestationStatus) (nonceUsedOnChain : bool)
  : result CctpTransfer :=
  if nonceUsedOnChain && negb (bool_decide (t_state t = delivered)) then reconcile_used t iris
  else
    match t_state t with
    | pending =>
        match iris with
        | IrisComplete att msg => transition t attested (Build_CctpPatch (Some (Some att)) (Some msg) None None None)
        | IrisError msg => transition t failed (Build_CctpPatch None None None None (Some (Some msg)))
        | IrisPending | IrisBackoff _ => Ok (with_attempts t (t_attempts t + 1))
        end
    | attested | submitting | delivered | failed => Ok t
    end.

(** ** The HTTP client of Iris *)

Record IrisV2Message := {
  im_status : option string;
  im_attestation : option string;
  im_message : option string;
}.

Record IrisV2Body := {
  messages : option (list IrisV2Message);
  error : option string;
}.

(** What [fetch] resolves to: the status, the [retry-after] header and the JSON
    body, which is [None] when [res.json()] rejects. *)
Record HttpResponse := {
  res_status : Z;
  res_retryAfter : option string;
  res_json : option IrisV2Body;
}.

(** The longest prefix of digits. *)
Fixpoint digit_prefix (l : list ascii) : list ascii :=
  match l with
  | c :: r => if is_digit c then c :: digit_prefix r else []
  | [] => []
  end.

(** [Number.parseInt(s, 10)]; [None] is NaN. *)
Definition parseInt10 (s : string) : option Z :=
  let l := trim_chars (chars s) in
  let '(sign, l) := match l with
                    | "-"%char :: r => (-1, r)
                    | "+"%char :: r => (1, r)
                    | r => (1, r)
                    end in
  match digit_prefix l with
  | [] => None
  | ds => Some (sign * decimal_value ds)
  end.

(** [header ? Number.parseInt(header, 10) || undefined : undefined]. *)
Definition retry_after_seconds (header : option string) : option Z :=
  if truthy header then
    match parseInt10 (default ""%string header) with
    | Some n => if n =? 0 then None else Some n
    | None => None
    end
  else None.

(** The predicate of [messages.find(...)]. *)
Definition message_ready (m : IrisV2Message) : bool :=
  match im_status m with Some s => bool_decide (s = "complete"%string) | None => false end
  && real_attestation (im_attestation m).

Definition flat_body (body : option IrisV2Body) : IrisBody :=
  let msgs := default [] (body ≫= messages) in
  let flat := match List.find message_ready msgs with Some m => Some m | None => head msgs end in
  match flat with
  | Some m => {| ib_attestation := im_attestation m; ib_status := im_status m;
                 ib_error := body ≫= error; ib_message := im_message m |}
  | None => {| ib_attestation := None; ib_status := None; ib_error := body ≫= error; ib_message := None |}
  end.

Definition iris_url (baseUrl : string) (sourceDomain : Z) (burnTxHash : string) : string :=
  (baseUrl +:+ "/v2/messages/" +:+ String_of_int sourceDomain
   +:+ "?transactionHash=" +:+ burnTxHash)%string.

(** [getAttestation]: [fetch] is a parameter; [None] when it rejects. *)
Definition getAttestation (fetch : string -> option HttpResponse) (baseUrl : string)
    (sourceDomain : Z) (burnTxHash : string) : IrisAttestationStatus :=
  match fetch (iris_url baseUrl sourceDomain burnTxHash) with
  | None => IrisBackoff 15000
  | Some res =>
      irisStatusFromHttp (res_status res) (Some (flat_body (res_json res)))
        (retry_after_seconds (res_retryAfter res))
  end.

(** ** Specification vocabulary *)

(** The fields no operation may change. *)
Definition identity (t : CctpTransfer) : string * Z * Z * string * Z * string :=
  (t_nonce t, t_sourceDomain t, t_destinationDomain t, t_burnTxHash t, t_amountUsdc6 t, t_beneficiary t).

(** A transition keeps the previous error when it does not advance the row. *)
Definition keeps_error (t : CctpTransfer) (to : CctpTransferState) (p : CctpPatch) : bool :=
  bool_decide (to = failed) ||
  (bool_decide (t_state t = to) && (patch_is_empty p || negb (legal (t_state t) to))).

(** An Iris answer whose attestation, if any, is not empty. *)
Definition iris_ok (iris : IrisAttestationStatus) : Prop :=
  match iris with IrisComplete att _ => att <> ""%string | _ => True end.

(** One step of any caller of the state machine. *)
Inductive row_step : CctpTransfer -> CctpTransfer -> Prop :=
  | row_transition t to p t' : transition t to p = Ok t' -> row_step t t'
  | row_reconcile t iris used t' : reconcile t iris used = Ok t' -> row_step t t'.

(** ** Lemmas *)

Lemma legal_spec from to : legal from to = true <-> to ∈ LEGAL_TRANSITIONS from.
Proof. unfold legal. by rewrite bool_decide_eq_true. Qed.

Lemma transition_ok t to p t' :
  transition t to p = Ok t' ->
  t_state t' = to /\ identity t' = identity t /\ t_attempts t' = t_attempts t /\
  (t_state t = to \/ to ∈ LEGAL_TRANSITIONS (t_state t)).
Proof.
  unfold transition. intros H.
  destruct (bool_decide (t_state t = to) && patch_is_empty p) eqn:E1;
    [bool_to_prop; injection H as <-; by auto|].
  destruct (bool_decide (t_state t = to) && negb (legal (t_state t) to)) eqn:E2;
    [bool_to_prop; injection H as <-; by auto|].
  destruct (legal (t_state t) to) eqn:E; cbn in H; [|done]. apply legal_spec in E.
  injection H as <-. split; [done|].
  by destruct (bool_decide (to = failed)), (bool_decide (is_Some (p_lastError p))); auto.
Qed.

Lemma transition_legal t to p :
  to ∈ LEGAL_TRANSITIONS (t_state t) -> is_ok (transition t to p) = true.
Proof.
  intros H. apply legal_spec in H. unfold transition. rewrite H. cbn.
  rewrite andb_false_r. by destruct (_ && _).
Qed.

Lemma transition_throws t to p e :
  transition t to p = Throw e ->
  t_state t <> to /\ ~ to ∈ LEGAL_TRANSITIONS (t_state t) /\
  e = IllegalCctpTransition (state_name (t_state t)) (state_name to) (t_nonce t).
Proof.
  unfold transition. intros H.
  destruct (bool_decide (t_state t = to) && patch_is_empty p) eqn:E1; [done|].
  destruct (bool_decide (t_state t = to) && negb (legal (t_state t) to)) eqn:E2; [done|].
  destruct (legal (t_state t) to) eqn:E; cbn in H; [done|]. injection H as <-.
  split_and!; [|by rewrite <- legal_spec, E|done].
  intros Heq. rewrite bool_decide_true in E2 by done. done.
Qed.

(** The data of a transition: each key of the patch overwrites, the others stay. *)
Lemma transition_data t to p t' :
  transition t to p = Ok t' ->
  t_attestation t' = default (t_attestation t) (p_attestation p) /\
  t_message t' = default (t_message t) (p_message p) /\
  t_mintTxHash t' = default (t_mintTxHash t) (p_mintTxHash p) /\
  t_depositTxHash t' = default (t_depositTxHash t) (p_depositTxHash p) /\
  t_lastError t' = default (if keeps_error t to p then t_lastError t else None) (p_lastError p).
Proof.
  unfold transition, keeps_error. intros H.
  destruct (bool_decide (t_state t = to) && patch_is_empty p) eqn:E1.
  { injection H as <-. bool_to_prop. subst to.
    destruct p as [[?|] [?|] [?|] [?|] [?|]]; try done. cbn.
    rewrite (bool_decide_true (t_state t = t_state t)) by done. cbn. by rewrite orb_true_r. }
  destruct (bool_decide (t_state t = to) && negb (legal (t_state t) to)) eqn:E2.
  { injection H as <-. bool_to_prop. subst to. rewrite (bool_decide_true (t_state t = t_state t)) by done.
    match goal with H : legal _ _ = false |- _ => rewrite H end. cbn. by rewrite !orb_true_r. }
  destruct (legal (t_state t) to); [|done]. cbn in H, E2 |- *. injection H as <-.
  assert (Hk : bool_decide (t_state t = to) && (patch_is_empty p || false) = false) by (rewrite orb_false_r; done).
  rewrite Hk, orb_false_r. cbn.
  destruct (bool_decide (to = failed)), (p_lastError p) as [le|] eqn:Ele; cbn; try rewrite Ele; done.
Qed.

Lemma truthy_some s : s <> ""%string -> truthy (Some s) = true.
Proof. intros H. cbn. by rewrite bool_decide_false. Qed.

(** What the consumed-nonce branch computes, by cases on the state of the row. *)
Lemma reconcile_used_ok t iris :
  t_state t <> delivered ->
  exists t', reconcile_used t iris = Ok t' /\ t_state t' = delivered /\ identity t' = identity t /\
    t_attempts t' = t_attempts t /\ t_mintTxHash t' = t_mintTxHash t /\
    t_depositTxHash t' = t_depositTxHash t /\ t_lastError t' = None /\
    (iris_ok iris -> truthy (t_attestation t') = truthy (t_attestation t) || iris_complete iris).
Proof.
  intros Hs.
  destruct t as [n sd dd bt am be st [[|ch att]|] msg mt dt le atn], st;
    cbn in Hs; try congruence;
    (destruct iris as [|[|c a] m|ms|e];
     vm_compute; eexists; split_and!; try reflexivity; congruence).
Qed.

(** [reconcile] on every input. *)
Lemma reconcile_cases t iris used :
  exists t', reconcile t iris used = Ok t' /\ identity t' = identity t /\
    t_mintTxHash t' = t_mintTxHash t /\ t_depositTxHash t' = t_depositTxHash t /\
    (used = true -> t_state t <> delivered ->
       t_state t' = delivered /\ t_lastError t' = None /\
       (iris_ok iris -> truthy (t_attestation t') = truthy (t_attestation t) || iris_complete iris)) /\
    (used = false \/ t_state t = delivered ->
       if bool_decide (t_state t = pending) then
         match iris with
         | IrisComplete a m => t_state t' = attested /\ t_attestation t' = Some a /\ t_message t' = m
         | IrisError e => t_state t' = failed /\ t_lastError t' = Some e /\ t_attestation t' = t_attestation t
         | IrisPending | IrisBackoff _ => t' = with_attempts t (t_attempts t + 1)
         end
       else t' = t).
Proof.
  unfold reconcile. destruct (decide (used = true /\ t_state t <> delivered)) as [[-> Hs]|Hn].
  - rewrite bool_decide_false by done. cbn.
    destruct (reconcile_used_ok t iris Hs) as (t' & -> & Ht & Hi & Ha & Hm & Hd & He & Hatt).
    exists t'. split_and!; naive_solver.
  - replace (used && negb (bool_decide (t_state t = delivered))) with false.
    2:{ destruct used; [|done]. destruct (decide (t_state t = delivered)); [|tauto].
        by rewrite bool_decide_true. }
    destruct t as [n sd dd bt am be st att msg mt dt le atn], st; cbn in *;
      [destruct iris| | | |]; eexists; split_and!; try reflexivity; try tauto; naive_solver.
Qed.

Lemma iris_status_ok status body retry : iris_ok (irisStatusFromHttp status body retry).
Proof.
  unfold irisStatusFromHttp. destruct (status =? 200).
  - destruct (body ≫= ib_attestation) as [a|]; cbn;
      [|by rewrite andb_false_r].
    destruct (decide (a = ""%string)) as [->|Ha];
      [by rewrite andb_false_r|].
    destruct (_ && _); cbn; done.
  - by repeat case_match.
Qed.

(** The message the client settles on. *)
Definition flat_message (body : option IrisV2Body) : option IrisV2Message :=
  let msgs := default [] (body ≫= messages) in
  match List.find message_ready msgs with Some m => Some m | None => head msgs end.

Lemma flat_body_message body :
  flat_body body = match flat_message body with
  | Some m => {| ib_attestation := im_attestation m; ib_status := im_status m;
                 ib_error := body ≫= error; ib_message := im_message m |}
  | None => {| ib_attestation := None; ib_status := None; ib_error := body ≫= error; ib_message := None |}
  end.
Proof. done. Qed.

Lemma flat_message_in body m :
  flat_message body = Some m -> m ∈ default [] (body ≫= messages).
Proof.
  unfold flat_message. destruct (List.find _ _) as [m'|] eqn:E.
  - intros [= <-]. apply List.find_some in E as [H _]. by apply list_elem_of_In.
  - destruct (default [] (body ≫= messages)); cbn; [done|]. intros [= <-]. left.
Qed.

(** When the settled message is not ready, no message is. *)
Lemma flat_message_unready body :
  (forall m, flat_message body = Some m -> message_ready m = false) ->
  Forall (fun m => message_ready m = false) (default [] (body ≫= messages)).
Proof.
  unfold flat_message. destruct (List.find _ _) as [m'|] eqn:E.
  - intros H. apply List.find_some in E as [_ H']. by rewrite (H m' eq_refl) in H'.
  - intros _. apply Forall_forall. intros m Hm. exact (List.find_none _ _ E m Hm).
Qed.

Lemma row_step_states t t' :
  row_step t t' ->
  identity t' = identity t /\
  (t_state t' = t_state t \/ t_state t' ∈ LEGAL_TRANSITIONS (t_state t) \/
   (t_state t' = delivered /\ t_state t <> delivered)).
Proof.
  intros [? to p ? H|? iris used ? H].
  - apply transition_ok in H as (<- & ? & _ & Hl). split; [done|]. destruct Hl as [Hl|Hl]; auto.
  - destruct (reconcile_cases t0 iris used) as (t1 & H1 & Hid & _ & _ & Hu & Hn).
    rewrite H in H1. injection H1 as <-. split; [done|].
    destruct (decide (used = true /\ t_state t0 <> delivered)) as [[-> Hs]|Hd].
    { destruct (Hu eq_refl Hs) as [-> _]. auto. }
    assert (Hg : used = false \/ t_state t0 = delivered)
      by (destruct used; [right; destruct (decide (t_state t0 = delivered)); tauto|by left]).
    specialize (Hn Hg).
    destruct (decide (t_state t0 = pending)) as [Hp|Hp];
      [rewrite bool_decide_true in Hn by done|rewrite bool_decide_false in Hn by done; subst; by left].
    rewrite Hp in *. destruct iris; cbn; destruct_and?; subst; cbn; try (by left); right; left;
      rewrite !elem_of_cons; auto.
Qed.

(** A delivered row never leaves its state, a failed one only becomes delivered,
    and no row returns to [pending]. *)
Definition lifecycle_order (from to : CctpTransferState) : Prop :=
  (from = delivered -> to = delivered) /\
  (from = failed -> to = failed \/ to = delivered) /\
  (to = pending -> from = pending).

Lemma lifecycle_trans a b c : lifecycle_order a b -> lifecycle_order b c -> lifecycle_order a c.
Proof. unfold lifecycle_order. destruct a, b, c; intuition congruence. Qed.

Lemma row_step_order t t' : row_step t t' -> lifecycle_order (t_state t) (t_state t').
Proof.
  intros H. apply row_step_states in H as (_ & H). unfold lifecycle_order.
  destruct (t_state t), (t_state t'); cbn in H; rewrite ?elem_of_cons, ?elem_of_nil in H; naive_solver.
Qed.

(** ** Properties *)

(** The choke point [transition]: it succeeds exactly when the target is the
    row's own state or one the table allows from it, and then the row is in that
    state, its identity (nonce, domains, burn, amount, beneficiary) and its
    attempts are untouched, each key of the patch overwrites its field and every
    other field stays, except that advancing clears a stale error; otherwise it
    throws the error that names the illegal edge. *)
Theorem transition_correct (t : CctpTransfer) (to : CctpTransferState) (p : CctpPatch) :
  match transition t to p with
  | Ok t' =>
      (t_state t = to \/ to ∈ LEGAL_TRANSITIONS (t_state t)) /\
      t_state t' = to /\ identity t' = identity t /\ t_attempts t' = t_attempts t /\
      t_attestation t' = default (t_attestation t) (p_attestation p) /\
      t_message t' = default (t_message t) (p_message p) /\
      t_mintTxHash t' = default (t_mintTxHash t) (p_mintTxHash p) /\
      t_depositTxHash t' = default (t_depositTxHash t) (p_depositTxHash p) /\
      t_lastError t' = default (if keeps_error t to p then t_lastError t else None) (p_lastError p)
  | Throw e =>
      t_state t <> to /\ ~ to ∈ LEGAL_TRANSITIONS (t_state t) /\
      e = IllegalCctpTransition (state_name (t_state t)) (state_name to) (t_nonce t)
  end.
Proof.
  destruct (transition t to p) as [t'|e] eqn:E; [|by eapply transition_throws].
  pose proof (transition_data _ _ _ _ E). pose proof (transition_ok _ _ _ _ E). tauto.
Qed.

(** Reconciliation follows the chain: it never throws, whatever the row and
    the answers; a consumed nonce closes every row - failed ones included - as
    delivered and clears its error; without one only a pending row moves, to
    attested with Iris's attestation or to failed on a terminal answer, and
    otherwise counts the attempt. It never touches the identity or the recorded
    transactions, and never loses an attestation. *)
Theorem reconcile_follows_chain (t : CctpTransfer) (iris : IrisAttestationStatus) (used : bool) :
  exists t', reconcile t iris used = Ok t' /\ identity t' = identity t /\
    t_mintTxHash t' = t_mintTxHash t /\ t_depositTxHash t' = t_depositTxHash t /\
    (used = true -> t_state t <> delivered -> t_state t' = delivered /\ t_lastError t' = None) /\
    (used = false -> t_state t = pending ->
       match iris with
       | IrisComplete a m => t_state t' = attested /\ t_attestation t' = Some a /\ t_message t' = m
       | IrisError e => t_state t' = failed /\ t_lastError t' = Some e
       | IrisPending | IrisBackoff _ => t' = with_attempts t (t_attempts t + 1)
       end) /\
    (used = false \/ t_state t = delivered -> t_state t <> pending -> t' = t) /\
    (iris_ok iris -> truthy (t_attestation t) = true -> truthy (t_attestation t') = true) /\
    (iris_ok iris -> used = true -> t_state t <> delivered -> iris_complete iris = true ->
       truthy (t_attestation t') = true).
Proof.
  destruct (reconcile_cases t iris used) as (t' & H & Hid & Hm & Hd & Hu & Hn).
  exists t'. split_and!; try done.
  - intros H1 H2. destruct (Hu H1 H2) as (? & ? & _). done.
  - intros H1 H2. specialize (Hn (or_introl H1)). rewrite bool_decide_true in Hn by done.
    destruct iris; naive_solver.
  - intros H1 H2. specialize (Hn H1). by rewrite bool_decide_false in Hn by done.
  - intros Hi Ha. destruct (decide (used = true /\ t_state t <> delivered)) as [[-> Hs]|Hg].
    { destruct (Hu eq_refl Hs) as (_ & _ & Hatt). rewrite Hatt, Ha by done. done. }
    assert (Hg' : used = false \/ t_state t = delivered)
      by (destruct used; [right; destruct (decide (t_state t = delivered)); tauto|by left]).
    specialize (Hn Hg'). destruct (bool_decide (t_state t = pending)); [|by subst].
    destruct iris as [|a m|ms|e]; [by subst| |by subst|]; destruct Hn as (_ & Hn1 & Hn2).
    + rewrite Hn1. by apply truthy_some.
    + by rewrite Hn2.
  - intros Hi H1 H2 Hc. destruct (Hu H1 H2) as (_ & _ & Hatt). rewrite Hatt, Hc by done.
    by rewrite orb_true_r.
Qed.

Definition sample_row : CctpTransfer :=
  Build_CctpTransfer "0x01" 6 27 "0xab" 1000000 "G" pending None None None None None 0.

Lemma reconcile_follows_chain_witness :
  exists t', reconcile sample_row (IrisComplete "0xff" None) true = Ok t' /\
    t_state t' = delivered /\ truthy (t_attestation t') = true.
Proof.
  destruct (reconcile_follows_chain sample_row (IrisComplete "0xff" None) true)
    as (t' & H & _ & _ & _ & Hu & _ & _ & _ & Ha).
  exists t'. split_and!; [exact H|apply Hu; done|apply Ha; done].
Defined.

(** C38. The life of a row, over every interleaving of transitions and
    reconciliations by any caller: its identity never changes, [delivered] is
    terminal, a [failed] row can only become [delivered], and no row goes back
    to [pending]. *)
Theorem row_lifecycle (t t' : CctpTransfer) (H : steps row_step t t') :
  identity t' = identity t /\ lifecycle_order (t_state t) (t_state t').
Proof.
  revert t t' H.
  refine (steps_relation _ (fun t t' => identity t' = identity t /\ lifecycle_order (t_state t) (t_state t')) _ _ _).
  - intros t. split; [done|]. unfold lifecycle_order. tauto.
  - intros a b c [-> H1] [-> H2]. split; [done|]. by eapply lifecycle_trans.
  - intros t t' H. split; [by destruct (row_step_states t t' H)|by apply row_step_order].
Qed.

Lemma row_lifecycle_witness :
  exists t, steps row_step sample_row t /\ t_state t = attested /\ identity t = identity sample_row.
Proof.
  eassert (Hs : steps row_step sample_row _).
  { eapply steps_step; [|apply steps_refl].
    apply (row_reconcile _ (IrisComplete "0xff" None) false). reflexivity. }
  destruct (row_lifecycle _ _ Hs) as [Hid _].
  eexists. split; [exact Hs|]. split; [reflexivity|exact Hid].
Defined.

(** Reading Iris over HTTP: a transfer is completed only by a 200 that
    carries a message with a real attestation (not empty, not the PENDING
    sentinel), and always when some message of the answer is ready; it is failed
    only by a 400 with an explicit error; a lost connection, bad credentials,
    rate limits and server errors never do either. *)
Theorem iris_client_safe (fetch : string -> option HttpResponse) (base : string) (dom : Z) (burn : string) :
  match getAttestation fetch base dom burn with
  | IrisComplete a msg =>
      exists res m, fetch (iris_url base dom burn) = Some res /\ res_status res = 200 /\
        m ∈ default [] (res_json res ≫= messages) /\ im_attestation m = Some a /\
        real_attestation (Some a) = true /\ msg = im_message m /\
        (im_status m = Some "complete"%string \/ im_status m = None)
  | IrisError e =>
      exists res, fetch (iris_url base dom burn) = Some res /\ res_status res = 400 /\
        res_json res ≫= error = Some e /\ e <> ""%string
  | IrisPending =>
      exists res, fetch (iris_url base dom burn) = Some res /\
        (res_status res = 404 \/ 500 <= res_status res \/
         (res_status res = 200 /\ Forall (fun m => message_ready m = false) (default [] (res_json res ≫= messages))))
  | IrisBackoff _ =>
      fetch (iris_url base dom burn) = None \/
      exists res, fetch (iris_url base dom burn) = Some res /\ res_status res <> 200 /\ res_status res < 500
  end.
Proof.
  unfold getAttestation. destruct (fetch _) as [res|]; [|by left].
  unfold irisStatusFromHttp. cbn.
  destruct (Z.eqb_spec (res_status res) 200) as [H200|?].
  { rewrite flat_body_message. destruct (flat_message (res_json res)) as [m|] eqn:Em; cbn.
    - destruct (_ && real_attestation (im_attestation m)) eqn:Er.
      + bool_to_prop. destruct (im_attestation m) as [a|] eqn:Ea; [|done]. cbn.
        exists res, m. split_and!; try done; [by apply flat_message_in|].
        destruct (im_status m); [left|by right]. bool_to_prop. congruence.
      + exists res. split; [done|]. right; right. split; [done|]. apply flat_message_unready.
        intros m' Hm'. assert (m' = m) as -> by congruence. unfold message_ready.
        destruct (im_status m); [done|]. done.
    - exists res. split; [done|]. right; right. split; [done|].
      apply flat_message_unready. congruence. }
  destruct (Z.eqb_spec (res_status res) 404); [eexists; auto|].
  destruct (Z.eqb_spec (res_status res) 429); [right; exists res; split_and!; done || lia|].
  destruct ((res_status res =? 401) || _) eqn:E1.
  { right. exists res. split_and!; try done. bool_to_prop. destruct E1 as [E|E]; bool_to_prop; lia. }
  destruct (Z.leb_spec 500 (res_status res)); [exists res; auto|].
  rewrite flat_body_message.
  destruct ((res_status res =? 400) && _) eqn:E2; [|right; exists res; split_and!; done || lia].
  bool_to_prop. destruct (flat_message (res_json res)); cbn in *;
    (destruct (res_json res ≫= error) as [e|] eqn:Ee; [|done]; cbn in *; bool_to_prop;
     exists res; done).
Qed.
