(* ===== verification/CctpDelivery.v ===== *)
(** * Both ends of a CCTP burn ([cctp-chains.ts], [stellar-mint.ts], [evm-burn.ts])

    The chain configurations, the encoder of a burn on the EVM side, and the plan
    of its delivery on Stellar. *)

From stdpp Require Import base tactics list strings numbers.
From Stdlib Require Import Lia ZArith Ascii.
From S2P Require Import Prelude JsString JsBits Strkey StellarSdk CctpMessage CctpTransfer.

Local Open Scope Z_scope.

(** ** Chain configurations *)

Record StellarCctpConfig := {
  sc_domain : Z;
  sc_tokenMessengerMinter : string;
  sc_messageTransmitter : string;
  sc_cctpForwarder : string;
  sc_usdcSac : string;
  sc_usdcIssuer : string;
  sc_irisBaseUrl : string;
  sc_networkPassphrase : string;
  sc_sorobanRpcUrl : string;
}.

Record EvmCctpConfig := {
  ec_chainId : Z;
  ec_domain : Z;
  ec_tokenMessengerV2 : string;
  ec_messageTransmitterV2 : string;
  ec_usdc : string;
  ec_decimals : Z;
}.

Definition STELLAR_TESTNET : StellarCctpConfig := {|
  sc_domain := STELLAR_DOMAIN;
  sc_tokenMessengerMinter := "CDNG7HXAPBWICI2E3AUBP3YZWZELJLYSB6F5CC7WLDTLTHVM74SLRTHP";
  sc_messageTransmitter := "CBJ6MTCKKZG73PMDZCJMSFRD7DQEMI4FKDH7CGDSV4W6FHCRBCQAVVJY";
  sc_cctpForwarder := "CA66Q2WFBND6V4UEB7RD4SAXSVIWMD6RA4X3U32ELVFGXV5PJK4T4VSZ";
  sc_usdcSac := "CBIELTK6YBZJU5UP2WWQEUCYKLPU6AUNZ2BQ4WWFEIE3USCIHMXQDAMA";
  sc_usdcIssuer := "GBBD47IF6LWK7P7MDEVSCWR7DPUWV3NY3DTQEVFL4NAT4AQH3ZLLFLA5";
  sc_irisBaseUrl := "https://iris-api-sandbox.circle.com";
  sc_networkPassphrase := "Test SDF Network ; September 2015";
  sc_sorobanRpcUrl := "https://soroban-testnet.stellar.org" |}.

Definition BASE_SEPOLIA : EvmCctpConfig := {|
  ec_chainId := 84532;
  ec_domain := BASE_SEPOLIA_DOMAIN;
  ec_tokenMessengerV2 := "0x8FE6B999Dc680CcFDD5Bf7EB0974218be2542DAA";
  ec_messageTransmitterV2 := "0xE737e5cEBEEBa77EFE34D4aa090756590b1CE275";
  ec_usdc := "0x036CbD53842c5426634e7929541eC2318f3dCF7e";
  ec_decimals := 6 |}.

Definition FINALITY_FAST : Z := 1000.
Definition FINALITY_STANDARD : Z := 2000.

(** ** The Stellar end *)

Section Mint.
  Context `{SDK : StellarSdk}.

Definition mintAndForwardScVals (message attestation : list Z) : list ScVal :=
  [scv_bytes message; scv_bytes attestation].

Definition usdc6ToStellar7 (amountUsdc6 : Z) : result Z :=
  if amountUsdc6 <? 0 then Throw (RangeError "negative amount") else Ok (amountUsdc6 * 10).

Definition depositFromScVals (payer beneficiary : string) (assets7 : Z) : result (list ScVal) :=
  p ← scv_address payer;
  b ← scv_address beneficiary;
  a ← scv_i128 assets7;
  mret [p; b; a].

Record DeliveryPlan := {
  pl_nonce : string;
  pl_sourceDomain : Z;
  pl_amountUsdc6 : Z;
  pl_amount7 : Z;
  pl_forwardRecipient : string;
  pl_mintArgs : list ScVal;
}.

Definition planDelivery (messageHex attestationHex : string) (config : StellarCctpConfig)
  : result DeliveryPlan :=
  '(header, body) ← parseCctpMessage messageHex;
  _ ← throw_if (negb (h_destinationDomain header =? sc_domain config))
        (CctpMessageError "message destination domain is not Stellar");
  _ ← assertForwarderFields (b_mintRecipient body) (h_destinationCaller header) (sc_cctpForwarder config);
  _ ← throw_if (b_amount body <=? 0) (CctpMessageError "burn amount is zero");
  hook ← parseForwarderHookData (b_hookData body);
  message ← hexToBytes messageHex;
  attestation ← hexToBytes attestationHex;
  _ ← throw_if (bool_decide (length attestation = 0%nat)) (CctpMessageError "empty attestation");
  amount7 ← usdc6ToStellar7 (b_amount body);
  mret {| pl_nonce := h_nonce header;
          pl_sourceDomain := h_sourceDomain header;
          pl_amountUsdc6 := b_amount body;
          pl_amount7 := amount7;
          pl_forwardRecipient := forwardRecipient hook;
          pl_mintArgs := mintAndForwardScVals message attestation |}.
End Mint.

Arguments DeliveryPlan SDK : clear implicits.
Arguments DeliveryPlan {SDK}.

(** ** The EVM end *)

(** An argument of an ABI call: an integer, or a hexadecimal word, address or
    byte string. *)
Inductive abi_arg :=
  | AbiUint (n : Z)
  | AbiHex (s : string).

(** [Interface.encodeFunctionData] of ethers, which throws when an argument does
    not fit its type. *)
Class EthersInterface := {
  encodeFunctionData : string -> list abi_arg -> result string;
}.

Record BurnToStellarPlan := {
  approveData : string;
  burnData : string;
  bp_tokenMessengerV2 : string;
  bp_usdc : string;
  bp_amountUsdc6 : Z;
}.

(** The argument object of [buildBurnToStellar]. *)
Record BurnArgs := {
  ba_config : EvmCctpConfig;
  ba_stellarDomain : Z;
  ba_forwarderContractId : string;
  ba_forwardRecipient : string;
  ba_amountUsdc6 : Z;
  ba_maxFee : option Z;
  ba_minFinalityThreshold : option Z;
}.

(** The arguments of [depositForBurnWithHook], in order. *)
Definition burn_call (a : BurnArgs) (forwarder32 hookData : list Z) : list abi_arg :=
  [AbiUint (ba_amountUsdc6 a); AbiUint (ba_stellarDomain a); AbiHex (bytesToHex forwarder32);
   AbiHex (ec_usdc (ba_config a)); AbiHex (bytesToHex forwarder32);
   AbiUint (default 0 (ba_maxFee a));
   AbiUint (default FINALITY_STANDARD (ba_minFinalityThreshold a)); AbiHex (bytesToHex hookData)].

Definition buildBurnToStellar `{StellarSdk} `{EthersInterface} (a : BurnArgs) : result BurnToStellarPlan :=
  _ ← throw_if (ba_amountUsdc6 a <=? 0) (RangeError "burn amount must be positive");
  forwarder32 ← contractAddressToBytes32 (ba_forwarderContractId a);
  _ ← assertForwarderFields forwarder32 forwarder32 (ba_forwarderContractId a);
  hookData ← buildForwarderHookData (ba_forwardRecipient a) [];
  approve ← encodeFunctionData "approve"
              [AbiHex (ec_tokenMessengerV2 (ba_config a)); AbiUint (ba_amountUsdc6 a)];
  burn ← encodeFunctionData "depositForBurnWithHook" (burn_call a forwarder32 hookData);
  mret {| approveData := approve; burnData := burn;
          bp_tokenMessengerV2 := ec_tokenMessengerV2 (ba_config a);
          bp_usdc := ec_usdc (ba_config a); bp_amountUsdc6 := ba_amountUsdc6 a |}.

(** ** Specification vocabulary *)

(** The CCTP message the source chain emits for a [depositForBurnWithHook] call:
    the header and the body carry the arguments of the call. *)
Definition emitted_for (call : list abi_arg) (h : header_fields) (b : CctpBurnBody) : Prop :=
  header_ok h /\ body_ok b /\
  exists usdc maxFee finality,
    call = [AbiUint (b_amount b); AbiUint (rh_destination h); AbiHex (bytesToHex (b_mintRecipient b));
            AbiHex usdc; AbiHex (bytesToHex (rh_caller h)); AbiUint maxFee; AbiUint finality;
            AbiHex (bytesToHex (b_hookData b))].

(** What a plan promises about the message and the attestation it was made from. *)
Definition plan_of `{StellarSdk} (messageHex attestationHex : string) (config : StellarCctpConfig)
    (plan : DeliveryPlan) : Prop :=
  exists header body hook mbytes abytes,
    parseCctpMessage messageHex = Ok (header, body) /\
    h_destinationDomain header = sc_domain config /\
    StrKey_isValidContract (sc_cctpForwarder config) = true /\
    StrKey_decodeContract (sc_cctpForwarder config) = Ok (b_mintRecipient body) /\
    StrKey_decodeContract (sc_cctpForwarder config) = Ok (h_destinationCaller header) /\
    0 < b_amount body /\
    parseForwarderHookData (b_hookData body) = Ok hook /\
    valid_stellar_address (forwardRecipient hook) = true /\
    hexToBytes messageHex = Ok mbytes /\ hexToBytes attestationHex = Ok abytes /\ abytes <> [] /\
    plan = {| pl_nonce := h_nonce header; pl_sourceDomain := h_sourceDomain header;
              pl_amountUsdc6 := b_amount body; pl_amount7 := 10 * b_amount body;
              pl_forwardRecipient := forwardRecipient hook;
              pl_mintArgs := [scv_bytes mbytes; scv_bytes abytes] |}.

(** ** Lemmas *)

Lemma hook_recipient_valid `{StellarSdk} bytes hook :
  parseForwarderHookData bytes = Ok hook -> valid_stellar_address (forwardRecipient hook) = true.
Proof.
  unfold parseForwarderHookData. intros H'. result_inv. cbn.
  match goal with u : unit |- _ => destruct u end. by apply assertStellarAddress_ok.
Qed.

Lemma planDelivery_spec `{StellarSdk} messageHex attestationHex config plan :
  planDelivery messageHex attestationHex config = Ok plan <->
  plan_of messageHex attestationHex config plan.
Proof.
  unfold planDelivery, plan_of. split.
  - intros Hp. apply result_bind_ok in Hp as ([header body] & Hm & Hp). result_inv. bool_to_prop.
    match goal with u : unit, F : assertForwarderFields _ _ _ = Ok ?u |- _ => destruct u end.
    match goal with F : assertForwarderFields _ _ _ = _ |- _ => apply assertForwarderFields_ok in F as (F1 & F2 & F3) end.
    match goal with U : usdc6ToStellar7 _ = Ok ?z |- _ =>
      assert (z = 10 * b_amount body) as -> by (unfold usdc6ToStellar7 in U; case_match; simplify_eq; lia) end.
    do 5 eexists. split_and!; try done; [by eapply hook_recipient_valid|]. by intros ->.
  - intros (header & body & hook & mb & ab & -> & Hd & Hc & Hmr & Hdc & Ha & Hh & Hv & -> & -> & Hne & ->).
    cbn. rewrite Hd, Z.eqb_refl. cbn.
    rewrite (proj2 (assertForwarderFields_ok _ _ _)) by done. cbn.
    rewrite (proj2 (Z.leb_gt (b_amount body) 0)) by done. cbn. rewrite Hh. cbn.
    rewrite bool_decide_false by (by destruct ab). cbn. unfold usdc6ToStellar7.
    rewrite (proj2 (Z.ltb_ge (b_amount body) 0)) by lia. cbn. by rewrite Z.mul_comm.
Qed.

Lemma bytesToHex_inj a b :
  Forall byte_ok a -> Forall byte_ok b -> bytesToHex a = bytesToHex b -> a = b.
Proof.
  intros Ha Hb H. apply hexToBytes_bytesToHex in Ha, Hb. rewrite H in Ha. congruence.
Qed.

(** The hook data of a burn consists of bytes. *)
Lemma built_hook_bytes {SDK : StellarSdk} {L : StellarSdkLaws SDK} addr hook :
  buildForwarderHookData addr [] = Ok hook -> Forall byte_ok hook.
Proof.
  unfold buildForwarderHookData. intros H. result_inv.
  match goal with u : unit |- _ => destruct u end.
  match goal with A : assertStellarAddress _ = _ |- _ => apply assertStellarAddress_ok in A end.
  destruct (valid_address_ascii addr) as [Hascii _]; [done|].
  rewrite app_nil_r, !Forall_app. split_and!; try apply be_bytes_ok.
  - apply Forall_replicate. unfold byte_ok. lia.
  - unfold text_encode. apply Forall_map. eapply List.Forall_impl; [|exact Hascii].
    intros c Hc. unfold byte_ok. unfold code in *. cbn in *. lia.
Qed.

(** ** Properties *)

(** A burn built here is delivered as built: if [buildBurnToStellar] returns,
    its call data encode a [depositForBurnWithHook] of a positive amount whose
    mint recipient and destination caller are the forwarder; and every CCTP
    message the source chain emits for that call, with any non-empty attestation,
    is accepted by [planDelivery] on the same forwarder and domain, which plans
    the mint of exactly that message for the chosen recipient, with the amount in
    6 decimals and ten times that in 7. *)
Theorem burn_delivery_roundtrip {SDK : StellarSdk} {L : StellarSdkLaws SDK} {E : EthersInterface}
    (a : BurnArgs) (burn : BurnToStellarPlan) (config : StellarCctpConfig)
    (Hburn : buildBurnToStellar a = Ok burn)
    (Hdomain : sc_domain config = ba_stellarDomain a)
    (Hforwarder : sc_cctpForwarder config = ba_forwarderContractId a) :
  0 < bp_amountUsdc6 burn /\
  exists fw hook, StrKey_decodeContract (sc_cctpForwarder config) = Ok fw /\
    buildForwarderHookData (ba_forwardRecipient a) [] = Ok hook /\
    let call := burn_call a fw hook in
    encodeFunctionData "depositForBurnWithHook" call = Ok (burnData burn) /\
    forall h b att, emitted_for call h b -> Forall byte_ok att -> att <> [] ->
      planDelivery (bytesToHex (encode_message h b)) (bytesToHex att) config =
      Ok {| pl_nonce := bytesToHex (rh_nonce h); pl_sourceDomain := rh_source h;
            pl_amountUsdc6 := bp_amountUsdc6 burn; pl_amount7 := 10 * bp_amountUsdc6 burn;
            pl_forwardRecipient := ba_forwardRecipient a;
            pl_mintArgs := [scv_bytes (encode_message h b); scv_bytes att] |}.
Proof.
  unfold buildBurnToStellar, contractAddressToBytes32 in Hburn. rewrite <- Hforwarder in Hburn.
  result_inv. bool_to_prop. cbn [bp_amountUsdc6 burnData]. split; [done|].
  match goal with H : buildForwarderHookData _ _ = Ok ?hk |- _ => rename H into Hhook; rename hk into hook end.
  destruct (decodeContract_bytes (sc_cctpForwarder config) ltac:(done)) as (fw & Hfw & _ & Hfb).
  match goal with H : StrKey_decodeContract _ = Ok ?x |- _ => assert (x = fw) as -> by congruence end.
  exists fw, hook. split_and!; [done..|]. intros h b att (Hh & Hb & usdc & fee & fin & Hcall) Hatt Hne.
  unfold burn_call in Hcall.
  assert (Ham : ba_amountUsdc6 a = b_amount b) by congruence.
  assert (Hdom : ba_stellarDomain a = rh_destination h) by congruence.
  assert (Hmr : bytesToHex fw = bytesToHex (b_mintRecipient b)) by congruence.
  assert (Hdc : bytesToHex fw = bytesToHex (rh_caller h)) by congruence.
  assert (Hhk : bytesToHex hook = bytesToHex (b_hookData b)) by congruence.
  apply bytesToHex_inj in Hmr; [|done|by apply Hb].
  apply bytesToHex_inj in Hdc; [|done|by apply Hh].
  apply bytesToHex_inj in Hhk; [|by eapply built_hook_bytes|by apply Hb].
  destruct (valid_stellar_address (ba_forwardRecipient a)) eqn:Hv.
  2:{ exfalso. unfold buildForwarderHookData in Hhook. result_inv.
      match goal with u : unit, A : assertStellarAddress _ = Ok _ |- _ =>
        destruct u; apply assertStellarAddress_ok in A end. congruence. }
  pose proof (parse_built_hook _ [] Hv) as Hp. rewrite Hhook in Hp. cbn in Hp.
  apply planDelivery_spec. do 5 eexists. split_and!;
    [by apply parse_encoded_message|cbn; congruence|done|cbn; congruence|cbn; congruence| |rewrite <- Hhk; exact Hp|done
    |apply hexToBytes_bytesToHex|by apply hexToBytes_bytesToHex|done|].
  - by rewrite <- Ham.
  - destruct (header_parts_ok h Hh) as [? _], (body_parts_ok b Hb) as [? _].
    unfold encode_message. rewrite concat_app. by apply Forall_app.
  - cbn. by rewrite Ham.
Qed.

(** A concrete encoder: the name of the function. *)
Definition ModelEthers : EthersInterface := {| encodeFunctionData := fun name _ => Ok name |}.

Definition sample_burn : BurnArgs :=
  {| ba_config := BASE_SEPOLIA; ba_stellarDomain := 27;
     ba_forwarderContractId := sc_cctpForwarder STELLAR_TESTNET;
     ba_forwardRecipient := "GDCZFUNJ7MXWBIQ6UUTJRGZIJF5EMRVJCSK73MA2U7K57GWMA4N3P6SL";
     ba_amountUsdc6 := 1000000; ba_maxFee := None; ba_minFinalityThreshold := None |}.

(** The message of a burn of one USDC through the forwarder [fw] with the hook. *)
Definition emitted_header (fw : list Z) : header_fields :=
  {| rh_version := 1; rh_source := 6; rh_destination := 27; rh_nonce := be_bytes 32 77;
     rh_sender := be_bytes 32 1; rh_recipient := be_bytes 32 2; rh_caller := fw;
     rh_min_finality := 2000; rh_finality := 2000 |}.

Definition emitted_body (fw hook : list Z) : CctpBurnBody :=
  {| b_version := 1; b_burnToken := be_bytes 32 4; b_mintRecipient := fw;
     b_amount := 1000000; b_messageSender := be_bytes 32 5; b_maxFee := 0; b_feeExecuted := 0;
     b_expirationBlock := 0; b_hookData := hook |}.

Lemma emitted_sample fw hook :
  bytes32_ok fw -> Forall byte_ok hook ->
  emitted_for (burn_call sample_burn fw hook) (emitted_header fw) (emitted_body fw hook).
Proof.
  intros Hf Hh. unfold emitted_for, header_ok, body_ok. cbn.
  split_and!; try apply bytes32_be; try done; try (split; vm_compute; congruence).
  by exists (ec_usdc BASE_SEPOLIA), 0, FINALITY_STANDARD.
Qed.

Lemma burn_delivery_roundtrip_witness :
  exists fw hook, planDelivery (SDK := ModelSdk)
    (bytesToHex (encode_message (emitted_header fw) (emitted_body fw hook))) (bytesToHex [255]) STELLAR_TESTNET =
  Ok {| pl_nonce := bytesToHex (be_bytes 32 77); pl_sourceDomain := 6;
        pl_amountUsdc6 := 1000000; pl_amount7 := 10000000;
        pl_forwardRecipient := ba_forwardRecipient sample_burn;
        pl_mintArgs := [MBytes (encode_message (emitted_header fw) (emitted_body fw hook)); MBytes [255]] |}.
Proof.
  destruct (burn_delivery_roundtrip (SDK := ModelSdk) (E := ModelEthers) sample_burn
    (Build_BurnToStellarPlan "approve" "depositForBurnWithHook" (ec_tokenMessengerV2 BASE_SEPOLIA)
       (ec_usdc BASE_SEPOLIA) 1000000) STELLAR_TESTNET
    ltac:(vm_compute; reflexivity) eq_refl eq_refl) as (_ & fw & hook & Hfw & Hhook & _ & H).
  exists fw, hook. apply H.
  - apply emitted_sample; [|by eapply built_hook_bytes].
    destruct (decodeContract_bytes (SDK := ModelSdk) (sc_cctpForwarder STELLAR_TESTNET)) as (bs & Hbs & ? & ?); [vm_compute; reflexivity|].
    rewrite Hfw in Hbs. injection Hbs as ->. by split.
  - constructor; [split; vm_compute; congruence|constructor].
  - discriminate.
Defined.
