(* ===== verification/CctpExecutor.v ===== *)
(** * The CCTP executor ([backend/src/cctp/cctp-executor.ts])

    [poll] and [deliver], over the three ports the class takes: Iris, the
    on-chain nonce oracle and the Soroban submitter. The world is the trace of the
    calls made so far; the answer of a port may depend on the whole trace, so the
    theorems hold whatever the chain and the network do between two calls. *)

From stdpp Require Import base tactics list strings numbers.
From Stdlib Require Import Lia ZArith Ascii.
From S2P Require Import Prelude JsString JsBits Strkey StellarSdk CctpMessage CctpTransfer CctpDelivery.

Local Open Scope Z_scope.

Definition nonceScVal `{StellarSdk} (nonce : string) : result ScVal :=
  bytes ← hexToBytes nonce;
  _ ← throw_if (negb (bool_decide (length bytes = 32%nat))) (RangeError "nonce must be 32 bytes");
  mret (scv_bytes bytes).

Section Executor.
  Context `{SDK : StellarSdk}.

(** A call to a port, with its answer. *)
Inductive port_event :=
  | EvIris (sourceDomain : Z) (burnTxHash : string) (answer : result IrisAttestationStatus)
  | EvNonce (nonce : string) (answer : result bool)
  | EvSubmit (contractId method : string) (args : list ScVal) (answer : result string).

Definition trace := list port_event.

(** The ports: the answer to a call made after the trace. An answer that throws
    is a network error. *)
Record CctpPorts := {
  port_iris : trace -> Z -> string -> result IrisAttestationStatus;
  port_isNonceUsed : trace -> string -> result bool;
  port_submit : trace -> string -> string -> list ScVal -> result string;
}.

Record CctpExecutorDeps := {
  ports : CctpPorts;
  config : StellarCctpConfig;
  relayerAddress : string;
  vaultContractId : string;
}.

Variable deps : CctpExecutorDeps.

Definition iris_getAttestation (sourceDomain : Z) (burnTxHash : string) : M trace IrisAttestationStatus :=
  fun w => let r := port_iris (ports deps) w sourceDomain burnTxHash in
           (r, w ++ [EvIris sourceDomain burnTxHash r]).

Definition isNonceUsed (nonce : string) : M trace bool :=
  fun w => let r := port_isNonceUsed (ports deps) w nonce in (r, w ++ [EvNonce nonce r]).

Definition soroban_submit (contractId method : string) (args : list ScVal) : M trace string :=
  fun w => let r := port_submit (ports deps) w contractId method args in
           (r, w ++ [EvSubmit contractId method args r]).

Definition poll (t : CctpTransfer) : M trace CctpTransfer :=
  iris ← iris_getAttestation (t_sourceDomain t) (t_burnTxHash t);
  used ← isNonceUsed (t_nonce t);
  lift (reconcile t iris used).

Definition depositToVault (t : CctpTransfer) (plan : DeliveryPlan) : M trace string :=
  args ← lift (depositFromScVals (relayerAddress deps) (t_beneficiary t) (pl_amount7 plan));
  soroban_submit (vaultContractId deps) "deposit_from" args.

Definition patch_error (msg : string) : CctpPatch := Build_CctpPatch None None None None (Some (Some msg)).
Definition patch_mint (h : string) : CctpPatch := Build_CctpPatch None None (Some (Some h)) None None.
Definition patch_deposit (h : string) : CctpPatch := Build_CctpPatch None None None (Some (Some h)) None.

(** The part of [deliver] that runs when the chain says the nonce is consumed. *)
Definition deliver_used (t : CctpTransfer) (plan : DeliveryPlan) (direct : bool) (attestation : string)
  : M trace CctpTransfer :=
  cur ← (if negb direct && negb (truthy (t_depositTxHash t)) then
           h ← depositToVault t plan;
           lift (transition t (t_state t) (patch_deposit h))
         else mret t);
  lift (reconcile cur (IrisComplete attestation None) true).

(** The part of [deliver] that mints and, in vault mode, deposits. *)
Definition deliver_mint (t : CctpTransfer) (plan : DeliveryPlan) (direct : bool) : M trace CctpTransfer :=
  cur ← lift (transition t submitting no_patch);
  mint ← soroban_submit (sc_cctpForwarder (config deps)) "mint_and_forward" (pl_mintArgs plan);
  cur ← lift (transition cur submitting (patch_mint mint));
  cur ← (if negb direct then
           h ← depositToVault t plan;
           lift (transition cur submitting (patch_deposit h))
         else mret cur);
  lift (transition cur delivered no_patch).

Definition deliver (t : CctpTransfer) : M trace CctpTransfer :=
  if negb (bool_decide (t_state t = attested)) || negb (truthy (t_attestation t))
  then throw (PlainError "deliver() wants an attested row with attestation")
  else if negb (truthy (t_message t))
  then throw (PlainError "no CCTP message stored; cannot build the mint")
  else
    let message := default ""%string (t_message t) in
    let attestation := default ""%string (t_attestation t) in
    match planDelivery message attestation (config deps) with
    | Throw e => lift (transition t failed (patch_error (exn_message e)))
    | Ok plan =>
        if negb (bool_decide (pl_nonce plan = t_nonce t))
        then lift (transition t failed (patch_error "message nonce does not match transfer nonce"))
        else
          let direct := bool_decide (pl_forwardRecipient plan = t_beneficiary t) in
          if negb direct && negb (bool_decide (pl_forwardRecipient plan = relayerAddress deps))
          then lift (transition t failed
                 (patch_error "forwardRecipient is neither the beneficiary nor the relayer"))
          else
            isNonceUsed (pl_nonce plan) ≫= fun used : bool =>
            if used then deliver_used t plan direct attestation else deliver_mint t plan direct
    end.

(** ** Specification vocabulary *)

(** The plan the row may be delivered by. *)
Definition delivery_plan (t : CctpTransfer) (plan : DeliveryPlan) : Prop :=
  t_state t = attested /\ truthy (t_attestation t) = true /\ truthy (t_message t) = true /\
  plan_of (default ""%string (t_message t)) (default ""%string (t_attestation t)) (config deps) plan /\
  pl_nonce plan = t_nonce t /\
  (pl_forwardRecipient plan = t_beneficiary t \/ pl_forwardRecipient plan = relayerAddress deps).

(** The recipient is the relayer, not the user: the mint is not the end. *)
Definition vault_mode (t : CctpTransfer) (plan : DeliveryPlan) : Prop :=
  pl_forwardRecipient plan <> t_beneficiary t.

Definition mint_call (plan : DeliveryPlan) (r : result string) : port_event :=
  EvSubmit (sc_cctpForwarder (config deps)) "mint_and_forward" (pl_mintArgs plan) r.

(** A deposit of the plan's amount by the relayer to the beneficiary. *)
Definition deposit_call (t : CctpTransfer) (plan : DeliveryPlan) (r : result string) (ev : port_event) : Prop :=
  exists args, depositFromScVals (relayerAddress deps) (t_beneficiary t) (10 * pl_amountUsdc6 plan) = Ok args /\
    ev = EvSubmit (vaultContractId deps) "deposit_from" args r.

(** The only sequences of calls a delivery may make. *)
Inductive delivery_trace (t : CctpTransfer) (plan : DeliveryPlan) : trace -> Prop :=
  | dt_asked r : delivery_trace t plan [EvNonce (t_nonce t) r]
  | dt_owed r ev :
      vault_mode t plan -> truthy (t_depositTxHash t) = false -> deposit_call t plan r ev ->
      delivery_trace t plan [EvNonce (t_nonce t) (Ok true); ev]
  | dt_minted r : delivery_trace t plan [EvNonce (t_nonce t) (Ok false); mint_call plan r]
  | dt_deposited h r ev :
      vault_mode t plan -> deposit_call t plan r ev ->
      delivery_trace t plan [EvNonce (t_nonce t) (Ok false); mint_call plan (Ok h); ev].

(** The row and the stored Iris data [deliver] asks for. *)
Definition deliverable (t : CctpTransfer) : Prop :=
  t_state t = attested /\ truthy (t_attestation t) = true /\ truthy (t_message t) = true.

(** What the result of a delivery under a plan means, given the calls made. *)
Definition delivery_outcome (t : CctpTransfer) (plan : DeliveryPlan) (evs : trace)
    (r : result CctpTransfer) : Prop :=
  match r with
  | Ok t' =>
      t_state t' = delivered /\ identity t' = identity t /\
      (EvNonce (t_nonce t) (Ok true) ∈ evs \/
       exists h, mint_call plan (Ok h) ∈ evs /\ t_mintTxHash t' = Some h) /\
      (vault_mode t plan ->
         (truthy (t_depositTxHash t) = true /\ t_depositTxHash t' = t_depositTxHash t) \/
         exists h ev, deposit_call t plan (Ok h) ev /\ ev ∈ evs /\ t_depositTxHash t' = Some h)
  | Throw e =>
      EvNonce (t_nonce t) (Throw e) ∈ evs \/ mint_call plan (Throw e) ∈ evs \/
      (exists ev, deposit_call t plan (Throw e) ev /\ ev ∈ evs) \/
      depositFromScVals (relayerAddress deps) (t_beneficiary t) (10 * pl_amountUsdc6 plan) = Throw e
  end.

(** A delivery: refused for a row that is not ready, rejected before any call, or
    run under a plan. *)
Inductive delivery (t : CctpTransfer) : result CctpTransfer -> trace -> Prop :=
  | dv_unready e : ~ deliverable t -> delivery t (Throw e) []
  | dv_rejected t' :
      deliverable t -> (forall plan, ~ delivery_plan t plan) ->
      t_state t' = failed -> identity t' = identity t -> is_Some (t_lastError t') ->
      delivery t (Ok t') []
  | dv_run plan evs r :
      delivery_plan t plan -> delivery_trace t plan evs -> delivery_outcome t plan evs r ->
      delivery t r evs.

(** ** Lemmas *)

(** The transitions of a delivery, evaluated. *)
Lemma to_failed t msg : t_state t = attested ->
  transition t failed (patch_error msg) = Ok (spread t (patch_error msg) failed).
Proof. destruct t; cbn; intros ->; reflexivity. Qed.

Lemma to_submitting t : t_state t = attested ->
  transition t submitting no_patch = Ok (spread (clear_error t) no_patch submitting).
Proof. destruct t; cbn; intros ->; reflexivity. Qed.

Lemma keep_submitting t p : t_state t = submitting -> p_lastError p = None -> patch_is_empty p = false ->
  transition t submitting p = Ok (spread (clear_error t) p submitting).
Proof.
  destruct t, p as [a b c d e]; cbn. intros -> -> Hp. unfold transition. cbn. by rewrite Hp.
Qed.

Lemma submitting_delivered t : t_state t = submitting ->
  transition t delivered no_patch = Ok (spread (clear_error t) no_patch delivered).
Proof. destruct t; cbn; intros ->; reflexivity. Qed.

Lemma record_deposit t h : t_state t = attested ->
  transition t (t_state t) (patch_deposit h) = Ok (spread t (patch_deposit h) attested).
Proof. destruct t; cbn; intros ->; reflexivity. Qed.

Lemma plan_amount7 t plan : delivery_plan t plan -> pl_amount7 plan = 10 * pl_amountUsdc6 plan.
Proof. intros (_ & _ & _ & Hp & _). unfold plan_of in Hp. naive_solver. Qed.

Lemma delivery_plan_unique t plan plan' : delivery_plan t plan -> delivery_plan t plan' -> plan = plan'.
Proof.
  intros (_ & _ & _ & H1 & _) (_ & _ & _ & H2 & _). apply planDelivery_spec in H1, H2. congruence.
Qed.

(** One deposit, in the world [w]. *)
Lemma depositToVault_run t plan w :
  delivery_plan t plan ->
  match depositToVault t plan w with
  | (r, w') =>
      (w' = w /\ exists e, r = Throw e /\
         depositFromScVals (relayerAddress deps) (t_beneficiary t) (10 * pl_amountUsdc6 plan) = Throw e) \/
      exists ev, w' = w ++ [ev] /\ deposit_call t plan r ev
  end.
Proof.
  intros Hp. unfold depositToVault. rewrite (plan_amount7 t plan Hp). unfold deposit_call.
  cbv [mbind M_bind lift soroban_submit].
  destruct (depositFromScVals _ _ _) as [args|e]; [right|left; eauto].
  eexists. split; [done|]. exists args. done.
Qed.

Definition is_direct (t : CctpTransfer) (plan : DeliveryPlan) : bool :=
  bool_decide (pl_forwardRecipient plan = t_beneficiary t).

(** The final reconciliation of a row whose nonce is consumed. *)
Lemma close_used t att : t_state t = attested ->
  exists t', reconcile t (IrisComplete att None) true = Ok t' /\ t_state t' = delivered /\
    identity t' = identity t /\ t_depositTxHash t' = t_depositTxHash t.
Proof.
  intros Hs. destruct (reconcile_cases t (IrisComplete att None) true) as (t' & H & Hi & _ & Hd & Hu & _).
  exists t'. destruct (Hu eq_refl ltac:(congruence)) as (? & _). done.
Qed.

Lemma deliver_used_run t plan w :
  delivery_plan t plan ->
  exists evs, snd (deliver_used t plan (is_direct t plan) (default ""%string (t_attestation t))
                     (w ++ [EvNonce (t_nonce t) (Ok true)])) = w ++ evs /\
    delivery_trace t plan evs /\
    delivery_outcome t plan evs (fst (deliver_used t plan (is_direct t plan)
      (default ""%string (t_attestation t)) (w ++ [EvNonce (t_nonce t) (Ok true)]))).
Proof.
  intros Hp. pose proof Hp as (Hs & _). unfold deliver_used, is_direct.
  set (w1 := w ++ _). set (att := default ""%string _).
  destruct (negb (bool_decide (pl_forwardRecipient plan = t_beneficiary t)) && negb (truthy (t_depositTxHash t))) eqn:E.
  - bool_to_prop. pose proof (depositToVault_run t plan w1 Hp) as HD.
    cbv [mbind M_bind]. destruct (depositToVault t plan w1) as [r w2].
    destruct HD as [(-> & e & -> & Hd)|(ev & -> & Hd)].
    + eexists. split_and!; [reflexivity|constructor|]. cbn. auto.
    + destruct r as [h|e]; cbn [fst snd].
      * unfold lift. rewrite record_deposit by done.
        destruct (close_used (spread t (patch_deposit h) attested) att eq_refl) as (t' & -> & Ht & Hi & Hdep).
        exists [EvNonce (t_nonce t) (Ok true); ev]. unfold w1. rewrite <- app_assoc.
        split_and!; [done|by econstructor|]. cbn. split_and!; [done|by rewrite Hi|left; left|].
        intros _. right. exists h, ev. split_and!; [done|right; left|done].
      * exists [EvNonce (t_nonce t) (Ok true); ev]. unfold w1. rewrite <- app_assoc.
        split_and!; [done|by econstructor|]. cbn. right; right; left. exists ev. split; [done|right; left].
  - cbv [mbind M_bind mret M_ret lift].
    destruct (close_used t att Hs) as (t' & -> & Ht & Hi & Hdep).
    exists [EvNonce (t_nonce t) (Ok true)]. split_and!; [done|constructor|]. cbn.
    split_and!; [done|done|left; left|]. intros Hv. left. split; [|done].
    unfold vault_mode in Hv. rewrite bool_decide_false in E by done. cbn in E. by bool_to_prop.
Qed.

Lemma deliver_mint_run t plan w :
  delivery_plan t plan ->
  exists evs, snd (deliver_mint t plan (is_direct t plan) (w ++ [EvNonce (t_nonce t) (Ok false)])) = w ++ evs /\
    delivery_trace t plan evs /\
    delivery_outcome t plan evs (fst (deliver_mint t plan (is_direct t plan)
      (w ++ [EvNonce (t_nonce t) (Ok false)]))).
Proof.
  intros Hp. pose proof Hp as (Hs & _). unfold deliver_mint, is_direct.
  set (w1 := w ++ _). cbv [mbind M_bind lift]. rewrite to_submitting by done.
  unfold soroban_submit at 1 2. fold (mint_call plan).
  destruct (port_submit _ _ _ _ _) as [m|e].
  2:{ eexists. unfold w1. rewrite <- app_assoc. split_and!; [reflexivity|apply dt_minted|].
      cbn. right; left. right; left. }
  rewrite keep_submitting by done. set (t1 := spread (clear_error _) (patch_mint m) submitting).
  destruct (bool_decide (pl_forwardRecipient plan = t_beneficiary t)) eqn:E; cbn [negb].
  - bool_to_prop. cbv [mret M_ret]. rewrite submitting_delivered by done.
    eexists. unfold w1. rewrite <- app_assoc. split_and!; [reflexivity|apply dt_minted|].
    cbn. split_and!; [done|done|right; exists m; split; [right; left|done]|]. by intros [].
  - bool_to_prop. set (w2 := w1 ++ _). pose proof (depositToVault_run t plan w2 Hp) as HD.
    destruct (depositToVault t plan w2) as [r w3].
    destruct HD as [(-> & e & -> & Hd)|(ev & -> & Hd)].
    + eexists. unfold w2, w1. rewrite <- !app_assoc. split_and!; [reflexivity|apply dt_minted|]. cbn. auto.
    + unfold w2, w1. destruct r as [h|e]; cbn [fst snd].
      * rewrite keep_submitting by done. rewrite submitting_delivered by done.
        eexists. rewrite <- !app_assoc. split_and!; [reflexivity|by apply (dt_deposited _ _ m (Ok h))|].
        cbn. split_and!; [done|done|right; exists m; split; [right; left|done]|].
        intros _. right. exists h, ev. split_and!; [done|right; right; left|done].
      * eexists. rewrite <- !app_assoc. split_and!; [reflexivity|by apply (dt_deposited _ _ m (Throw e))|].
        cbn. right; right; left. exists ev. split; [done|right; right; left].
Qed.

(** A row rejected before any call. *)
Lemma reject_row t msg w :
  deliverable t -> (forall plan, ~ delivery_plan t plan) ->
  exists evs, snd (lift (transition t failed (patch_error msg)) w) = w ++ evs /\
    delivery t (fst (lift (W := trace) (transition t failed (patch_error msg)) w)) evs.
Proof.
  intros Hd Hn. unfold lift. rewrite to_failed by apply Hd. exists []. rewrite app_nil_r.
  split; [done|]. by apply dv_rejected.
Qed.

Lemma deliver_spec t w :
  exists evs, snd (deliver t w) = w ++ evs /\ delivery t (fst (deliver t w)) evs.
Proof.
  unfold deliver.
  destruct (negb _ || negb _) eqn:E1.
  { exists []. rewrite app_nil_r. split; [done|]. apply dv_unready. intros (H1 & H2 & _).
    rewrite bool_decide_true, H2 in E1 by done. done. }
  bool_to_prop. destruct (truthy (t_message t)) eqn:E2; cbn [negb].
  2:{ exists []. rewrite app_nil_r. split; [done|]. apply dv_unready. intros (_ & _ & H3). congruence. }
  assert (Hd : deliverable t) by done.
  destruct (planDelivery _ _ _) as [plan|e] eqn:E3.
  2:{ apply reject_row; [done|]. intros plan (_ & _ & _ & Hp & _).
      apply planDelivery_spec in Hp. congruence. }
  apply planDelivery_spec in E3.
  assert (Hu : forall plan', delivery_plan t plan' -> plan' = plan).
  { intros plan' (_ & _ & _ & Hp & _). apply planDelivery_spec in Hp, E3. congruence. }
  destruct (decide (pl_nonce plan = t_nonce t)) as [Hn|Hn].
  2:{ rewrite bool_decide_false by done. apply reject_row; [done|].
      intros plan' Hp. pose proof (Hu _ Hp) as ->. by apply Hn, Hp. }
  rewrite bool_decide_true by done. cbn [negb].
  destruct (negb _ && negb _) eqn:E4.
  { apply reject_row; [done|]. intros plan' Hp. pose proof (Hu _ Hp) as ->. bool_to_prop.
    destruct Hp as (_ & _ & _ & _ & _ & [?|?]); done. }
  assert (Hp : delivery_plan t plan).
  { destruct Hd as (? & ? & ?). split_and!; try done. apply andb_false_iff in E4.
    destruct E4 as [E4|E4]; bool_to_prop; auto. }
  cbv [mbind M_bind isNonceUsed]. rewrite Hn. fold (is_direct t plan).
  destruct (port_isNonceUsed _ _ _) as [[]|e].
  - destruct (deliver_used_run t plan w Hp) as (evs & H1 & H2 & H3). exists evs.
    split; [done|]. by eapply dv_run.
  - destruct (deliver_mint_run t plan w Hp) as (evs & H1 & H2 & H3). exists evs.
    split; [done|]. by eapply dv_run.
  - eexists. split; [reflexivity|]. eapply dv_run; [done|constructor|]. cbn. left. left.
Qed.

(** Submissions in a trace. *)
Definition is_submit (contractId method : string) (ev : port_event) : bool :=
  match ev with
  | EvSubmit c m _ _ => bool_decide (c = contractId) && bool_decide (m = method)
  | _ => false
  end.

Lemma delivery_trace_bounds t plan evs : delivery_trace t plan evs ->
  (count_occ bool_dec (map (is_submit (sc_cctpForwarder (config deps)) "mint_and_forward") evs) true <= 1)%nat /\
  (count_occ bool_dec (map (is_submit (vaultContractId deps) "deposit_from") evs) true <= 1)%nat.
Proof.
  assert (E1 : bool_decide ("deposit_from"%string = "mint_and_forward"%string) = false) by reflexivity.
  assert (E2 : bool_decide ("mint_and_forward"%string = "deposit_from"%string) = false) by reflexivity.
  intros [r|r ev _ _ (args & _ & ->)|r|h r ev _ (args & _ & ->)]; cbn [map is_submit mint_call];
    rewrite ?E1, ?E2, ?andb_false_r; cbn [count_occ]; (split; repeat case_match; lia).
Qed.

(** ** Properties *)

(** C39. What a delivery may spend: in every run of [deliver], whatever the ports
    answer, the calls it makes are none at all, or those of one plan validated
    against the row - attested, message for our domain through our forwarder,
    message nonce equal to the row's key, recipient the beneficiary or the relayer
    - in one of four sequences that begin by asking whether the nonce is consumed:
    it mints only after the answer "not consumed", and deposits only in vault mode
    (as the relayer, to the row's beneficiary, ten times the 6-decimal amount),
    after the mint succeeded or the nonce was reported consumed with no deposit on
    record. So at most one mint and one deposit are submitted. *)
Theorem deliver_calls_safe (t : CctpTransfer) (w : trace) :
  exists evs, snd (deliver t w) = w ++ evs /\
    (evs = [] \/ exists plan, delivery_plan t plan /\ delivery_trace t plan evs) /\
    (count_occ bool_dec (map (is_submit (sc_cctpForwarder (config deps)) "mint_and_forward") evs) true <= 1)%nat /\
    (count_occ bool_dec (map (is_submit (vaultContractId deps) "deposit_from") evs) true <= 1)%nat.
Proof.
  destruct (deliver_spec t w) as (evs & Hw & Hr). exists evs. split; [done|].
  destruct Hr as [e H|t' H1 H2 H3 H4 H5|plan evs r Hp Ht Ho]; [cbn; auto with lia..|].
  split; [right; by exists plan|]. by apply (delivery_trace_bounds t plan).
Qed.

(** What a delivery reports: a returned row is either [failed], with its
    reason, exactly when no plan is valid for it - and then nothing was submitted -
    or [delivered], and then the nonce was reported consumed or our mint
    succeeded and its hash is on the row, and in vault mode a deposit succeeded
    and its hash is on the row, or one was already on record. It throws only for a
    row that is not ready, without any call, or because a port failed or the
    deposit's arguments could not be encoded. The identity never changes. *)
Theorem deliver_outcome (t : CctpTransfer) (w : trace) :
  exists evs, snd (deliver t w) = w ++ evs /\
  match fst (deliver t w) with
  | Ok t' =>
      identity t' = identity t /\
      ((t_state t' = failed /\ is_Some (t_lastError t') /\ evs = [] /\ forall plan, ~ delivery_plan t plan) \/
       (exists plan, delivery_plan t plan /\ delivery_outcome t plan evs (Ok t')))
  | Throw e =>
      (~ deliverable t /\ evs = []) \/
      (exists plan, delivery_plan t plan /\ delivery_outcome t plan evs (Throw e))
  end.
Proof.
  destruct (deliver_spec t w) as (evs & Hw & Hr). exists evs. split; [done|].
  destruct Hr as [e H|t' H1 H2 H3 H4 H5|plan evs r Hp Ht Ho]; [by left|split; [done|]; by left|].
  destruct r as [t'|e]; [|eauto]. split; [by apply Ho|eauto].
Qed.

(** The poll does not know the vault mode: for a row with no deposit on
    record whose nonce is reported consumed (minted before a crash, or by another
    relayer), [poll] returns it [delivered] although no deposit was made, and
    every later [deliver] of that row throws without submitting anything - so in
    vault mode the user's deposit is never made. ([deliver] itself handles the
    same situation, as the outcome of a delivery says.) *)
Theorem poll_drops_vault_deposit (t : CctpTransfer) (w : trace) (iris : IrisAttestationStatus)
    (Hstate : t_state t <> delivered) (Hdeposit : t_depositTxHash t = None)
    (Hiris : port_iris (ports deps) w (t_sourceDomain t) (t_burnTxHash t) = Ok iris)
    (Hused : forall w', port_isNonceUsed (ports deps) w' (t_nonce t) = Ok true) :
  exists t', fst (poll t w) = Ok t' /\ t_state t' = delivered /\ t_depositTxHash t' = None /\
    forall w', exists e, deliver t' w' = (Throw e, w').
Proof.
  unfold poll. cbv [mbind M_bind iris_getAttestation isNonceUsed lift]. rewrite Hiris, Hused. cbn [fst].
  destruct (reconcile_cases t iris true) as (t' & H & _ & _ & Hd & Hu & _).
  destruct (Hu eq_refl Hstate) as (Hs & _). exists t'. split_and!; [done|done|congruence|].
  intros w'. eexists. unfold deliver. rewrite Hs. reflexivity.
Qed.
End Executor.

(** Ports of a chain where the nonce is consumed. *)
Definition used_ports : CctpPorts (SDK := ModelSdk) :=
  {| port_iris := fun _ _ _ => Ok IrisPending;
     port_isNonceUsed := fun _ _ => Ok true;
     port_submit := fun _ _ _ _ => Throw (PlainError "network") |}.

Definition used_deps : CctpExecutorDeps (SDK := ModelSdk) :=
  {| ports := used_ports; config := STELLAR_TESTNET; relayerAddress := "GRELAYER"; vaultContractId := "CVAULT" |}.

Lemma poll_drops_vault_deposit_witness :
  exists t', fst (poll used_deps sample_row []) = Ok t' /\ t_state t' = delivered /\
    t_depositTxHash t' = None /\ forall w', exists e, deliver used_deps t' w' = (Throw e, w').
Proof.
  apply (poll_drops_vault_deposit used_deps sample_row [] IrisPending);
    [discriminate|reflexivity|reflexivity|reflexivity].
Defined.
