(* ===== verification/Entities.v ===== *)
(** * The persisted entities ([backend/src/domain/entities])

    The rows of the tables [users] and [loans]. The columns of a user are grouped
    by concern; columns no modelled service reads or writes are left out. A
    [decimal] column is a JavaScript number, as its transformer makes it; a
    timestamp is a number of milliseconds. *)

From stdpp Require Import base tactics list gmap strings numbers.
From Stdlib Require Import Lia ZArith.
From S2P Require Import Prelude JsString JsNum.

Local Open Scope Z_scope.

(** ** Users *)

(** Registration: platform, email, work, terms. *)
Record Onboarding := {
  platform : option string;
  email : option string;
  workType : option string;
  termsAcceptedAt : option Z;
  waitlistJoinedAt : option Z;
  earlyAccessNotifiedAt : option Z;
  waitlistPriority : Z;
  createdAt : Z;
}.

(** The credit line and the history behind it. *)
Record CreditColumns := {
  creditLimit : option num;
  score : option Z;
  xp : Z;
  riskDecision : option string;
  riskPDefault : option num;
  walletQuality : option string;
  hadDefaultEver : bool;
  defaultsCount : Z;
}.

(** The phone and its one-time password. *)
Record PhoneColumns := {
  phone : option string;
  phoneVerifiedAt : option Z;
  lastPhoneOtpSentAt : option Z;
  phoneOtpCode : option string;
  phoneOtpExpiresAt : option Z;
  phoneOtpAttemptCount : Z;
}.

(** Identity verification: [kycStatus] is none, pending, approved or rejected. *)
Record KycColumns := {
  kycStatus : string;
  kycSessionId : option string;
  kycProvider : option string;
  kycApprovedAt : option Z;
}.

Record User := {
  user_id : Z;
  walletAddress : string;
  onboarding : Onboarding;
  credit : CreditColumns;
  phone_columns : PhoneColumns;
  kyc : KycColumns;
}.

Definition with_onboarding (u : User) (o : Onboarding) : User :=
  {| user_id := user_id u; walletAddress := walletAddress u; onboarding := o; credit := credit u;
     phone_columns := phone_columns u; kyc := kyc u |}.

Definition with_credit (u : User) (c : CreditColumns) : User :=
  {| user_id := user_id u; walletAddress := walletAddress u; onboarding := onboarding u; credit := c;
     phone_columns := phone_columns u; kyc := kyc u |}.

Definition with_kyc (u : User) (k : KycColumns) : User :=
  {| user_id := user_id u; walletAddress := walletAddress u; onboarding := onboarding u;
     credit := credit u; phone_columns := phone_columns u; kyc := k |}.

(** Assignments to one column, [user.platform = p] and so on. *)
Definition set_platform (p : string) (u : User) : User :=
  let o := onboarding u in
  with_onboarding u {| platform := Some p; email := email o; workType := workType o;
    termsAcceptedAt := termsAcceptedAt o; waitlistJoinedAt := waitlistJoinedAt o;
    earlyAccessNotifiedAt := earlyAccessNotifiedAt o; waitlistPriority := waitlistPriority o;
    createdAt := createdAt o |}.

Definition set_score_and_limit (s : Z) (limit : num) (u : User) : User :=
  let c := credit u in
  with_credit u {| creditLimit := Some limit; score := Some s; xp := xp c; riskDecision := riskDecision c;
    riskPDefault := riskPDefault c; walletQuality := walletQuality c;
    hadDefaultEver := hadDefaultEver c; defaultsCount := defaultsCount c |}.

Definition set_xp (x : Z) (u : User) : User :=
  let c := credit u in
  with_credit u {| creditLimit := creditLimit c; score := score c; xp := x; riskDecision := riskDecision c;
    riskPDefault := riskPDefault c; walletQuality := walletQuality c;
    hadDefaultEver := hadDefaultEver c; defaultsCount := defaultsCount c |}.

Definition set_hadDefaultEver (u : User) : User :=
  let c := credit u in
  with_credit u {| creditLimit := creditLimit c; score := score c; xp := xp c; riskDecision := riskDecision c;
    riskPDefault := riskPDefault c; walletQuality := walletQuality c;
    hadDefaultEver := true; defaultsCount := defaultsCount c |}.

(** ** Loans *)

Inductive LoanStatus := OPEN | REPAID_ON_TIME | REPAID_LATE | DEFAULTED_IN_GRACE | DEFAULTED.

#[export] Instance LoanStatus_eq_dec : EqDecision LoanStatus.
Proof. solve_decision. Defined.

(** What the loan was granted as; written once. *)
Record LoanTerms := {
  userId : Z;
  borrowerAddress : string;
  principal : num;
  amountDueAtOpen : num;
  tenorDays : Z;
  feeBps : num;
  startAt : Z;
  dueAt : Z;
  openTxHash : option string;
}.

(** How the loan stands. *)
Record LoanState := {
  status : LoanStatus;
  amountPaid : num;
  repaidOnTime : bool;
  closedAt : option Z;
  closeTxHash : option string;
  syncedByChain : bool;
}.

(** The late-fee snapshot chain-sync maintains. *)
Record LateSnapshot := {
  lateRatePerSecWad : option string;
  gracePeriodSec : option Z;
  lateFeesCurrentUsd : option num;
  lateFeesSnapshotAt : option Z;
  lateFeesCollectedUsd : option num;
}.

Record Loan := {
  loan_id : Z;
  terms : LoanTerms;
  state : LoanState;
  late : LateSnapshot;
  loan_createdAt : Z;
}.

Definition with_state (l : Loan) (s : LoanState) : Loan :=
  {| loan_id := loan_id l; terms := terms l; state := s; late := late l; loan_createdAt := loan_createdAt l |}.

Definition no_snapshot : LateSnapshot :=
  {| lateRatePerSecWad := None; gracePeriodSec := None; lateFeesCurrentUsd := None;
     lateFeesSnapshotAt := None; lateFeesCollectedUsd := None |}.

(** ** Helpers every service has a private copy of *)

(** [toNum]: [Number(value)] when finite, else null. *)
Definition toNum (v : option num) : option num :=
  match v with Some n => if isFinite n then Some n else None | None => None end.

(** [normalizePlatform]. *)
Definition normalizePlatform (p : option string) : option string :=
  match p with
  | None => None
  | Some p =>
      let v := toLowerCase (trim p) in
      if bool_decide (v = "lemon"%string) || bool_decide (v = "farcaster"%string)
         || bool_decide (v = "webapp"%string)
      then Some v else None
  end.
