(* ===== verification/Gateway.v ===== *)
(** * The blockchain gateway port
      ([backend/src/domain/ports/outbound/blockchain-gateway.port.ts])

    The port the services reach the LoanManager contract through. Its answers are
    a parameter: a function of the trace of all the calls made so far, so that
    nothing is assumed of the chain between two calls. The priority of a
    transaction ([TxPriority]) orders the gateway's own queue ([SorobanQueue]); the
    answers of the port do not depend on it. A call that throws is an RPC failure. The trace also records the clock readings and the calls to the
    KYC vendor. *)

From stdpp Require Import base tactics list strings numbers.
From Stdlib Require Import Lia ZArith.
From S2P Require Import Prelude JsString JsNum.

Local Open Scope Z_scope.

Inductive TxPriority := high | low.

(** The answer of [createLoanOfferBackend]. *)
Record LoanOffer := {
  offer_ok : bool;
  offer_feeBps : num;
  offer_tenorDays : Z;
  offer_maxAmountBase : string;
  offer_minedBlock : Z;
}.

Record OnChainLoan := { active : bool; oc_principal : Z; oc_amountDue : Z }.

Record OnChainLoanFull := {
  f_principal : Z; f_amountDue : Z; f_start : Z; f_due : Z; f_feeBps : Z; f_gracePeriod : Z; f_active : bool;
}.

Record Premium := { premiumRatePerSecWad : Z; premium_lateRatePerSecWad : Z }.

Inductive RepayFailure := no_receipt | reverted | no_match | rpc_error.

#[export] Instance RepayFailure_eq_dec : EqDecision RepayFailure.
Proof. solve_decision. Defined.

Record RepayVerification := {
  verified : bool;
  reason : option RepayFailure;
  blockNumber : option Z;
  paidUnits : option Z;
}.

Inductive KycDecision := KycPending | KycApproved | KycRejected.

#[export] Instance KycDecision_eq_dec : EqDecision KycDecision.
Proof. solve_decision. Defined.

Record KycSession := { sessionId : string; verificationUrl : string }.

(** ** The events chain-sync reads *)

(** Heights are ledger sequences, [due] and [timestamp] are unix seconds. *)
Record ChainLoanOpenedEvent := {
  ev_borrower : string;
  ev_principal : Z;
  ev_amountDue : Z;
  ev_due : Z;
  ev_feeBps : num;
  ev_ledger : Z;
  ev_txHash : string;
  ev_timestamp : Z;
}.

Record ChainLoanClosedEvent := {
  cl_borrower : string;
  cl_amountPaid : Z;
  cl_txHash : string;
  cl_ledger : Z;
  cl_timestamp : Z;
}.

(** The answer of [readUserRisk]. *)
Record UserRisk := { ur_score : Z; ur_validUntil : Z; ur_limit : Z }.

(** One interaction with the outside, in the order they happen; the calls that
    write on chain carry their outcome. *)
Inductive call :=
  | CReadCreditLimit (borrower : string)
  | CReadNextBorrowTime (borrower : string)
  | CGiveCredit (borrower : string) (sc limit : Z) (answer : result Z)
  | CCreateOffer (amountHuman borrower : string) (tenor : Z) (fee : num) (answer : result LoanOffer)
  | CSetPremium (borrower : string) (rate : Z)
  | CPreviewLate (borrower : string)
  | CReadLoan (borrower : string)
  | CReadLoanFull (borrower : string)
  | CReadPremium (borrower : string)
  | CReadIsDefaulted (borrower : string)
  | CChainTimestamp
  | CVerifyOpened (txHash borrower : string) (answer : result bool)
  | CVerifyRepay (txHash borrower : string) (answer : result RepayVerification)
  | CAccrueLate (borrower : string) (answer : result unit)
  | CNow (millis : Z)
  | CKycCreate (wallet : string)
  | CKycDecision (session : string) (answer : result KycDecision)
  | CLatestLedger
  | CReadUserRisk (borrower : string)
  | CLoanOpenedEvents (from to : Z) (answer : result (list ChainLoanOpenedEvent))
  | CFindLoanClosed (borrower : string) (startAt ledger : Z) (answer : result (option ChainLoanClosedEvent))
  | CSubgraph
  | CRandom (value : num)
  | CSendTemplate (to code : string) (answer : result unit)
  | CSendText (to code : string) (answer : result unit).

(** The outside world: every answer is a function of the calls made before. *)
Class Outside := {
  gw_readCreditLimit : list call -> string -> result Z;
  (** [None] when the gateway does not implement the optional method *)
  gw_readNextBorrowTime : option (list call -> string -> result Z);
  gw_giveCredit : list call -> string -> Z -> Z -> result Z;
  gw_createOffer : list call -> string -> string -> Z -> num -> result LoanOffer;
  gw_previewLate : list call -> string -> result (option Z);
  gw_readLoan : list call -> string -> result (option OnChainLoan);
  gw_readLoanFull : list call -> string -> result (option OnChainLoanFull);
  gw_readPremium : list call -> string -> result (option Premium);
  gw_readIsDefaulted : list call -> string -> result (option bool);
  gw_chainTimestamp : list call -> result (option Z);
  gw_verifyOpened : list call -> string -> string -> result bool;
  gw_verifyRepay : list call -> string -> string -> result RepayVerification;
  gw_accrueLate : list call -> string -> result unit;
  (** [Date.now()], milliseconds *)
  now_ms : list call -> Z;
  (** the KYC vendor behind its port *)
  kyc_name : string;
  kyc_createSession : list call -> string -> result KycSession;
  kyc_getDecision : list call -> string -> result KycDecision;
}.

(** The part of the port chain-sync alone uses, and the subgraph it compares the
    database with ([None] when the answer holds no count). *)
Class ChainFeed := {
  gw_latestLedger : list call -> result Z;
  gw_readUserRisk : list call -> string -> result (option UserRisk);
  gw_loanOpenedEvents : list call -> Z -> Z -> result (list ChainLoanOpenedEvent);
  gw_findLoanClosed : list call -> string -> Z -> Z -> result (option ChainLoanClosedEvent);
  subgraph_loansOriginated : list call -> result (option num);
}.

(** [Math.random()], and the WhatsApp client ([None] when it is not configured). *)
Record KapsoClient := {
  kapso_sendTemplate : list call -> string -> string -> result unit;
  kapso_sendText : list call -> string -> string -> result unit;
}.

Class Messaging := {
  math_random : list call -> num;
  kapso : option KapsoClient;
}.
