(* ===== verification/Store.v ===== *)
(** * The world of a request: the database and the outside

    The services run over the TypeORM repositories of the tables [users] and
    [loans]. The database is a parameter ([Database]): which of the matching rows
    a query returns, and whether a statement fails, is its choice; [DatabaseLaws]
    states the documented behaviour of PostgreSQL the services rely on (a query
    returns matching rows, a unique index refuses a duplicate). The rule that a
    failed statement poisons its transaction, and that a transaction that throws
    is rolled back, is part of the model. [MemoryDatabase] is a concrete
    database. *)

From stdpp Require Import base tactics list gmap strings numbers.
From Stdlib Require Import Lia ZArith Sorted.
From S2P Require Import Prelude JsString JsNum Entities Gateway.

Local Open Scope Z_scope.

(** Inside a transaction a failed statement aborts it: every later statement
    fails until the rollback (PostgreSQL error 25P02). *)
Inductive tx_state := NoTx | TxActive | TxAborted.

(** The small tables: the verified Self identities, the position of the scanner of
    loan openings, and the health metrics. *)
Record SideTables := {
  self_verified : gset Z;
  loan_opened_cursor : option Z;
  metrics : gmap string num;
}.

Definition no_side : SideTables := {| self_verified := ∅; loan_opened_cursor := None; metrics := ∅ |}.

Record World := {
  w_users : gmap Z User;
  w_loans : gmap Z Loan;
  w_side : SideTables;
  w_tx : tx_state;
  w_calls : list call;
}.

Definition w_self (w : World) : gset Z := self_verified (w_side w).

Definition set_users (t : gmap Z User) (w : World) : World :=
  {| w_users := t; w_loans := w_loans w; w_side := w_side w; w_tx := w_tx w; w_calls := w_calls w |}.
Definition set_loans (t : gmap Z Loan) (w : World) : World :=
  {| w_users := w_users w; w_loans := t; w_side := w_side w; w_tx := w_tx w; w_calls := w_calls w |}.
Definition set_tx (s : tx_state) (w : World) : World :=
  {| w_users := w_users w; w_loans := w_loans w; w_side := w_side w; w_tx := s; w_calls := w_calls w |}.
Definition log_call (c : call) (w : World) : World :=
  {| w_users := w_users w; w_loans := w_loans w; w_side := w_side w; w_tx := w_tx w;
     w_calls := w_calls w ++ [c] |}.

Definition set_side (s : SideTables) (w : World) : World :=
  {| w_users := w_users w; w_loans := w_loans w; w_side := s; w_tx := w_tx w; w_calls := w_calls w |}.

(** ** The database *)

(** Two rows may not share an open or a close transaction hash. *)
Definition hash_conflict (l l' : Loan) : bool :=
  let same (a b : option string) := match a, b with Some x, Some y => bool_decide (x = y) | _, _ => false end in
  same (openTxHash (terms l)) (openTxHash (terms l')) || same (closeTxHash (state l)) (closeTxHash (state l')).

(** The rows that match a condition. *)
Definition loans_where (p : Loan -> bool) (w : World) : gmap Z Loan :=
  filter (fun kv => p (snd kv) = true) (w_loans w).

Class Database := {
  (** what a decimal(18,2) column reads back for a number written *)
  db_decimal : num -> num;
  db_find_user : World -> (User -> bool) -> result (option User);
  (** with an optional descending order *)
  db_find_loan : World -> (Loan -> bool) -> option (Loan -> Z) -> result (option Loan);
  db_find_loans : World -> (Loan -> bool) -> result (list Loan);
  (** in descending order of a key, at most so many *)
  db_find_loans_latest : World -> (Loan -> bool) -> (Loan -> Z) -> nat -> result (list Loan);
  db_count_loans : World -> (Loan -> bool) -> result Z;
  (** [COALESCE(SUM(loan.amountPaid), 0)] *)
  db_sum_paid : World -> (Loan -> bool) -> result num;
  db_find_self : World -> Z -> result bool;
  db_count_users : World -> (User -> bool) -> result Z;
  (** in ascending order of a key, at most so many *)
  db_find_users : World -> (User -> bool) -> (User -> Z) -> nat -> result (list User);
  (** the error of a write, if any *)
  db_user_error : World -> User -> option exn;
  db_loan_error : World -> Loan -> option exn;
  (** the id and creation time of an inserted row *)
  db_new_loan_id : World -> Z;
  db_created_at : World -> Z;
  (** all the matching rows, in descending order of a key *)
  db_find_loans_desc : World -> (Loan -> bool) -> (Loan -> Z) -> result (list Loan);
  db_find_all_users : World -> (User -> bool) -> result (list User);
  (** the row of the scan cursor, and the error of a write to a side table *)
  db_find_cursor : World -> result (option Z);
  db_side_error : World -> SideTables -> option exn;
}.

(** Every row is stored under its id. *)
Definition tables_ok (w : World) : Prop :=
  map_Forall (fun i u => user_id u = i) (w_users w) /\ map_Forall (fun i l => loan_id l = i) (w_loans w).

(** Two users may not share a phone number (the index idx_users_phone). *)
Definition phone_conflict (u u' : User) : bool :=
  match phone (phone_columns u), phone (phone_columns u') with Some p, Some q => bool_decide (p = q) | _, _ => false end.

(** Every matching row once. *)
Definition rows {A} (t : gmap Z A) (p : A -> bool) : list A :=
  List.filter p (snd <$> map_to_list t).

(** The users that match a condition. *)
Definition users_where (p : User -> bool) (w : World) : gmap Z User :=
  filter (fun kv => p (snd kv) = true) (w_users w).

Class DatabaseLaws (DB : Database) := {
  find_user_some : forall w p u, db_find_user w p = Ok (Some u) -> exists i, w_users w !! i = Some u /\ p u = true;
  find_user_none : forall w p i u, db_find_user w p = Ok None -> w_users w !! i = Some u -> p u = false;
  find_loan_some : forall w p o l, db_find_loan w p o = Ok (Some l) -> exists i, w_loans w !! i = Some l /\ p l = true;
  find_loan_max : forall w p key l i l', db_find_loan w p (Some key) = Ok (Some l) ->
    w_loans w !! i = Some l' -> p l' = true -> key l' <= key l;
  find_loan_none : forall w p o i l, db_find_loan w p o = Ok None -> w_loans w !! i = Some l -> p l = false;
  find_loans_spec : forall w p ls l, db_find_loans w p = Ok ls ->
    (l ∈ ls <-> exists i, w_loans w !! i = Some l /\ p l = true);
  find_loans_latest_sound : forall w p key k ls l, db_find_loans_latest w p key k = Ok ls -> l ∈ ls ->
    exists i, w_loans w !! i = Some l /\ p l = true;
  count_loans_spec : forall w p n, db_count_loans w p = Ok n -> n = Z.of_nat (size (loans_where p w));
  find_self_spec : forall w i b, db_find_self w i = Ok b -> b = bool_decide (i ∈ w_self w);
  count_users_spec : forall w p n, db_count_users w p = Ok n -> n = Z.of_nat (size (users_where p w));
  find_users_sound : forall w p key k us u, db_find_users w p key k = Ok us -> u ∈ us ->
    exists i, w_users w !! i = Some u /\ p u = true;
  find_users_limit : forall w p key k us, db_find_users w p key k = Ok us -> (length us <= k)%nat;
  find_loans_desc_rows : forall w p key ls, db_find_loans_desc w p key = Ok ls -> ls ≡ₚ rows (w_loans w) p;
  find_loans_desc_sorted : forall w p key ls, db_find_loans_desc w p key = Ok ls ->
    StronglySorted (fun l l' => key l' <= key l) ls;
  find_all_users_rows : forall w p us, db_find_all_users w p = Ok us -> us ≡ₚ rows (w_users w) p;
  find_cursor_spec : forall w c, db_find_cursor w = Ok c -> c = loan_opened_cursor (w_side w);
  (** a value read back from a decimal column is stored as it is *)
  db_decimal_idemp : forall x, db_decimal (db_decimal x) = db_decimal x;
  new_loan_id_fresh : forall w, w_loans w !! db_new_loan_id w = None;
  phone_refused : forall w u i u', w_users w !! i = Some u' -> i <> user_id u -> phone_conflict u u' = true ->
    exists ix, db_user_error w u = Some (UniqueViolation ix);
  (** the unique indexes uq_loans_openTxHash and uq_loans_closeTxHash *)
  unique_refused : forall w l i l', w_loans w !! i = Some l' -> i <> loan_id l -> hash_conflict l l' = true ->
    exists ix, db_loan_error w l = Some (UniqueViolation ix);
  unique_only : forall w l ix, db_loan_error w l = Some (UniqueViolation ix) ->
    exists i l', w_loans w !! i = Some l' /\ i <> loan_id l /\ hash_conflict l l' = true;
}.

Section Store.
  Context `{DB : Database} `{OUT : Outside}.

Definition tx_aborted : exn :=
  PlainError "25P02: current transaction is aborted, commands ignored until end of transaction block".

(** A failed statement. *)
Definition poison (w : World) : World :=
  match w_tx w with TxActive => set_tx TxAborted w | _ => w end.

(** A statement: [f] gives its result and its effect on the tables. *)
Definition statement {A} (f : World -> result (A * (World -> World))) : M World A := fun w =>
  match w_tx w with
  | TxAborted => (Throw tx_aborted, w)
  | _ => match f w with
         | Ok (a, eff) => (Ok a, eff w)
         | Throw e => (Throw e, poison w)
         end
  end.

Definition query {A} (f : World -> result A) : M World A :=
  statement (fun w => match f w with Ok a => Ok (a, id) | Throw e => Throw e end).

Definition find_user (p : User -> bool) : M World (option User) := query (fun w => db_find_user w p).
Definition find_loan (p : Loan -> bool) (order : option (Loan -> Z)) : M World (option Loan) :=
  query (fun w => db_find_loan w p order).
Definition find_loans (p : Loan -> bool) : M World (list Loan) := query (fun w => db_find_loans w p).
Definition find_loans_latest (p : Loan -> bool) (key : Loan -> Z) (limit : nat) : M World (list Loan) :=
  query (fun w => db_find_loans_latest w p key limit).
Definition count_loans (p : Loan -> bool) : M World Z := query (fun w => db_count_loans w p).
Definition sum_paid (p : Loan -> bool) : M World num := query (fun w => db_sum_paid w p).
Definition count_users (p : User -> bool) : M World Z := query (fun w => db_count_users w p).
Definition find_users (p : User -> bool) (key : User -> Z) (limit : nat) : M World (list User) :=
  query (fun w => db_find_users w p key limit).
Definition find_loans_desc (p : Loan -> bool) (key : Loan -> Z) : M World (list Loan) :=
  query (fun w => db_find_loans_desc w p key).
Definition find_all_users (p : User -> bool) : M World (list User) := query (fun w => db_find_all_users w p).
Definition find_cursor : M World (option Z) := query db_find_cursor.
Definition find_self (i : Z) : M World bool := query (fun w => db_find_self w i).

(** A user row as stored: the credit limit is a decimal column. *)
Definition stored_user (u : User) : User :=
  let c := credit u in
  with_credit u {| creditLimit := db_decimal <$> creditLimit c; score := score c; xp := xp c;
    riskDecision := riskDecision c; riskPDefault := riskPDefault c; walletQuality := walletQuality c;
    hadDefaultEver := hadDefaultEver c; defaultsCount := defaultsCount c |}.

(** [userRepo.save(user)]: every column of the entity is written. *)
Definition save_user (u : User) : M World unit :=
  statement (fun w => match db_user_error w u with
                      | Some e => Throw e
                      | None => Ok (tt, fun w => set_users (<[user_id u := stored_user u]> (w_users w)) w)
                      end).

(** [userRepo.update({ id }, patch)]: only the columns of the patch (a patch of a
    decimal column applies [db_decimal] itself). *)
Definition update_user (i : Z) (patch : User -> User) : M World unit :=
  statement (fun w =>
    match w_users w !! i with
    | None => Ok (tt, id)
    | Some u => match db_user_error w (patch u) with
                | Some e => Throw e
                | None => Ok (tt, fun w => set_users (<[i := patch u]> (w_users w)) w)
                end
    end).

(** [userRepo.update(where, patch)]: every matching row, or none when one of them is
    refused. *)
Definition update_users (p : User -> bool) (patch : User -> User) : M World unit :=
  statement (fun w =>
    match List.find (fun u => bool_decide (is_Some (db_user_error w (patch u)))) (rows (w_users w) p) with
    | Some u => Throw (default (PlainError "") (db_user_error w (patch u)))
    | None => Ok (tt, fun w => set_users ((fun u => if p u then patch u else u) <$> w_users w) w)
    end).

(** A loan row as stored: amounts are decimal columns. *)
Definition stored_loan (l : Loan) : Loan :=
  {| loan_id := loan_id l;
     terms := {| userId := userId (terms l); borrowerAddress := borrowerAddress (terms l);
                 principal := db_decimal (principal (terms l));
                 amountDueAtOpen := db_decimal (amountDueAtOpen (terms l));
                 tenorDays := tenorDays (terms l); feeBps := feeBps (terms l);
                 startAt := startAt (terms l); dueAt := dueAt (terms l);
                 openTxHash := openTxHash (terms l) |};
     state := {| status := status (state l); amountPaid := db_decimal (amountPaid (state l));
                 repaidOnTime := repaidOnTime (state l); closedAt := closedAt (state l);
                 closeTxHash := closeTxHash (state l); syncedByChain := syncedByChain (state l) |};
     late := {| lateRatePerSecWad := lateRatePerSecWad (late l); gracePeriodSec := gracePeriodSec (late l);
                lateFeesCurrentUsd := db_decimal <$> lateFeesCurrentUsd (late l);
                lateFeesSnapshotAt := lateFeesSnapshotAt (late l);
                lateFeesCollectedUsd := db_decimal <$> lateFeesCollectedUsd (late l) |};
     loan_createdAt := loan_createdAt l |}.

(** [manager.save(Loan, loan)] of a row that exists. *)
Definition save_loan (l : Loan) : M World unit :=
  statement (fun w => match db_loan_error w l with
                      | Some e => Throw e
                      | None => Ok (tt, fun w => set_loans (<[loan_id l := stored_loan l]> (w_loans w)) w)
                      end).

(** [manager.save(Loan, [...])]: one statement per row. *)
Fixpoint save_loans (ls : list Loan) : M World unit :=
  match ls with
  | [] => mret tt
  | l :: ls' => _ ← save_loan l; save_loans ls'
  end.

(** [manager.save(Loan, newLoan)] of a new row: the entity with its id. *)
Definition insert_loan (t : LoanTerms) (s : LoanState) : M World Loan :=
  statement (fun w =>
    let l := {| loan_id := db_new_loan_id w; terms := t; state := s; late := no_snapshot;
                loan_createdAt := db_created_at w |} in
    match db_loan_error w l with
    | Some e => Throw e
    | None => Ok (l, fun w => set_loans (<[loan_id l := stored_loan l]> (w_loans w)) w)
    end).

(** [insert().into(Loan).values(loan).orIgnore()]: a row that breaks a unique index
    is not inserted, without an error. The id of the new row. *)
Definition insert_loan_or_ignore (t : LoanTerms) (s : LoanState) : M World (option Z) :=
  statement (fun w =>
    let l := {| loan_id := db_new_loan_id w; terms := t; state := s; late := no_snapshot;
                loan_createdAt := db_created_at w |} in
    match db_loan_error w l with
    | Some (UniqueViolation _) => Ok (None, id)
    | Some e => Throw e
    | None => Ok (Some (loan_id l), fun w => set_loans (<[loan_id l := stored_loan l]> (w_loans w)) w)
    end).

(** [loanRepo.update(id, patch)]: only the columns of the patch (a patch of a
    decimal column applies [db_decimal] itself). *)
Definition update_loan (i : Z) (patch : Loan -> Loan) : M World unit :=
  statement (fun w =>
    match w_loans w !! i with
    | None => Ok (tt, id)
    | Some l => match db_loan_error w (patch l) with
                | Some e => Throw e
                | None => Ok (tt, fun w => set_loans (<[i := patch l]> (w_loans w)) w)
                end
    end).

(** [save] of a row of a side table. *)
Definition save_side (f : SideTables -> SideTables) : M World unit :=
  statement (fun w => match db_side_error w (f (w_side w)) with
                      | Some e => Throw e
                      | None => Ok (tt, fun w => set_side (f (w_side w)) w)
                      end).

Definition save_cursor (block : Z) : M World unit :=
  save_side (fun s => {| self_verified := self_verified s; loan_opened_cursor := Some block; metrics := metrics s |}).

Definition save_metric (key : string) (value : num) : M World unit :=
  save_side (fun s => {| self_verified := self_verified s; loan_opened_cursor := loan_opened_cursor s;
                         metrics := <[key := value]> (metrics s) |}).

(** [manager.transaction(body)]: rolled back when the body throws, and also when
    it returns from an aborted transaction (COMMIT then rolls back). *)
Definition transaction {A} (body : M World A) : M World A := fun w =>
  let '(r, w') := body (set_tx TxActive w) in
  let rolled_back := {| w_users := w_users w; w_loans := w_loans w; w_side := w_side w; w_tx := w_tx w;
                        w_calls := w_calls w' |} in
  match r, w_tx w' with
  | Ok a, TxAborted => (Ok a, rolled_back)
  | Ok a, _ => (Ok a, set_tx (w_tx w) w')
  | Throw e, _ => (Throw e, rolled_back)
  end.

(** ** The outside *)

(** A call to the outside, recorded with its answer. *)
Definition outside {A} (f : list call -> result A) (c : result A -> call) : M World A := fun w =>
  let r := f (w_calls w) in (r, log_call (c r) w).

Definition readCreditLimitOnChain (b : string) : M World Z :=
  outside (fun t => gw_readCreditLimit t b) (fun _ => CReadCreditLimit b).
Definition giveCreditScoreAndLimit (b : string) (sc limit : Z) : M World Z :=
  outside (fun t => gw_giveCredit t b sc limit) (CGiveCredit b sc limit).
Definition createLoanOfferBackend (amount b : string) (tenor : Z) (fee : num) : M World LoanOffer :=
  outside (fun t => gw_createOffer t amount b tenor fee) (CCreateOffer amount b tenor fee).
(** fired without waiting: its outcome is only logged *)
Definition setPremiumConfig (b : string) (rate : Z) : M World unit :=
  outside (fun _ => Ok tt) (fun _ => CSetPremium b rate).
Definition previewLoanWithLate (b : string) : M World (option Z) :=
  outside (fun t => gw_previewLate t b) (fun _ => CPreviewLate b).
Definition readLoanOnChain (b : string) : M World (option OnChainLoan) :=
  outside (fun t => gw_readLoan t b) (fun _ => CReadLoan b).
Definition readLoanFull (b : string) : M World (option OnChainLoanFull) :=
  outside (fun t => gw_readLoanFull t b) (fun _ => CReadLoanFull b).
Definition readPremium (b : string) : M World (option Premium) :=
  outside (fun t => gw_readPremium t b) (fun _ => CReadPremium b).
Definition readIsDefaulted (b : string) : M World (option bool) :=
  outside (fun t => gw_readIsDefaulted t b) (fun _ => CReadIsDefaulted b).
Definition getChainBlockTimestamp : M World (option Z) :=
  outside gw_chainTimestamp (fun _ => CChainTimestamp).
Definition verifyLoanOpenedByTxHash (tx b : string) : M World bool :=
  outside (fun t => gw_verifyOpened t tx b) (CVerifyOpened tx b).
Definition verifyRepayByTxHash (tx b : string) : M World RepayVerification :=
  outside (fun t => gw_verifyRepay t tx b) (CVerifyRepay tx b).
Definition accrueLate (b : string) : M World unit :=
  outside (fun t => gw_accrueLate t b) (CAccrueLate b).
(** [new Date()], [Date.now()] *)
Definition date_now : M World Z :=
  outside (fun t => Ok (now_ms t)) (fun r => CNow (match r with Ok t => t | Throw _ => 0 end)).
Definition createSession (wallet : string) : M World KycSession :=
  outside (fun t => kyc_createSession t wallet) (fun _ => CKycCreate wallet).
Definition getDecision (session : string) : M World KycDecision :=
  outside (fun t => kyc_getDecision t session) (CKycDecision session).

(** The reads of chain-sync. *)
Context `{FEED : ChainFeed}.

Definition getLatestLedger : M World Z := outside gw_latestLedger (fun _ => CLatestLedger).
Definition readUserRisk (b : string) : M World (option UserRisk) :=
  outside (fun t => gw_readUserRisk t b) (fun _ => CReadUserRisk b).
Definition getLoanOpenedEvents (from to : Z) : M World (list ChainLoanOpenedEvent) :=
  outside (fun t => gw_loanOpenedEvents t from to) (CLoanOpenedEvents from to).
Definition findLoanClosed (b : string) (startAt ledger : Z) : M World (option ChainLoanClosedEvent) :=
  outside (fun t => gw_findLoanClosed t b startAt ledger) (CFindLoanClosed b startAt ledger).
(** Random numbers and text messages. *)
Context `{MSG : Messaging}.

Definition random : M World num :=
  outside (fun t => Ok (math_random t)) (fun r => CRandom (match r with Ok x => x | Throw _ => num_of_Z 0 end)).
Definition sendTemplate (k : KapsoClient) (to code : string) : M World unit :=
  outside (fun t => kapso_sendTemplate k t to code) (CSendTemplate to code).
Definition sendText (k : KapsoClient) (to code : string) : M World unit :=
  outside (fun t => kapso_sendText k t to code) (CSendText to code).

Definition fetchSubgraph : M World (option num) := outside subgraph_loansOriginated (fun _ => CSubgraph).
End Store.

(** ** A concrete database *)

(** The first element of a list for which the key is maximal. *)
Fixpoint max_by {A} (key : A -> Z) (l : list A) : option A :=
  match l with
  | [] => None
  | x :: l' => match max_by key l' with
               | Some y => if key x <? key y then Some y else Some x
               | None => Some x
               end
  end.

(** Insertion sort, ascending. *)
Fixpoint insert_by {A} (key : A -> Z) (x : A) (l : list A) : list A :=
  match l with
  | [] => [x]
  | y :: l' => if key x <=? key y then x :: l else y :: insert_by key x l'
  end.

Definition insert_sort {A} (key : A -> Z) (l : list A) : list A := foldr (insert_by key) [] l.

Definition memory_loan_error (w : World) (l : Loan) : option exn :=
  if bool_decide (map_Exists (fun i l' => i <> loan_id l /\ hash_conflict l l' = true) (w_loans w))
  then Some (UniqueViolation "uq_loans_txHash") else None.

Definition memory_user_error (w : World) (u : User) : option exn :=
  if bool_decide (map_Exists (fun i u' => i <> user_id u /\ phone_conflict u u' = true) (w_users w))
  then Some (UniqueViolation "idx_users_phone") else None.

#[export] Instance MemoryDatabase : Database := {|
  db_decimal := id;
  db_find_user w p := Ok (head (rows (w_users w) p));
  db_find_loan w p order := Ok (max_by (default (fun _ => 0) order) (rows (w_loans w) p));
  db_find_loans w p := Ok (rows (w_loans w) p);
  db_find_loans_latest w p key k := Ok (take k (insert_sort (fun l => - key l) (rows (w_loans w) p)));
  db_count_loans w p := Ok (Z.of_nat (size (loans_where p w)));
  db_sum_paid w p := Ok (foldr (fun l acc => nadd (amountPaid (state l)) acc) (num_of_Z 0) (rows (w_loans w) p));
  db_find_self w i := Ok (bool_decide (i ∈ w_self w));
  db_count_users w p := Ok (Z.of_nat (size (users_where p w)));
  db_find_users w p key k := Ok (take k (insert_sort key (rows (w_users w) p)));
  db_user_error := memory_user_error;
  db_loan_error := memory_loan_error;
  db_new_loan_id w := fresh (dom (w_loans w));
  db_created_at _ := 0;
  db_find_loans_desc w p key := Ok (insert_sort (fun l => - key l) (rows (w_loans w) p));
  db_find_all_users w p := Ok (rows (w_users w) p);
  db_find_cursor w := Ok (loan_opened_cursor (w_side w));
  db_side_error _ _ := None;
|}.

Lemma elem_of_rows {A} (t : gmap Z A) p a :
  a ∈ rows t p <-> exists i, t !! i = Some a /\ p a = true.
Proof.
  unfold rows. rewrite list_elem_of_In, filter_In, <- list_elem_of_In, list_elem_of_fmap. split.
  - intros [([i x] & -> & Hx) Hp]. exists i. split; [by apply elem_of_map_to_list|done].
  - intros (i & Ha & Hp). split; [|done]. exists (i, a). split; [done|by apply elem_of_map_to_list].
Qed.

Lemma max_by_some {A} (key : A -> Z) l x :
  max_by key l = Some x -> x ∈ l /\ forall y, y ∈ l -> key y <= key x.
Proof.
  revert x. induction l as [|a l IH]; intros x H; [done|]. cbn in H.
  destruct (max_by key l) as [y|] eqn:E.
  - destruct (IH y eq_refl) as [Hin Hmax]. destruct (Z.ltb_spec (key a) (key y)); injection H as <-.
    + split; [by right|]. intros z [->|Hz]%elem_of_cons; [lia|by apply Hmax].
    + split; [by left|]. intros z [->|Hz]%elem_of_cons; [lia|]. apply Hmax in Hz. lia.
  - injection H as <-. split; [by left|]. destruct l as [|b l]; [|cbn in E; by repeat case_match].
    intros z [->|Hz]%elem_of_cons; [lia|by apply elem_of_nil in Hz].
Qed.

Lemma max_by_none {A} (key : A -> Z) l : max_by key l = None -> l = [].
Proof. destruct l; [done|]. cbn. by repeat case_match. Qed.

Lemma insert_sort_in {A} (key : A -> Z) (l : list A) x : x ∈ insert_sort key l -> x ∈ l.
Proof.
  assert (Hi : forall a l, x ∈ insert_by key a l -> x = a \/ x ∈ l).
  { intros a l'. induction l' as [|b l' IH]; cbn; [by intros ?%list_elem_of_singleton; left|].
    case_match; rewrite !elem_of_cons; [tauto|]. intros [->|Hx]; [auto|]. apply IH in Hx. tauto. }
  induction l as [|a l IH]; cbn; [done|]. intros [->|H]%Hi; [left|right]. by apply IH.
Qed.

Lemma insert_by_perm {A} (key : A -> Z) a (l : list A) : insert_by key a l ≡ₚ a :: l.
Proof.
  induction l as [|b l IH]; cbn; [done|]. case_match; [done|]. rewrite IH. constructor.
Qed.

Lemma insert_sort_perm {A} (key : A -> Z) (l : list A) : insert_sort key l ≡ₚ l.
Proof. induction l as [|a l IH]; cbn; [done|]. etrans; [apply insert_by_perm|]. by constructor. Qed.

Lemma insert_sort_sorted {A} (key : A -> Z) (l : list A) :
  StronglySorted (fun a b => key a <= key b) (insert_sort key l).
Proof.
  induction l as [|a l IH]; cbn; [constructor|]. fold (insert_sort key l).
  induction IH as [|b m Hm IHm Hb]; cbn; [by repeat constructor|].
  destruct (Z.leb_spec (key a) (key b)).
  - constructor; [by constructor|]. constructor; [done|]. revert Hb. apply List.Forall_impl. lia.
  - constructor; [done|]. rewrite insert_by_perm. constructor; [lia|done].
Qed.

Lemma StronglySorted_le_neg {A} (key : A -> Z) l :
  StronglySorted (fun a b => - key a <= - key b) l -> StronglySorted (fun a b => key b <= key a) l.
Proof. induction 1 as [|a l _ IH Ha]; constructor; [done|]. revert Ha. apply List.Forall_impl. lia. Qed.

#[export] Instance MemoryDatabase_laws : DatabaseLaws MemoryDatabase.
Proof.
  constructor; cbn.
  - intros w p u [= H]. apply head_Some_elem_of in H. by apply elem_of_rows.
  - intros w p i u [= H] Hu. apply head_None in H. destruct (p u) eqn:Hp; [|done].
    assert (Hin : u ∈ rows (w_users w) p) by (apply elem_of_rows; eauto).
    rewrite H in Hin. by apply elem_of_nil in Hin.
  - intros w p o l [= H]. apply max_by_some in H as [H _]. by apply elem_of_rows.
  - intros w p key l i l' [= H] Hl' Hp. apply max_by_some in H as [_ H].
    apply H, elem_of_rows. eauto.
  - intros w p o i l [= H] Hl. apply max_by_none in H. destruct (p l) eqn:Hp; [|done].
    assert (Hin : l ∈ rows (w_loans w) p) by (apply elem_of_rows; eauto).
    rewrite H in Hin. by apply elem_of_nil in Hin.
  - intros w p ls l [= <-]. apply elem_of_rows.
  - intros w p key k ls l [= <-] Hl. apply elem_of_rows.
    eapply insert_sort_in. by eapply elem_of_take in Hl as (? & ? & _); eapply list_elem_of_lookup_2.
  - by intros w p n [= <-].
  - by intros w i b [= <-].
  - by intros w p n [= <-].
  - intros w p key k us u [= <-] Hu. apply elem_of_rows.
    eapply insert_sort_in. by eapply elem_of_take in Hu as (? & ? & _); eapply list_elem_of_lookup_2.
  - intros w p key k us [= <-]. rewrite length_take. lia.
  - intros w p key ls [= <-]. apply insert_sort_perm.
  - intros w p key ls [= <-]. eapply StronglySorted_le_neg, insert_sort_sorted.
  - by intros w p us [= <-].
  - by intros w c [= <-].
  - done.
  - intros w. apply not_elem_of_dom. apply is_fresh.
  - intros w u i u' Hu Hi Hc. unfold memory_user_error. rewrite bool_decide_true; [eauto|].
    exists i, u'. done.
  - intros w l i l' Hl Hi Hc. unfold memory_loan_error. rewrite bool_decide_true; [eauto|].
    exists i, l'. done.
  - intros w l ix H. unfold memory_loan_error in H. case_bool_decide as Hx; [|done].
    destruct Hx as (i & l' & Hl & Hi & Hc). eauto.
Qed.

(** ** Symbolic execution *)

Section Rules.
  Context `{DB : Database} `{OUT : Outside}.

(** Outside a transaction a failed statement leaves the world as it is. *)
Lemma poison_NoTx w : w_tx w = NoTx -> poison w = w.
Proof. unfold poison. by intros ->. Qed.

Lemma statement_NoTx {A} (f : World -> result (A * (World -> World))) w :
  w_tx w = NoTx ->
  statement f w = match f w with Ok (a, eff) => (Ok a, eff w) | Throw e => (Throw e, w) end.
Proof. intros H. unfold statement. rewrite H. destruct (f w) as [[a eff]|e]; [done|]. by rewrite poison_NoTx. Qed.

Lemma query_NoTx {A} (f : World -> result A) w : w_tx w = NoTx -> query f w = (f w, w).
Proof. intros H. unfold query. rewrite statement_NoTx by done. by destruct (f w). Qed.

(** Inside a transaction a statement that fails aborts it. *)
Lemma statement_active {A} (f : World -> result (A * (World -> World))) w :
  w_tx w = TxActive ->
  statement f w = match f w with Ok (a, eff) => (Ok a, eff w) | Throw e => (Throw e, set_tx TxAborted w) end.
Proof. intros H. unfold statement. rewrite H. destruct (f w) as [[a eff]|e]; [done|]. unfold poison. by rewrite H. Qed.

Lemma query_active {A} (f : World -> result A) w :
  w_tx w = TxActive ->
  query f w = match f w with Ok a => (Ok a, w) | Throw e => (Throw e, set_tx TxAborted w) end.
Proof. intros H. unfold query. rewrite statement_active by done. by destruct (f w). Qed.

(** A transaction whose body keeps it active when it returns. *)
Lemma transaction_run {A} (body : M World A) w :
  w_tx w = NoTx ->
  (forall a w', body (set_tx TxActive w) = (Ok a, w') -> w_tx w' = TxActive) ->
  transaction body w =
  match body (set_tx TxActive w) with
  | (Ok a, w') => (Ok a, set_tx NoTx w')
  | (Throw e, w') => (Throw e, {| w_users := w_users w; w_loans := w_loans w; w_side := w_side w;
                                  w_tx := NoTx; w_calls := w_calls w' |})
  end.
Proof.
  intros H Hb. unfold transaction. destruct (body _) as [[a|e] w'] eqn:E.
  - by rewrite (Hb a w' eq_refl), H.
  - by rewrite H.
Qed.

(** A call that changes something outside. *)
Definition writes_chain (c : call) : bool :=
  match c with
  | CGiveCredit _ _ _ _ | CCreateOffer _ _ _ _ _ | CSetPremium _ _ | CAccrueLate _ _ | CKycCreate _
  | CSendTemplate _ _ _ | CSendText _ _ _ => true
  | _ => false
  end.

(** From [w] to [w'] nothing was written, in the tables or outside. *)
Definition reads (w w' : World) : Prop :=
  w_users w' = w_users w /\ w_loans w' = w_loans w /\ w_side w' = w_side w /\ w_tx w' = w_tx w /\
  exists evs, w_calls w' = w_calls w ++ evs /\ Forall (fun c => writes_chain c = false) evs.

Lemma reads_refl w : reads w w.
Proof. split_and!; try done. exists []. by rewrite app_nil_r. Qed.

Lemma reads_trans w1 w2 w3 : reads w1 w2 -> reads w2 w3 -> reads w1 w3.
Proof.
  intros (H1 & H2 & H3 & H4 & e1 & H5 & H6) (K1 & K2 & K3 & K4 & e2 & K5 & K6).
  split_and!; [congruence..|]. exists (e1 ++ e2). rewrite K5, H5, app_assoc. split; [done|by apply Forall_app].
Qed.

Lemma reads_log w c : writes_chain c = false -> reads w (log_call c w).
Proof. intros H. split_and!; try done. exists [c]. split; [done|by repeat constructor]. Qed.

(** The tables are as they were. *)
Definition same_tables (w w' : World) : Prop :=
  w_users w' = w_users w /\ w_loans w' = w_loans w /\ w_side w' = w_side w /\ w_tx w' = w_tx w.

Lemma same_tables_reads w w' : reads w w' -> same_tables w w'.
Proof. intros (? & ? & ? & ? & _). by split_and!. Qed.

Lemma same_tables_trans w1 w2 w3 : same_tables w1 w2 -> same_tables w2 w3 -> same_tables w1 w3.
Proof. intros (? & ? & ? & ?) (? & ? & ? & ?). split_and!; congruence. Qed.

(** The calls between two worlds that write outside. *)
Definition writes_from (w w' : World) (cs : list call) : Prop :=
  exists evs, w_calls w' = w_calls w ++ evs /\ List.filter writes_chain evs = cs.

Lemma reads_writes w w' : reads w w' -> writes_from w w' [].
Proof.
  intros (_ & _ & _ & _ & evs & H & Hf). exists evs. split; [done|]. clear H.
  induction Hf as [|c evs Hc _ IH]; [done|]. cbn. by rewrite Hc.
Qed.

Lemma writes_trans w1 w2 w3 a b : writes_from w1 w2 a -> writes_from w2 w3 b -> writes_from w1 w3 (a ++ b).
Proof.
  intros (e1 & H1 & H2) (e2 & H3 & H4). exists (e1 ++ e2). rewrite H3, H1, app_assoc.
  split; [done|]. rewrite List.filter_app. congruence.
Qed.

Lemma writes_log w c : writes_chain c = true -> writes_from w (log_call c w) [c].
Proof. intros H. exists [c]. split; [done|]. cbn. by rewrite H. Qed.

(** Outside a transaction, [m] only reads. *)
Definition only_reads {A} (m : M World A) : Prop :=
  forall w, w_tx w = NoTx -> reads w (snd (m w)).

Lemma only_reads_query {A} (f : World -> result A) : only_reads (query f).
Proof. intros w H. rewrite query_NoTx by done. apply reads_refl. Qed.

Lemma only_reads_outside {A} (f : list call -> result A) c :
  (forall r, writes_chain (c r) = false) -> only_reads (outside f c).
Proof. intros H w _. by apply reads_log. Qed.

Lemma only_reads_ret {A} (a : A) : only_reads (mret a).
Proof. intros w _. apply reads_refl. Qed.

Lemma only_reads_throw {A} e : only_reads (throw (A := A) e).
Proof. intros w _. apply reads_refl. Qed.

Lemma only_reads_lift {A} (r : result A) : only_reads (lift r).
Proof. intros w _. apply reads_refl. Qed.

Lemma only_reads_bind {A B} (m : M World A) (k : A -> M World B) :
  only_reads m -> (forall a, only_reads (k a)) -> only_reads (m ≫= k).
Proof.
  intros Hm Hk w H. specialize (Hm w H). cbv [mbind M_bind]. destruct (m w) as [[a|e] w'] eqn:E; [|done].
  cbn in Hm. eapply reads_trans; [done|]. apply Hk. destruct Hm as (_ & _ & _ & -> & _). done.
Qed.

Lemma only_reads_try {A} (m : M World A) h :
  only_reads m -> (forall e, only_reads (h e)) -> only_reads (try_catch m h).
Proof.
  intros Hm Hh w H. specialize (Hm w H). unfold try_catch. destruct (m w) as [[a|e] w'] eqn:E; [done|].
  cbn in Hm. eapply reads_trans; [done|]. apply Hh. destruct Hm as (_ & _ & _ & -> & _). done.
Qed.

Lemma only_reads_guard b e : only_reads (guard_throw b e).
Proof. destruct b; [apply only_reads_throw|apply only_reads_ret]. Qed.
End Rules.

Create HintDb reads.
#[export] Hint Resolve only_reads_query only_reads_ret only_reads_throw only_reads_lift only_reads_guard : reads.

(** Discharges [only_reads] goals by the shape of the program. *)
Ltac solve_reads :=
  repeat first
    [ solve [eauto with reads nocore]
    | apply only_reads_bind; [|intros ?]
    | apply only_reads_try; [|intros ?]
    | apply only_reads_outside; intros ?; reflexivity
    | progress case_scrut ].
