(* ===== verification/Async.v ===== *)
(** * Asynchronous methods and their interleavings

    An asynchronous method runs without interruption between two awaits: it is a
    tree of atomic operations on the shared world. [run] executes one method
    alone; [pool_step] lets any of several pending requests take its next step. *)

From stdpp Require Import base tactics list.
From Stdlib Require Import Lia.
From S2P Require Import Prelude.

(** [Await effect next]: the awaited operation turns the world [w] into
    [effect w], and the method goes on as [next w]. *)
Inductive proc (W A : Type) :=
  | Return (a : A)
  | Raise (e : exn)
  | Await (effect : W -> W) (next : W -> proc W A).
Arguments Return {W A} a.
Arguments Raise {W A} e.
Arguments Await {W A} effect next.

Fixpoint proc_bind {W A B} (k : A -> proc W B) (p : proc W A) : proc W B :=
  match p with
  | Return a => k a
  | Raise e => Raise e
  | Await effect next => Await effect (fun w => proc_bind k (next w))
  end.

#[export] Instance proc_mret {W} : MRet (proc W) := fun _ a => Return a.
#[export] Instance proc_mbind {W} : MBind (proc W) := fun _ _ k p => proc_bind k p.

Definition of_result {W A} (r : result A) : proc W A :=
  match r with Ok a => Return a | Throw e => Raise e end.

(** [await m]: the operation [m] happens in one step. *)
Definition await {W A} (m : M W A) : proc W A :=
  Await (fun w => snd (m w)) (fun w => of_result (fst (m w))).

(** The method run alone. *)
Fixpoint run {W A} (p : proc W A) : M W A := fun w =>
  match p with
  | Return a => (Ok a, w)
  | Raise e => (Throw e, w)
  | Await effect next => run (next w) (effect w)
  end.

Lemma run_await {W A} (m : M W A) w : run (await m) w = m w.
Proof. unfold await. cbn. by destruct (m w) as [[a|e] w']. Qed.

Lemma run_bind {W A B} (p : proc W A) (k : A -> proc W B) w :
  run (p ≫= k) w = match run p w with (Ok a, w') => run (k a) w' | (Throw e, w') => (Throw e, w') end.
Proof.
  unfold mbind, proc_mbind. revert w. induction p as [a|e|effect next IH]; intros w; cbn; [done|done|].
  apply IH.
Qed.

Lemma return_bind {W A B} (a : A) (k : A -> proc W B) : Return a ≫= k = k a.
Proof. done. Qed.

Lemma raise_bind {W A B} (e : exn) (k : A -> proc W B) : Raise e ≫= k = Raise e.
Proof. done. Qed.

Lemma run_await_bind {W A B} (m : M W A) (k : A -> proc W B) w :
  run (await m ≫= k) w = match m w with (Ok a, w') => run (k a) w' | (Throw e, w') => (Throw e, w') end.
Proof. rewrite run_bind. by rewrite run_await. Qed.

(** ** Several requests at once *)

Section Pool.
  Context {W A : Type}.

(** The pending requests and the world they share. *)
Definition pool : Type := list (proc W A) * W.

(** Request [i] takes its next step. *)
Definition step_request (i : nat) (c : pool) : pool :=
  match fst c !! i with
  | Some (Await effect next) => (<[i := next (snd c)]> (fst c), effect (snd c))
  | _ => c
  end.

Inductive pool_step : pool -> pool -> Prop :=
  | pool_request ps w i effect next :
      ps !! i = Some (Await effect next) -> pool_step (ps, w) (<[i := next w]> ps, effect w).

Definition run_schedule (sched : list nat) (c : pool) : pool :=
  fold_left (fun c i => step_request i c) sched c.

(** A schedule is a run of the step relation. *)
Lemma run_schedule_steps sched c : steps pool_step c (run_schedule sched c).
Proof.
  revert c. induction sched as [|i sched IH]; intros [ps w]; [constructor|].
  cbn. unfold step_request. cbn. destruct (ps !! i) as [[a|e|effect next]|] eqn:E; try apply IH.
  eapply steps_step; [by econstructor|]. apply IH.
Qed.
End Pool.
Arguments pool : clear implicits.

(** ** No endless run *)

Section Termination.
  Context {W A : Type}.

(** Some request takes a step, in some world. *)
Definition requests_step (ps' ps : list (proc W A)) : Prop :=
  exists i effect next w, ps !! i = Some (Await effect next) /\ ps' = <[i := next w]> ps.

Lemma requests_step_wf (ps : list (proc W A)) : Acc requests_step ps.
Proof.
  induction ps as [|p ps Hps]; [constructor; intros ps' (i & ? & ? & ? & Hi & _); done|].
  revert p. induction Hps as [ps _ IHps]. intros p.
  induction p as [a|e|effect next IHp]; constructor; intros ps' (i & eff & nxt & w & Hi & ->);
    (destruct i as [|i]; [try discriminate Hi|cbn; apply IHps; cbn in Hi; by exists i, eff, nxt, w]).
  cbn in Hi. injection Hi as -> ->. apply IHp.
Qed.

(** However the pending requests interleave, they come to an end. *)
Lemma pool_step_wf (c : pool W A) : Acc (fun c' c => pool_step c c') c.
Proof.
  destruct c as [ps w]. revert w. induction (requests_step_wf ps) as [ps _ IH]. intros w.
  constructor. intros c' Hc. inversion Hc as [? ? i effect next Hi]; subst. apply IH. by exists i, effect, next, w.
Qed.
End Termination.

(** ** Composition *)

(** [try { p } catch (e) { h(e) }] *)
Fixpoint proc_try {W A} (h : exn -> proc W A) (p : proc W A) : proc W A :=
  match p with
  | Return a => Return a
  | Raise e => h e
  | Await effect next => Await effect (fun w => proc_try h (next w))
  end.

(** A promise settled: its outcome as a value. *)
Fixpoint settle {W A} (p : proc W A) : proc W (result A) :=
  match p with
  | Return a => Return (Ok a)
  | Raise e => Return (Throw e)
  | Await effect next => Await effect (fun w => settle (next w))
  end.

Lemma run_settle {W A} (p : proc W A) w :
  run (settle p) w = let '(r, w') := run p w in (Ok r, w').
Proof. revert w. induction p as [a|e|eff next IH]; intros w; cbn; [done..|]. apply IH. Qed.

Lemma proc_try_run {W A} h (p : proc W A) w :
  run (proc_try h p) w = match run p w with (Ok a, w') => (Ok a, w') | (Throw e, w') => run (h e) w' end.
Proof. revert w. induction p as [a|e|eff next IH]; intros w; cbn; [done| by destruct (run (h e) w) as [[]]|apply IH]. Qed.

(** [for (const x of xs) { acc = await f(acc, x) }] *)
Fixpoint pfold {W A B} (f : B -> A -> proc W B) (acc : B) (xs : list A) : proc W B :=
  match xs with
  | [] => Return acc
  | x :: xs' => acc' ← f acc x; pfold f acc' xs'
  end.

(** ** Promises running together

    Which of the pending promises goes on next is the scheduler's choice: a finite
    list of picks, that may depend on the world; the promises still pending after
    it are finished in order. Every interleaving of their steps is the run of some
    list. *)
Class Scheduler (W : Type) := { schedule : W -> list nat }.

Fixpoint finish {W A} (ps : list (proc W A)) : proc W (list (result A)) :=
  match ps with
  | [] => Return []
  | p :: ps' => r ← settle p; rs ← finish ps'; Return (r :: rs)
  end.

Fixpoint interleave {W A} (sched : list nat) (ps : list (proc W A)) : proc W (list (result A)) :=
  match sched with
  | [] => finish ps
  | i :: sched' =>
      match ps !! i with
      | Some (Await effect next) => Await effect (fun w => interleave sched' (<[i := next w]> ps))
      | _ => interleave sched' ps
      end
  end.

(** [Promise.allSettled(ps)] *)
Definition allSettled {W A} `{Scheduler W} (ps : list (proc W A)) : proc W (list (result A)) :=
  Await id (fun w => interleave (schedule w) ps).

(** [for (let i = 0; i < xs.length; i += n) { f(acc, xs.slice(i, i + n)) }] *)
Fixpoint batches_of {A} (fuel n : nat) (xs : list A) : list (list A) :=
  match fuel, xs with
  | S fuel', _ :: _ => take n xs :: batches_of fuel' n (drop n xs)
  | _, _ => []
  end.

Definition batches {A} (n : nat) (xs : list A) : list (list A) := batches_of (length xs) n xs.

(** ** What every step of a method guarantees *)

Section Safe.
  Context {W : Type} (I : W -> Prop) (R : W -> W -> Prop).
  Context {Rrefl : Reflexive R} {Rtrans : Transitive R}.

(** In a world where [I] holds, every step keeps [I] and is in [R], and the outcome
    satisfies [Q]. *)
Fixpoint safe {A} (Q : result A -> Prop) (p : proc W A) : Prop :=
  match p with
  | Return a => Q (Ok a)
  | Raise e => Q (Throw e)
  | Await effect next => forall w, I w -> I (effect w) /\ R w (effect w) /\ safe Q (next w)
  end.

Lemma safe_mono {A} (Q Q' : result A -> Prop) p : (forall r, Q r -> Q' r) -> safe Q p -> safe Q' p.
Proof.
  intros HQ. induction p as [a|e|effect next IH]; cbn; [apply HQ..|].
  intros H w Hw. destruct (H w Hw) as (? & ? & ?). auto.
Qed.

Lemma safe_await {A} (Q : result A -> Prop) (m : M W A) :
  (forall w, I w -> I (snd (m w)) /\ R w (snd (m w)) /\ Q (fst (m w))) -> safe Q (await m).
Proof.
  intros H w Hw. destruct (H w Hw) as (? & ? & HQ). split_and!; [done..|]. by destruct (fst (m w)).
Qed.

Lemma safe_bind {A B} (Q : result B -> Prop) (k : A -> proc W B) p :
  safe (fun r => match r with Ok a => safe Q (k a) | Throw e => Q (Throw e) end) p -> safe Q (p ≫= k).
Proof.
  unfold mbind, proc_mbind. induction p as [a|e|effect next IH]; cbn; [done..|].
  intros H w Hw. destruct (H w Hw) as (? & ? & ?). auto.
Qed.

Lemma safe_try {A} (Q : result A -> Prop) h (p : proc W A) :
  safe (fun r => match r with Ok a => Q (Ok a) | Throw e => safe Q (h e) end) p -> safe Q (proc_try h p).
Proof.
  induction p as [a|e|effect next IH]; cbn; [done..|].
  intros H w Hw. destruct (H w Hw) as (? & ? & ?). auto.
Qed.

Lemma safe_settle {A} (Q : result A -> Prop) (p : proc W A) :
  safe Q p -> safe (fun r => exists o, r = Ok o /\ Q o) (settle p).
Proof.
  induction p as [a|e|effect next IH]; cbn; [eauto..|].
  intros H w Hw. destruct (H w Hw) as (? & ? & ?). auto.
Qed.

Lemma safe_pfold {A B} (Q : result B -> Prop) (P : B -> Prop) (f : B -> A -> proc W B) xs :
  (forall acc x, x ∈ xs -> P acc -> safe (fun r => match r with Ok b => P b | Throw e => Q (Throw e) end) (f acc x)) ->
  (forall b, P b -> Q (Ok b)) -> forall acc, P acc -> safe Q (pfold f acc xs).
Proof.
  intros Hf HQ. induction xs as [|x xs IH]; intros acc Hacc; cbn [pfold]; [by apply HQ|].
  apply safe_bind. eapply safe_mono; [|apply Hf; [left|done]].
  intros [b|e] Hb; [|done]. apply IH; [|done]. intros acc' y Hy. apply Hf. by right.
Qed.

Lemma safe_finish {A} (Q : result A -> Prop) (ps : list (proc W A)) :
  Forall (safe Q) ps -> safe (fun r => exists rs, r = Ok rs /\ length rs = length ps /\ Forall Q rs) (finish ps).
Proof.
  induction 1 as [|p ps Hp _ IH]; cbn [finish]; [by exists []|].
  apply safe_bind. eapply safe_mono; [|by apply safe_settle]. intros r (o & -> & Ho).
  apply safe_bind. eapply safe_mono; [|exact IH]. intros r (rs & -> & Hlen & Hrs).
  exists (o :: rs). split_and!; [done|cbn; congruence|by constructor].
Qed.

Lemma safe_interleave {A} (Q : result A -> Prop) sched (ps : list (proc W A)) :
  Forall (safe Q) ps -> safe (fun r => exists rs, r = Ok rs /\ length rs = length ps /\ Forall Q rs) (interleave sched ps).
Proof.
  revert ps. induction sched as [|i sched IH]; intros ps Hps; cbn [interleave]; [by apply safe_finish|].
  destruct (ps !! i) as [[a|e|effect next]|] eqn:Ei; [by apply IH..| |by apply IH].
  intros w Hw. pose proof (Forall_lookup_1 _ _ _ _ Hps Ei) as Hi. destruct (Hi w Hw) as (? & ? & ?).
  split_and!; [done..|]. rewrite <- (length_insert ps i (next w)). apply IH, Forall_insert; done.
Qed.

Lemma safe_allSettled {A} `{Scheduler W} (Q : result A -> Prop) (ps : list (proc W A)) :
  Forall (safe Q) ps -> safe (fun r => exists rs, r = Ok rs /\ length rs = length ps /\ Forall Q rs) (allSettled ps).
Proof. intros Hps w Hw. split_and!; [done|apply Rrefl|by apply safe_interleave]. Qed.

(** Run alone, the method takes [w] to a related world. *)
Lemma safe_run {A} (Q : result A -> Prop) (p : proc W A) w :
  safe Q p -> I w -> let '(r, w') := run p w in I w' /\ R w w' /\ Q r.
Proof.
  revert w. induction p as [a|e|effect next IH]; intros w H Hw; cbn; [split_and!; [done|apply Rrefl|done]..|].
  destruct (H w Hw) as (HI & HR & Hn). specialize (IH w (effect w) Hn HI).
  destruct (run (next w) (effect w)) as [r w']. destruct IH as (? & ? & ?). split_and!; [done| |done]. by etrans.
Qed.

(** So does any interleaving of several requests, all of which are safe. *)
Lemma safe_pool {A} (Q : result A -> Prop) (c c' : pool W A) :
  steps pool_step c c' -> Forall (safe Q) (fst c) -> I (snd c) ->
  Forall (safe Q) (fst c') /\ I (snd c') /\ R (snd c) (snd c').
Proof.
  induction 1 as [c|c1 c2 c3 Hstep _ IH]; intros Hps Hw; [split_and!; [done..|apply Rrefl]|].
  destruct Hstep as [ps w i effect next Hi]. cbn [fst snd] in *.
  pose proof (Forall_lookup_1 _ _ _ _ Hps Hi) as Hp. destruct (Hp w Hw) as (HI & HR & Hn).
  destruct IH as (? & ? & ?); [by apply Forall_insert|done|]. split_and!; [done..|by etrans].
Qed.
End Safe.

(** No guarantee on the steps: only the outcome matters. *)
Definition any_step {W} (_ _ : W) : Prop := True.

#[export] Instance any_step_refl {W} : Reflexive (@any_step W).
Proof. done. Qed.

#[export] Instance any_step_trans {W} : Transitive (@any_step W).
Proof. done. Qed.

Lemma batches_concat {A} n (xs : list A) : (0 < n)%nat -> List.concat (batches n xs) = xs.
Proof.
  intros Hn. unfold batches. assert (H : forall fuel (ys : list A), (length ys <= fuel)%nat -> List.concat (batches_of fuel n ys) = ys).
  { induction fuel as [|fuel IH]; intros ys Hys; cbn [batches_of].
    - by destruct ys; [|cbn in Hys; lia].
    - destruct ys as [|y ys]; [done|]. cbn [List.concat]. rewrite IH; [apply take_drop|].
      rewrite length_drop. cbn in *. lia. }
  by apply H.
Qed.

Lemma batches_length {A} n (xs b : list A) : b ∈ batches n xs -> (length b <= n)%nat.
Proof.
  unfold batches. generalize (length xs) at 1 as fuel. intros fuel. revert xs.
  induction fuel as [|fuel IH]; intros xs; cbn [batches_of]; [by intros ?%elem_of_nil|].
  destruct xs as [|x xs]; [by intros ?%elem_of_nil|].
  intros [->|H]%elem_of_cons; [rewrite length_take; lia|by eapply IH].
Qed.

(** ** Rely and guarantee *)

Section Since.
  Context {W : Type} (I : W -> Prop) (R : W -> W -> Prop).
  Context {Rrefl : Reflexive R} {Rtrans : Transitive R}.

(** [w0] is the world after the last step of the method. The steps of the others
    keep [I] and are in [R]; so is every step of the method, whatever world it then
    meets; and the outcome satisfies [Q] in the world after the last step. *)
Fixpoint since {A} (Q : W -> result A -> Prop) (w0 : W) (p : proc W A) {struct p} : Prop :=
  match p with
  | Return a => Q w0 (Ok a)
  | Raise e => Q w0 (Throw e)
  | Await effect next => forall w, I w -> R w0 w -> I (effect w) /\ R w (effect w) /\ since Q (effect w) (next w)
  end.

(** What a world tells for good. *)
Definition stable {A} (Q : W -> result A -> Prop) : Prop := forall w w' r, R w w' -> Q w r -> Q w' r.

Lemma since_mono {A} (Q Q' : W -> result A -> Prop) w0 p :
  (forall w r, R w0 w -> Q w r -> Q' w r) -> since Q w0 p -> since Q' w0 p.
Proof.
  revert w0. induction p as [a|e|effect next IH]; intros w0 HQ; cbn; [by apply HQ..|].
  intros H w Hw Hr. destruct (H w Hw Hr) as (? & ? & Hn). split_and!; [done..|].
  eapply IH; [|exact Hn]. intros w' r Hr'. apply HQ. etrans; [exact Hr|]. by etrans.
Qed.

Lemma since_later {A} (Q : W -> result A -> Prop) w0 w1 p : stable Q -> R w0 w1 -> since Q w0 p -> since Q w1 p.
Proof.
  intros HQ H01. destruct p as [a|e|effect next]; cbn; [by apply HQ..|].
  intros H w Hw H1. apply H; [done|]. by etrans.
Qed.

Lemma since_await {A} (Q : W -> result A -> Prop) w0 (m : M W A) :
  (forall w, I w -> R w0 w -> I (snd (m w)) /\ R w (snd (m w)) /\ Q (snd (m w)) (fst (m w))) -> since Q w0 (await m).
Proof.
  intros H w Hw Hr. destruct (H w Hw Hr) as (? & ? & HQ). split_and!; [done..|]. by destruct (fst (m w)).
Qed.

Lemma since_result {A} (Q : W -> result A -> Prop) w0 (r : result A) : Q w0 r -> since Q w0 (of_result r).
Proof. by destruct r. Qed.

Lemma since_bind {A B} (Q : W -> result B -> Prop) w0 (k : A -> proc W B) p :
  since (fun w r => match r with Ok a => since Q w (k a) | Throw e => Q w (Throw e) end) w0 p -> since Q w0 (p ≫= k).
Proof.
  unfold mbind, proc_mbind. revert w0. induction p as [a|e|effect next IH]; intros w0; cbn; [done..|].
  intros H w Hw Hr. destruct (H w Hw Hr) as (? & ? & ?). auto.
Qed.

Lemma since_try {A} (Q : W -> result A -> Prop) w0 h (p : proc W A) :
  since (fun w r => match r with Ok a => Q w (Ok a) | Throw e => since Q w (h e) end) w0 p -> since Q w0 (proc_try h p).
Proof.
  revert w0. induction p as [a|e|effect next IH]; intros w0; cbn; [done..|].
  intros H w Hw Hr. destruct (H w Hw Hr) as (? & ? & ?). auto.
Qed.

(** Run alone, from the world of its last step. *)
Lemma since_run {A} (Q : W -> result A -> Prop) w p :
  since Q w p -> I w -> let '(r, w') := run p w in I w' /\ R w w' /\ Q w' r.
Proof.
  revert w. induction p as [a|e|effect next IH]; intros w H Hw; cbn; [done..|].
  destruct (H w Hw) as (HI & HR & Hn); [done|]. specialize (IH w (effect w) Hn HI).
  destruct (run (next w) (effect w)) as [r w']. destruct IH as (? & ? & ?). split_and!; [done| |done]. by etrans.
Qed.

(** Requests that rely on each other's guarantee. *)
Lemma since_pool {A} (Q : W -> result A -> Prop) (c c' : pool W A) :
  stable Q -> steps pool_step c c' -> Forall (since Q (snd c)) (fst c) -> I (snd c) -> I (snd c') /\ R (snd c) (snd c').
Proof.
  intros HQ. induction 1 as [c|c1 c2 c3 Hstep _ IH]; intros Hps Hw; [by split|].
  destruct Hstep as [ps w i effect next Hi]. cbn [fst snd] in *.
  pose proof (Forall_lookup_1 _ _ _ _ Hps Hi) as Hp. destruct (Hp w Hw) as (HI & HR & Hn); [done|].
  destruct IH as [? ?]; [|done|split; [done|by etrans]].
  apply Forall_insert; [|done]. eapply Forall_impl; [exact Hps|]. intros p. by apply since_later.
Qed.
End Since.

(** ** Counting *)

Section Counted.
  Context {W : Type} (c : W -> nat).

(** Having counted [n] so far, the method ends with a count and an outcome that
    satisfy [G]. *)
Fixpoint counted {A} (G : nat -> result A -> Prop) (n : nat) (p : proc W A) : Prop :=
  match p with
  | Return a => G n (Ok a)
  | Raise e => G n (Throw e)
  | Await effect next => forall w, exists d, c (effect w) = (c w + d)%nat /\ counted G (n + d) (next w)
  end.

Lemma counted_mono {A} (G G' : nat -> result A -> Prop) n p :
  (forall m r, G m r -> G' m r) -> counted G n p -> counted G' n p.
Proof.
  intros HG. revert n. induction p as [a|e|effect next IH]; intros n; cbn; [apply HG..|].
  intros H w. destruct (H w) as (d & ? & ?). eauto.
Qed.

Lemma counted_run {A} (G : nat -> result A -> Prop) n (p : proc W A) w :
  counted G n p -> let '(r, w') := run p w in exists m, (c w' + n = c w + m)%nat /\ G m r.
Proof.
  revert n w. induction p as [a|e|effect next IH]; intros n w H; cbn in *; [exists n; split; [lia|done]..|].
  destruct (H w) as (d & Hd & Hn). specialize (IH w (n + d)%nat (effect w) Hn).
  destruct (run (next w) (effect w)) as [r w']. destruct IH as (m & ? & ?). exists m. split; [lia|done].
Qed.

Lemma counted_bind {A B} (G : nat -> result B -> Prop) n (k : A -> proc W B) p :
  counted (fun m r => match r with Ok a => counted G m (k a) | Throw e => G m (Throw e) end) n p ->
  counted G n (p ≫= k).
Proof.
  unfold mbind, proc_mbind. revert n. induction p as [a|e|effect next IH]; intros n; cbn; [done..|].
  intros H w. destruct (H w) as (d & ? & ?). eauto.
Qed.

Lemma counted_try {A} (G : nat -> result A -> Prop) n h (p : proc W A) :
  counted (fun m r => match r with Ok a => G m (Ok a) | Throw e => counted G m (h e) end) n p ->
  counted G n (proc_try h p).
Proof.
  revert n. induction p as [a|e|effect next IH]; intros n; cbn; [done..|].
  intros H w. destruct (H w) as (d & ? & ?). eauto.
Qed.

Lemma counted_settle {A} (G : nat -> result A -> Prop) n (p : proc W A) :
  counted G n p -> counted (fun m r => exists o, r = Ok o /\ G m o) n (settle p).
Proof.
  revert n. induction p as [a|e|effect next IH]; intros n; cbn; [eauto..|].
  intros H w. destruct (H w) as (d & ? & ?). eauto.
Qed.

Lemma counted_shift {A} (G : nat -> result A -> Prop) k n (p : proc W A) :
  counted G n p -> counted (fun m r => exists m0, m = (m0 + k)%nat /\ G m0 r) (n + k) p.
Proof.
  revert n. induction p as [a|e|effect next IH]; intros n; cbn; [eauto..|].
  intros H w. destruct (H w) as (d & ? & Hn). exists d. split; [done|].
  replace (n + k + d)%nat with (n + d + k)%nat by lia. auto.
Qed.

(** An operation that counts nothing. *)
Lemma counted_silent {A} (G : nat -> result A -> Prop) n (m : M W A) :
  (forall w, c (snd (m w)) = c w) -> (forall r, G n r) -> counted G n (await m).
Proof.
  intros Hc HG w. exists 0%nat. split; [cbn; rewrite Hc; lia|]. rewrite Nat.add_0_r.
  unfold of_result. destruct (fst (m w)); apply HG.
Qed.

(** The counts of settled promises add up, however their steps interleave. *)
Definition summed {A} (g : result A -> nat) (m : nat) (r : result (list (result A))) : Prop :=
  exists rs, r = Ok rs /\ m = list_sum (map g rs).

Lemma counted_finish {A} (g : result A -> nat) ns (ps : list (proc W A)) :
  Forall2 (counted (fun m r => m = g r)) ns ps -> counted (summed g) (list_sum ns) (finish ps).
Proof.
  induction 1 as [|n p ns ps Hp _ IH]; cbn [finish]; [by exists []|].
  apply counted_bind. eapply counted_mono; [|exact (counted_shift _ (list_sum ns) _ _ (counted_settle _ _ _ Hp))].
  intros m r (m0 & -> & o & -> & ->). apply counted_bind. rewrite Nat.add_comm.
  eapply counted_mono; [|exact (counted_shift _ (g o) _ _ IH)].
  intros m r (m0 & -> & rs & -> & ->). exists (o :: rs). split; [done|]. cbn.
  change (fold_right Init.Nat.add 0%nat (map g rs)) with (list_sum (map g rs)). lia.
Qed.

Lemma list_sum_insert ns i n d :
  ns !! i = Some n -> list_sum (<[i := (n + d)%nat]> ns) = (list_sum ns + d)%nat.
Proof.
  revert i. induction ns as [|m ns IH]; intros [|i] Hi; cbn in *; try done.
  - injection Hi as ->. lia.
  - change (fold_right Init.Nat.add 0%nat) with list_sum. rewrite IH by done. lia.
Qed.

Lemma counted_interleave {A} (g : result A -> nat) sched ns (ps : list (proc W A)) :
  Forall2 (counted (fun m r => m = g r)) ns ps -> counted (summed g) (list_sum ns) (interleave sched ps).
Proof.
  revert ns ps. induction sched as [|i sched IH]; intros ns ps Hps; cbn [interleave]; [by apply counted_finish|].
  destruct (ps !! i) as [[a|e|effect next]|] eqn:Ei; [by apply IH..| |by apply IH].
  destruct (Forall2_lookup_r _ _ _ _ _ Hps Ei) as (n & Hn & Hp). intros w.
  destruct (Hp w) as (d & Hd & Hnext). exists d. split; [done|].
  rewrite <- (list_sum_insert ns i n d Hn). apply IH. by apply Forall2_insert.
Qed.

Lemma counted_allSettled {A} `{Scheduler W} (g : result A -> nat) n (ps : list (proc W A)) :
  Forall (counted (fun m r => m = g r) 0) ps ->
  counted (fun m r => exists rs, r = Ok rs /\ m = (n + list_sum (map g rs))%nat) n (allSettled ps).
Proof.
  intros Hps w. exists 0%nat. split; [cbn; lia|].
  assert (Hz : counted (summed g) (list_sum (replicate (length ps) 0%nat)) (interleave (schedule w) ps))
    by (apply counted_interleave; induction Hps; cbn; by constructor).
  replace (list_sum (replicate (length ps) 0%nat)) with 0%nat in Hz by (induction (length ps); cbn; auto).
  rewrite Nat.add_0_r. eapply counted_mono; [|exact (counted_shift _ n _ _ Hz)].
  intros m r (m0 & -> & rs & -> & ->). exists rs. split; [done|lia].
Qed.
End Counted.

(** ** How many steps a method takes *)

Section Within.
  Context {W : Type}.

(** Whatever the worlds it meets, the method ends after at most [n] operations. *)
Fixpoint within {A} (n : nat) (p : proc W A) {struct p} : Prop :=
  match p with
  | Await effect next => match n with O => False | S n' => forall w, within n' (next w) end
  | _ => True
  end.

Lemma within_mono {A} n m (p : proc W A) : (n <= m)%nat -> within n p -> within m p.
Proof.
  revert n m. induction p as [a|e|effect next IH]; intros n m Hnm; cbn; [done..|].
  destruct n as [|n]; [by intros []|]. destruct m as [|m]; [lia|]. intros H w. apply (IH w n m); [lia|apply H].
Qed.

Lemma within_bind {A B} n m (k : A -> proc W B) p : within n p -> (forall a, within m (k a)) -> within (n + m) (p ≫= k).
Proof.
  intros Hp Hk. revert n Hp. induction p as [a|e|effect next IH]; intros n Hp.
  - change (within (n + m) (k a)). eapply within_mono; [|apply Hk]. lia.
  - done.
  - destruct n as [|n]; [done|]. intros w. apply IH, Hp.
Qed.

Lemma within_try {A} n m h (p : proc W A) : within n p -> (forall e, within m (h e)) -> within (n + m) (proc_try h p).
Proof.
  intros Hp Hh. revert n Hp. induction p as [a|e|effect next IH]; intros n Hp; cbn [proc_try].
  - done.
  - eapply within_mono; [|apply Hh]. lia.
  - destruct n as [|n]; [done|]. intros w. apply IH, Hp.
Qed.

Lemma within_await {A} (m : M W A) : within 1 (await m).
Proof. intros w. cbn. by destruct (fst (m w)). Qed.

Lemma within_result {A} n (r : result A) : within n (of_result r).
Proof. by destruct r. Qed.

Definition answered {A} (p : proc W A) : bool := match p with Await _ _ => false | _ => true end.

(** In any schedule that picks request [i] at least [n] times, it has answered. *)
Lemma within_schedule {A} n sched i (ps : list (proc W A)) w p :
  ps !! i = Some p -> within n p -> (n <= count_occ Nat.eq_dec sched i)%nat ->
  exists q, fst (run_schedule sched (ps, w)) !! i = Some q /\ answered q = true.
Proof.
  revert n ps w p. induction sched as [|j sched IH]; intros n ps w p Hi Hp Hn; cbn in Hn.
  - exists p. split; [done|]. destruct p; [done..|]. destruct n; [done|lia].
  - unfold run_schedule. cbn [fold_left]. change (fold_left _ sched ?c) with (run_schedule sched c).
    unfold step_request. cbn [fst snd]. destruct (Nat.eq_dec j i) as [->|Hne].
    + rewrite Hi. destruct p as [a|e|effect next]; [apply (IH 0%nat ps w (Return a)); done || lia|apply (IH 0%nat ps w (Raise e)); done || lia|].
      destruct n as [|n]; [done|]. apply (IH n _ _ (next w)); [|apply Hp|lia].
      apply list_lookup_insert_eq. by eapply lookup_lt_Some.
    + destruct (ps !! j) as [[a|e|effect next]|]; [by eapply IH..| |by eapply IH].
      eapply IH; [by rewrite list_lookup_insert_ne|done..].
Qed.
End Within.
