(* ===== verification/Trace.v ===== *)
(** * Processes over a trace

    A server is a function of the calls made to it so far: a method that talks to one
    is a process whose world is the list of those calls. What such a method does is
    the calls it appends, with its outcome. *)

From stdpp Require Import base tactics list strings numbers.
From Stdlib Require Import Lia ZArith.
From S2P Require Import Prelude Async.

Local Open Scope Z_scope.

Section Trace.
  Context {E : Type}.

(** A call, recorded with its answer. *)
Definition ask {A} (f : list E -> result A) (c : result A -> E) : proc (list E) A :=
  await (fun t => let r := f t in (r, t ++ [c r])).

(** A call whose answer cannot fail, and one without an answer. *)
Definition ask_value {A} (f : list E -> A) (c : A -> E) : proc (list E) A := await (fun t => (Ok (f t), t ++ [c (f t)])).
Definition note (c : E) : proc (list E) unit := await (fun t => (Ok tt, t ++ [c])).

(** ** The calls a method makes *)

(** Run alone, whatever the trace, the method appends calls to it that satisfy [P]
    together with its outcome. *)
Definition emits {A} (P : list E -> result A -> Prop) (p : proc (list E) A) : Prop :=
  forall t, exists calls, snd (run p t) = t ++ calls /\ P calls (fst (run p t)).

Lemma emits_mono {A} (P Q : list E -> result A -> Prop) p :
  (forall cs r, P cs r -> Q cs r) -> emits P p -> emits Q p.
Proof. intros H Hp t. destruct (Hp t) as (cs & ? & ?). exists cs. auto. Qed.

Lemma emits_and {A} (P Q : list E -> result A -> Prop) p : emits P p -> emits Q p -> emits (fun cs r => P cs r /\ Q cs r) p.
Proof.
  intros HP HQ t. destruct (HP t) as (cs & Ht & H1), (HQ t) as (cs' & Ht' & H2).
  rewrite Ht in Ht'. apply app_inv_head in Ht' as <-. by exists cs.
Qed.

Lemma emits_return {A} (P : list E -> result A -> Prop) a : P [] (Ok a) -> emits P (Return a).
Proof. intros H t. exists []. by rewrite app_nil_r. Qed.

Lemma emits_raise {A} (P : list E -> result A -> Prop) e : P [] (Throw e) -> emits P (Raise e).
Proof. intros H t. exists []. by rewrite app_nil_r. Qed.

Lemma emits_result {A} (P : list E -> result A -> Prop) r : P [] r -> emits P (of_result r).
Proof. destruct r; [apply emits_return|apply emits_raise]. Qed.

Lemma emits_bind {A B} (P : list E -> result B -> Prop) (p : proc (list E) A) k :
  emits (fun cs r => match r with
                     | Ok a => emits (fun cs' r' => P (cs ++ cs') r') (k a)
                     | Throw e => P cs (Throw e)
                     end) p -> emits P (p ≫= k).
Proof.
  intros H t. rewrite run_bind. specialize (H t). destruct (run p t) as [[a|e] t']; destruct H as (cs & Ht & HP); cbn in *.
  - destruct (HP t') as (cs' & Ht' & HP'). exists (cs ++ cs'). split; [by rewrite Ht', Ht, <- app_assoc|done].
  - by exists cs.
Qed.

Lemma emits_settle {A} (P : list E -> result (result A) -> Prop) p :
  emits (fun cs r => P cs (Ok r)) p -> emits P (settle p).
Proof. intros H t. rewrite run_settle. specialize (H t). destruct (run p t). exact H. Qed.

Lemma emits_try {A} (P : list E -> result A -> Prop) h p :
  emits (fun cs r => match r with
                     | Ok a => P cs (Ok a)
                     | Throw e => emits (fun cs' r' => P (cs ++ cs') r') (h e)
                     end) p -> emits P (proc_try h p).
Proof.
  intros H t. rewrite proc_try_run. specialize (H t). destruct (run p t) as [[a|e] t']; destruct H as (cs & Ht & HP); cbn in *.
  - by exists cs.
  - destruct (HP t') as (cs' & Ht' & HP'). exists (cs ++ cs'). split; [by rewrite Ht', Ht, <- app_assoc|done].
Qed.

Lemma emits_ask {A} (P : list E -> result A -> Prop) f c : (forall r, P [c r] r) -> emits P (ask f c).
Proof. intros H t. unfold ask. rewrite run_await. cbn. by exists [c (f t)]. Qed.

Lemma emits_ask_value {A} (P : list E -> result A -> Prop) f c : (forall a, P [c a] (Ok a)) -> emits P (ask_value f c).
Proof. intros H t. unfold ask_value. rewrite run_await. cbn. by exists [c (f t)]. Qed.

Lemma emits_note (P : list E -> result unit -> Prop) c : P [c] (Ok tt) -> emits P (note c).
Proof. intros H t. unfold note. rewrite run_await. by exists [c]. Qed.

(** ** Growth *)

(** Run alone, the method makes calls that satisfy [P], and no others. *)
Definition makes {A} (P : E -> Prop) (p : proc (list E) A) : Prop := emits (fun cs _ => Forall P cs) p.

Lemma makes_emits {A} (P : E -> Prop) (Q : list E -> result A -> Prop) p :
  (forall cs r, Q cs r -> Forall P cs) -> emits Q p -> makes P p.
Proof. apply emits_mono. Qed.

Lemma makes_bind {A B} P (p : proc (list E) A) (k : A -> proc (list E) B) :
  makes P p -> (forall a, makes P (k a)) -> makes P (p ≫= k).
Proof.
  intros Hp Hk. apply emits_bind. eapply emits_mono; [|exact Hp]. intros cs [a|e] Hcs; [|done].
  eapply emits_mono; [|apply Hk]. intros cs' r Hcs'. by apply Forall_app.
Qed.

Lemma makes_try {A} P h (p : proc (list E) A) : makes P p -> (forall e, makes P (h e)) -> makes P (proc_try h p).
Proof.
  intros Hp Hh. apply emits_try. eapply emits_mono; [|exact Hp]. intros cs [a|e] Hcs; [done|].
  eapply emits_mono; [|apply Hh]. intros cs' r Hcs'. by apply Forall_app.
Qed.

Lemma makes_settle {A} P (p : proc (list E) A) : makes P p -> makes P (settle p).
Proof. intros Hp. by apply emits_settle. Qed.

Lemma makes_result {A} P (r : result A) : makes P (of_result r).
Proof. by apply emits_result. Qed.

Lemma makes_return {A} P (a : A) : makes P (Return a).
Proof. by apply emits_return. Qed.

Lemma makes_raise {A} P e : makes P (Raise e : proc (list E) A).
Proof. by apply emits_raise. Qed.

Lemma makes_ask {A} (P : E -> Prop) (f : list E -> result A) c : (forall r, P (c r)) -> makes P (ask f c).
Proof. intros H. apply emits_ask. by repeat constructor. Qed.

Lemma makes_ask_value {A} (P : E -> Prop) (f : list E -> A) c : (forall a, P (c a)) -> makes P (ask_value f c).
Proof. intros H. apply emits_ask_value. by repeat constructor. Qed.

Lemma makes_note (P : E -> Prop) c : P c -> makes P (note c).
Proof. intros H. apply emits_note. by repeat constructor. Qed.

(** [for (const x of xs) ys.push(await f(x))] *)
Fixpoint pmap {A B} (f : A -> proc (list E) B) (xs : list A) : proc (list E) (list B) :=
  match xs with
  | [] => Return []
  | x :: xs' => y ← f x; ys ← pmap f xs'; Return (y :: ys)
  end.

Lemma makes_pmap {A B} P (f : A -> proc (list E) B) xs : (forall x, makes P (f x)) -> makes P (pmap f xs).
Proof.
  intros Hf. induction xs as [|x xs IH]; cbn; [apply makes_return|].
  apply makes_bind; [done|]. intros y. apply makes_bind; [done|]. intros ys. apply makes_return.
Qed.

Lemma makes_prefix {A} P (p : proc (list E) A) t : makes P p -> t `prefix_of` snd (run p t).
Proof. intros H. destruct (H t) as (cs & -> & _). by apply prefix_app_r. Qed.

(** ** Attempts *)

Section Attempts.
  Context (pause : Z -> E).

(** [for (let attempt = 1; attempt <= max; attempt++) { try { return await body() } ...
    await sleep(2000 * attempt) }], with [left] passes to go. *)
Fixpoint attempts {A} (body : proc (list E) A) (retryable : exn -> bool) (failed : exn) (left : nat) (attempt : Z)
    (lastErr : option exn) : proc (list E) A :=
  match left with
  | O => Raise (default failed lastErr)
  | S left' =>
      r ← settle body;
      match r with
      | Ok a => Return a
      | Throw e =>
          if bool_decide (left' = O) || negb (retryable e) then Raise e else
          _ ← note (pause (2000 * attempt));
          attempts body retryable failed left' (attempt + 1) (Some e)
      end
  end.

Lemma makes_attempts {A} (P : E -> Prop) (body : proc (list E) A) retryable failed n k lastErr :
  (forall ms, P (pause ms)) -> makes P body -> makes P (attempts body retryable failed n k lastErr).
Proof.
  intros Hpause Hb. revert k lastErr. induction n as [|n IH]; intros k lastErr; cbn [attempts]; [apply makes_raise|].
  apply makes_bind; [by apply makes_settle|]. intros [a|e]; [apply makes_return|].
  destruct (_ || _); [apply makes_raise|]. apply makes_bind; [by apply makes_note|]. intros _. apply IH.
Qed.

(** The passes of [attempts] that failed, each followed by its pause. *)
Fixpoint paused (k : Z) (ps : list (list E * exn)) : list E :=
  match ps with [] => [] | (cs, _) :: ps' => cs ++ pause (2000 * k) :: paused (k + 1) ps' end.

(** All the passes but the last failed and were retried; a failure worth a retry is
    given up after [n] passes. *)
Definition attempted {A} (B : list E -> result A -> Prop) (retryable : exn -> bool) (n : nat) (k : Z)
    (calls : list E) (r : result A) : Prop :=
  exists ps cl, calls = paused k ps ++ cl /\ (length ps < n)%nat /\
    Forall (fun x => B x.1 (Throw x.2) /\ retryable x.2 = true) ps /\ B cl r /\
    (forall e, r = Throw e -> retryable e = true -> S (length ps) = n).

Lemma attempts_emits {A} (B : list E -> result A -> Prop) body retryable failed n k lastErr :
  emits B body -> (0 < n)%nat -> emits (attempted B retryable n k) (attempts body retryable failed n k lastErr).
Proof.
  intros HB. revert k lastErr. induction n as [|n IH]; intros k lastErr Hn; [lia|]. cbn [attempts].
  apply emits_bind, emits_settle. eapply emits_mono; [|exact HB]. intros cs r Hr. destruct r as [a|e].
  - apply emits_return. exists [], cs. rewrite app_nil_r. split_and!; [done|cbn; lia|constructor|done|done].
  - destruct (bool_decide (n = O)) eqn:En; cbn [orb]; [|destruct (retryable e) eqn:Ee; cbn [negb]]; bool_to_prop.
    + apply emits_raise. exists [], cs. subst. rewrite app_nil_r. split_and!; [done|cbn; lia|constructor|done|done].
    + apply emits_bind, emits_note. eapply emits_mono; [|apply (IH (k + 1) (Some e)); lia].
      intros cs' r (ps & cl & -> & Hl & Hps & Hcl & Hlast). exists ((cs, e) :: ps), cl. split_and!.
      * cbn. by rewrite <- app_assoc.
      * cbn. lia.
      * by constructor.
      * done.
      * intros e' He Hr'. cbn. f_equal. by eapply Hlast.
    + apply emits_raise. exists [], cs. rewrite app_nil_r.
      split_and!; [done|cbn; lia|constructor|done|]. intros e' [= <-]. congruence.
Qed.

Lemma paused_in k ps c : c ∈ paused k ps -> (exists ms, c = pause ms) \/ exists cs e, (cs, e) ∈ ps /\ c ∈ cs.
Proof.
  revert k. induction ps as [|[cs e] ps IH]; intros k; cbn; [by intros ?%elem_of_nil|].
  intros [H|[->|H]%elem_of_cons]%elem_of_app.
  - right. exists cs, e. split; [left|done].
  - left. by eexists.
  - destruct (IH _ H) as [?|(cs' & e' & ? & ?)]; [by left|]. right. exists cs', e'. split; [by right|done].
Qed.

Lemma attempted_in {A} (B : list E -> result A -> Prop) retryable n k calls r c :
  attempted B retryable n k calls r -> c ∈ calls -> (exists ms, c = pause ms) \/ exists cs r', B cs r' /\ c ∈ cs.
Proof.
  intros (ps & cl & -> & _ & Hps & Hcl & _) [H|H]%elem_of_app; [|right; eauto].
  destruct (paused_in _ _ _ H) as [?|(cs & e & Hin & ?)]; [by left|].
  destruct (proj1 (list.Forall_forall _ _) Hps _ Hin) as [? _]. right. eauto.
Qed.
End Attempts.
End Trace.
#[global] Arguments emits : simpl never.

Create HintDb emits.
#[export] Hint Resolve emits_return emits_raise emits_result emits_ask emits_ask_value emits_note : emits.

(** One step of symbolic execution of an [emits] goal. *)
Ltac emits_step :=
  lazymatch goal with
  | |- emits _ (_ ≫= _) => apply emits_bind
  | |- emits _ (proc_try _ _) => apply emits_try
  | |- emits _ (settle _) => apply emits_settle
  | |- emits _ (of_result _) => apply emits_result
  | |- emits _ (Return _) => apply emits_return
  | |- emits _ (mret _) => apply emits_return
  | |- emits _ (Raise _) => apply emits_raise
  | |- emits _ (ask _ _) => apply emits_ask; intro
  | |- emits _ (ask_value _ _) => apply emits_ask_value; intro
  | |- emits _ (note _) => apply emits_note
  end.

(** The method appends to the trace. *)
Abbreviation appends := (makes (fun _ => True)).

Create HintDb makes.
#[export] Hint Resolve makes_result makes_return makes_raise makes_ask makes_ask_value makes_note
  makes_settle makes_attempts : makes.

Ltac solve_makes :=
  repeat first
    [ solve [auto with makes]
    | apply makes_bind; [|intros ?]
    | apply makes_try; [|intros ?]
    | apply makes_settle
    | apply makes_attempts; [done|]
    | apply makes_pmap; intros ?
    | match goal with |- makes _ (match ?x with _ => _ end) => destruct x end ].
