(* ===== verification/Judgements.v ===== *)
(** * Judgements about processes

    [does] and [holds] say what an operation and a process guarantee while others
    run in between: they keep an invariant, every step is in a relation, and facts
    that the relation leaves true may be used after any await. [zoom] embeds the
    process of a component in a larger world. *)

From stdpp Require Import base tactics list.
From S2P Require Import Prelude Async.

(** ** Processes of a component *)

Section Zoom.
  Context {S W : Type} (get : S -> W) (put : W -> S -> S).

(** The process of a component, in a world that holds the component's. *)
Fixpoint zoom {A} (p : proc W A) : proc S A :=
  match p with
  | Return a => Return a
  | Raise e => Raise e
  | Await effect next => Await (fun s => put (effect (get s)) s) (fun s => zoom (next (get s)))
  end.

Context (get_put : forall w s, get (put w s) = w).

(** Alone it does what the component's process does. *)
Lemma zoom_run {A} (p : proc W A) s :
  get (snd (run (zoom p) s)) = snd (run p (get s)) /\ fst (run (zoom p) s) = fst (run p (get s)).
Proof.
  revert s. induction p as [a|e|effect next IH]; intros s; cbn; [done..|].
  destruct (IH (get s) (put (effect (get s)) s)) as [H1 H2]. by rewrite H1, H2, get_put.
Qed.

(** What the component's process guarantees, when the others keep to it. *)
Lemma zoom_since {A} (I : W -> Prop) (R : W -> W -> Prop) (IS : S -> Prop) (RS : S -> S -> Prop)
    (Q : W -> result A -> Prop) s0 p :
  (forall s, IS s -> I (get s)) -> (forall s s', RS s s' -> R (get s) (get s')) ->
  (forall s w, IS s -> I w -> R (get s) w -> IS (put w s) /\ RS s (put w s)) ->
  since I R Q (get s0) p -> since IS RS (fun s => Q (get s)) s0 (zoom p).
Proof.
  intros HI HR Hput. revert s0. induction p as [a|e|effect next IH]; intros s0; cbn; [done..|].
  intros H s Hs Hr. destruct (H (get s)) as (H1 & H2 & H3); [by apply HI|by apply HR|].
  destruct (Hput s (effect (get s))) as [? ?]; [done..|]. split_and!; [done..|]. apply IH. by rewrite get_put.
Qed.
End Zoom.

(** ** Judgements *)

Section Judgements.
  Context {W : Type} (I : W -> Prop) (R : W -> W -> Prop) {Rrefl : Reflexive R} {Rtrans : Transitive R}.

(** A fact the steps of the others leave true. *)
Definition steady (K : W -> Prop) : Prop := forall w w', R w w' -> K w -> K w'.

(** The operation keeps the invariant and the relation, and answers [Q]. *)
Definition does {A} (K : W -> Prop) (Q : W -> A -> Prop) (m : M W A) : Prop :=
  forall w, I w -> K w -> I (snd (m w)) /\ R w (snd (m w)) /\ forall a, fst (m w) = Ok a -> Q (snd (m w)) a.

(** So does the process, whatever runs between its operations. *)
Definition holds {A} (K : W -> Prop) (Q : A -> Prop) (p : proc W A) : Prop :=
  forall w0, K w0 -> since I R (fun _ r => match r with Ok a => Q a | Throw _ => True end) w0 p.

Lemma does_ret {A} K (Q : W -> A -> Prop) a : (forall w, K w -> Q w a) -> does K Q (mret a).
Proof. intros HQ w Hw HK. split_and!; [done|done|]. intros b Hb. injection Hb as <-. by apply HQ. Qed.

Lemma does_throw {A} K (Q : W -> A -> Prop) e : does K Q (throw e).
Proof. intros w Hw HK. by split_and!. Qed.

Lemma does_lift {A} K (r : result A) : does K (fun _ a => r = Ok a) (lift r).
Proof. intros w Hw HK. by split_and!. Qed.

Lemma does_guard K b e : does K (fun _ _ => True) (guard_throw b e).
Proof. intros w Hw HK. by destruct b. Qed.

Lemma does_mono {A} (K K' : W -> Prop) (Q Q' : W -> A -> Prop) m :
  (forall w, K' w -> K w) -> (forall w a, Q w a -> Q' w a) -> does K Q m -> does K' Q' m.
Proof. intros HK HQ Hm w Hw Hk. destruct (Hm w Hw (HK w Hk)) as (? & ? & ?). split_and!; auto. Qed.

Lemma does_any {A} K (Q : W -> A -> Prop) m : does K Q m -> does K (fun _ _ => True) m.
Proof. by apply does_mono. Qed.

(** What the operation answers is what the rest starts from. *)
Lemma does_bind {A B} K (Q1 : W -> A -> Prop) (Q : W -> B -> Prop) (m : M W A) k :
  does K Q1 m -> (forall a, does (fun w => Q1 w a) Q (k a)) -> does K Q (m ≫= k).
Proof.
  intros Hm Hk w Hw HK. destruct (Hm w Hw HK) as (HI & HR & HQ). cbv [mbind M_bind].
  destruct (m w) as [[a|e] w']; cbn [fst snd] in *; [|by split_and!].
  destruct (Hk a w' HI (HQ a eq_refl)) as (? & ? & ?). split_and!; [done|by etrans|done].
Qed.

Lemma does_seq {A B} K (Q : W -> B -> Prop) (m : M W A) k :
  steady K -> does K (fun _ _ => True) m -> (forall a, does K Q (k a)) -> does K Q (m ≫= k).
Proof.
  intros HK Hm Hk. apply (does_bind K (fun w _ => K w)); [|done].
  intros w Hw Hw0. destruct (Hm w Hw Hw0) as (? & ? & _). split_and!; [done..|]. intros a _. by eapply HK.
Qed.

Lemma does_try {A} K (Q : W -> A -> Prop) m h :
  steady K -> does K Q m -> (forall e, does K Q (h e)) -> does K Q (try_catch m h).
Proof.
  intros HK Hm Hh w Hw Hw0. destruct (Hm w Hw Hw0) as (HI & HR & HQ). unfold try_catch.
  destruct (m w) as [[a|e] w']; cbn [fst snd] in *; [by split_and!|].
  destruct (Hh e w' HI) as (? & ? & ?); [by eapply HK|]. split_and!; [done|by etrans|done].
Qed.

Lemma holds_return {A} K (Q : A -> Prop) a : Q a -> holds K Q (Return a).
Proof. by intros HQ w HK. Qed.

Lemma holds_raise {A} K (Q : A -> Prop) e : holds K Q (Raise e).
Proof. by intros w HK. Qed.

Lemma holds_result {A} K (r : result A) : holds K (fun a => r = Ok a) (of_result r).
Proof. intros w HK. by destruct r. Qed.

Lemma holds_mono {A} (K K' : W -> Prop) (Q Q' : A -> Prop) p :
  (forall w, K' w -> K w) -> (forall a, Q a -> Q' a) -> holds K Q p -> holds K' Q' p.
Proof.
  intros HK HQ Hp w Hw. eapply since_mono; [exact Rrefl|exact Rtrans| |apply Hp, HK, Hw]. intros w' [a|e] _; auto.
Qed.

Lemma holds_any {A} K (Q : A -> Prop) p : holds K Q p -> holds K (fun _ => True) p.
Proof. by apply holds_mono. Qed.

Lemma holds_fact {A} (K : W -> Prop) (F : Prop) (Q : A -> Prop) p : (F -> holds K Q p) -> holds (fun w => K w /\ F) Q p.
Proof. intros H w [HK HF]. by apply H. Qed.

(** The rest starts from what the operation found. *)
Lemma holds_learn {A B} K (Q1 : W -> A -> Prop) (Q : B -> Prop) (m : M W A) k :
  steady K -> does K Q1 m -> (forall a, holds (fun w => Q1 w a) Q (k a)) -> holds K Q (await m ≫= k).
Proof.
  intros HK Hm Hk w0 Hw0. apply since_bind, since_await. intros w Hw HR.
  destruct (Hm w Hw) as (? & ? & HQ); [by eapply HK|]. split_and!; [done..|].
  destruct (fst (m w)) as [a|e]; [|done]. by apply Hk, HQ.
Qed.

Lemma holds_bind {A B} K (Q1 : A -> Prop) (Q : B -> Prop) p (k : A -> proc W B) :
  steady K -> holds K Q1 p -> (forall a, Q1 a -> holds K Q (k a)) -> holds K Q (p ≫= k).
Proof.
  intros HK Hp Hk w0 Hw0. apply since_bind. eapply since_mono; [exact Rrefl|exact Rtrans| |apply Hp, Hw0].
  intros w [a|e] HR H; [|done]. apply Hk; [done|by eapply HK].
Qed.

Lemma holds_await {A} K (Q : A -> Prop) m : steady K -> does K (fun _ => Q) m -> holds K Q (await m).
Proof.
  intros HK Hm w0 Hw0. apply since_await. intros w Hw HR. destruct (Hm w Hw) as (? & ? & HQ); [by eapply HK|].
  split_and!; [done..|]. destruct (fst (m w)); auto.
Qed.

Lemma holds_try {A} K (Q : A -> Prop) h p : steady K -> holds K Q p -> (forall e, holds K Q (h e)) -> holds K Q (proc_try h p).
Proof.
  intros HK Hp Hh w0 Hw0. apply since_try. eapply since_mono; [exact Rrefl|exact Rtrans| |apply Hp, Hw0].
  intros w [a|e] HR H; [done|]. apply Hh. by eapply HK.
Qed.

Lemma holds_assoc {A B C} K (Q : C -> Prop) (p : proc W A) (f : A -> proc W B) (k : B -> proc W C) :
  holds K Q (p ≫= fun x => f x ≫= k) -> holds K Q ((p ≫= f) ≫= k).
Proof.
  intros H w0 Hw0. specialize (H w0 Hw0). clear Hw0. unfold mbind, proc_mbind in *. revert w0 H.
  induction p as [x|e|effect next IH]; intros w0 H; cbn in *; [done..|].
  intros w Hw HR. destruct (H w Hw HR) as (? & ? & ?). auto.
Qed.

Lemma holds_settle {A} K (Q : A -> Prop) (p : proc W A) :
  steady K -> holds K Q p -> holds K (fun r => match r with Ok a => Q a | Throw _ => True end) (settle p).
Proof.
  intros HK Hp w0 Hw0. unfold settle. pose proof (Hp w0 Hw0) as H. clear Hp Hw0 HK. revert w0 H.
  induction p as [a|e|effect next IH]; intros w0 H; cbn in *; [done..|].
  intros w Hw HR. destruct (H w Hw HR) as (? & ? & ?). auto.
Qed.
End Judgements.
