(* ===== verification/Kyc.v ===== *)
(** * Identity verification ([backend/src/kyc])

    The gate ([kyc-gate.ts]), the service that starts and refreshes a
    verification ([kyc.service.ts]) and the sandbox provider
    ([fake-kyc.provider.ts]). The persisted status follows none, pending,
    approved or rejected; the service's methods are asynchronous, so they are
    modelled as trees of atomic operations. *)

From stdpp Require Import base tactics list gmap strings numbers.
From Stdlib Require Import Lia ZArith Ascii.
From S2P Require Import Prelude JsString JsNum Strkey Entities Gateway Store Async.

Local Open Scope Z_scope.

(** ** The gate *)

(** [process.env.KYC_GATE_ENABLED] is an argument. *)
Definition kycGateEnabled (KYC_GATE_ENABLED : option string) : bool :=
  bool_decide (toLowerCase (default ""%string KYC_GATE_ENABLED) = "true"%string).

Definition assertKycGate (KYC_GATE_ENABLED : option string) (u : User) : result unit :=
  if negb (kycGateEnabled KYC_GATE_ENABLED) then Ok tt
  else if bool_decide (kycStatus (kyc u) = "approved"%string) then Ok tt
  else Throw (ForbiddenException "KYC required before operating the credit line").

(** ** The sandbox provider *)

Module FakeKycProvider.
(** The sessions map of the provider. *)
Definition sessions := gmap string KycDecision.

(** [randomUUID()] is an argument. *)
Definition createSession (uuid wallet : string) (s : sessions) : KycSession * sessions :=
  let sid := ("fake-" +:+ uuid)%string in
  ({| sessionId := sid; verificationUrl := "https://kyc.invalid/fake/" +:+ sid +:+ "?wallet=" +:+ wallet |}%string,
   <[sid := KycPending]> s).

Definition getDecision (KYC_FAKE_AUTO_APPROVE : option string) (sid : string) (s : sessions) : KycDecision :=
  if bool_decide (toLowerCase (default ""%string KYC_FAKE_AUTO_APPROVE) = "true"%string) then KycApproved
  else default KycPending (s !! sid).

Definition resolve (sid : string) (decision : KycDecision) (s : sessions) : sessions := <[sid := decision]> s.
End FakeKycProvider.

(** ** The service *)

Record KycStart := {
  start_status : string;
  start_sessionId : option string;
  start_verificationUrl : option string;
}.

(** [where: { walletAddress: wallet }]. *)
Definition by_wallet (wallet : string) (u : User) : bool := bool_decide (walletAddress u = wallet).

(** [user.kycSessionId] is truthy. *)
Definition has_session (u : User) : bool :=
  match kycSessionId (kyc u) with Some s => negb (bool_decide (s = ""%string)) | None => false end.

Section Service.
  Context `{DB : Database} `{OUT : Outside}.

Definition findUserOrThrow (walletAddress : string) : proc World User :=
  wallet ← of_result (normalizeWallet walletAddress);
  user ← await (find_user (by_wallet wallet));
  of_result (result_of_option (NotFoundException "User not found") user).

Definition patch_pending (session : string) (u : User) : User :=
  with_kyc u {| kycStatus := "pending"; kycSessionId := Some session; kycProvider := Some kyc_name;
                kycApprovedAt := kycApprovedAt (kyc u) |}.

Definition patch_approved (now : Z) (u : User) : User :=
  with_kyc u {| kycStatus := "approved"; kycSessionId := kycSessionId (kyc u);
                kycProvider := kycProvider (kyc u); kycApprovedAt := Some now |}.

Definition patch_rejected (u : User) : User :=
  with_kyc u {| kycStatus := "rejected"; kycSessionId := None; kycProvider := kycProvider (kyc u);
                kycApprovedAt := kycApprovedAt (kyc u) |}.

Definition start (walletAddress : string) : proc World KycStart :=
  user ← findUserOrThrow walletAddress;
  if bool_decide (kycStatus (kyc user) = "approved"%string)
  then mret {| start_status := "approved"; start_sessionId := None; start_verificationUrl := None |}
  else if bool_decide (kycStatus (kyc user) = "pending"%string) && has_session user
  then mret {| start_status := "pending"; start_sessionId := kycSessionId (kyc user);
               start_verificationUrl := None |}
  else
    session ← await (createSession (Entities.walletAddress user));
    _ ← await (update_user (user_id user) (patch_pending (sessionId session)));
    mret {| start_status := "pending"; start_sessionId := Some (sessionId session);
            start_verificationUrl := Some (verificationUrl session) |}.

Definition kyc_status (walletAddress : string) : proc World string :=
  user ← findUserOrThrow walletAddress;
  if negb (bool_decide (kycStatus (kyc user) = "pending"%string)) || negb (has_session user)
  then mret (kycStatus (kyc user))
  else
    decision ← await (getDecision (default ""%string (kycSessionId (kyc user))));
    match decision with
    | KycApproved =>
        _ ← await (now ← date_now; update_user (user_id user) (patch_approved now));
        mret "approved"%string
    | KycRejected =>
        _ ← await (update_user (user_id user) patch_rejected);
        mret "rejected"%string
    | KycPending => mret "pending"%string
    end.

(** ** Specification vocabulary *)

(** The legal changes of a user's KYC columns, given the calls of the request. *)
Inductive kyc_edge (calls : list call) (k : KycColumns) : KycColumns -> Prop :=
  | ke_start s :
      kycStatus k <> "approved"%string -> ~ (kycStatus k = "pending"%string /\ exists s0, kycSessionId k = Some s0 /\ s0 <> ""%string) ->
      kyc_edge calls k {| kycStatus := "pending"; kycSessionId := Some s; kycProvider := Some kyc_name;
                          kycApprovedAt := kycApprovedAt k |}
  | ke_approve s t :
      kycStatus k = "pending"%string -> kycSessionId k = Some s -> CKycDecision s (Ok KycApproved) ∈ calls ->
      kyc_edge calls k {| kycStatus := "approved"; kycSessionId := Some s; kycProvider := kycProvider k;
                          kycApprovedAt := Some t |}
  | ke_reject s :
      kycStatus k = "pending"%string -> kycSessionId k = Some s -> CKycDecision s (Ok KycRejected) ∈ calls ->
      kyc_edge calls k {| kycStatus := "rejected"; kycSessionId := None; kycProvider := kycProvider k;
                          kycApprovedAt := kycApprovedAt k |}.

(** What a request for the wallet [a] may do to the world. *)
Definition kyc_effect (a : string) (w w' : World) : Prop :=
  w_loans w' = w_loans w /\ w_tx w' = NoTx /\
  exists calls, w_calls w' = w_calls w ++ calls /\
    forall i, w_users w' !! i = w_users w !! i \/
      exists u u', w_users w !! i = Some u /\ w_users w' !! i = Some u' /\
        normalizeWallet a = Ok (walletAddress u) /\ u' = with_kyc u (kyc u') /\
        kyc_edge calls (kyc u) (kyc u').

(** ** Lemmas *)

Context {LAWS : DatabaseLaws DB}.

Lemma kyc_effect_refl a w : w_tx w = NoTx -> kyc_effect a w w.
Proof. intros H. split_and!; [done|done|]. exists []. rewrite app_nil_r. split; [done|by left]. Qed.

Lemma kyc_effect_calls a w c : w_tx w = NoTx -> kyc_effect a w (log_call c w).
Proof. intros H. split_and!; [done|done|]. exists [c]. split; [done|by left]. Qed.

(** The lookup that opens both methods. *)
Lemma run_findUser {A} a (k : User -> proc World A) w :
  w_tx w = NoTx ->
  (exists e, run (findUserOrThrow a ≫= k) w = (Throw e, w)) \/
  exists i u, w_users w !! i = Some u /\ normalizeWallet a = Ok (walletAddress u) /\
    run (findUserOrThrow a ≫= k) w = run (k u) w.
Proof.
  intros Htx. unfold findUserOrThrow. rewrite run_bind.
  destruct (normalizeWallet a) as [wal|e] eqn:Ea; [|left; by eexists].
  cbn [of_result]. rewrite return_bind, run_await_bind.
  unfold find_user. rewrite query_NoTx by done.
  destruct (db_find_user w (by_wallet wal)) as [[u|]|e] eqn:Eu; cbn; [|left; by eexists..].
  right. apply find_user_some in Eu as (i & Hu & Hp). exists i, u. unfold by_wallet in Hp. bool_to_prop.
  split_and!; [done|by rewrite Hp|done].
Qed.

(** Writing the row of the user by its id, when the patch is a legal change. *)
Lemma update_effect a i u patch k' w calls :
  tables_ok w -> w_tx w = NoTx -> w_users w !! i = Some u -> normalizeWallet a = Ok (walletAddress u) ->
  patch u = with_kyc u k' -> kyc_edge calls (kyc u) k' ->
  forall w1, w_users w1 = w_users w -> w_loans w1 = w_loans w -> w_tx w1 = NoTx -> w_calls w1 = w_calls w ++ calls ->
  kyc_effect a w (snd (update_user (user_id u) patch w1)).
Proof.
  intros [Hok _] Htx Hu Ha Hp He w1 Hus Hls Htx1 Hc. unfold update_user. rewrite statement_NoTx by done.
  pose proof (Hok i u Hu) as ->. rewrite Hus, Hu.
  destruct (db_user_error w1 (patch u)); cbn.
  { split_and!; [done|done|]. exists calls. rewrite Hus. split; [done|by left]. }
  split_and!; [done|done|]. exists calls. split; [done|]. intros j. cbn. rewrite Hus.
  destruct (decide (j = i)) as [->|Hne]; [right|left; by rewrite lookup_insert_ne].
  exists u, (patch u). rewrite lookup_insert_eq. rewrite Hp. by split_and!.
Qed.

Lemma has_session_spec u : has_session u = true <-> exists s, kycSessionId (kyc u) = Some s /\ s <> ""%string.
Proof.
  unfold has_session. destruct (kycSessionId (kyc u)) as [s|]; [|naive_solver].
  rewrite negb_true_iff, bool_decide_eq_false. naive_solver.
Qed.

Ltac find_the_user Htx i u Hu Ha :=
  match goal with |- context [run (findUserOrThrow ?a ≫= ?k) ?w] =>
    destruct (run_findUser a k w Htx) as [(? & ->)|(i & u & Hu & Ha & ->)]
  end.

Lemma start_effect a w : tables_ok w -> w_tx w = NoTx -> kyc_effect a w (snd (run (start a) w)).
Proof.
  intros Hok Htx. unfold start.
  find_the_user Htx i u Hu Ha; [by apply kyc_effect_refl|].
  case_bool_decide as Hap; [by apply kyc_effect_refl|].
  destruct (bool_decide _ && has_session u) eqn:Es; [by apply kyc_effect_refl|].
  rewrite run_await_bind. unfold createSession, outside.
  destruct (kyc_createSession _ _) as [session|e]; [|by apply kyc_effect_calls].
  rewrite run_await_bind. set (w1 := log_call _ _).
  enough (kyc_effect a w (snd (update_user (user_id u) (patch_pending (sessionId session)) w1))) as Hg.
  { destruct (update_user (user_id u) (patch_pending (sessionId session)) w1) as [[?|?] ?]; exact Hg. }
  eapply (update_effect a i u _ _ w [CKycCreate (walletAddress u)]); try done.
  apply ke_start; [done|]. intros (Hp & Hs). apply has_session_spec in Hs. rewrite Hs in Es.
  rewrite bool_decide_true in Es by done. done.
Qed.

Lemma status_effect a w : tables_ok w -> w_tx w = NoTx -> kyc_effect a w (snd (run (kyc_status a) w)).
Proof.
  intros Hok Htx. unfold kyc_status.
  find_the_user Htx i u Hu Ha; [by apply kyc_effect_refl|].
  destruct (negb _ || negb _) eqn:Es; [by apply kyc_effect_refl|]. bool_to_prop.
  match goal with H : has_session u = true |- _ => apply has_session_spec in H as (s & Hs & Hne) end.
  rewrite run_await_bind. rewrite Hs. cbn [default]. unfold getDecision, outside.
  destruct (kyc_getDecision _ _) as [[| |]|e] eqn:Ed; try (by apply kyc_effect_calls); rewrite run_await_bind.
  - set (w1 := log_call _ w). cbv [mbind M_bind date_now outside].
    set (now := now_ms _). set (c1 := CNow _).
    enough (kyc_effect a w (snd (update_user (user_id u) (patch_approved now) (log_call c1 w1)))) as Hg.
    { destruct (update_user (user_id u) (patch_approved now) (log_call c1 w1)) as [[?|?] ?]; exact Hg. }
    eapply (update_effect a i u _ _ w [CKycDecision s (Ok KycApproved); c1]); try done.
    + rewrite Hs. eapply ke_approve; [done|done|left].
    + cbn. by rewrite <- app_assoc.
  - set (w1 := log_call _ w).
    enough (kyc_effect a w (snd (update_user (user_id u) patch_rejected w1))) as Hg.
    { destruct (update_user (user_id u) patch_rejected w1) as [[?|?] ?]; exact Hg. }
    eapply (update_effect a i u _ _ w [CKycDecision s (Ok KycRejected)]); try done.
    eapply ke_reject; [done|done|left].
Qed.

Lemma approved_no_edge calls k k' : kycStatus k = "approved"%string -> ~ kyc_edge calls k k'.
Proof. intros H He. destruct He; congruence. Qed.

Lemma approved_untouched a w w' i u :
  kyc_effect a w w' -> w_users w !! i = Some u -> kycStatus (kyc u) = "approved"%string ->
  w_users w' !! i = Some u.
Proof.
  intros (_ & _ & calls & _ & H) Hu Hs. destruct (H i) as [->|(u0 & u' & Hu0 & _ & _ & _ & He)]; [done|].
  assert (u0 = u) as -> by congruence. by apply approved_no_edge in He.
Qed.

(** One request, run to completion. *)
Inductive kyc_request : World -> World -> Prop :=
  | req_start a w : kyc_request w (snd (run (start a) w))
  | req_status a w : kyc_request w (snd (run (kyc_status a) w)).

(** Who is approved was approved by the vendor, in the user's own session. *)
Definition approvals_backed (w : World) : Prop :=
  tables_ok w /\ w_tx w = NoTx /\
  forall i u, w_users w !! i = Some u -> kycStatus (kyc u) = "approved"%string ->
    exists s, kycSessionId (kyc u) = Some s /\ CKycDecision s (Ok KycApproved) ∈ w_calls w.

Lemma effect_tables_ok a w w' : kyc_effect a w w' -> tables_ok w -> tables_ok w'.
Proof.
  intros (Hl & _ & calls & _ & H) [Hu1 Hl1]. split; [|by rewrite Hl]. intros i u' Hi.
  destruct (H i) as [E|(u & u2 & E1 & E2 & _ & E3 & _)].
  - rewrite Hi in E. by apply (Hu1 i).
  - assert (u2 = u') as -> by congruence. rewrite E3. exact (Hu1 i u E1).
Qed.

Lemma effect_backed a w w' : kyc_effect a w w' -> approvals_backed w -> approvals_backed w'.
Proof.
  intros He (Hok & Htx & Hb). pose proof He as (_ & Htx' & calls & Hc & H).
  split_and!; [by eapply effect_tables_ok|done|]. intros i u' Hi Hs.
  destruct (H i) as [E|(u & u2 & E1 & E2 & _ & E3 & Hedge)].
  - rewrite Hi in E. destruct (Hb i u' (eq_sym E) Hs) as (s & ? & ?). exists s. split; [done|].
    rewrite Hc. apply elem_of_app. by left.
  - assert (u2 = u') as -> by congruence. destruct Hedge as [s ? ?|s t ? Hsid Hin|s ? ? ?]; try done.
    exists s. split; [done|]. rewrite Hc. apply elem_of_app. by right.
Qed.

(** ** Properties *)

(** The KYC requests only make legal moves. Run on any consistent database,
    [start] and [status] leave every loan, every other user and every other
    column alone, and change the user's KYC columns only from not-approved to
    pending with a fresh session (never while a session is open), or from pending
    to approved or rejected when the vendor answered that decision for the
    session on the row. In particular an approved user stays approved. *)
Theorem kyc_requests_legal (a : string) (w : World) (Hok : tables_ok w) (Htx : w_tx w = NoTx) :
  kyc_effect a w (snd (run (start a) w)) /\
  kyc_effect a w (snd (run (kyc_status a) w)) /\
  forall i u, w_users w !! i = Some u -> kycStatus (kyc u) = "approved"%string ->
    w_users (snd (run (start a) w)) !! i = Some u /\ w_users (snd (run (kyc_status a) w)) !! i = Some u.
Proof.
  pose proof (start_effect a w Hok Htx). pose proof (status_effect a w Hok Htx).
  split_and!; [done|done|]. intros i u Hu Hs. split; by eapply approved_untouched.
Qed.

(** The gate is worth the vendor's word: starting from a database where every
    approval is backed by the vendor (for instance one with no approved user),
    after any number of complete requests by anybody, a user who passes the
    enabled gate is one for whom the vendor answered "approved" for the session
    on the user's row. *)
Theorem gate_needs_vendor_approval (w w' : World) (flag : option string) (i : Z) (u : User)
    (Hb : approvals_backed w) (Hsteps : steps kyc_request w w')
    (Hu : w_users w' !! i = Some u) (Hflag : kycGateEnabled flag = true)
    (Hgate : assertKycGate flag u = Ok tt) :
  exists s, kycSessionId (kyc u) = Some s /\ CKycDecision s (Ok KycApproved) ∈ w_calls w'.
Proof.
  assert (Hb' : approvals_backed w').
  { refine (steps_invariant _ approvals_backed _ w w' Hsteps Hb).
    intros s s' Hstep Hinv. pose proof Hinv as (? & ? & _).
    destruct Hstep; (eapply effect_backed; [|done]); [by apply start_effect|by apply status_effect]. }
  unfold assertKycGate in Hgate. rewrite Hflag in Hgate. cbn in Hgate.
  case_bool_decide as Hs; [|done]. destruct Hb' as (_ & _ & Hb'). by eapply Hb'.
Qed.
End Service.

(** ** A concrete run *)

Definition sample_wallet : string := "GDCZFUNJ7MXWBIQ6UUTJRGZIJF5EMRVJCSK73MA2U7K57GWMA4N3P6SL".

Definition sample_user : User := {|
  user_id := 1; walletAddress := sample_wallet;
  onboarding := {| platform := Some "webapp"%string; email := Some "a@b.c"%string; workType := Some "other_job"%string;
                   termsAcceptedAt := Some 0; waitlistJoinedAt := None; earlyAccessNotifiedAt := None;
                   waitlistPriority := 0; createdAt := 0 |};
  credit := {| creditLimit := None; score := None; xp := 1; riskDecision := None; riskPDefault := None;
               walletQuality := None; hadDefaultEver := false; defaultsCount := 0 |};
  phone_columns := {| phone := Some "+5491100000000"%string; phoneVerifiedAt := Some 0;
                      lastPhoneOtpSentAt := None; phoneOtpCode := None; phoneOtpExpiresAt := None;
                      phoneOtpAttemptCount := 0 |};
  kyc := {| kycStatus := "none"; kycSessionId := None; kycProvider := None; kycApprovedAt := None |} |}.

Definition sample_world : World :=
  {| w_users := {[ 1 := sample_user ]}; w_loans := ∅; w_side := no_side; w_tx := NoTx; w_calls := [] |}.

(** An outside where every chain read fails and the vendor opens session "s1",
    then "s2", and approves everything. *)
Definition vendor : Outside :=
  let down {A} : result A := Throw (PlainError "rpc") in
  {| gw_readCreditLimit _ _ := down; gw_readNextBorrowTime := None; gw_giveCredit _ _ _ _ := down;
     gw_createOffer _ _ _ _ _ := down; gw_previewLate _ _ := down; gw_readLoan _ _ := down;
     gw_readLoanFull _ _ := down; gw_readPremium _ _ := down; gw_readIsDefaulted _ _ := down;
     gw_chainTimestamp _ := down; gw_verifyOpened _ _ _ := down; gw_verifyRepay _ _ _ := down;
     gw_accrueLate _ _ := down; now_ms _ := 0; kyc_name := "fake";
     kyc_createSession t _ :=
       Ok {| sessionId := if bool_decide (t = []) then "s1"%string else "s2"%string; verificationUrl := "" |};
     kyc_getDecision _ _ := Ok KycApproved |}.

Definition status_of (w : World) : option string := kycStatus ∘ kyc <$> w_users w !! 1.

Lemma sample_backed : approvals_backed sample_world.
Proof.
  assert (H : forall i u, w_users sample_world !! i = Some u -> i = 1 /\ u = sample_user).
  { intros i u Hu. cbn in Hu. apply lookup_singleton_Some in Hu as [<- <-]. done. }
  split_and!; [split|done|].
  - intros i u Hu. by apply H in Hu as [-> ->].
  - intros i l Hl. cbn in Hl. by rewrite lookup_empty in Hl.
  - intros i u Hu Hs. by apply H in Hu as [_ ->].
Qed.

Lemma kyc_requests_legal_witness :
  kyc_effect (OUT := vendor) sample_wallet sample_world (snd (run (start (OUT := vendor) sample_wallet) sample_world)) /\
  status_of (snd (run (start (OUT := vendor) sample_wallet) sample_world)) = Some "pending"%string.
Proof.
  split; [|vm_compute; reflexivity].
  exact (proj1 (kyc_requests_legal (OUT := vendor) sample_wallet sample_world (proj1 sample_backed) eq_refl)).
Defined.

(** The sample wallet after [start] and [status], one after the other. *)
Definition approved_world : World :=
  snd (run (kyc_status (OUT := vendor) sample_wallet) (snd (run (start (OUT := vendor) sample_wallet) sample_world))).

Definition approved_user : User := default sample_user (w_users approved_world !! 1).

Lemma gate_needs_vendor_approval_witness :
  exists s, kycSessionId (kyc approved_user) = Some s /\ CKycDecision s (Ok KycApproved) ∈ w_calls approved_world.
Proof.
  apply (gate_needs_vendor_approval (OUT := vendor) sample_world approved_world (Some "true"%string) 1 approved_user).
  - apply sample_backed.
  - exact (steps_step _ _ _ _ (req_start (OUT := vendor) sample_wallet sample_world)
      (steps_step _ _ _ _ (req_status (OUT := vendor) sample_wallet _) (steps_refl _ approved_world))).
  - vm_compute. reflexivity.
  - reflexivity.
  - vm_compute. reflexivity.
Defined.

(** "Approved is sticky" holds request by request (C14) but not between
    concurrent requests: with two [start] requests and one [status] request
    pending for a new user, there is an interleaving in which the user is
    approved and then, when the second [start] resumes, is back to pending under
    a second vendor session - so two sessions were opened as well, although
    [start] is meant to be idempotent. *)
Theorem kyc_approval_lost_in_race :
  exists c1 c2,
    let c0 := ([start (OUT := vendor) sample_wallet ≫= (fun _ => mret tt); start (OUT := vendor) sample_wallet ≫= (fun _ => mret tt);
                kyc_status (OUT := vendor) sample_wallet ≫= (fun _ => mret tt)], sample_world) in
    steps (pool_step (W := World) (A := unit)) c0 c1 /\ status_of (snd c1) = Some "approved"%string /\
    steps pool_step c1 c2 /\ status_of (snd c2) = Some "pending"%string /\
    kycSessionId ∘ kyc <$> w_users (snd c2) !! 1 = Some (Some "s2"%string).
Proof.
  eexists _, _. split_and!.
  - apply (run_schedule_steps [0; 1; 0; 0; 2; 2; 2]%nat).
  - vm_compute. reflexivity.
  - apply (run_schedule_steps [1; 1]%nat).
  - vm_compute. reflexivity.
  - vm_compute. reflexivity.
Qed.
