(* ===== verification/Sponsor.v ===== *)
(** * Fee sponsorship ([backend/src/sponsor/fee-bump.ts])

    The policy that decides which inner transactions the sponsor pays for, the
    base fee of the fee-bump, and the fee-bump itself. Parsing, building and
    signing envelopes belong to stellar-sdk and are a parameter. *)

From stdpp Require Import base tactics list strings numbers.
From Stdlib Require Import Lia ZArith Ascii.
From S2P Require Import Prelude JsString.

Local Open Scope Z_scope.

(** An operation of a transaction: a contract invocation, with the C-address of
    the invoked contract when it can be read from the envelope, a trustline for
    an asset, or any other type. *)
Inductive operation :=
  | InvokeHostFunction (contract : option string)
  | ChangeTrust (asset : string)
  | OtherOperation (type : string).

Record Transaction := {
  signatures : nat;
  source : string;
  fee : Z;
  (** the resource fee of a Soroban transaction; [None] for a classic one *)
  resourceFee : option Z;
  operations : list operation;
}.

(** What [TransactionBuilder.fromXDR] may return. *)
Inductive envelope :=
  | FeeBumpEnvelope
  | TransactionEnvelope (tx : Transaction)
  | OtherEnvelope.

Definition SPONSOR_MIN_BASE_FEE : Z := 100.

(** [BigInt] division truncates towards zero, and throws on a zero divisor. *)
Definition bigint_div (a b : Z) : result Z :=
  if b =? 0 then Throw (RangeError "Division by zero") else Ok (Z.quot a b).

Definition sponsorBaseFee (inner : Transaction) : result Z :=
  let ops := Z.of_nat (length (operations inner)) in
  let inclusion := fee inner - default 0 (resourceFee inner) in
  ceilPerOp ← bigint_div (inclusion + ops - 1) ops;
  mret (if SPONSOR_MIN_BASE_FEE <? ceilPerOp then ceilPerOp else SPONSOR_MIN_BASE_FEE).

Record SponsorPolicy := {
  allowedContracts : list string;
  expectedSource : option string;
  maxInnerFee : option Z;
}.

Definition contractIdOf (op : operation) : option string :=
  match op with InvokeHostFunction c => c | _ => None end.

(** A string that is neither undefined nor empty. *)
Definition present (o : option string) : option string :=
  match o with Some s => if bool_decide (s = ""%string) then None else Some s | None => None end.

(** One turn of the loop over the operations. *)
Definition validateOperation (policy : SponsorPolicy) (op : operation) : result unit :=
  match op with
  | InvokeHostFunction _ =>
      match present (contractIdOf op) with
      | Some target =>
          if bool_decide (target ∈ allowedContracts policy) then Ok tt
          else Throw (SponsorPolicyViolation "operation does not invoke an allowed contract")
      | None => Throw (SponsorPolicyViolation "operation does not invoke an allowed contract")
      end
  | ChangeTrust _ => Ok tt
  | OtherOperation _ => Throw (SponsorPolicyViolation "operation type is not sponsorable")
  end.

Fixpoint validateOperations (policy : SponsorPolicy) (ops : list operation) : result unit :=
  match ops with
  | [] => Ok tt
  | op :: ops' => _ ← validateOperation policy op; validateOperations policy ops'
  end.

(** The assertion returns the envelope as a transaction. *)
Definition validateInnerTx (inner : envelope) (policy : SponsorPolicy) : result Transaction :=
  match inner with
  | FeeBumpEnvelope => Throw (SponsorPolicyViolation "inner tx is already a fee-bump")
  | OtherEnvelope => Throw (SponsorPolicyViolation "not a transaction envelope")
  | TransactionEnvelope tx =>
      _ ← throw_if (bool_decide (signatures tx = 0%nat)) (SponsorPolicyViolation "inner tx is unsigned");
      _ ← throw_if (match present (expectedSource policy) with
                    | Some s => negb (bool_decide (source tx = s))
                    | None => false
                    end) (SponsorPolicyViolation "inner tx source is not the authenticated user");
      _ ← throw_if (match maxInnerFee policy with Some m => m <? fee tx | None => false end)
            (SponsorPolicyViolation "inner fee exceeds the sponsor cap");
      _ ← throw_if (bool_decide (operations tx = [])) (SponsorPolicyViolation "inner tx has no operations");
      _ ← validateOperations policy (operations tx);
      mret tx
  end.

(** ** The fee-bump *)

(** The part of stellar-sdk that builds and signs the fee-bump of a sponsor. *)
Class FeeBumpSdk := {
  Keypair : Type;
  FeeBump : Type;
  fromXDR : string -> string -> result envelope;
  (** [buildFeeBumpTransaction(sponsor, baseFee, inner, passphrase)] *)
  buildFeeBumpTransaction : Keypair -> Z -> Transaction -> string -> result FeeBump;
  bump_sign : Keypair -> FeeBump -> FeeBump;
  bump_toXDR : FeeBump -> string;
  bump_fee : FeeBump -> Z;
}.

(** The SDK accepts a base fee exactly when it covers the inclusion fee per
    operation and the network minimum, and the fee it declares is that base fee
    for every operation and the bump itself, plus the resource fee. *)
Definition fee_covers (baseFee : Z) (tx : Transaction) : Prop :=
  SPONSOR_MIN_BASE_FEE <= baseFee /\
  fee tx - default 0 (resourceFee tx) <= baseFee * Z.of_nat (length (operations tx)).

Definition bump_total (baseFee : Z) (tx : Transaction) : Z :=
  baseFee * (Z.of_nat (length (operations tx)) + 1) + default 0 (resourceFee tx).

Class FeeBumpLaws (SDK : FeeBumpSdk) := {
  bump_accepted : forall k b tx p, fee_covers b tx -> exists bump, buildFeeBumpTransaction k b tx p = Ok bump;
  bump_declared : forall k b tx p bump, buildFeeBumpTransaction k b tx p = Ok bump -> bump_fee bump = bump_total b tx;
  sign_keeps_fee : forall k bump, bump_fee (bump_sign k bump) = bump_fee bump;
}.

Record SponsoredFeeBump := { feeBumpXdr : string; totalFee : Z }.

Definition buildSponsoredFeeBump `{FeeBumpSdk} (innerXdr networkPassphrase : string) (sponsor : Keypair)
    (policy : SponsorPolicy) : result SponsoredFeeBump :=
  envelope ← fromXDR innerXdr networkPassphrase;
  inner ← validateInnerTx envelope policy;
  baseFee ← sponsorBaseFee inner;
  bump ← buildFeeBumpTransaction sponsor baseFee inner networkPassphrase;
  let bump := bump_sign sponsor bump in
  mret {| feeBumpXdr := bump_toXDR bump; totalFee := bump_fee bump |}.

(** ** Specification vocabulary *)

(** The written policy: a signed transaction of the authenticated user, within
    the cap, whose operations are invocations of our contracts or trustlines. *)
Definition sponsorable (policy : SponsorPolicy) (tx : Transaction) : Prop :=
  signatures tx <> 0%nat /\
  (forall s, expectedSource policy = Some s -> s <> ""%string -> source tx = s) /\
  (forall m, maxInnerFee policy = Some m -> fee tx <= m) /\
  operations tx <> [] /\
  Forall (fun op => (exists c, op = InvokeHostFunction (Some c) /\ c <> ""%string /\ c ∈ allowedContracts policy)
                    \/ exists asset, op = ChangeTrust asset) (operations tx).

(** ** Lemmas *)

Lemma present_some o s : present o = Some s <-> o = Some s /\ s <> ""%string.
Proof. unfold present. destruct o as [t|]; [case_bool_decide|]; naive_solver. Qed.

Lemma present_none o : present o = None <-> forall s, o = Some s -> s = ""%string.
Proof. unfold present. destruct o as [t|]; [case_bool_decide|]; naive_solver. Qed.

Lemma validateOperation_spec policy op :
  validateOperation policy op = Ok tt <->
  (exists c, op = InvokeHostFunction (Some c) /\ c <> ""%string /\ c ∈ allowedContracts policy)
  \/ exists asset, op = ChangeTrust asset.
Proof.
  destruct op as [c|asset|ty]; cbn; [|naive_solver..].
  destruct (present c) as [t|] eqn:E.
  - apply present_some in E as [-> Hne]. case_bool_decide; naive_solver.
  - split; [done|]. intros [(c' & [= ->] & Hne & _)|(? & ?)]; [|done].
    rewrite present_none in E. by destruct Hne; apply E.
Qed.

Lemma validateOperations_spec policy ops :
  validateOperations policy ops = Ok tt <-> Forall (fun op => validateOperation policy op = Ok tt) ops.
Proof.
  induction ops as [|op ops IH]; cbn; [by split; [constructor|]|].
  rewrite List.Forall_cons_iff, <- IH, result_bind_ok. split.
  - intros ([] & ? & ?). done.
  - intros [? ?]. by exists tt.
Qed.

Lemma validateInnerTx_spec inner policy tx :
  validateInnerTx inner policy = Ok tx <-> inner = TransactionEnvelope tx /\ sponsorable policy tx.
Proof.
  unfold sponsorable. destruct inner as [|tx'|]; cbn; [by split; naive_solver| |by split; naive_solver].
  split.
  - intros H. result_inv. bool_to_prop.
    match goal with u : unit, H : validateOperations _ _ = Ok ?u |- _ => destruct u; apply validateOperations_spec in H as Hops end.
    split; [done|]. split_and!; [done| | |done|].
    + intros s Hs Hne. destruct (present (expectedSource policy)) as [s'|] eqn:E.
      * apply present_some in E as [E _]. bool_to_prop. congruence.
      * rewrite present_none in E. by destruct Hne; apply E.
    + intros m Hm. rewrite Hm in *. bool_to_prop. lia.
    + eapply List.Forall_impl; [|exact Hops]. intros op. apply validateOperation_spec.
  - intros ([= ->] & Hsig & Hsrc & Hfee & Hne & Hops). rewrite bool_decide_false by done. cbn.
    replace (match present (expectedSource policy) with Some s => _ | None => _ end) with false.
    2:{ destruct (present _) as [s|] eqn:E; [|done]. apply present_some in E as [E1 E2].
        rewrite bool_decide_true; [done|]. by apply Hsrc. }
    cbn. replace (match maxInnerFee policy with Some m => _ | None => _ end) with false.
    2:{ destruct (maxInnerFee policy) as [m|]; [|done]. symmetry. apply Z.ltb_ge. by apply Hfee. }
    cbn. rewrite bool_decide_false by done. cbn.
    rewrite (proj2 (validateOperations_spec policy (operations tx))); [done|].
    eapply List.Forall_impl; [|exact Hops]. intros op. apply validateOperation_spec.
Qed.

Lemma quot_ceil a n : 0 < n -> 0 < a -> let q := Z.quot (a + n - 1) n in (q - 1) * n < a <= q * n.
Proof.
  intros Hn Ha. cbn. rewrite Z.quot_div_nonneg by lia.
  pose proof (Z.div_mod (a + n - 1) n ltac:(lia)). pose proof (Z.mod_pos_bound (a + n - 1) n Hn). nia.
Qed.

Lemma quot_nonpos a n : 0 < n -> a <= 0 -> Z.quot (a + n - 1) n <= 0.
Proof.
  intros Hn Ha. destruct (Z.le_gt_cases 0 (a + n - 1)).
  - rewrite Z.quot_small by lia. lia.
  - apply Z.le_trans with (Z.quot 0 n); [apply Z.quot_le_mono; lia|]. by rewrite Z.quot_0_l by lia.
Qed.

(** The base fee is the least one the SDK accepts. *)
Lemma sponsorBaseFee_spec tx :
  operations tx <> [] ->
  exists b, sponsorBaseFee tx = Ok b /\ fee_covers b tx /\ forall b', fee_covers b' tx -> b <= b'.
Proof.
  intros Hne. unfold sponsorBaseFee, bigint_div, fee_covers, SPONSOR_MIN_BASE_FEE.
  set (n := Z.of_nat (length (operations tx))). set (a := fee tx - default 0 (resourceFee tx)).
  assert (Hn : 0 < n) by (unfold n; destruct (operations tx); [done|cbn; lia]).
  destruct (Z.eqb_spec n 0); [lia|]. cbn.
  set (q := Z.quot (a + n - 1) n). eexists. split; [reflexivity|].
  destruct (Z.le_gt_cases a 0) as [Ha|Ha].
  - pose proof (quot_nonpos a n Hn Ha) as Hq. fold q in Hq.
    destruct (Z.ltb_spec 100 q); [lia|]. split; [split; nia|]. intros b' [? ?]. lia.
  - pose proof (quot_ceil a n Hn ltac:(lia)) as Hq. fold q in Hq. cbn in Hq.
    destruct (Z.ltb_spec 100 q); (split; [split; nia|]); intros b' [? ?]; nia.
Qed.

(** What the sponsor pays when the base fee is the least one accepted. *)
Lemma bump_total_bound tx b :
  operations tx <> [] -> fee_covers b tx -> (forall b', fee_covers b' tx -> b <= b') ->
  0 <= default 0 (resourceFee tx) ->
  bump_total b tx <= Z.max (2 * fee tx + Z.of_nat (length (operations tx)) + 1)
                           (100 * (Z.of_nat (length (operations tx)) + 1) + default 0 (resourceFee tx)).
Proof.
  unfold bump_total, fee_covers, SPONSOR_MIN_BASE_FEE. intros Hne [Hb Hcov] Hmin Hres.
  set (n := Z.of_nat (length (operations tx))) in *. set (r := default 0 (resourceFee tx)) in *.
  assert (Hn : 0 < n) by (unfold n; destruct (operations tx); [done|cbn; lia]).
  destruct (Z.eq_dec b 100) as [->|Hne']; [lia|].
  destruct (Z.le_gt_cases (fee tx - r) ((b - 1) * n)) as [Hle|Hgt].
  - specialize (Hmin (b - 1) ltac:(lia)). lia.
  - assert (b - 1 <= (b - 1) * n) by nia. nia.
Qed.

(** ** Properties *)

(** The sponsor pays exactly for what the policy allows: [validateInnerTx]
    accepts an envelope if and only if it is a plain transaction that is signed,
    comes from the expected source when one is set, is within the fee cap when one
    is set, has at least one operation, and only invokes allowed contracts or
    changes a trustline. (Any trustline: the asset is not looked at, although the
    policy is stated for the USDC one.) *)
Theorem sponsor_policy_exact (inner : envelope) (policy : SponsorPolicy) (tx : Transaction) :
  validateInnerTx inner policy = Ok tx <-> inner = TransactionEnvelope tx /\ sponsorable policy tx.
Proof. apply validateInnerTx_spec. Qed.

(** The fee-bump: it is built only for a transaction the policy allows, and
    always for such a transaction (the base fee is never refused by the SDK and
    never divides by zero); the base fee is the least the SDK accepts, at least
    100 stroops, and what the sponsor pays in all is at most twice the inner fee
    plus one stroop for each operation and one more, or 100 stroops for each
    operation and one more plus the resource fee, whichever is larger. *)
Theorem sponsored_fee_bounded {SDK : FeeBumpSdk} {L : FeeBumpLaws SDK} (xdr pass : string) (sponsor : Keypair)
    (policy : SponsorPolicy) (inner : envelope) (Hxdr : fromXDR xdr pass = Ok inner) :
  match buildSponsoredFeeBump xdr pass sponsor policy with
  | Ok out =>
      exists tx b, inner = TransactionEnvelope tx /\ sponsorable policy tx /\
        sponsorBaseFee tx = Ok b /\ fee_covers b tx /\ (forall b', fee_covers b' tx -> b <= b') /\
        totalFee out = bump_total b tx /\
        (0 <= default 0 (resourceFee tx) ->
         totalFee out <= Z.max (2 * fee tx + Z.of_nat (length (operations tx)) + 1)
                               (100 * (Z.of_nat (length (operations tx)) + 1) + default 0 (resourceFee tx)))
  | Throw _ => forall tx, inner = TransactionEnvelope tx -> ~ sponsorable policy tx
  end.
Proof.
  unfold buildSponsoredFeeBump. rewrite Hxdr. cbn.
  destruct (validateInnerTx inner policy) as [tx|e] eqn:E; cbn.
  2:{ intros tx -> Hs. rewrite (proj2 (validateInnerTx_spec _ _ tx)) in E; done. }
  apply validateInnerTx_spec in E as [-> Hs]. pose proof Hs as (_ & _ & _ & Hne & _).
  destruct (sponsorBaseFee_spec tx Hne) as (b & Hb & Hc & Hmin). rewrite Hb. cbn.
  destruct (bump_accepted sponsor b tx pass Hc) as (bump & Hbump). rewrite Hbump. cbn.
  exists tx, b. rewrite sign_keeps_fee, (bump_declared _ _ _ _ _ Hbump). split_and!; try done.
  intros Hres. by apply bump_total_bound.
Qed.

(** The SDK's rules as a builder: a fee-bump is the base fee and the transaction. *)
Definition ModelBump (inner : envelope) : FeeBumpSdk := {|
  Keypair := unit;
  FeeBump := Z * Transaction;
  fromXDR := fun _ _ => Ok inner;
  buildFeeBumpTransaction := fun _ b tx _ => Ok (b, tx);
  bump_sign := fun _ bump => bump;
  bump_toXDR := fun _ => "xdr"%string;
  bump_fee := fun bump => bump_total (fst bump) (snd bump);
|}.

Lemma ModelBump_laws inner : FeeBumpLaws (ModelBump inner).
Proof.
  constructor; cbn.
  - intros k b tx p _. by eexists.
  - by intros k b tx p bump [= <-].
  - done.
Qed.

Definition sample_tx : Transaction :=
  {| signatures := 1; source := "GUSER"; fee := 50100; resourceFee := Some 50000;
     operations := [InvokeHostFunction (Some "CVAULT"%string)] |}.

Definition sample_policy : SponsorPolicy :=
  {| allowedContracts := ["CVAULT"%string]; expectedSource := Some "GUSER"%string; maxInnerFee := Some 100000 |}.

Lemma sponsored_fee_bounded_witness :
  exists tx b, TransactionEnvelope sample_tx = TransactionEnvelope tx /\ sponsorable sample_policy tx /\
    sponsorBaseFee tx = Ok b.
Proof.
  pose proof (sponsored_fee_bounded (L := ModelBump_laws (TransactionEnvelope sample_tx)) "xdr" "net" tt
                sample_policy (TransactionEnvelope sample_tx) eq_refl) as (tx & b & H1 & H2 & H3 & _).
  exists tx, b. split; [exact H1|]. split; [exact H2|exact H3].
Defined.
