(* ===== verification/EarlyAccess.v ===== *)
(** * Access to credit ([user/early-access.service.ts], [self/self.service.ts],
      [user/user-query.service.ts])

    The early-user badge and its notifications, the waitlist limit, and the
    identity check of Farcaster users: what the credit line of a user depends on
    besides the user's own row. *)

From stdpp Require Import base tactics list gmap strings numbers.
From Stdlib Require Import Lia ZArith.
From S2P Require Import Prelude JsString JsNum Entities Gateway Store.

Local Open Scope Z_scope.

Definition EARLY_USER_BADGE_LIMIT : Z := 1000.

Section EarlyAccess.
  Context `{DB : Database} `{OUT : Outside}.

(** The users of the platform (a null platform counts as lemon) that come before
    the user or at the user's place: lower priority value, or same and older. *)
Definition ranked_before (u : User) (pf : string) (v : User) : bool :=
  (match platform (onboarding v) with
   | Some p => bool_decide (p = pf)
   | None => bool_decide (pf = "lemon"%string)
   end) &&
  ((waitlistPriority (onboarding v) <? waitlistPriority (onboarding u))
   || ((waitlistPriority (onboarding v) =? waitlistPriority (onboarding u))
       && (createdAt (onboarding v) <=? createdAt (onboarding u)))).

Definition getRankWithinPlatform (u : User) (pf : string) : M World Z := count_users (ranked_before u pf).

Definition isEarlyUser (u : User) (platformOverride : option string) : M World bool :=
  let platformEff := match platformOverride with
                     | Some p => p
                     | None => default "lemon"%string (normalizePlatform (platform (onboarding u)))
                     end in
  if negb (bool_decide (platformEff = "lemon"%string)) then mret false
  else
    rank ← getRankWithinPlatform u platformEff;
    mret (rank <=? EARLY_USER_BADGE_LIMIT).

(** The query of [findUsersToNotifyEarlyAccess]. *)
Definition early_candidate (u : User) : bool :=
  bool_decide (is_Some (email (onboarding u))) && bool_decide (is_Some (waitlistJoinedAt (onboarding u)))
  && negb (bool_decide (is_Some (earlyAccessNotifiedAt (onboarding u))))
  && bool_decide (riskDecision (credit u) = Some "admit"%string).

Definition of_user (i : Z) (l : Loan) : bool := bool_decide (userId (terms l) = i).

(** One turn of its loop. *)
Definition early_eligible (eligible : list User) (u : User) : M World (list User) :=
  hasLoans ← count_loans (of_user (user_id u));
  if 0 <? hasLoans then mret eligible
  else
    isEarlyUser u None ≫= fun early : bool => mret (if early then eligible ++ [u] else eligible).

Definition findUsersToNotifyEarlyAccess : M World (list User) :=
  candidates ← find_users early_candidate (fun u => createdAt (onboarding u)) 100;
  mfold early_eligible [] candidates.

Definition set_earlyAccessNotifiedAt (t : Z) (u : User) : User :=
  let o := onboarding u in
  with_onboarding u {| platform := platform o; email := email o; workType := workType o;
    termsAcceptedAt := termsAcceptedAt o; waitlistJoinedAt := waitlistJoinedAt o;
    earlyAccessNotifiedAt := Some t; waitlistPriority := waitlistPriority o; createdAt := createdAt o |}.

Definition markEarlyAccessNotified (i : Z) : M World unit :=
  now ← date_now;
  update_user i (set_earlyAccessNotifiedAt now).

(** [getUserUntilWaitlist]: no waitlist is configured. *)
Definition getUserUntilWaitlist (pf : option string) : M World Z := mret 0.

(** ** Self verification *)

Definition isUserSelfVerified (i : Z) : M World bool :=
  if i =? 0 then mret false else find_self i.

Definition ensureSelfVerificationForPlatform (u : User) : M World unit :=
  if negb (bool_decide (toLowerCase (default ""%string (platform (onboarding u))) = "farcaster"%string))
  then mret tt
  else
    isUserSelfVerified (user_id u) ≫= fun hasSelf : bool =>
    guard_throw (negb hasSelf) (HttpException 428 "SELF_VERIFICATION_REQUIRED_FOR_FARCASTER").
End EarlyAccess.

(** ** Properties *)

Section Facts.
  Context `{DB : Database} {LAWS : DatabaseLaws DB}.

(** How many users come before the user on the platform, the user included. *)
Definition rank_of (w : World) (u : User) (pf : string) : Z := Z.of_nat (size (users_where (ranked_before u pf) w)).

(** A user the notification is due to. *)
Definition due_notification (w : World) (u : User) : Prop :=
  (exists i, w_users w !! i = Some u) /\ early_candidate u = true /\
  loans_where (of_user (user_id u)) w = ∅ /\
  default "lemon"%string (normalizePlatform (platform (onboarding u))) = "lemon"%string /\
  rank_of w u "lemon" <= EARLY_USER_BADGE_LIMIT.

Lemma early_eligible_run acc u w :
  w_tx w = NoTx ->
  (exists e, early_eligible acc u w = (Throw e, w)) \/
  early_eligible acc u w = (Ok acc, w) \/
  (early_eligible acc u w = (Ok (acc ++ [u]), w) /\ loans_where (of_user (user_id u)) w = ∅ /\
   default "lemon"%string (normalizePlatform (platform (onboarding u))) = "lemon"%string /\
   rank_of w u "lemon" <= EARLY_USER_BADGE_LIMIT).
Proof.
  intros Htx. unfold early_eligible, isEarlyUser, getRankWithinPlatform, count_loans, count_users.
  cbv [mbind M_bind mret M_ret]. rewrite query_NoTx by done.
  destruct (db_count_loans w _) as [n|e] eqn:En; [|left; eauto]. apply count_loans_spec in En.
  destruct (Z.ltb_spec 0 n); [by right; left|].
  case_bool_decide as Hp; cbn [negb]; [|by right; left]. rewrite Hp, query_NoTx by done.
  destruct (db_count_users w _) as [k|e] eqn:Ek; [|left; eauto]. apply count_users_spec in Ek.
  destruct (Z.leb_spec k EARLY_USER_BADGE_LIMIT); [|by right; left].
  right; right. split_and!; [done| |done|unfold rank_of; lia].
  apply map_size_empty_inv. lia.
Qed.

Lemma early_fold_run us : forall acc w,
  w_tx w = NoTx -> (forall u, u ∈ us -> exists i, w_users w !! i = Some u /\ early_candidate u = true) ->
  (forall u, u ∈ acc -> due_notification w u) ->
  let '(r, w') := mfold early_eligible acc us w in
  w' = w /\ match r with
            | Ok found => (forall u, u ∈ found -> due_notification w u) /\ (length found <= length acc + length us)%nat
            | Throw _ => True
            end.
Proof.
  induction us as [|u us IH]; intros acc w Htx Hus Hacc; cbn -[early_eligible]; [split; [done|split; [done|lia]]|].
  cbv [mbind M_bind]. assert (Hus' : forall v, v ∈ us -> exists i, w_users w !! i = Some v /\ early_candidate v = true)
    by (intros v Hv; apply Hus; by right).
  destruct (early_eligible_run acc u w Htx) as [(e & ->)|[->|(-> & Hl & Hp & Hr)]]; [done| |].
  - specialize (IH acc w Htx Hus' Hacc). destruct (mfold early_eligible acc us w) as [[f|e] w']; [|done].
    destruct IH as (? & ? & ?). split_and!; [done..|lia].
  - assert (Hacc' : forall v, v ∈ acc ++ [u] -> due_notification w v).
    { intros v [Hv| ->%list_elem_of_singleton]%elem_of_app; [by apply Hacc|].
      destruct (Hus u ltac:(left)) as (i & Hu & Hc). split_and!; try done. by exists i. }
    specialize (IH (acc ++ [u]) w Htx Hus' Hacc'). destruct (mfold early_eligible (acc ++ [u]) us w) as [[f|e] w']; [|done].
    rewrite length_app in IH. cbn in IH. destruct IH as (? & ? & ?). split_and!; [done..|lia].
Qed.

(** Who is told of the early access: at most a hundred users, each a
    registered and admitted user with an email, on the waitlist, not notified
    before and without any loan, on the lemon platform and ranked among its first
    thousand. Finding them writes nothing. *)
Theorem early_access_sound (w : World) (Htx : w_tx w = NoTx) :
  let '(r, w') := findUsersToNotifyEarlyAccess w in
  w' = w /\ match r with
            | Ok found => (forall u, u ∈ found -> due_notification w u) /\ (length found <= 100)%nat
            | Throw _ => True
            end.
Proof.
  unfold findUsersToNotifyEarlyAccess, find_users. cbv [mbind M_bind]. rewrite query_NoTx by done.
  destruct (db_find_users w _ _ _) as [us|e] eqn:Eu; [|done].
  pose proof (find_users_limit _ _ _ _ _ Eu) as Hlen.
  pose proof (early_fold_run us [] w Htx (fun u => find_users_sound _ _ _ _ _ u Eu)) as H.
  specialize (H ltac:(intros u []%elem_of_nil)).
  destruct (mfold early_eligible [] us w) as [[f|e] w']; [|done]. destruct H as (? & ? & ?). cbn in *. split_and!; [done..|lia].
Qed.
End Facts.

(** A waitlisted user of the lemon platform who was admitted. *)
Definition waiting_user : User :=
  {| user_id := 1; walletAddress := "0x00000000000000000000000000000000000000b0";
     onboarding := {| platform := Some "lemon"%string; email := Some "a@b.c"%string; workType := None; termsAcceptedAt := None;
                      waitlistJoinedAt := Some 5; earlyAccessNotifiedAt := None; waitlistPriority := 1; createdAt := 5 |};
     credit := {| creditLimit := None; score := None; xp := 1; riskDecision := Some "admit"%string; riskPDefault := None;
                  walletQuality := None; hadDefaultEver := false; defaultsCount := 0 |};
     phone_columns := {| phone := None; phoneVerifiedAt := None; lastPhoneOtpSentAt := None; phoneOtpCode := None;
                         phoneOtpExpiresAt := None; phoneOtpAttemptCount := 0 |};
     kyc := {| kycStatus := "none"; kycSessionId := None; kycProvider := None; kycApprovedAt := None |} |}.

Definition waiting_world : World :=
  {| w_users := {[ 1 := waiting_user ]}; w_loans := ∅; w_side := no_side; w_tx := NoTx; w_calls := [] |}.

Lemma early_access_sound_witness :
  exists found, findUsersToNotifyEarlyAccess waiting_world = (Ok found, waiting_world) /\
    length found = 1%nat /\ forall u, u ∈ found -> due_notification waiting_world u.
Proof.
  pose proof (early_access_sound waiting_world eq_refl) as H.
  assert (Hn : match fst (findUsersToNotifyEarlyAccess waiting_world) with Ok f => length f | Throw _ => 0%nat end = 1%nat)
    by (vm_compute; reflexivity).
  destruct (findUsersToNotifyEarlyAccess waiting_world) as [[found|e] w']; [|discriminate Hn].
  destruct H as (-> & H & _). exists found. split_and!; [done|exact Hn|exact H].
Defined.
