(* ===== verification/LoanVerification.v ===== *)
(** * Enabling the credit line ([backend/src/loan/loan-verification.service.ts]) *)

From stdpp Require Import base tactics list gmap strings numbers.
From Stdlib Require Import Lia ZArith.
From S2P Require Import Prelude JsString JsNum AmountUnits CreditPolicy Strkey Entities Gateway Store Kyc EarlyAccess.

Local Open Scope Z_scope.

(** The process environment, read once: the decimals of the settlement token and
    the KYC flag. *)
Class Env := { env_decimals : nat; env_kycGate : option string }.

Definition DEFAULT_SCORE : Z := 1.

Record VerifyUserDto := { vd_walletAddress : string; vd_platform : option string }.

(** The answer of [verify]; absent fields are [None]. *)
Record VerifyResponse := {
  vr_alreadyHadCredit : option bool;
  vr_refreshedOnChain : option bool;
  vr_id : Z;
  vr_walletAddress : string;
  vr_score : option Z;
  vr_creditLimit : option num;
}.

Section Verification.
  Context `{ENV : Env} `{DB : Database} `{OUT : Outside}.

(** [toUnits(ladderLimitUsdc)] of the step of a score. *)
Definition ladder_limit_units (sc : Z) : Z :=
  match toUnits env_decimals (ANumber (limitUsdc (getStepForScore sc))) with Ok n => n | Throw _ => 0 end.

Definition default_limit_units : Z := DEFAULT_CREDIT_LIMIT_USDC env_decimals.

(** The platform bookkeeping at the head of [verify]: the user in memory, and the
    effective platform. *)
Definition settle_platform (user : User) (platformNorm : option string) : M World (User * string) :=
  user ← match platform (onboarding user), platformNorm with
         | None, Some p => _ ← update_user (user_id user) (set_platform p); mret (set_platform p user)
         | Some ""%string, Some p => _ ← update_user (user_id user) (set_platform p); mret (set_platform p user)
         | _, _ => mret user
         end;
  let effectivePlatform :=
    match normalizePlatform (platform (onboarding user)) with
    | Some p => p
    | None => default "lemon"%string platformNorm
    end in
  user ← (if negb (bool_decide (platform (onboarding user) = Some effectivePlatform)) then
            _ ← update_user (user_id user) (set_platform effectivePlatform);
            mret (set_platform effectivePlatform user)
          else mret user);
  mret (user, effectivePlatform).

(** A text column that is neither null nor empty. *)
Definition filled (o : option string) : bool :=
  match o with Some s => negb (bool_decide (s = ""%string)) | None => false end.

(** The branch for a user whose line is in the database: refreshed on chain when
    it expired there. *)
Definition verify_existing (wallet : string) (user : User) (sc : Z) (limit : num) : M World VerifyResponse :=
  onChainLimit ← readCreditLimitOnChain wallet;
  if 0 <? onChainLimit then
    mret {| vr_alreadyHadCredit := Some true; vr_refreshedOnChain := None; vr_id := user_id user;
            vr_walletAddress := walletAddress user; vr_score := Some sc; vr_creditLimit := Some limit |}
  else
    _ ← try_catch (giveCreditScoreAndLimit wallet sc (ladder_limit_units sc))
          (fun _ => throw (BadRequestException "Failed to refresh on-chain credit line"));
    mret {| vr_alreadyHadCredit := Some true; vr_refreshedOnChain := Some true; vr_id := user_id user;
            vr_walletAddress := walletAddress user; vr_score := Some sc; vr_creditLimit := Some limit |}.

(** The first-time set-up: on chain first, then in the database. *)
Definition verify_first_time (wallet : string) (user : User) : M World VerifyResponse :=
  result ← try_catch (giveCreditScoreAndLimit wallet DEFAULT_SCORE default_limit_units)
             (fun _ => throw (BadRequestException "Failed to set on-chain credit line"));
  _ ← guard_throw (negb (result =? 200)) (BadRequestException "Setting credit line failed");
  _ ← update_user (user_id user)
        (set_score_and_limit DEFAULT_SCORE (db_decimal (num_of_Z default_limit_units)));
  fresh ← find_user (by_wallet wallet);
  match fresh with
  | None => throw (BadRequestException "Identity verification failed")
  | Some fresh =>
      mret {| vr_alreadyHadCredit := None; vr_refreshedOnChain := None; vr_id := user_id fresh;
              vr_walletAddress := walletAddress fresh; vr_score := score (credit fresh);
              vr_creditLimit := toNum (creditLimit (credit fresh)) |}
  end.

(** The score and the limit of a user who already has a credit line. *)
Definition credit_line (u : User) : option (Z * num) :=
  match toNum (creditLimit (credit u)), score (credit u) with
  | Some limit, Some sc =>
      if (num_of_Z 0 <? limit)%num && (DEFAULT_SCORE <=? sc) then Some (sc, limit) else None
  | _, _ => None
  end.

(** [verify] from the platform on: the gates, then the credit line. *)
Definition verify_user (wallet : string) (user : User) (platformNorm : option string) : M World VerifyResponse :=
  '(user, effectivePlatform) ← settle_platform user platformNorm;
  _ ← guard_throw (negb (bool_decide (is_Some (termsAcceptedAt (onboarding user))))
                   && negb (bool_decide (effectivePlatform = "farcaster"%string)))
        (ForbiddenException "Terms not accepted");
  _ ← ensureSelfVerificationForPlatform user;
  waitlistLimit ← getUserUntilWaitlist (Some effectivePlatform);
  canAccessCredit ← (if waitlistLimit <=? 0 then mret true else isEarlyUser user (Some effectivePlatform));
  _ ← guard_throw (negb canAccessCredit) (ForbiddenException "Early access cupo completo");
  match credit_line user with
  | Some (sc, limit) => verify_existing wallet user sc limit
  | None => verify_first_time wallet user
  end.

Definition verify (dto : VerifyUserDto) : M World VerifyResponse :=
  wallet ← lift (normalizeWallet (vd_walletAddress dto));
  let platformNorm := normalizePlatform (vd_platform dto) in
  user ← find_user (by_wallet wallet);
  match user with
  | None => throw (NotFoundException "User not found")
  | Some user =>
      _ ← guard_throw (negb (filled (email (onboarding user)))) (ForbiddenException "email not verified");
      _ ← guard_throw (negb (filled (workType (onboarding user)))) (ForbiddenException "workType missing");
      verify_user wallet user platformNorm
  end.
End Verification.

(** ** Lemmas *)

Section Facts.
  Context `{ENV : Env} `{DB : Database} `{OUT : Outside} {LAWS : DatabaseLaws DB}.

(** The user's row [i] is now [u'], the row [user] with at most its platform
    changed; the tables are otherwise as they were. *)
Definition row_settled (i : Z) (user u' : User) (w w' : World) : Prop :=
  w_loans w' = w_loans w /\ w_side w' = w_side w /\ w_tx w' = w_tx w /\
  w_users w' = <[i := u']> (w_users w) /\ (u' = user \/ exists p, u' = set_platform p user).

Lemma row_settled_refl i user w : w_users w !! i = Some user -> row_settled i user user w w.
Proof. intros H. split_and!; try done; [by rewrite insert_id|by left]. Qed.

Lemma row_settled_reads i user u' w w1 w2 :
  row_settled i user u' w w1 -> reads w1 w2 -> row_settled i user u' w w2.
Proof. intros (? & ? & ? & ? & ?) (? & ? & ? & ? & _). split_and!; try done; congruence. Qed.

(** One write of the platform. *)
Lemma update_platform_run i user u' p w w1 :
  w_tx w = NoTx -> user_id u' = i -> row_settled i user u' w w1 -> writes_from w w1 [] ->
  exists w2, writes_from w w2 [] /\
    ((exists e, update_user (user_id u') (set_platform p) w1 = (Throw e, w2) /\ row_settled i user u' w w2) \/
     (update_user (user_id u') (set_platform p) w1 = (Ok tt, w2) /\ row_settled i user (set_platform p u') w w2)).
Proof.
  intros Htx Hid (Hl & Hs & Ht & Hu & Hp) Hw. unfold update_user. rewrite statement_NoTx by congruence.
  rewrite Hid, Hu, lookup_insert_eq. destruct (db_user_error w1 _) as [e|].
  - exists w1. split; [done|]. left. exists e. split; [done|]. by split_and!.
  - eexists. split; [|right; split; [reflexivity|]]; [exact Hw|].
    split_and!; try done; [cbn; rewrite Hu; apply insert_insert_eq|]. right. exists p.
    destruct Hp as [->|[q ->]]; done.
Qed.

Lemma settle_platform_run i user pf w :
  w_tx w = NoTx -> w_users w !! i = Some user -> user_id user = i ->
  let '(r, w') := settle_platform user pf w in
  writes_from w w' [] /\
  match r with
  | Ok (u', p) => row_settled i user u' w w' /\ platform (onboarding u') = Some p
  | Throw _ => exists u', row_settled i user u' w w'
  end.
Proof.
  intros Htx Hu Hid. pose proof (row_settled_refl i user w Hu) as Hr0.
  assert (Hw0 : writes_from w w []) by apply reads_writes, reads_refl.
  unfold settle_platform. cbv [mbind M_bind].
  set (m := match platform (onboarding user) with Some _ => _ | None => _ end).
  assert (Hm : exists w1, writes_from w w1 [] /\
    ((exists e, m w = (Throw e, w1) /\ row_settled i user user w w1) \/
     exists u1, m w = (Ok u1, w1) /\ row_settled i user u1 w w1 /\ user_id u1 = i)).
  { assert (Hset : forall p, exists w1, writes_from w w1 [] /\
      ((exists e, (update_user (user_id user) (set_platform p) ≫= fun _ => mret (set_platform p user)) w = (Throw e, w1) /\ row_settled i user user w w1) \/
       exists u1, (update_user (user_id user) (set_platform p) ≫= fun _ => mret (set_platform p user)) w = (Ok u1, w1) /\ row_settled i user u1 w w1 /\ user_id u1 = i)).
    { intros p. destruct (update_platform_run i user user p w w Htx Hid Hr0 Hw0) as (w1 & Hw1 & [(e & E & Hr)|[E Hr]]);
        exists w1; (split; [done|]); cbv [mbind M_bind]; rewrite E; [left|right]; eauto. }
    subst m. destruct (platform (onboarding user)) as [[|c s]|], pf as [p|]; try apply Hset;
      (exists w; split; [done|]; right; exists user; done). }
  destruct Hm as (w1 & Hw1 & [(e & -> & Hr)|(u1 & -> & Hr & Hid1)]); [by split; [|exists user]|].
  set (p := match normalizePlatform (platform (onboarding u1)) with Some p => p | None => _ end).
  case_bool_decide as Hp; cbn [negb]; [by split|].
  destruct (update_platform_run i user u1 p w w1 Htx Hid1 Hr Hw1) as (w2 & Hw2 & [(e & -> & Hr2)|[-> Hr2]]);
    (split; [done|]); [by exists u1|done].
Qed.

Lemma ensure_self_run u w :
  w_tx w = NoTx ->
  let '(r, w') := ensureSelfVerificationForPlatform u w in
  w' = w /\ (is_ok r = true -> platform (onboarding u) = Some "farcaster"%string -> user_id u ∈ w_self w).
Proof.
  intros Htx. unfold ensureSelfVerificationForPlatform. case_bool_decide as Hp; cbn [negb].
  2: { split; [done|]. intros _ Hf. exfalso. apply Hp. by rewrite Hf. }
  unfold isUserSelfVerified, find_self. destruct (user_id u =? 0); [by split|].
  cbv [mbind M_bind]. rewrite query_NoTx by done.
  destruct (db_find_self w (user_id u)) as [b|e] eqn:E; [|by split].
  apply find_self_spec in E as ->. case_bool_decide; by split.
Qed.

(** The request ends in [w'], with the user's row settled and [cs] written. *)
Definition settled (i : Z) (user u' : User) (w w' : World) (cs : list call) : Prop :=
  row_settled i user u' w w' /\ writes_from w w' cs.

Lemma settled_reads i user u' w w1 w2 : settled i user u' w w1 [] -> reads w1 w2 -> settled i user u' w w2 [].
Proof.
  intros [Hr Hw] Hrd. split; [by eapply row_settled_reads|].
  exact (writes_trans _ _ _ [] [] Hw (reads_writes _ _ Hrd)).
Qed.

Lemma settled_log i user u' w w1 c : settled i user u' w w1 [] -> writes_chain c = true -> settled i user u' w (log_call c w1) [c].
Proof.
  intros [Hr Hw] Hc. split; [done|]. exact (writes_trans _ _ _ [] [c] Hw (writes_log _ c Hc)).
Qed.

Lemma verify_existing_run wallet i user u' sc limit w w1 :
  settled i user u' w w1 [] ->
  let '(r, w') := verify_existing wallet u' sc limit w1 in
  settled i user u' w w' [] \/ exists a, settled i user u' w w' [CGiveCredit wallet sc (ladder_limit_units sc) a].
Proof.
  intros Hs. unfold verify_existing, readCreditLimitOnChain, giveCreditScoreAndLimit, try_catch.
  cbv [mbind M_bind outside mret M_ret throw].
  assert (Hs1 : settled i user u' w (log_call (CReadCreditLimit wallet) w1) [])
    by (eapply settled_reads; [done|by apply reads_log]).
  destruct (gw_readCreditLimit _ _) as [n|e]; [|by left]. destruct (0 <? n); [by left|].
  destruct (gw_giveCredit _ _ _ _) as [code|e]; right; eexists; by apply settled_log.
Qed.

(** The row after a first-time set-up that was accepted. *)
Definition first_line (u : User) : User :=
  set_score_and_limit DEFAULT_SCORE (db_decimal (num_of_Z default_limit_units)) u.

Lemma verify_first_time_run wallet i user u' w w1 :
  w_tx w = NoTx -> user_id u' = i -> settled i user u' w w1 [] ->
  let '(r, w') := verify_first_time wallet u' w1 in
  exists a, let c := CGiveCredit wallet DEFAULT_SCORE default_limit_units a in
    settled i user u' w w' [c] \/
    (a = Ok 200 /\ writes_from w w' [c] /\ w_loans w' = w_loans w /\ w_side w' = w_side w /\
     w_users w' = <[i := first_line u']> (w_users w)).
Proof.
  intros Htx Hid Hs. unfold verify_first_time, giveCreditScoreAndLimit, try_catch.
  cbv [mbind M_bind outside mret M_ret throw]. set (a := gw_giveCredit _ _ _ _).
  set (w2 := log_call _ w1).
  assert (Hs2 : settled i user u' w w2 [CGiveCredit wallet DEFAULT_SCORE default_limit_units a]) by by apply settled_log.
  clearbody a w2. destruct a as [code|e]; [|exists (Throw e); by left].
  destruct (Z.eqb_spec code 200) as [->|]; cbn [negb guard_throw throw]; [|exists (Ok code); by left].
  cbv [mret M_ret]. destruct Hs2 as ((Hl & Hsf & Ht & Hu & Hp) & Hw). unfold update_user. rewrite statement_NoTx by congruence.
  rewrite Hid, Hu, lookup_insert_eq. destruct (db_user_error _ _) as [e|]; [exists (Ok 200); by left; split; [split_and!|]|].
  unfold find_user. rewrite query_NoTx by (cbn; congruence).
  destruct (db_find_user _ _) as [[fresh|]|e]; exists (Ok 200); right; cbn; (split_and!; [done..|]);
    rewrite Hu, insert_insert_eq; done.
Qed.

(** The gates a user passes before any credit is given. *)
Definition verify_allowed (i : Z) (user u' : User) (w : World) : Prop :=
  filled (email (onboarding user)) = true /\ filled (workType (onboarding user)) = true /\
  (is_Some (termsAcceptedAt (onboarding user)) \/ platform (onboarding u') = Some "farcaster"%string) /\
  (platform (onboarding u') = Some "farcaster"%string -> i ∈ w_self w).

(** The line given: the one in the user's row, with the ladder's limit of its
    score, or the first one. *)
Definition credit_given (i : Z) (user u' : User) (w w' : World) : Prop :=
  exists s lim a, writes_from w w' [CGiveCredit (walletAddress user) s lim a] /\
    ((exists l, credit_line user = Some (s, l) /\ lim = limitUsdc (getStepForScore s) * TOKEN_UNIT env_decimals /\
        row_settled i user u' w w') \/
     (credit_line user = None /\ s = DEFAULT_SCORE /\ lim = TOKEN_UNIT env_decimals /\
        (row_settled i user u' w w' \/
         (a = Ok 200 /\ w_loans w' = w_loans w /\ w_side w' = w_side w /\ w_users w' = <[i := first_line u']> (w_users w))))).

Lemma verify_user_run i user pf w :
  w_tx w = NoTx -> w_users w !! i = Some user -> user_id user = i ->
  filled (email (onboarding user)) = true -> filled (workType (onboarding user)) = true ->
  exists u', let '(r, w') := verify_user (walletAddress user) user pf w in
  settled i user u' w w' [] \/ (verify_allowed i user u' w /\ credit_given i user u' w w').
Proof.
  intros Htx Hu Hid Hem Hwt. unfold verify_user. cbv [mbind M_bind].
  pose proof (settle_platform_run i user pf w Htx Hu Hid) as Hset.
  destruct (settle_platform user pf w) as [[[u' p]|e] w1]; destruct Hset as [Hw1 Hset].
  2: { destruct Hset as [u' Hr]. exists u'. by left. }
  destruct Hset as [Hr Hp]. exists u'. assert (Hs : settled i user u' w w1 []) by done.
  pose proof Hr as (Hl1 & Hsf1 & Ht1 & Hu1 & Hu').
  assert (Hcr : credit_line u' = credit_line user /\ user_id u' = i /\ termsAcceptedAt (onboarding u') = termsAcceptedAt (onboarding user))
    by (destruct Hu' as [->|[q ->]]; done).
  destruct Hcr as (Hcr & Hid' & Hterm).
  destruct (negb (bool_decide (is_Some (termsAcceptedAt (onboarding u')))) && _) eqn:Et; cbn [guard_throw throw]; [by left|].
  cbv [mret M_ret]. pose proof (ensure_self_run u' w1 ltac:(congruence)) as Hself.
  destruct (ensureSelfVerificationForPlatform u' w1) as [[[]|e] w2]; destruct Hself as [-> Hself]; [|by left].
  specialize (Hself eq_refl). cbn -[credit_line].
  assert (Hall : verify_allowed i user u' w).
  { split_and!; [done|done| |unfold w_self; rewrite <- Hsf1, <- Hid'; done].
    apply andb_false_iff in Et as [Et|Et]; apply negb_false_iff, bool_decide_eq_true_1 in Et; [left; congruence|right; congruence]. }
  rewrite Hcr. destruct (credit_line user) as [[sc limit]|] eqn:Ecl.
  - pose proof (verify_existing_run (walletAddress user) i user u' sc limit w w1 Hs) as H.
    destruct (verify_existing _ _ _ _ w1) as [r w']. destruct H as [H|(a & Hr' & Hw')]; [by left|right; split; [done|]].
    eexists sc, _, a. split; [exact Hw'|]. left. exists limit. split_and!; [done| |done].
    unfold ladder_limit_units. by rewrite toUnits_number.
  - pose proof (verify_first_time_run (walletAddress user) i user u' w w1 Htx Hid' Hs) as H.
    destruct (verify_first_time _ _ w1) as [r w']. destruct H as (a & H). right. split; [done|].
    exists DEFAULT_SCORE, default_limit_units, a.
    assert (Hlim : default_limit_units = TOKEN_UNIT env_decimals) by apply DEFAULT_CREDIT_LIMIT_value.
    destruct H as [[Hr' Hw']|(-> & Hw' & ? & ? & ?)]; (split; [exact Hw'|]); right; split_and!; try done; [by left|by right].
Qed.

(** ** Properties *)

(** C36. When [verify] gives credit. It writes on chain at most once, for the
    wallet of a registered user, and only past its gates: an email, a type of
    work, the terms accepted (or the Farcaster platform), and for Farcaster a
    verified identity. A user with a line in the database gets that score with
    the ladder's limit for it; any other gets score 1 and a limit of one token,
    which the database records only if the gateway answers 200. Otherwise at most
    the platform of the user's own row changes. *)
Theorem verify_correct (dto : VerifyUserDto) (w : World) (Hok : tables_ok w) (Htx : w_tx w = NoTx) :
  let '(r, w') := verify dto w in
  (same_tables w w' /\ writes_from w w' []) \/
  exists i user u', w_users w !! i = Some user /\ normalizeWallet (vd_walletAddress dto) = Ok (walletAddress user) /\
    (settled i user u' w w' [] \/ (verify_allowed i user u' w /\ credit_given i user u' w w')).
Proof.
  assert (Hno : same_tables w w /\ writes_from w w []) by (split; [by split_and!|apply reads_writes, reads_refl]).
  unfold verify. cbv [mbind M_bind lift]. destruct (normalizeWallet _) as [b|e]; [|by left].
  unfold find_user. rewrite query_NoTx by done.
  destruct (db_find_user w (by_wallet b)) as [[u|]|e] eqn:Eu; [|by left..].
  apply find_user_some in Eu as (i & Hu & Hb). unfold by_wallet in Hb. bool_to_prop. subst b.
  destruct (filled (email (onboarding u))) eqn:Eem; cbn [negb guard_throw throw]; [|by left]. cbv [mret M_ret].
  destruct (filled (workType (onboarding u))) eqn:Ewt; cbn [negb guard_throw throw]; [|by left]. cbv [mret M_ret].
  pose proof (verify_user_run i u (normalizePlatform (vd_platform dto)) w Htx Hu (proj1 Hok i u Hu) Eem Ewt) as H.
  destruct H as [u' H]. destruct (verify_user _ _ _ w) as [r w']. right. by exists i, u, u'.
Qed.
End Facts.

(** ** A concrete borrower *)

Definition sample_env : Env := {| env_decimals := 7; env_kycGate := Some "true"%string |}.

(** An outside that accepts the offer; the on-chain line is of one token. *)
Definition lending : Outside :=
  let down {A} : result A := Throw (PlainError "rpc") in
  {| gw_readCreditLimit _ _ := Ok 10000000; gw_readNextBorrowTime := Some (fun _ _ => Ok 0);
     gw_giveCredit _ _ _ _ := Ok 200;
     gw_createOffer _ _ _ t f := Ok {| offer_ok := true; offer_feeBps := f; offer_tenorDays := t;
                                        offer_maxAmountBase := "10000000"; offer_minedBlock := 1 |};
     gw_previewLate _ _ := down; gw_readLoan _ _ := Ok (Some {| active := true; oc_principal := 1; oc_amountDue := 1 |});
     gw_readLoanFull _ _ := down; gw_readPremium _ _ := down; gw_readIsDefaulted _ _ := down;
     gw_chainTimestamp _ := Ok (Some 1000); gw_verifyOpened _ _ _ := Ok true;
     gw_verifyRepay _ _ _ := Ok {| verified := true; reason := None; blockNumber := Some 1; paidUnits := Some 10500000 |};
     gw_accrueLate _ _ := down; now_ms _ := 1000000; kyc_name := "fake";
     kyc_createSession _ _ := down; kyc_getDecision _ _ := down |}.

Definition lending_world : World :=
  set_users {[ 1 := with_kyc sample_user {| kycStatus := "approved"; kycSessionId := Some "s1"%string;
                                            kycProvider := Some "fake"%string; kycApprovedAt := Some 0 |} ]} sample_world.

Definition sample_verify : VerifyUserDto := {| vd_walletAddress := sample_wallet; vd_platform := Some "webapp"%string |}.

Lemma lending_tables_ok : tables_ok lending_world.
Proof. split; [apply map_Forall_singleton; reflexivity|apply map_Forall_empty]. Qed.

(** The line of a row. *)
Definition line_of (i : Z) (w : World) : option (option Z * option num) :=
  (fun u => (score (credit u), creditLimit (credit u))) <$> w_users w !! i.

Lemma verify_correct_witness :
  line_of 1 (snd (verify (ENV := sample_env) (OUT := lending) sample_verify lending_world))
    = Some (Some 1, Some (num_of_Z 10000000)) /\
  let '(r, w') := verify (ENV := sample_env) (OUT := lending) sample_verify lending_world in
  (same_tables lending_world w' /\ writes_from lending_world w' []) \/
  exists i user u', w_users lending_world !! i = Some user /\ normalizeWallet sample_wallet = Ok (walletAddress user) /\
    (settled i user u' lending_world w' [] \/
     (verify_allowed i user u' lending_world /\ credit_given (ENV := sample_env) i user u' lending_world w')).
Proof.
  split; [vm_compute; reflexivity|].
  pose proof (verify_correct (ENV := sample_env) (OUT := lending) sample_verify lending_world lending_tables_ok eq_refl) as H.
  exact H.
Defined.
