(* ===== verification/LoanService.v ===== *)
(** * Loans: terms, borrowing, opening ([backend/src/loan/loan.service.ts]) *)

From stdpp Require Import base tactics list gmap strings numbers.
From Stdlib Require Import Lia ZArith QArith Ascii.
From S2P Require Import Prelude JsString JsNum AmountUnits DecimalLib CreditPolicy LoanCalc Strkey Entities Gateway Store Kyc EarlyAccess LoanVerification.

Local Open Scope Z_scope.

(** ** Amounts *)

Section Amounts.
  Context `{D : DecimalJs}.

(** [amount.replace(/,/g, '')]. *)
Definition drop_commas (s : string) : string :=
  of_chars (List.filter (fun c => negb (Ascii.eqb c ","%char)) (chars s)).

Definition parseAmountHuman (amount : string) : result dec :=
  let cleaned := trim (drop_commas amount) in
  if bool_decide (cleaned = ""%string) then Throw (BadRequestException "Amount is required")
  else match dec_of_string cleaned with
       | None => Throw (BadRequestException "Invalid amount")
       | Some d => if dec_lte d (dec_of_int 0)
                   then Throw (BadRequestException "Amount must be greater than 0") else Ok d
       end.

Definition formatAmount (d : dec) : string := dec_toFixed 2 d.

Definition toNumber2 (d : dec) : num := Number_of_string (dec_toFixed 2 d).

Definition toBps (d : dec) : num := Number_of_string (dec_toFixed 0 (dec_mul d (dec_of_int 10000))).

(** ** Rates of a term *)

Record TieredContext := {
  tc_onTimeLoans : Z;
  tc_walletQuality : WalletQuality;
  tc_totalRepaidUsd : num;
  tc_lateLoans : Z;
}.

Record TermRates := { tr_monthlyRate : dec; tr_periodRate : dec; tr_tierName : option PricingTierName }.

Definition getRatesForTerm (days : Z) (sc : option Z) (pDefault : option num)
    (tieredParams : option TieredContext) : result TermRates :=
  if days <=? 0 then Throw (BadRequestException "Invalid tenorDays")
  else
    let d := dec_of_int days in
    let '(baseMonthlyRate, tierName) :=
      match tieredParams with
      | Some tc =>
          let r := getTieredMonthlyRate pDefault (tc_onTimeLoans tc) (tc_walletQuality tc)
                     (tc_totalRepaidUsd tc) (tc_lateLoans tc) in
          (dec_of_num (monthlyRate r), Some (tier r))
      | None => (getRiskAdjustedMonthlyRate sc pDefault, None)
      end in
    let relative := dec_div (dec_minus d (dec_of_int 14)) (dec_of_int 14) in
    let monthlyRateForTerm :=
      dec_mul baseMonthlyRate (dec_plus (dec_of_int 1) (dec_mul relative (dec_of_num (lit 4 1)))) in
    let monthlyRate := dec_max monthlyRateForTerm (dec_of_int 0) in
    let periodRate := dec_div (dec_mul monthlyRate d) (dec_of_int 30) in
    Ok {| tr_monthlyRate := monthlyRate; tr_periodRate := periodRate; tr_tierName := tierName |}.

Definition getFeeBpsForTerm (days : Z) (sc : option Z) (pDefault : option num)
    (tieredParams : option TieredContext) : result num :=
  rates ← getRatesForTerm days sc pDefault tieredParams;
  mret (toBps (tr_periodRate rates)).

Record LoanTermOption := {
  lt_days : Z;
  lt_periodRatePercent : num;
  lt_monthlyRatePercent : num;
  lt_feeBps : num;
  lt_principalAmount : string;
  lt_interestAmount : string;
  lt_finalAmount : string;
  lt_tier : PricingTierName;
}.

Definition term_option (sc : option Z) (pDefault : option num) (tc : TieredContext) (t : PricingTierName)
    (principal : dec) (days : Z) : result LoanTermOption :=
  rates ← getRatesForTerm days sc pDefault (Some tc);
  let interest := dec_mul principal (tr_periodRate rates) in
  mret {| lt_days := days;
          lt_periodRatePercent := toNumber2 (dec_mul (tr_periodRate rates) (dec_of_int 100));
          lt_monthlyRatePercent := toNumber2 (dec_mul (tr_monthlyRate rates) (dec_of_int 100));
          lt_feeBps := toBps (tr_periodRate rates);
          lt_principalAmount := formatAmount principal;
          lt_interestAmount := formatAmount interest;
          lt_finalAmount := formatAmount (dec_plus principal interest);
          lt_tier := t |}.
End Amounts.

Definition TERM_OPTIONS : list Z := [7; 14; 21].

Record GetLoanTermsResponse := {
  gt_walletAddress : string;
  gt_score : option Z;
  gt_baseAmount : string;
  gt_terms : list LoanTermOption;
  gt_isPreferentialRate : bool;
  gt_adjustedLimitUsdc : Z;
  gt_pricingTier : PricingTierName;
}.

Record BorrowLoanDto := { bd_amountHuman : string; bd_receiver : string; bd_tenorDays : option Z }.

Record InformLoanDto := { il_walletAddress : string; il_amountHuman : string; il_tenorDays : Z; il_txHash : string }.

(** [(user.walletQuality as WalletQuality) ?? 'fea']. *)
Definition wallet_quality_of (q : option string) : WalletQuality :=
  match q with Some "buena"%string => buena | Some "media"%string => media | _ => fea end.

Section LoanService.
  Context `{ENV : Env} `{DB : Database} `{OUT : Outside} `{D : DecimalJs}.

(** ** Reading *)

Record HistoryEntry := {
  he_id : Z; he_principal : num; he_amountPaid : num; he_status : LoanStatus;
  he_createdAt : Z; he_closedAt : option Z;
}.

Definition getHistory (wallet : string) : M World (list HistoryEntry) :=
  loans ← find_loans_latest (fun l => bool_decide (borrowerAddress (terms l) = wallet)) loan_createdAt 50;
  mret (map (fun l => {| he_id := loan_id l; he_principal := principal (terms l);
                         he_amountPaid := amountPaid (state l); he_status := status (state l);
                         he_createdAt := loan_createdAt l; he_closedAt := closedAt (state l) |}) loans).

Definition on_time_of (i : Z) (l : Loan) : bool := of_user i l && repaidOnTime (state l).

Definition late_of (i : Z) (l : Loan) : bool := of_user i l && bool_decide (status (state l) = REPAID_LATE).

Definition getTieredPricingContext (i : Z) : M World TieredContext :=
  onTimeLoans ← count_loans (on_time_of i);
  rawLateLoans ← count_loans (late_of i);
  totalRepaid ← sum_paid (of_user i);
  userRow ← find_user (fun u => bool_decide (user_id u = i));
  let hadDefault := match userRow with Some u => hadDefaultEver (credit u) | None => false end in
  mret {| tc_onTimeLoans := onTimeLoans;
          tc_walletQuality := wallet_quality_of (userRow ≫= fun u => walletQuality (credit u));
          tc_totalRepaidUsd := totalRepaid;
          tc_lateLoans := if hadDefault then rawLateLoans else 0 |}.

(** [tieredCtx.walletQuality = (user.walletQuality as WalletQuality) ?? 'fea']. *)
Definition pricing_context (u : User) : M World TieredContext :=
  tc ← getTieredPricingContext (user_id u);
  mret {| tc_onTimeLoans := tc_onTimeLoans tc;
          tc_walletQuality := wallet_quality_of (walletQuality (credit u));
          tc_totalRepaidUsd := tc_totalRepaidUsd tc; tc_lateLoans := tc_lateLoans tc |}.

Definition getLoanTerms (walletAddress amountHuman : string) : M World GetLoanTermsResponse :=
  wallet ← lift (normalizeWallet walletAddress);
  user ← find_user (by_wallet wallet);
  user ← lift (result_of_option (NotFoundException "User not found") user);
  let sc := Entities.score (credit user) in
  let pDefault := toNum (riskPDefault (credit user)) in
  principal ← lift (parseAmountHuman amountHuman);
  tc ← pricing_context user;
  let tiered := getTieredMonthlyRate pDefault (tc_onTimeLoans tc) (tc_walletQuality tc)
                  (tc_totalRepaidUsd tc) (tc_lateLoans tc) in
  terms ← lift (mapM (term_option sc pDefault tc (tier tiered) principal) TERM_OPTIONS);
  mret {| gt_walletAddress := wallet; gt_score := sc; gt_baseAmount := formatAmount principal;
          gt_terms := terms; gt_isPreferentialRate := nltb (monthlyRate tiered) (lit 28 2);
          gt_adjustedLimitUsdc := limitUsdc (getStepForScore (default 1 sc));
          gt_pricingTier := tier tiered |}.

(** ** Borrowing *)

Definition assertNoBorrowCooldown (borrower : string) : M World unit :=
  match gw_readNextBorrowTime with
  | None => mret tt
  | Some read =>
      nextAt ← try_catch (nextAt ← outside (fun t => read t borrower) (fun _ => CReadNextBorrowTime borrower);
                          mret (Some nextAt))
                 (fun _ => mret None);
      match nextAt with
      | None => mret tt
      | Some nextAt =>
          if nextAt =? 0 then mret tt
          else
            ts ← getChainBlockTimestamp;
            now ← match ts with
                  | Some t => mret t
                  | None => ms ← date_now; mret (ms / 1000)
                  end;
            match borrowCooldownError nextAt now with Some e => throw e | None => mret tt end
      end
  end.

(** [Number(onChainLimitUnits) / TOKEN_UNIT]. *)
Definition units_to_usdc (units : Z) : num := (Number_of_bigint units / num_of_Z (TOKEN_UNIT env_decimals))%num.

(** [effectiveLimitUsdc] as a decimal: the ladder's, or the on-chain one when it
    is positive and smaller. *)
Definition effective_limit (ladderLimitUsdc : Z) (onChainLimitUnits : Z) : dec :=
  let onChain := units_to_usdc onChainLimitUnits in
  if (num_of_Z 0 <? onChain)%num && (onChain <? num_of_Z ladderLimitUsdc)%num
  then dec_of_num onChain else dec_of_int ladderLimitUsdc.

Definition read_effective_limit (borrower : string) (ladderLimitUsdc : Z) : M World dec :=
  try_catch (units ← readCreditLimitOnChain borrower; mret (effective_limit ladderLimitUsdc units))
    (fun _ => mret (dec_of_int ladderLimitUsdc)).

(** [setLoanOffer], then the late-fee rate without waiting. *)
Definition offer_loan (amountHuman borrower : string) (tenor : Z) (fee : num) : M World LoanOffer :=
  try_catch
    (offer ← createLoanOfferBackend amountHuman borrower tenor fee;
     _ ← setPremiumConfig borrower LATE_RATE_PER_SEC_WAD;
     mret offer)
    (fun _ => throw (BadRequestException "Creating loan offer failed")).

(** [!user.phone || !user.phoneVerifiedAt]. *)
Definition phone_missing (u : User) : bool :=
  negb (filled (phone (phone_columns u))) || negb (bool_decide (is_Some (phoneVerifiedAt (phone_columns u)))).

(** [borrow] once the user is known. *)
Definition borrow_user (amountHuman borrower : string) (tenor : Z) (user : User) : M World LoanOffer :=
  _ ← guard_throw (phone_missing user) (BadRequestException "PHONE_VERIFICATION_REQUIRED");
  _ ← lift (assertKycGate env_kycGate user);
  _ ← assertNoBorrowCooldown borrower;
  let scoreNum := Entities.score (credit user) in
  let pDefaultNum := toNum (riskPDefault (credit user)) in
  limit ← read_effective_limit borrower (limitUsdc (getStepForScore (default 1 scoreNum)));
  requested ← lift (parseAmountHuman amountHuman);
  _ ← guard_throw (dec_gt requested limit) (BadRequestException "Amount exceeds your credit limit");
  tc ← pricing_context user;
  fee ← lift (getFeeBpsForTerm tenor scoreNum pDefaultNum (Some tc));
  offer_loan amountHuman borrower tenor fee.

Definition borrow (dto : BorrowLoanDto) : M World LoanOffer :=
  match bd_tenorDays dto with
  | None => throw (BadRequestException "Missing amountHuman, receiver or tenorDays")
  | Some tenor =>
      _ ← guard_throw (bool_decide (bd_amountHuman dto = ""%string) || bool_decide (bd_receiver dto = ""%string))
            (BadRequestException "Missing amountHuman, receiver or tenorDays");
      borrower ← lift (normalizeWallet (bd_receiver dto));
      _ ← guard_throw (tenor <=? 0) (BadRequestException "Invalid tenorDays");
      _ ← guard_throw (negb (bool_decide (tenor ∈ TERM_OPTIONS))) (BadRequestException "Invalid tenorDays");
      user ← find_user (by_wallet borrower);
      match user with
      | None => throw (NotFoundException "User not found")
      | Some user => borrow_user (bd_amountHuman dto) borrower tenor user
      end
  end.

(** ** Recording an opening *)

(** [{ userId, status: OPEN, closedAt: IsNull() }]. *)
Definition open_of (i : Z) (l : Loan) : bool :=
  of_user i l && bool_decide (status (state l) = OPEN) && negb (bool_decide (is_Some (closedAt (state l)))).

Definition opened_by (tx : string) (l : Loan) : bool := bool_decide (openTxHash (terms l) = Some tx).

(** The defaulted loans left unclosed. *)
Definition orphan_of (i : Z) (l : Loan) : bool :=
  of_user i l && (bool_decide (status (state l) = DEFAULTED) || bool_decide (status (state l) = DEFAULTED_IN_GRACE))
  && negb (bool_decide (is_Some (closedAt (state l)))) && negb (bool_decide (is_Some (closeTxHash (state l)))).

Definition autoclose (now : Z) (l : Loan) : Loan :=
  with_state l {| status := REPAID_LATE; amountPaid := amountPaid (state l); repaidOnTime := false;
                  closedAt := Some now;
                  closeTxHash := Some ("SYNTHETIC_ORPHAN_AUTOCLOSE_" +:+ String_of_int (loan_id l))%string;
                  syncedByChain := syncedByChain (state l) |}.

Definition fresh_state : LoanState :=
  {| status := OPEN; amountPaid := num_of_Z 0; repaidOnTime := false; closedAt := None; closeTxHash := None;
     syncedByChain := false |}.

(** [try { save } catch (23505) { fetch the existing row }]. *)
Definition insert_or_existing (t : LoanTerms) (tx : string) : M World Loan :=
  try_catch (insert_loan t fresh_state)
    (fun e =>
       match e with
       | UniqueViolation _ =>
           existing ← find_loan (opened_by tx) None;
           match existing with Some l => mret l | None => throw e end
       | _ => throw e
       end).

(** The body of the transaction. *)
Definition open_loan_tx (user : User) (wallet : string) (dto : InformLoanDto) (principalNum dueNum fee : num)
  : M World Loan :=
  existingOpen ← find_loan (open_of (user_id user)) None;
  match existingOpen with
  | Some l => mret l
  | None =>
      existingByTx ← find_loan (opened_by (il_txHash dto)) None;
      match existingByTx with
      | Some l => mret l
      | None =>
          orphans ← find_loans (orphan_of (user_id user));
          _ ← match orphans with
              | [] => mret tt
              | _ => now ← date_now; save_loans (map (autoclose now) orphans)
              end;
          startAt ← date_now;
          insert_or_existing
            {| userId := user_id user; borrowerAddress := wallet; principal := principalNum;
               amountDueAtOpen := dueNum; tenorDays := il_tenorDays dto; feeBps := fee;
               startAt := startAt; dueAt := startAt + il_tenorDays dto * 24 * 60 * 60 * 1000;
               openTxHash := Some (il_txHash dto) |} (il_txHash dto)
      end
  end.

Definition assertLoanOpenedTxValid (tx wallet : string) : M World unit :=
  verifyLoanOpenedByTxHash tx wallet ≫= fun matched : bool =>
  guard_throw (negb matched) (BadRequestException "txHash is not a LoanOpened event for this wallet").

(** From the known user on; the answer is the id of the loan. *)
Definition inform_opened_user (user : User) (wallet : string) (dto : InformLoanDto) : M World Z :=
  let tenor := il_tenorDays dto in
  _ ← guard_throw (tenor <=? 0) (BadRequestException "Invalid tenorDays");
  _ ← guard_throw (negb (bool_decide (tenor ∈ TERM_OPTIONS))) (BadRequestException "Invalid tenorDays");
  existing ← find_loan (opened_by (il_txHash dto)) None;
  match existing with
  | Some l => mret (loan_id l)
  | None =>
      _ ← assertLoanOpenedTxValid (il_txHash dto) wallet;
      principalDec ← lift (parseAmountHuman (il_amountHuman dto));
      tc ← pricing_context user;
      fee ← lift (getFeeBpsForTerm tenor (Entities.score (credit user)) (toNum (riskPDefault (credit user))) (Some tc));
      let feeDec := dec_div (dec_mul principalDec (dec_of_num fee)) (dec_of_int 10000) in
      let dueNum := Number_of_string (formatAmount (dec_plus principalDec feeDec)) in
      loan ← transaction (open_loan_tx user wallet dto (Number_of_string (formatAmount principalDec)) dueNum fee);
      mret (loan_id loan)
  end.

Definition informLoanOpened (dto : InformLoanDto) : M World Z :=
  wallet ← lift (normalizeWallet (il_walletAddress dto));
  user ← find_user (by_wallet wallet);
  match user with
  | None => throw (NotFoundException "User not found")
  | Some user => inform_opened_user user wallet dto
  end.

(** ** Lemmas *)

Lemma getTieredPricingContext_reads i : only_reads (getTieredPricingContext i).
Proof. unfold getTieredPricingContext, count_loans, sum_paid, find_user. solve_reads. Qed.

Lemma pricing_context_reads u : only_reads (pricing_context u).
Proof. unfold pricing_context. apply only_reads_bind; [apply getTieredPricingContext_reads|]. solve_reads. Qed.

Lemma cooldown_reads b : only_reads (assertNoBorrowCooldown b).
Proof. unfold assertNoBorrowCooldown, getChainBlockTimestamp, date_now. solve_reads. Qed.

Lemma read_effective_limit_reads b n : only_reads (read_effective_limit b n).
Proof. unfold read_effective_limit, readCreditLimitOnChain. solve_reads. Qed.

Context {LAWS : DatabaseLaws DB}.

(** What the database knows of the user goes into the pricing. *)
Definition pricing_facts (w : World) (u : User) (tc : TieredContext) : Prop :=
  tc_onTimeLoans tc = Z.of_nat (size (loans_where (on_time_of (user_id u)) w)) /\
  (tc_lateLoans tc = 0 \/
   (exists i v, w_users w !! i = Some v /\ user_id v = user_id u /\ hadDefaultEver (credit v) = true) /\
   tc_lateLoans tc = Z.of_nat (size (loans_where (late_of (user_id u)) w))).

Lemma pricing_context_ok u w r w' :
  w_tx w = NoTx -> pricing_context u w = (r, w') ->
  w' = w /\ match r with Ok tc => pricing_facts w u tc | Throw _ => True end.
Proof.
  intros Htx. unfold pricing_context, getTieredPricingContext, count_loans, sum_paid, find_user.
  cbv [mbind M_bind mret M_ret]. rewrite !query_NoTx by done.
  destruct (db_count_loans w (on_time_of _)) as [n|e] eqn:En; [|by intros [= <- <-]].
  destruct (db_count_loans w (late_of _)) as [l|e] eqn:El; [|by intros [= <- <-]].
  destruct (db_sum_paid w _) as [s|e]; [|by intros [= <- <-]].
  destruct (db_find_user w _) as [v|e] eqn:Ev; [|by intros [= <- <-]]. intros [= <- <-]. split; [done|].
  apply count_loans_spec in En, El. split; [done|]. cbn.
  destruct v as [v|]; [|by left]. destruct (hadDefaultEver (credit v)) eqn:Eh; [right|by left].
  apply find_user_some in Ev as (i & Hv & Hp). bool_to_prop. split; [by exists i, v|done].
Qed.

(** The limit a request is held to: the ladder's, or the chain's answer. *)
Definition limit_of (borrower : string) (u : User) (limit : dec) : Prop :=
  exists t, limit = match gw_readCreditLimit t borrower with
                    | Ok units => effective_limit (limitUsdc (getStepForScore (default 1 (Entities.score (credit u))))) units
                    | Throw _ => dec_of_int (limitUsdc (getStepForScore (default 1 (Entities.score (credit u)))))
                    end.

Lemma read_effective_limit_ok b n w :
  exists w', read_effective_limit b n w =
    (Ok (match gw_readCreditLimit (w_calls w) b with
         | Ok units => effective_limit n units | Throw _ => dec_of_int n end), w').
Proof.
  unfold read_effective_limit, readCreditLimitOnChain, try_catch. cbv [mbind M_bind outside mret M_ret].
  destruct (gw_readCreditLimit (w_calls w) b); eexists; reflexivity.
Qed.

(** What must hold for an offer to be made to [u] for [tenor] days at [fee]. *)
Definition offer_allowed (w : World) (amountHuman : string) (u : User) (tenor : Z) (fee : num) : Prop :=
  tenor ∈ TERM_OPTIONS /\ phone_missing u = false /\ assertKycGate env_kycGate u = Ok tt /\
  fst (assertNoBorrowCooldown (walletAddress u) w) = Ok tt /\
  (exists requested limit, parseAmountHuman amountHuman = Ok requested /\
     limit_of (walletAddress u) u limit /\ dec_gt requested limit = false) /\
  exists tc, pricing_facts w u tc /\
    getFeeBpsForTerm tenor (Entities.score (credit u)) (toNum (riskPDefault (credit u))) (Some tc) = Ok fee.

(** The calls of an offer and the answer they lead to. *)
Definition offer_run (amountHuman borrower : string) (tenor : Z) (fee : num) (pre evs : list call)
    (r : result LoanOffer) : Prop :=
  Forall (fun c => writes_chain c = false) pre /\
  ((exists offer, r = Ok offer /\
      evs = pre ++ [CCreateOffer amountHuman borrower tenor fee (Ok offer); CSetPremium borrower LATE_RATE_PER_SEC_WAD]) \/
   (exists e, r = Throw (BadRequestException "Creating loan offer failed") /\
      evs = pre ++ [CCreateOffer amountHuman borrower tenor fee (Throw e)])).

Lemma offer_loan_run amountHuman borrower tenor fee w w1 pre :
  reads w w1 -> w_calls w1 = w_calls w ++ pre -> Forall (fun c => writes_chain c = false) pre ->
  let '(r, w') := offer_loan amountHuman borrower tenor fee w1 in
  w_users w' = w_users w /\ w_loans w' = w_loans w /\
  exists evs, w_calls w' = w_calls w ++ evs /\ offer_run amountHuman borrower tenor fee pre evs r.
Proof.
  intros (Hu & Hl & _) Hc Hpre. unfold offer_loan, createLoanOfferBackend, setPremiumConfig, try_catch.
  cbv [mbind M_bind outside mret M_ret throw].
  destruct (gw_createOffer _ _ _ _ _) as [offer|e]; cbn; split_and!; try done; rewrite Hc, <- ?app_assoc;
    eexists; (split; [reflexivity|]); split; [done|left; eauto|done|right; eauto].
Qed.

(** Nothing was offered. *)
Definition no_offer (w : World) (r : result LoanOffer) (w' : World) : Prop :=
  is_ok r = false /\ reads w w'.

Lemma borrow_user_run amountHuman tenor u w :
  w_tx w = NoTx -> tenor ∈ TERM_OPTIONS ->
  let '(r, w') := borrow_user amountHuman (walletAddress u) tenor u w in
  no_offer w r w' \/
  (w_users w' = w_users w /\ w_loans w' = w_loans w /\
   exists fee pre evs, w_calls w' = w_calls w ++ evs /\
     offer_run amountHuman (walletAddress u) tenor fee pre evs r /\ offer_allowed w amountHuman u tenor fee).
Proof.
  intros Htx Hten. unfold borrow_user. cbv [mbind M_bind].
  destruct (phone_missing u) eqn:Eph; cbn [guard_throw throw]; [by left; split; [|apply reads_refl]|].
  cbv [mret M_ret lift].
  destruct (assertKycGate env_kycGate u) as [[]|e] eqn:Ekyc; [|by left; split; [|apply reads_refl]].
  pose proof (cooldown_reads (walletAddress u) w Htx) as Hr1.
  destruct (assertNoBorrowCooldown (walletAddress u) w) as [[[]|e] w1] eqn:Ecd; [|by left].
  cbn [snd] in Hr1. assert (Htx1 : w_tx w1 = NoTx) by (destruct Hr1 as (_ & _ & _ & -> & _); done).
  pose proof (read_effective_limit_reads (walletAddress u) (limitUsdc (getStepForScore (default 1 (Entities.score (credit u))))) w1 Htx1) as Hr2.
  destruct (read_effective_limit_ok (walletAddress u) (limitUsdc (getStepForScore (default 1 (Entities.score (credit u))))) w1) as (w2 & El).
  rewrite El in Hr2 |- *. cbn [snd] in Hr2.
  pose proof (reads_trans _ _ _ Hr1 Hr2) as Hr. assert (Htx2 : w_tx w2 = NoTx) by (destruct Hr as (_ & _ & _ & -> & _); done).
  set (limit := match gw_readCreditLimit _ _ with Ok _ => _ | Throw _ => _ end).
  destruct (parseAmountHuman amountHuman) as [req|e] eqn:Ereq; [|by left].
  destruct (dec_gt req limit) eqn:Egt; cbn [guard_throw throw]; [by left|]. cbv [mret M_ret].
  destruct (pricing_context u w2) as [r3 w3] eqn:Epc. apply pricing_context_ok in Epc as [-> Hpf]; [|done].
  destruct r3 as [tc|e]; [|by left].
  destruct (getFeeBpsForTerm _ _ _ _) as [fee|e] eqn:Efee; [|by left].
  pose proof Hr as (Hu & Hl & _ & _ & pre & Hc & Hpre).
  pose proof (offer_loan_run amountHuman (walletAddress u) tenor fee w w2 pre Hr Hc Hpre) as Ho.
  destruct (offer_loan _ _ _ _ w2) as [r w']. destruct Ho as (? & ? & evs & ? & ?).
  right. split_and!; [done|done|]. exists fee, pre, evs. split_and!; [done|done|].
  unfold offer_allowed. rewrite Ecd. split_and!; try done.
  - exists req, limit. split_and!; [done| |done]. by exists (w_calls w1).
  - exists tc. split; [|done]. unfold pricing_facts, loans_where in *. by rewrite Hu, Hl in Hpf.
Qed.

(** ** Properties: borrowing *)

(** C4. What [borrow] can do: it never writes the database, and whatever the
    gateway and the database answer it either offers nothing, writes nothing on
    chain and throws, or makes exactly one loan offer - for the amount asked, to
    the wallet of a registered user whose row passes every guard: a tenor of 7, 14
    or 21 days, a verified phone, the KYC gate, no cooldown, an amount that does
    not exceed the ladder limit of the score nor a smaller positive on-chain
    limit - at the fee that the user's own history in the database prices. The
    late-fee rate is set right after an accepted offer, and never without one. *)
Theorem borrow_guarded (dto : BorrowLoanDto) (w : World) (Htx : w_tx w = NoTx) :
  let '(r, w') := borrow dto w in
  no_offer w r w' \/
  (w_users w' = w_users w /\ w_loans w' = w_loans w /\
   exists i u tenor fee pre evs,
     w_users w !! i = Some u /\ normalizeWallet (bd_receiver dto) = Ok (walletAddress u) /\
     bd_tenorDays dto = Some tenor /\ w_calls w' = w_calls w ++ evs /\
     offer_run (bd_amountHuman dto) (walletAddress u) tenor fee pre evs r /\
     offer_allowed w (bd_amountHuman dto) u tenor fee).
Proof.
  unfold borrow. destruct (bd_tenorDays dto) as [tenor|]; [|by left; split; [|apply reads_refl]].
  cbv [mbind M_bind].
  destruct (bool_decide _ || bool_decide _); cbn [guard_throw throw]; [by left; split; [|apply reads_refl]|].
  cbv [mret M_ret lift].
  destruct (normalizeWallet (bd_receiver dto)) as [b|e] eqn:Eb; [|by left; split; [|apply reads_refl]].
  destruct (tenor <=? 0); cbn [guard_throw throw]; [by left; split; [|apply reads_refl]|]. cbv [mret M_ret].
  destruct (bool_decide (tenor ∈ TERM_OPTIONS)) eqn:Et; cbn [negb guard_throw throw];
    [|by left; split; [|apply reads_refl]]. cbv [mret M_ret]. bool_to_prop.
  unfold find_user. rewrite query_NoTx by done.
  destruct (db_find_user w (by_wallet b)) as [[u|]|e] eqn:Eu; try (by left; split; [|apply reads_refl]).
  apply find_user_some in Eu as (i & Hu & Hp). unfold by_wallet in Hp. bool_to_prop. subst b.
  pose proof (borrow_user_run (bd_amountHuman dto) tenor u w Htx Et) as Hrun.
  destruct (borrow_user _ _ _ _ w) as [r w'].
  destruct Hrun as [?|(? & ? & fee & pre & evs & ? & ? & ?)]; [by left|right].
  split_and!; [done|done|]. exists i, u, tenor, fee, pre, evs. done.
Qed.
End LoanService.

(** ** Recording an opening *)

Section Opening.
  Context `{ENV : Env} `{DB : Database} `{OUT : Outside} `{D : DecimalJs} {LAWS : DatabaseLaws DB}.

(** The new calls. *)
Definition extends (w w' : World) : Prop := exists evs, w_calls w' = w_calls w ++ evs.

Lemma extends_refl w : extends w w.
Proof. exists []. by rewrite app_nil_r. Qed.

Lemma extends_tx s w : extends w (set_tx s w).
Proof. exists []. by rewrite app_nil_r. Qed.

Lemma extends_trans w1 w2 w3 : extends w1 w2 -> extends w2 w3 -> extends w1 w3.
Proof. intros (e1 & H1) (e2 & H2). exists (e1 ++ e2). by rewrite H2, H1, app_assoc. Qed.

Lemma reads_extends w w' : reads w w' -> extends w w'.
Proof. intros (_ & _ & _ & _ & evs & H & _). by exists evs. Qed.

(** Some orphans of user [i] were closed at [now]; nothing else changed. *)
Definition autoclosed (i now : Z) (w w' : World) : Prop :=
  forall j, w_loans w' !! j = w_loans w !! j \/
    exists l, w_loans w !! j = Some l /\ orphan_of i l = true /\ w_loans w' !! j = Some (stored_loan (autoclose now l)).

Lemma save_loans_run i now ls w0 w :
  tables_ok w0 -> (forall l, l ∈ ls -> exists j, w_loans w0 !! j = Some l /\ orphan_of i l = true) ->
  w_tx w = TxActive -> autoclosed i now w0 w -> w_users w = w_users w0 ->
  match save_loans (map (autoclose now) ls) w with
  | (Ok _, w') => w_tx w' = TxActive /\ autoclosed i now w0 w' /\ w_users w' = w_users w0 /\
                  w_side w' = w_side w /\ w_calls w' = w_calls w
  | (Throw _, w') => w_calls w' = w_calls w
  end.
Proof.
  intros [_ Hok]. revert w. induction ls as [|l ls IH]; intros w Hls Htx Ha Hu; [done|].
  cbn [map save_loans]. cbv [mbind M_bind]. unfold save_loan. rewrite statement_active by done.
  destruct (db_loan_error w (autoclose now l)) as [e|]; [done|]. cbn [fst snd].
  destruct (Hls l ltac:(left)) as (j & Hj & Ho).
  apply (IH (set_loans (<[loan_id (autoclose now l):=stored_loan (autoclose now l)]> (w_loans w)) w)); try done.
  - intros l' Hl'. apply Hls. by right.
  - intros k. pose proof (Hok j l Hj) as Hid. cbn in Hid. cbn [w_loans set_loans autoclose with_state loan_id].
    rewrite Hid. destruct (decide (k = j)) as [->|Hne].
    + right. exists l. rewrite lookup_insert_eq. done.
    + rewrite lookup_insert_ne by done. apply Ha.
Qed.

(** The row a new opening adds. *)
Definition opened_row (user : User) (wallet : string) (dto : InformLoanDto) (p due fee : num) (start i created : Z) : Loan :=
  {| loan_id := i;
     terms := {| userId := user_id user; borrowerAddress := wallet; principal := p; amountDueAtOpen := due;
                 tenorDays := il_tenorDays dto; feeBps := fee; startAt := start;
                 dueAt := start + il_tenorDays dto * 24 * 60 * 60 * 1000; openTxHash := Some (il_txHash dto) |};
     state := fresh_state; late := no_snapshot; loan_createdAt := created |}.

(** How an opening leaves the loans: an existing row answers the request, or the
    user had no open loan, the orphans are closed and one row is added. *)
Definition opening (user : User) (wallet : string) (dto : InformLoanDto) (p due fee : num) (w w' : World) (l : Loan) : Prop :=
  (w_loans w' = w_loans w /\ (exists j, w_loans w !! j = Some l) /\
   (open_of (user_id user) l = true \/ opened_by (il_txHash dto) l = true)) \/
  ((forall j l', w_loans w !! j = Some l' -> open_of (user_id user) l' = false /\ opened_by (il_txHash dto) l' = false) /\
   exists w1 now start created, autoclosed (user_id user) now w w1 /\
     l = opened_row user wallet dto p due fee start (loan_id l) created /\
     w_loans w1 !! loan_id l = None /\
     w_loans w' = <[loan_id l := stored_loan l]> (w_loans w1)).

Lemma insert_or_existing_run t tx w :
  w_tx w = TxActive ->
  match insert_or_existing t tx w with
  | (Ok l, w') => w_tx w' = TxActive /\ w_users w' = w_users w /\ w_side w' = w_side w /\ w_calls w' = w_calls w /\
      l = {| loan_id := loan_id l; terms := t; state := fresh_state; late := no_snapshot; loan_createdAt := loan_createdAt l |} /\
      w_loans w !! loan_id l = None /\ w_loans w' = <[loan_id l := stored_loan l]> (w_loans w)
  | (Throw _, w') => w_calls w' = w_calls w
  end.
Proof.
  intros Htx. unfold insert_or_existing, try_catch, insert_loan. rewrite statement_active by done.
  set (l := {| loan_id := db_new_loan_id w |}).
  destruct (db_loan_error w l) as [e|] eqn:E; cbn [fst snd].
  - by destruct e.
  - split_and!; try done. apply new_loan_id_fresh.
Qed.

Lemma open_loan_tx_run user wallet dto p due fee w :
  tables_ok w -> w_tx w = TxActive ->
  match open_loan_tx user wallet dto p due fee w with
  | (Ok l, w') => w_tx w' = TxActive /\ w_users w' = w_users w /\ extends w w' /\ opening user wallet dto p due fee w w' l
  | (Throw _, w') => extends w w'
  end.
Proof.
  intros Hok Htx. unfold open_loan_tx. cbv [mbind M_bind]. unfold find_loan at 1. rewrite query_active by done.
  destruct (db_find_loan w (open_of (user_id user)) None) as [[l|]|e] eqn:E1; [|  |by apply extends_tx].
  { apply find_loan_some in E1 as (j & Hj & Hp). split_and!; try done; [apply extends_refl|]. left. eauto. }
  unfold find_loan at 1. rewrite query_active by done.
  destruct (db_find_loan w (opened_by (il_txHash dto)) None) as [[l|]|e] eqn:E2; [| |by apply extends_tx].
  { apply find_loan_some in E2 as (j & Hj & Hp). split_and!; try done; [apply extends_refl|]. left. eauto. }
  unfold find_loans at 1. rewrite query_active by done.
  destruct (db_find_loans w (orphan_of (user_id user))) as [orphans|e] eqn:E3; [|by apply extends_tx].
  assert (Hno : forall j l', w_loans w !! j = Some l' ->
            open_of (user_id user) l' = false /\ opened_by (il_txHash dto) l' = false).
  { intros j l' Hj. split; [by eapply find_loan_none in E1|by eapply find_loan_none in E2]. }
  assert (Hgo : forall w1 now, w_tx w1 = TxActive -> w_users w1 = w_users w -> extends w w1 ->
            autoclosed (user_id user) now w w1 -> 
            match (date_now ≫= fun startAt => insert_or_existing
              {| userId := user_id user; borrowerAddress := wallet; principal := p; amountDueAtOpen := due;
                 tenorDays := il_tenorDays dto; feeBps := fee; startAt := startAt;
                 dueAt := startAt + il_tenorDays dto * 24 * 60 * 60 * 1000; openTxHash := Some (il_txHash dto) |}
              (il_txHash dto)) w1 with
            | (Ok l, w') => w_tx w' = TxActive /\ w_users w' = w_users w /\ extends w w' /\ opening user wallet dto p due fee w w' l
            | (Throw _, w') => extends w w'
            end).
  { intros w1 now Htx1 Hu1 He1 Hac. cbv [mbind M_bind date_now outside].
    set (start := now_ms _). set (w2 := log_call _ w1). set (t := {| userId := _ |}).
    pose proof (insert_or_existing_run t (il_txHash dto) w2 Htx1) as Hins.
    assert (He2 : extends w w2) by (eapply extends_trans; [done|]; eexists; reflexivity).
    destruct (insert_or_existing t _ w2) as [[l|e] w'].
    - destruct Hins as (? & Hu' & _ & Hc & Hl & Hfr & Hls). change (w_users w2) with (w_users w1) in Hu'.
      change (w_loans w2) with (w_loans w1) in Hfr, Hls. split_and!; [done|congruence| |].
      + destruct He2 as (evs & He2). exists evs. congruence.
      + right. split; [done|]. exists w1, now, start, (loan_createdAt l). done.
    - destruct He2 as (evs & He2). exists evs. congruence. }
  destruct orphans as [|o orphans].
  { apply (Hgo w 0); try done; [apply extends_refl|]. intros j. by left. }
  cbv [date_now outside]. set (now := now_ms _). set (w1 := log_call _ w).
  pose proof (save_loans_run (user_id user) now (o :: orphans) w w1 Hok) as Hsave.
  assert (Hls : forall l, l ∈ o :: orphans -> exists j, w_loans w !! j = Some l /\ orphan_of (user_id user) l = true)
    by (intros l Hl; by apply (find_loans_spec _ _ _ l) in E3; apply E3).
  specialize (Hsave Hls Htx ltac:(intros j; by left) eq_refl).
  destruct (save_loans _ w1) as [[[]|e] w2].
  - destruct Hsave as (Htx2 & Hac & Hu2 & _ & Hc2). apply (Hgo w2 now); try done.
    eexists. rewrite Hc2. reflexivity.
  - eexists. rewrite Hsave. reflexivity.
Qed.

(** The amounts recorded: the principal as the client gives it, the fee as the
    user's history prices it, and their sum. *)
Definition opening_amounts (w : World) (user : User) (dto : InformLoanDto) (p due fee : num) : Prop :=
  exists pd tc, parseAmountHuman (il_amountHuman dto) = Ok pd /\ p = Number_of_string (formatAmount pd) /\
    pricing_facts w user tc /\
    getFeeBpsForTerm (il_tenorDays dto) (Entities.score (credit user)) (toNum (riskPDefault (credit user))) (Some tc) = Ok fee /\
    due = Number_of_string (formatAmount (dec_plus pd (dec_div (dec_mul pd (dec_of_num fee)) (dec_of_int 10000)))).

(** The answer to a request to record the opening of [user]'s loan. *)
Definition opening_answer (user : User) (wallet : string) (dto : InformLoanDto) (w w' : World) (i : Z) : Prop :=
  w_users w' = w_users w /\ w_tx w' = NoTx /\
  ((w_loans w' = w_loans w /\ exists j l, w_loans w !! j = Some l /\ loan_id l = i /\ opened_by (il_txHash dto) l = true) \/
   (exists evs p due fee l, w_calls w' = w_calls w ++ evs /\ CVerifyOpened (il_txHash dto) wallet (Ok true) ∈ evs /\
      opening_amounts w user dto p due fee /\ loan_id l = i /\ opening user wallet dto p due fee w w' l)).

Lemma inform_opened_user_run user wallet dto w :
  tables_ok w -> w_tx w = NoTx ->
  match inform_opened_user user wallet dto w with
  | (Throw _, w') => same_tables w w'
  | (Ok i, w') => il_tenorDays dto ∈ TERM_OPTIONS /\ opening_answer user wallet dto w w' i
  end.
Proof.
  intros Hok Htx. assert (Hsame : same_tables w w) by (by split_and!).
  unfold inform_opened_user. cbv [mbind M_bind].
  destruct (_ <=? 0); cbn [guard_throw throw]; [done|]. cbv [mret M_ret].
  destruct (bool_decide (il_tenorDays dto ∈ TERM_OPTIONS)) eqn:Et; cbn [negb guard_throw throw]; [|done].
  cbv [mret M_ret]. bool_to_prop.
  unfold find_loan at 1. rewrite query_NoTx by done.
  destruct (db_find_loan w (opened_by (il_txHash dto)) None) as [[l|]|e] eqn:E1; [| |done].
  { apply find_loan_some in E1 as (j & Hj & Hp). split; [done|]. split_and!; try done. left. eauto 6. }
  unfold assertLoanOpenedTxValid, verifyLoanOpenedByTxHash. cbv [outside mbind M_bind].
  destruct (gw_verifyOpened (w_calls w) (il_txHash dto) wallet) as [[|]|e] eqn:Ev; cbn [negb guard_throw throw]; try done.
  cbv [mret M_ret lift]. set (w1 := log_call _ w).
  destruct (parseAmountHuman (il_amountHuman dto)) as [pd|e] eqn:Epd; [|done].
  destruct (pricing_context user w1) as [r w2] eqn:Epc. apply pricing_context_ok in Epc as [-> Hpf]; [|done].
  destruct r as [tc|e]; [|done]. destruct (getFeeBpsForTerm _ _ _ _) as [fee|e] eqn:Efee; [|done].
  set (p := Number_of_string _). set (due := Number_of_string _).
  pose proof (open_loan_tx_run user wallet dto p due fee (set_tx TxActive w1) Hok eq_refl) as Hrun.
  rewrite transaction_run; [|done|intros a w' Ha; by rewrite Ha in Hrun; destruct Hrun].
  destruct (open_loan_tx _ _ _ _ _ _ _) as [[l|e] w']; [|done].
  destruct Hrun as (_ & Hu & (evs & Hc) & Ho). split; [done|]. split_and!; [done..|]. right.
  exists (CVerifyOpened (il_txHash dto) wallet (Ok true) :: evs), p, due, fee, l.
  split_and!; [|left|by exists pd, tc|done|done]. cbn [w_calls set_tx]. rewrite Hc. cbn. by rewrite <- app_assoc.
Qed.

(** Recording an opening, for any request. *)
Lemma inform_opened_run dto w :
  tables_ok w -> w_tx w = NoTx ->
  match informLoanOpened dto w with
  | (Throw _, w') => same_tables w w'
  | (Ok i, w') => il_tenorDays dto ∈ TERM_OPTIONS /\ exists k u, w_users w !! k = Some u /\
      normalizeWallet (il_walletAddress dto) = Ok (walletAddress u) /\
      opening_answer u (walletAddress u) dto w w' i
  end.
Proof.
  intros Hok Htx. unfold informLoanOpened. cbv [mbind M_bind lift].
  destruct (normalizeWallet (il_walletAddress dto)) as [b|e]; [|by split_and!].
  unfold find_user. rewrite query_NoTx by done.
  destruct (db_find_user w (by_wallet b)) as [[u|]|e] eqn:Eu; [| by split_and!..].
  apply find_user_some in Eu as (i & Hu & Hp). unfold by_wallet in Hp. bool_to_prop. subst b.
  pose proof (inform_opened_user_run u (walletAddress u) dto w Hok Htx) as H.
  destruct (inform_opened_user _ _ _ _) as [[l|e] w']; [|done]. destruct H as [? H]. eauto 8.
Qed.

(** A user has at most one open loan. *)
Definition one_open_loan (w : World) : Prop :=
  forall i j l l' u, w_loans w !! i = Some l -> w_loans w !! j = Some l' ->
    open_of u l = true -> open_of u l' = true -> i = j.

Lemma open_of_stored u l : open_of u (stored_loan l) = open_of u l.
Proof. done. Qed.

(** A row of the tables after an opening, when it is open, was there before or is
    the new one. *)
Lemma opening_open_row user wallet dto p due fee w w' l j k l' :
  opening user wallet dto p due fee w w' l -> w_loans w' !! j = Some l' -> open_of k l' = true ->
  w_loans w !! j = Some l' \/
  (j = loan_id l /\ k = user_id user /\ forall j' l'', w_loans w !! j' = Some l'' -> open_of k l'' = false).
Proof.
  intros [(-> & _)|(Hno & w1 & now & start & created & Hac & Hl & _ & ->)] Hj Hopen; [by left|].
  destruct (decide (j = loan_id l)) as [->|Hne].
  - right. rewrite lookup_insert_eq in Hj. injection Hj as <-. rewrite open_of_stored, Hl in Hopen.
    unfold open_of, of_user in Hopen. bool_to_prop. cbn in *. split_and!; [done|congruence|].
    intros j' l'' Hj'. apply Hno in Hj' as [Hj' _]. congruence.
  - left. rewrite lookup_insert_ne in Hj by done. destruct (Hac j) as [<-|(l0 & _ & _ & H1)]; [done|].
    rewrite H1 in Hj. injection Hj as <-. rewrite open_of_stored in Hopen.
    unfold open_of in Hopen. cbn in Hopen. by rewrite !andb_false_r in Hopen.
Qed.

Lemma opening_one_open user wallet dto p due fee w w' l :
  opening user wallet dto p due fee w w' l -> one_open_loan w -> one_open_loan w'.
Proof.
  intros Ho H i j l1 l2 k Hi Hj H1 H2.
  destruct (opening_open_row _ _ _ _ _ _ _ _ _ _ _ _ Ho Hi H1) as [Hi'|(-> & _ & Hi')];
    destruct (opening_open_row _ _ _ _ _ _ _ _ _ _ _ _ Ho Hj H2) as [Hj'|(-> & _ & Hj')]; [by eapply H|..|done].
  - apply Hj' in Hi'. congruence.
  - apply Hi' in Hj'. congruence.
Qed.

Lemma opening_tables_ok user wallet dto p due fee w w' l :
  opening user wallet dto p due fee w w' l -> w_users w' = w_users w -> tables_ok w -> tables_ok w'.
Proof.
  intros Ho Hu [Hok1 Hok2]. split; [by rewrite Hu|].
  destruct Ho as [(-> & _)|(_ & w1 & now & start & created & Hac & _ & _ & ->)]; [done|].
  apply map_Forall_insert_2; [done|]. intros j l0 Hj. destruct (Hac j) as [Hsame|(l1 & H0 & _ & H1)].
  - apply Hok2. congruence.
  - rewrite H1 in Hj. injection Hj as <-. cbn. by apply Hok2.
Qed.

(** ** Properties: recording an opening *)

(** C35. What [informLoanOpened] can do. When it throws, the tables are as they
    were. When it answers, the tenor is 7, 14 or 21 days, the wallet is a
    registered user's, no user row changed, and the loan it names either carries
    the transaction hash already, or the gateway confirmed the opening
    transaction for this wallet and the loan is the user's open loan, unchanged,
    or a new row: of this user, wallet, tenor and transaction, open, nothing
    paid, due exactly the tenor's days after its start, its principal the amount
    of the request and its fee the one the user's history prices - added when the user had
    no open loan, after the user's unclosed defaulted loans, and nothing else,
    were closed as repaid late. *)
Theorem inform_opened_correct (dto : InformLoanDto) (w : World) (Hok : tables_ok w) (Htx : w_tx w = NoTx) :
  match informLoanOpened dto w with
  | (Throw _, w') => same_tables w w'
  | (Ok i, w') => il_tenorDays dto ∈ TERM_OPTIONS /\ exists k u, w_users w !! k = Some u /\
      normalizeWallet (il_walletAddress dto) = Ok (walletAddress u) /\
      opening_answer u (walletAddress u) dto w w' i
  end.
Proof. by apply inform_opened_run. Qed.

(** Whatever is asked of [informLoanOpened], and whatever the database and
    the gateway answer, a user who has at most one open loan has at most one
    afterwards, and every row stays stored under its id. *)
Theorem inform_opened_one_open (dto : InformLoanDto) (w : World)
    (Hok : tables_ok w) (Htx : w_tx w = NoTx) (Hone : one_open_loan w) :
  let w' := snd (informLoanOpened dto w) in one_open_loan w' /\ tables_ok w' /\ w_tx w' = NoTx.
Proof.
  assert (Hsame : forall w', w_users w' = w_users w -> w_loans w' = w_loans w -> one_open_loan w' /\ tables_ok w')
    by (intros w' Hu Hl; unfold one_open_loan, tables_ok; by rewrite Hu, Hl).
  pose proof (inform_opened_run dto w Hok Htx) as H. destruct (informLoanOpened dto w) as [[i|e] w']; cbn.
  - destruct H as (_ & k & u & _ & _ & Hu & Ht & [(Hl & _)|(evs & p & due & fee & l & _ & _ & _ & _ & Ho)]).
    + destruct (Hsame w' Hu Hl). done.
    + split_and!; [by eapply opening_one_open|by eapply opening_tables_ok|done].
  - destruct H as (Hu & Hl & _ & Ht). destruct (Hsame w' Hu Hl). split_and!; [done..|congruence].
Qed.

(** The recovery from a lost race never recovers: inside the transaction,
    when the unique index on the opening transaction refuses the new row, the
    query for the row that won fails as well, because PostgreSQL aborts the
    transaction at the first error, so the request ends in that error; in every
    other case the handler changes nothing. *)
Theorem lost_race_not_recovered (t : LoanTerms) (tx : string) (w : World) (Htx : w_tx w = TxActive) :
  insert_or_existing t tx w =
  match insert_loan t fresh_state w with
  | (Throw (UniqueViolation _), w') => (Throw tx_aborted, w')
  | r => r
  end.
Proof.
  unfold insert_or_existing, try_catch, insert_loan. rewrite statement_active by done.
  set (l := {| loan_id := db_new_loan_id w |}).
  destruct (db_loan_error w l) as [e|]; [|done]. by destruct e.
Qed.
End Opening.

(** ** A concrete borrower *)

Definition sample_borrow : BorrowLoanDto :=
  {| bd_amountHuman := "1"; bd_receiver := sample_wallet; bd_tenorDays := Some 14 |}.

Lemma borrow_guarded_witness :
  exists u tenor fee, offer_allowed (ENV := sample_env) (OUT := lending) (D := QDecimal) lending_world "1" u tenor fee.
Proof.
  pose proof (borrow_guarded (ENV := sample_env) (OUT := lending) (D := QDecimal) sample_borrow lending_world eq_refl) as H.
  assert (Hok : is_ok (fst (borrow (ENV := sample_env) (OUT := lending) (D := QDecimal) sample_borrow lending_world)) = true)
    by (vm_compute; reflexivity).
  destruct (borrow sample_borrow lending_world) as [r w']. cbn [fst] in Hok.
  destruct H as [[Hn _]|(_ & _ & i & u & tenor & fee & pre & evs & _ & _ & _ & _ & _ & Ha)]; [congruence|].
  exists u, tenor, fee. exact Ha.
Defined.

Definition sample_inform : InformLoanDto :=
  {| il_walletAddress := sample_wallet; il_amountHuman := "1"; il_tenorDays := 14; il_txHash := "a1" |}.

Lemma lending_one_open : one_open_loan lending_world.
Proof. intros i j l l' u Hi. cbn in Hi. by rewrite lookup_empty in Hi. Qed.

(** The outcome of recording the sample opening. *)
Definition sample_opening : result Z * World :=
  informLoanOpened (OUT := lending) (D := QDecimal) sample_inform lending_world.

(** It is recorded as an open loan. *)
Definition opened_ok (r : result Z * World) : bool :=
  match r with
  | (Ok i, w') => match w_loans w' !! i with Some l => bool_decide (status (state l) = OPEN) | None => false end
  | _ => false
  end.

Lemma inform_opened_correct_witness :
  opened_ok sample_opening = true /\
  match sample_opening with
  | (Throw _, w') => same_tables lending_world w'
  | (Ok i, w') => il_tenorDays sample_inform ∈ TERM_OPTIONS /\ exists k u, w_users lending_world !! k = Some u /\
      normalizeWallet (il_walletAddress sample_inform) = Ok (walletAddress u) /\
      opening_answer (D := QDecimal) u (walletAddress u) sample_inform lending_world w' i
  end.
Proof.
  split; [by vm_compute|]. unfold sample_opening.
  pose proof (inform_opened_correct (OUT := lending) (D := QDecimal) sample_inform lending_world lending_tables_ok eq_refl) as H.
  exact H.
Defined.

Lemma inform_opened_one_open_witness :
  one_open_loan (snd sample_opening) /\ size (w_loans (snd sample_opening)) = 1%nat.
Proof.
  split; [|by vm_compute]. unfold sample_opening.
  pose proof (inform_opened_one_open (OUT := lending) (D := QDecimal) sample_inform lending_world
                lending_tables_ok eq_refl lending_one_open) as H.
  exact (proj1 H).
Defined.

(** Another request recorded the same transaction first. *)
Lemma lost_race_not_recovered_witness :
  fst (insert_or_existing
         {| userId := 2; borrowerAddress := sample_wallet; principal := num_of_Z 1; amountDueAtOpen := num_of_Z 1;
            tenorDays := 7; feeBps := num_of_Z 1; startAt := 0; dueAt := 0; openTxHash := Some "a1"%string |} "a1"
         (set_tx TxActive (snd sample_opening))) = Throw tx_aborted.
Proof. rewrite lost_race_not_recovered by reflexivity. by vm_compute. Defined.

(** ** The fees of the fixed tiers *)

(** The fee in basis points of a tier whose monthly rate is fixed, for a tenor. *)
Definition fixed_fee (t : PricingTierName) (days : Z) : option Z :=
  match t, days with
  | PrimePlus, 7 => Some 261 | PrimePlus, 14 => Some 653 | PrimePlus, 21 => Some 1176
  | Prime, 7 => Some 336 | Prime, 14 => Some 840 | Prime, 21 => Some 1512
  | Developing, 7 => Some 523 | Developing, 14 => Some 1307 | Developing, 21 => Some 2352
  | _, _ => None
  end.

(** The monthly rate of such a tier, in percent. *)
Definition fixed_rate (t : PricingTierName) : option Z :=
  match t with PrimePlus => Some 14 | Prime => Some 18 | Developing => Some 28 | _ => None end.

Lemma tier_rate_fixed pd on q rep late r :
  fixed_rate (tier (getTieredMonthlyRate pd on q rep late)) = Some r ->
  monthlyRate (getTieredMonthlyRate pd on q rep late) = lit r 2.
Proof.
  unfold getTieredMonthlyRate. repeat case_match; cbn; intros Hr; by simplify_eq.
Qed.

(** The exact value of the term's period rate, given the value of the base rate. *)
Definition period_value (rate : Q) (days : Z) : Q :=
  let rnd := round_sig precision in
  let relative := rnd (rnd (inject_Z days - inject_Z 14) / inject_Z 14)%Q in
  let forTerm := rnd (rate * rnd (inject_Z 1 + rnd (relative * (Qred (4 # 10)))))%Q in
  let monthly := if Qle_bool forTerm (inject_Z 0) then inject_Z 0 else forTerm in
  rnd (rnd (monthly * inject_Z days) / inject_Z 30)%Q.

Lemma fee_value {D : DecimalJs} {L : DecimalLaws D} (days : Z) sc pd tc :
  0 < days ->
  getFeeBpsForTerm days sc pd (Some tc) =
  Ok (Number_of_string (fixed_text 0 (round_sig precision
       (period_value (dec_val (dec_of_num (monthlyRate (getTieredMonthlyRate pd (tc_onTimeLoans tc) (tc_walletQuality tc)
                        (tc_totalRepaidUsd tc) (tc_lateLoans tc))))) days * inject_Z 10000)%Q))).
Proof.
  intros Hd. unfold getFeeBpsForTerm, getRatesForTerm. destruct (Z.leb_spec days 0); [lia|]. cbn -[lit].
  unfold toBps. rewrite dec_toFixed_val. do 4 f_equal. unfold period_value.
  repeat first [rewrite dec_val_mul | rewrite dec_val_plus | rewrite dec_val_minus | rewrite dec_val_int
               | rewrite dec_val_max | rewrite dec_val_div by (rewrite dec_val_int; discriminate)].
  rewrite dec_val_literal by (apply (bool_decide_eq_true_1 _); vm_compute; reflexivity). done.
Qed.

(** The price list. Whatever implementation of decimal.js computes it, the fee
    the service quotes and charges for a tier with a fixed monthly rate is, in
    basis points: Prime+ (14%) 261, 653 and 1176 for 7, 14 and 21 days; Prime
    (18%) 336, 840 and 1512; Developing (28%) 523, 1307 and 2352. *)
Theorem fixed_tier_fees {D : DecimalJs} {L : DecimalLaws D} (days : Z) (sc : option Z) (pd : option num) (tc : TieredContext) :
  match fixed_fee (tier (getTieredMonthlyRate pd (tc_onTimeLoans tc) (tc_walletQuality tc)
                           (tc_totalRepaidUsd tc) (tc_lateLoans tc))) days with
  | Some bps => getFeeBpsForTerm days sc pd (Some tc) = Ok (num_of_Z bps)
  | None => True
  end.
Proof.
  destruct (fixed_fee _ days) as [bps|] eqn:E; [|done].
  pose proof (tier_rate_fixed pd (tc_onTimeLoans tc) (tc_walletQuality tc) (tc_totalRepaidUsd tc) (tc_lateLoans tc)) as Hr.
  assert (Hpos : 0 < days) by (destruct days; cbn in E; [by destruct (tier _)|lia|by destruct (tier _)]).
  rewrite fee_value by done.
  destruct (tier _) eqn:Et; try discriminate E; cbn [fixed_rate] in Hr; rewrite (Hr _ eq_refl);
    rewrite dec_val_literal by (apply (bool_decide_eq_true_1 _); vm_compute; reflexivity); cbn [fixed_fee] in E; repeat case_match; simplify_eq;
    f_equal; vm_compute; reflexivity.
Qed.

Lemma fixed_tier_fees_witness :
  getFeeBpsForTerm (D := QDecimal) 14 (Some 1) None
    (Some {| tc_onTimeLoans := 0; tc_walletQuality := fea; tc_totalRepaidUsd := num_of_Z 0; tc_lateLoans := 0 |}) = Ok (num_of_Z 1307).
Proof.
  exact (fixed_tier_fees (D := QDecimal) 14 (Some 1) None
    {| tc_onTimeLoans := 0; tc_walletQuality := fea; tc_totalRepaidUsd := num_of_Z 0; tc_lateLoans := 0 |}).
Defined.
