(* ===== verification/LoanRepayment.v ===== *)
(** * Repayments ([backend/src/loan/loan-repayment.service.ts])

    The figures shown before a repayment, and the recording of one: its proof, the
    loan it closes, and the score and limit it earns. Seconds and milliseconds are
    integers; the figures the service computes with fractions are binary64. *)

From stdpp Require Import base tactics list gmap strings numbers.
From Stdlib Require Import Lia ZArith.
From S2P Require Import Prelude JsString JsNum AmountUnits DecimalLib CreditPolicy LoanCalc Strkey Entities Gateway Store Kyc EarlyAccess LoanVerification LoanService.

Local Open Scope Z_scope.

(** ** Before a repayment *)

Record PreflightPayload := {
  pf_wallet : string;
  pf_principal : Z;
  pf_storedAmountDueBefore : Z;
  pf_accruedAmountDue : Z;
  pf_lastAccruedTs : Z;
  pf_ratePerSecWad : Z;
  pf_baseFeeBps : Z;
  pf_dueAt : Z;
  pf_gracePeriod : Z;
  pf_lateStart : Z;
  pf_serverNowUnix : Z;
  pf_chainNowUnix : Z;
  pf_perDayDelta : num;
  pf_daysLate : num;
  pf_daysToDefault : num;
  pf_isDefaulted : bool;
  pf_accrueLateCalled : bool;
  pf_accrueLateSkippedReason : option string;
}.

(** [lastAccruedTs]: the instant up to which the stored amount due includes late
    fees, from the fees still to be added. *)
Definition last_accrued (called past : bool) (rate accrued now lateStart : Z) (preview : option Z) : Z :=
  match preview with
  | Some preview =>
      if called || (rate =? 0) || (accrued =? 0) || negb past then now
      else
        let delta := preview - accrued in
        if delta <=? 0 then now
        else Z.max (now - Z.quot (delta * 10 ^ 18) (rate * accrued)) lateStart
  | None => now
  end.

Record InformRepaymentDto := {
  ir_walletAddress : string;
  ir_amountPaidHuman : string;
  ir_txHash : option string;
}.

Definition REPAID_ON_TIME_GRACE_MS : Z := 24 * 60 * 60 * 1000.

Definition DEFAULT_LATE_PERIOD_MS : Z := REPAID_ON_TIME_GRACE_MS + 15 * 24 * 60 * 60 * 1000.

(** [BigInt(x)]: a RangeError unless the number is an integer. *)
Definition BigInt_of_num (x : num) : result Z :=
  match num_floor x with
  | Some z => if neqb (num_of_Z z) x then Ok z else Throw (RangeError "BigInt")
  | None => Throw (RangeError "BigInt")
  end.

(** [loan], closed [late] milliseconds after its due date. *)
Definition close_loan (now : Z) (paid : num) (tx : option string) (l : Loan) : Loan :=
  let onTime := now - dueAt (terms l) <=? REPAID_ON_TIME_GRACE_MS in
  with_state l {| status := if onTime then REPAID_ON_TIME else REPAID_LATE; amountPaid := paid;
                  repaidOnTime := onTime; closedAt := Some now; closeTxHash := tx;
                  syncedByChain := syncedByChain (state l) |}.

(** The loan a repayment closes. *)
Definition active_of (i : Z) (l : Loan) : bool :=
  of_user i l
  && (bool_decide (status (state l) = OPEN) || bool_decide (status (state l) = DEFAULTED)
      || bool_decide (status (state l) = DEFAULTED_IN_GRACE))
  && negb (bool_decide (is_Some (closeTxHash (state l)))).

(** What the transaction returns, with the user as it leaves it in memory. *)
Record RepaymentOutcome := {
  ro_loan : Loan; ro_amountPaid : num; ro_onTime : bool; ro_postDefault : bool; ro_user : User;
}.

Record ReputationGain := {
  rg_delta : Z; rg_scoreChanged : bool; rg_groupChanged : bool; rg_newGroupLabel : option string; rg_newScore : Z;
}.

(** The answer: the stored loan when the hash was processed before (with the user
    it belongs to), or the summary of this repayment. *)
Inductive RepaymentResponse :=
  | AlreadyProcessed (l : Loan) (onTime : bool) (paid : num)
  | Repaid (wallet : string) (loanId : Z) (sc : option Z) (limit : option num) (xp : Z) (onTime : bool)
           (gain : option ReputationGain).

Section LoanRepayment.
  Context `{ENV : Env} `{DB : Database} `{OUT : Outside} `{D : DecimalJs} `{JM : JsMath}.

(** The five reads start together; the request fails when one of them does. *)
Definition preflight_reads (wallet : string)
  : M World (option OnChainLoanFull * option Premium * option Z * option bool * option Z) :=
  loan ← attempt (readLoanFull wallet);
  premium ← attempt (readPremium wallet);
  previewLate ← attempt (previewLoanWithLate wallet);
  isDefaulted ← attempt (readIsDefaulted wallet);
  nowChain ← attempt getChainBlockTimestamp;
  lift (loan ← loan; premium ← premium; previewLate ← previewLate; isDefaulted ← isDefaulted;
        nowChain ← nowChain; mret (loan, premium, previewLate, isDefaulted, nowChain)).

(** Whether late fees are materialised, or why they are not. *)
Definition accrue_decision (force past : bool) (rate : Z) : option string :=
  if negb force then Some "lazy_skip"%string
  else if negb past then Some "pre_grace"%string
  else if rate =? 0 then Some "rate_zero"%string else None.

(** The figures, once the chain has been read. *)
Definition preflight_loan (wallet : string) (force : bool) (loan : OnChainLoanFull) (premium : option Premium)
    (previewLate : option Z) (isDefaulted : option bool) (nowChain : Z) : M World PreflightPayload :=
  let dueAt := f_due loan in
  let lateStart := dueAt + f_gracePeriod loan in
  let past := lateStart <? nowChain in
  let rate := match premium with Some p => premium_lateRatePerSecWad p | None => 0 end in
  let skipped := accrue_decision force past rate in
  let called := negb (bool_decide (is_Some skipped)) in
  _ ← when called (try_catch (accrueLate wallet)
                     (fun _ => throw (ServiceUnavailableException "accrueLate failed")));
  loanAfter ← (if called then readLoanFull wallet else mret (Some loan));
  let accrued := match loanAfter with Some l => f_amountDue l | None => f_amountDue loan end in
  serverNow ← date_now;
  mret {| pf_wallet := wallet;
          pf_principal := f_principal loan;
          pf_storedAmountDueBefore := f_amountDue loan;
          pf_accruedAmountDue := accrued;
          pf_lastAccruedTs := last_accrued called past rate accrued nowChain lateStart previewLate;
          pf_ratePerSecWad := rate;
          pf_baseFeeBps := f_feeBps loan;
          pf_dueAt := dueAt;
          pf_gracePeriod := f_gracePeriod loan;
          pf_lateStart := lateStart;
          pf_serverNowUnix := serverNow / 1000;
          pf_chainNowUnix := nowChain;
          pf_perDayDelta :=
            if past then (Number_of_bigint accrued / num_of_Z (TOKEN_UNIT env_decimals)
                          * ratePerSecNum rate * num_of_Z 86400)%num
            else num_of_Z 0;
          pf_daysLate := if past then (num_of_Z (nowChain - lateStart) / num_of_Z 86400)%num else num_of_Z 0;
          pf_daysToDefault := nmax (num_of_Z 0) (num_of_Z (lateStart + 15 * 86400 - nowChain) / num_of_Z 86400)%num;
          pf_isDefaulted := default false isDefaulted;
          pf_accrueLateCalled := called;
          pf_accrueLateSkippedReason := skipped |}.

Definition preflightRepayment (walletAddress : string) (force : bool) : M World PreflightPayload :=
  wallet ← lift (normalizeWallet walletAddress);
  '(loan, premium, previewLate, isDefaulted, nowChain) ← preflight_reads wallet;
  match loan with
  | None => throw (ServiceUnavailableException "Could not read loan state from chain - RPC failure")
  | Some loan =>
      if negb (f_active loan) then throw (NotFoundException "No active loan")
      else match nowChain with
           | None => throw (ServiceUnavailableException "Could not read chain block timestamp")
           | Some nowChain => preflight_loan wallet force loan premium previewLate isDefaulted nowChain
           end
  end.

(** ** Recording a repayment *)

(** By the transaction; [None] when it leaves the question to the loan's state. *)
Definition verify_repay_tx (wallet : string) (txHash : option string) : M World (option (option Z)) :=
  match txHash with
  | Some tx =>
      if bool_decide (tx = ""%string) then mret None
      else
        r ← verifyRepayByTxHash tx wallet;
        if verified r then mret (Some (paidUnits r))
        else match reason r with
             | Some reverted => throw (BadRequestException "Repay transaction reverted on-chain.")
             | Some no_match => throw (BadRequestException "txHash does not match a repay for this wallet.")
             | _ => mret None
             end
  | None => mret None
  end.

(** The proof of the repayment; the units the contract pulled, when it says. *)
Definition verify_repayment (wallet : string) (txHash : option string) : M World (option Z) :=
  byTx ← verify_repay_tx wallet txHash;
  match byTx with
  | Some paid => mret paid
  | None =>
      try_catch (l ← readLoanOnChain wallet; mret (match l with Some l => active l | None => true end))
        (fun _ => throw (ServiceUnavailableException "Could not verify on-chain loan state. Please try again."))
      ≫= fun loanStillActive : bool =>
      _ ← guard_throw loanStillActive
            (ServiceUnavailableException "Your repayment transaction has not been confirmed on-chain yet.");
      mret None
  end.

Definition amount_paid (chainPaidUnits : option Z) (amountPaidHuman : string) : result num :=
  amountPaidDec ← parseAmountHuman amountPaidHuman;
  mret (match chainPaidUnits with
        | Some units =>
            Number_of_string (dec_toFixed 6 (dec_div (dec_of_int units) (dec_of_int (TOKEN_UNIT env_decimals))))
        | None => Number_of_string (formatAmount amountPaidDec)
        end).

(** The body of the transaction. The amount due it reads from the chain is only
    logged. *)
Definition repay_tx (user : User) (chainPaidUnits : option Z) (dto : InformRepaymentDto)
  : M World RepaymentOutcome :=
  loan ← find_loan (active_of (user_id user)) (Some (fun l => startAt (terms l)));
  match loan with
  | None => throw (NotFoundException "No active loan found to repay")
  | Some loan =>
      paid ← lift (amount_paid chainPaidUnits (ir_amountPaidHuman dto));
      now ← date_now;
      let loan := close_loan now paid (ir_txHash dto) loan in
      let isPostDefault := DEFAULT_LATE_PERIOD_MS <? now - dueAt (terms loan) in
      _ ← save_loan loan;
      user ← (if isPostDefault && negb (hadDefaultEver (credit user)) then
                _ ← save_user (set_hadDefaultEver user); mret (set_hadDefaultEver user)
              else mret user);
      mret {| ro_loan := loan; ro_amountPaid := paid; ro_onTime := repaidOnTime (state loan);
              ro_postDefault := isPostDefault; ro_user := user |}
  end.

(** [giveCreditScoreAndLimit] with the new line, recorded in the database only
    when the gateway answers 200; errors are logged. The user in memory. *)
Definition push_line (wallet : string) (newScore : Z) (limit : num) (user : User) : M World User :=
  answer ← attempt (units ← lift (BigInt_of_num limit); giveCreditScoreAndLimit wallet newScore units);
  match answer with
  | Ok code =>
      if code =? 200 then
        let user := set_score_and_limit newScore limit user in
        _ ← attempt (save_user user); mret user
      else mret user
  | Throw _ => mret user
  end.

(** [Number(toUnits(limitUsdc))] of the step of a score. *)
Definition ladder_limit_num (sc : Z) : num := Number_of_bigint (ladder_limit_units sc).

Definition current_score (u : User) : Z := default DEFAULT_SCORE (score (credit u)).

Definition current_limit (u : User) : num := default (Number_of_bigint default_limit_units) (toNum (creditLimit (credit u))).

(** The score an on-time repayment earns: the ladder's, at most one above. *)
Definition on_time_score (u : User) (onTimeLoanCount : Z) : Z :=
  let s := CreditPolicy.score (getStepForOnTimeLoans onTimeLoanCount) in
  if current_score u + 1 <? s then current_score u + 1 else s.

Definition raise_xp (onTimeLoanCount : Z) (u : User) : User :=
  let base := xpBase (getStepForOnTimeLoans onTimeLoanCount) in
  if xp (credit u) <? base then set_xp base u else u.

(** The score and limit logic; the user in memory. *)
Definition update_line (wallet : string) (user : User) (onTime postDefault : bool) (onTimeLoanCount : Z)
  : M World User :=
  if onTime then
    let newScore := on_time_score user onTimeLoanCount in
    push_line wallet newScore (nmax (current_limit user) (ladder_limit_num newScore))
      (raise_xp onTimeLoanCount user)
  else if postDefault then
    let newScore := Z.max 1 (current_score user - 2) in
    push_line wallet newScore (ladder_limit_num newScore) user
  else
    let newScore := current_score user in
    _ ← attempt (units ← lift (BigInt_of_num (nmax (current_limit user) (ladder_limit_num newScore)));
                 giveCreditScoreAndLimit wallet newScore units);
    mret user.

Definition reputation_gain (onTime : bool) (onTimeAfter initialScore finalScore : Z) : option ReputationGain :=
  if onTime && (0 <? onTimeAfter) then
    let delta := Z.max 0 (reputationScore onTimeAfter - reputationScore (Z.max 0 (onTimeAfter - 1))) in
    if 0 <? delta then
      let oldGroup := getGroupLabelForScore (Some (num_of_Z initialScore)) in
      let newGroup := getGroupLabelForScore (Some (num_of_Z finalScore)) in
      Some {| rg_delta := delta; rg_scoreChanged := negb (finalScore =? initialScore);
              rg_groupChanged := negb (bool_decide (newGroup = oldGroup));
              rg_newGroupLabel := if bool_decide (newGroup = oldGroup) then None else Some newGroup;
              rg_newScore := finalScore |}
    else None
  else None.

(** The rows [count] is over. *)
Definition repaid_on_time_of (i : Z) (l : Loan) : bool := of_user i l && repaidOnTime (state l).

(** After the transaction. *)
Definition finish_repayment (wallet : string) (initialScore : Z) (o : RepaymentOutcome) : M World RepaymentResponse :=
  onTimeLoanCount ← count_loans (repaid_on_time_of (user_id (ro_user o)));
  user ← update_line wallet (ro_user o) (ro_onTime o) (ro_postDefault o) onTimeLoanCount;
  freshUser ← find_user (fun u => bool_decide (user_id u = user_id user));
  let pick {A} (f : CreditColumns -> option A) : option A :=
    match freshUser ≫= (f ∘ credit) with Some a => Some a | None => f (credit user) end in
  let finalScore := default initialScore (freshUser ≫= (Entities.score ∘ credit)) in
  mret (Repaid wallet (loan_id (ro_loan o)) (pick Entities.score) (toNum (pick creditLimit))
          (match freshUser with Some f => xp (credit f) | None => xp (credit user) end)
          (ro_onTime o) (reputation_gain (ro_onTime o) onTimeLoanCount initialScore finalScore)).

Definition closed_by (tx : string) (l : Loan) : bool := bool_decide (closeTxHash (state l) = Some tx).

(** [processRepayment] from the known user on. *)
Definition process_user (wallet : string) (user : User) (dto : InformRepaymentDto) : M World RepaymentResponse :=
  let initialScore := current_score user in
  chainPaidUnits ← verify_repayment wallet (ir_txHash dto);
  _ ← attempt (previewLoanWithLate wallet);
  existing ← match ir_txHash dto with
             | Some tx => if bool_decide (tx = ""%string) then mret None else find_loan (closed_by tx) None
             | None => mret None
             end;
  match existing with
  | Some l => mret (AlreadyProcessed l (repaidOnTime (state l)) (amountPaid (state l)))
  | None =>
      o ← transaction (repay_tx user chainPaidUnits dto);
      finish_repayment wallet initialScore o
  end.

Definition processRepayment (dto : InformRepaymentDto) : M World RepaymentResponse :=
  wallet ← lift (normalizeWallet (ir_walletAddress dto));
  user ← find_user (by_wallet wallet);
  match user with
  | None => throw (NotFoundException "User not found")
  | Some user => process_user wallet user dto
  end.
End LoanRepayment.

(** ** Lemmas *)

Section Facts.
  Context `{ENV : Env} `{DB : Database} `{OUT : Outside} `{D : DecimalJs} `{JM : JsMath} {LAWS : DatabaseLaws DB}.

Lemma only_reads_attempt {A} (m : M World A) : only_reads m -> only_reads (attempt m).
Proof. intros Hm w H. specialize (Hm w H). unfold attempt. by destruct (m w). Qed.

(** *** The preflight *)

Lemma preflight_reads_only wallet : only_reads (preflight_reads wallet).
Proof.
  unfold preflight_reads, readLoanFull, readPremium, previewLoanWithLate, readIsDefaulted, getChainBlockTimestamp.
  repeat (apply only_reads_bind; [apply only_reads_attempt; solve_reads|intros ?]). solve_reads.
Qed.

Lemma last_accrued_range called past rate accrued now lateStart preview :
  0 <= rate -> 0 <= accrued -> (past = true -> lateStart <= now) ->
  let t := last_accrued called past rate accrued now lateStart preview in
  t <= now /\ (t = now \/ (past = true /\ called = false /\ lateStart <= t)).
Proof.
  intros Hr Ha Hp. unfold last_accrued. destruct preview as [preview|]; [|cbn; split; [lia|by left]].
  destruct (called || _ || _ || _) eqn:E; cbn; [split; [lia|by left]|].
  bool_to_prop. destruct (Z.leb_spec (preview - accrued) 0); [split; [lia|by left]|].
  pose proof (Z.quot_pos ((preview - accrued) * 10 ^ 18) (rate * accrued) ltac:(lia) ltac:(nia)) as Hq.
  specialize (Hp ltac:(done)). split; [lia|]. right. split_and!; [done..|lia].
Qed.

(** What a preflight on an active loan answers and writes. *)
Definition preflight_answer (force : bool) (w w' : World) (r : result PreflightPayload) (wallet : string) : Prop :=
  match r with
  | Ok p =>
      let past := pf_lateStart p <? pf_chainNowUnix p in
      pf_wallet p = wallet /\ pf_lateStart p = pf_dueAt p + pf_gracePeriod p /\
      (pf_accrueLateCalled p = true <-> force = true /\ past = true /\ pf_ratePerSecWad p <> 0) /\
      (pf_accrueLateSkippedReason p = None <-> pf_accrueLateCalled p = true) /\
      (pf_accrueLateCalled p = false -> pf_accruedAmountDue p = pf_storedAmountDueBefore p) /\
      (0 <= pf_ratePerSecWad p -> 0 <= pf_accruedAmountDue p ->
         pf_lastAccruedTs p <= pf_chainNowUnix p /\
         (pf_lastAccruedTs p = pf_chainNowUnix p \/ (past = true /\ pf_lateStart p <= pf_lastAccruedTs p))) /\
      writes_from w w' (if pf_accrueLateCalled p then [CAccrueLate wallet (Ok tt)] else [])
  | Throw _ => writes_from w w' [] \/ (force = true /\ exists a, writes_from w w' [CAccrueLate wallet a])
  end.

Lemma accrue_decision_none force past rate :
  accrue_decision force past rate = None <-> force = true /\ past = true /\ rate <> 0.
Proof.
  unfold accrue_decision. destruct force, past; cbn; [|naive_solver..].
  destruct (Z.eqb_spec rate 0); naive_solver.
Qed.

(** The answer's fields, without unfolding the arithmetic. *)
Ltac show_answer :=
  cbv beta iota zeta delta [preflight_answer pf_accrueLateCalled pf_accrueLateSkippedReason pf_ratePerSecWad
    pf_accruedAmountDue pf_storedAmountDueBefore pf_lastAccruedTs pf_chainNowUnix pf_lateStart].

Lemma preflight_loan_run wallet force loan premium preview isDef now w :
  let '(r, w') := preflight_loan wallet force loan premium preview isDef now w in
  same_tables w w' /\ preflight_answer force w w' r wallet.
Proof.
  unfold preflight_loan. cbv zeta.
  set (rate := match premium with Some p => _ | None => 0 end).
  set (lateStart := f_due loan + f_gracePeriod loan). set (past := lateStart <? now).
  set (skipped := accrue_decision force past rate).
  assert (Hdec : skipped = None <-> force = true /\ past = true /\ rate <> 0) by apply accrue_decision_none.
  assert (Hfin : forall accrued called, called = negb (bool_decide (is_Some skipped)) -> 0 <= rate -> 0 <= accrued ->
            let t := last_accrued called past rate accrued now lateStart preview in
            t <= now /\ (t = now \/ (past = true /\ lateStart <= t))).
  { intros accrued called -> Hr Ha. cbv zeta.
    destruct (last_accrued_range (negb (bool_decide (is_Some skipped))) past rate accrued now lateStart preview Hr Ha)
      as [? H]; [unfold past; intros ?; bool_to_prop; lia|]. split; [done|tauto]. }
  destruct skipped as [why|]; cbv [mbind M_bind when mret M_ret date_now outside accrueLate readLoanFull try_catch throw is_Some].
  - rewrite bool_decide_true by eauto. cbn [negb]. split; [by split_and!|].
    split; [reflexivity|]. split; [reflexivity|]. show_answer.
    split; [split; [discriminate|intros H; by apply Hdec in H]|]. split; [done|]. split; [reflexivity|].
    split; [intros Hr Ha; exact (Hfin (f_amountDue loan) false eq_refl Hr Ha)|]. apply reads_writes, reads_log. reflexivity.
  - pose proof (proj1 Hdec eq_refl) as Hf. rewrite bool_decide_false by (intros [? [=]]). cbn [negb].
    destruct (gw_accrueLate (w_calls w) wallet) as [[]|e].
    2: { split; [by split_and!|]. right. split; [tauto|]. eexists. by apply writes_log. }
    assert (Hw1 : writes_from w (log_call (CReadLoanFull wallet) (log_call (CAccrueLate wallet (Ok tt)) w))
                    [CAccrueLate wallet (Ok tt)]).
    { eexists [_; _]. split; [cbn; by rewrite <- app_assoc|done]. }
    destruct (gw_readLoanFull _ _) as [after|e].
    2: { split; [by split_and!|]. right. split; [tauto|]. eexists. exact Hw1. }
    set (accrued := match after with Some l => f_amountDue l | None => f_amountDue loan end).
    split; [by split_and!|]. split; [reflexivity|]. split; [reflexivity|]. show_answer.
    split; [done|]. split; [done|]. split; [discriminate|].
    split; [intros Hr Ha; exact (Hfin accrued true eq_refl Hr Ha)|].
    apply (writes_trans w _ _ [CAccrueLate wallet (Ok tt)] [] Hw1). apply reads_writes, reads_log. reflexivity.
Qed.

Lemma preflight_answer_after force w w1 w' r wallet :
  writes_from w w1 [] -> preflight_answer force w1 w' r wallet -> preflight_answer force w w' r wallet.
Proof.
  intros H0. destruct r as [p|e]; cbn.
  - intros (? & ? & ? & ? & ? & ? & H). split_and!; try done. exact (writes_trans _ _ _ [] _ H0 H).
  - intros [H|(? & a & H)]; [left|right; split; [done|exists a]]; exact (writes_trans _ _ _ [] _ H0 H).
Qed.

Lemma preflight_run walletAddress force w :
  w_tx w = NoTx ->
  let '(r, w') := preflightRepayment walletAddress force w in
  same_tables w w' /\
  ((is_ok r = false /\ writes_from w w' []) \/
   exists wallet, normalizeWallet walletAddress = Ok wallet /\ preflight_answer force w w' r wallet).
Proof.
  intros Htx. assert (Hno : same_tables w w /\ writes_from w w []) by (split; [by split_and!|apply reads_writes, reads_refl]).
  unfold preflightRepayment. cbv [mbind M_bind lift].
  destruct (normalizeWallet walletAddress) as [wallet|e]; [|split; [apply Hno|left; split; [done|apply Hno]]].
  pose proof (preflight_reads_only wallet w Htx) as Hr.
  destruct (preflight_reads wallet w) as [[[[[[loan premium] preview] isDef] now]|e] w1]; cbn [snd] in Hr.
  2: { split; [by apply same_tables_reads|]. left. split; [done|by apply reads_writes]. }
  pose proof (same_tables_reads _ _ Hr) as Hs. pose proof (reads_writes _ _ Hr) as Hw.
  destruct loan as [loan|]; [|by split; [|left]].
  destruct (f_active loan); cbn [negb]; [|by split; [|left]].
  destruct now as [now|]; [|by split; [|left]].
  pose proof (preflight_loan_run wallet force loan premium preview isDef now w1) as H.
  destruct (preflight_loan _ _ _ _ _ _ _ w1) as [r w']. destruct H as [Hs' Ha].
  split; [by eapply same_tables_trans|]. right. exists wallet. split; [done|].
  by eapply preflight_answer_after.
Qed.

(** *** The proof of a repayment *)

(** Since [w], the gateway confirmed the transaction as a repayment by the wallet,
    or reported the wallet's loan as inactive. *)
Definition repaid_on_chain (wallet : string) (txHash : option string) (w w' : World) : Prop :=
  exists evs, w_calls w' = w_calls w ++ evs /\
  ((exists tx r pre post, txHash = Some tx /\ verified r = true /\ evs = pre ++ CVerifyRepay tx wallet (Ok r) :: post /\
      gw_verifyRepay (w_calls w ++ pre) tx wallet = Ok r) \/
   (exists pre post l, evs = pre ++ CReadLoan wallet :: post /\ gw_readLoan (w_calls w ++ pre) wallet = Ok (Some l) /\ active l = false)).

Lemma repaid_on_chain_more wallet txHash w w1 w2 :
  repaid_on_chain wallet txHash w w1 -> extends w1 w2 -> repaid_on_chain wallet txHash w w2.
Proof.
  intros (evs & H1 & H) (more & H2). exists (evs ++ more). rewrite H2, H1, app_assoc. split; [done|].
  destruct H as [(tx & r & pre & post & ? & ? & -> & ?)|(pre & post & l & -> & ? & ?)]; [left|right].
  - exists tx, r, pre, (post ++ more). by rewrite <- app_assoc.
  - exists pre, (post ++ more), l. by rewrite <- app_assoc.
Qed.

Lemma verify_repay_tx_run wallet txHash w :
  let '(r, w') := verify_repay_tx wallet txHash w in
  reads w w' /\ forall paid, r = Ok (Some paid) -> repaid_on_chain wallet txHash w w'.
Proof.
  unfold verify_repay_tx. destruct txHash as [tx|]; [|by split; [apply reads_refl|]].
  case_bool_decide; [by split; [apply reads_refl|]|].
  unfold verifyRepayByTxHash. cbv [mbind M_bind outside mret M_ret throw].
  destruct (gw_verifyRepay (w_calls w) tx wallet) as [r|e] eqn:Er; [|by split; [apply reads_log|]].
  destruct (verified r) eqn:Ev.
  - split; [by apply reads_log|]. intros paid _. eexists. split; [reflexivity|].
    left. exists tx, r, [], []. by rewrite app_nil_r.
  - destruct (reason r) as [[]|]; (split; [by apply reads_log|done]).
Qed.

Lemma verify_repayment_run wallet txHash w :
  let '(r, w') := verify_repayment wallet txHash w in
  reads w w' /\ (is_ok r = true -> repaid_on_chain wallet txHash w w').
Proof.
  unfold verify_repayment. cbv [mbind M_bind].
  pose proof (verify_repay_tx_run wallet txHash w) as H. destruct (verify_repay_tx wallet txHash w) as [[byTx|e] w1];
    destruct H as [Hr Hp]; [|done].
  destruct byTx as [paid|]; [split; [done|intros _; by eapply Hp]|].
  unfold readLoanOnChain, try_catch. cbv [outside mret M_ret throw].
  assert (Hr2 : reads w (log_call (CReadLoan wallet) w1)) by (eapply reads_trans; [done|by apply reads_log]).
  destruct (gw_readLoan (w_calls w1) wallet) as [[l|]|e] eqn:El; cbn [guard_throw throw]; [|done..].
  destruct (active l) eqn:Ea; cbn [guard_throw throw]; [done|]. cbv [mret M_ret]. split; [done|]. intros _.
  destruct Hr as (_ & _ & _ & _ & pre & Hc & _). exists (pre ++ [CReadLoan wallet]).
  split; [cbn; by rewrite Hc, app_assoc|]. right. exists pre, [], l. by rewrite <- Hc.
Qed.

(** *** The transaction *)

(** The transaction closed [l], the newest active loan of [user], and flagged the
    user when it was past the default period. *)
Definition closed_one (user : User) (dto : InformRepaymentDto) (w w' : World) (o : RepaymentOutcome) : Prop :=
  exists l now paid,
    w_loans w !! loan_id l = Some l /\ active_of (user_id user) l = true /\
    (forall j l', w_loans w !! j = Some l' -> active_of (user_id user) l' = true -> startAt (terms l') <= startAt (terms l)) /\
    ro_loan o = close_loan now paid (ir_txHash dto) l /\ ro_amountPaid o = paid /\
    ro_onTime o = (now - dueAt (terms l) <=? REPAID_ON_TIME_GRACE_MS) /\
    ro_postDefault o = (DEFAULT_LATE_PERIOD_MS <? now - dueAt (terms l)) /\
    w_loans w' = <[loan_id l := stored_loan (ro_loan o)]> (w_loans w) /\
    ((w_users w' = w_users w /\ ro_user o = user) \/
     (ro_postDefault o = true /\ ro_user o = set_hadDefaultEver user /\
      w_users w' = <[user_id user := stored_user (ro_user o)]> (w_users w))).

Lemma repay_tx_run user chainPaid dto w :
  tables_ok w -> w_tx w = TxActive ->
  match repay_tx user chainPaid dto w with
  | (Ok o, w') => w_tx w' = TxActive /\ writes_from w w' [] /\ closed_one user dto w w' o
  | (Throw _, w') => writes_from w w' []
  end.
Proof.
  intros [_ Hok] Htx. assert (H0 : forall s, writes_from w (set_tx s w) []) by (intros s; exists []; by rewrite app_nil_r).
  unfold repay_tx. cbv [mbind M_bind]. unfold find_loan. rewrite query_active by done.
  destruct (db_find_loan w _ _) as [[l|]|e] eqn:El; [| exact (H0 (w_tx w)) |apply H0].
  apply find_loan_some in El as Hl.
  destruct Hl as (j & Hj & Ha). pose proof (Hok j l Hj) as Hid; cbn in Hid; subst j.
  cbv [lift]. destruct (amount_paid chainPaid (ir_amountPaidHuman dto)) as [paid|e]; [|exact (H0 (w_tx w))].
  cbv [date_now outside]. set (now := now_ms _). set (w1 := log_call _ w).
  assert (H1 : writes_from w w1 []) by (apply reads_writes, reads_log; done).
  set (l' := close_loan now paid (ir_txHash dto) l). unfold save_loan. rewrite statement_active by done.
  destruct (db_loan_error w1 l') as [e|]; [exact H1|].
  set (w2 := set_loans _ w1). set (post := DEFAULT_LATE_PERIOD_MS <? now - dueAt (terms l')).
  assert (Hmax' : forall j l0, w_loans w !! j = Some l0 -> active_of (user_id user) l0 = true -> startAt (terms l0) <= startAt (terms l))
    by (intros j l0 Hj0 Ha0; exact (find_loan_max _ _ _ _ _ _ El Hj0 Ha0)).
  destruct (post && negb (hadDefaultEver (credit user))) eqn:Ep.
  - unfold save_user. rewrite statement_active by done.
    destruct (db_user_error w2 (set_hadDefaultEver user)) as [e|]; [exact H1|]. cbv [mret M_ret].
    split; [done|]. split; [exact H1|]. exists l, now, paid. split_and!; try done. right. bool_to_prop. done.
  - cbv [mret M_ret]. split; [done|]. split; [exact H1|]. exists l, now, paid. split_and!; try done. by left.
Qed.

(** *** The score and the limit *)

(** [s] and [lim] were sent to the chain, or were not representable; the user row
    carries them only if the gateway answered 200. *)
Definition line_pushed (wallet : string) (user : User) (s : Z) (lim : num) (w w' : World) : Prop :=
  w_loans w' = w_loans w /\ w_side w' = w_side w /\ w_tx w' = w_tx w /\
  ((w_users w' = w_users w /\ writes_from w w' [] /\ is_ok (BigInt_of_num lim) = false) \/
   exists units a, BigInt_of_num lim = Ok units /\ writes_from w w' [CGiveCredit wallet s units a] /\
     (w_users w' = w_users w \/
      (a = Ok 200 /\ w_users w' = <[user_id user := stored_user (set_score_and_limit s lim user)]> (w_users w)))).

Lemma push_line_run wallet s lim user w :
  w_tx w = NoTx ->
  exists user' w', push_line wallet s lim user w = (Ok user', w') /\ user_id user' = user_id user /\
    line_pushed wallet user s lim w w'.
Proof.
  intros Htx. unfold line_pushed, push_line, attempt, giveCreditScoreAndLimit. cbv [mbind M_bind lift outside mret M_ret].
  destruct (BigInt_of_num lim) as [units|e] eqn:Eb.
  2: { exists user, w. split_and!; try done. left. split_and!; [done|apply reads_writes, reads_refl|done]. }
  set (a := gw_giveCredit _ _ _ _). set (w1 := log_call _ w).
  assert (Hw : writes_from w w1 [CGiveCredit wallet s units a]) by by apply writes_log.
  destruct a as [code|e]; [|exists user, w1; split_and!; try done; right; eauto 8].
  destruct (Z.eqb_spec code 200) as [->|]; [|exists user, w1; split_and!; try done; right; eauto 8].
  unfold save_user. rewrite statement_NoTx by done.
  destruct (db_user_error _ _) as [e|]; eexists _, _; (split; [reflexivity|]); split_and!; try done; right; eauto 8.
Qed.

Lemma late_push_run wallet s lim w :
  w_tx w = NoTx ->
  exists r w', attempt (units ← lift (BigInt_of_num lim); giveCreditScoreAndLimit wallet s units) w = (Ok r, w') /\
    same_tables w w' /\
    ((writes_from w w' [] /\ is_ok (BigInt_of_num lim) = false) \/
     exists units a, BigInt_of_num lim = Ok units /\ writes_from w w' [CGiveCredit wallet s units a]).
Proof.
  intros Htx. unfold attempt, giveCreditScoreAndLimit. cbv [mbind M_bind lift outside].
  destruct (BigInt_of_num lim) as [units|e] eqn:Eb; eexists _, _; (split; [reflexivity|]); split; try by split_and!.
  - right. eexists _, _. split; [done|]. by apply writes_log.
  - left. split; [apply reads_writes, reads_refl|done].
Qed.

Lemma nmax_ge (x y : num) : isNaN x = false -> isNaN y = false ->
  nleb x (nmax x y) = true /\ nleb y (nmax x y) = true.
Proof.
  intros Hx Hy. assert (Hrefl : forall z, isNaN z = false -> nleb z z = true)
    by (intros z Hz; apply nltb_false_nleb; auto using nltb_irrefl).
  assert (Hgen : nleb x (if nltb x y then y else x) = true /\ nleb y (if nltb x y then y else x) = true).
  { destruct (nltb x y) eqn:E; auto using nltb_nleb, nltb_false_nleb. }
  destruct x as [sx|[]| |], y as [sy|[]| |]; try discriminate; exact Hgen.
Qed.

Lemma isNaN_num_of_Z z : 0 <= z -> isNaN (num_of_Z z) = false.
Proof. intros Hz. pose proof (num_of_Z_nonneg z Hz). by destruct (num_of_Z z). Qed.

Lemma ladder_limit_units_value sc :
  ladder_limit_units sc = limitUsdc (getStepForScore sc) * TOKEN_UNIT env_decimals.
Proof. unfold ladder_limit_units. by rewrite toUnits_number. Qed.

Lemma ladder_limit_not_nan sc : isNaN (ladder_limit_num sc) = false.
Proof.
  apply isNaN_num_of_Z. rewrite ladder_limit_units_value. pose proof (limit_for_score_range sc).
  pose proof (TOKEN_UNIT_pos env_decimals). nia.
Qed.

Lemma current_limit_not_nan u : isNaN (current_limit u) = false.
Proof.
  unfold current_limit, toNum. destruct (creditLimit (credit u)) as [n|].
  - destruct (isFinite n) eqn:E; [by destruct n|]. apply isNaN_num_of_Z.
    unfold default_limit_units. rewrite DEFAULT_CREDIT_LIMIT_value. pose proof (TOKEN_UNIT_pos env_decimals). lia.
  - apply isNaN_num_of_Z. unfold default_limit_units. rewrite DEFAULT_CREDIT_LIMIT_value.
    pose proof (TOKEN_UNIT_pos env_decimals). lia.
Qed.

Lemma user_id_raise_xp n u : user_id (raise_xp n u) = user_id u.
Proof. unfold raise_xp. by destruct (_ <? _). Qed.

(** The line [s], [lim] a repayment leads to, pushed for the user row [u0]. *)
Definition earned_line (user : User) (onTime postDefault : bool) (n : Z) (w w' : World)
    (u0 : User) (s : Z) (lim : num) : Prop :=
  if onTime then
    s = Z.min (CreditPolicy.score (getStepForOnTimeLoans n)) (current_score user + 1) /\
    nleb (current_limit user) lim = true /\
    nleb (num_of_Z (limitUsdc (getStepForScore s) * TOKEN_UNIT env_decimals)) lim = true /\
    (lim = current_limit user \/ lim = num_of_Z (limitUsdc (getStepForScore s) * TOKEN_UNIT env_decimals)) /\
    u0 = raise_xp n user
  else if postDefault then
    s = Z.max 1 (current_score user - 2) /\
    lim = num_of_Z (limitUsdc (getStepForScore s) * TOKEN_UNIT env_decimals) /\ u0 = user
  else s = current_score user /\ w_users w' = w_users w /\ u0 = user.

Lemma nmax_either x y : isNaN x = false -> isNaN y = false -> nmax x y = x \/ nmax x y = y.
Proof.
  intros Hx Hy. destruct x as [sx|[]| |], y as [sy|[]| |]; try discriminate;
    cbn -[nltb]; try (destruct (nltb _ _); tauto). by destruct sx, sy; cbn; tauto.
Qed.

Lemma update_line_run wallet user onTime postDefault n w :
  w_tx w = NoTx ->
  exists user' w' u0 s lim, update_line wallet user onTime postDefault n w = (Ok user', w') /\
    user_id user' = user_id user /\ user_id u0 = user_id user /\
    line_pushed wallet u0 s lim w w' /\ earned_line user onTime postDefault n w w' u0 s lim.
Proof.
  intros Htx. unfold update_line, earned_line. destruct onTime; [|destruct postDefault].
  - set (s := on_time_score user n). set (lim := nmax _ _).
    destruct (push_line_run wallet s lim (raise_xp n user) w Htx) as (u' & w' & E & Hid & Hp).
    exists u', w', (raise_xp n user), s, lim. rewrite user_id_raise_xp in Hid |- *. split_and!; try done.
    + unfold s, on_time_score. destruct (Z.ltb_spec (current_score user + 1) (CreditPolicy.score (getStepForOnTimeLoans n))); lia.
    + apply nmax_ge; [apply current_limit_not_nan|apply ladder_limit_not_nan].
    + rewrite <- ladder_limit_units_value. apply nmax_ge; [apply current_limit_not_nan|apply ladder_limit_not_nan].
    + rewrite <- ladder_limit_units_value. apply nmax_either; [apply current_limit_not_nan|apply ladder_limit_not_nan].
  - destruct (push_line_run wallet (Z.max 1 (current_score user - 2))
                (ladder_limit_num (Z.max 1 (current_score user - 2))) user w Htx) as (u' & w' & E & Hid & Hp).
    eexists u', w', user, _, _. split_and!; try done. unfold ladder_limit_num, Number_of_bigint. by rewrite ladder_limit_units_value.
  - destruct (late_push_run wallet (current_score user)
                (nmax (current_limit user) (ladder_limit_num (current_score user))) w Htx) as (r & w' & E & (Hu & Hl & Hs & Ht) & H).
    eexists user, w', user, (current_score user), _. split_and!; try done.
    + cbv [mbind M_bind] in E |- *. by rewrite E.
    + unfold line_pushed. split_and!; try done. destruct H as [[? ?]|(units & a & ? & ?)]; [by left|]. right. exists units, a. auto.
Qed.

(** *** The whole request *)

(** What follows the transaction: the closed loan stays as it is, only the user's
    row may change, and the line is pushed at most once. *)
Definition finished (wallet : string) (o : RepaymentOutcome) (w w' : World) (r : result RepaymentResponse) : Prop :=
  w_loans w' = w_loans w /\ w_tx w' = w_tx w /\
  (forall j, j <> user_id (ro_user o) -> w_users w' !! j = w_users w !! j) /\
  (forall v, w_users w' !! user_id (ro_user o) = Some v ->
     w_users w !! user_id (ro_user o) = Some v \/ user_id v = user_id (ro_user o)) /\
  (writes_from w w' [] \/ exists s units a, writes_from w w' [CGiveCredit wallet s units a]) /\
  (forall resp, r = Ok resp -> exists sc limit x gain,
     resp = Repaid wallet (loan_id (ro_loan o)) sc limit x (ro_onTime o) gain).

Lemma finish_repayment_run wallet sc0 o w :
  w_tx w = NoTx -> let '(r, w') := finish_repayment wallet sc0 o w in finished wallet o w w' r.
Proof.
  intros Htx. unfold finish_repayment, count_loans, find_user. cbv [mbind M_bind]. rewrite query_NoTx by done.
  destruct (db_count_loans w _) as [n|e].
  2: { split_and!; try done; [by left|]. left. apply reads_writes, reads_refl. }
  destruct (update_line_run wallet (ro_user o) (ro_onTime o) (ro_postDefault o) n w Htx)
    as (u' & w' & u0 & s & lim & E & Hid & Hid0 & (Hl & Hs & Ht & Hp) & _). rewrite E.
  rewrite query_NoTx by congruence.
  assert (Hu : forall j, j <> user_id (ro_user o) -> w_users w' !! j = w_users w !! j).
  { intros j Hj. destruct Hp as [(-> & _)|(? & ? & _ & _ & [->|(_ & ->)])]; [done..|].
    rewrite lookup_insert_ne by congruence. done. }
  assert (Hv : forall v, w_users w' !! user_id (ro_user o) = Some v ->
            w_users w !! user_id (ro_user o) = Some v \/ user_id v = user_id (ro_user o)).
  { intros v. destruct Hp as [(-> & _)|(? & ? & _ & _ & [->|(_ & ->)])]; [by left..|].
    rewrite <- Hid0, lookup_insert_eq. intros [= <-]. by right. }
  assert (Hw : writes_from w w' [] \/ exists s units a, writes_from w w' [CGiveCredit wallet s units a])
    by (destruct Hp as [(_ & ? & _)|(? & ? & _ & ? & _)]; eauto).
  destruct (db_find_user w' _) as [fresh|e]; split_and!; try done. intros resp [= <-]. eauto.
Qed.

(** A request that recorded nothing: an error, or the loan its hash closed before. *)
Definition not_recorded (dto : InformRepaymentDto) (w : World) (r : result RepaymentResponse) : Prop :=
  match r with
  | Ok (AlreadyProcessed l onTime paid) =>
      exists tx j, ir_txHash dto = Some tx /\ w_loans w !! j = Some l /\ closeTxHash (state l) = Some tx /\
        onTime = repaidOnTime (state l) /\ paid = amountPaid (state l)
  | Ok (Repaid _ _ _ _ _ _ _) => False
  | Throw _ => True
  end.

(** A request that closed a loan of [user]. *)
Definition recorded (dto : InformRepaymentDto) (user : User) (w w' : World) (r : result RepaymentResponse) : Prop :=
  repaid_on_chain (walletAddress user) (ir_txHash dto) w w' /\
  (forall tx j l, ir_txHash dto = Some tx -> tx <> ""%string -> w_loans w !! j = Some l -> closeTxHash (state l) <> Some tx) /\
  exists wb o, closed_one user dto w wb o /\ w_loans w' = w_loans wb /\ w_tx w' = NoTx /\
    (forall j, j <> user_id user -> w_users w' !! j = w_users w !! j) /\ tables_ok w' /\
    (writes_from w w' [] \/ exists s units a, writes_from w w' [CGiveCredit (walletAddress user) s units a]) /\
    (forall resp, r = Ok resp -> exists sc limit x gain,
       resp = Repaid (walletAddress user) (loan_id (ro_loan o)) sc limit x (ro_onTime o) gain).

Lemma writes_extends w w' cs : writes_from w w' cs -> extends w w'.
Proof. intros (evs & H & _). by exists evs. Qed.

Lemma user_id_outcome user dto w w' o : closed_one user dto w w' o -> user_id (ro_user o) = user_id user.
Proof. intros (l & now & p & _ & _ & _ & _ & _ & _ & _ & _ & [(_ & ->)|(_ & -> & _)]); done. Qed.

(** From the lookup by hash on. *)
Lemma close_and_finish user chainPaid sc0 dto w wp :
  tables_ok w -> w_tx w = NoTx -> reads w wp ->
  repaid_on_chain (walletAddress user) (ir_txHash dto) w wp ->
  (forall tx j l, ir_txHash dto = Some tx -> tx <> ""%string -> w_loans w !! j = Some l -> closeTxHash (state l) <> Some tx) ->
  let '(r, w') := (o ← transaction (repay_tx user chainPaid dto); finish_repayment (walletAddress user) sc0 o) wp in
  (same_tables w w' /\ writes_from w w' [] /\ not_recorded dto w r) \/ recorded dto user w w' r.
Proof.
  intros Hok Htx Hr Hp Hno. pose proof (reads_writes _ _ Hr) as Hw0. destruct Hr as (Hu & Hl & Hs & Ht & _).
  assert (Hok' : tables_ok (set_tx TxActive wp)) by (unfold tables_ok; cbn; by rewrite Hu, Hl).
  pose proof (repay_tx_run user chainPaid dto (set_tx TxActive wp) Hok' eq_refl) as Hrun.
  cbv [mbind M_bind]. rewrite transaction_run; [|congruence|intros a w' Ha; by rewrite Ha in Hrun; destruct Hrun].
  destruct (repay_tx _ _ _ _) as [[o|e] wb].
  2: { left. split; [by split_and!|]. split; [|done]. exact (writes_trans _ _ _ [] [] Hw0 Hrun). }
  destruct Hrun as (_ & Hwb & Hc). pose proof (user_id_outcome _ _ _ _ _ Hc) as Hid.
  pose proof (finish_repayment_run (walletAddress user) sc0 o (set_tx NoTx wb) eq_refl) as Hf.
  destruct (finish_repayment _ _ _ _) as [r w']. destruct Hf as (Hfl & Hft & Hfu & Hfv & Hfw & Hresp). right.
  assert (Hwb' : writes_from w (set_tx NoTx wb) []) by exact (writes_trans _ _ _ [] [] Hw0 Hwb).
  split; [|split; [done|]].
  { eapply repaid_on_chain_more; [exact Hp|].
    eapply extends_trans; [exact (writes_extends _ _ _ Hwb)|]. destruct Hfw as [?|(? & ? & ? & ?)]; by eapply writes_extends. }
  exists wb, o. split.
  { unfold closed_one in *. cbn in Hc. rewrite Hl, Hu in Hc. exact Hc. }
  split_and!; [done|done| | | |done].
  - intros j Hj. rewrite Hfu by congruence. cbn. destruct Hc as (l & now & p & _ & _ & _ & _ & _ & _ & _ & _ & [(-> & _)|(_ & _ & ->)]); cbn.
    + by rewrite Hu.
    + rewrite lookup_insert_ne by congruence. by rewrite Hu.
  - destruct Hok' as [Hok1 Hok2]. cbn in Hok1, Hok2.
    destruct Hc as (l & now & p & _ & _ & _ & Ho & _ & _ & _ & Hlb & Hub). split.
    + intros j v Hj. destruct (decide (j = user_id (ro_user o))) as [->|Hne].
      * apply Hfv in Hj as [Hj|Hj]; [|done]. cbn in Hj. destruct Hub as [(Hub & _)|(_ & _ & Hub)]; rewrite Hub in Hj; [by apply Hok1|].
        rewrite Hid, lookup_insert_eq in Hj. by injection Hj as <-.
      * rewrite Hfu in Hj by done. cbn in Hj. destruct Hub as [(Hub & _)|(_ & _ & Hub)]; rewrite Hub in Hj; [by apply Hok1|].
        rewrite lookup_insert_ne in Hj by congruence. by apply Hok1.
    + rewrite Hfl. cbn. rewrite Hlb, Ho. apply map_Forall_insert_2; [done|exact Hok2].
  - destruct Hfw as [H|(s & units & a & H)]; [left|right; exists s, units, a]; exact (writes_trans _ _ _ [] _ Hwb' H).
Qed.

Lemma preview_reads wallet w : exists r w', attempt (previewLoanWithLate wallet) w = (Ok r, w') /\ reads w w'.
Proof. eexists _, _. split; [reflexivity|by apply reads_log]. Qed.

Lemma process_user_run user dto w :
  tables_ok w -> w_tx w = NoTx ->
  let '(r, w') := process_user (walletAddress user) user dto w in
  (same_tables w w' /\ writes_from w w' [] /\ not_recorded dto w r) \/ recorded dto user w w' r.
Proof.
  intros Hok Htx. unfold process_user. cbv zeta. cbv [mbind M_bind].
  pose proof (verify_repayment_run (walletAddress user) (ir_txHash dto) w) as H.
  destruct (verify_repayment _ _ w) as [[paid|e] w1]; destruct H as [Hr1 Hp].
  2: { left. split; [by apply same_tables_reads|]. split; [by apply reads_writes|done]. }
  specialize (Hp eq_refl). destruct (preview_reads (walletAddress user) w1) as (r2 & w2 & E2 & Hr2). rewrite E2.
  pose proof (reads_trans _ _ _ Hr1 Hr2) as Hr.
  assert (Hp2 : repaid_on_chain (walletAddress user) (ir_txHash dto) w w2)
    by (eapply repaid_on_chain_more; [exact Hp|by apply reads_extends]).
  assert (Hleft : forall r : result RepaymentResponse, not_recorded dto w r ->
            same_tables w w2 /\ writes_from w w2 [] /\ not_recorded dto w r)
    by (intros r Hn; split; [by apply same_tables_reads|split; [by apply reads_writes|done]]).
  pose proof (close_and_finish user paid (current_score user) dto w w2 Hok Htx Hr Hp2) as Hgo.
  cbv [mbind M_bind] in Hgo. destruct (ir_txHash dto) as [tx|] eqn:Etx; [|apply Hgo; naive_solver].
  case_bool_decide as Hne; [subst tx; apply Hgo; naive_solver|].
  unfold find_loan. rewrite query_NoTx by (destruct Hr as (_ & _ & _ & -> & _); done).
  destruct (db_find_loan w2 (closed_by tx) None) as [[l|]|e] eqn:El; [| |left; by apply Hleft].
  - left. apply Hleft. apply find_loan_some in El as (j & Hj & Hc). unfold closed_by in Hc. bool_to_prop.
    destruct Hr as (_ & Hl & _). rewrite Hl in Hj. exists tx, j. done.
  - apply Hgo. intros tx' j l [= <-] _ Hj Hc. eapply find_loan_none in El.
    2: { destruct Hr as (_ & Hl & _). rewrite Hl. exact Hj. }
    unfold closed_by in El. by rewrite Hc, bool_decide_true in El.
Qed.

Lemma process_repayment_run dto w :
  tables_ok w -> w_tx w = NoTx ->
  let '(r, w') := processRepayment dto w in
  (same_tables w w' /\ writes_from w w' [] /\ not_recorded dto w r) \/
  exists i user, w_users w !! i = Some user /\ normalizeWallet (ir_walletAddress dto) = Ok (walletAddress user) /\
    recorded dto user w w' r.
Proof.
  intros Hok Htx. assert (Hno : forall e, same_tables w w /\ writes_from w w [] /\ not_recorded dto w (Throw e))
    by (intros e; split; [by split_and!|split; [apply reads_writes, reads_refl|done]]).
  unfold processRepayment. cbv [mbind M_bind lift].
  destruct (normalizeWallet (ir_walletAddress dto)) as [b|e]; [|left; apply Hno].
  unfold find_user. rewrite query_NoTx by done.
  destruct (db_find_user w (by_wallet b)) as [[u|]|e] eqn:Eu; [|left; apply Hno..].
  apply find_user_some in Eu as (i & Hu & Hw). unfold by_wallet in Hw. bool_to_prop. subst b.
  pose proof (process_user_run u dto w Hok Htx) as H.
  destruct (process_user _ _ _ w) as [r w']. destruct H as [?|?]; [by left|right]. by exists i, u.
Qed.

(** ** Properties *)

(** A preflight writes nothing in the database, and on chain at most the
    late fees of the wallet's loan, and those only when they are forced, the grace
    period is over and the late rate is not zero - which is when the answer says
    so. The late period starts at the due date plus the grace period; without
    accrual the two amounts due agree; and with a non-negative rate and amount the
    instant up to which fees are accrued is the chain's time, or lies between the
    start of the late period and the chain's time. *)
Theorem preflight_correct (walletAddress : string) (force : bool) (w : World) (Htx : w_tx w = NoTx) :
  let '(r, w') := preflightRepayment walletAddress force w in
  same_tables w w' /\
  ((is_ok r = false /\ writes_from w w' []) \/
   exists wallet, normalizeWallet walletAddress = Ok wallet /\ preflight_answer force w w' r wallet).
Proof. by apply preflight_run. Qed.

(** C5. What recording a repayment can do, whatever the gateway and the database
    answer. Either it writes nothing, anywhere, and answers an error or the loan
    that carries the hash already; or the chain proved the repayment (the
    transaction is confirmed for this wallet, or the wallet's loan is inactive), no
    loan carried the hash, and exactly one loan is closed: the newest of the
    user's open or defaulted loans, on time iff no later than a day after its due
    date. Then only this user's row may change and the new credit line is pushed
    on chain at most once. *)
Theorem repayment_correct (dto : InformRepaymentDto) (w : World) (Hok : tables_ok w) (Htx : w_tx w = NoTx) :
  let '(r, w') := processRepayment dto w in
  (same_tables w w' /\ writes_from w w' [] /\ not_recorded dto w r) \/
  exists i user, w_users w !! i = Some user /\ normalizeWallet (ir_walletAddress dto) = Ok (walletAddress user) /\
    recorded dto user w w' r.
Proof. by apply process_repayment_run. Qed.

(** C37. The score and the limit a repayment earns. The line is pushed on chain at
    most once, and the user's row takes it only if the gateway answers 200. On
    time, the score is the ladder's for the number of on-time loans, at most one
    above the current one, and the limit is the larger of the current limit and
    the ladder's, so it never decreases; past the default period the score drops
    by two, not below 1, and the limit is the ladder's of that score; late
    otherwise, the score stays and the row is untouched. *)
Theorem repayment_score_policy (wallet : string) (user : User) (onTime postDefault : bool) (n : Z) (w : World)
    (Htx : w_tx w = NoTx) :
  exists user' w' u0 s lim, update_line wallet user onTime postDefault n w = (Ok user', w') /\
    user_id user' = user_id user /\ user_id u0 = user_id user /\
    line_pushed wallet u0 s lim w w' /\ earned_line user onTime postDefault n w w' u0 s lim.
Proof. by apply update_line_run. Qed.
End Facts.

(** Recording is idempotent by hash: once a repayment with a transaction hash
    is recorded, the same request - whatever the chain answers by then - writes
    nothing, in the database or on chain, and answers an error or the loan closed
    before. *)
Theorem repayment_idempotent `{ENV : Env} `{DB : Database} (OUT OUT' : Outside) `{D : DecimalJs} `{JM : JsMath}
    {LAWS : DatabaseLaws DB} (dto : InformRepaymentDto) (tx : string) (w w1 : World)
    (wallet : string) (i : Z) (sc : option Z) (limit : option num) (x : Z) (onTime : bool) (gain : option ReputationGain)
    (Hok : tables_ok w) (Htx : w_tx w = NoTx) (Hhash : ir_txHash dto = Some tx) (Hne : tx <> ""%string)
    (Hrun : processRepayment (OUT := OUT) dto w = (Ok (Repaid wallet i sc limit x onTime gain), w1)) :
  let '(r, w2) := processRepayment (OUT := OUT') dto w1 in
  same_tables w1 w2 /\ writes_from w1 w2 [] /\ not_recorded dto w1 r.
Proof.
  pose proof (process_repayment_run (OUT := OUT) dto w Hok Htx) as H. rewrite Hrun in H.
  destruct H as [(_ & _ & [])|(k & user & Hk & _ & _ & _ & wb & o & Hc & Hl & Htx1 & _ & Hok1 & _)].
  destruct Hc as (l & now & paid & Hj & _ & _ & Ho & _ & _ & _ & Hlb & _).
  assert (Hrow : w_loans w1 !! loan_id l = Some (stored_loan (ro_loan o)))
    by by rewrite Hl, Hlb, lookup_insert_eq.
  pose proof (process_repayment_run (OUT := OUT') dto w1 Hok1 Htx1) as H.
  destruct (processRepayment (OUT := OUT') dto w1) as [r w2].
  destruct H as [H|(k' & user' & _ & _ & _ & Hno & _)]; [done|]. exfalso.
  apply (Hno tx (loan_id l) _ Hhash Hne Hrow). rewrite Ho. by rewrite <- Hhash.
Qed.

(** ** Concrete repayments *)

(** A stand-in for the logarithm, from the binary one. *)
Definition SampleMath : JsMath :=
  {| log10 x := (num_of_Z (Z.log2 (default 1 (num_floor x))) * lit 30103 5)%num |}.

(** [lending], answering the two questions about a repayment in its own way. *)
Definition lending_with (loanActive : bool) (answer : RepayVerification) : Outside :=
  {| gw_readCreditLimit := @gw_readCreditLimit lending; gw_readNextBorrowTime := @gw_readNextBorrowTime lending;
     gw_giveCredit := @gw_giveCredit lending; gw_createOffer := @gw_createOffer lending;
     gw_previewLate _ _ := Ok (Some 0);
     gw_readLoan _ _ := Ok (Some {| active := loanActive; oc_principal := 1; oc_amountDue := 1 |});
     gw_readLoanFull _ _ := Ok (Some {| f_principal := 10000000; f_amountDue := 10500000; f_start := 0; f_due := 100;
                                        f_feeBps := 840; f_gracePeriod := 86400; f_active := loanActive |});
     gw_readPremium _ _ := Ok (Some {| premiumRatePerSecWad := 0; premium_lateRatePerSecWad := 19290123457 |});
     gw_readIsDefaulted _ _ := Ok (Some false); gw_chainTimestamp _ := Ok (Some 200000);
     gw_verifyOpened := @gw_verifyOpened lending; gw_verifyRepay _ _ _ := Ok answer;
     gw_accrueLate _ _ := Ok tt; now_ms := @now_ms lending; kyc_name := "fake";
     kyc_createSession := @kyc_createSession lending; kyc_getDecision := @kyc_getDecision lending |}.

Definition confirmed : RepayVerification :=
  {| verified := true; reason := None; blockNumber := Some 7; paidUnits := Some 10840000 |}.

Definition unreachable : RepayVerification :=
  {| verified := false; reason := Some rpc_error; blockNumber := None; paidUnits := None |}.

Definition sample_repay (tx : option string) : InformRepaymentDto :=
  {| ir_walletAddress := sample_wallet; ir_amountPaidHuman := "1.08"; ir_txHash := tx |}.

Definition inform_open (tx : string) (w : World) : World :=
  snd (informLoanOpened (OUT := lending) (D := QDecimal)
         {| il_walletAddress := sample_wallet; il_amountHuman := "1"; il_tenorDays := 14; il_txHash := tx |} w).

Definition inform_repay (OUT : Outside) (tx : option string) (w : World) : result RepaymentResponse * World :=
  processRepayment (ENV := sample_env) (D := QDecimal) (JM := SampleMath) (sample_repay tx) w.

Definition one_loan : World := inform_open "a1" lending_world.

Definition loan_status (i : Z) (w : World) : option LoanStatus := status ∘ state <$> w_loans w !! i.

Definition repaid_line (r : result RepaymentResponse) : option (Z * option Z) :=
  match r with Ok (Repaid _ i sc _ _ _ _) => Some (i, sc) | _ => None end.

Lemma tables_ok_bool w :
  forallb (fun kv => user_id (snd kv) =? fst kv) (map_to_list (w_users w)) = true ->
  forallb (fun kv => loan_id (snd kv) =? fst kv) (map_to_list (w_loans w)) = true -> tables_ok w.
Proof.
  intros Hu Hl. split; intros i x Hi.
  - apply Z.eqb_eq. rewrite List.forallb_forall in Hu. apply (Hu (i, x)), list_elem_of_In, elem_of_map_to_list, Hi.
  - apply Z.eqb_eq. rewrite List.forallb_forall in Hl. apply (Hl (i, x)), list_elem_of_In, elem_of_map_to_list, Hi.
Qed.

Lemma one_loan_ok : tables_ok one_loan.
Proof. apply tables_ok_bool; vm_compute; reflexivity. Qed.

Lemma one_loan_tx : w_tx one_loan = NoTx.
Proof. vm_compute. reflexivity. Qed.

Lemma repayment_correct_witness :
  repaid_line (fst (inform_repay (lending_with false confirmed) (Some "r1"%string) one_loan)) = Some (0, Some 2) /\
  let '(r, w') := inform_repay (lending_with false confirmed) (Some "r1"%string) one_loan in
  (same_tables one_loan w' /\ writes_from one_loan w' [] /\ not_recorded (sample_repay (Some "r1"%string)) one_loan r) \/
  exists i user, w_users one_loan !! i = Some user /\ normalizeWallet sample_wallet = Ok (walletAddress user) /\
    recorded (OUT := lending_with false confirmed) (sample_repay (Some "r1"%string)) user one_loan w' r.
Proof.
  split; [vm_compute; reflexivity|].
  pose proof (repayment_correct (ENV := sample_env) (OUT := lending_with false confirmed) (D := QDecimal) (JM := SampleMath)
                (sample_repay (Some "r1"%string)) one_loan one_loan_ok one_loan_tx) as H.
  exact H.
Defined.

Lemma repayment_score_policy_witness :
  exists user' w' u0 s lim,
    update_line (ENV := sample_env) (OUT := lending) sample_wallet (set_score_and_limit 5 (num_of_Z 50000000) sample_user)
      false true 3 lending_world = (Ok user', w') /\
    earned_line (ENV := sample_env) (set_score_and_limit 5 (num_of_Z 50000000) sample_user) false true 3 lending_world w' u0 s lim /\ s = 3.
Proof.
  destruct (repayment_score_policy (ENV := sample_env) (OUT := lending) sample_wallet
              (set_score_and_limit 5 (num_of_Z 50000000) sample_user) false true 3 lending_world eq_refl)
    as (user' & w' & u0 & s & lim & Hrun & _ & _ & _ & He).
  exists user', w', u0, s, lim. split; [exact Hrun|]. split; [exact He|]. destruct He as (-> & _). reflexivity.
Defined.

Lemma preflight_correct_witness :
  exists p w', preflightRepayment (ENV := sample_env) (OUT := lending_with true confirmed) sample_wallet true lending_world = (Ok p, w') /\
    pf_accrueLateCalled p = true /\ writes_from lending_world w' [CAccrueLate sample_wallet (Ok tt)].
Proof.
  pose proof (preflight_correct (ENV := sample_env) (OUT := lending_with true confirmed) sample_wallet true lending_world eq_refl) as H.
  assert (Hc : match fst (preflightRepayment (ENV := sample_env) (OUT := lending_with true confirmed) sample_wallet true lending_world) with
               | Ok p => pf_accrueLateCalled p | Throw _ => false end = true) by (vm_compute; reflexivity).
  destruct (preflightRepayment sample_wallet true lending_world) as [[p|e] w']; [|discriminate Hc]. cbn [fst] in Hc.
  exists p, w'. split_and!; [done|done|].
  destruct H as (_ & [[H _]|(wallet & Hw & H)]); [discriminate H|].
  assert (Hw' : normalizeWallet sample_wallet = Ok sample_wallet) by (vm_compute; reflexivity).
  rewrite Hw' in Hw. injection Hw as <-. destruct H as (_ & _ & _ & _ & _ & _ & H). rewrite Hc in H. exact H.
Defined.

(** The sample request repeated, the gateway being unreachable the second time. *)
Lemma repayment_idempotent_witness :
  exists limit x gain w1, inform_repay (lending_with false confirmed) (Some "r1"%string) one_loan
      = (Ok (Repaid sample_wallet 0 (Some 2) limit x true gain), w1) /\
    let '(r, w2) := inform_repay (lending_with false unreachable) (Some "r1"%string) w1 in
    same_tables w1 w2 /\ writes_from w1 w2 [] /\ not_recorded (sample_repay (Some "r1"%string)) w1 r.
Proof.
  eexists _, _, _, _. split; [vm_compute; reflexivity|].
  unfold inform_repay. eapply (repayment_idempotent (ENV := sample_env) (D := QDecimal) (JM := SampleMath)
    (lending_with false confirmed) (lending_with false unreachable) (sample_repay (Some "r1"%string)) "r1"%string one_loan);
    [exact one_loan_ok|exact one_loan_tx|reflexivity|discriminate|vm_compute; reflexivity].
Defined.

(** The loan is repaid by [r1], which is reported without its hash; then a second
    loan is opened, and [r1] is reported, with its hash. *)
Definition reuse_story : result RepaymentResponse * World :=
  inform_repay (lending_with true confirmed) (Some "r1"%string)
    (inform_open "a2" (snd (inform_repay (lending_with false confirmed) None one_loan))).

(** The proof of a repayment is not tied to a loan: a transaction that repaid
    an earlier loan, and whose hash no row carries because it was reported
    without one, closes the borrower's next loan as repaid on time and raises the
    score again, while the chain reports that loan as active. *)
Theorem repayment_proof_reused :
  loan_status 0 (snd reuse_story) = Some REPAID_ON_TIME /\
  loan_status 1 (snd reuse_story) = Some REPAID_ON_TIME /\
  repaid_line (fst reuse_story) = Some (1, Some 3) /\
  forall t, gw_readLoan (Outside := lending_with true confirmed) t sample_wallet
            = Ok (Some {| active := true; oc_principal := 1; oc_amountDue := 1 |}).
Proof. split_and!; [vm_compute; reflexivity..|done]. Qed.

Definition other_wallet : string := "0x00000000000000000000000000000000000000b0".

(** A second user, without loans. *)
Definition other_user : User :=
  {| user_id := 2; walletAddress := other_wallet; onboarding := onboarding sample_user; credit := credit sample_user;
     phone_columns := phone_columns sample_user; kyc := kyc sample_user |}.

Definition two_users : World :=
  let w := snd (inform_repay (lending_with false confirmed) (Some "r1"%string) one_loan) in
  set_users (<[2 := other_user]> (w_users w)) w.

(** The lookup by hash is not restricted to the caller: when the transaction
    cannot be verified (the RPC is down) and the caller has no active loan on
    chain, reporting another user's repayment is answered with that user's
    loan. *)
Theorem repayment_answers_foreign_loan :
  match fst (processRepayment (ENV := sample_env) (OUT := lending_with false unreachable) (D := QDecimal) (JM := SampleMath)
               {| ir_walletAddress := other_wallet; ir_amountPaidHuman := "1"; ir_txHash := Some "r1"%string |} two_users) with
  | Ok (AlreadyProcessed l _ _) => userId (terms l) = 1 /\ borrowerAddress (terms l) = sample_wallet
  | _ => False
  end.
Proof. vm_compute. by split. Qed.
