(* ===== verification/Ledger.v ===== *)
(** * The life of a loan row

    What the services promise about the table [loans], stated without them: a row
    is born open, its terms never change, it may be closed, then tied to the
    transaction that closed it, and from then on its state is final; no two rows
    carry the same transaction. [ledger_step] is one such change of the table; the
    specification [Spec] forgets everything but each loan's owner and phase. *)

From stdpp Require Import base tactics list gmap strings numbers.
From Stdlib Require Import Lia ZArith.
From S2P Require Import Prelude JsString JsNum Entities Gateway Store LoanVerification LoanService LoanRepayment.

Local Open Scope Z_scope.

(** ** Rows *)

(** The transaction a row is tied to; the empty string counts as none. *)
Definition receipt (l : Loan) : option string :=
  match closeTxHash (state l) with
  | Some h => if bool_decide (h = ""%string) then None else Some h
  | None => None
  end.

Definition is_repaid (l : Loan) : bool :=
  bool_decide (status (state l) = REPAID_ON_TIME) || bool_decide (status (state l) = REPAID_LATE).

(** A row that makes sense: closed and flagged on time exactly when its status
    says so, on time only within a day of its due date, and tied to a transaction
    only when repaid. *)
Definition loan_ok (l : Loan) : Prop :=
  (repaidOnTime (state l) = true <-> status (state l) = REPAID_ON_TIME) /\
  (is_repaid l = true -> exists c, closedAt (state l) = Some c /\
     (repaidOnTime (state l) = true -> c - dueAt (terms l) <= REPAID_ON_TIME_GRACE_MS)) /\
  (is_Some (closeTxHash (state l)) -> is_repaid l = true).

(** A row as it is inserted. *)
Definition newborn (l : Loan) : Prop :=
  status (state l) = OPEN /\ repaidOnTime (state l) = false /\ closedAt (state l) = None /\
  closeTxHash (state l) = None /\ late l = no_snapshot.

Section Terms.
  Context `{DB : Database}.

(** The terms as the decimal columns give them back. *)
Definition stored_terms (t : LoanTerms) : LoanTerms :=
  {| userId := userId t; borrowerAddress := borrowerAddress t; principal := db_decimal (principal t);
     amountDueAtOpen := db_decimal (amountDueAtOpen t); tenorDays := tenorDays t; feeBps := feeBps t;
     startAt := startAt t; dueAt := dueAt t; openTxHash := openTxHash t |}.

(** The same loan, on the same terms. *)
Definition same_loan (l l' : Loan) : Prop :=
  loan_id l' = loan_id l /\ loan_createdAt l' = loan_createdAt l /\ stored_terms (terms l') = stored_terms (terms l).

(** One change of a row: of its late-fee snapshot alone, or a closing of a row
    that no transaction is tied to. *)
Definition loan_edge (l l' : Loan) : Prop :=
  same_loan l l' /\ (state l' = state l \/ (receipt l = None /\ is_repaid l' = true /\ loan_ok l')).
End Terms.

(** ** The table *)

Definition no_conflict (t : gmap Z Loan) (l : Loan) : Prop :=
  forall j l', t !! j = Some l' -> j <> loan_id l -> hash_conflict l l' = false.

Inductive ledger_step `{DB : Database} (t : gmap Z Loan) : gmap Z Loan -> Prop :=
  | step_open l : t !! loan_id l = None -> newborn l -> no_conflict t l -> ledger_step t (<[loan_id l := l]> t)
  | step_row l l' : t !! loan_id l = Some l -> loan_edge l l' -> no_conflict t l' ->
      ledger_step t (<[loan_id l := l']> t).

(** Every row is stored under its id and makes sense, and no two rows carry the
    same opening or closing transaction. *)
Definition ledger_ok (t : gmap Z Loan) : Prop :=
  map_Forall (fun i l => loan_id l = i) t /\ map_Forall (fun _ l => loan_ok l) t /\
  forall i l, t !! i = Some l -> no_conflict t l.

(** What every later row keeps of a row. *)
Definition loan_le `{DB : Database} (l l' : Loan) : Prop :=
  same_loan l l' /\ (is_repaid l = true -> is_repaid l' = true) /\
  (forall h, receipt l = Some h -> state l' = state l).

Definition ledger_le `{DB : Database} (t t' : gmap Z Loan) : Prop :=
  forall i l, t !! i = Some l -> exists l', t' !! i = Some l' /\ loan_le l l'.

(** ** The specification *)
Module Spec.

Inductive phase := Running | Closed (onTime : bool) | Settled (onTime : bool) (tx : string).

(** Per loan: its owner, its wallet and its phase. *)
Abbreviation book := (gmap Z (Z * string * phase)).

Definition tx_of (p : phase) : option string := match p with Settled _ h => Some h | _ => None end.

Inductive edge : phase -> phase -> Prop :=
  | edge_close b : edge Running (Closed b)
  | edge_pay b h : edge Running (Settled b h)
  | edge_reclose b b' : edge (Closed b) (Closed b')
  | edge_settle b b' h : edge (Closed b) (Settled b' h).

(** A loan is booked, or moves along an edge; a transaction settles one loan. *)
Inductive step (s : book) : book -> Prop :=
  | book_loan i u a : s !! i = None -> step s (<[i := (u, a, Running)]> s)
  | move_loan i o p p' : s !! i = Some (o, p) -> edge p p' ->
      (forall h j o' q, tx_of p' = Some h -> s !! j = Some (o', q) -> tx_of q <> Some h) ->
      step s (<[i := (o, p')]> s).

Definition phase_of (l : Loan) : phase :=
  match receipt l with
  | Some h => Settled (repaidOnTime (state l)) h
  | None => if is_repaid l then Closed (repaidOnTime (state l)) else Running
  end.

Definition entry (l : Loan) : Z * string * phase := (userId (terms l), borrowerAddress (terms l), phase_of l).

(** The book the table stands for. *)
Definition abs (t : gmap Z Loan) : book := entry <$> t.
End Spec.

(** ** Lemmas *)

Section Facts.
  Context `{DB : Database} {LAWS : DatabaseLaws DB}.

Lemma hash_conflict_sym l l' : hash_conflict l l' = hash_conflict l' l.
Proof.
  unfold hash_conflict. f_equal; (destruct (_ (_ l)), (_ (_ l')); try done; apply bool_decide_ext; done).
Qed.

Lemma no_conflict_insert t l l' :
  no_conflict t l -> loan_id l' <> loan_id l -> hash_conflict l l' = false -> no_conflict (<[loan_id l' := l']> t) l.
Proof.
  intros H Hne Hc j l0 Hj Hj'. apply lookup_insert_Some in Hj as [[<- <-]|[_ Hj]]; [done|by eapply H].
Qed.

Lemma ledger_insert t l :
  ledger_ok t -> loan_ok l -> no_conflict t l -> ledger_ok (<[loan_id l := l]> t).
Proof.
  intros (Hid & Hok & Hc) Hl Hn. split_and!.
  - by apply map_Forall_insert_2.
  - by apply map_Forall_insert_2.
  - intros i l0 Hi. apply lookup_insert_Some in Hi as [[<- <-]|[Hne Hi]].
    + intros j l' Hj Hj'. rewrite lookup_insert_ne in Hj by done. by eapply Hn.
    + pose proof (Hid _ _ Hi) as Hi'. cbn in Hi'. subst i. apply no_conflict_insert; [by eapply Hc|done|].
      rewrite hash_conflict_sym. by eapply Hn.
Qed.

Lemma newborn_ok l : newborn l -> loan_ok l.
Proof.
  intros (Hs & Hr & Hc & Ht & _). unfold loan_ok, is_repaid. rewrite Hs, Hr, Hc, Ht. cbn.
  split_and!; [done|done|by intros [? [=]]].
Qed.

Lemma is_repaid_state l l' : state l' = state l -> is_repaid l' = is_repaid l.
Proof. unfold is_repaid. by intros ->. Qed.

Lemma receipt_state l l' : state l' = state l -> receipt l' = receipt l.
Proof. unfold receipt. by intros ->. Qed.

Lemma same_loan_due l l' : same_loan l l' -> dueAt (terms l') = dueAt (terms l).
Proof. by intros (_ & _ & [=]). Qed.

Lemma loan_edge_ok l l' : loan_edge l l' -> loan_ok l -> loan_ok l'.
Proof.
  intros [Hsame [Hs|(_ & _ & ?)]] Hok; [|done]. unfold loan_ok. rewrite (is_repaid_state l l') by done.
  by rewrite Hs, (same_loan_due l l').
Qed.

Lemma ledger_step_ok t t' : ledger_step t t' -> ledger_ok t -> ledger_ok t'.
Proof.
  intros [l Hl Hn Hc|l l' Hl He Hc] Hok.
  - apply ledger_insert; [done|by apply newborn_ok|done].
  - pose proof He as [(Hid & _) _]. rewrite <- Hid. apply ledger_insert; [done| |done].
    eapply loan_edge_ok; [done|]. by eapply (proj1 (proj2 Hok)).
Qed.

Lemma ledger_steps_ok t t' : steps ledger_step t t' -> ledger_ok t -> ledger_ok t'.
Proof. apply steps_invariant, ledger_step_ok. Qed.

#[export] Instance same_loan_preorder : PreOrder same_loan.
Proof.
  split; [by intros l|]. intros l1 l2 l3 (? & ? & ?) (? & ? & ?). split_and!; congruence.
Qed.

#[export] Instance loan_le_preorder : PreOrder loan_le.
Proof.
  split; [by intros l|]. intros l1 l2 l3 (Hs1 & Hr1 & Ht1) (Hs2 & Hr2 & Ht2). split_and!; [by etrans|auto|].
  intros h Hh. pose proof (Ht1 h Hh) as He. rewrite <- He. apply (Ht2 h). by rewrite (receipt_state l1 l2).
Qed.

#[export] Instance ledger_le_preorder : PreOrder ledger_le.
Proof.
  split; [intros t i l Hl; by exists l|].
  intros t1 t2 t3 H1 H2 i l Hl. apply H1 in Hl as (l2 & Hl2 & Hle). apply H2 in Hl2 as (l3 & ? & ?).
  exists l3. split; [done|by etrans].
Qed.

Lemma loan_edge_le l l' : loan_edge l l' -> loan_le l l'.
Proof.
  intros [Hsame [Hs|(Hr & Hp & _)]]; (split; [done|]).
  - by rewrite (is_repaid_state l l').
  - split; [done|]. intros h. by rewrite Hr.
Qed.

Lemma ledger_step_le t t' : ledger_step t t' -> ledger_le t t'.
Proof.
  intros [l Hl _ _|l l' Hl He _] i l0 Hi.
  - exists l0. rewrite lookup_insert_ne by congruence. done.
  - destruct (decide (i = loan_id l)) as [->|Hne].
    + rewrite Hl in Hi. injection Hi as <-. exists l'. rewrite lookup_insert_eq. split; [done|by apply loan_edge_le].
    + exists l0. by rewrite lookup_insert_ne.
Qed.

Lemma ledger_steps_le t t' : steps ledger_step t t' -> ledger_le t t'.
Proof. apply steps_relation; [done|intros a b c; apply transitivity|apply ledger_step_le]. Qed.

(** *** The refinement *)

Lemma phase_edge l l' :
  loan_edge l l' -> loan_ok l -> Spec.phase_of l' = Spec.phase_of l \/ Spec.edge (Spec.phase_of l) (Spec.phase_of l').
Proof.
  intros [_ [Hs|(Hr & Hp & _)]] _; unfold Spec.phase_of.
  - left. by rewrite (receipt_state l l'), (is_repaid_state l l'), Hs.
  - right. rewrite Hr, Hp. destruct (receipt l'), (is_repaid l); constructor.
Qed.

Lemma receipts_conflict l l' h : receipt l = Some h -> receipt l' = Some h -> hash_conflict l l' = true.
Proof.
  unfold receipt, hash_conflict. destruct (closeTxHash (state l)), (closeTxHash (state l')); try done.
  repeat case_bool_decide; try done; intros [=] [=]; subst; try done. by rewrite orb_true_r.
Qed.

(** Every step of the table is a step of its book, or leaves it as it is. *)
Lemma ledger_step_refines t t' :
  ledger_step t t' -> ledger_ok t -> steps Spec.step (Spec.abs t) (Spec.abs t').
Proof.
  intros [l Hl Hn Hc|l l' Hl He Hc] (Hid & Hok & _); unfold Spec.abs; rewrite fmap_insert.
  - assert (Hp : Spec.phase_of l = Spec.Running).
    { destruct Hn as (Hs & _ & _ & Ht & _). unfold Spec.phase_of, receipt, is_repaid. by rewrite Ht, Hs. }
    replace (Spec.entry l) with (userId (terms l), borrowerAddress (terms l), Spec.Running)
      by (unfold Spec.entry; by rewrite Hp).
    eapply steps_step; [|constructor]. constructor. by rewrite lookup_fmap, Hl.
  - pose proof He as [(Hi & _ & Hterms) _]. assert (Howner : (userId (terms l'), borrowerAddress (terms l')) = (userId (terms l), borrowerAddress (terms l)))
      by (injection Hterms; congruence).
    pose proof (Hok _ _ Hl) as Hlok. destruct (phase_edge l l' He Hlok) as [Hp|Hp].
    + replace (Spec.entry l') with (Spec.entry l) by (unfold Spec.entry; rewrite Hp; congruence).
      rewrite insert_id; [constructor|]. by rewrite lookup_fmap, Hl.
    + replace (Spec.entry l') with (userId (terms l), borrowerAddress (terms l), Spec.phase_of l')
        by (unfold Spec.entry; congruence).
      eapply steps_step; [|constructor].
      eapply Spec.move_loan; [by rewrite lookup_fmap, Hl|done|].
      intros h j o q Hh Hj Hq. rewrite lookup_fmap in Hj. destruct (t !! j) as [l0|] eqn:E; [|done].
      injection Hj as <- <-.
      assert (Hr : forall x, Spec.tx_of (Spec.phase_of x) = Some h -> receipt x = Some h)
        by (intros x; unfold Spec.phase_of; destruct (receipt x); [by intros [= ->]|by destruct (is_repaid x)]).
      apply Hr in Hh. apply Hr in Hq. destruct (decide (j = loan_id l)) as [->|Hne].
      * rewrite Hl in E. injection E as <-. unfold Spec.phase_of in Hp. rewrite Hq in Hp. by inversion Hp.
      * pose proof (receipts_conflict _ _ _ Hh Hq) as Hx. rewrite (Hc j l0) in Hx; congruence.
Qed.

Lemma ledger_steps_refine t t' :
  steps ledger_step t t' -> ledger_ok t -> steps Spec.step (Spec.abs t) (Spec.abs t').
Proof.
  induction 1 as [t|t1 t2 t3 H _ IH]; intros Hok; [constructor|].
  eapply steps_trans; [by apply ledger_step_refines|]. apply IH. by eapply ledger_step_ok.
Qed.

(** In the specification a settled loan stays settled by the same transaction. *)
Lemma spec_settled_final s s' i o b h :
  steps Spec.step s s' -> s !! i = Some (o, Spec.Settled b h) -> s' !! i = Some (o, Spec.Settled b h).
Proof.
  induction 1 as [s|s1 s2 s3 Hs _ IH]; [done|]. intros Hi. apply IH. destruct Hs as [j u a Hj|j o' p p' Hj He _].
  - rewrite lookup_insert_ne; [done|congruence].
  - destruct (decide (j = i)) as [->|Hne]; [|by rewrite lookup_insert_ne].
    rewrite Hi in Hj. injection Hj as <- <-. by inversion He.
Qed.
End Facts.
