(* ===== verification/ChainSync.v ===== *)
(** * Chain synchronisation ([backend/src/loan/chain-sync.service.ts],
      [backend/src/infrastructure/queue/chain-sync.processor.ts])

    The periodic jobs that bring the tables in line with the chain: the scan of
    loan openings, the reconciliation of unsettled loans, the parity metric, the
    renewal of expired offers, the late-fee snapshots and the recalculation of the
    credit lines. The promises of a batch run together, in any interleaving
    ([Scheduler]); a database transaction is one step. Log lines, and the clock
    readings only they use, are left out. *)

From stdpp Require Import base tactics list gmap strings numbers.
From Stdlib Require Import Lia ZArith.
From S2P Require Import Prelude JsString JsNum AmountUnits DecimalLib CreditPolicy LoanCalc Entities Gateway Store Async EarlyAccess LoanVerification LoanService LoanRepayment Ledger.

Local Open Scope Z_scope.

Definition BATCH_SIZE : nat := 5.
Definition MAX_BLOCK_RANGE : Z := 10000.
Definition LOAN_START_MATCH_TOLERANCE_SEC : Z := 60.
Definition MAX_RENEWALS : nat := 25.
Definition RATE_REFRESH_INTERVAL_MS : Z := 24 * 60 * 60 * 1000.

(** ** The pre-launch test loans ([known-testing-loans.ts]) *)

Definition KNOWN_TESTING_LOAN_TXHASHES : list string := [
  "0x6b45fabf6abd840e4185b46b3132d7755ed62100a1899a5cbce28d7639afb1d5";
  "0x6d1edaaff7c10d4fd8065a27e3f0119491c1e7e014e4e0bfc0a404860e41cd9d";
  "0xe515a02ee02afbd9cdda5d4be96840bac11b11f2ea8152b79f2204894db95114";
  "0x24e52d2acc3443ad957d4003e5bb328d4f58eef27ca41bd1758ccc6f0bc7869c";
  "0x2a4d6d13f95bf1e0a675b17fe9ea1a22211dda679cfbbc1ad32ccdaf57527926";
  "0x5b86de179099fe13a259837d4f700dba8e16b18c7d574bfd2b91d91d2410876a";
  "0xa09e7e9ac2703b8152735a172b57cc98492db0973e6756ff7064ed7b3044534a";
  "0xe11e82ab0fe9381d655cd672445cd9b9ded8a7c882b93704ef331b802019c6c1";
  "0xe409d4c249943b8e9fe13feec50eeb48174acc1c167d493e5e34a55dcad4deb4";
  "0x59b0e9dac61a802dbb97f85a0f37bff856a0c4bade53e8954ac53cb74d5a2eba";
  "0xdc6f02d933a5582eed43b46853951f9e06120d60ed882efad9be56d62b2f2d4b";
  "0xf760a8848e61a225375c2fa43a67dd1d613e45f3b1055a38d5029d6fbc9d7cfc";
  "0xb533057cd5c8801b00a005ae4d56b3bf4bdd6d891608493b255b379a6313584a";
  "0x70784730c5b3168b475e3a3e69bbebbad8023e5c11a1fb81bbc932cbe7350c4f";
  "0x7e42bc941011d645b6b820fff198248c5f5cebae3a2861a1eb8c3ccc752e1097";
  "0x4b52a774207a7295bfa8dc282c158f2a62248c1659de98861ddbd00bbf71e742";
  "0x3525acde431ed42f4d5b843050ac50142ebe0d0947da805b41454723edd4a3c9";
  "0x455f1d6e860600d2596f35639c813165e637f51192cf54cb5fe06c4fad75fcce";
  "0x8077a5c6eea0b50fe2ca883d243a7113e0ca12a828689f9cefcca0d913b03af0";
  "0x7337a698d2651495f1bb3621f53dffc906e3ed6f32c3e691653bf8010d110896";
  "0xa1a617a413740eca9ca2afdd406f29be0b9deae8df8a02351b84a5f9e548ea3f";
  "0x4b2ca615ef992e78aa485e6e6bd9cfdc0be22f4bd7aba04924ead7bc8f0e5ec9";
  "0xee119c7f6dab82bf649c54d728a65471d2b1a394bb04b2de8fa67944b03b0dcf";
  "0x69660574baf49c2aea2f83521c5f23bff66d81fa0d5f514188f9fc3090e9fd63";
  "0x32a1c749c238819b18ccf50583d5b6bf94012eb839817b961bf19cb8b1ac3b14";
  "0x1bcd7d36552b1099a413cdd82b7080f708da0332df79408e43818777f334032c";
  "0xbaafc1024e200117d48aa1377906b7c9f06e340db11a25f9768e5bed8f0a68bc";
  "0x0fea7be55e95f190d29fc85646e18da4c73bf1cf83d65d97440c67fe89a7a38e";
  "0x4dc0dcae5fe9c8191d5d933e4f7a7ad25b5c4afdf62a8a3293eb9fbe72805afb"
]%string.

(** The size of the set of them. *)
Definition KNOWN_TESTING_LOANS_COUNT : Z := Z.of_nat (length (remove_dups KNOWN_TESTING_LOAN_TXHASHES)).

(** ** Rows *)

(** The loans chain-sync still has to settle: unpaid, or repaid, without the
    transaction that closed them. *)
Definition unsettled (l : Loan) : bool :=
  let s := status (state l) in
  let no_tx := negb (bool_decide (is_Some (closeTxHash (state l)))) in
  (bool_decide (s ∈ [OPEN; DEFAULTED; DEFAULTED_IN_GRACE]) && no_tx)
  || (bool_decide (s ∈ [REPAID_ON_TIME; REPAID_LATE]) && no_tx).

(** A loan with its [user] relation. *)
Definition LoanWithUser : Type := Loan * option User.

(** [loansByAddress]: a Map keeps the order in which its keys were added. *)
Fixpoint push_bucket (x : LoanWithUser) (m : list (string * list LoanWithUser)) : list (string * list LoanWithUser) :=
  match m with
  | [] => [(borrowerAddress (terms (fst x)), [x])]
  | (addr, b) :: m' =>
      if bool_decide (addr = borrowerAddress (terms (fst x))) then (addr, b ++ [x]) :: m' else (addr, b) :: push_bucket x m'
  end.

Definition group_by_address (ls : list LoanWithUser) : list (string * list LoanWithUser) :=
  fold_left (fun m x => push_bucket x m) ls [].

(** [x ? Number(x) : d] of a decimal column. *)
Definition truthy_num (x : option num) (d : num) : num :=
  match x with Some n => if isNaN n || neqb n (num_of_Z 0) then d else n | None => d end.

(** [freshLoan], closed by the event. *)
Definition settle_loan (paid : num) (ev : ChainLoanClosedEvent) (l : Loan) : Loan :=
  let closed := cl_timestamp ev * 1000 in
  let onTime := closed <=? dueAt (terms l) + REPAID_ON_TIME_GRACE_MS in
  let paidExtra := (paid - amountDueAtOpen (terms l))%num in
  let collected :=
    if negb onTime && (24 * 60 * 60 * 1000 <? closed - dueAt (terms l)) && nltb (num_of_Z 0) paidExtra
    then paidExtra else num_of_Z 0 in
  {| loan_id := loan_id l; terms := terms l;
     state := {| status := if onTime then REPAID_ON_TIME else REPAID_LATE; amountPaid := paid;
                 repaidOnTime := onTime; closedAt := Some closed; closeTxHash := Some (cl_txHash ev);
                 syncedByChain := true |};
     late := {| lateRatePerSecWad := lateRatePerSecWad (late l); gracePeriodSec := gracePeriodSec (late l);
                lateFeesCurrentUsd := lateFeesCurrentUsd (late l); lateFeesSnapshotAt := lateFeesSnapshotAt (late l);
                lateFeesCollectedUsd := Some collected |};
     loan_createdAt := loan_createdAt l |}.

(** The state of a row the scanner inserts. *)
Definition scanned_state : LoanState :=
  {| status := OPEN; amountPaid := num_of_Z 0; repaidOnTime := false; closedAt := None; closeTxHash := None;
     syncedByChain := true |}.

Record ScanResult := { sr_scanned : nat; sr_inserted : nat; sr_skipped : nat; sr_errors : nat }.

Inductive RecalcOutcome := recalc_chain | recalc_db | recalc_skip | recalc_error.

Section ChainSync.
  Context `{ENV : Env} `{DB : Database} `{OUT : Outside} `{FEED : ChainFeed} {SCHED : Scheduler World}.

(** ** The scan of loan openings *)

(** [Math.round((due - start) / 86400)] *)
Definition event_tenor (ev : ChainLoanOpenedEvent) : Z :=
  default 0 (num_round (num_of_Z (ev_due ev - ev_timestamp ev) / num_of_Z 86400)%num).

Definition event_terms (user : User) (ev : ChainLoanOpenedEvent) : LoanTerms :=
  {| userId := user_id user; borrowerAddress := ev_borrower ev;
     principal := units_to_usdc (ev_principal ev); amountDueAtOpen := units_to_usdc (ev_amountDue ev);
     tenorDays := event_tenor ev; feeBps := ev_feeBps ev; startAt := ev_timestamp ev * 1000;
     dueAt := ev_due ev * 1000; openTxHash := Some (ev_txHash ev) |}.

(** Whether a row was inserted. *)
Definition insertMissingLoan (ev : ChainLoanOpenedEvent) : proc World bool :=
  existing ← await (find_loan (opened_by (ev_txHash ev)) None);
  match existing with
  | Some _ => Return false
  | None =>
      user ← await (find_user (fun u => bool_decide (walletAddress u = ev_borrower ev)));
      match user with
      | None => Return false
      | Some user =>
          inserted ← await (insert_loan_or_ignore (event_terms user ev) scanned_state);
          Return (bool_decide (is_Some inserted))
      end
  end.

(** The loop's counters: inserted, skipped, errors. *)
Definition scan_event (acc : nat * nat * nat) (ev : ChainLoanOpenedEvent) : proc World (nat * nat * nat) :=
  r ← settle (insertMissingLoan ev);
  let '(inserted, skipped, errors) := acc in
  Return (match r with
          | Ok true => (S inserted, skipped, errors)
          | Ok false => (inserted, S skipped, errors)
          | Throw _ => (inserted, skipped, S errors)
          end).

Definition scan_from (fromBlock currentBlock : Z) : proc World ScanResult :=
  if currentBlock <=? fromBlock then Return {| sr_scanned := 0; sr_inserted := 0; sr_skipped := 0; sr_errors := 0 |}
  else
    let toBlock := Z.min (fromBlock + MAX_BLOCK_RANGE) currentBlock in
    events ← await (getLoanOpenedEvents (fromBlock + 1) toBlock);
    '(inserted, skipped, errors) ← pfold scan_event (0, 0, 0)%nat events;
    _ ← await (save_cursor toBlock);
    Return {| sr_scanned := length events; sr_inserted := inserted; sr_skipped := skipped; sr_errors := errors |}.

Definition scanLoanOpenedEvents : proc World ScanResult :=
  proc_try (fun _ => Return {| sr_scanned := 0; sr_inserted := 0; sr_skipped := 0; sr_errors := 1 |}) (
    cursor ← await find_cursor;
    let fromBlock := default 0 cursor in
    currentBlock ← await getLatestLedger;
    fromBlock ← (if fromBlock =? 0 then
                   let bootstrapBlock := Z.max 0 (currentBlock - 100000) in
                   _ ← await (save_cursor bootstrapBlock); Return bootstrapBlock
                 else Return fromBlock);
    scan_from fromBlock currentBlock).

(** ** Reconciliation *)

(** Another loan of the wallet, started after this one and before the event. *)
Definition between (addr : string) (from to : Z) (l : Loan) : bool :=
  bool_decide (borrowerAddress (terms l) = addr) && (from <=? startAt (terms l)) && (startAt (terms l) <=? to).

Definition by_loan_id (i : Z) (l : Loan) : bool := bool_decide (loan_id l = i).

(** A row other than loan [i]. *)
Definition other_than (i : Z) (o : option Loan) : bool :=
  match o with Some l => negb (loan_id l =? i) | None => false end.

(** The body of the transaction; every status is one it accepts. *)
Definition reconcile_tx (i : Z) (eventData : option ChainLoanClosedEvent) : M World (option Loan) :=
  freshLoan ← find_loan (by_loan_id i) None;
  match freshLoan with
  | None => mret None
  | Some freshLoan =>
      if filled (closeTxHash (state freshLoan)) then mret None
      else
        match eventData with
        | None => mret None
        | Some ev =>
            closerLoan ← find_loan (between (borrowerAddress (terms freshLoan)) (startAt (terms freshLoan) + 1)
                                      (cl_timestamp ev * 1000)) (Some (fun l => startAt (terms l)));
            if other_than (loan_id freshLoan) closerLoan then mret None
            else
              existingByCloseTx ← find_loan (closed_by (cl_txHash ev)) None;
              if other_than (loan_id freshLoan) existingByCloseTx then mret None
              else
                let settled := settle_loan (units_to_usdc (cl_amountPaid ev)) ev freshLoan in
                _ ← save_loan settled;
                mret (Some settled)
        end
  end.

(** [toUnits(step.limitUsdc)] *)
Definition step_limit_units (s : CreditLadderStep) : Z :=
  match toUnits env_decimals (ANumber (limitUsdc s)) with Ok n => n | Throw _ => 0 end.

Definition step_limit (s : CreditLadderStep) : num := Number_of_bigint (step_limit_units s).

Definition sync_limit (u : User) : num := truthy_num (creditLimit (credit u)) (Number_of_bigint default_limit_units).

(** The line a reconciled repayment leads to, and the user in memory. *)
Definition reconciled_line (user : User) (onTimeLoans : Z) : Z * num * User :=
  let step := getStepForOnTimeLoans onTimeLoans in
  (CreditPolicy.score step, nmax (sync_limit user) (step_limit step), raise_xp onTimeLoans user).

Definition updateCreditScore (borrower : string) (uid : Z) (onTime : bool) : proc World unit :=
  proc_try (fun _ => Return tt) (
    user ← await (find_user (fun u => bool_decide (user_id u = uid)));
    match user with
    | None => Return tt
    | Some user =>
        '(newScore, newLimit, user) ←
          (if onTime then onTimeLoans ← await (count_loans (repaid_on_time_of uid));
                          Return (reconciled_line user onTimeLoans)
           else Return (current_score user, sync_limit user, user));
        units ← of_result (BigInt_of_num newLimit);
        chainResult ← await (giveCreditScoreAndLimit borrower newScore units);
        if chainResult =? 200 then await (save_user (set_score_and_limit newScore newLimit user)) else Return tt
    end).

(** Whether the loan was updated. *)
Definition reconcileLoan (loan : Loan) (user : User) (currentBlock : Z) : proc World bool :=
  eventData ← await (findLoanClosed (borrowerAddress (terms loan)) (startAt (terms loan)) currentBlock);
  result ← await (transaction (reconcile_tx (loan_id loan) eventData));
  match result with
  | None => Return false
  | Some freshLoan =>
      _ ← updateCreditScore (borrowerAddress (terms loan)) (user_id user) (repaidOnTime (state freshLoan));
      Return true
  end.

Definition getOnChainLoan (borrower : string) : proc World (bool * Z) :=
  result ← await (readLoanFull borrower);
  match result with
  | None => Raise (PlainError "Could not read on-chain loan")
  | Some l => Return (f_active l, f_start l)
  end.

(** One row of an address whose slot is inactive: an error ends the address. *)
Definition reconcile_row (currentBlock : Z) (any : bool) (x : LoanWithUser) : proc World bool :=
  match snd x with
  | None => Return any
  | Some user => did ← reconcileLoan (fst x) user currentBlock; Return (any || did)
  end.

(** One row the active on-chain loan is not: an error is only logged. *)
Definition reconcile_ghost (currentBlock : Z) (any : bool) (x : LoanWithUser) : proc World bool :=
  match snd x with
  | None => Return any
  | Some user => proc_try (fun _ => Return any) (did ← reconcileLoan (fst x) user currentBlock; Return (any || did))
  end.

(** Whether the active on-chain loan is this row. *)
Definition is_chain_current (start : Z) (l : Loan) : bool :=
  Z.abs (start - startAt (terms l) / 1000) <=? LOAN_START_MATCH_TOLERANCE_SEC.

Definition ghosts_of (start : Z) (loans : list LoanWithUser) : list LoanWithUser :=
  match loans with
  | latest :: older => if is_chain_current start (fst latest) then older else loans
  | [] => []
  end.

Definition sync_address (currentBlock : Z) (entry : string * list LoanWithUser) : proc World bool :=
  match snd entry with
  | [] => Return false
  | representative :: _ =>
      match snd representative with
      | None => Return false
      | Some _ =>
          '((slotActive, start) : bool * Z) ← getOnChainLoan (borrowerAddress (terms (fst representative)));
          if slotActive then pfold (reconcile_ghost currentBlock) false (ghosts_of start (snd entry))
          else pfold (reconcile_row currentBlock) false (snd entry)
      end
  end.

(** The unsettled loans with their users, newest first. *)
Definition find_unsettled : M World (list LoanWithUser) :=
  query (fun w => ls ← db_find_loans_desc w unsettled (fun l => startAt (terms l));
                  mret (map (fun l => (l, w_users w !! userId (terms l))) ls)).

Definition run_batch (currentBlock : Z) (_ : unit) (batch : list (string * list LoanWithUser)) : proc World unit :=
  _ ← allSettled (map (sync_address currentBlock) batch); Return tt.

Definition syncLoansWithChain : proc World unit :=
  proc_try (fun _ => Return tt) (
    unsettledLoans ← await find_unsettled;
    match unsettledLoans with
    | [] => Return tt
    | _ =>
        currentBlock ← await getLatestLedger;
        pfold (run_batch currentBlock) tt (batches BATCH_SIZE (group_by_address unsettledLoans))
    end).

(** ** The parity metric *)

(** Nothing is computed in Soroban mode. *)
Definition computeDbChainDiff (BLOCKCHAIN_GATEWAY : option string) : proc World (option num) :=
  if bool_decide (toLowerCase (default ""%string BLOCKCHAIN_GATEWAY) = "soroban"%string) then Return None
  else
    proc_try (fun _ => Return None) (
      answer ← await fetchSubgraph;
      match answer with
      | None => Return None
      | Some subgraphCount =>
          if negb (isFinite subgraphCount) then Return None
          else
            dbCount ← await (count_loans (fun _ => true));
            let rawDiff := (subgraphCount - num_of_Z dbCount)%num in
            let effectiveDiff := (rawDiff - num_of_Z KNOWN_TESTING_LOANS_COUNT)%num in
            _ ← await (save_metric "db_chain_loan_diff" effectiveDiff);
            _ ← await (save_metric "db_chain_loan_diff_raw" rawDiff);
            Return (Some effectiveDiff)
      end).

(** ** Renewal of expired offers *)

Definition has_score (u : User) : bool := bool_decide (is_Some (Entities.score (credit u))).

(** Whether the offer was renewed; a failure is only logged. *)
Definition renew_user (renewThreshold : Z) (user : User) : proc World bool :=
  if bool_decide (walletAddress user = ""%string) then Return false
  else
    proc_try (fun _ => Return false) (
      onChain ← await (readUserRisk (walletAddress user));
      let validUntil := match onChain with Some r => ur_validUntil r | None => 0 end in
      if (validUntil =? 0) || (renewThreshold <? validUntil) then Return false
      else
        units ← of_result (BigInt_of_num (sync_limit user));
        _ ← await (giveCreditScoreAndLimit (walletAddress user) (current_score user) units);
        Return true).

(** How many promises of a batch renewed. *)
Definition count_true (rs : list (result bool)) : nat :=
  length (List.filter (fun r => match r with Ok b => b | Throw _ => false end) rs).

(** The promises of a batch all read the counter when they are created. *)
Definition renew_batch (renewThreshold : Z) (renewed : nat) (batch : list User) : proc World nat :=
  if (MAX_RENEWALS <=? renewed)%nat then Return renewed
  else
    rs ← allSettled (map (renew_user renewThreshold) batch);
    Return (renewed + count_true rs)%nat.

(** The number of renewals, which the code only logs. *)
Definition renewExpiredOffers : proc World nat :=
  proc_try (fun _ => Return 0%nat) (
    verifiedUsers ← await (find_all_users has_score);
    match verifiedUsers with
    | [] => Return 0%nat
    | _ =>
        now ← await date_now;
        pfold (renew_batch (now / 1000 + 3 * 24 * 60 * 60)) 0%nat (batches BATCH_SIZE verifiedUsers)
    end).

(** ** Late-fee snapshots *)

(** The columns of a snapshot. *)
Definition patch_late (rate : Z) (grace : Z) (fees : num) (now : Z) (l : Loan) : Loan :=
  {| loan_id := loan_id l; terms := terms l; state := state l;
     late := {| lateRatePerSecWad := Some (String_of_int rate); gracePeriodSec := Some grace;
                lateFeesCurrentUsd := Some (db_decimal fees); lateFeesSnapshotAt := Some now;
                lateFeesCollectedUsd := lateFeesCollectedUsd (late l) |};
     loan_createdAt := loan_createdAt l |}.

Definition overdue (now : Z) (l : Loan) : bool :=
  bool_decide (status (state l) = OPEN) && (dueAt (terms l) <? now).

(** Whether the cached rate has to be read again; the clock is only read when
    there is one. *)
Definition is_stale (l : Loan) : proc World bool :=
  if negb (filled (lateRatePerSecWad (late l))) || negb (bool_decide (is_Some (gracePeriodSec (late l)))) then Return true
  else
    now ← await date_now;
    Return (RATE_REFRESH_INTERVAL_MS <? now - default 0 (lateFeesSnapshotAt (late l))).

(** The rate and the grace period, from the chain ([None]: a read gave nothing) or
    from the row. *)
Definition late_rate (stale : bool) (l : Loan) : proc World (option (Z * Z)) :=
  if stale then
    premium ← await (attempt (readPremium (borrowerAddress (terms l))));
    loanFull ← await (attempt (readLoanFull (borrowerAddress (terms l))));
    reads ← of_result (premium ← premium; loanFull ← loanFull; mret (premium, loanFull));
    Return (match reads with
            | (Some p, Some f) => Some (premium_lateRatePerSecWad p, f_gracePeriod f)
            | _ => None
            end)
  else
    rate ← of_result (result_of_option (SyntaxError "BigInt")
                        (BigInt_chars (chars (default ""%string (lateRatePerSecWad (late l))))));
    Return (Some (rate, default 0 (gracePeriodSec (late l)))).

Definition snapshot_loan (now : Z) (l : Loan) : proc World unit :=
  proc_try (fun _ => Return tt) (
    stale ← is_stale l;
    r ← late_rate stale l;
    match r with
    | None => Return tt
    | Some (rate, grace) =>
        let result := computeLateFees {| amountDueAtOpenUsd := amountDueAtOpen (terms l);
                                         dueAtUnixSec := dueAt (terms l) / 1000; ratePerSecWad := rate;
                                         LoanCalc.gracePeriodSec := grace; nowUnixSec := now / 1000 |} in
        await (update_loan (loan_id l) (patch_late rate grace (lateFeesUsd result) now))
    end).

Definition snapshot_batch (now : Z) (_ : unit) (batch : list Loan) : proc World unit :=
  _ ← allSettled (map (snapshot_loan now) batch); Return tt.

Definition syncLateFeesSnapshot : proc World unit :=
  proc_try (fun _ => Return tt) (
    now ← await date_now;
    overdueLoans ← await (find_loans (overdue now));
    pfold (snapshot_batch now) tt (batches BATCH_SIZE overdueLoans)).

(** ** Recalculation of the credit lines *)

(** [byScore]: users by score, in the order the scores were first seen. *)
Fixpoint push_level (u : User) (m : list (Z * list User)) : list (Z * list User) :=
  match m with
  | [] => [(current_score u, [u])]
  | (s, g) :: m' => if s =? current_score u then (s, g ++ [u]) :: m' else (s, g) :: push_level u m'
  end.

Definition group_by_score (us : list User) : list (Z * list User) := fold_left (fun m u => push_level u m) us [].

Definition has_wallet (u : User) : bool := negb (bool_decide (walletAddress u = ""%string)).

(** The user a level is checked with. *)
Definition canary_of (us : list User) : option User :=
  match List.find has_wallet us with Some u => Some u | None => head us end.

(** Whether the chain carries the ladder's line. *)
Definition chain_in_sync (onChain : option UserRisk) (step : CreditLadderStep) : bool :=
  let sc := match onChain with Some r => ur_score r | None => 0 end in
  let lim := match onChain with Some r => ur_limit r | None => 0 end in
  (sc =? CreditPolicy.score step) && neqb (Number_of_bigint lim) (step_limit step).

Definition level_needs_update (us : list User) : proc World bool :=
  match canary_of us with
  | Some canary =>
      if has_wallet canary then
        proc_try (fun _ => Return true) (
          n ← await (count_loans (repaid_on_time_of (user_id canary)));
          onChain ← await (readUserRisk (walletAddress canary));
          Return (negb (chain_in_sync onChain (getStepForOnTimeLoans n))))
      else Return false
  | None => Return false
  end.

Definition db_in_sync (u : User) (step : CreditLadderStep) : bool :=
  (current_score u =? CreditPolicy.score step)
  && neqb (truthy_num (creditLimit (credit u)) (num_of_Z 0)) (step_limit step).

(** The columns [recalcUser] writes; the xp is compared with the row read at the
    start. *)
Definition patch_line (step : CreditLadderStep) (read : User) (row : User) : User :=
  let row := set_score_and_limit (CreditPolicy.score step) (db_decimal (step_limit step)) row in
  if xp (credit read) <? xpBase step then set_xp (xpBase step) row else row.

Definition write_line (step : CreditLadderStep) (user : User) (outcome : RecalcOutcome) : proc World RecalcOutcome :=
  _ ← await (update_user (user_id user) (patch_line step user)); Return outcome.

Definition recalcUser (user : User) (checkChain : bool) : proc World RecalcOutcome :=
  if negb (has_wallet user) then Return recalc_skip
  else
    proc_try (fun _ => Return recalc_error) (
      onTimeLoans ← await (count_loans (repaid_on_time_of (user_id user)));
      let step := getStepForOnTimeLoans onTimeLoans in
      if checkChain then
        onChain ← await (readUserRisk (walletAddress user));
        let chainInSync := chain_in_sync onChain step in
        if chainInSync && db_in_sync user step then Return recalc_skip
        else
          result ← (if chainInSync then Return 200
                    else units ← of_result (BigInt_of_num (step_limit step));
                         await (giveCreditScoreAndLimit (walletAddress user) (CreditPolicy.score step) units));
          if negb (result =? 200) then Return recalc_error
          else
            let outcome := if chainInSync then recalc_db else recalc_chain in
            if db_in_sync user step then Return outcome else write_line step user outcome
      else if db_in_sync user step then Return recalc_skip
      else write_line step user recalc_db).

Definition recalc_one (_ : unit) (u : User) : proc World unit := _ ← recalcUser u true; Return tt.

Definition recalc_batch (_ : unit) (batch : list User) : proc World unit :=
  _ ← allSettled (map (fun u => recalcUser u false) batch); Return tt.

(** A level that needs chain writes is processed serially, else in batches. *)
Definition recalc_level (_ : unit) (level : Z * list User) : proc World unit :=
  needs ← level_needs_update (snd level);
  if needs : bool then pfold recalc_one tt (snd level) else pfold recalc_batch tt (batches BATCH_SIZE (snd level)).

Definition recalculateAllLimits : proc World unit :=
  proc_try (fun _ => Return tt) (
    verifiedUsers ← await (find_all_users has_score);
    pfold recalc_level tt (group_by_score verifiedUsers)).

(** ** The jobs *)

Definition process_job (BLOCKCHAIN_GATEWAY : option string) (name : string) : proc World unit :=
  if bool_decide (name = "sync-loans"%string) then
    _ ← scanLoanOpenedEvents;
    _ ← syncLoansWithChain;
    proc_try (fun _ => Return tt) (_ ← computeDbChainDiff BLOCKCHAIN_GATEWAY; Return tt)
  else if bool_decide (name = "renew-offers"%string) then _ ← renewExpiredOffers; Return tt
  else if bool_decide (name = "recalculate-limits"%string) then recalculateAllLimits
  else if bool_decide (name = "sync-late-fees"%string) then syncLateFeesSnapshot
  else Return tt.
End ChainSync.
