(* ===== verification/ChainSyncProps.v ===== *)
(** * What the synchronisation jobs guarantee *)

From stdpp Require Import base tactics list gmap strings numbers.
From Stdlib Require Import Lia ZArith.
From S2P Require Import Prelude JsString JsNum AmountUnits DecimalLib CreditPolicy LoanCalc Entities Gateway Store Async Kyc EarlyAccess LoanVerification LoanService LoanRepayment Ledger ChainSync.

Local Open Scope Z_scope.

(** ** Steps of the loan table *)

Section Keeps.
  Context `{DB : Database} {LAWS : DatabaseLaws DB}.

(** Outside a transaction, and over a well-formed table. *)
Definition quiet (w : World) : Prop := w_tx w = NoTx /\ ledger_ok (w_loans w).

Definition ledger_moves (w w' : World) : Prop := steps ledger_step (w_loans w) (w_loans w').

#[export] Instance ledger_moves_refl : Reflexive ledger_moves.
Proof. intros w. constructor. Qed.

#[export] Instance ledger_moves_trans : Transitive ledger_moves.
Proof. intros w1 w2 w3. apply steps_trans. Qed.

(** Every step of the method changes the loan table by ledger steps only. *)
Definition keeps {A} (p : proc World A) : Prop := safe quiet ledger_moves (fun _ => True) p.

(** Run outside a transaction, the operation changes the loan table by ledger
    steps only. *)
Definition moves {A} (m : M World A) : Prop :=
  forall w, quiet w -> w_tx (snd (m w)) = NoTx /\ ledger_moves w (snd (m w)).

(** The operation leaves the loan table alone. *)
Definition loans_kept {A} (m : M World A) : Prop :=
  forall w, w_tx w = NoTx -> w_tx (snd (m w)) = NoTx /\ w_loans (snd (m w)) = w_loans w.

Lemma loans_kept_moves {A} (m : M World A) : loans_kept m -> moves m.
Proof. intros H w [Htx _]. destruct (H w Htx) as [? Hl]. split; [done|]. unfold ledger_moves. rewrite Hl. constructor. Qed.

Lemma keeps_await {A} (m : M World A) : moves m -> keeps (await m).
Proof.
  intros H. apply safe_await. intros w Hw. destruct (H w Hw) as [? Hm]. split; [|done]. split; [done|].
  eapply ledger_steps_ok; [exact Hm|apply Hw].
Qed.

Lemma keeps_bind {A B} (k : A -> proc World B) p : keeps p -> (forall a, keeps (k a)) -> keeps (p ≫= k).
Proof. intros Hp Hk. apply safe_bind. eapply safe_mono; [|exact Hp]. intros [a|e] _; [apply Hk|done]. Qed.

Lemma keeps_try {A} h (p : proc World A) : keeps p -> (forall e, keeps (h e)) -> keeps (proc_try h p).
Proof. intros Hp Hh. apply safe_try. eapply safe_mono; [|exact Hp]. intros [a|e] _; [done|apply Hh]. Qed.

Lemma keeps_settle {A} (p : proc World A) : keeps p -> keeps (settle p).
Proof. intros Hp. eapply safe_mono; [|apply safe_settle, Hp]. done. Qed.

Lemma keeps_pfold {A B} (f : B -> A -> proc World B) xs acc : (forall b a, keeps (f b a)) -> keeps (pfold f acc xs).
Proof.
  intros Hf. apply (safe_pfold _ _ _ (fun _ => True)); [|done..]. intros b a _ _.
  eapply safe_mono; [|apply Hf]. by intros [].
Qed.

Lemma keeps_allSettled {A} {SCHED : Scheduler World} (ps : list (proc World A)) : Forall keeps ps -> keeps (allSettled ps).
Proof. intros Hps. eapply safe_mono; [|apply safe_allSettled, Hps]; [done|apply _]. Qed.

Lemma keeps_map {A B} {SCHED : Scheduler World} (f : B -> proc World A) xs :
  (forall x, keeps (f x)) -> keeps (allSettled (map f xs)).
Proof. intros Hf. apply keeps_allSettled, Forall_map, Forall_true, Hf. Qed.

Lemma keeps_return {A} (a : A) : keeps (Return a).
Proof. done. Qed.

Lemma keeps_raise {A} e : keeps (Raise (A := A) e).
Proof. done. Qed.

Lemma keeps_result {A} (r : result A) : keeps (of_result r).
Proof. by destruct r. Qed.

(** *** The operations *)

Lemma loans_kept_reads {A} (m : M World A) : only_reads m -> loans_kept m.
Proof. intros H w Htx. destruct (H w Htx) as (_ & ? & _ & Ht & _). split; congruence. Qed.

Lemma moves_query {A} (f : World -> result A) : moves (query f).
Proof. apply loans_kept_moves, loans_kept_reads, only_reads_query. Qed.

Lemma moves_outside {A} (f : list call -> result A) c : moves (outside f c).
Proof. apply loans_kept_moves. intros w Htx. done. Qed.

Lemma moves_attempt {A} (m : M World A) : moves m -> moves (attempt m).
Proof. intros H w Hw. specialize (H w Hw). unfold attempt. by destruct (m w). Qed.

Lemma moves_save_user u : moves (save_user u).
Proof.
  apply loans_kept_moves. intros w Htx. unfold save_user. rewrite statement_NoTx by done.
  by destruct (db_user_error w u).
Qed.

Lemma moves_update_user i patch : moves (update_user i patch).
Proof.
  apply loans_kept_moves. intros w Htx. unfold update_user. rewrite statement_NoTx by done.
  destruct (w_users w !! i) as [u|]; [|done]. by destruct (db_user_error w (patch u)).
Qed.

Lemma moves_save_side f : moves (save_side f).
Proof.
  apply loans_kept_moves. intros w Htx. unfold save_side. rewrite statement_NoTx by done.
  by destruct (db_side_error w _).
Qed.

(** The indexes accepted the row: no other row has its transactions. *)
Lemma accepted_no_conflict w l : db_loan_error w l = None -> no_conflict (w_loans w) l.
Proof.
  intros He j l' Hj Hne. destruct (hash_conflict l l') eqn:E; [|done].
  destruct (unique_refused w l j l' Hj Hne E) as [ix H]. congruence.
Qed.

Lemma moves_insert_or_ignore t s :
  newborn (stored_loan {| loan_id := 0; terms := t; state := s; late := no_snapshot; loan_createdAt := 0 |}) ->
  moves (insert_loan_or_ignore t s).
Proof.
  intros Hn w [Htx Hok]. unfold insert_loan_or_ignore. rewrite statement_NoTx by done. cbv zeta.
  set (l := {| loan_id := db_new_loan_id w |}).
  destruct (db_loan_error w l) as [e|] eqn:Ee; [destruct e; split; try done; constructor|].
  split; [done|]. eapply steps_step; [|constructor].
  apply (step_open (w_loans w) (stored_loan l)); [apply new_loan_id_fresh|exact Hn|exact (accepted_no_conflict w l Ee)].
Qed.

(** An update that touches the snapshot only. *)
Lemma moves_update_late i (patch : Loan -> Loan) :
  (forall l, loan_id (patch l) = loan_id l /\ terms (patch l) = terms l /\ state (patch l) = state l /\
             loan_createdAt (patch l) = loan_createdAt l) -> moves (update_loan i patch).
Proof.
  intros Hp w [Htx Hok]. unfold update_loan. rewrite statement_NoTx by done.
  destruct (w_loans w !! i) as [l|] eqn:Ei; [|split; [done|constructor]].
  destruct (db_loan_error w (patch l)) as [e|] eqn:Ee; (split; [done|]); [constructor|].
  pose proof (proj1 Hok _ _ Ei) as Hid. cbn in Hid. subst i. destruct (Hp l) as (H1 & H2 & H3 & H4).
  eapply steps_step; [|constructor]. apply step_row; [done| |].
  - split; [split_and!; congruence|by left].
  - by apply accepted_no_conflict.
Qed.
End Keeps.

Create HintDb keeps.
#[export] Hint Resolve keeps_return keeps_raise keeps_result moves_query moves_outside moves_attempt moves_save_user
  moves_update_user moves_save_side : keeps.
#[export] Hint Extern 1 (moves (find_loan _ _)) => apply moves_query : keeps.
#[export] Hint Extern 1 (moves (find_user _)) => apply moves_query : keeps.
#[export] Hint Extern 1 (moves (find_loans _)) => apply moves_query : keeps.
#[export] Hint Extern 1 (moves (find_all_users _)) => apply moves_query : keeps.
#[export] Hint Extern 1 (moves (count_loans _)) => apply moves_query : keeps.
#[export] Hint Extern 1 (moves find_cursor) => apply moves_query : keeps.
#[export] Hint Extern 1 (moves (save_cursor _)) => apply moves_save_side : keeps.
#[export] Hint Extern 1 (moves (save_metric _ _)) => apply moves_save_side : keeps.
#[export] Hint Extern 2 (moves _) => apply moves_outside : keeps.

(** Discharges [keeps] goals by the shape of the method. *)
Ltac solve_keeps :=
  repeat first
    [ apply keeps_return | apply keeps_raise
    | solve [eauto with keeps nocore]
    | apply keeps_await; solve [eauto with keeps nocore]
    | apply keeps_bind; [|intros ?]
    | apply keeps_try; [|intros ?]
    | apply keeps_settle
    | apply keeps_pfold; intros ? ?
    | apply keeps_map; intros ?
    | progress case_scrut ].

(** ** Reconciliation *)

Section Reconcile.
  Context `{ENV : Env} `{DB : Database} `{OUT : Outside} `{FEED : ChainFeed} {SCHED : Scheduler World} {LAWS : DatabaseLaws DB}.

(** Loan [i] was settled by the event: it carried no closing transaction, no loan
    of the wallet started after it and before the event, no other loan carries the
    event's transaction, and the row is the settled one. *)
Definition settled_by (i : Z) (ev : ChainLoanClosedEvent) (w w' : World) (l' : Loan) : Prop :=
  exists l, w_loans w !! i = Some l /\ filled (closeTxHash (state l)) = false /\
    (forall j l0, w_loans w !! j = Some l0 ->
       between (borrowerAddress (terms l)) (startAt (terms l) + 1) (cl_timestamp ev * 1000) l0 = false) /\
    (forall j l0, w_loans w !! j = Some l0 -> j <> i -> closeTxHash (state l0) <> Some (cl_txHash ev)) /\
    l' = settle_loan (units_to_usdc (cl_amountPaid ev)) ev l /\
    no_conflict (w_loans w) l' /\ w_loans w' = <[i := stored_loan l']> (w_loans w).

Lemma no_conflict_close t l h : no_conflict t l -> closeTxHash (state l) = Some h ->
  forall j l0, t !! j = Some l0 -> j <> loan_id l -> closeTxHash (state l0) <> Some h.
Proof.
  intros Hn Hh j l0 Hj Hne H0. specialize (Hn j l0 Hj Hne). unfold hash_conflict in Hn.
  apply orb_false_iff in Hn as [_ Hn]. rewrite Hh, H0, bool_decide_true in Hn; done.
Qed.

Lemma reconcile_tx_run i ev w :
  w_tx w = TxActive -> ledger_ok (w_loans w) ->
  match reconcile_tx i ev w with
  | (Ok None, w') => w' = w
  | (Ok (Some l'), w') => w_tx w' = TxActive /\ w_calls w' = w_calls w /\ w_users w' = w_users w /\
      exists e, ev = Some e /\ settled_by i e w w' l'
  | (Throw _, w') => w_calls w' = w_calls w
  end.
Proof.
  intros Htx Hok. unfold reconcile_tx. cbv [mbind M_bind].
  unfold find_loan at 1. rewrite query_active by done.
  destruct (db_find_loan w (by_loan_id i) None) as [[l|]|e] eqn:E1; [|done..].
  apply find_loan_some in E1 as (j & Hl & Hi). unfold by_loan_id in Hi. bool_to_prop.
  pose proof (proj1 Hok _ _ Hl) as Hj. cbn in Hj. subst j. rewrite Hi in Hl.
  destruct (filled (closeTxHash (state l))) eqn:Et; [done|]. destruct ev as [ev|]; [|done].
  unfold find_loan at 1. rewrite query_active by done.
  destruct (db_find_loan w (between _ _ _) _) as [closer|e] eqn:E2; [|done].
  destruct (other_than (loan_id l) closer) eqn:Eo; [done|].
  unfold find_loan. rewrite query_active by done.
  destruct (db_find_loan w (closed_by _) None) as [existing|e] eqn:E3; [|done].
  destruct (other_than (loan_id l) existing) eqn:Ex; [done|].
  unfold save_loan. rewrite statement_active by done. set (l' := settle_loan _ ev l).
  destruct (db_loan_error w l') as [e|] eqn:Ee; [done|]. cbv [mret M_ret]. cbn [fst snd].
  pose proof (accepted_no_conflict w l' Ee) as Hn.
  split_and!; [done..|]. exists ev. split; [done|]. exists l. split_and!; [done..| | | |done|].
  - intros j l0 Hj. destruct closer as [c|]; [|by eapply find_loan_none].
    exfalso. apply find_loan_some in E2 as (k & Hk & Hb). pose proof (proj1 Hok _ _ Hk) as Hck. cbn in Hck. subst k.
    cbn in Eo. bool_to_prop. unfold between in Hb. bool_to_prop.
    assert (c = l) as -> by (rewrite Eo in Hk; congruence). lia.
  - intros j l0 Hj Hne. eapply (no_conflict_close (w_loans w) l'); [done|done|exact Hj|cbn; congruence].
  - done.
  - cbn [w_loans set_loans]. by rewrite <- Hi.
Qed.

Lemma filled_receipt l : filled (closeTxHash (state l)) = false -> receipt l = None.
Proof. unfold filled, receipt. destruct (closeTxHash (state l)); [|done]. by case_bool_decide. Qed.

Lemma settled_loan_ok paid ev l : loan_ok (stored_loan (settle_loan paid ev l)).
Proof.
  unfold loan_ok, is_repaid. cbn. destruct (Z.leb_spec (cl_timestamp ev * 1000) (dueAt (terms l) + REPAID_ON_TIME_GRACE_MS)); cbn.
  - split_and!; try done. intros _. eexists. split; [done|]. lia.
  - split_and!; try done. intros _. eexists. split; [done|]. done.
Qed.

Lemma settled_edge paid ev l :
  filled (closeTxHash (state l)) = false -> loan_edge l (stored_loan (settle_loan paid ev l)).
Proof.
  intros Ht. split.
  - split_and!; try done. unfold stored_terms. cbn. by rewrite !db_decimal_idemp.
  - right. split_and!; [by apply filled_receipt| |apply settled_loan_ok]. unfold is_repaid. cbn. by destruct (_ <=? _).
Qed.

Lemma settled_by_moves i ev w w' l' : ledger_ok (w_loans w) -> settled_by i ev w w' l' -> ledger_moves w w'.
Proof.
  intros Hok (l & Hl & Ht & _ & _ & -> & Hn & Hw). pose proof (proj1 Hok _ _ Hl) as Hid. cbn in Hid. subst i.
  unfold ledger_moves. rewrite Hw. eapply steps_step; [|constructor]. apply step_row; [done|by apply settled_edge|exact Hn].
Qed.

(** The transaction of a reconciliation, rolled back when it throws. *)
Lemma reconcile_transaction i ev w :
  quiet w ->
  let '(r, w') := transaction (reconcile_tx i ev) w in
  w_tx w' = NoTx /\ w_calls w' = w_calls w /\ w_users w' = w_users w /\
  match r with
  | Ok (Some l') => exists e, ev = Some e /\ settled_by i e w w' l'
  | _ => w_loans w' = w_loans w
  end.
Proof.
  intros [Htx Hok]. pose proof (reconcile_tx_run i ev (set_tx TxActive w) eq_refl Hok) as H.
  rewrite transaction_run; [|done|].
  - destruct (reconcile_tx i ev _) as [[[l'|]|e] w1].
    + destruct H as (Ht & Hc & Hu & e & -> & Hs). split_and!; [done..|]. exists e. split; [done|exact Hs].
    + by subst w1.
    + by split_and!.
  - intros a w1 Ha. rewrite Ha in H. destruct a as [l'|]; [by destruct H|by subst w1].
Qed.

Lemma moves_reconcile i ev : moves (transaction (reconcile_tx i ev)).
Proof.
  intros w Hw. pose proof (reconcile_transaction i ev w Hw) as H.
  destruct (transaction (reconcile_tx i ev) w) as [[[l'|]|e] w']; cbn [snd]; destruct H as (Htx & _ & _ & H); (split; [done|]).
  - destruct H as (e & _ & H). eapply settled_by_moves; [apply Hw|done].
  - unfold ledger_moves. rewrite H. constructor.
  - unfold ledger_moves. rewrite H. constructor.
Qed.

Hint Resolve moves_reconcile : keeps.
Hint Extern 1 (moves find_unsettled) => apply moves_query : keeps.

Lemma keeps_updateCreditScore b uid onTime : keeps (updateCreditScore b uid onTime).
Proof. unfold updateCreditScore. solve_keeps. Qed.

Lemma keeps_reconcileLoan l u block : keeps (reconcileLoan l u block).
Proof. unfold reconcileLoan. pose proof keeps_updateCreditScore. solve_keeps. Qed.

Lemma keeps_sync : keeps syncLoansWithChain.
Proof.
  pose proof keeps_reconcileLoan.
  unfold syncLoansWithChain, run_batch, sync_address, getOnChainLoan, reconcile_ghost, reconcile_row. solve_keeps.
Qed.

Lemma moves_scan_insert u ev : moves (insert_loan_or_ignore (event_terms u ev) scanned_state).
Proof. apply moves_insert_or_ignore. done. Qed.

Hint Resolve moves_scan_insert : keeps.

Lemma keeps_scan : keeps scanLoanOpenedEvents.
Proof. unfold scanLoanOpenedEvents, scan_from, scan_event, insertMissingLoan. solve_keeps. Qed.

Lemma keeps_diff g : keeps (computeDbChainDiff g).
Proof. unfold computeDbChainDiff. solve_keeps. Qed.

Lemma keeps_renew : keeps renewExpiredOffers.
Proof. unfold renewExpiredOffers, renew_batch, renew_user. solve_keeps. Qed.

Lemma moves_patch_late i rate grace fees now : moves (update_loan i (patch_late rate grace fees now)).
Proof. by apply moves_update_late. Qed.

Hint Resolve moves_patch_late : keeps.

Lemma keeps_snapshot : keeps syncLateFeesSnapshot.
Proof. unfold syncLateFeesSnapshot, snapshot_batch, snapshot_loan, is_stale, late_rate. solve_keeps. Qed.

Lemma keeps_write_line step u o : keeps (write_line step u o).
Proof. unfold write_line. solve_keeps. Qed.

Lemma keeps_recalcUser u check : keeps (recalcUser u check).
Proof.
  pose proof keeps_write_line. unfold recalcUser. destruct (has_wallet u); [|done]. cbn [negb].
  apply keeps_try; [|done]. apply keeps_bind; [solve_keeps|]. intros n. cbv zeta.
  generalize (getStepForOnTimeLoans n) as step. intros step. destruct check; [|solve_keeps].
  apply keeps_bind; [solve_keeps|]. intros onChain. generalize (chain_in_sync onChain step). intros c.
  generalize (db_in_sync u step). intros d. destruct c, d; solve_keeps.
Qed.

Lemma keeps_recalculate : keeps recalculateAllLimits.
Proof.
  pose proof keeps_recalcUser.
  unfold recalculateAllLimits, recalc_level, recalc_batch, recalc_one, level_needs_update. solve_keeps.
Qed.

Lemma keeps_job g name : keeps (process_job g name).
Proof.
  pose proof keeps_scan. pose proof keeps_sync. pose proof (keeps_diff g). pose proof keeps_renew.
  pose proof keeps_snapshot. pose proof keeps_recalculate. unfold process_job. solve_keeps.
Qed.
End Reconcile.

(** ** The scan *)

Section Scan.
  Context `{ENV : Env} `{DB : Database} `{OUT : Outside} `{FEED : ChainFeed} {LAWS : DatabaseLaws DB}.

(** Some row carries the event's transaction. *)
Definition mirrored (t : gmap Z Loan) (tx : string) : Prop :=
  exists j l, t !! j = Some l /\ openTxHash (terms l) = Some tx.

Definition unknown_wallet (w : World) (b : string) : Prop :=
  forall i u, w_users w !! i = Some u -> walletAddress u <> b.

(** What handling one event changes: loans only, and at most by its row. *)
Definition inserted_one (ev : ChainLoanOpenedEvent) (w w' : World) (r : result bool) : Prop :=
  quiet w' /\ w_users w' = w_users w /\ w_side w' = w_side w /\ w_calls w' = w_calls w /\ ledger_moves w w' /\
  match r with
  | Ok true => mirrored (w_loans w') (ev_txHash ev) /\ size (w_loans w') = S (size (w_loans w))
  | Ok false => w_loans w' = w_loans w /\ (mirrored (w_loans w) (ev_txHash ev) \/ unknown_wallet w (ev_borrower ev))
  | Throw _ => w_loans w' = w_loans w
  end.

Lemma inserted_none ev w r :
  quiet w ->
  match r with
  | Ok true => False
  | Ok false => mirrored (w_loans w) (ev_txHash ev) \/ unknown_wallet w (ev_borrower ev)
  | Throw _ => True
  end -> inserted_one ev w w r.
Proof. intros Hq Hr. unfold inserted_one. split_and!; try done. by destruct r as [[]|]. Qed.

(** An insertion that was ignored found its opening transaction in another row. *)
Lemma ignored_mirrored w l ix :
  db_loan_error w l = Some (UniqueViolation ix) -> closeTxHash (state l) = None ->
  exists tx, openTxHash (terms l) = Some tx /\ mirrored (w_loans w) tx.
Proof.
  intros He Hc. apply unique_only in He as (j & l' & Hj & _ & Hx). unfold hash_conflict in Hx. rewrite Hc, orb_false_r in Hx.
  destruct (openTxHash (terms l)) as [a|]; [|done]. destruct (openTxHash (terms l')) as [b|] eqn:Eb; [|done].
  bool_to_prop. subst b. exists a. split; [done|by exists j, l'].
Qed.

Lemma insertMissing_run ev w :
  quiet w -> let '(r, w') := run (insertMissingLoan ev) w in inserted_one ev w w' r.
Proof.
  intros Hq. pose proof Hq as [Htx Hok]. unfold insertMissingLoan. rewrite run_await_bind. unfold find_loan. rewrite query_NoTx by done.
  destruct (db_find_loan w (opened_by (ev_txHash ev)) None) as [[l|]|e] eqn:E1; [| |by apply inserted_none].
  { apply inserted_none; [done|]. left. apply find_loan_some in E1 as (j & Hj & Hp). unfold opened_by in Hp. bool_to_prop.
    by exists j, l. }
  rewrite run_await_bind. unfold find_user. rewrite query_NoTx by done.
  destruct (db_find_user w _) as [[u|]|e] eqn:E2; [| |by apply inserted_none].
  2: { apply inserted_none; [done|]. right. intros i u Hu Hw. eapply find_user_none in E2; [|done].
       bool_to_prop. done. }
  rewrite run_await_bind. pose proof (moves_scan_insert u ev w Hq) as [Htx' Hm].
  unfold insert_loan_or_ignore in *. rewrite statement_NoTx in * by done. cbv zeta in *.
  set (l := {| loan_id := db_new_loan_id w |}) in *.
  destruct (db_loan_error w l) as [e|] eqn:Ee.
  - destruct e; cbn [run fst snd] in *; try by apply inserted_none.
    cbn. apply inserted_none; [done|]. left.
    destruct (ignored_mirrored w l index Ee eq_refl) as (tx & [= <-] & H). exact H.
  - cbn [run fst snd] in *. cbn.
    unfold inserted_one. split_and!; try done; [split; [done|by eapply ledger_steps_ok]| |].
    + exists (loan_id l), (stored_loan l). split; [apply lookup_insert_eq|done].
    + apply map_size_insert_None, new_loan_id_fresh.
Qed.

Lemma mirrored_le t t' tx : ledger_le t t' -> mirrored t tx -> mirrored t' tx.
Proof.
  intros Hle (j & l & Hj & Hl). apply Hle in Hj as (l' & Hj' & (_ & _ & Ht) & _).
  exists j, l'. split; [done|]. injection Ht. intros. congruence.
Qed.

(** The loop over the events of a window. *)
Definition scanned (events : list ChainLoanOpenedEvent) (w w' : World) (acc acc' : nat * nat * nat) : Prop :=
  let '(i, s, e) := acc in let '(i', s', e') := acc' in
  quiet w' /\ w_users w' = w_users w /\ w_side w' = w_side w /\ w_calls w' = w_calls w /\ ledger_moves w w' /\
  (i' + s' + e' = i + s + e + length events)%nat /\ (e <= e')%nat /\
  (size (w_loans w') + i = size (w_loans w) + i')%nat /\
  (e' = e -> forall ev, ev ∈ events -> mirrored (w_loans w') (ev_txHash ev) \/ unknown_wallet w (ev_borrower ev)).

Lemma scan_events_run events acc w :
  quiet w -> exists acc' w', run (pfold scan_event acc events) w = (Ok acc', w') /\ scanned events w w' acc acc'.
Proof.
  revert acc w. induction events as [|ev events IH]; intros [[i s] e] w Hq; cbn [pfold].
  { exists (i, s, e), w. split; [done|]. unfold scanned. split_and!; try done.
    intros _ ev Hev. by apply elem_of_nil in Hev. }
  rewrite run_bind. unfold scan_event at 1. rewrite run_bind, run_settle.
  pose proof (insertMissing_run ev w Hq) as H. destruct (run (insertMissingLoan ev) w) as [r w1].
  destruct H as (Hq1 & Hu1 & Hs1 & Hc1 & Hm1 & Hr). cbn [run].
  edestruct (IH (match r with Ok true => (S i, s, e) | Ok false => (i, S s, e) | Throw _ => (i, s, S e) end) w1 Hq1)
    as ([[i' s'] e'] & w' & Hrun & H).
  exists (i', s', e'), w'. split; [exact Hrun|]. clear Hrun.
  assert (Hkey : quiet w' /\ w_users w' = w_users w1 /\ w_side w' = w_side w1 /\ w_calls w' = w_calls w1 /\ ledger_moves w1 w')
    by (destruct r as [[]|]; destruct H as (? & ? & ? & ? & ? & _); by split_and!).
  destruct Hkey as (Hq' & Hu' & Hs' & Hc' & Hm').
  assert (Hkeep : forall tx, mirrored (w_loans w1) tx -> mirrored (w_loans w') tx)
    by (intros tx; apply mirrored_le; by apply ledger_steps_le).
  assert (Hunk : forall b, unknown_wallet w1 b -> unknown_wallet w b) by (intros b; unfold unknown_wallet; by rewrite Hu1).
  unfold scanned. split; [done|]. split; [congruence|]. split; [congruence|]. split; [congruence|]. split; [by etrans|].
  destruct r as [[]|ex]; destruct H as (_ & _ & _ & _ & _ & Hsum & Hle & Hsize & Hall).
  - destruct Hr as [Hmir Hsz]. cbn [length]. split_and!; [lia|lia|lia|]. intros Hee ev' [->|Hev]%elem_of_cons; [auto|].
    destruct (Hall Hee ev' Hev); auto.
  - destruct Hr as [Hl Hr]. cbn [length]. rewrite Hl in Hsize. split_and!; [lia|lia|lia|].
    intros Hee ev' [->|Hev]%elem_of_cons.
    + destruct Hr; [left; apply Hkeep; by rewrite Hl|by right].
    + destruct (Hall Hee ev' Hev); auto.
  - cbn [length]. rewrite Hr in Hsize. split_and!; [lia|lia|lia|]. lia.
Qed.

(** ** The cursor *)

Definition cursor (w : World) : Z := default 0 (loan_opened_cursor (w_side w)).

(** Where a scan starts when the chain is at [current]. *)
Definition start_at (current : Z) (w : World) : Z :=
  if cursor w =? 0 then Z.max 0 (current - 100000) else cursor w.

(** A run of the scanner. It ended early, or it walked one window of the chain, at
    most [MAX_BLOCK_RANGE] wide and beginning right after its start, and moved the
    cursor to the window's end. *)
Definition scan_outcome (w w' : World) (res : ScanResult) : Prop :=
  (sr_scanned res = 0%nat /\ sr_inserted res = 0%nat /\
   (loan_opened_cursor (w_side w') = loan_opened_cursor (w_side w) \/
    exists h, loan_opened_cursor (w_side w') = Some (start_at h w))) \/
  exists h events evs, let from := start_at h w in let to := Z.min (from + MAX_BLOCK_RANGE) h in
    from < h /\ from < to <= from + MAX_BLOCK_RANGE /\ loan_opened_cursor (w_side w') = Some to /\
    w_calls w' = w_calls w ++ evs /\ CLoanOpenedEvents (from + 1) to (Ok events) ∈ evs /\
    sr_scanned res = length events /\ (sr_inserted res + sr_skipped res + sr_errors res = length events)%nat /\
    size (w_loans w') = (size (w_loans w) + sr_inserted res)%nat /\
    (sr_errors res = 0%nat -> forall ev, ev ∈ events ->
       mirrored (w_loans w') (ev_txHash ev) \/ unknown_wallet w (ev_borrower ev)).

Lemma save_side_run f w :
  w_tx w = NoTx ->
  save_side f w = match db_side_error w (f (w_side w)) with
                  | Some e => (Throw e, w)
                  | None => (Ok tt, set_side (f (w_side w)) w)
                  end.
Proof. intros Htx. unfold save_side. rewrite statement_NoTx by done. by destruct (db_side_error w _). Qed.

Definition nothing_scanned : ScanResult := {| sr_scanned := 0; sr_inserted := 0; sr_skipped := 0; sr_errors := 0 |}.

(** What follows the bootstrap, from a world whose cursor is [from] or not. *)
Definition scan_window (from h : Z) (w w' : World) (r : result ScanResult) : Prop :=
  quiet w' /\ w_users w' = w_users w /\ ledger_moves w w' /\
  match r with
  | Throw _ => w_side w' = w_side w
  | Ok res =>
      (h <= from /\ w_side w' = w_side w /\ res = nothing_scanned) \/
      exists events evs, let to := Z.min (from + MAX_BLOCK_RANGE) h in
        from < h /\ loan_opened_cursor (w_side w') = Some to /\ w_calls w' = w_calls w ++ evs /\
        CLoanOpenedEvents (from + 1) to (Ok events) ∈ evs /\
        sr_scanned res = length events /\ (sr_inserted res + sr_skipped res + sr_errors res = length events)%nat /\
        size (w_loans w') = (size (w_loans w) + sr_inserted res)%nat /\
        (sr_errors res = 0%nat -> forall ev, ev ∈ events ->
           mirrored (w_loans w') (ev_txHash ev) \/ unknown_wallet w (ev_borrower ev))
  end.

Lemma scan_from_run from h w :
  quiet w -> let '(r, w') := run (scan_from from h) w in scan_window from h w w' r.
Proof.
  intros Hq. pose proof Hq as [Htx Hok]. unfold scan_from. destruct (Z.leb_spec h from) as [Hle|Hlt].
  { cbn. unfold scan_window. split_and!; try done. by left. }
  rewrite run_await_bind. cbv [getLoanOpenedEvents outside]. set (to := Z.min _ h).
  destruct (gw_loanOpenedEvents (w_calls w) (from + 1) to) as [events|e] eqn:Ev; [|cbn; unfold scan_window; split_and!; try done; constructor].
  set (w1 := log_call _ w). assert (Hq1 : quiet w1) by done.
  rewrite run_bind. destruct (scan_events_run events (0, 0, 0)%nat w1 Hq1) as ([[i s] e] & w2 & Hrun & H).
  rewrite Hrun. clear Hrun. destruct H as (Hq2 & Hu2 & Hs2 & Hc2 & Hm2 & Hsum & _ & Hsize & Hall).
  rewrite run_await_bind. unfold save_cursor. rewrite save_side_run by apply Hq2.
  destruct (db_side_error w2 _) as [err|]; cbn [run fst snd]; unfold scan_window.
  { split_and!; done. }
  cbn [run]. split_and!; try done. right. exists events, [CLoanOpenedEvents (from + 1) to (Ok events)].
  change (w_loans w1) with (w_loans w) in Hsize. cbn -[Z.min MAX_BLOCK_RANGE].
  split_and!; try done; [by left|lia].
Qed.

Lemma scan_run w :
  quiet w ->
  let '(r, w') := run scanLoanOpenedEvents w in
  quiet w' /\ w_users w' = w_users w /\ ledger_moves w w' /\ exists res, r = Ok res /\ scan_outcome w w' res.
Proof.
  intros Hq. pose proof Hq as [Htx Hok]. unfold scanLoanOpenedEvents. rewrite proc_try_run, run_await_bind.
  assert (Hearly : forall w' e, quiet w' -> w_users w' = w_users w -> ledger_moves w w' ->
            (loan_opened_cursor (w_side w') = loan_opened_cursor (w_side w) \/
             exists h, loan_opened_cursor (w_side w') = Some (start_at h w)) ->
            quiet w' /\ w_users w' = w_users w /\ ledger_moves w w' /\
            exists res, Ok {| sr_scanned := 0; sr_inserted := 0; sr_skipped := 0; sr_errors := e |} = Ok res /\ scan_outcome w w' res)
    by (intros w' e ? ? ? ?; split_and!; try done; eexists; split; [reflexivity|]; left; done).
  unfold find_cursor. rewrite query_NoTx by done.
  destruct (db_find_cursor w) as [c|e] eqn:Ec; [|cbn; apply Hearly; [done|done|constructor|by left]].
  apply find_cursor_spec in Ec. rewrite run_await_bind. cbv [getLatestLedger outside].
  destruct (gw_latestLedger (w_calls w)) as [h|e].
  2: { apply (Hearly (log_call CLatestLedger w) 1%nat); [done|done|constructor|by left]. }
  set (w1 := log_call CLatestLedger w). assert (Hq1 : quiet w1) by done.
  assert (Hstart : default 0 c = cursor w) by (unfold cursor; by rewrite Ec). rewrite Hstart.
  assert (Hgo : forall w2, quiet w2 -> w_users w2 = w_users w -> w_loans w2 = w_loans w ->
            (exists evs, w_calls w2 = w_calls w ++ evs) ->
            (loan_opened_cursor (w_side w2) = loan_opened_cursor (w_side w) \/
             exists h, loan_opened_cursor (w_side w2) = Some (start_at h w)) ->
            let '(r, w') := match run (scan_from (start_at h w) h) w2 with
                            | (Ok a, w') => (Ok a, w')
                            | (Throw e, w') => run (Return {| sr_scanned := 0; sr_inserted := 0; sr_skipped := 0; sr_errors := 1 |}) w'
                            end in
            quiet w' /\ w_users w' = w_users w /\ ledger_moves w w' /\ exists res, r = Ok res /\ scan_outcome w w' res).
  { intros w2 Hq2 Hu2 Hl2 [pre Hc2] Hs2. pose proof (scan_from_run (start_at h w) h w2 Hq2) as H.
    destruct (run (scan_from _ h) w2) as [[res|e] w']; destruct H as (Hq' & Hu' & Hm' & H).
    - split; [done|]. split; [congruence|]. split; [unfold ledger_moves in *; by rewrite <- Hl2|]. exists res. split; [done|].
      destruct H as [(_ & Hs & ->)|(events & evs & Hlt & Hc & Hcalls & Hin & Hn & Hsum & Hsize & Hall)].
      + left. by rewrite Hs.
      + right. exists h, events, (pre ++ evs). cbv zeta in *. rewrite Hcalls, Hc2, app_assoc. unfold MAX_BLOCK_RANGE in *.
        split_and!; try done; [lia..| |by rewrite Hsize, Hl2|].
        * apply elem_of_app. by right.
        * intros He ev Hev. destruct (Hall He ev Hev) as [?|Hun]; [by left|right]. unfold unknown_wallet. by rewrite <- Hu2.
    - cbn [run]. apply Hearly; [done|congruence|unfold ledger_moves in *; by rewrite <- Hl2|by rewrite H]. }
  rewrite run_bind. destruct (cursor w =? 0) eqn:E0.
  - rewrite run_await_bind. unfold save_cursor. rewrite save_side_run by done.
    assert (Hs : start_at h w = Z.max 0 (h - 100000)) by (unfold start_at; by rewrite E0).
    destruct (db_side_error w1 _) as [e|]; cbn [run]; [apply Hearly; [done|done|constructor|by left]|].
    rewrite <- Hs. apply Hgo; try done; [by eexists|]. right. by exists h.
  - cbn [run]. assert (Hs : start_at h w = cursor w) by (unfold start_at; by rewrite E0).
    specialize (Hgo w1 Hq1 eq_refl eq_refl ltac:(by eexists) ltac:(by left)).
    rewrite Hs in Hgo. exact Hgo.
Qed.
End Scan.

(** * Properties of chain synchronisation: the scanner *)

Section Progress.
  Context `{ENV : Env} `{DB : Database} `{OUT : Outside} `{FEED : ChainFeed} {LAWS : DatabaseLaws DB}.

(** Nothing fails, and the chain is at [H] or later. *)
Class Healthy (H : Z) := {
  healthy_head : forall t, exists h, gw_latestLedger t = Ok h /\ H <= h;
  healthy_events : forall t a b, is_ok (gw_loanOpenedEvents t a b) = true;
  healthy_cursor : forall w, is_ok (db_find_cursor w) = true;
  healthy_side : forall w s, db_side_error w s = None;
}.

(** [n] runs of the scanner. *)
Fixpoint scans (n : nat) (w : World) : World :=
  match n with O => w | S n' => scans n' (snd (run scanLoanOpenedEvents w)) end.

Lemma scan_from_healthy {H} {HEALTHY : Healthy H} from h w :
  quiet w -> is_ok (fst (run (scan_from from h) w)) = true.
Proof.
  intros Hq. unfold scan_from. destruct (h <=? from); [done|].
  rewrite run_await_bind. cbv [getLoanOpenedEvents outside].
  pose proof (healthy_events (w_calls w) (from + 1) (Z.min (from + MAX_BLOCK_RANGE) h)) as He.
  destruct (gw_loanOpenedEvents _ _ _) as [events|e]; [|done]. set (w1 := log_call _ w).
  assert (Hq1 : quiet w1) by done. rewrite run_bind.
  destruct (scan_events_run events (0, 0, 0)%nat w1 Hq1) as ([[i s] e] & w2 & -> & Hq2 & _).
  rewrite run_await_bind. unfold save_cursor. rewrite save_side_run by apply Hq2. by rewrite healthy_side.
Qed.

Lemma start_at_mono H h w : H <= h -> start_at H w <= start_at h w.
Proof. intros Hh. unfold start_at. destruct (cursor w =? 0); lia. Qed.

(** One run moves the cursor a whole window ahead, or to the head. *)
Lemma scan_progress {H} {HEALTHY : Healthy H} w :
  quiet w -> Z.min H (start_at H w + MAX_BLOCK_RANGE) <= cursor (snd (run scanLoanOpenedEvents w)).
Proof.
  intros Hq. pose proof Hq as [Htx Hok]. unfold scanLoanOpenedEvents. rewrite proc_try_run, run_await_bind.
  unfold find_cursor. rewrite query_NoTx by done. pose proof (healthy_cursor w) as Hc.
  destruct (db_find_cursor w) as [c|] eqn:Ec; [|done]. apply find_cursor_spec in Ec.
  rewrite run_await_bind. cbv [getLatestLedger outside]. destruct (healthy_head (w_calls w)) as (h & -> & Hh).
  assert (Hstart : default 0 c = cursor w) by (unfold cursor; by rewrite Ec). rewrite Hstart.
  set (w1 := log_call CLatestLedger w). pose proof (start_at_mono H h w Hh) as Hmono.
  assert (Hgo : forall w2, quiet w2 -> (h <= start_at h w -> start_at h w <= cursor w2) ->
            Z.min H (start_at H w + MAX_BLOCK_RANGE) <=
            cursor (snd (match run (scan_from (start_at h w) h) w2 with
                         | (Ok a, w') => (Ok a, w')
                         | (Throw e, w') => run (Return {| sr_scanned := 0; sr_inserted := 0; sr_skipped := 0; sr_errors := 1 |}) w'
                         end))).
  { intros w2 Hq2 Hcur. pose proof (scan_from_run (start_at h w) h w2 Hq2) as Hr.
    pose proof (scan_from_healthy (start_at h w) h w2 Hq2) as Hok2.
    destruct (run (scan_from _ h) w2) as [[res|e] w']; [|done]. cbn [snd]. unfold scan_window in Hr.
    destruct Hr as (_ & _ & _ & [(Hle & Hs & _)|(events & evs & Hlt & Hcu & _)]).
    - specialize (Hcur Hle). unfold cursor in *. rewrite Hs. lia.
    - unfold cursor. rewrite Hcu. cbn. lia. }
  rewrite run_bind. destruct (cursor w =? 0) eqn:E0.
  - rewrite run_await_bind. unfold save_cursor. rewrite save_side_run by done. rewrite healthy_side.
    assert (Hs : start_at h w = Z.max 0 (h - 100000)) by (unfold start_at; by rewrite E0).
    cbn [run]. rewrite <- Hs. apply Hgo; [done|]. intros _. cbn. lia.
  - cbn [run]. assert (Hs : start_at h w = cursor w) by (unfold start_at; by rewrite E0).
    specialize (Hgo w1 Hq). rewrite Hs in Hgo. apply Hgo. intros _. unfold w1, cursor. cbn. lia.
Qed.

Lemma scan_quiet w : quiet w -> quiet (snd (run scanLoanOpenedEvents w)).
Proof. intros Hq. pose proof (scan_run w Hq) as H. destruct (run scanLoanOpenedEvents w). apply H. Qed.

Lemma start_at_cursor H w : 0 <= cursor w -> cursor w <= start_at H w.
Proof. intros Hc. unfold start_at. destruct (Z.eqb_spec (cursor w) 0); lia. Qed.

(** C10. The scanner catches up: while nothing fails and the chain stays at height
    [H] or beyond, enough runs - one per ten thousand ledgers between the
    scanner's start and [H] - bring the cursor to [H], however many loan openings
    they meet and whatever becomes of them. *)
Theorem scan_catches_up (H : Z) {HEALTHY : Healthy H} (n : nat) (w : World)
    (Hq : quiet w) (Hcur : 0 <= cursor w) (Hpos : 0 <= H)
    (Hn : (0 < n)%nat) (Henough : H <= start_at H w + Z.of_nat n * MAX_BLOCK_RANGE) :
  H <= cursor (scans n w).
Proof.
  enough (Hmin : Z.min H (start_at H w + Z.of_nat n * MAX_BLOCK_RANGE) <= cursor (scans n w)) by lia.
  clear Henough. revert w Hq Hcur. induction n as [|[|n] IH]; [lia| |]; intros w Hq Hcur.
  - cbn [scans]. pose proof (scan_progress w Hq). lia.
  - set (m := S n) in *. cbn [scans]. set (w1 := snd (run scanLoanOpenedEvents w)).
    pose proof (scan_progress w Hq) as Hp. fold w1 in Hp.
    assert (0 <= start_at H w) by (unfold start_at; destruct (Z.eqb_spec (cursor w) 0); lia).
    assert (Hc1 : 0 <= cursor w1) by (unfold MAX_BLOCK_RANGE in *; lia).
    specialize (IH ltac:(lia) w1 (scan_quiet w Hq) Hc1). pose proof (start_at_cursor H w1 Hc1).
    unfold MAX_BLOCK_RANGE in *. lia.
Qed.

(** C9. What one run of the scanner does, whatever the chain and the database
    answer: it touches no user and changes the loan table by ledger steps alone.
    Either it stops early - nothing scanned, the cursor where it was or at the
    place the scan starts from - or it reads one window of the chain, which begins
    right after that place and is at most ten thousand ledgers wide, moves the
    cursor to the window's end, and its counts add up: each event of the window
    inserted a row, was skipped or is counted as an error, and when no error is
    counted every event's loan is in the table unless its wallet belongs to no
    user. *)
Theorem scan_correct (w : World) (Hq : quiet w) :
  let '(r, w') := run scanLoanOpenedEvents w in
  quiet w' /\ w_users w' = w_users w /\ ledger_moves w w' /\ exists res, r = Ok res /\ scan_outcome w w' res.
Proof. by apply scan_run. Qed.
End Progress.

(** ** Concrete scans *)

Definition event_at (tx : string) (ledger : Z) (b : string) : ChainLoanOpenedEvent :=
  {| ev_borrower := b; ev_principal := 10000000; ev_amountDue := 10840000; ev_due := 2000 + 14 * 86400;
     ev_feeBps := num_of_Z 840; ev_ledger := ledger; ev_txHash := tx; ev_timestamp := 2000 |}.

(** A chain at [head] with these openings, and this closing event for everybody. *)
Definition feed (head : Z) (opened : list ChainLoanOpenedEvent) (risk : option UserRisk)
    (closed : option ChainLoanClosedEvent) : ChainFeed :=
  {| gw_latestLedger _ := Ok head; gw_readUserRisk _ _ := Ok risk;
     gw_loanOpenedEvents _ a b := Ok (List.filter (fun ev => (a <=? ev_ledger ev) && (ev_ledger ev <=? b)) opened);
     gw_findLoanClosed _ _ _ _ := Ok closed; subgraph_loansOriginated _ := Ok None |}.

#[export] Instance feed_healthy head opened risk closed : Healthy (FEED := feed head opened risk closed) head.
Proof. constructor; [intros t; exists head; split; [reflexivity|lia]|reflexivity..]. Qed.

(** The lending world, its scanner at ledger 5000. *)
Definition scanning_world : World :=
  set_side {| self_verified := ∅; loan_opened_cursor := Some 5000; metrics := ∅ |} lending_world.

Lemma ledger_ok_empty : ledger_ok ∅.
Proof.
  split_and!; [apply map_Forall_empty..|]. intros i l H. by rewrite lookup_empty in H.
Qed.

Lemma scanning_quiet : quiet scanning_world.
Proof. split; [reflexivity|apply ledger_ok_empty]. Qed.

(** Two openings ahead of the cursor: one of the sample user, one of a wallet no
    user has. *)
Definition two_openings : ChainFeed :=
  feed 30000 [event_at "b1" 7000 sample_wallet; event_at "b2" 8000 other_wallet] None None.

Definition scan_two (w : World) : result ScanResult * World :=
  run (scanLoanOpenedEvents (ENV := sample_env) (FEED := two_openings)) w.

Lemma scan_catches_up_witness :
  30000 <= cursor (scans (ENV := sample_env) (FEED := two_openings) 3 scanning_world).
Proof.
  apply (scan_catches_up (ENV := sample_env) (FEED := two_openings) 30000 3 scanning_world scanning_quiet);
    [cbn; lia|lia|lia|vm_compute; congruence].
Defined.

Lemma scan_correct_witness :
  let '(r, w') := scan_two scanning_world in
  (exists res, r = Ok res /\ sr_inserted res = 1%nat /\ sr_skipped res = 1%nat /\ scan_outcome scanning_world w' res) /\
  cursor w' = 15000.
Proof.
  pose proof (scan_correct (ENV := sample_env) (FEED := two_openings) scanning_world scanning_quiet) as H.
  assert (Hc : (match fst (scan_two scanning_world) with Ok res => (sr_inserted res =? 1)%nat && (sr_skipped res =? 1)%nat | _ => false end)
               && (cursor (snd (scan_two scanning_world)) =? 15000) = true) by (vm_compute; reflexivity).
  unfold scan_two in *. destruct (run scanLoanOpenedEvents scanning_world) as [r w'].
  destruct H as (_ & _ & _ & res & -> & H). cbn [fst snd] in Hc. apply andb_prop in Hc as [Hc1 Hc2]. apply andb_prop in Hc1 as [Ha Hb].
  apply Nat.eqb_eq in Ha, Hb. apply Z.eqb_eq in Hc2. split; [exists res; by split_and!|done].
Defined.

(** The second user registers after the scan that met its loan; the scanner runs
    again, three times, up to the head of the chain. *)
Definition late_registration : World :=
  scans (ENV := sample_env) (FEED := two_openings) 3
    (let w := snd (scan_two scanning_world) in set_users (<[2 := other_user]> (w_users w)) w).

(** An opening the scanner met before its wallet had a user is never
    recorded: the cursor has moved past it, and the later runs, up to the head of
    the chain, do not look back. *)
Theorem scan_forgets_skipped :
  cursor late_registration = 30000 /\
  bool_decide (w_users late_registration !! 2 = None) = false /\
  forallb (fun kv => negb (bool_decide (openTxHash (terms (snd kv)) = Some "b2"%string))) (map_to_list (w_loans late_registration)) = true /\
  existsb (fun kv => bool_decide (openTxHash (terms (snd kv)) = Some "b1"%string)) (map_to_list (w_loans late_registration)) = true.
Proof. split_and!; vm_compute; reflexivity. Qed.
