(* ===== verification/ChainSyncCredit.v ===== *)
(** * Properties of chain synchronisation: reconciliation and credit lines *)

From stdpp Require Import base tactics list gmap strings numbers.
From Stdlib Require Import Lia ZArith.
From S2P Require Import Prelude JsString JsNum AmountUnits DecimalLib CreditPolicy LoanCalc Entities Gateway Store Async Kyc EarlyAccess LoanVerification LoanService LoanRepayment Ledger ChainSync ChainSyncProps.

Local Open Scope Z_scope.

Section Credit.
  Context `{ENV : Env} `{DB : Database} `{OUT : Outside} `{FEED : ChainFeed} {LAWS : DatabaseLaws DB}.

(** ** The credit line of a reconciled repayment *)

(** The on-time loans of a user. *)
Definition on_time_count (w : World) (uid : Z) : Z := Z.of_nat (size (loans_where (repaid_on_time_of uid) w)).

(** The line chain-sync pushes for the user it read. *)
Definition synced_line (onTime : bool) (user : User) (n s : Z) (lim : num) (u0 : User) : Prop :=
  if onTime then
    s = CreditPolicy.score (getStepForOnTimeLoans n) /\ u0 = raise_xp n user /\
    lim = nmax (sync_limit user) (num_of_Z (limitUsdc (getStepForOnTimeLoans n) * TOKEN_UNIT env_decimals))
  else s = current_score user /\ lim = sync_limit user /\ u0 = user.

(** The line of user [uid] was brought up to date: at most one push, and the row
    follows only if the gateway answers 200. *)
Definition credit_synced (b : string) (uid : Z) (onTime : bool) (w w' : World) : Prop :=
  w_loans w' = w_loans w /\ w_tx w' = NoTx /\ w_side w' = w_side w /\
  ((w_users w' = w_users w /\ writes_from w w' []) \/
   exists i user s lim u0 units a, w_users w !! i = Some user /\ user_id user = uid /\
     synced_line onTime user (on_time_count w uid) s lim u0 /\
     BigInt_of_num lim = Ok units /\ writes_from w w' [CGiveCredit b s units a] /\
     (w_users w' = w_users w \/
      (a = Ok 200 /\ w_users w' = <[uid := stored_user (set_score_and_limit s lim u0)]> (w_users w)))).

Lemma step_limit_value s : step_limit s = num_of_Z (limitUsdc s * TOKEN_UNIT env_decimals).
Proof. unfold step_limit, step_limit_units, Number_of_bigint. by rewrite toUnits_number. Qed.

Lemma credit_unsynced b uid onTime w w' : w_tx w = NoTx -> reads w w' -> credit_synced b uid onTime w w'.
Proof.
  intros Htx Hr. pose proof (reads_writes _ _ Hr). destruct Hr as (Hu & Hl & Hs & Ht & _).
  split_and!; [done|congruence|done|by left].
Qed.

(** From the line on. *)
Definition push_synced (b : string) (line : Z * num * User) : proc World unit :=
  let '(newScore, newLimit, user) := line in
  units ← of_result (BigInt_of_num newLimit);
  chainResult ← await (giveCreditScoreAndLimit b newScore units);
  if chainResult =? 200 then await (save_user (set_score_and_limit newScore newLimit user)) else Return tt.

Lemma push_synced_run b uid onTime w i user s lim u0 :
  w_tx w = NoTx -> w_users w !! i = Some user -> user_id user = uid -> user_id u0 = uid ->
  synced_line onTime user (on_time_count w uid) s lim u0 ->
  credit_synced b uid onTime w (snd (run (push_synced b (s, lim, u0)) w)).
Proof.
  intros Htx Hi Hu Hu0 Hline. unfold push_synced.
  destruct (BigInt_of_num lim) as [units|e] eqn:Eb; [|by apply credit_unsynced; [|apply reads_refl]].
  cbn [of_result]. rewrite return_bind, run_await_bind. cbv [giveCreditScoreAndLimit outside].
  set (a := gw_giveCredit _ _ _ _). set (w1 := log_call _ w).
  assert (Hw : writes_from w w1 [CGiveCredit b s units a]) by by apply writes_log.
  assert (Hkeep : credit_synced b uid onTime w w1).
  { unfold credit_synced. split_and!; try done. right. exists i, user, s, lim, u0, units, a. split_and!; try done. by left. }
  destruct a as [code|e]; [|exact Hkeep]. destruct (Z.eqb_spec code 200) as [->|]; [|exact Hkeep].
  rewrite run_await. unfold save_user. rewrite statement_NoTx by done.
  destruct (db_user_error w1 _) as [e|]; [exact Hkeep|]. cbn [snd].
  unfold credit_synced. split_and!; try done. right. exists i, user, s, lim, u0, units, (Ok 200).
  split_and!; try done. right. split; [done|]. cbn [w_users set_users]. by rewrite <- Hu0.
Qed.

Lemma updateCreditScore_run b uid onTime w :
  w_tx w = NoTx ->
  let '(r, w') := run (updateCreditScore b uid onTime) w in r = Ok tt /\ credit_synced b uid onTime w w'.
Proof.
  intros Htx. unfold updateCreditScore. rewrite proc_try_run.
  enough (H : credit_synced b uid onTime w
    (snd (run (user ← await (find_user (fun u => bool_decide (user_id u = uid)));
       match user with
       | None => Return tt
       | Some user => line ← (if onTime then onTimeLoans ← await (count_loans (repaid_on_time_of uid));
                                             Return (reconciled_line user onTimeLoans)
                              else Return (current_score user, sync_limit user, user));
                      push_synced b line
       end) w))).
  { match type of H with context [run ?p w] => change (credit_synced b uid onTime w (snd (run p w))) in H; destruct (run p w) as [[[]|e] w'] eqn:E end;
      unfold push_synced in E; rewrite E; cbn; by split. }
  rewrite run_await_bind. unfold find_user. rewrite query_NoTx by done.
  destruct (db_find_user w _) as [[user|]|e] eqn:Eu; [|by apply credit_unsynced; [|apply reads_refl]..].
  apply find_user_some in Eu as (i & Hi & Hid). bool_to_prop.
  destruct onTime.
  - rewrite run_bind, run_await_bind. unfold count_loans. rewrite query_NoTx by done.
    destruct (db_count_loans w _) as [n|e] eqn:En; [|by apply credit_unsynced; [|apply reads_refl]].
    apply count_loans_spec in En. cbn [run]. unfold reconciled_line. eapply push_synced_run; try done.
    + by rewrite user_id_raise_xp.
    + unfold synced_line. rewrite step_limit_value. unfold on_time_count. by rewrite <- En.
  - rewrite return_bind. by eapply push_synced_run.
Qed.

(** ** Reconciling one loan *)

Definition loan_settled (loan : Loan) (user : User) (block : Z) (w w' : World) : Prop :=
  exists ev l' w1 evs, w_calls w' = w_calls w ++ evs /\
    CFindLoanClosed (borrowerAddress (terms loan)) (startAt (terms loan)) block (Ok (Some ev)) ∈ evs /\
    settled_by (loan_id loan) ev w w1 l' /\ w_users w1 = w_users w /\
    credit_synced (borrowerAddress (terms loan)) (user_id user) (repaidOnTime (state l')) w1 w'.

Lemma reconcileLoan_run loan user block w :
  quiet w ->
  let '(r, w') := run (reconcileLoan loan user block) w in
  (r <> Ok true /\ w_users w' = w_users w /\ w_loans w' = w_loans w /\ w_tx w' = NoTx /\ writes_from w w' []) \/
  (r = Ok true /\ loan_settled loan user block w w').
Proof.
  intros Hq. pose proof Hq as [Htx Hok]. unfold reconcileLoan. rewrite run_await_bind. cbv [findLoanClosed outside].
  destruct (gw_findLoanClosed _ _ _ _) as [ev|e].
  2: { left. split_and!; try done. apply reads_writes, reads_log. done. }
  set (w0 := log_call _ w). assert (Hq0 : quiet w0) by done. rewrite run_await_bind.
  pose proof (reconcile_transaction (loan_id loan) ev w0 Hq0) as H.
  destruct (transaction _ w0) as [[[l'|]|e] w1]; destruct H as (Htx1 & Hc1 & Hu1 & H).
  - destruct H as (e & -> & Hs). rewrite run_bind.
    pose proof (updateCreditScore_run (borrowerAddress (terms loan)) (user_id user) (repaidOnTime (state l')) w1 Htx1) as Hc.
    destruct (run (updateCreditScore _ _ _) w1) as [r w']. destruct Hc as [-> Hc]. cbn [run]. right. split; [done|].
    assert (Hex : exists more, w_calls w' = w_calls w1 ++ more).
    { destruct Hc as (_ & _ & _ & [(_ & (evs & ? & _))|(? & ? & ? & ? & ? & ? & ? & _ & _ & _ & _ & (evs & ? & _) & _)]); by exists evs. }
    destruct Hex as [more Hmore]. exists e, l', w1, (CFindLoanClosed (borrowerAddress (terms loan)) (startAt (terms loan)) block (Ok (Some e)) :: more).
    split_and!; try done; [|by left]. rewrite Hmore, Hc1. cbn. by rewrite <- app_assoc.
  - left. cbn [run]. split_and!; try done. exists [CFindLoanClosed (borrowerAddress (terms loan)) (startAt (terms loan)) block (Ok ev)].
    split; [by rewrite Hc1|done].
  - left. cbn [run]. split_and!; try done. exists [CFindLoanClosed (borrowerAddress (terms loan)) (startAt (terms loan)) block (Ok ev)].
    split; [by rewrite Hc1|done].
Qed.

(** C7. Reconciling one loan. Either nothing is written, in the tables or on
    chain, and the answer is not [true]; or the chain reported a closing event for
    the loan, and the row - which carried no closing transaction, and between
    whose start and the event no other loan of the wallet started, while no other
    row carries the event's transaction - is closed by it: amount, transaction and
    closing time are the event's, on time iff within a day of the due date. Then
    the line is pushed at most once: for an on-time repayment the ladder's score for
    the number of on-time loans, and at least the limit there was; else the line as
    it is. The user's row follows only if the gateway answers 200. *)
Theorem reconcile_correct (loan : Loan) (user : User) (block : Z) (w : World) (Hq : quiet w) :
  let '(r, w') := run (reconcileLoan loan user block) w in
  (r <> Ok true /\ w_users w' = w_users w /\ w_loans w' = w_loans w /\ w_tx w' = NoTx /\ writes_from w w' []) \/
  (r = Ok true /\ loan_settled loan user block w w').
Proof. by apply reconcileLoan_run. Qed.

(** Once a loan is settled by an event, reconciling it again changes nothing. *)
Lemma settled_once i ev w w' l' ev2 w2 :
  settled_by i ev w w' l' -> cl_txHash ev <> ""%string -> w_loans w2 = w_loans w' -> quiet w2 ->
  let '(r, w3) := transaction (reconcile_tx i ev2) w2 in w_loans w3 = w_loans w2 /\ w_users w3 = w_users w2 /\ forall l, r <> Ok (Some l).
Proof.
  intros (l & Hl & _ & _ & _ & -> & _ & Hw) Hne Hw2 Hq2.
  pose proof (reconcile_transaction i ev2 w2 Hq2) as H. destruct (transaction _ w2) as [[[l2|]|e] w3].
  - exfalso. destruct H as (_ & _ & _ & e & _ & (l0 & Hl0 & Ht & _)). rewrite Hw2, Hw, lookup_insert_eq in Hl0.
    injection Hl0 as <-. unfold filled in Ht. cbn in Ht. by rewrite bool_decide_false in Ht.
  - destruct H as (_ & _ & ? & ?). split_and!; try done.
  - destruct H as (_ & _ & ? & ?). split_and!; try done.
Qed.

(** ** Renewals *)

(** The credit lines the chain accepted. *)
Definition accepted (c : call) : bool := match c with CGiveCredit _ _ _ a => is_ok a | _ => false end.

Definition accepted_lines (w : World) : nat := length (List.filter accepted (w_calls w)).

Lemma accepted_log c w : accepted_lines (log_call c w) = (accepted_lines w + if accepted c then 1 else 0)%nat.
Proof. unfold accepted_lines. cbn. rewrite List.filter_app, length_app. cbn. by destruct (accepted c). Qed.

Definition renewed_once (r : result bool) : nat := match r with Ok true => 1 | _ => 0 end.

Lemma accepted_query {A} (f : World -> result A) w : accepted_lines (snd (query f w)) = accepted_lines w.
Proof. unfold query, statement, poison. destruct (w_tx w) eqn:E; try done; destruct (f w); try done; by rewrite E. Qed.

Lemma renew_user_counted threshold u :
  counted accepted_lines (fun m r => m = renewed_once r) 0 (renew_user threshold u).
Proof.
  unfold renew_user. case_bool_decide; [done|]. apply counted_try.
  apply counted_bind. apply counted_silent; [intros w; cbv [readUserRisk outside]; cbn [snd]; rewrite accepted_log; cbn; lia|].
  intros [risk|e]; [|done]. cbv zeta. destruct (_ || _); [done|].
  destruct (BigInt_of_num (sync_limit u)) as [units|e]; [|done]. cbn [of_result]. rewrite return_bind.
  apply counted_bind. intros w. cbv [giveCreditScoreAndLimit outside]. cbn [fst snd].
  destruct (gw_giveCredit _ _ _ _) as [code|e]; (eexists; split; [apply accepted_log|]); cbn; done.
Qed.

Lemma sum_renewed rs : list_sum (map renewed_once rs) = count_true rs.
Proof.
  unfold count_true. induction rs as [|[[]|e] rs IH]; [done|..]; cbn;
    change (fold_right Init.Nat.add 0%nat (map renewed_once rs)) with (list_sum (map renewed_once rs)); by rewrite IH.
Qed.

Context {SCHED : Scheduler World}.

Lemma renew_batches_counted threshold bs n :
  counted accepted_lines (fun m r => r = Ok m) n (pfold (renew_batch threshold) n bs).
Proof.
  revert n. induction bs as [|b bs IH]; intros n; cbn [pfold]; [done|].
  apply counted_bind. unfold renew_batch at 2. destruct (MAX_RENEWALS <=? n)%nat; [apply IH|].
  apply counted_bind. eapply counted_mono; [|apply (counted_allSettled _ renewed_once)].
  - intros m r (rs & -> & ->). cbn. rewrite sum_renewed. apply IH.
  - apply Forall_map, Forall_true. intros u. apply renew_user_counted.
Qed.

Lemma count_true_length rs : (count_true rs <= length rs)%nat.
Proof. unfold count_true. apply List.filter_length_le. Qed.

Lemma renew_batches_bounded threshold bs n :
  Forall (fun b => (length b <= BATCH_SIZE)%nat) bs -> (n <= MAX_RENEWALS + BATCH_SIZE - 1)%nat ->
  safe (fun _ => True) any_step (fun r => match r with Ok m => (m <= MAX_RENEWALS + BATCH_SIZE - 1)%nat | Throw _ => False end)
    (pfold (renew_batch threshold) n bs).
Proof.
  intros Hbs Hn. apply (safe_pfold _ _ _ (fun m => (m <= MAX_RENEWALS + BATCH_SIZE - 1)%nat)); [|done|done].
  intros acc b Hb Hacc. pose proof (proj1 (list.Forall_forall _ _) Hbs b Hb) as Hlen. cbn in Hlen.
  unfold renew_batch. destruct (Nat.leb_spec MAX_RENEWALS acc) as [Hge|Hlt]; [done|].
  apply safe_bind. eapply safe_mono; [|apply (safe_allSettled _ _ (fun _ => True))].
  - intros r (rs & -> & Hl & _). cbn. pose proof (count_true_length rs). rewrite length_map in Hl. unfold BATCH_SIZE, MAX_RENEWALS in *. lia.
  - apply Forall_map, Forall_true. intros u. unfold renew_user. case_bool_decide; [done|].
    apply safe_try. apply safe_bind. apply safe_await. intros w _. split_and!; try done.
    destruct (fst _) as [risk|e]; [|done]. cbv zeta. destruct (_ || _); [done|].
    destruct (BigInt_of_num _); [|done]. cbn [of_result]. rewrite return_bind. apply safe_bind, safe_await.
    intros w' _. split_and!; try done. by destruct (fst _).
Qed.

(** One run of the renewal job has the chain accept at most 29 credit lines,
    however many users it goes through and however the requests of a batch
    interleave, and it reports exactly how many. *)
Theorem renewals_bounded (w : World) :
  let '(r, w') := run renewExpiredOffers w in
  exists n, r = Ok n /\ (n <= 29)%nat /\ accepted_lines w' = (accepted_lines w + n)%nat.
Proof.
  unfold renewExpiredOffers. rewrite proc_try_run, run_await_bind.
  unfold find_all_users. pose proof (accepted_query (fun w => db_find_all_users w has_score) w) as Hc.
  destruct (query _ w) as [[users|e] w1]; cbn [snd] in Hc; [|exists 0%nat; cbn; split_and!; [done|lia|lia]].
  destruct users as [|u users]; [exists 0%nat; cbn; split_and!; [done|lia|lia]|].
  rewrite run_await_bind. cbv [date_now outside]. set (w2 := log_call _ w1).
  assert (Hc2 : accepted_lines w2 = accepted_lines w) by (unfold w2; rewrite accepted_log; cbn; lia).
  set (threshold := now_ms _ / 1000 + _). set (bs := batches BATCH_SIZE (u :: users)).
  pose proof (counted_run _ _ _ _ w2 (renew_batches_counted threshold bs 0)) as Hrun.
  assert (Hbs : Forall (fun b => (length b <= BATCH_SIZE)%nat) bs)
    by (apply list.Forall_forall; intros b; apply batches_length).
  pose proof (safe_run _ any_step _ _ w2 (renew_batches_bounded threshold bs 0 Hbs ltac:(unfold MAX_RENEWALS, BATCH_SIZE; lia)) I) as Hb.
  destruct (run (pfold _ 0%nat bs) w2) as [r w']. destruct Hrun as (m & Hm & ->). destruct Hb as (_ & _ & Hb).
  unfold MAX_RENEWALS, BATCH_SIZE in Hb. exists m. split_and!; [done|lia|lia].
Qed.
End Credit.

(** ** Recalculation *)

Section Recalc.
  Context `{ENV : Env} `{DB : Database} `{OUT : Outside} `{FEED : ChainFeed} {LAWS : DatabaseLaws DB}.

(** The row carries the ladder's line: it did already, or it was written. *)
Definition line_written (u : User) (step : CreditLadderStep) (w w' : World) : Prop :=
  (db_in_sync u step = true /\ w_users w' = w_users w) \/ w_users w' = <[user_id u := patch_line step u u]> (w_users w).

Definition line_sent (u : User) (step : CreditLadderStep) (a : option (result Z)) (w w' : World) : Prop :=
  exists units a', BigInt_of_num (step_limit step) = Ok units /\ (forall r, a = Some r -> a' = r) /\
    writes_from w w' [CGiveCredit (walletAddress u) (CreditPolicy.score step) units a'].

(** The outcome of [recalcUser] and what was done for it. *)
Definition recalculated (u : User) (check : bool) (step : CreditLadderStep) (w w' : World) (r : result RecalcOutcome) : Prop :=
  w_loans w' = w_loans w /\ w_side w' = w_side w /\ w_tx w' = NoTx /\
  match r with
  | Ok recalc_skip => w_users w' = w_users w /\ writes_from w w' [] /\ db_in_sync u step = true
  | Ok recalc_db => writes_from w w' [] /\ line_written u step w w'
  | Ok recalc_chain => check = true /\ line_sent u step (Some (Ok 200)) w w' /\ line_written u step w w'
  | Ok recalc_error => w_users w' = w_users w /\ (writes_from w w' [] \/ (check = true /\ line_sent u step None w w'))
  | Throw _ => False
  end.

Definition caught (p : proc World RecalcOutcome) : proc World RecalcOutcome :=
  proc_try (fun _ => Return recalc_error) p.

(** Writing the row, after at most one push. *)
Lemma write_row_run (u : User) check step outcome w w1 :
  w_users w !! user_id u = Some u -> same_tables w w1 -> w_tx w = NoTx ->
  ((outcome = recalc_db /\ writes_from w w1 []) \/ (outcome = recalc_chain /\ check = true /\ line_sent u step (Some (Ok 200)) w w1)) ->
  let '(r, w') := run (caught (if db_in_sync u step then Return outcome else write_line step u outcome)) w1 in
  recalculated u check step w w' r.
Proof.
  intros Hrow (Hu & Hl & Hs & Ht) Htx Hout.
  assert (Herr : writes_from w w1 [] \/ (check = true /\ line_sent u step None w w1)).
  { destruct Hout as [[_ ?]|(_ & ? & (units & a & ? & _ & ?))]; [by left|right]. split; [done|]. by exists units, a. }
  assert (Hend : forall w', w_loans w' = w_loans w1 -> w_side w' = w_side w1 -> w_tx w' = NoTx -> w_calls w' = w_calls w1 ->
            line_written u step w w' -> recalculated u check step w w' (Ok outcome)).
  { intros w' Hl' Hs' Ht' Hc' Hline. assert (Hcalls : forall cs, writes_from w w1 cs -> writes_from w w' cs)
      by (intros cs (evs & ? & ?); exists evs; split; [congruence|done]).
    destruct Hout as [[-> Hw]|(-> & Hc & (units & a & ? & ? & ?))]; unfold recalculated; split_and!; try congruence; try done.
    - by apply Hcalls.
    - exists units, a. split_and!; try done. by apply Hcalls. }
  unfold caught. rewrite proc_try_run. destruct (db_in_sync u step) eqn:Ed.
  - cbn [run]. apply Hend; try done; [congruence|]. left. split; [done|congruence].
  - unfold write_line. rewrite run_await_bind. unfold update_user. rewrite statement_NoTx by congruence.
    rewrite Hu, Hrow. destruct (db_user_error w1 _) as [e|]; cbn [run].
    + unfold recalculated. by split_and!; try congruence.
    + apply Hend; try done; [cbn; congruence|]. right. cbn. by rewrite ?Hu.
Qed.

Lemma recalc_run (u : User) check w :
  w_tx w = NoTx -> w_users w !! user_id u = Some u -> has_wallet u = true ->
  let '(r, w') := run (recalcUser u check) w in
  recalculated u check (getStepForOnTimeLoans (on_time_count w (user_id u))) w w' r.
Proof.
  intros Htx Hrow Hw. unfold recalcUser. rewrite Hw. cbn [negb]. rewrite proc_try_run, run_await_bind.
  assert (Herror : forall step w', reads w w' -> recalculated u check step w w' (Ok recalc_error)).
  { intros step w' Hr. pose proof (reads_writes _ _ Hr). destruct Hr as (? & ? & ? & ? & _).
    unfold recalculated. split_and!; try congruence. by left. }
  unfold count_loans. rewrite query_NoTx by done.
  destruct (db_count_loans w _) as [n|e] eqn:En; [|apply Herror, reads_refl].
  apply count_loans_spec in En. assert (Hn : n = on_time_count w (user_id u)) by done. rewrite <- Hn. clear En Hn.
  cbv zeta. generalize (getStepForOnTimeLoans n) as step. clear n. intros step.
  assert (Hskip : db_in_sync u step = true -> forall w', reads w w' -> recalculated u check step w w' (Ok recalc_skip)).
  { intros Hd w' Hr. pose proof (reads_writes _ _ Hr). destruct Hr as (? & ? & ? & ? & _).
    unfold recalculated. split_and!; [congruence..|done|done]. }
  destruct check.
  - rewrite run_await_bind. cbv [readUserRisk outside]. set (w1 := log_call _ w). assert (Hr1 : reads w w1) by by apply reads_log.
    destruct (gw_readUserRisk _ _) as [onChain|e]; [|apply Herror, Hr1].
    destruct (chain_in_sync onChain step); cbn [andb negb].
    + rewrite return_bind. cbn [Z.eqb negb].
      pose proof (write_row_run u true step recalc_db w w1 Hrow (same_tables_reads _ _ Hr1) Htx) as H.
      unfold caught in H. rewrite proc_try_run in H. destruct (db_in_sync u step) eqn:Ed; [cbn [run]; by apply Hskip|].
      change (negb (200 =? 200)) with false. cbn beta iota. apply H. left. split; [done|by apply reads_writes].
    + destruct (BigInt_of_num (step_limit step)) as [units|e] eqn:Eb.
      2: { cbn. unfold recalculated. pose proof (reads_writes _ _ Hr1). split_and!; try done. by left. }
      cbn [of_result]. rewrite return_bind, run_await_bind. cbv [giveCreditScoreAndLimit outside].
      set (a := gw_giveCredit _ _ _ _). set (w2 := log_call _ w1).
      assert (Hsent : writes_from w w2 [CGiveCredit (walletAddress u) (CreditPolicy.score step) units a]).
      { apply (writes_trans w w1 w2 [] _ (reads_writes _ _ Hr1)). by apply writes_log. }
      assert (Hfail : recalculated u true step w w2 (Ok recalc_error)).
      { unfold recalculated. split_and!; try done. right. split; [done|]. by exists units, a. }
      destruct a as [code|e]; [|exact Hfail]. destruct (Z.eqb_spec code 200) as [->|]; cbn [negb]; [|exact Hfail].
      pose proof (write_row_run u true step recalc_chain w w2 Hrow) as H. unfold caught in H. rewrite proc_try_run in H.
      apply H; [done..|]. right. split_and!; try done. exists units, (Ok 200). split_and!; try done. by intros r [= <-].
  - pose proof (write_row_run u false step recalc_db w w Hrow (same_tables_reads _ _ (reads_refl w)) Htx) as H.
    unfold caught in H. rewrite proc_try_run in H.
    destruct (db_in_sync u step) eqn:Ed; [cbn [run]; apply Hskip; [done|apply reads_refl]|].
    apply H. left. split; [done|apply reads_writes, reads_refl].
Qed.

(** Recalculating one user's line. It never throws; it reports [skip] only when
    the row carries the ladder's line for the user's on-time loans, [db] when only
    the row had to be written, [chain] when the gateway accepted the ladder's line
    (one push, answered 200) and the row carries it, and [error] when nothing was
    recorded; without the on-chain check nothing is ever sent. *)
Theorem recalc_correct (u : User) (check : bool) (w : World)
    (Htx : w_tx w = NoTx) (Hrow : w_users w !! user_id u = Some u) (Hwallet : has_wallet u = true) :
  let '(r, w') := run (recalcUser u check) w in
  recalculated u check (getStepForOnTimeLoans (on_time_count w (user_id u))) w w' r.
Proof. by apply recalc_run. Qed.
End Recalc.

(** ** Concrete runs *)

(** The promises of a batch one after the other, and in turns. *)
Definition in_order : Scheduler World := {| schedule _ := [] |}.
Definition in_turns : Scheduler World := {| schedule _ := [4; 3; 2; 1; 0; 0; 1; 2; 3; 4; 0; 1; 2; 3; 4]%nat |}.

(** The clock of [O] set to [t] milliseconds. *)
Definition at_time (t : Z) (O : Outside) : Outside :=
  {| gw_readCreditLimit := @gw_readCreditLimit O; gw_readNextBorrowTime := @gw_readNextBorrowTime O;
     gw_giveCredit := @gw_giveCredit O; gw_createOffer := @gw_createOffer O; gw_previewLate := @gw_previewLate O;
     gw_readLoan := @gw_readLoan O; gw_readLoanFull := @gw_readLoanFull O; gw_readPremium := @gw_readPremium O;
     gw_readIsDefaulted := @gw_readIsDefaulted O; gw_chainTimestamp := @gw_chainTimestamp O;
     gw_verifyOpened := @gw_verifyOpened O; gw_verifyRepay := @gw_verifyRepay O; gw_accrueLate := @gw_accrueLate O;
     now_ms _ := t; kyc_name := @kyc_name O; kyc_createSession := @kyc_createSession O;
     kyc_getDecision := @kyc_getDecision O |}.

(** A day, in milliseconds. *)
Definition day : Z := 86400000.

(** Loans of the sample user, of 14 days. *)
Definition sample_loan (i start : Z) (s : LoanState) (tx : string) : Loan :=
  {| loan_id := i;
     terms := {| userId := 1; borrowerAddress := sample_wallet; principal := num_of_Z 1; amountDueAtOpen := num_of_Z 1;
                 tenorDays := 14; feeBps := num_of_Z 840; startAt := start; dueAt := start + 14 * day; openTxHash := Some tx |};
     state := s; late := no_snapshot; loan_createdAt := start |}.

Definition repaid_state (closed : Z) (tx : string) : LoanState :=
  {| status := REPAID_ON_TIME; amountPaid := num_of_Z 1; repaidOnTime := true; closedAt := Some closed;
     closeTxHash := Some tx; syncedByChain := false |}.

(** Two loans repaid on time, and one opened on day 30. *)
Definition third_loan_world : World :=
  set_loans {[ 1 := sample_loan 1 0 (repaid_state (5 * day) "r1") "a1";
               2 := sample_loan 2 (10 * day) (repaid_state (15 * day) "r2") "a2";
               3 := sample_loan 3 (30 * day) fresh_state "a3" ]}
    (set_users {[ 1 := set_score_and_limit 3 (num_of_Z 30000000) sample_user ]} sample_world).

Lemma third_loan_ledger : ledger_ok (w_loans third_loan_world).
Proof.
  assert (Hrows : map_Forall (fun i l => loan_id l = i /\ loan_ok l /\
      forallb (fun kv => (fst kv =? i) || negb (hash_conflict l (snd kv))) (map_to_list (w_loans third_loan_world)) = true)
      (w_loans third_loan_world)).
  { repeat (apply map_Forall_insert_2); [..|apply map_Forall_empty]; (split; [reflexivity|split; [|vm_compute; reflexivity]]);
      unfold loan_ok, is_repaid; cbn; (split_and!; [done| |]); try done; try (by intros [? [=]]);
      intros _; eexists; (split; [reflexivity|intros _; vm_compute; congruence]). }
  split_and!; [eapply map_Forall_impl; [exact Hrows|naive_solver]..|].
  intros i l Hl j l' Hj Hne. destruct (Hrows i l Hl) as (Hid & _ & Hb). rewrite List.forallb_forall in Hb.
  specialize (Hb (j, l')). cbn in Hb. destruct (Z.eqb_spec j i) as [->|]; [congruence|].
  cbn in Hb. apply negb_true_iff, Hb, list_elem_of_In, elem_of_map_to_list, Hj.
Qed.

Lemma third_loan_quiet : quiet third_loan_world.
Proof. split; [reflexivity|apply third_loan_ledger]. Qed.

(** The third loan is repaid on day 64, twenty days after its due date. *)
Definition late_close : ChainLoanClosedEvent :=
  {| cl_borrower := sample_wallet; cl_amountPaid := 12000000; cl_txHash := "r3"; cl_ledger := 900; cl_timestamp := 64 * 86400 |}.

Definition late_feed : ChainFeed := feed 1000 [] None (Some late_close).

Definition day64 : Outside := at_time (64 * day) (lending_with false confirmed).

Definition third_loan : Loan := default (sample_loan 3 0 fresh_state "a3") (w_loans third_loan_world !! 3).

Definition reconcile_third : result bool * World :=
  run (reconcileLoan (ENV := sample_env) (OUT := day64) (FEED := late_feed) third_loan sample_user 1000) third_loan_world.

Lemma reconcile_correct_witness :
  loan_status 3 (snd reconcile_third) = Some REPAID_LATE /\
  loan_settled (ENV := sample_env) third_loan sample_user 1000 third_loan_world (snd reconcile_third).
Proof.
  split; [vm_compute; reflexivity|].
  pose proof (reconcile_correct (ENV := sample_env) (OUT := day64) (FEED := late_feed) third_loan sample_user 1000
                third_loan_world third_loan_quiet) as H.
  assert (Hr : match fst reconcile_third with Ok b => b | Throw _ => false end = true) by (vm_compute; reflexivity).
  unfold reconcile_third in *. destruct (run _ third_loan_world) as [r w']. cbn [fst snd] in *.
  destruct H as [[H _]|[_ H]]; [|exact H]. by destruct r as [[]|].
Defined.

Lemma recalc_correct_witness :
  let w := snd reconcile_third in
  exists u, w_users w !! 1 = Some u /\
  let '(r, w') := run (recalcUser (ENV := sample_env) (OUT := day64) (FEED := late_feed) u true) w in
  recalculated (ENV := sample_env) u true (getStepForOnTimeLoans (on_time_count w 1)) w w' r.
Proof.
  exists (default sample_user (w_users (snd reconcile_third) !! 1)).
  pose proof (recalc_correct (ENV := sample_env) (OUT := day64) (FEED := late_feed)
    (default sample_user (w_users (snd reconcile_third) !! 1)) true (snd reconcile_third)) as H.
  assert (Hrow : exists u, w_users (snd reconcile_third) !! 1 = Some u /\ user_id u = 1 /\ has_wallet u = true /\ w_tx (snd reconcile_third) = NoTx).
  { assert (Hb : match w_users (snd reconcile_third) !! 1 with
                 | Some u => (user_id u =? 1) && has_wallet u && match w_tx (snd reconcile_third) with NoTx => true | _ => false end | None => false end = true)
      by (vm_compute; reflexivity).
    destruct (w_users (snd reconcile_third) !! 1) as [u|]; [|discriminate Hb].
    apply andb_prop in Hb as [Hb H3]. apply andb_prop in Hb as [H1 H2]. apply Z.eqb_eq in H1.
    exists u. by destruct (w_tx (snd reconcile_third)). }
  destruct Hrow as (u & Hu & Hid & Hw & Ht). rewrite Hu in H |- *. unfold from_option, id in H |- *.
  split; [reflexivity|]. rewrite Hid in H. exact (H Ht Hu Hw).
Defined.

(** *** The penalty for a default *)

Definition user_line (w : World) : option (option Z * bool) :=
  (fun u => (Entities.score (credit u), hadDefaultEver (credit u))) <$> w_users w !! 1.

(** The third loan is repaid through the backend, four days after the default. *)
Definition penalised : World :=
  snd (processRepayment (ENV := sample_env) (OUT := day64) (D := QDecimal) (JM := SampleMath) (sample_repay (Some "r3"%string)) third_loan_world).

Definition recalculated_line (w : World) : World :=
  snd (run (recalculateAllLimits (ENV := sample_env) (OUT := day64) (FEED := late_feed) (SCHED := in_order)) w).

(** The penalty for repaying after the default does not last: the request that
    records the repayment lowers the score from 3 to 1 and marks the user, and the
    next recalculation of the lines puts the score back to the ladder's 3. When it
    is chain-sync that finds the same repayment, the score stays at 3 and the user
    is not even marked. *)
Theorem default_penalty_undone :
  user_line third_loan_world = Some (Some 3, false) /\
  user_line penalised = Some (Some 1, true) /\
  user_line (recalculated_line penalised) = Some (Some 3, true) /\
  user_line (snd reconcile_third) = Some (Some 3, false).
Proof. split_and!; vm_compute; reflexivity. Qed.

(** *** The cap on renewals *)

Definition nth_wallet (i : Z) : string := ("wallet" +:+ String_of_int i)%string.

(** Thirty users with a score; the offer of the one the database returns first does not expire. *)
Definition thirty_users : World :=
  set_users (list_to_map ((fun i => (i, {| user_id := i; walletAddress := nth_wallet i; onboarding := onboarding sample_user;
    credit := credit (set_score_and_limit 1 (num_of_Z 10000000) sample_user); phone_columns := phone_columns sample_user;
    kyc := kyc sample_user |})) <$> (Z.of_nat <$> seq 1 30))) sample_world.

Definition expired_feed : ChainFeed :=
  {| gw_latestLedger _ := Ok 1000;
     gw_readUserRisk _ b := Ok (Some {| ur_score := 1; ur_limit := 10000000;
                                        ur_validUntil := if bool_decide (b = nth_wallet 23) then 0 else 1 |});
     gw_loanOpenedEvents _ _ _ := Ok []; gw_findLoanClosed _ _ _ _ := Ok None; subgraph_loansOriginated _ := Ok None |}.

(** The cap of 25 renewals per run is only checked between batches: with
    thirty users whose offers have expired but for one, a run renews 29. *)
Theorem renewal_cap_overshoot :
  accepted_lines (snd (run (renewExpiredOffers (ENV := sample_env) (OUT := day64) (FEED := expired_feed) (SCHED := in_turns))
    thirty_users)) = 29%nat.
Proof. vm_compute. reflexivity. Qed.
