(* ===== verification/Requests.v ===== *)
(** * The requests of the loan services, await by await

    [LoanVerification], [LoanService] and [LoanRepayment] give the effect of a
    request served alone. Here each request is the process it is in the code: it
    suspends at every await, so that other requests and jobs run in between. A
    database transaction is one operation; reads started together ([Promise.all])
    are answered one by one, in the order they are written; reading the clock counts
    as an operation. [implements] relates the two: served alone, the process has exactly the
    effect of the service's method. *)

From stdpp Require Import base tactics list gmap strings numbers.
From Stdlib Require Import Lia ZArith.
From S2P Require Import Prelude JsString JsNum AmountUnits DecimalLib CreditPolicy LoanCalc Strkey Entities Gateway Store Async Kyc EarlyAccess LoanVerification LoanService LoanRepayment.

Local Open Scope Z_scope.

(** [if (b) throw e] *)
Definition pguard {W} (b : bool) (e : exn) : proc W unit := if b then Raise e else Return tt.

Section Requests.
  Context `{ENV : Env} `{DB : Database} `{OUT : Outside} `{D : DecimalJs} `{JM : JsMath}.

(** ** Reading *)

Definition getTieredPricingContext_async (i : Z) : proc World TieredContext :=
  onTimeLoans ← await (count_loans (on_time_of i));
  rawLateLoans ← await (count_loans (late_of i));
  totalRepaid ← await (sum_paid (of_user i));
  userRow ← await (find_user (fun u => bool_decide (user_id u = i)));
  let hadDefault := match userRow with Some u => hadDefaultEver (credit u) | None => false end in
  Return {| tc_onTimeLoans := onTimeLoans;
            tc_walletQuality := wallet_quality_of (userRow ≫= fun u => walletQuality (credit u));
            tc_totalRepaidUsd := totalRepaid;
            tc_lateLoans := if hadDefault then rawLateLoans else 0 |}.

Definition pricing_context_async (u : User) : proc World TieredContext :=
  tc ← getTieredPricingContext_async (user_id u);
  Return {| tc_onTimeLoans := tc_onTimeLoans tc;
            tc_walletQuality := wallet_quality_of (walletQuality (credit u));
            tc_totalRepaidUsd := tc_totalRepaidUsd tc; tc_lateLoans := tc_lateLoans tc |}.

Definition getLoanTerms_async (walletAddress amountHuman : string) : proc World GetLoanTermsResponse :=
  wallet ← of_result (normalizeWallet walletAddress);
  user ← await (find_user (by_wallet wallet));
  user ← of_result (result_of_option (NotFoundException "User not found") user);
  let sc := Entities.score (credit user) in
  let pDefault := toNum (riskPDefault (credit user)) in
  principal ← of_result (parseAmountHuman amountHuman);
  tc ← pricing_context_async user;
  let tiered := getTieredMonthlyRate pDefault (tc_onTimeLoans tc) (tc_walletQuality tc)
                  (tc_totalRepaidUsd tc) (tc_lateLoans tc) in
  terms ← of_result (mapM (term_option sc pDefault tc (tier tiered) principal) TERM_OPTIONS);
  Return {| gt_walletAddress := wallet; gt_score := sc; gt_baseAmount := formatAmount principal;
            gt_terms := terms; gt_isPreferentialRate := nltb (monthlyRate tiered) (lit 28 2);
            gt_adjustedLimitUsdc := limitUsdc (getStepForScore (default 1 sc));
            gt_pricingTier := tier tiered |}.

(** ** Borrowing *)

Definition assertNoBorrowCooldown_async (borrower : string) : proc World unit :=
  match gw_readNextBorrowTime with
  | None => Return tt
  | Some read =>
      nextAt ← proc_try (fun _ => Return None)
                 (nextAt ← await (outside (fun t => read t borrower) (fun _ => CReadNextBorrowTime borrower));
                  Return (Some nextAt));
      match nextAt with
      | None => Return tt
      | Some nextAt =>
          if nextAt =? 0 then Return tt
          else
            ts ← await getChainBlockTimestamp;
            now ← match ts with
                  | Some t => Return t
                  | None => ms ← await date_now; Return (ms / 1000)
                  end;
            match borrowCooldownError nextAt now with Some e => Raise e | None => Return tt end
      end
  end.

(** The late-fee rate is sent without waiting, in the step of the offer's answer. *)
Definition borrow_user_async (amountHuman borrower : string) (tenor : Z) (user : User) : proc World LoanOffer :=
  _ ← pguard (phone_missing user) (BadRequestException "PHONE_VERIFICATION_REQUIRED");
  _ ← of_result (assertKycGate env_kycGate user);
  _ ← assertNoBorrowCooldown_async borrower;
  let scoreNum := Entities.score (credit user) in
  let pDefaultNum := toNum (riskPDefault (credit user)) in
  let ladder := limitUsdc (getStepForScore (default 1 scoreNum)) in
  limit ← proc_try (fun _ => Return (dec_of_int ladder))
            (units ← await (readCreditLimitOnChain borrower); Return (effective_limit ladder units));
  requested ← of_result (parseAmountHuman amountHuman);
  _ ← pguard (dec_gt requested limit) (BadRequestException "Amount exceeds your credit limit");
  tc ← pricing_context_async user;
  fee ← of_result (getFeeBpsForTerm tenor scoreNum pDefaultNum (Some tc));
  await (offer_loan amountHuman borrower tenor fee).

Definition borrow_async (dto : BorrowLoanDto) : proc World LoanOffer :=
  match bd_tenorDays dto with
  | None => Raise (BadRequestException "Missing amountHuman, receiver or tenorDays")
  | Some tenor =>
      _ ← pguard (bool_decide (bd_amountHuman dto = ""%string) || bool_decide (bd_receiver dto = ""%string))
            (BadRequestException "Missing amountHuman, receiver or tenorDays");
      borrower ← of_result (normalizeWallet (bd_receiver dto));
      _ ← pguard (tenor <=? 0) (BadRequestException "Invalid tenorDays");
      _ ← pguard (negb (bool_decide (tenor ∈ TERM_OPTIONS))) (BadRequestException "Invalid tenorDays");
      user ← await (find_user (by_wallet borrower));
      match user with
      | None => Raise (NotFoundException "User not found")
      | Some user => borrow_user_async (bd_amountHuman dto) borrower tenor user
      end
  end.

(** ** Recording an opening *)

Definition assertLoanOpenedTxValid_async (tx wallet : string) : proc World unit :=
  matched ← await (verifyLoanOpenedByTxHash tx wallet);
  pguard (negb matched) (BadRequestException "txHash is not a LoanOpened event for this wallet").

Definition inform_opened_user_async (user : User) (wallet : string) (dto : InformLoanDto) : proc World Z :=
  let tenor := il_tenorDays dto in
  _ ← pguard (tenor <=? 0) (BadRequestException "Invalid tenorDays");
  _ ← pguard (negb (bool_decide (tenor ∈ TERM_OPTIONS))) (BadRequestException "Invalid tenorDays");
  existing ← await (find_loan (opened_by (il_txHash dto)) None);
  match existing with
  | Some l => Return (loan_id l)
  | None =>
      _ ← assertLoanOpenedTxValid_async (il_txHash dto) wallet;
      principalDec ← of_result (parseAmountHuman (il_amountHuman dto));
      tc ← pricing_context_async user;
      fee ← of_result (getFeeBpsForTerm tenor (Entities.score (credit user)) (toNum (riskPDefault (credit user))) (Some tc));
      let feeDec := dec_div (dec_mul principalDec (dec_of_num fee)) (dec_of_int 10000) in
      let dueNum := Number_of_string (formatAmount (dec_plus principalDec feeDec)) in
      loan ← await (transaction (open_loan_tx user wallet dto (Number_of_string (formatAmount principalDec)) dueNum fee));
      Return (loan_id loan)
  end.

Definition informLoanOpened_async (dto : InformLoanDto) : proc World Z :=
  wallet ← of_result (normalizeWallet (il_walletAddress dto));
  user ← await (find_user (by_wallet wallet));
  match user with
  | None => Raise (NotFoundException "User not found")
  | Some user => inform_opened_user_async user wallet dto
  end.

(** ** Repayments *)

Definition preflight_reads_async (wallet : string)
  : proc World (option OnChainLoanFull * option Premium * option Z * option bool * option Z) :=
  loan ← settle (await (readLoanFull wallet));
  premium ← settle (await (readPremium wallet));
  previewLate ← settle (await (previewLoanWithLate wallet));
  isDefaulted ← settle (await (readIsDefaulted wallet));
  nowChain ← settle (await getChainBlockTimestamp);
  of_result (loan ← loan; premium ← premium; previewLate ← previewLate; isDefaulted ← isDefaulted;
             nowChain ← nowChain; mret (loan, premium, previewLate, isDefaulted, nowChain)).

Definition preflight_loan_async (wallet : string) (force : bool) (loan : OnChainLoanFull) (premium : option Premium)
    (previewLate : option Z) (isDefaulted : option bool) (nowChain : Z) : proc World PreflightPayload :=
  let dueAt := f_due loan in
  let lateStart := dueAt + f_gracePeriod loan in
  let past := lateStart <? nowChain in
  let rate := match premium with Some p => premium_lateRatePerSecWad p | None => 0 end in
  let skipped := accrue_decision force past rate in
  let called := negb (bool_decide (is_Some skipped)) in
  _ ← (if called then proc_try (fun _ => Raise (ServiceUnavailableException "accrueLate failed")) (await (accrueLate wallet))
       else Return tt);
  loanAfter ← (if called then await (readLoanFull wallet) else Return (Some loan));
  let accrued := match loanAfter with Some l => f_amountDue l | None => f_amountDue loan end in
  serverNow ← await date_now;
  Return {| pf_wallet := wallet;
            pf_principal := f_principal loan;
            pf_storedAmountDueBefore := f_amountDue loan;
            pf_accruedAmountDue := accrued;
            pf_lastAccruedTs := last_accrued called past rate accrued nowChain lateStart previewLate;
            pf_ratePerSecWad := rate;
            pf_baseFeeBps := f_feeBps loan;
            pf_dueAt := dueAt;
            pf_gracePeriod := f_gracePeriod loan;
            pf_lateStart := lateStart;
            pf_serverNowUnix := serverNow / 1000;
            pf_chainNowUnix := nowChain;
            pf_perDayDelta :=
              if past then (Number_of_bigint accrued / num_of_Z (TOKEN_UNIT env_decimals)
                            * ratePerSecNum rate * num_of_Z 86400)%num
              else num_of_Z 0;
            pf_daysLate := if past then (num_of_Z (nowChain - lateStart) / num_of_Z 86400)%num else num_of_Z 0;
            pf_daysToDefault := nmax (num_of_Z 0) (num_of_Z (lateStart + 15 * 86400 - nowChain) / num_of_Z 86400)%num;
            pf_isDefaulted := default false isDefaulted;
            pf_accrueLateCalled := called;
            pf_accrueLateSkippedReason := skipped |}.

Definition preflightRepayment_async (walletAddress : string) (force : bool) : proc World PreflightPayload :=
  wallet ← of_result (normalizeWallet walletAddress);
  '(loan, premium, previewLate, isDefaulted, nowChain) ← preflight_reads_async wallet;
  match loan with
  | None => Raise (ServiceUnavailableException "Could not read loan state from chain - RPC failure")
  | Some loan =>
      if negb (f_active loan) then Raise (NotFoundException "No active loan")
      else match nowChain with
           | None => Raise (ServiceUnavailableException "Could not read chain block timestamp")
           | Some nowChain => preflight_loan_async wallet force loan premium previewLate isDefaulted nowChain
           end
  end.

Definition verify_repay_tx_async (wallet : string) (txHash : option string) : proc World (option (option Z)) :=
  match txHash with
  | Some tx =>
      if bool_decide (tx = ""%string) then Return None
      else
        r ← await (verifyRepayByTxHash tx wallet);
        if verified r then Return (Some (paidUnits r))
        else match reason r with
             | Some reverted => Raise (BadRequestException "Repay transaction reverted on-chain.")
             | Some no_match => Raise (BadRequestException "txHash does not match a repay for this wallet.")
             | _ => Return None
             end
  | None => Return None
  end.

Definition verify_repayment_async (wallet : string) (txHash : option string) : proc World (option Z) :=
  byTx ← verify_repay_tx_async wallet txHash;
  match byTx with
  | Some paid => Return paid
  | None =>
      loanStillActive ← proc_try (fun _ => Raise (ServiceUnavailableException "Could not verify on-chain loan state. Please try again."))
        (l ← await (readLoanOnChain wallet); Return (match l with Some l => active l | None => true end));
      _ ← pguard loanStillActive
            (ServiceUnavailableException "Your repayment transaction has not been confirmed on-chain yet.");
      Return None
  end.

Definition push_line_async (wallet : string) (newScore : Z) (limit : num) (user : User) : proc World User :=
  answer ← settle (units ← of_result (BigInt_of_num limit); await (giveCreditScoreAndLimit wallet newScore units));
  match answer with
  | Ok code =>
      if code =? 200 then
        let user := set_score_and_limit newScore limit user in
        _ ← settle (await (save_user user)); Return user
      else Return user
  | Throw _ => Return user
  end.

Definition update_line_async (wallet : string) (user : User) (onTime postDefault : bool) (onTimeLoanCount : Z) : proc World User :=
  if onTime then
    let newScore := on_time_score user onTimeLoanCount in
    push_line_async wallet newScore (nmax (current_limit user) (ladder_limit_num newScore)) (raise_xp onTimeLoanCount user)
  else if postDefault then
    let newScore := Z.max 1 (current_score user - 2) in
    push_line_async wallet newScore (ladder_limit_num newScore) user
  else
    let newScore := current_score user in
    _ ← settle (units ← of_result (BigInt_of_num (nmax (current_limit user) (ladder_limit_num newScore)));
                await (giveCreditScoreAndLimit wallet newScore units));
    Return user.

Definition finish_repayment_async (wallet : string) (initialScore : Z) (o : RepaymentOutcome) : proc World RepaymentResponse :=
  onTimeLoanCount ← await (count_loans (repaid_on_time_of (user_id (ro_user o))));
  user ← update_line_async wallet (ro_user o) (ro_onTime o) (ro_postDefault o) onTimeLoanCount;
  freshUser ← await (find_user (fun u => bool_decide (user_id u = user_id user)));
  let pick {A} (f : CreditColumns -> option A) : option A :=
    match freshUser ≫= (f ∘ credit) with Some a => Some a | None => f (credit user) end in
  let finalScore := default initialScore (freshUser ≫= (Entities.score ∘ credit)) in
  Return (Repaid wallet (loan_id (ro_loan o)) (pick Entities.score) (toNum (pick creditLimit))
            (match freshUser with Some f => xp (credit f) | None => xp (credit user) end)
            (ro_onTime o) (reputation_gain (ro_onTime o) onTimeLoanCount initialScore finalScore)).

Definition process_user_async (wallet : string) (user : User) (dto : InformRepaymentDto) : proc World RepaymentResponse :=
  let initialScore := current_score user in
  chainPaidUnits ← verify_repayment_async wallet (ir_txHash dto);
  _ ← settle (await (previewLoanWithLate wallet));
  existing ← match ir_txHash dto with
             | Some tx => if bool_decide (tx = ""%string) then Return None else await (find_loan (closed_by tx) None)
             | None => Return None
             end;
  match existing with
  | Some l => Return (AlreadyProcessed l (repaidOnTime (state l)) (amountPaid (state l)))
  | None =>
      o ← await (transaction (repay_tx user chainPaidUnits dto));
      finish_repayment_async wallet initialScore o
  end.

Definition processRepayment_async (dto : InformRepaymentDto) : proc World RepaymentResponse :=
  wallet ← of_result (normalizeWallet (ir_walletAddress dto));
  user ← await (find_user (by_wallet wallet));
  match user with
  | None => Raise (NotFoundException "User not found")
  | Some user => process_user_async wallet user dto
  end.
(** ** Enabling the credit line *)

Definition settle_platform_async (user : User) (platformNorm : option string) : proc World (User * string) :=
  user ← match platform (onboarding user), platformNorm with
         | None, Some p => _ ← await (update_user (user_id user) (set_platform p)); Return (set_platform p user)
         | Some ""%string, Some p => _ ← await (update_user (user_id user) (set_platform p)); Return (set_platform p user)
         | _, _ => Return user
         end;
  let effectivePlatform :=
    match normalizePlatform (platform (onboarding user)) with
    | Some p => p
    | None => default "lemon"%string platformNorm
    end in
  user ← (if negb (bool_decide (platform (onboarding user) = Some effectivePlatform)) then
            _ ← await (update_user (user_id user) (set_platform effectivePlatform));
            Return (set_platform effectivePlatform user)
          else Return user);
  Return (user, effectivePlatform).

Definition verify_existing_async (wallet : string) (user : User) (sc : Z) (limit : num) : proc World VerifyResponse :=
  onChainLimit ← await (readCreditLimitOnChain wallet);
  if 0 <? onChainLimit then
    Return {| vr_alreadyHadCredit := Some true; vr_refreshedOnChain := None; vr_id := user_id user;
              vr_walletAddress := walletAddress user; vr_score := Some sc; vr_creditLimit := Some limit |}
  else
    _ ← proc_try (fun _ => Raise (BadRequestException "Failed to refresh on-chain credit line"))
          (await (giveCreditScoreAndLimit wallet sc (ladder_limit_units sc)));
    Return {| vr_alreadyHadCredit := Some true; vr_refreshedOnChain := Some true; vr_id := user_id user;
              vr_walletAddress := walletAddress user; vr_score := Some sc; vr_creditLimit := Some limit |}.

Definition verify_first_time_async (wallet : string) (user : User) : proc World VerifyResponse :=
  result ← proc_try (fun _ => Raise (BadRequestException "Failed to set on-chain credit line"))
             (await (giveCreditScoreAndLimit wallet DEFAULT_SCORE default_limit_units));
  _ ← pguard (negb (result =? 200)) (BadRequestException "Setting credit line failed");
  _ ← await (update_user (user_id user)
               (set_score_and_limit DEFAULT_SCORE (db_decimal (num_of_Z default_limit_units))));
  fresh ← await (find_user (by_wallet wallet));
  match fresh with
  | None => Raise (BadRequestException "Identity verification failed")
  | Some fresh =>
      Return {| vr_alreadyHadCredit := None; vr_refreshedOnChain := None; vr_id := user_id fresh;
                vr_walletAddress := walletAddress fresh; vr_score := Entities.score (credit fresh);
                vr_creditLimit := toNum (creditLimit (credit fresh)) |}
  end.

(** The guard on the Self verification and the early-user test make one query each. *)
Definition verify_user_async (wallet : string) (user : User) (platformNorm : option string) : proc World VerifyResponse :=
  '(user, effectivePlatform) ← settle_platform_async user platformNorm;
  _ ← pguard (negb (bool_decide (is_Some (termsAcceptedAt (onboarding user))))
              && negb (bool_decide (effectivePlatform = "farcaster"%string)))
        (ForbiddenException "Terms not accepted");
  _ ← await (ensureSelfVerificationForPlatform user);
  waitlistLimit ← await (getUserUntilWaitlist (Some effectivePlatform));
  canAccessCredit ← (if waitlistLimit <=? 0 then Return true else await (isEarlyUser user (Some effectivePlatform)));
  _ ← pguard (negb canAccessCredit) (ForbiddenException "Early access cupo completo");
  match credit_line user with
  | Some (sc, limit) => verify_existing_async wallet user sc limit
  | None => verify_first_time_async wallet user
  end.

Definition verify_async (dto : VerifyUserDto) : proc World VerifyResponse :=
  wallet ← of_result (normalizeWallet (vd_walletAddress dto));
  let platformNorm := normalizePlatform (vd_platform dto) in
  user ← await (find_user (by_wallet wallet));
  match user with
  | None => Raise (NotFoundException "User not found")
  | Some user =>
      _ ← pguard (negb (filled (email (onboarding user)))) (ForbiddenException "email not verified");
      _ ← pguard (negb (filled (workType (onboarding user)))) (ForbiddenException "workType missing");
      verify_user_async wallet user platformNorm
  end.
End Requests.

(** ** Served alone *)

(** The process has the effect of the method. *)
Definition implements {W A} (p : proc W A) (m : M W A) : Prop := forall w, run p w = m w.

Section Rules.
  Context {W : Type}.

Lemma implements_await {A} (m : M W A) : implements (await m) m.
Proof. intros w. apply run_await. Qed.

Lemma implements_ret {A} (a : A) : implements (W := W) (Return a) (mret a).
Proof. done. Qed.

Lemma implements_throw {A} e : implements (W := W) (A := A) (Raise e) (throw e).
Proof. done. Qed.

Lemma implements_result {A} (r : result A) : implements (W := W) (of_result r) (lift r).
Proof. by destruct r. Qed.

Lemma implements_guard b e : implements (W := W) (pguard b e) (guard_throw b e).
Proof. by destruct b. Qed.

Lemma implements_bind {A B} p m (k : A -> proc W B) f :
  implements p m -> (forall a, implements (k a) (f a)) -> implements (p ≫= k) (m ≫= f).
Proof. intros Hp Hk w. rewrite run_bind, Hp. cbv [mbind M_bind]. destruct (m w) as [[a|e] w']; [apply Hk|done]. Qed.

Lemma implements_try {A} h h' (p : proc W A) m :
  implements p m -> (forall e, implements (h e) (h' e)) -> implements (proc_try h p) (try_catch m h').
Proof. intros Hp Hh w. rewrite proc_try_run, Hp. unfold try_catch. destruct (m w) as [[a|e] w']; [done|apply Hh]. Qed.

Lemma implements_settle {A} (p : proc W A) m : implements p m -> implements (settle p) (attempt m).
Proof. intros Hp w. by rewrite run_settle, Hp. Qed.
End Rules.

Create HintDb requests.
#[export] Hint Resolve implements_await implements_ret implements_throw implements_result implements_guard : requests.

(** Follows the shape that a method and its process share. *)
Ltac solve_implements :=
  repeat first
    [ solve [eauto with requests nocore]
    | apply implements_bind; [|intros ?]
    | apply implements_try; [|intros ?]
    | apply implements_settle
    | progress case_scrut ].


Section Alone.
  Context `{ENV : Env} `{DB : Database} `{OUT : Outside} `{D : DecimalJs} `{JM : JsMath}.

Lemma pricing_implements u : implements (pricing_context_async u) (pricing_context u).
Proof. unfold pricing_context_async, pricing_context, getTieredPricingContext_async, getTieredPricingContext. solve_implements. Qed.
Hint Resolve pricing_implements : requests.

Lemma terms_implements a amount : implements (getLoanTerms_async a amount) (getLoanTerms a amount).
Proof. unfold getLoanTerms_async, getLoanTerms. solve_implements. Qed.

Lemma cooldown_implements b : implements (assertNoBorrowCooldown_async b) (assertNoBorrowCooldown b).
Proof. unfold assertNoBorrowCooldown_async, assertNoBorrowCooldown. solve_implements. Qed.
Hint Resolve cooldown_implements : requests.

Lemma borrow_implements dto : implements (borrow_async dto) (borrow dto).
Proof.
  unfold borrow_async, borrow, borrow_user_async, borrow_user, read_effective_limit. solve_implements.
Qed.

Lemma opening_implements dto : implements (informLoanOpened_async dto) (informLoanOpened dto).
Proof.
  unfold informLoanOpened_async, informLoanOpened, inform_opened_user_async, inform_opened_user,
    assertLoanOpenedTxValid_async, assertLoanOpenedTxValid.
  solve_implements.
Qed.

Lemma preflight_implements a force : implements (preflightRepayment_async a force) (preflightRepayment a force).
Proof.
  unfold preflightRepayment_async, preflightRepayment, preflight_reads_async, preflight_reads,
    preflight_loan_async, preflight_loan, when.
  solve_implements.
Qed.

Lemma verify_repayment_implements a tx : implements (verify_repayment_async a tx) (verify_repayment a tx).
Proof.
  unfold verify_repayment_async, verify_repayment, verify_repay_tx_async, verify_repay_tx. solve_implements.
Qed.
Hint Resolve verify_repayment_implements : requests.

Lemma update_line_implements a u onTime post n : implements (update_line_async a u onTime post n) (update_line a u onTime post n).
Proof.
  assert (forall s l u, implements (push_line_async a s l u) (push_line a s l u))
    by (intros; unfold push_line_async, push_line; solve_implements).
  unfold update_line_async, update_line. solve_implements.
Qed.
Hint Resolve update_line_implements : requests.

Lemma repayment_implements dto : implements (processRepayment_async dto) (processRepayment dto).
Proof.
  unfold processRepayment_async, processRepayment, process_user_async, process_user, finish_repayment_async, finish_repayment.
  solve_implements.
Qed.

Lemma settle_platform_implements u p : implements (settle_platform_async u p) (settle_platform u p).
Proof. unfold settle_platform_async, settle_platform. solve_implements. Qed.
Hint Resolve settle_platform_implements : requests.

Lemma verify_implements dto : implements (verify_async dto) (verify dto).
Proof.
  unfold verify_async, verify, verify_user_async, verify_user, verify_existing_async, verify_existing,
    verify_first_time_async, verify_first_time.
  solve_implements.
Qed.
End Alone.
