(* ===== verification/Lifecycle.v ===== *)
(** * The backend's requests and jobs over the loan table

    The requests of the users and the synchronisation jobs run over the same
    tables. Each interleaves with everything else at each of its awaits ([Requests],
    [Kyc], [ChainSync]); a database transaction is one step. The properties here
    hold for every interleaving of every list of them: the loan table changes by
    ledger steps only, and so implements the book of [Ledger.Spec]. *)

From stdpp Require Import base tactics list gmap strings numbers.
From Stdlib Require Import Lia ZArith.
From S2P Require Import Prelude JsString JsNum AmountUnits DecimalLib CreditPolicy LoanCalc Strkey Entities Gateway Store Async Kyc EarlyAccess LoanVerification LoanService LoanRepayment Ledger ChainSync ChainSyncProps ChainSyncCredit Requests.

Local Open Scope Z_scope.

(** ** Composing the operations of a step *)

Section Moves.
  Context `{DB : Database} {LAWS : DatabaseLaws DB}.

Lemma moves_ret {A} (a : A) : moves (mret a).
Proof. intros w [Htx _]. split; [done|constructor]. Qed.

Lemma moves_throw {A} e : moves (throw (A := A) e).
Proof. intros w [Htx _]. split; [done|constructor]. Qed.

Lemma moves_lift {A} (r : result A) : moves (lift r).
Proof. intros w [Htx _]. split; [done|constructor]. Qed.

Lemma moves_guard b e : moves (guard_throw b e).
Proof. destruct b; [apply moves_throw|apply moves_ret]. Qed.

Lemma moves_quiet {A} (m : M World A) w : moves m -> quiet w -> quiet (snd (m w)).
Proof. intros Hm Hq. destruct (Hm w Hq) as [? H]. split; [done|]. eapply ledger_steps_ok; [exact H|apply Hq]. Qed.

Lemma moves_bind {A B} (m : M World A) (k : A -> M World B) : moves m -> (forall a, moves (k a)) -> moves (m ≫= k).
Proof.
  intros Hm Hk w Hq. pose proof (Hm w Hq) as [Ht Hs]. pose proof (moves_quiet m w Hm Hq) as Hq'.
  cbv [mbind M_bind]. destruct (m w) as [[a|e] w']; [|done]. cbn [snd] in *.
  destruct (Hk a w' Hq') as [? ?]. split; [done|by etrans].
Qed.

Lemma moves_try {A} (m : M World A) h : moves m -> (forall e, moves (h e)) -> moves (try_catch m h).
Proof.
  intros Hm Hh w Hq. pose proof (Hm w Hq) as [Ht Hs]. pose proof (moves_quiet m w Hm Hq) as Hq'.
  unfold try_catch. destruct (m w) as [[a|e] w']; [done|]. cbn [snd] in *.
  destruct (Hh e w' Hq') as [? ?]. split; [done|by etrans].
Qed.

Lemma moves_reads {A} (m : M World A) : only_reads m -> moves m.
Proof. intros H. by apply loans_kept_moves, loans_kept_reads. Qed.

(** The body of a transaction, when it returns. *)
Definition tx_moves {A} (m : M World A) : Prop :=
  forall w, w_tx w = TxActive -> ledger_ok (w_loans w) ->
    match m w with (Ok _, w') => w_tx w' = TxActive /\ ledger_moves w w' | (Throw _, _) => True end.

Lemma moves_transaction {A} (body : M World A) : tx_moves body -> moves (transaction body).
Proof.
  intros Hb w [Htx Hok]. pose proof (Hb (set_tx TxActive w) eq_refl Hok) as H.
  rewrite transaction_run; [|done|].
  - destruct (body _) as [[a|e] w']; cbn [snd]; (split; [done|]); [apply H|constructor].
  - intros a w' Ha. rewrite Ha in H. apply H.
Qed.
End Moves.

Lemma keeps_pguard `{DB : Database} b e : keeps (pguard b e).
Proof. by destruct b. Qed.

#[export] Hint Resolve keeps_pguard moves_ret moves_throw moves_lift moves_guard : keeps.

Ltac solve_moves :=
  repeat first
    [ solve [eauto with keeps nocore]
    | apply moves_bind; [|intros ?]
    | apply moves_try; [|intros ?]
    | apply moves_attempt
    | progress case_scrut ].

(** ** The requests *)

Section Requests.
  Context `{ENV : Env} `{DB : Database} `{OUT : Outside} `{D : DecimalJs} `{JM : JsMath} {LAWS : DatabaseLaws DB}.

Hint Extern 1 (moves (sum_paid _)) => apply moves_query : keeps.
Hint Extern 1 (moves (count_users _)) => apply moves_query : keeps.
Hint Extern 1 (moves (find_self _)) => apply moves_query : keeps.
Hint Extern 1 (moves (find_loans_latest _ _ _)) => apply moves_query : keeps.

(** *** Repayments *)

Lemma close_edge now paid tx l :
  closeTxHash (state l) = None -> loan_edge l (stored_loan (close_loan now paid tx l)).
Proof.
  intros Hc. split; [split_and!; try done; unfold stored_terms; cbn; by rewrite !db_decimal_idemp|]. right.
  unfold receipt, loan_ok, is_repaid. rewrite Hc. cbn.
  destruct (Z.leb_spec (now - dueAt (terms l)) REPAID_ON_TIME_GRACE_MS); cbn; split_and!; try done; intros _; eexists; (split; [done|done]).
Qed.

Lemma tx_moves_repay user paid dto : tx_moves (repay_tx user paid dto).
Proof.
  intros w Htx Hok. unfold repay_tx. cbv [mbind M_bind]. unfold find_loan. rewrite query_active by done.
  destruct (db_find_loan w _ _) as [[l|]|e] eqn:El; [|done..].
  apply find_loan_some in El as (j & Hl & Ha). pose proof (proj1 Hok _ _ Hl) as Hj. cbn in Hj. subst j.
  cbv [lift]. destruct (amount_paid _ _) as [p|e]; [|done]. cbv [date_now outside].
  set (now := now_ms _). set (w1 := log_call _ w). set (l' := close_loan now p (ir_txHash dto) l).
  unfold save_loan. rewrite statement_active by done.
  destruct (db_loan_error w1 l') as [e|] eqn:Ee; [done|]. cbn [fst snd]. set (w2 := set_loans _ w1).
  assert (Hm : ledger_moves w w2).
  { eapply steps_step; [|constructor]. apply (step_row (w_loans w) l (stored_loan l')); [done| |].
    - apply close_edge. unfold active_of in Ha. bool_to_prop. destruct (closeTxHash (state l)); [|done].
      match goal with H : ~ is_Some _ |- _ => exfalso; apply H; eauto end.
    - exact (accepted_no_conflict w1 l' Ee). }
  destruct (_ && _); [|done]. unfold save_user. rewrite statement_active by done.
  by destruct (db_user_error w2 _).
Qed.

Lemma keeps_push_line wallet s lim u : keeps (push_line_async wallet s lim u).
Proof. unfold push_line_async. solve_keeps. Qed.

Lemma keeps_update_line wallet u onTime post n : keeps (update_line_async wallet u onTime post n).
Proof. pose proof keeps_push_line. unfold update_line_async. solve_keeps. Qed.

Lemma keeps_verify_repayment wallet tx : keeps (verify_repayment_async wallet tx).
Proof. unfold verify_repayment_async, verify_repay_tx_async. solve_keeps. Qed.

Lemma keeps_repayment dto : keeps (processRepayment_async dto).
Proof.
  pose proof keeps_verify_repayment. pose proof keeps_update_line.
  assert (forall u p d, moves (transaction (repay_tx u p d))) by (intros; apply moves_transaction, tx_moves_repay).
  unfold processRepayment_async, process_user_async, finish_repayment_async. solve_keeps.
Qed.

(** *** Openings *)

Lemma autoclose_edge now i l : orphan_of i l = true -> loan_edge l (stored_loan (autoclose now l)).
Proof.
  intros Ho. unfold orphan_of in Ho. bool_to_prop. split; [split_and!; try done; unfold stored_terms; cbn; by rewrite !db_decimal_idemp|].
  right. unfold receipt, loan_ok, is_repaid. destruct (closeTxHash (state l)) eqn:Ec.
  { match goal with H : ~ is_Some (Some _) |- _ => exfalso; apply H; eauto end. }
  cbn. split_and!; try done. intros _. eexists. by split.
Qed.

Lemma closed_no_orphan i now l : orphan_of i (stored_loan (autoclose now l)) = false.
Proof. unfold orphan_of. cbn. by rewrite andb_false_r. Qed.

(** Each orphan is closed by one step; closing it again rewrites the same row. *)
Lemma save_orphans_moves now i ls w :
  w_tx w = TxActive -> ledger_ok (w_loans w) ->
  (forall l, l ∈ ls -> orphan_of i l = true /\
     (w_loans w !! loan_id l = Some l \/ w_loans w !! loan_id l = Some (stored_loan (autoclose now l)))) ->
  match save_loans (map (autoclose now) ls) w with
  | (Ok _, w') => w_tx w' = TxActive /\ ledger_moves w w'
  | (Throw _, _) => True
  end.
Proof.
  revert w. induction ls as [|l ls IH]; intros w Htx Hok Hls; [split; [done|constructor]|].
  cbn [map save_loans]. cbv [mbind M_bind]. unfold save_loan. rewrite statement_active by done.
  destruct (db_loan_error w (autoclose now l)) as [e|] eqn:Ee; [done|]. cbn [fst snd].
  set (w1 := set_loans _ w). destruct (Hls l ltac:(left)) as [Ho Hrow].
  assert (Hm : ledger_moves w w1).
  { unfold ledger_moves, w1. cbn [w_loans set_loans autoclose with_state loan_id]. destruct Hrow as [Hrow|Hrow].
    - eapply steps_step; [|constructor]. apply step_row; [done|by eapply autoclose_edge|exact (accepted_no_conflict w _ Ee)].
    - rewrite insert_id by done. constructor. }
  specialize (IH w1 Htx (ledger_steps_ok _ _ Hm Hok)).
  destruct (save_loans _ w1) as [[[]|e] w'] eqn:Es; [|done].
  destruct IH as [? ?].
  - intros l0 Hl0. destruct (Hls l0 ltac:(by right)) as [Ho0 Hr0]. split; [done|].
    unfold w1. cbn [w_loans set_loans autoclose with_state loan_id].
    destruct (decide (loan_id l0 = loan_id l)) as [E|E]; [|by rewrite lookup_insert_ne].
    rewrite E, lookup_insert_eq. right. rewrite E in Hr0.
    destruct Hrow as [Hrow|Hrow], Hr0 as [Hr0|Hr0]; rewrite Hrow in Hr0; apply (inj Some) in Hr0.
    + by rewrite Hr0.
    + rewrite Hr0, closed_no_orphan in Ho. done.
    + rewrite <- Hr0, closed_no_orphan in Ho0. done.
    + by rewrite Hr0.
  - split; [done|by etrans].
Qed.

Lemma tx_moves_open user wallet dto p due fee : tx_moves (open_loan_tx user wallet dto p due fee).
Proof.
  intros w Htx Hok. unfold open_loan_tx. cbv [mbind M_bind]. unfold find_loan at 1. rewrite query_active by done.
  destruct (db_find_loan w _ None) as [[l|]|e]; [split; [done|constructor]| |done].
  unfold find_loan at 1. rewrite query_active by done.
  destruct (db_find_loan w _ None) as [[l|]|e]; [split; [done|constructor]| |done].
  unfold find_loans. rewrite query_active by done. destruct (db_find_loans w _) as [orphans|e] eqn:E3; [|done].
  set (closing := match orphans with [] => _ | _ => _ end).
  assert (Hclose : match closing w with (Ok _, w') => w_tx w' = TxActive /\ ledger_moves w w' | (Throw _, _) => True end).
  { unfold closing. destruct orphans as [|o os]; [split; [done|constructor]|]. cbv [date_now outside].
    set (w1 := log_call _ w). apply (save_orphans_moves _ (user_id user) (o :: os) w1); [done..|].
    intros l Hl. apply (find_loans_spec _ _ _ l E3) in Hl as (j & Hj & Ho).
    pose proof (proj1 Hok _ _ Hj) as Hid. cbn in Hid. subst j. split; [done|by left]. }
  destruct (closing w) as [[[]|e] w1]; [|done]. destruct Hclose as [Htx1 Hm1].
  cbv [date_now outside]. set (start := now_ms _). set (w2 := log_call _ w1). set (t := {| userId := _ |}).
  unfold insert_or_existing, try_catch, insert_loan. rewrite statement_active by done.
  set (l := {| loan_id := db_new_loan_id w2 |}). destruct (db_loan_error w2 l) as [e|] eqn:Ee; cbn [fst snd].
  { by destruct e. }
  split; [done|]. eapply steps_trans; [exact Hm1|]. eapply steps_step; [|constructor].
  apply (step_open (w_loans w1) (stored_loan l)); [apply (new_loan_id_fresh w2)|done|exact (accepted_no_conflict w2 l Ee)].
Qed.

Lemma keeps_pricing u : keeps (pricing_context_async u).
Proof. unfold pricing_context_async, getTieredPricingContext_async. solve_keeps. Qed.

Lemma keeps_opening dto : keeps (informLoanOpened_async dto).
Proof.
  pose proof keeps_pricing.
  assert (forall u a d p due fee, moves (transaction (open_loan_tx u a d p due fee))) by (intros; apply moves_transaction, tx_moves_open).
  unfold informLoanOpened_async, inform_opened_user_async, assertLoanOpenedTxValid_async. solve_keeps.
Qed.

(** *** The other requests *)

Lemma keeps_verify dto : keeps (verify_async dto).
Proof.
  assert (forall u, moves (ensureSelfVerificationForPlatform u))
    by (intros; unfold ensureSelfVerificationForPlatform, isUserSelfVerified; solve_moves).
  assert (forall u p, moves (isEarlyUser u p)) by (intros; unfold isEarlyUser, getRankWithinPlatform; solve_moves).
  assert (forall p, moves (getUserUntilWaitlist p)) by (intros; apply moves_ret).
  assert (forall u p, keeps (settle_platform_async u p)) by (intros; unfold settle_platform_async; solve_keeps).
  unfold verify_async, verify_user_async, verify_existing_async, verify_first_time_async. solve_keeps.
Qed.

Lemma keeps_borrow dto : keeps (borrow_async dto).
Proof.
  pose proof keeps_pricing.
  assert (forall b, keeps (assertNoBorrowCooldown_async b)) by (intros; unfold assertNoBorrowCooldown_async; solve_keeps).
  assert (forall a b t f, moves (offer_loan a b t f)) by (intros; unfold offer_loan; solve_moves).
  unfold borrow_async, borrow_user_async. solve_keeps.
Qed.

Lemma keeps_preflight wallet force : keeps (preflightRepayment_async wallet force).
Proof. unfold preflightRepayment_async, preflight_reads_async, preflight_loan_async. solve_keeps. Qed.

Lemma keeps_terms a amount : keeps (getLoanTerms_async a amount).
Proof. pose proof keeps_pricing. unfold getLoanTerms_async. solve_keeps. Qed.

Lemma keeps_findUser a : keeps (findUserOrThrow a).
Proof. unfold findUserOrThrow. solve_keeps. Qed.

Lemma keeps_mret {A} (a : A) : keeps (mret a).
Proof. done. Qed.

Lemma keeps_kyc_start a : keeps (start a).
Proof. pose proof keeps_findUser. pose proof (@keeps_mret). unfold start. solve_keeps. Qed.

Lemma keeps_kyc_status a : keeps (kyc_status a).
Proof.
  pose proof keeps_findUser. pose proof (@keeps_mret).
  assert (forall i f, moves (now ← date_now; update_user i (f now))) by (intros; solve_moves).
  unfold kyc_status. solve_keeps.
Qed.
End Requests.

(** ** All of them together *)

(** A request to the backend, or a job of its queue. *)
Inductive request :=
  | InformOpened (dto : InformLoanDto)
  | InformRepayment (dto : InformRepaymentDto)
  | Verify (dto : VerifyUserDto)
  | Borrow (dto : BorrowLoanDto)
  | Preflight (walletAddress : string) (force : bool)
  | History (wallet : string)
  | Terms (walletAddress amountHuman : string)
  | KycStartRequest (walletAddress : string)
  | KycStatusRequest (walletAddress : string)
  | Notified (user : Z)
  | Job (name : string).

(** The outcome is the caller's. *)
Definition void {A} (p : proc World A) : proc World unit := _ ← p; Return tt.

Section System.
  Context `{ENV : Env} `{DB : Database} `{OUT : Outside} `{FEED : ChainFeed} {SCHED : Scheduler World}.
  Context `{D : DecimalJs} `{JM : JsMath} (BLOCKCHAIN_GATEWAY : option string).

Definition serve (r : request) : proc World unit :=
  match r with
  | InformOpened dto => void (informLoanOpened_async dto)
  | InformRepayment dto => void (processRepayment_async dto)
  | Verify dto => void (verify_async dto)
  | Borrow dto => void (borrow_async dto)
  | Preflight a force => void (preflightRepayment_async a force)
  | History a => void (await (getHistory a))
  | Terms a amount => void (getLoanTerms_async a amount)
  | KycStartRequest a => void (start a)
  | KycStatusRequest a => void (kyc_status a)
  | Notified u => void (await (markEarlyAccessNotified u))
  | Job name => process_job BLOCKCHAIN_GATEWAY name
  end.

(** The requests are pending together in [w]. *)
Definition pending (rs : list request) (w : World) : pool World unit := (map serve rs, w).

Context {LAWS : DatabaseLaws DB}.

Lemma keeps_void {A} (p : proc World A) : keeps p -> keeps (void p).
Proof. intros Hp. unfold void. solve_keeps. Qed.

Lemma serve_keeps r : keeps (serve r).
Proof.
  destruct r; cbn [serve]; try (apply keeps_void).
  - apply keeps_opening.
  - apply keeps_repayment.
  - apply keeps_verify.
  - apply keeps_borrow.
  - apply keeps_preflight.
  - apply keeps_await. unfold getHistory, find_loans_latest. solve_moves.
  - apply keeps_terms.
  - apply keeps_kyc_start.
  - apply keeps_kyc_status.
  - apply keeps_await. unfold markEarlyAccessNotified. solve_moves.
  - apply keeps_job.
Qed.

Lemma pending_moves rs w c :
  steps pool_step (pending rs w) c -> quiet w -> quiet (snd c) /\ ledger_moves w (snd c).
Proof.
  intros Hs Hq.
  destruct (safe_pool quiet ledger_moves (fun _ => True) _ _ Hs) as (_ & ? & ?); [|done|done].
  apply Forall_map, Forall_true. intros r. apply serve_keeps.
Qed.

(** C2. The loan table is well formed and stays so: however requests and jobs
    interleave, whatever the chain and the database answer, every row stays stored
    under its id; a row is flagged on time exactly when its status says so, a
    repaid row has its closing time, on time only within a day of the due date,
    only repaid rows carry a closing transaction; and no two rows share an opening
    or a closing transaction. *)
Theorem ledger_well_formed (rs : list request) (w : World) (c : pool World unit)
    (Hrun : steps pool_step (pending rs w) c) (Hq : quiet w) :
  w_tx (snd c) = NoTx /\ ledger_ok (w_loans (snd c)).
Proof. destruct (pending_moves rs w c Hrun Hq) as [H _]. exact H. Qed.

(** C1. The loan table implements the book of loans: every interleaving of
    requests and jobs takes the book the table stands for through the book's own
    steps, in which a loan is entered as running, closed, then settled by a
    transaction that settles no other loan, and never goes back. *)
Theorem ledger_refinement (rs : list request) (w : World) (c : pool World unit)
    (Hrun : steps pool_step (pending rs w) c) (Hq : quiet w) :
  steps Spec.step (Spec.abs (w_loans w)) (Spec.abs (w_loans (snd c))).
Proof.
  destruct (pending_moves rs w c Hrun Hq) as [_ H]. apply (ledger_steps_refine _ _ H), Hq.
Qed.

(** C8. No loan is lost or rewritten: in every interleaving of requests and jobs
    each row is still there, for the same borrower and on the same terms, a repaid
    loan stays repaid, and once a loan is tied to its closing transaction its state
    is final. *)
Theorem loans_final (rs : list request) (w : World) (c : pool World unit) (i : Z) (l : Loan)
    (Hrun : steps pool_step (pending rs w) c) (Hq : quiet w) (Hl : w_loans w !! i = Some l) :
  exists l', w_loans (snd c) !! i = Some l' /\ same_loan l l' /\
    (is_repaid l = true -> is_repaid l' = true) /\ (forall h, receipt l = Some h -> state l' = state l).
Proof.
  destruct (pending_moves rs w c Hrun Hq) as [_ H]. apply ledger_steps_le in H.
  destruct (H i l Hl) as (l' & ? & ?). by exists l'.
Qed.

(** Requests and jobs come to an end: there is no infinite run of any list of
    them, however they interleave and whatever they are answered. *)
Theorem requests_terminate (rs : list request) (w : World) : Acc (fun c' c => pool_step c c') (pending rs w).
Proof. apply pool_step_wf. Qed.
End System.

(** ** A concrete run *)

(** The sample user reports the repayment of the third loan while chain-sync
    reconciles it: the job starts, the request is served in the middle of it, and
    the job goes on. *)
Definition racing : pool World unit :=
  run_schedule [0; 0; 0; 0; 0; 0; 0; 1; 1; 1; 1; 1; 1; 1; 1; 1; 1; 1; 1; 0; 0; 0; 0; 0; 0; 0; 0; 0; 0; 0]%nat
    (pending (ENV := sample_env) (OUT := day64) (FEED := late_feed) (SCHED := in_order) (D := QDecimal) (JM := SampleMath)
       (Some "soroban"%string) [Job "sync-loans"; InformRepayment (sample_repay (Some "r3"%string))] third_loan_world).

Lemma racing_run :
  steps pool_step
    (pending (ENV := sample_env) (OUT := day64) (FEED := late_feed) (SCHED := in_order) (D := QDecimal) (JM := SampleMath)
       (Some "soroban"%string) [Job "sync-loans"; InformRepayment (sample_repay (Some "r3"%string))] third_loan_world) racing.
Proof. apply run_schedule_steps. Qed.

Lemma ledger_well_formed_witness :
  loan_status 3 (snd racing) = Some REPAID_LATE /\ w_tx (snd racing) = NoTx /\ ledger_ok (w_loans (snd racing)).
Proof.
  split; [vm_compute; reflexivity|].
  pose proof (ledger_well_formed _ _ _ _ racing_run third_loan_quiet) as H. exact H.
Defined.

Lemma ledger_refinement_witness :
  Spec.abs (w_loans (snd racing)) !! 3 = Some (1, sample_wallet, Spec.Settled false "r3") /\
  steps Spec.step (Spec.abs (w_loans third_loan_world)) (Spec.abs (w_loans (snd racing))).
Proof.
  split; [vm_compute; reflexivity|].
  pose proof (ledger_refinement _ _ _ _ racing_run third_loan_quiet) as H. exact H.
Defined.

Lemma loans_final_witness :
  exists l', w_loans (snd racing) !! 1 = Some l' /\ state l' = repaid_state (5 * day) "r1".
Proof.
  destruct (loans_final _ _ _ _ 1 (sample_loan 1 0 (repaid_state (5 * day) "r1") "a1") racing_run third_loan_quiet eq_refl)
    as (l' & Hl & _ & _ & Hf).
  exists l'. split; [exact Hl|]. exact (Hf "r1"%string eq_refl).
Defined.
