(* ===== verification/SorobanQueue.v ===== *)
(** * The queue of the backend's signer
      ([backend/src/config/sorobanConfig.ts], [enqueueSoroban] and [dispatch])

    All transactions are signed by one account, whose sequence number admits one
    at a time, so the tasks that send them are queued in two lanes and run one after
    the other. A task is a process; [dispatch] runs in the callbacks the code
    schedules with [setImmediate], so the state counts those. Other requests may
    change the world between any two steps. *)

From stdpp Require Import base tactics list strings numbers.
From Stdlib Require Import Lia.
From S2P Require Import Prelude Async Gateway.

#[export] Instance TxPriority_eq_dec : EqDecision TxPriority.
Proof. solve_decision. Defined.

Section Queue.
  Context {W A : Type}.

(** What is left of the promise [next()] of a dispatched task: the body, then
    its [finally]. *)
Inductive phase :=
  | Body (p : proc W A)
  | Finally.

(** A task: the number of its promise and its body. *)
Definition task : Type := nat * proc W A.

Record SorobanQueue := {
  highQueue : list task;
  lowQueue : list task;
  processing : bool;
  (** the promises [next()] that are not finished *)
  running : list (nat * phase);
  (** the calls of [dispatch] scheduled with [setImmediate] *)
  immediates : nat;
  (** the promises given out, and how they were settled, in order *)
  enqueued : list (nat * TxPriority);
  dispatched : list (TxPriority * task);
  settled : list (nat * result A);
  world : W;
}.

Definition empty_queue (w : W) : SorobanQueue := {|
  highQueue := []; lowQueue := []; processing := false; running := []; immediates := 0;
  enqueued := []; dispatched := []; settled := []; world := w;
|}.

(** [highQueue.shift() ?? lowQueue.shift()] *)
Definition shift (q : SorobanQueue) : option (TxPriority * task * list task * list task) :=
  match highQueue q, lowQueue q with
  | t :: hs, ls => Some (high, t, hs, ls)
  | [], t :: ls => Some (low, t, [], ls)
  | [], [] => None
  end.

Definition set_immediates (n : nat) (q : SorobanQueue) : SorobanQueue := {|
  highQueue := highQueue q; lowQueue := lowQueue q; processing := processing q; running := running q;
  immediates := n; enqueued := enqueued q; dispatched := dispatched q; settled := settled q; world := world q;
|}.

Definition set_world (w : W) (q : SorobanQueue) : SorobanQueue := {|
  highQueue := highQueue q; lowQueue := lowQueue q; processing := processing q; running := running q;
  immediates := immediates q; enqueued := enqueued q; dispatched := dispatched q; settled := settled q; world := w;
|}.

Definition dispatch (q : SorobanQueue) : SorobanQueue :=
  if processing q then q else
  match shift q with
  | None => q
  | Some (prio, t, hs, ls) => {|
      highQueue := hs; lowQueue := ls; processing := true;
      running := running q ++ [(fst t, Body (snd t))];
      immediates := immediates q; enqueued := enqueued q;
      dispatched := dispatched q ++ [(prio, t)];
      settled := settled q; world := world q;
    |}
  end.

Definition enqueueSoroban (fn : proc W A) (priority : TxPriority) (q : SorobanQueue) : SorobanQueue :=
  let id := length (enqueued q) in {|
    highQueue := if decide (priority = high) then highQueue q ++ [(id, fn)] else highQueue q;
    lowQueue := if decide (priority = high) then lowQueue q else lowQueue q ++ [(id, fn)];
    processing := processing q; running := running q;
    immediates := S (immediates q);
    enqueued := enqueued q ++ [(id, priority)];
    dispatched := dispatched q; settled := settled q; world := world q;
  |}.

(** A callback of [setImmediate] runs. *)
Definition tick (q : SorobanQueue) : SorobanQueue :=
  match immediates q with
  | O => q
  | S n => dispatch (set_immediates n q)
  end.

(** Promise [i] goes on: its body performs the awaited operation, or the promise of
    the task is settled; then [finally] frees the queue. *)
Definition advance (i : nat) (q : SorobanQueue) : SorobanQueue :=
  let update ps s w p n := {|
    highQueue := highQueue q; lowQueue := lowQueue q; processing := p; running := ps;
    immediates := n; enqueued := enqueued q; dispatched := dispatched q; settled := s; world := w;
  |} in
  match running q !! i with
  | None => q
  | Some (id, Body (Await effect next)) =>
      update (<[i := (id, Body (next (world q)))]> (running q)) (settled q) (effect (world q)) (processing q) (immediates q)
  | Some (id, Body (Return a)) =>
      update (<[i := (id, Finally)]> (running q)) (settled q ++ [(id, Ok a)]) (world q) (processing q) (immediates q)
  | Some (id, Body (Raise e)) =>
      update (<[i := (id, Finally)]> (running q)) (settled q ++ [(id, Throw e)]) (world q) (processing q) (immediates q)
  | Some (id, Finally) =>
      update (delete i (running q)) (settled q) (world q) false (S (immediates q))
  end.

(** What the event loop does on its own, and what the rest of the backend does. *)
Inductive loop_step : SorobanQueue -> SorobanQueue -> Prop :=
  | loop_tick q : immediates q <> 0 -> loop_step q (tick q)
  | loop_advance i q : i < length (running q) -> loop_step q (advance i q).

Inductive queue_step : SorobanQueue -> SorobanQueue -> Prop :=
  | queue_loop q q' : loop_step q q' -> queue_step q q'
  | queue_enqueue fn prio q : queue_step q (enqueueSoroban fn prio q)
  | queue_other w q : queue_step q (set_world w q).

(** The steps of a backend whose other requests leave the world alone. *)
Inductive alone_step : SorobanQueue -> SorobanQueue -> Prop :=
  | alone_loop q q' : loop_step q q' -> alone_step q q'
  | alone_enqueue fn prio q : alone_step q (enqueueSoroban fn prio q).

(** ** Reference: the tasks run one after the other *)

Fixpoint run_all (ts : list task) (w : W) : list (nat * result A) * W :=
  match ts with
  | [] => ([], w)
  | (id, p) :: ts' =>
      let '(r, w') := run p w in
      let '(rs, w'') := run_all ts' w' in ((id, r) :: rs, w'')
  end.

Definition lane (prio : TxPriority) (q : SorobanQueue) : list task :=
  match prio with high => highQueue q | low => lowQueue q end.

(** The promises of a lane, in the order they were given out or dispatched. *)
Definition given (prio : TxPriority) (q : SorobanQueue) : list nat :=
  (filter (fun x => x.2 = prio) (enqueued q)).*1.
Definition taken (prio : TxPriority) (q : SorobanQueue) : list nat :=
  (filter (fun x => x.1 = prio) (dispatched q)).*2.*1.

(** ** The invariant *)

Definition body_id (x : nat * phase) : list nat :=
  match x.2 with Body _ => [x.1] | Finally => [] end.

Record queue_ok (q : SorobanQueue) : Prop := {
  (** the flag holds exactly while one promise is unfinished *)
  ok_running : if processing q then exists x, running q = [x] else running q = [];
  (** no task waits without a call of [dispatch] to come *)
  ok_woken : processing q = false -> immediates q = 0 -> highQueue q = [] /\ lowQueue q = [];
  ok_lanes prio : taken prio q ++ (lane prio q).*1 = given prio q;
  ok_promises : (enqueued q).*1 = seq 0 (length (enqueued q));
  ok_settled : (settled q).*1 ++ (running q ≫= body_id) = (dispatched q).*2.*1;
}.

Lemma empty_queue_ok w : queue_ok (empty_queue w).
Proof. split; try done. by intros []. Qed.

Lemma set_immediates_ok n q : queue_ok q -> 0 < n -> queue_ok (set_immediates n q).
Proof. intros [] Hn. split; try done. cbn. lia. Qed.

Lemma set_world_ok w q : queue_ok q -> queue_ok (set_world w q).
Proof. by intros []. Qed.

Lemma enqueue_ok fn prio q : queue_ok q -> queue_ok (enqueueSoroban fn prio q).
Proof.
  intros [Hr Hw Hl Hp Hs]. split; cbn; try done.
  - intros p. specialize (Hl p). unfold given, taken, lane in *. cbn.
    rewrite list.filter_app, fmap_app, <- Hl. destruct p, prio; cbn; repeat case_decide; rewrite ?fmap_app, ?app_assoc, ?app_nil_r; done.
  - by rewrite fmap_app, length_app, Hp, seq_app.
Qed.

Lemma shift_lane q prio t hs ls p :
  shift q = Some (prio, t, hs, ls) ->
  lane p q = (if decide (prio = p) then [t] else []) ++ match p with high => hs | low => ls end.
Proof.
  unfold shift, lane. intros H. destruct (highQueue q) as [|th h0] eqn:Eh; [destruct (lowQueue q) as [|tl l0] eqn:El|];
    simplify_eq; destruct p; case_decide; done.
Qed.

Lemma shift_none q : shift q = None -> highQueue q = [] /\ lowQueue q = [].
Proof. unfold shift. destruct (highQueue q), (lowQueue q); done. Qed.

(** A callback of [dispatch] leaves no task waiting for nothing. *)
Lemma dispatch_ok n q : queue_ok q -> queue_ok (dispatch (set_immediates n q)).
Proof.
  intros [Hr Hw Hl Hp Hs]. unfold dispatch. cbn [processing set_immediates].
  change (shift (set_immediates n q)) with (shift q).
  destruct (processing q) eqn:Ep; [split; cbn; rewrite ?Ep; done|].
  destruct (shift q) as [[[[prio t] hs] ls]|] eqn:Es.
  - pose proof (fun p => shift_lane q prio t hs ls p Es) as Hlane. split; cbn; try done.
    + rewrite Hr. by eexists.
    + intros p. specialize (Hl p). rewrite (Hlane p) in Hl. unfold taken, given, lane in *. cbn.
      rewrite list.filter_app, !fmap_app, <- Hl, !fmap_app, <- app_assoc.
      f_equal. cbn. destruct p; repeat case_decide; done.
    + rewrite !fmap_app, <- Hs, Hr. cbn. by rewrite app_nil_r.
  - destruct (shift_none q Es) as [Eh El]. split; cbn; rewrite ?Ep; done.
Qed.

(** The promise that can go on is the only one. *)
Lemma running_one q i : queue_ok q -> i < length (running q) -> i = 0 /\ processing q = true /\ exists x, running q = [x].
Proof.
  intros [Hr _ _ _ _] Hi. destruct (processing q); [|rewrite Hr in Hi; cbn in Hi; lia].
  destruct Hr as [x Hx]. rewrite Hx in Hi. cbn in Hi. split_and!; [lia|done|by exists x].
Qed.

Lemma advance_ok i q : queue_ok q -> i < length (running q) -> queue_ok (advance i q).
Proof.
  intros Hq Hi. destruct (running_one q i Hq Hi) as (-> & Hp & [id ph] & Hx). destruct Hq as [Hr Hw Hl Hpr Hs].
  rewrite Hx in Hs. unfold advance. rewrite Hx. cbn.
  destruct ph as [[a|e|effect next]|]; split; cbn in *; rewrite ?Hp; try done; try (by eexists);
    rewrite ?fmap_app, ?app_nil_r in *; done.
Qed.

Lemma tick_ok q : queue_ok q -> queue_ok (tick q).
Proof. intros Hq. unfold tick. destruct (immediates q); [done|by apply dispatch_ok]. Qed.

Lemma loop_ok q q' : loop_step q q' -> queue_ok q -> queue_ok q'.
Proof. intros [] Hq; [by apply tick_ok|by apply advance_ok]. Qed.

Lemma queue_step_ok q q' : queue_step q q' -> queue_ok q -> queue_ok q'.
Proof. intros [] Hq; [by eapply loop_ok|by apply enqueue_ok|by apply set_world_ok]. Qed.

Lemma reachable_ok w q : steps queue_step (empty_queue w) q -> queue_ok q.
Proof. intros H. eapply steps_invariant; [|exact H|apply empty_queue_ok]. intros ??. apply queue_step_ok. Qed.

(** ** The tasks run one after the other *)

Lemma run_all_snoc ts id (p : proc W A) w :
  run_all (ts ++ [(id, p)]) w =
    let '(rs, w1) := run_all ts w in let '(r, w2) := run p w1 in (rs ++ [(id, r)], w2).
Proof.
  revert w. induction ts as [|[i b] ts IH]; intros w; cbn; [by destruct (run p w)|].
  destruct (run b w) as [r w']. rewrite IH. destruct (run_all ts w') as [rs w1]. by destruct (run p w1).
Qed.

(** What is left of the dispatched task ends as the task would have ended had it run
    in the world the earlier ones left. *)
Definition in_turn (w0 : W) (q : SorobanQueue) : Prop :=
  match running q with
  | [] | [(_, Finally)] => run_all (dispatched q).*2 w0 = (settled q, world q)
  | [(id, Body p)] => exists ts p0 w1, (dispatched q).*2 = ts ++ [(id, p0)] /\
      run_all ts w0 = (settled q, w1) /\ run p (world q) = run p0 w1
  | _ => False
  end.

Lemma in_turn_dispatch w0 n q : queue_ok q -> in_turn w0 q -> in_turn w0 (dispatch (set_immediates n q)).
Proof.
  intros [Hr _ _ _ _] Hq. unfold dispatch. cbn [processing set_immediates].
  change (shift (set_immediates n q)) with (shift q). destruct (processing q) eqn:Ep; [done|].
  destruct (shift q) as [[[[prio [id p]] hs] ls]|] eqn:Es; [|done].
  unfold in_turn in *. cbn. rewrite Hr in *. cbn. exists (dispatched q).*2, p, (world q).
  by rewrite fmap_app.
Qed.

Lemma in_turn_advance w0 i q : queue_ok q -> i < length (running q) -> in_turn w0 q -> in_turn w0 (advance i q).
Proof.
  intros Hok Hi. destruct (running_one q i Hok Hi) as (-> & _ & [id ph] & Hx).
  unfold in_turn, advance. rewrite Hx. cbn. destruct ph as [p|]; [|done].
  intros (ts & p0 & w1 & Hd & Hts & Hrun). destruct p as [a|e|effect next]; cbn in *.
  - by rewrite Hd, run_all_snoc, Hts, <- Hrun.
  - by rewrite Hd, run_all_snoc, Hts, <- Hrun.
  - by exists ts, p0, w1.
Qed.

Lemma alone_in_turn w0 q q' : alone_step q q' -> queue_ok q /\ in_turn w0 q -> queue_ok q' /\ in_turn w0 q'.
Proof.
  intros Hstep [Hok Hq]. destruct Hstep as [q q' Hl|fn prio q].
  - split; [by eapply loop_ok|]. destruct Hl as [q Hn|i q Hi]; [|by apply in_turn_advance].
    unfold tick. destruct (immediates q); [done|by apply in_turn_dispatch].
  - split; [by apply enqueue_ok|done].
Qed.

(** ** Every task is settled *)

(** The steps of the event loop from a state whose lanes hold [n] tasks. *)
Lemma tick_cases q : queue_ok q -> immediates q <> 0 ->
  (exists m, immediates q = S m /\ tick q = set_immediates m q) \/
  (running q = [] /\ length (highQueue (tick q)) + length (lowQueue (tick q)) < length (highQueue q) + length (lowQueue q)).
Proof.
  intros [Hr _ _ _ _] Hn. unfold tick. destruct (immediates q) as [|m]; [done|].
  unfold dispatch. cbn [processing set_immediates]. change (shift (set_immediates m q)) with (shift q).
  destruct (processing q); [left; by exists m|].
  destruct (shift q) as [[[[prio t] hs] ls]|] eqn:Es; [|left; by exists m].
  right. split; [done|]. cbn.
  pose proof (shift_lane _ _ _ _ _ high Es) as H1. pose proof (shift_lane _ _ _ _ _ low Es) as H2. unfold lane in *.
  rewrite H1, H2. destruct prio; repeat case_decide; cbn; try done; lia.
Qed.

Definition loop_acc : SorobanQueue -> Prop := Acc (fun q' q => loop_step q q').

(** With nothing running, the scheduled callbacks run out or dispatch a task. *)
Lemma acc_idle n q :
  (forall q', queue_ok q' -> length (highQueue q') + length (lowQueue q') < n -> loop_acc q') ->
  queue_ok q -> running q = [] -> length (highQueue q) + length (lowQueue q) = n -> loop_acc q.
Proof.
  intros IH. remember (immediates q) as m eqn:Em. revert q Em. induction m as [|m IHm]; intros q Em Hq Hr Hn;
    constructor; intros q' Hstep; pose proof (loop_ok _ _ Hstep Hq) as Hq';
    (destruct Hstep as [q Hi|i q Hi]; [|rewrite Hr in Hi; cbn in Hi; lia]).
  - congruence.
  - destruct (tick_cases q Hq Hi) as [(k & Hk & Heq)|[_ Hlt]].
    + rewrite Heq in *. apply IHm; cbn; try done. congruence.
    + apply IH; [done|]. lia.
Qed.

Lemma acc_running n q id ph :
  (forall q', queue_ok q' -> running q' = [] -> length (highQueue q') + length (lowQueue q') = n -> loop_acc q') ->
  queue_ok q -> running q = [(id, ph)] -> length (highQueue q) + length (lowQueue q) = n -> loop_acc q.
Proof.
  intros Hidle.
  (* the callbacks run out while the promise does not move *)
  assert (Hticks : forall m q, immediates q = m -> queue_ok q -> forall ph, running q = [(id, ph)] ->
    length (highQueue q) + length (lowQueue q) = n ->
    (forall k, loop_acc (advance 0 (set_immediates k q))) -> loop_acc q).
  { induction m as [|m IHm]; intros r Em Hr ph' Hph Hn Hadv; constructor; intros q' Hstep;
      pose proof (loop_ok _ _ Hstep Hr) as Hr'; destruct Hstep as [r Hi|i r Hi].
    - congruence.
    - destruct (running_one _ _ Hr Hi) as (-> & _ & _). specialize (Hadv (immediates r)). by destruct r.
    - destruct (tick_cases r Hr Hi) as [(k & Hk & Heq)|[Hnil _]]; [|congruence].
      rewrite Heq in *. eapply (IHm (set_immediates k r)); [cbn; congruence|exact Hr'|exact Hph|exact Hn|exact Hadv].
    - destruct (running_one _ _ Hr Hi) as (-> & _ & _). specialize (Hadv (immediates r)). by destruct r. }
  assert (Hok : forall r ph' k, queue_ok r -> running r = [(id, ph')] -> queue_ok (set_immediates k r)).
  { intros r ph' k [Hr _ ? ? ?] Hph. split; try done. cbn. intros Hp. rewrite Hp in Hr. congruence. }
  assert (Hfin : forall r, queue_ok r -> running r = [(id, Finally)] ->
    length (highQueue r) + length (lowQueue r) = n -> loop_acc r).
  { intros r Hr Hph Hn. apply (Hticks _ _ eq_refl Hr _ Hph Hn). intros k. apply Hidle.
    - apply advance_ok; [by eapply Hok|cbn; rewrite Hph; cbn; lia].
    - unfold advance. cbn. by rewrite Hph.
    - unfold advance. cbn. by rewrite Hph. }
  destruct ph as [p|]; [|by apply Hfin]. revert q.
  induction p as [a|e|effect next IHp]; intros r Hr Hph Hn; (apply (Hticks _ _ eq_refl Hr _ Hph Hn); intros k;
    assert (Hadv : queue_ok (advance 0 (set_immediates k r)))
      by (apply advance_ok; [by eapply Hok|cbn; rewrite Hph; cbn; lia]); revert Hadv;
    unfold advance; cbn; rewrite Hph; cbn; intros Hadv).
  - by apply Hfin.
  - by apply Hfin.
  - by eapply IHp.
Qed.

(** The event loop comes to rest. *)
Lemma loop_terminates q : queue_ok q -> loop_acc q.
Proof.
  remember (length (highQueue q) + length (lowQueue q)) as n eqn:En. revert q En.
  induction (lt_wf n) as [n _ IH]. intros q En Hq.
  assert (Hidle : forall q', queue_ok q' -> running q' = [] -> length (highQueue q') + length (lowQueue q') = n -> loop_acc q').
  { intros q' Hq' Hr Hn. refine (acc_idle n q' _ Hq' Hr Hn). intros q'' Hq'' Hlt.
    exact (IH _ Hlt q'' eq_refl Hq''). }
  pose proof (ok_running q Hq) as Hr. destruct (processing q); [|by apply Hidle].
  destruct Hr as [[id ph] Hx]. exact (acc_running n q id ph Hidle Hq Hx (eq_sym En)).
Qed.

(** At rest nothing waits, nothing runs, and the promises are settled in the order
    of dispatch. *)
Lemma at_rest q : queue_ok q -> (forall q', ~ loop_step q q') ->
  running q = [] /\ highQueue q = [] /\ lowQueue q = [] /\ (settled q).*1 = (dispatched q).*2.*1.
Proof.
  intros Hq Hrest. destruct Hq as [Hr Hw Hl Hp Hs].
  assert (Hi : immediates q = 0).
  { destruct (immediates q) as [|m] eqn:Ei; [done|]. exfalso. eapply Hrest. apply (loop_tick q). congruence. }
  assert (Hn : running q = []).
  { destruct (running q) as [|x xs] eqn:Ex; [done|]. exfalso. eapply Hrest. apply (loop_advance 0 q). rewrite Ex. cbn. lia. }
  assert (Hf : processing q = false) by (destruct (processing q); [destruct Hr; congruence|done]).
  destruct (Hw Hf Hi) as [-> ->]. split_and!; [done..|]. rewrite Hn in Hs. cbn in Hs. by rewrite app_nil_r in Hs.
Qed.

Lemma lanes_perm {B C} (f : B -> TxPriority) (g : B -> C) (l : list B) :
  g <$> l ≡ₚ (g <$> filter (fun x => f x = high) l) ++ (g <$> filter (fun x => f x = low) l).
Proof.
  induction l as [|x l IH]; [done|]. rewrite !filter_cons. destruct (f x); repeat case_decide; try done; cbn.
  - by rewrite IH.
  - rewrite IH. by rewrite Permutation_middle.
Qed.

(** A task starts only when the queue is free. *)
Lemma started_alone q q' prio t :
  queue_ok q -> queue_step q q' -> dispatched q' = dispatched q ++ [(prio, t)] ->
  running q = [] /\ running q' = [(t.1, Body t.2)] /\ t ∈ lane prio q /\ (prio = low -> highQueue q = []).
Proof.
  intros Hq Hstep Hd. assert (Hsame : dispatched q' <> dispatched q).
  { rewrite Hd. intros Heq%(f_equal length). rewrite length_app in Heq. cbn in Heq. lia. }
  destruct Hstep as [q q' Hl|fn p q|w q]; [|done..]. destruct Hl as [q Hn|i q Hi].
  - unfold tick in *. destruct (immediates q) as [|n]; [done|]. unfold dispatch in *.
    cbn [processing set_immediates] in *. change (shift (set_immediates n q)) with (shift q) in *.
    pose proof (ok_running q Hq) as Hr. destruct (processing q); [done|].
    destruct (shift q) as [[[[prio' t'] hs] ls]|] eqn:Es; [|done]. cbn in *.
    apply app_inj_tail in Hd as [_ [= -> ->]]. rewrite Hr. split_and!; [done..| |].
    + rewrite (shift_lane _ _ _ _ _ prio Es), decide_True by done. left.
    + intros ->. pose proof (shift_lane _ _ _ _ _ high Es) as Hh. unfold shift in Es. cbn in Hh.
      by destruct (highQueue q), (lowQueue q); simplify_eq.
  - unfold advance in *. destruct (running q !! i) as [[id [[a|e|effect next]|]]|]; done.
Qed.

(** ** Correctness *)

(** However requests arrive and whatever they do to the world, at most one
    task is on its way, the flag says whether there is one, each lane is served in
    the order of arrival, and a task starts only when none is on its way, one of the
    low lane only when the high lane is empty. *)
Theorem signer_queue_serial (w : W) (q : SorobanQueue) (H : steps queue_step (empty_queue w) q) :
  length (running q) <= 1 /\ (processing q = true <-> running q <> []) /\
  (forall prio, taken prio q ++ (lane prio q).*1 = given prio q) /\
  (forall q' prio t, queue_step q q' -> dispatched q' = dispatched q ++ [(prio, t)] ->
     running q = [] /\ running q' = [(t.1, Body t.2)] /\ t ∈ lane prio q /\ (prio = low -> highQueue q = [])).
Proof.
  pose proof (reachable_ok _ _ H) as Hq. pose proof (ok_running q Hq) as Hr. split_and!.
  - destruct (processing q); [destruct Hr as [x ->]|rewrite Hr]; cbn; lia.
  - destruct (processing q); [destruct Hr as [x ->]|rewrite Hr]; by split.
  - apply Hq.
  - intros q' prio t Hstep Hd. by eapply started_alone.
Qed.

(** C15. When nothing but the queue touches the world, the outcomes of the settled
    promises and the world are those of the dispatched tasks run one after the
    other, from the first world, in the order of dispatch. *)
Theorem signer_queue_sequential (w : W) (q : SorobanQueue) (H : steps alone_step (empty_queue w) q) (Hidle : running q = []) :
  run_all (dispatched q).*2 w = (settled q, world q).
Proof.
  assert (Hinv : queue_ok q /\ in_turn w q).
  { refine (steps_invariant alone_step (fun q => queue_ok q /\ in_turn w q) _ _ _ H _);
      [intros ??; apply alone_in_turn|split; [apply empty_queue_ok|done]]. }
  destruct Hinv as [_ Ht]. unfold in_turn in Ht. by rewrite Hidle in Ht.
Qed.

(** C14. No wake-up is lost: from any state the backend can reach the event loop
    comes to rest by itself, whichever callback it runs next; and at rest every
    promise given out has been settled, once, in the order its task was started. *)
Theorem signer_queue_drains (w : W) (q : SorobanQueue) (H : steps queue_step (empty_queue w) q) :
  loop_acc q /\
  ((forall q', ~ loop_step q q') -> running q = [] /\ highQueue q = [] /\ lowQueue q = [] /\
     (settled q).*1 = (dispatched q).*2.*1 /\ (settled q).*1 ≡ₚ seq 0 (length (enqueued q))).
Proof.
  pose proof (reachable_ok _ _ H) as Hq. split; [by apply loop_terminates|].
  intros Hrest. destruct (at_rest q Hq Hrest) as (Hr & Hh & Hl & Hs). split_and!; [done..|].
  rewrite Hs, <- (ok_promises q Hq). rewrite <- list_fmap_compose.
  rewrite (lanes_perm fst (fst ∘ snd) (dispatched q)), (lanes_perm snd fst (enqueued q)).
  pose proof (ok_lanes q Hq high) as H1. pose proof (ok_lanes q Hq low) as H2.
  unfold taken, given, lane in H1, H2. rewrite Hh, app_nil_r in H1. rewrite Hl, app_nil_r in H2.
  rewrite <- H1, <- H2, <- !list_fmap_compose. done.
Qed.
End Queue.
Arguments phase : clear implicits.
Arguments task : clear implicits.
Arguments SorobanQueue : clear implicits.

(** ** Witnesses: a low task and a high one *)

Definition add_one : proc nat nat := Await S (fun n => Return n).
Definition double : proc nat nat := Await (fun n => 2 * n) (fun n => Raise (PlainError "double"%string)).

(** Both are queued before the event loop runs a callback. *)
Definition two_queued : SorobanQueue nat nat := enqueueSoroban double high (enqueueSoroban add_one low (empty_queue 5)).

(** Dispatched, the operation, the settlement, the [finally]. *)
Definition one_served (q : SorobanQueue nat nat) : SorobanQueue nat nat := advance 0 (advance 0 (advance 0 (tick q))).

(** The first call of [dispatch] serves the high lane, the second one the low; the
    two that were scheduled by [finally] find nothing. *)
Definition all_served : SorobanQueue nat nat := tick (tick (one_served (one_served two_queued))).

Lemma all_served_steps : steps alone_step (empty_queue 5) all_served.
Proof.
  assert (Htick : forall q : SorobanQueue nat nat, immediates q <> 0 -> alone_step q (tick q)) by (intros; by do 2 constructor).
  assert (Hadv : forall q : SorobanQueue nat nat, 0 < length (running q) -> alone_step q (advance 0 q)) by (intros; by do 2 constructor).
  eapply steps_step; [apply (alone_enqueue add_one low)|]. eapply steps_step; [apply (alone_enqueue double high)|].
  unfold all_served, one_served.
  do 2 (eapply steps_step; [apply Htick; discriminate|]; do 3 (eapply steps_step; [apply Hadv; vm_compute; lia|])).
  do 2 (eapply steps_step; [apply Htick; discriminate|]). constructor.
Qed.

Lemma alone_queue_step {W A} (q q' : SorobanQueue W A) : steps alone_step q q' -> steps queue_step q q'.
Proof. induction 1 as [|q1 q2 q3 Hs _ IH]; [constructor|]. eapply steps_step; [|exact IH]. destruct Hs; by constructor. Qed.

Lemma signer_queue_serial_witness :
  (dispatched (tick two_queued)).*2.*1 = [1] /\ length (running (tick two_queued)) <= 1.
Proof.
  split; [reflexivity|].
  assert (H : steps queue_step (empty_queue 5) (tick two_queued)).
  { do 2 (eapply steps_step; [apply queue_enqueue|]). eapply steps_step; [|constructor]. constructor. constructor. discriminate. }
  exact (proj1 (signer_queue_serial 5 (tick two_queued) H)).
Defined.

Lemma signer_queue_sequential_witness :
  run_all [(1, double); (0, add_one)] 5 = ([(1, Throw (PlainError "double"%string)); (0, Ok 10)], 11) /\
  run_all (dispatched all_served).*2 5 = (settled all_served, world all_served).
Proof. split; [reflexivity|]. exact (signer_queue_sequential 5 all_served all_served_steps eq_refl). Defined.

Lemma signer_queue_drains_witness : (settled all_served).*1 = [1; 0] /\ loop_acc all_served.
Proof. split; [reflexivity|]. exact (proj1 (signer_queue_drains 5 all_served (alone_queue_step _ _ all_served_steps))). Defined.
