(* ===== verification/SorobanConfig.v ===== *)
(** * Transactions of the Soroban gateway ([backend/src/config/sorobanConfig.ts])

    The configuration, the SDK and the RPC server the gateway talks to, and the
    calls of the LoanManager contract: simulated, or prepared, signed, sent and
    awaited. Methods are processes over the trace of the RPC calls; the answers of
    the server are functions of that trace. *)

From stdpp Require Import base tactics list strings numbers.
From Stdlib Require Import Lia ZArith Ascii.
From S2P Require Import Prelude JsString JsNum JsDate AmountUnits Strkey StellarSdk Gateway Async Trace SorobanQueue.

Local Open Scope Z_scope.

(** ** Configuration *)

Definition positiveIntEnv (name : string) (raw : option string) (fallback : Z) : result Z :=
  let value := match raw with
               | None => Some fallback
               | Some r => if bool_decide (trim r = ""%string) then Some fallback else num_integer (Number_of_string r)
               end in
  match value with
  | Some v => if v <=? 0 then Throw (PlainError (name +:+ " must be a positive integer")) else Ok v
  | None => Throw (PlainError (name +:+ " must be a positive integer"))
  end.

(** The variables of [process.env] the module reads when it is loaded. *)
Record SorobanEnv := {
  env_SOROBAN_LOAN_MANAGER : option string;
  env_SOROBAN_USDC_SAC : option string;
  env_STELLAR_OPERATOR_SECRET : option string;
  env_CLM_TX_CONFIRM_TIMEOUT_MS : option string;
  env_CLM_SEND_MAX_ATTEMPTS : option string;
}.

Record SorobanConfig := {
  SOROBAN_LOAN_MANAGER : string;
  SOROBAN_USDC_SAC : string;
  STELLAR_OPERATOR_SECRET : option string;
  TX_CONFIRM_TIMEOUT_MS : Z;
  MAX_SEND_ATTEMPTS : Z;
}.

Definition load_config (env : SorobanEnv) : result SorobanConfig :=
  timeout ← positiveIntEnv "CLM_TX_CONFIRM_TIMEOUT_MS" (env_CLM_TX_CONFIRM_TIMEOUT_MS env) 60000;
  attempts ← positiveIntEnv "CLM_SEND_MAX_ATTEMPTS" (env_CLM_SEND_MAX_ATTEMPTS env) 3;
  mret {|
    SOROBAN_LOAN_MANAGER :=
      default "CDIHUCP6DWKW7B6IUECP3SCK5WCI3W5ITNQDZEK2TNI55WLXDM6Y4WJJ"%string (env_SOROBAN_LOAN_MANAGER env);
    SOROBAN_USDC_SAC :=
      default "CDLZFC3SYJYDZT7K67VZ75HPJVIEUVNIXF47ZG2FB2RMQQVU2HHGCYSC"%string (env_SOROBAN_USDC_SAC env);
    STELLAR_OPERATOR_SECRET := env_STELLAR_OPERATOR_SECRET env;
    TX_CONFIRM_TIMEOUT_MS := timeout;
    MAX_SEND_ATTEMPTS := attempts;
  |}.

Definition assertStellarAccount (address : string) : result unit :=
  throw_if (negb (isValidStellarPublicKey address)) (PlainError ("Invalid Stellar account: " +:+ address)).

(** [/^C[A-Z2-7]{55}$/] *)
Definition CONTRACT_ID_PATTERN (s : string) : bool :=
  match chars s with
  | "C"%char :: r => bool_decide (length r = 55%nat) && forallb (fun c => match base32_index c with Some _ => true | None => false end) r
  | _ => false
  end.

Definition assertSorobanContractId (contractId label : string) : result unit :=
  throw_if (negb (CONTRACT_ID_PATTERN contractId)) (PlainError ("Invalid " +:+ label +:+ ": " +:+ contractId)).

(** ** The SDK *)

(** A topic of an event in JavaScript, where the code only asks whether it is a given
    string, or prints it. *)
Inductive unknown := UString (s : string) | UOther (printed : string).

(** [String(v)] *)
Definition String_of_unknown (v : unknown) : string := match v with UString s => s | UOther s => s end.

(** [v === s] *)
Definition unknown_is (v : unknown) (s : string) : bool :=
  match v with UString s' => bool_decide (s' = s) | UOther _ => false end.

Inductive bigint_or_number := JBigint (n : Z) | JNumber (n : Z).

Record SorobanLoan := {
  sl_principal : option Z;
  sl_amount_due : option Z;
  sl_amountDue : option Z;
  sl_start : option Z;
  sl_due : option Z;
  sl_fee_bps : option Z;
  sl_feeBps : option Z;
  sl_grace_period : option bigint_or_number;
  sl_gracePeriod : option bigint_or_number;
  sl_active : option bool;
}.

Record SorobanPremium := {
  sp_premium_rate_per_sec_wad : option Z;
  sp_premiumRatePerSecWad : option Z;
  sp_late_rate_per_sec_wad : option Z;
  sp_lateRatePerSecWad : option Z;
}.

Record SorobanUserRisk := {
  sr_score : option Z;
  sr_valid_until : option bigint_or_number;
  sr_validUntil : option bigint_or_number;
  sr_limit : option Z;
}.

(** [scValToNative(v)] at the type the code gives it ([fromScVal<T>]), which is the
    one the interface of the contract declares. *)
Class FromScVal `{SDK : StellarSdk} (T : Type) := fromScVal : ScVal -> result T.

Class SorobanSdk `{SDK : StellarSdk} := {
  Keypair : Type;
  Contract : Type;
  Account : Type;
  Prepared : Type;
  Keypair_fromSecret : string -> result Keypair;
  publicKey : Keypair -> string;
  sign : Keypair -> Prepared -> Prepared;
  (** [new Contract(id)] *)
  new_Contract : string -> result Contract;
  scv_u32 : num -> result ScVal;
  scv_u64 : Z -> result ScVal;
  scv_bool : bool -> ScVal;
  scv_symbol : string -> result ScVal;
  (** [v.toXDR('base64')] *)
  toXDR : ScVal -> string;
  native_bigint :: FromScVal Z;
  native_number :: FromScVal num;
  native_boolean :: FromScVal bool;
  native_pair :: FromScVal (Z * Z);
  native_triple :: FromScVal (Z * Z * Z);
  native_loan :: FromScVal SorobanLoan;
  native_premium :: FromScVal SorobanPremium;
  native_risk :: FromScVal SorobanUserRisk;
  native_unknown :: FromScVal unknown;
}.

(** ** The RPC server *)

Section Types.
  Context `{SSDK : SorobanSdk}.

(** A built transaction: the operator's account, one call, the base fee, and
    [setTimeout(30)]. *)
Record ContractTx := {
  tx_account : Account;
  tx_contract : Contract;
  tx_method : string;
  tx_args : list ScVal;
}.

Inductive Simulation :=
  | SimError (error : string)
  | SimResult (retval : option ScVal).

Inductive SendStatus := PENDING | DUPLICATE | TRY_AGAIN_LATER | ERROR.

Record SendResponse := { sent_status : SendStatus; sent_hash : string }.

Inductive TxStatus := SUCCESS | FAILED | NOT_FOUND.

Record ContractEvent := {
  ce_contractId : option (list Z);
  ce_topics : list ScVal;
  ce_data : ScVal;
}.

Record TxResponse := {
  tr_status : TxStatus;
  tr_ledger : Z;
  (** [events?.contractEventsXdr] *)
  tr_events : option (list (list ContractEvent));
}.

(** The [topics] of a filter: a list of topic filters, each a list of segments. *)
Inductive EventRange :=
  | FromCursor (cursor : string)
  | Ledgers (startLedger endLedger : Z).

Record EventQuery := {
  q_contractIds : list string;
  q_topics : list (list string);
  q_range : EventRange;
  q_limit : nat;
}.

Record EventResponse := {
  er_inSuccessfulContractCall : bool;
  er_topic : list ScVal;
  er_value : ScVal;
  er_ledger : Z;
  er_txHash : string;
  er_ledgerClosedAt : string;
}.

Record EventPage := { pg_events : list EventResponse; pg_cursor : string }.

Record LatestLedger := { ll_sequence : Z; ll_closeTime : string }.

Inductive rpc_call :=
  | RGetAccount (key : string)
  | RSimulate (tx : ContractTx) (answer : result Simulation)
  | RPrepare (tx : ContractTx) (answer : result Prepared)
  | RSend (tx : Prepared) (answer : result SendResponse)
  | RGetTransaction (hash : string) (answer : result TxResponse)
  | RGetEvents (query : EventQuery) (answer : result EventPage)
  | RLatestLedger (answer : result LatestLedger)
  | RNow (millis : Z)
  | RSleep (millis : Z).

(** *** The filters of [getEvents]

    As documented: an event matches when one of the topic filters has as many
    segments as it has topics, and each segment is [*] or the topic in its place. *)

Definition segment_matches (segment : string) (topic : ScVal) : bool :=
  bool_decide (segment = "*"%string) || bool_decide (segment = toXDR topic).

Fixpoint topics_match (segments : list string) (topics : list ScVal) : bool :=
  match segments, topics with
  | [], [] => true
  | s :: segments', v :: topics' => segment_matches s v && topics_match segments' topics'
  | _, _ => false
  end.

Definition event_matches (filters : list (list string)) (event : EventResponse) : bool :=
  existsb (fun f => topics_match f (er_topic event)) filters.
End Types.
(** The calls made to the server so far. *)
Abbreviation rpc_trace SSDK := (list (rpc_call (SSDK := SSDK))).

(** Every answer is a function of the calls made before. *)
Class SorobanRpc `(SSDK : SorobanSdk) := {
  rpc_getAccount : rpc_trace SSDK -> string -> result Account;
  rpc_simulate : rpc_trace SSDK -> ContractTx -> result Simulation;
  rpc_prepare : rpc_trace SSDK -> ContractTx -> result Prepared;
  rpc_send : rpc_trace SSDK -> Prepared -> result SendResponse;
  rpc_getTransaction : rpc_trace SSDK -> string -> result TxResponse;
  rpc_getEvents : rpc_trace SSDK -> EventQuery -> result EventPage;
  rpc_getLatestLedger : rpc_trace SSDK -> result LatestLedger;
  (** [Date.now()] *)
  rpc_now : rpc_trace SSDK -> Z;
}.

Section Methods.
  Context `{RPC : SorobanRpc} (cfg : SorobanConfig).

  Abbreviation rpc := (proc (rpc_trace SSDK)).

Definition getAccount (key : string) : rpc Account :=
  ask (fun t => rpc_getAccount t key) (fun _ => RGetAccount key).
Definition simulateTransaction (tx : ContractTx) : rpc Simulation :=
  ask (fun t => rpc_simulate t tx) (RSimulate tx).
Definition prepareTransaction (tx : ContractTx) : rpc Prepared :=
  ask (fun t => rpc_prepare t tx) (RPrepare tx).
Definition sendTransaction (tx : Prepared) : rpc SendResponse :=
  ask (fun t => rpc_send t tx) (RSend tx).
Definition getTransaction (hash : string) : rpc TxResponse :=
  ask (fun t => rpc_getTransaction t hash) (RGetTransaction hash).
Definition getEvents (query : EventQuery) : rpc EventPage :=
  ask (fun t => rpc_getEvents t query) (RGetEvents query).
Definition getLatestLedger : rpc LatestLedger := ask rpc_getLatestLedger RLatestLedger.
Definition Date_now : rpc Z := ask_value rpc_now RNow.
Definition sleep (ms : Z) : rpc unit := note (RSleep ms).

Definition operatorSecret : result string :=
  match STELLAR_OPERATOR_SECRET cfg with
  | None | Some ""%string => Throw (PlainError "Missing STELLAR_OPERATOR_SECRET")
  | Some s => Ok s
  end.

Definition operatorKeypair : result Keypair := s ← operatorSecret; Keypair_fromSecret s.

Definition isRetryableSendError (e : exn) : bool := includes (exn_message e) "TRY_AGAIN_LATER".

(** [/TX_CONFIRM_TIMEOUT/i] *)
Definition isRetryableConfirmError (e : exn) : bool := includes (toUpperCase (exn_message e)) "TX_CONFIRM_TIMEOUT".

(** One pass of the [try] of [sendPreparedTransaction]. *)
Definition send_once (prepared : Prepared) (purpose : string) : rpc SendResponse :=
  result ← sendTransaction prepared;
  match sent_status result with
  | TRY_AGAIN_LATER => Raise (PlainError ("TRY_AGAIN_LATER " +:+ sent_hash result))
  | ERROR => Raise (PlainError ("Soroban send failed for " +:+ purpose +:+ ": " +:+ sent_hash result))
  | _ => Return result
  end.

Definition sendPreparedTransaction (prepared : Prepared) (purpose : string) : rpc SendResponse :=
  attempts RSleep (send_once prepared purpose) isRetryableSendError (PlainError (purpose +:+ " send failed"))
    (Z.to_nat (MAX_SEND_ATTEMPTS cfg)) 1 None.

Definition confirm_timeout (hash : string) : exn :=
  PlainError ("TX_CONFIRM_TIMEOUT: " +:+ hash +:+ " not confirmed in " +:+ String_of_int (TX_CONFIRM_TIMEOUT_MS cfg) +:+ "ms").

(** [while (Date.now() - start < TX_CONFIRM_TIMEOUT_MS) ...]; [None] when the fuel
    runs out. *)
Fixpoint confirm_loop (fuel : nat) (start : Z) (hash : string) : rpc (option TxResponse) :=
  match fuel with
  | O => Return None
  | S fuel' =>
      now ← Date_now;
      if now - start <? TX_CONFIRM_TIMEOUT_MS cfg then
        tx ← getTransaction hash;
        match tr_status tx with
        | SUCCESS => Return (Some tx)
        | FAILED => Raise (PlainError ("Soroban tx failed: " +:+ hash))
        | NOT_FOUND => _ ← sleep 1000; confirm_loop fuel' start hash
        end
      else Raise (confirm_timeout hash)
  end.

(** More polls than a clock that moves allows. *)
Definition confirm_fuel : nat := S (S (Z.to_nat (TX_CONFIRM_TIMEOUT_MS cfg))).

Definition waitForTransaction (hash : string) : rpc TxResponse :=
  start ← Date_now;
  o ← confirm_loop confirm_fuel start hash;
  match o with Some tx => Return tx | None => Raise (PlainError "out of fuel") end.

Definition waitForTransactionWithRetry (hash purpose : string) : rpc TxResponse :=
  attempts RSleep (waitForTransaction hash) isRetryableConfirmError
    (PlainError (purpose +:+ " confirmation failed for " +:+ hash)) (Z.to_nat (MAX_SEND_ATTEMPTS cfg)) 1 None.

Definition build_transaction (contractId method : string) (args : list ScVal) : rpc ContractTx :=
  keypair ← of_result operatorKeypair;
  account ← getAccount (publicKey keypair);
  contract ← of_result (new_Contract contractId);
  Return {| tx_account := account; tx_contract := contract; tx_method := method; tx_args := args |}.

Definition buildContractTransaction (method : string) (args : list ScVal) : rpc ContractTx :=
  build_transaction (SOROBAN_LOAN_MANAGER cfg) method args.

(** [None] is null: the simulation has no result. *)
Definition simulateLoanManagerCall {T} `{!FromScVal T} (method : string) (args : list ScVal) : rpc (option T) :=
  _ ← of_result (assertSorobanContractId (SOROBAN_LOAN_MANAGER cfg) "SOROBAN_LOAN_MANAGER");
  tx ← buildContractTransaction method args;
  sim ← simulateTransaction tx;
  match sim with
  | SimError error => Raise (PlainError ("Soroban simulation failed for " +:+ method +:+ ": " +:+ error))
  | SimResult None => Return None
  | SimResult (Some retval) => v ← of_result (fromScVal retval); Return (Some v)
  end.

Definition simulateUsdcSacDecimals : rpc num :=
  _ ← of_result (assertSorobanContractId (SOROBAN_USDC_SAC cfg) "SOROBAN_USDC_SAC");
  tx ← build_transaction (SOROBAN_USDC_SAC cfg) "decimals" [];
  sim ← simulateTransaction tx;
  match sim with
  | SimError error => Raise (PlainError ("decimals() simulation failed: " +:+ error))
  | SimResult None => Raise (PlainError "decimals() simulation returned no result")
  | SimResult (Some retval) => of_result (fromScVal retval)
  end.

(** The task [sendLoanManagerCall] puts in the queue. *)
Definition loan_manager_task (method : string) (args : list ScVal) (purpose : string) : rpc TxResponse :=
  keypair ← of_result operatorKeypair;
  tx ← buildContractTransaction method args;
  prepared ← prepareTransaction tx;
  sent ← sendPreparedTransaction (sign keypair prepared) (purpose +:+ ":send");
  waitForTransactionWithRetry (sent_hash sent) purpose.

(** What [sendLoanManagerCall] does at once: it throws, or the task is queued. *)
Definition queue_loan_manager_call (method : string) (args : list ScVal) (purpose : string) (priority : TxPriority)
    (q : SorobanQueue (rpc_trace SSDK) TxResponse) : result (SorobanQueue (rpc_trace SSDK) TxResponse) :=
  _ ← assertSorobanContractId (SOROBAN_LOAN_MANAGER cfg) "SOROBAN_LOAN_MANAGER";
  mret (enqueueSoroban (loan_manager_task method args purpose) priority q).

(** The call and its outcome, when its turn comes ([SorobanQueue]: the tasks run one
    after the other). *)
Definition sendLoanManagerCall (method : string) (args : list ScVal) (purpose : string) : rpc TxResponse :=
  _ ← of_result (assertSorobanContractId (SOROBAN_LOAN_MANAGER cfg) "SOROBAN_LOAN_MANAGER");
  loan_manager_task method args purpose.

Definition isLoanManagerContractEvent (event : ContractEvent) : result bool :=
  match ce_contractId event with
  | None => Ok false
  | Some id => manager ← StrKey_decodeContract (SOROBAN_LOAN_MANAGER cfg); Ok (bool_decide (id = manager))
  end.
End Methods.
