(* ===== verification/SorobanSample.v ===== *)
(** * A concrete SDK and a concrete server

    Instances of the parameters of [SorobanConfig], for the witnesses. Tokens are
    modelled by values of [StellarSdk.model_scval]; the server knows the outcome of
    each transaction and of each simulation, answers the first sends that it is busy,
    pages through a list of events, and has a clock that moves with each call and
    with each pause. *)

From stdpp Require Import base tactics list strings numbers.
From Stdlib Require Import Lia ZArith Ascii.
From S2P Require Import Prelude JsString JsNum JsDate StellarSdk SorobanConfig.

Local Open Scope Z_scope.

(** The number in a value, of any of the integer types. *)
Definition int_of (v : model_scval) : option Z :=
  match v with MI128 n | MU32 n | MU64 n => Some n | _ => None end.

Definition mistyped : exn := PlainError "scValToNative".

Definition model_xdr (v : model_scval) : string :=
  match v with
  | MBytes _ => "bytes"
  | MAddress s => "address:" +:+ s
  | MI128 n => "i128:" +:+ String_of_int n
  | MU32 n => "u32:" +:+ String_of_int n
  | MU64 n => "u64:" +:+ String_of_int n
  | MBool b => if b then "true" else "false"
  | MSymbol s => "symbol:" +:+ s
  | MPair _ _ => "pair"
  | MTriple _ _ _ => "triple"
  | MLoan _ _ _ | MPremium _ | MRisk _ _ _ => "struct"
  end.

Definition unsigned (bits : Z) (mk : Z -> model_scval) (n : Z) : result model_scval :=
  if (0 <=? n) && (n <? 2 ^ bits) then Ok (mk n) else Throw (RangeError "unsigned").

#[export] Instance ModelSoroban : SorobanSdk (SDK := ModelSdk) := {|
  Keypair := string;
  Contract := string;
  Account := string;
  Prepared := string * bool;
  Keypair_fromSecret s := Ok s;
  publicKey k := "G-of-" +:+ k;
  sign k p := (p.1, true);
  new_Contract id := if StrKey_isValidContract id then Ok id else Throw (PlainError "Invalid contract ID");
  scv_u32 x := match num_integer x with Some n => unsigned 32 MU32 n | None => Throw (RangeError "u32") end;
  scv_u64 := unsigned 64 MU64;
  scv_bool := MBool;
  scv_symbol s := if bool_decide (length (chars s) <= 32)%nat then Ok (MSymbol s) else Throw (PlainError "symbol");
  toXDR := model_xdr;
  native_bigint v := result_of_option mistyped (int_of v);
  native_number v := match v with MU32 n => Ok (num_of_Z n) | _ => Throw mistyped end;
  native_boolean v := match v with MBool b => Ok b | _ => Throw mistyped end;
  native_pair v := match v with MPair a b => Ok (a, b) | _ => Throw mistyped end;
  native_triple v := match v with MTriple a b c => Ok (a, b, c) | _ => Throw mistyped end;
  native_loan v := match v with
    | MLoan principal due active => Ok {|
        sl_principal := Some principal; sl_amount_due := Some due; sl_amountDue := None; sl_start := None; sl_due := None;
        sl_fee_bps := None; sl_feeBps := None; sl_grace_period := None; sl_gracePeriod := None; sl_active := Some active |}
    | _ => Throw mistyped
    end;
  native_premium v := match v with
    | MPremium late => Ok {|
        sp_premium_rate_per_sec_wad := None; sp_premiumRatePerSecWad := None;
        sp_late_rate_per_sec_wad := Some late; sp_lateRatePerSecWad := None |}
    | _ => Throw mistyped
    end;
  native_risk v := match v with
    | MRisk score until limit => Ok {|
        sr_score := Some score; sr_valid_until := Some (JBigint until); sr_validUntil := None; sr_limit := Some limit |}
    | _ => Throw mistyped
    end;
  native_unknown v := match v with
    | MSymbol s | MAddress s => Ok (UString s)
    | MI128 n | MU32 n | MU64 n => Ok (UOther (String_of_int n))
    | _ => Ok (UOther "[object]")
    end;
|}.

#[export] Instance NoOtherDates : DateParser := {| date_parse_other _ := None |}.

(** What a sample server knows. *)
Record Server := {
  sv_transactions : string -> TxResponse;
  sv_simulations : ContractTx -> Simulation;
  sv_events : list EventResponse;
  (** how many sends are answered [TRY_AGAIN_LATER] *)
  sv_busy : nat;
  sv_start : Z;
}.

(** The time a call takes. *)
Definition elapsed (c : rpc_call) : Z := match c with RSleep ms => Z.max 0 ms | _ => 1 end.

Definition clock (start : Z) (t : list rpc_call) : Z := fold_left (fun now c => now + elapsed c) t start.

Definition was_send (c : rpc_call) : bool := match c with RSend _ _ => true | _ => false end.

(** A cursor of the sample server counts the events read. *)
Definition cursor_text (n : nat) : string := of_chars ("c"%char :: replicate n "."%char).
Definition cursor_count (c : string) : nat := length (chars c) - 1.

Definition sample_rpc (sv : Server) : SorobanRpc ModelSoroban := {|
  rpc_getAccount _ key := Ok key;
  rpc_simulate _ tx := Ok (sv_simulations sv tx);
  rpc_prepare _ tx := Ok (tx_method tx, false);
  rpc_send t p := Ok {|
    sent_status := if (length (List.filter was_send t) <? sv_busy sv)%nat then TRY_AGAIN_LATER else PENDING;
    sent_hash := "hash-of-" +:+ p.1 |};
  rpc_getTransaction _ hash := Ok (sv_transactions sv hash);
  rpc_getEvents _ q :=
    let skip := match q_range q with FromCursor c => cursor_count c | Ledgers _ _ => 0%nat end in
    let page := take (q_limit q) (drop skip (List.filter (event_matches (q_topics q)) (sv_events sv))) in
    Ok {| pg_events := page; pg_cursor := cursor_text (skip + length page) |};
  rpc_getLatestLedger _ := Ok {| ll_sequence := 1000; ll_closeTime := "" |};
  rpc_now := clock (sv_start sv);
|}.

(** An account id that passes every check. *)
Definition sample_account : string := "GDCZFUNJ7MXWBIQ6UUTJRGZIJF5EMRVJCSK73MA2U7K57GWMA4N3P6SL".
