(* ===== verification/SorobanTx.v ===== *)
(** * What sending a transaction does

    The theorems about [SorobanConfig]: how often a signed transaction is sent and
    when the code gives up, that waiting for a transaction comes to an end, and what
    a confirmed call of the LoanManager means. *)

From stdpp Require Import base tactics list strings numbers.
From Stdlib Require Import Lia ZArith.
From S2P Require Import Prelude JsString JsNum StellarSdk Gateway Async Trace SorobanQueue SorobanConfig SorobanSample.

Local Open Scope Z_scope.

(** ** The calls a method makes *)

Lemma emits_sleep `{RPC : SorobanRpc} (P : list rpc_call -> result unit -> Prop) ms : P [RSleep ms] (Ok tt) -> emits P (sleep ms).
Proof. apply emits_note. Qed.

Lemma emits_now `{RPC : SorobanRpc} (P : list rpc_call -> result Z -> Prop) : (forall n, P [RNow n] (Ok n)) -> emits P Date_now.
Proof. apply emits_ask_value. Qed.

#[export] Hint Resolve emits_sleep emits_now : emits.

Ltac emits_step ::=
  lazymatch goal with
  | |- emits _ (_ ≫= _) => apply emits_bind
  | |- emits _ (proc_try _ _) => apply emits_try
  | |- emits _ (settle _) => apply emits_settle
  | |- emits _ (of_result _) => apply emits_result
  | |- emits _ (Return _) => apply emits_return
  | |- emits _ (mret _) => apply emits_return
  | |- emits _ (Raise _) => apply emits_raise
  | |- emits _ (ask _ _) => apply emits_ask; intro
  | |- emits _ (ask_value _ _) => apply emits_ask_value; intro
  | |- emits _ (note _) => apply emits_note
  | |- emits _ (sleep _) => apply emits_sleep
  | |- emits _ Date_now => apply emits_now; intro
  end.

(** ** Sending *)

Section Sending.
  Context `{RPC : SorobanRpc} (cfg : SorobanConfig).

(** What an answer to [sendTransaction] comes to. *)
Definition send_outcome (purpose : string) (answer : result SendResponse) : result SendResponse :=
  result ← answer;
  match sent_status result with
  | TRY_AGAIN_LATER => Throw (PlainError ("TRY_AGAIN_LATER " +:+ sent_hash result))
  | ERROR => Throw (PlainError ("Soroban send failed for " +:+ purpose +:+ ": " +:+ sent_hash result))
  | _ => Ok result
  end.

Definition sent_once (prepared : Prepared) (purpose : string) (calls : list rpc_call) (r : result SendResponse) : Prop :=
  exists answer, calls = [RSend prepared answer] /\ r = send_outcome purpose answer.

Lemma send_once_emits prepared purpose : emits (sent_once prepared purpose) (send_once prepared purpose).
Proof.
  unfold send_once, sendTransaction. repeat emits_step. destruct r as [a|e]; [|by exists (Throw e)].
  destruct (sent_status a) eqn:Ea; repeat emits_step; exists (Ok a); unfold send_outcome; cbn; by rewrite Ea.
Qed.

(** Sending makes at least one attempt. *)
Lemma attempts_pos : 0 < MAX_SEND_ATTEMPTS cfg -> (0 < Z.to_nat (MAX_SEND_ATTEMPTS cfg))%nat.
Proof. lia. Qed.

Lemma sendPrepared_emits prepared purpose (Hmax : 0 < MAX_SEND_ATTEMPTS cfg) :
  emits (attempted RSleep (sent_once prepared purpose) isRetryableSendError (Z.to_nat (MAX_SEND_ATTEMPTS cfg)) 1)
    (sendPreparedTransaction cfg prepared purpose).
Proof. apply attempts_emits; [apply send_once_emits|lia]. Qed.

(** ** Waiting *)

(** The calls of the methods that wait for a transaction. *)
Definition is_poll (hash : string) (c : rpc_call) : Prop :=
  match c with RNow _ | RSleep _ => True | RGetTransaction h _ => h = hash | _ => False end.

(** They only ask for it, and answer with a success the server reported. *)
Definition waited (hash : string) (calls : list rpc_call) (r : result TxResponse) : Prop :=
  Forall (is_poll hash) calls /\
  (forall tx, r = Ok tx -> RGetTransaction hash (Ok tx) ∈ calls /\ tr_status tx = SUCCESS).

Definition polled (hash : string) (calls : list rpc_call) (r : result (option TxResponse)) : Prop :=
  Forall (is_poll hash) calls /\
  (forall tx, r = Ok (Some tx) -> RGetTransaction hash (Ok tx) ∈ calls /\ tr_status tx = SUCCESS).

Lemma polled_after hash cs cs' r : Forall (is_poll hash) cs -> polled hash cs' r -> polled hash (cs ++ cs') r.
Proof.
  intros Hcs [H1 H2]. split; [by apply Forall_app|]. intros tx Hr. destruct (H2 tx Hr). split; [|done].
  apply elem_of_app. by right.
Qed.

Lemma confirm_loop_emits fuel start hash : emits (polled hash) (confirm_loop cfg fuel start hash).
Proof.
  revert start. induction fuel as [|fuel IH]; intros start; cbn [confirm_loop]; [by apply emits_return|].
  repeat emits_step. destruct (n - start <? TX_CONFIRM_TIMEOUT_MS cfg).
  - unfold getTransaction. repeat emits_step. destruct r as [tx|e]; [|split; [by repeat constructor|done]].
    destruct (tr_status tx) eqn:Es; repeat emits_step.
    + split; [by repeat constructor|]. intros ? [= <-]. split; [right; left|done].
    + split; [by repeat constructor|done].
    + eapply emits_mono; [|apply IH]. intros cs r Hr.
      rewrite !app_assoc. by apply polled_after; [repeat constructor|].
  - repeat emits_step. split; [by repeat constructor|done].
Qed.

Lemma waitForTransaction_emits hash : emits (waited hash) (waitForTransaction cfg hash).
Proof.
  unfold waitForTransaction. repeat emits_step. eapply emits_mono; [|apply confirm_loop_emits].
  intros cs r [H1 H2]. destruct r as [[tx|]|e]; repeat emits_step; rewrite ?app_nil_r.
  - destruct (H2 tx eq_refl). split; [by repeat constructor|]. intros ? [= <-]. split; [by right|done].
  - split; [by repeat constructor|done].
  - split; [by repeat constructor|done].
Qed.

Lemma waited_attempted hash retryable n k calls r : attempted RSleep (waited hash) retryable n k calls r -> waited hash calls r.
Proof.
  intros H. split.
  - apply list.Forall_forall. intros c Hc. destruct (attempted_in _ _ _ _ _ _ _ _ H Hc) as [[ms ->]|(cs & r' & [Hcs _] & Hin)]; [done|].
    by apply (proj1 (list.Forall_forall _ _) Hcs).
  - destruct H as (ps & cl & -> & _ & _ & [_ Hcl] & _). intros tx Hr. destruct (Hcl tx Hr). split; [|done].
    apply elem_of_app. by right.
Qed.

Lemma waitWithRetry_emits hash purpose (Hmax : 0 < MAX_SEND_ATTEMPTS cfg) :
  emits (waited hash) (waitForTransactionWithRetry cfg hash purpose).
Proof.
  eapply emits_mono; [|apply attempts_emits; [apply waitForTransaction_emits|lia]].
  intros cs r. apply waited_attempted.
Qed.

(** ** The clock *)

(** Time does not go back, and a pause lasts; [setTimeout] may fire a millisecond
    early. *)
Class ClockLaws (RPC' : SorobanRpc SSDK) : Prop := {
  clock_forward t c : rpc_now t <= rpc_now (t ++ [c]);
  clock_sleep t ms : rpc_now t + ms - 1 <= rpc_now (t ++ [RSleep ms]);
}.

Lemma clock_prefix `{!ClockLaws RPC} t t' : t `prefix_of` t' -> rpc_now t <= rpc_now t'.
Proof.
  intros [k ->]. revert t. induction k as [|c k IH]; intros t; [by rewrite app_nil_r|].
  specialize (IH (t ++ [c])). rewrite <- app_assoc in IH. pose proof (clock_forward t c). cbn in *. lia.
Qed.

(** What is left of the time is less than the fuel. *)
Lemma confirm_loop_ends `{!ClockLaws RPC} fuel start hash t :
  start + TX_CONFIRM_TIMEOUT_MS cfg - rpc_now t < Z.of_nat fuel -> (0 < fuel)%nat ->
  since (fun _ => True) prefix (fun _ r => r <> Ok None) t (confirm_loop cfg fuel start hash).
Proof.
  revert t. induction fuel as [|fuel IH]; intros t Hfuel Hpos; [lia|]. cbn [confirm_loop].
  apply since_bind, since_await. intros t1 _ H1. cbn [fst snd].
  pose proof (clock_prefix _ _ H1) as C1. split_and!; [done|by apply prefix_app_r|].
  destruct (rpc_now t1 - start <? TX_CONFIRM_TIMEOUT_MS cfg) eqn:Et; [bool_to_prop|done].
  apply since_bind, since_await. intros t2 _ H2. cbn [fst snd].
  pose proof (clock_prefix _ _ H2) as C2. pose proof (clock_forward t1 (RNow (rpc_now t1))) as C3.
  split_and!; [done|by apply prefix_app_r|]. destruct (rpc_getTransaction t2 hash) as [tx|e]; [|done].
  destruct (tr_status tx); [done..|].
  apply since_bind, since_await. intros t3 _ H3. cbn [fst snd].
  pose proof (clock_prefix _ _ H3) as C4. pose proof (clock_forward t2 (RGetTransaction hash (Ok tx))) as C5.
  split_and!; [done|by apply prefix_app_r|]. pose proof (clock_sleep t3 1000) as C6.
  destruct fuel as [|fuel]; [lia|]. apply IH; lia.
Qed.

(** ** Calls of the contract *)

Definition is_send (c : rpc_call) : bool := match c with RSend _ _ => true | _ => false end.
Definition sends (calls : list rpc_call) : list rpc_call := List.filter is_send calls.

Definition accepted_send (s : SendStatus) : Prop := s = PENDING \/ s = DUPLICATE.

Lemma sends_app cs cs' : sends (cs ++ cs') = sends cs ++ sends cs'.
Proof. apply List.filter_app. Qed.

Lemma sent_once_sends prepared purpose cs r : sent_once prepared purpose cs r -> exists a, sends cs = [RSend prepared a].
Proof. intros (a & -> & _). by exists a. Qed.

Lemma paused_sends prepared purpose k ps :
  Forall (fun x => sent_once prepared purpose x.1 (Throw x.2) /\ isRetryableSendError x.2 = true) ps ->
  Forall (fun c => exists a, c = RSend prepared a) (sends (paused RSleep k ps)) /\ length (sends (paused RSleep k ps)) = length ps.
Proof.
  intros H. revert k. induction H as [|[cs e] ps [Hone _] _ IH]; intros k; [by split|]. cbn [paused].
  destruct (IH (k + 1)) as [H1 H2]. destruct (sent_once_sends _ _ _ _ Hone) as [a Ha]. cbn [fst] in Ha.
  rewrite sends_app, Ha. cbn. split; [constructor; [by exists a|done]|]. by f_equal.
Qed.

(** What the passes of a send leave in the trace. *)
Lemma attempted_sends prepared purpose n k calls r :
  attempted RSleep (sent_once prepared purpose) isRetryableSendError n k calls r ->
  Forall (fun c => exists a, c = RSend prepared a) (sends calls) /\ (length (sends calls) <= n)%nat /\
  (forall sent, r = Ok sent -> RSend prepared (Ok sent) ∈ calls /\ accepted_send (sent_status sent)).
Proof.
  intros (ps & cl & -> & Hl & Hps & Hcl & _). destruct (paused_sends _ _ k ps Hps) as [H1 H2].
  rewrite sends_app. destruct Hcl as (a & -> & Hr). split_and!.
  - apply Forall_app. split; [done|]. repeat constructor. by exists a.
  - rewrite length_app, H2. cbn. lia.
  - intros sent ->. unfold send_outcome in Hr. destruct a as [s|e]; [|done]. cbn in Hr.
    destruct (sent_status s) eqn:Es; cbn in Hr; simplify_eq; (split; [apply elem_of_app; right; left|]);
      unfold accepted_send; rewrite Es; auto.
Qed.

(** The calls and the outcome of one call of the contract. *)
Record contract_call (method : string) (args : list ScVal) (calls : list rpc_call) (r : result TxResponse) : Prop := {
  (** one signed transaction, of this call, however often it is sent *)
  cc_sent : sends calls = [] \/ exists keypair account contract prepared,
    operatorKeypair cfg = Ok keypair /\ new_Contract (SOROBAN_LOAN_MANAGER cfg) = Ok contract /\
    RPrepare {| tx_account := account; tx_contract := contract; tx_method := method; tx_args := args |} (Ok prepared) ∈ calls /\
    Forall (fun c => exists a, c = RSend (sign keypair prepared) a) (sends calls);
  cc_bounded : Z.of_nat (length (sends calls)) <= MAX_SEND_ATTEMPTS cfg;
  (** an outcome the server confirmed *)
  cc_confirmed tx : r = Ok tx -> exists signed sent,
    RSend signed (Ok sent) ∈ calls /\ accepted_send (sent_status sent) /\
    RGetTransaction (sent_hash sent) (Ok tx) ∈ calls /\ tr_status tx = SUCCESS;
}.

Lemma no_call method args calls e : 0 < MAX_SEND_ATTEMPTS cfg -> sends calls = [] -> contract_call method args calls (Throw e).
Proof. intros Hm Hc. split; [by left|rewrite Hc; cbn; lia|done]. Qed.

Lemma polls_no_sends hash cs : Forall (is_poll hash) cs -> sends cs = [].
Proof. induction 1 as [|c cs Hc _ IH]; [done|]. by destruct c; cbn. Qed.

Lemma call_emits method args purpose (Hmax : 0 < MAX_SEND_ATTEMPTS cfg) :
  emits (contract_call method args) (sendLoanManagerCall cfg method args purpose).
Proof.
  unfold sendLoanManagerCall, loan_manager_task, buildContractTransaction, build_transaction.
  repeat emits_step. destruct (assertSorobanContractId _ _) as [[]|e]; [|by apply no_call].
  repeat emits_step. destruct (operatorKeypair cfg) as [kp|e] eqn:Ek; [|by apply no_call].
  repeat emits_step. cbn [app]. unfold getAccount. repeat emits_step. destruct r as [account|e]; [|by apply no_call].
  repeat emits_step. destruct (new_Contract (SOROBAN_LOAN_MANAGER cfg)) as [contract|e] eqn:Ec; [|by apply no_call].
  repeat emits_step. cbn [app]. unfold prepareTransaction. repeat emits_step.
  destruct r as [prepared|e]; [|by apply no_call].
  repeat emits_step. eapply emits_mono; [|by apply sendPrepared_emits]. intros cs r Hs.
  destruct (attempted_sends _ _ _ _ _ _ Hs) as (H1 & H2 & H3).
  assert (Hcall : forall cs' r', sends cs' = [] ->
    (forall tx, r' = Ok tx -> exists sent, r = Ok sent /\ RGetTransaction (sent_hash sent) (Ok tx) ∈ cs' /\ tr_status tx = SUCCESS) ->
    contract_call method args
      ([RGetAccount (publicKey kp)] ++ [RPrepare {| tx_account := account; tx_contract := contract; tx_method := method; tx_args := args |} (Ok prepared)] ++ cs ++ cs') r').
  { intros cs' r' Hno Hok. assert (Hsends : forall p, sends ([RGetAccount (publicKey kp)] ++ [RPrepare p (Ok prepared)] ++ cs ++ cs') = sends cs).
    { intros p. cbn. by rewrite sends_app, Hno, app_nil_r. }
    split.
    - right. exists kp, account, contract, prepared. rewrite Hsends. split_and!; [done..| |done]. right. left.
    - rewrite Hsends. lia.
    - intros tx Htx. destruct (Hok tx Htx) as (sent & -> & Hin & Hst). destruct (H3 sent eq_refl) as [Hsent Hacc].
      exists (sign kp prepared), sent. split_and!; [|done| |done].
      + do 2 right. apply elem_of_app. by left.
      + do 2 right. apply elem_of_app. by right. }
  destruct r as [sent|e].
  - repeat emits_step. eapply emits_mono; [|by apply waitWithRetry_emits]. intros cs' r' [Hp Hok].
    cbn in Hcall |- *. rewrite <- ?app_assoc. apply Hcall; [by eapply polls_no_sends|].
    intros tx Hr. exists sent. destruct (Hok tx Hr). auto.
  - specialize (Hcall [] (Throw e)). rewrite app_nil_r in Hcall. by apply Hcall.
Qed.

(** ** Properties *)

Lemma load_config_pos env c : load_config env = Ok c -> 0 < MAX_SEND_ATTEMPTS c /\ 0 < TX_CONFIRM_TIMEOUT_MS c.
Proof.
  assert (Hpos : forall name raw fallback v, positiveIntEnv name raw fallback = Ok v -> 0 < v).
  { intros name raw fallback v. unfold positiveIntEnv. repeat case_scrut; intros H; simplify_eq; bool_to_prop; lia. }
  unfold load_config. intros H. result_inv. cbn. eauto.
Qed.

(** C16. A call of the contract signs one transaction, for the given method and
    arguments, and sends that transaction and no other, at least once when it answers
    and never more often than the configuration allows; it answers a response only
    if the server accepted the transaction and reported its hash as a success. *)
Theorem contract_call_correct (env : SorobanEnv) (method : string) (args : list ScVal) (purpose : string) (t : rpc_trace SSDK)
    (Hcfg : load_config env = Ok cfg) :
  let '(r, t') := run (sendLoanManagerCall cfg method args purpose) t in
  exists calls, t' = t ++ calls /\ contract_call method args calls r.
Proof.
  destruct (load_config_pos env cfg Hcfg) as [Hmax _].
  pose proof (call_emits method args purpose Hmax t) as H. by destruct (run _ t).
Qed.

(** C34. Waiting for a transaction comes to an end: while other requests use the
    server at will, and as long as the clock moves, the loop leaves before its fuel
    does. *)
Theorem confirm_terminates `{CLOCK : !ClockLaws RPC} (hash : string) (t : rpc_trace SSDK) (Htime : 0 < TX_CONFIRM_TIMEOUT_MS cfg) :
  since (fun _ => True) prefix (fun _ r => r <> Ok None) t
    (start ← Date_now; confirm_loop cfg (confirm_fuel cfg) start hash).
Proof.
  apply since_bind, since_await. intros t1 _ H1. cbn [fst snd]. split_and!; [done|by apply prefix_app_r|].
  apply confirm_loop_ends; unfold confirm_fuel; [|lia]. pose proof (clock_forward t1 (RNow (rpc_now t1))). lia.
Qed.
End Sending.

(** ** Witnesses *)

Definition sample_soroban_env : SorobanEnv := {|
  env_SOROBAN_LOAN_MANAGER := None; env_SOROBAN_USDC_SAC := None; env_STELLAR_OPERATOR_SECRET := Some "S1"%string;
  env_CLM_TX_CONFIRM_TIMEOUT_MS := None; env_CLM_SEND_MAX_ATTEMPTS := Some "2"%string;
|}.

Definition sample_config : SorobanConfig := {|
  SOROBAN_LOAN_MANAGER := "CDIHUCP6DWKW7B6IUECP3SCK5WCI3W5ITNQDZEK2TNI55WLXDM6Y4WJJ";
  SOROBAN_USDC_SAC := "CDLZFC3SYJYDZT7K67VZ75HPJVIEUVNIXF47ZG2FB2RMQQVU2HHGCYSC";
  STELLAR_OPERATOR_SECRET := Some "S1"%string; TX_CONFIRM_TIMEOUT_MS := 60000; MAX_SEND_ATTEMPTS := 2;
|}.

(** A server that is busy at the first send and confirms at once. *)
Definition sample_server : Server := {|
  sv_transactions _ := {| tr_status := SUCCESS; tr_ledger := 77; tr_events := None |};
  sv_simulations _ := SimResult None; sv_events := []; sv_busy := 1; sv_start := 0;
|}.

#[export] Instance sample_clock (sv : Server) : ClockLaws (sample_rpc sv).
Proof. constructor; intros t x; cbn; unfold clock; rewrite fold_left_app; cbn; [destruct x; cbn; lia|lia]. Qed.

Lemma contract_call_correct_witness :
  load_config sample_soroban_env = Ok sample_config /\
  (let '(r, t') := run (sendLoanManagerCall (RPC := sample_rpc sample_server) sample_config "accrue_late" [] "accrue_late") [] in
   is_ok r = true /\ length (sends t') = 2%nat /\
   exists calls, t' = [] ++ calls /\ contract_call sample_config "accrue_late" [] calls r).
Proof.
  split; [vm_compute; reflexivity|].
  pose proof (contract_call_correct (RPC := sample_rpc sample_server) sample_config sample_soroban_env "accrue_late" [] "accrue_late" []
    ltac:(vm_compute; reflexivity)) as H.
  assert (Hr : is_ok (fst (run (sendLoanManagerCall (RPC := sample_rpc sample_server) sample_config "accrue_late" [] "accrue_late") [])) = true)
    by (vm_compute; reflexivity).
  assert (Ht : length (sends (snd (run (sendLoanManagerCall (RPC := sample_rpc sample_server) sample_config "accrue_late" [] "accrue_late") []))) = 2%nat)
    by (vm_compute; reflexivity).
  destruct (run (sendLoanManagerCall (RPC := sample_rpc sample_server) sample_config "accrue_late" [] "accrue_late") []) as [r t'].
  split; [exact Hr|]. split; [exact Ht|]. exact H.
Defined.

Lemma confirm_terminates_witness :
  since (fun _ => True) prefix (fun _ r => r <> Ok None) []
    (start ← Date_now (RPC := sample_rpc sample_server);
     confirm_loop (RPC := sample_rpc sample_server) sample_config (confirm_fuel sample_config) start "hash").
Proof.
  pose proof (confirm_terminates (RPC := sample_rpc sample_server) (CLOCK := sample_clock sample_server) sample_config "hash" [] ltac:(reflexivity)) as H.
  exact H.
Defined.
