(* ===== verification/SorobanGateway.v ===== *)
(** * The Soroban gateway
      ([backend/src/infrastructure/blockchain/soroban-blockchain.gateway.ts])

    The implementation of the gateway port over the RPC server: the reads and the
    calls of the LoanManager contract, the event scans, the verification of a loan or
    a repayment by its transaction, and the check of the token's decimals. Its
    theorems are in [SorobanTx] and [SorobanGatewayProps]. *)

From stdpp Require Import base tactics list strings numbers.
From Stdlib Require Import Lia ZArith.
From S2P Require Import Prelude JsString JsNum JsDate AmountUnits StellarSdk Gateway Async Trace SorobanConfig.

Local Open Scope Z_scope.

Definition Number_of (v : bigint_or_number) : Z :=
  match v with JBigint n => Number_Z n | JNumber n => n end.

(** [a ?? b] *)
Definition coalesce {A} (a b : option A) : option A := match a with Some _ => a | None => b end.

Definition empty_loan : SorobanLoan := {|
  sl_principal := None; sl_amount_due := None; sl_amountDue := None; sl_start := None; sl_due := None;
  sl_fee_bps := None; sl_feeBps := None; sl_grace_period := None; sl_gracePeriod := None; sl_active := None;
|}.

Definition normalizeLoan (loan : SorobanLoan) : OnChainLoanFull := {|
  f_principal := default 0 (sl_principal loan);
  f_amountDue := default 0 (coalesce (sl_amount_due loan) (sl_amountDue loan));
  f_start := default 0 (sl_start loan);
  f_due := default 0 (sl_due loan);
  f_feeBps := default 0 (coalesce (sl_fee_bps loan) (sl_feeBps loan));
  f_gracePeriod := Number_of (default (JNumber 0) (coalesce (sl_grace_period loan) (sl_gracePeriod loan)));
  f_active := default false (sl_active loan);
|}.

Definition empty_premium : SorobanPremium := {|
  sp_premium_rate_per_sec_wad := None; sp_premiumRatePerSecWad := None;
  sp_late_rate_per_sec_wad := None; sp_lateRatePerSecWad := None;
|}.

Definition normalizePremium (premium : SorobanPremium) : Premium := {|
  premiumRatePerSecWad := default 0 (coalesce (sp_premium_rate_per_sec_wad premium) (sp_premiumRatePerSecWad premium));
  premium_lateRatePerSecWad := default 0 (coalesce (sp_late_rate_per_sec_wad premium) (sp_lateRatePerSecWad premium));
|}.

Section Gateway.
  Context `{RPC : SorobanRpc} {DP : DateParser} (cfg : SorobanConfig).
  (** [TOKEN_DECIMALS], and the number of pages of events after which a scan is
      given up in the model. *)
  Context (decimals page_fuel : nat).

  Abbreviation rpc := (proc (rpc_trace SSDK)).

Definition nowPlus (seconds : Z) : rpc Z := now ← Date_now; Return (now / 1000 + seconds).

Definition eventTimestamp (ledgerClosedAt : string) : rpc Z :=
  match Date_parse ledgerClosedAt with
  | Some ms => Return (ms / 1000)
  | None => now ← Date_now; Return (now / 1000)
  end.

Definition eventTopic (value : string) : result string := v ← scv_symbol value; mret (toXDR v).

(** ** Events *)

Definition PAGE_LIMIT : nat := 1000.

(** [do ... while (cursor)]; [None] when the fuel runs out. *)
Fixpoint page_loop (fuel : nat) (startLedger endLedger : Z) (topics : list (list string))
    (cursor : option string) (events : list EventResponse) : rpc (option (list EventResponse)) :=
  match fuel with
  | O => Return None
  | S fuel' =>
      response ← getEvents {|
        q_contractIds := [SOROBAN_LOAN_MANAGER cfg]; q_topics := topics;
        q_range := match cursor with Some c => FromCursor c | None => Ledgers startLedger endLedger end;
        q_limit := PAGE_LIMIT |};
      let events := events ++ pg_events response in
      if bool_decide (pg_cursor response = ""%string) || bool_decide (cursor = Some (pg_cursor response))
      then Return (Some events)
      else if bool_decide (length (pg_events response) = PAGE_LIMIT)
      then page_loop fuel' startLedger endLedger topics (Some (pg_cursor response)) events
      else Return (Some events)
  end.

Definition getContractEvents (startLedger endLedger : Z) (topics : list (list string)) : rpc (list EventResponse) :=
  o ← page_loop page_fuel startLedger endLedger topics None [];
  match o with Some events => Return events | None => Raise (PlainError "out of fuel") end.

(** [topics[i]] printed; [undefined] when there is none. *)
Definition topic_text (t : option unknown) : string :=
  match t with Some v => String_of_unknown v | None => "undefined" end.

Definition topic_is (t : option unknown) (s : string) : bool :=
  match t with Some v => unknown_is v s | None => false end.

Definition opened_event (event : EventResponse) : rpc ChainLoanOpenedEvent :=
  topics ← of_result (mapM (fromScVal (T := unknown)) (er_topic event));
  value ← of_result (fromScVal (T := Z * Z * Z) (er_value event));
  let '(principal, amountDue, due) := value in
  timestamp ← eventTimestamp (er_ledgerClosedAt event);
  Return {|
    ev_borrower := topic_text (topics !! 1%nat);
    ev_principal := principal;
    ev_amountDue := amountDue;
    ev_due := Number_Z due;
    ev_feeBps := if 0 <? principal then Number_of_bigint (((amountDue - principal) * 10000) ÷ principal) else num_of_Z 0;
    ev_ledger := er_ledger event;
    ev_txHash := er_txHash event;
    ev_timestamp := timestamp;
  |}.

Definition getLoanOpenedEvents (fromLedger toLedger : Z) : rpc (list ChainLoanOpenedEvent) :=
  topic ← of_result (eventTopic "loanopen");
  events ← getContractEvents fromLedger toLedger [[topic]];
  pmap opened_event (List.filter er_inSuccessfulContractCall events).

(** [b.timestamp - a.timestamp || b.event.ledger - a.event.ledger], not positive. *)
Definition closed_le (a b : EventResponse * Z) : bool :=
  if b.2 - a.2 =? 0 then er_ledger b.1 - er_ledger a.1 <=? 0 else b.2 - a.2 <=? 0.

Definition findLoanClosedEvent (borrower : string) (loanStartAt currentLedger : Z) : rpc (option ChainLoanClosedEvent) :=
  _ ← of_result (assertStellarAccount borrower);
  let loanStartUnix := loanStartAt / 1000 in
  let startLedger := Z.max 0 (currentLedger - 100000) in
  topic ← of_result (eventTopic "loanclos");
  address ← of_result (scv_address borrower);
  events ← getContractEvents startLedger currentLedger [[topic]; [toXDR address]];
  stamped ← pmap (fun event => timestamp ← eventTimestamp (er_ledgerClosedAt event); Return (event, timestamp))
              (List.filter er_inSuccessfulContractCall events);
  match sort_le closed_le (List.filter (fun x => loanStartUnix <=? x.2) stamped) with
  | [] => Return None
  | (event, timestamp) :: _ =>
      paid ← of_result (fromScVal (T := Z) (er_value event));
      Return (Some {| cl_borrower := borrower; cl_amountPaid := paid; cl_txHash := er_txHash event;
                      cl_ledger := er_ledger event; cl_timestamp := timestamp |})
  end.

(** ** Reads *)

(** [simulateLoanManagerCall(method, [scAddress(borrower)])] *)
Definition read_borrower {T} `{!FromScVal T} (method borrower : string) : rpc (option T) :=
  address ← of_result (scv_address borrower);
  simulateLoanManagerCall cfg method [address].

(** [try { p } catch { return null }] *)
Definition or_null {A} (p : rpc (option A)) : rpc (option A) := proc_try (fun _ => Return None) p.

Definition readCreditLimitOnChain (borrower : string) : rpc Z :=
  _ ← of_result (assertStellarAccount borrower);
  value ← read_borrower (T := Z) "credit_limit" borrower;
  Return (default 0 value).

Definition readNextBorrowTime (borrower : string) : rpc Z :=
  _ ← of_result (assertStellarAccount borrower);
  value ← read_borrower (T := Z) "next_borrow_time" borrower;
  Return (Number_Z (default 0 value)).

Definition previewLoanWithLate (borrower : string) : rpc (option Z) :=
  _ ← of_result (assertStellarAccount borrower);
  or_null (result ← read_borrower (T := Z * Z) "preview_loan_with_late" borrower;
           Return (match result with Some r => Some r.2 | None => None end)).

Definition readLoanFull (borrower : string) : rpc (option OnChainLoanFull) :=
  _ ← of_result (assertStellarAccount borrower);
  or_null (result ← read_borrower (T := SorobanLoan) "get_loan" borrower;
           Return (Some (normalizeLoan (default empty_loan result)))).

Definition readLoanOnChain (borrower : string) : rpc (option OnChainLoan) :=
  loan ← readLoanFull borrower;
  Return (match loan with
          | None => None
          | Some l => Some {| active := f_active l; oc_principal := f_principal l; oc_amountDue := f_amountDue l |}
          end).

Definition readPremium (borrower : string) : rpc (option Premium) :=
  _ ← of_result (assertStellarAccount borrower);
  or_null (result ← read_borrower (T := SorobanPremium) "get_premium" borrower;
           Return (Some (normalizePremium (default empty_premium result)))).

Definition readIsDefaulted (borrower : string) : rpc (option bool) :=
  _ ← of_result (assertStellarAccount borrower);
  or_null (read_borrower (T := bool) "is_defaulted" borrower).

Definition readUserRisk (borrower : string) : rpc (option UserRisk) :=
  _ ← of_result (assertStellarAccount borrower);
  or_null (
    result ← read_borrower (T := SorobanUserRisk) "get_user_risk" borrower;
    match result with
    | None => Raise (PlainError "Cannot read properties of null")
    | Some r => Return (Some {|
        ur_score := default 0 (sr_score r);
        ur_validUntil := Number_of (default (JNumber 0) (coalesce (sr_valid_until r) (sr_validUntil r)));
        ur_limit := default 0 (sr_limit r) |})
    end).

Definition getChainBlockTimestamp : rpc (option num) :=
  or_null (
    ledger ← getLatestLedger;
    let numeric := Number_of_string (ll_closeTime ledger) in
    if isFinite numeric then Return (Some numeric) else
    Return (match Date_parse (ll_closeTime ledger) with Some parsed => Some (num_of_Z (parsed / 1000)) | None => None end)).

Definition getLatestLedger_sequence : rpc Z := ledger ← getLatestLedger; Return (ll_sequence ledger).

(** ** Calls of the contract *)

Definition in_score_range (score : num) : bool :=
  isFinite score && negb (nltb score (num_of_Z 1)) && negb (nltb (num_of_Z 1000) score).

Definition giveCreditScoreAndLimit (borrower : string) (score : num) (limit : Z) (kycOk : bool) (validUntil : option Z) : rpc Z :=
  _ ← of_result (assertStellarAccount borrower);
  _ ← of_result (throw_if (negb (in_score_range score)) (PlainError "Invalid score"));
  finalValidUntil ← match validUntil with Some v => Return v | None => nowPlus (30 * 24 * 60 * 60) end;
  _ ← of_result (throw_if (limit <? 0) (PlainError "Invalid limit"));
  a1 ← of_result (scv_address borrower);
  a2 ← of_result (scv_u32 score);
  a4 ← of_result (scv_u64 finalValidUntil);
  a5 ← of_result (scv_i128 limit);
  _ ← sendLoanManagerCall cfg "set_user_risk" [a1; a2; scv_bool kycOk; a4; a5] "set_user_risk";
  Return 200.

Definition createLoanOfferBackend (amountHuman : amount_arg) (borrower : string) (tenorDays feeBps : num) : rpc LoanOffer :=
  _ ← of_result (assertStellarAccount borrower);
  tenor ← of_result (result_of_option (PlainError "Invalid tenorDays") (num_integer tenorDays));
  _ ← of_result (throw_if (tenor <=? 0) (PlainError "Invalid tenorDays"));
  fee ← of_result (result_of_option (PlainError "Invalid feeBps") (num_integer feeBps));
  _ ← of_result (throw_if (fee <=? 0) (PlainError "Invalid feeBps"));
  maxAmount ← of_result (toUnits decimals amountHuman);
  _ ← of_result (throw_if (maxAmount <=? 0) (PlainError "Invalid amountHuman"));
  validUntil ← nowPlus (3 * 24 * 60 * 60);
  a1 ← of_result (scv_address borrower);
  a2 ← of_result (scv_u32 tenorDays);
  a3 ← of_result (scv_u32 feeBps);
  a4 ← of_result (scv_u64 validUntil);
  a5 ← of_result (scv_i128 maxAmount);
  tx ← sendLoanManagerCall cfg "set_loan_offer" [a1; a2; a3; a4; a5] "set_loan_offer";
  Return {| offer_ok := true; offer_feeBps := feeBps; offer_tenorDays := tenor;
            offer_maxAmountBase := String_of_int maxAmount; offer_minedBlock := tr_ledger tx |}.

Definition setPremiumConfig (borrower : string) (lateRatePerSecWad : Z) : rpc unit :=
  _ ← of_result (assertStellarAccount borrower);
  _ ← of_result (throw_if (lateRatePerSecWad <? 0) (PlainError "Invalid lateRatePerSecWad"));
  a1 ← of_result (scv_address borrower);
  a2 ← of_result (scv_i128 0);
  a3 ← of_result (scv_i128 lateRatePerSecWad);
  _ ← sendLoanManagerCall cfg "set_premium_config" [a1; a2; a3] "set_premium_config";
  Return tt.

Definition accrueLate (borrower : string) : rpc unit :=
  _ ← of_result (assertStellarAccount borrower);
  a1 ← of_result (scv_address borrower);
  _ ← sendLoanManagerCall cfg "accrue_late" [a1] "accrue_late";
  Return tt.

(** ** Verification by transaction hash *)

(** [for (let attempt = 1; attempt <= 10; attempt++) ...], with [left] passes to go. *)
Fixpoint poll_transaction (left : nat) (txHash : string) : rpc (option TxResponse) :=
  match left with
  | O => Return None
  | S left' =>
      tx ← getTransaction txHash;
      match tr_status tx with
      | NOT_FOUND =>
          if bool_decide (left' = O) then Return (Some tx) else _ ← sleep 1000; poll_transaction left' txHash
      | _ => Return (Some tx)
      end
  end.

(** The first event, in the order of the two loops, for which [f] has an answer. *)
Fixpoint first_event {A} (f : ContractEvent -> result (option A)) (events : list ContractEvent) : result (option A) :=
  match events with
  | [] => mret None
  | event :: events' => o ← f event; match o with Some a => mret (Some a) | None => first_event f events' end
  end.

(** An event of the LoanManager whose topics are [name] and the borrower. *)
Definition loan_event {A} (name borrower : string) (answer : ContractEvent -> result A) (event : ContractEvent) : result (option A) :=
  manager ← isLoanManagerContractEvent cfg event;
  if negb manager then mret None else
  topics ← mapM (fromScVal (T := unknown)) (ce_topics event);
  if topic_is (topics !! 0%nat) name && topic_is (topics !! 1%nat) borrower
  then a ← answer event; mret (Some a) else mret None.

Definition tx_events (tx : TxResponse) : list ContractEvent := List.concat (default [] (tr_events tx)).

Definition verifyLoanOpenedByTxHash (txHash borrower : string) : rpc bool :=
  _ ← of_result (assertStellarAccount borrower);
  tx ← poll_transaction 10 txHash;
  match tx with
  | None => Return false
  | Some tx =>
      match tr_status tx with
      | SUCCESS =>
          o ← of_result (first_event (loan_event "loanopen" borrower (fun _ => Ok tt)) (tx_events tx));
          Return (match o with Some _ => true | None => false end)
      | _ => Return false
      end
  end.

Definition repay_refused (why : RepayFailure) (block : option Z) : RepayVerification :=
  {| verified := false; reason := Some why; blockNumber := block; paidUnits := None |}.

Definition verifyRepayByTxHash (txHash borrower : string) : rpc RepayVerification :=
  _ ← of_result (assertStellarAccount borrower);
  proc_try (fun _ => Return (repay_refused rpc_error None)) (
    tx ← poll_transaction 10 txHash;
    match tx with
    | None => Return (repay_refused no_receipt None)
    | Some tx =>
        match tr_status tx with
        | NOT_FOUND => Return (repay_refused no_receipt None)
        | FAILED => Return (repay_refused reverted None)
        | SUCCESS =>
            o ← of_result (first_event
              (loan_event "loanclos" borrower (fun event => fromScVal (T := Z) (ce_data event))) (tx_events tx));
            Return (match o with
                    | Some paid => {| verified := true; reason := None; blockNumber := Some (tr_ledger tx); paidUnits := Some paid |}
                    | None => repay_refused no_match (Some (tr_ledger tx))
                    end)
        end
    end).

(** ** The check of the token's decimals *)

(** A check scheduled with [setTimeout]. *)
Record recheck := { attempt_no : Z; delayMs : Z }.

Definition scheduleDecimalsRecheck (attempt : Z) : recheck :=
  {| attempt_no := attempt; delayMs := Z.min (60000 * attempt) 600000 |}.

(** [onModuleInit]: throws on a mismatch, which stops the boot; the check it may
    leave scheduled. *)
Definition onModuleInit : rpc (option recheck) :=
  r ← settle (simulateUsdcSacDecimals cfg);
  match r with
  | Throw _ => Return (Some (scheduleDecimalsRecheck 1))
  | Ok onChain =>
      if neqb onChain (num_of_Z (Z.of_nat decimals)) then Return None
      else Raise (PlainError "SAC decimals do not match TOKEN_DECIMALS")
  end.

(** What the callback of a scheduled check does. *)
Inductive recheck_outcome := Verified | ProcessExit | Rescheduled (next : recheck).

Definition runRecheck (c : recheck) : rpc recheck_outcome :=
  r ← settle (simulateUsdcSacDecimals cfg);
  match r with
  | Throw _ => Return (Rescheduled (scheduleDecimalsRecheck (attempt_no c + 1)))
  | Ok onChain => Return (if neqb onChain (num_of_Z (Z.of_nat decimals)) then Verified else ProcessExit)
  end.
End Gateway.
