(* ===== verification/SorobanGatewayProps.v ===== *)
(** * What the Soroban gateway answers

    The theorems about [SorobanGateway]: what a verified opening or repayment means
    on chain, which calls of the contract a method makes and when it makes none, what
    an event scan returns, and that a backend whose decimals differ from the token's
    does not stay up. *)

From stdpp Require Import base tactics list strings numbers.
From Stdlib Require Import Lia ZArith.
From S2P Require Import Prelude JsString JsNum JsDate AmountUnits Strkey StellarSdk Gateway Async Trace SorobanQueue SorobanConfig SorobanSample SorobanTx SorobanGateway.

Local Open Scope Z_scope.

Section Verification.
  Context `{RPC : SorobanRpc} {DP : DateParser} (cfg : SorobanConfig).

(** The polls of a transaction that was not there yet, each followed by a pause. *)
Definition not_there (hash : string) (misses : list TxResponse) : list rpc_call :=
  misses ≫= fun tx => [RGetTransaction hash (Ok tx); RSleep 1000].

(** The transaction was asked for until the server knew it or failed, at most ten
    times; [answer] is the last answer. *)
Definition asked (hash : string) (passes : nat) (calls : list rpc_call) (answer : result TxResponse) : Prop :=
  exists misses, calls = not_there hash misses ++ [RGetTransaction hash answer] /\ (length misses < passes)%nat /\
    Forall (fun tx => tr_status tx = NOT_FOUND) misses /\
    (forall tx, answer = Ok tx -> tr_status tx = NOT_FOUND -> S (length misses) = passes).

Lemma poll_emits left hash : (0 < left)%nat ->
  emits (fun cs r => exists answer, asked hash left cs answer /\ r = (tx ← answer; Ok (Some tx))) (poll_transaction left hash).
Proof.
  induction left as [|left IH]; intros Hleft; [lia|]. cbn [poll_transaction]. unfold getTransaction. repeat emits_step.
  assert (Hlast : forall r, (forall tx, r = Ok tx -> tr_status tx = NOT_FOUND -> left = O) ->
    asked hash (S left) [RGetTransaction hash r] r).
  { intros r' Hr. exists []. split_and!; [done|cbn; lia|done|]. intros tx H1 H2. cbn. by rewrite (Hr tx H1 H2). }
  destruct r as [tx|e]; [|exists (Throw e); split; [by apply Hlast|done]].
  destruct (tr_status tx) eqn:Es.
  - emits_step. exists (Ok tx). split; [|done]. apply Hlast. intros ? [= <-]. congruence.
  - emits_step. exists (Ok tx). split; [|done]. apply Hlast. intros ? [= <-]. congruence.
  - destruct (bool_decide (left = O)) eqn:El; bool_to_prop.
    + emits_step. exists (Ok tx). split; [|done]. by apply Hlast.
    + repeat emits_step. eapply emits_mono; [|apply IH; lia].
      intros cs r (answer & (misses & -> & Hl & Hm & Hend) & ->). exists answer. split; [|done].
      exists (tx :: misses). cbn. split_and!; [done|lia|by constructor|]. intros. f_equal. by eapply Hend.
Qed.

(** The answer of the scan is the first event that has one, and no event before it
    fails or has one. *)
Lemma first_event_some {A} (f : ContractEvent -> result (option A)) evs a :
  first_event f evs = Ok (Some a) <->
  exists before event after, evs = before ++ event :: after /\ Forall (fun e => f e = Ok None) before /\ f event = Ok (Some a).
Proof.
  induction evs as [|e evs IH]; cbn.
  - split; [done|]. intros (b & ? & ? & H & _). by destruct b.
  - split.
    + intros H. apply result_bind_ok in H as (o & Ho & H). destruct o as [a'|].
      * apply Ok_inj in H. injection H as ->. by exists [], e, evs.
      * apply IH in H as (b & ev & c & -> & Hb & Hev). exists (e :: b), ev, c. split_and!; [done|by constructor|done].
    + intros (b & ev & c & Heq & Hb & Hev). destruct b as [|b0 b]; cbn in Heq; simplify_eq.
      * by rewrite Hev.
      * apply list.Forall_cons in Hb as [-> Hb]. cbn. apply IH. by exists b, ev, c.
Qed.

Lemma first_event_none {A} (f : ContractEvent -> result (option A)) evs :
  first_event f evs = Ok None <-> Forall (fun e => f e = Ok None) evs.
Proof.
  induction evs as [|e evs IH]; cbn; [by split|]. split.
  - intros H. apply result_bind_ok in H as (o & Ho & H). destruct o; [done|]. constructor; [done|by apply IH].
  - intros [H1 H2]%list.Forall_cons. rewrite H1. cbn. by apply IH.
Qed.

(** An event the LoanManager published with these first two topics. *)
Definition published (name borrower : string) (event : ContractEvent) : Prop :=
  (exists id, ce_contractId event = Some id /\ StrKey_decodeContract (SOROBAN_LOAN_MANAGER cfg) = Ok id) /\
  exists topics, mapM (fromScVal (T := unknown)) (ce_topics event) = Ok topics /\
    topics !! 0%nat = Some (UString name) /\ topics !! 1%nat = Some (UString borrower).

Lemma topic_is_spec t s : topic_is t s = true <-> t = Some (UString s).
Proof.
  destruct t as [[s'|p]|]; cbn; [|by split..]. rewrite bool_decide_eq_true. split; [by intros ->|by intros [= ->]].
Qed.

Lemma isLoanManager_spec event :
  isLoanManagerContractEvent cfg event = Ok true <->
  exists id, ce_contractId event = Some id /\ StrKey_decodeContract (SOROBAN_LOAN_MANAGER cfg) = Ok id.
Proof.
  unfold isLoanManagerContractEvent. destruct (ce_contractId event) as [id|]; [|naive_solver].
  destruct (StrKey_decodeContract _) as [m|e]; cbn; [|naive_solver]. case_bool_decide; naive_solver.
Qed.

Lemma loan_event_some {A} name borrower (answer : ContractEvent -> result A) event a :
  loan_event cfg name borrower answer event = Ok (Some a) <-> published name borrower event /\ answer event = Ok a.
Proof.
  unfold loan_event, published. destruct (isLoanManagerContractEvent cfg event) as [[]|e] eqn:El; cbn [negb mbind result_bind].
  - apply isLoanManager_spec in El. split.
    + intros H. apply result_bind_ok in H as (ts & Hts & H).
      destruct (topic_is (ts !! 0%nat) name && topic_is (ts !! 1%nat) borrower) eqn:Et; [bool_to_prop|done].
      apply result_bind_ok in H as (a' & Ha & H). apply Ok_inj in H. injection H as ->.
      split; [split; [done|]|done]. exists ts. split_and!; [done|by apply topic_is_spec..].
    + intros [(_ & ts & -> & H0 & H1) Ha]. cbn. rewrite H0, H1. cbn. rewrite !bool_decide_true by done. cbn. by rewrite Ha.
  - split; [done|]. intros [[Hid _] _]. apply isLoanManager_spec in Hid. congruence.
  - split; [done|]. intros [[Hid _] _]. apply isLoanManager_spec in Hid. congruence.
Qed.

(** What the code makes of the last answer of the server. *)
Definition repay_verdict (borrower : string) (answer : result TxResponse) (v : RepayVerification) : Prop :=
  match answer with
  | Throw _ => v = repay_refused rpc_error None
  | Ok tx =>
      match tr_status tx with
      | NOT_FOUND => v = repay_refused no_receipt None
      | FAILED => v = repay_refused reverted None
      | SUCCESS =>
          (exists before event after paid,
             tx_events tx = before ++ event :: after /\ Forall (fun e => ~ published "loanclos" borrower e) before /\
             published "loanclos" borrower event /\ fromScVal (T := Z) (ce_data event) = Ok paid /\
             v = {| verified := true; reason := None; blockNumber := Some (tr_ledger tx); paidUnits := Some paid |}) \/
          (Forall (fun e => ~ published "loanclos" borrower e) (tx_events tx) /\ v = repay_refused no_match (Some (tr_ledger tx))) \/
          (** a topic, an amount or the contract's id that the SDK does not decode *)
          (v = repay_refused rpc_error None /\
             exists event, event ∈ tx_events tx /\
               exists e, loan_event cfg "loanclos" borrower (fun ev => fromScVal (T := Z) (ce_data ev)) event = Throw e)
      end
  end.

Lemma first_event_throw {A} (f : ContractEvent -> result (option A)) evs e :
  first_event f evs = Throw e -> exists event, event ∈ evs /\ f event = Throw e.
Proof.
  induction evs as [|ev evs IH]; cbn; [done|]. destruct (f ev) as [[a|]|e'] eqn:Ef; cbn; intros H.
  - done.
  - destruct (IH H) as (event & ? & ?). exists event. split; [by right|done].
  - injection H as ->. exists ev. split; [left|done].
Qed.

Lemma not_published {A} name borrower (answer : ContractEvent -> result A) event :
  loan_event cfg name borrower answer event = Ok None -> ~ published name borrower event.
Proof.
  unfold loan_event, published. intros H (Hid & ts & Hts & H0 & H1).
  apply isLoanManager_spec in Hid. rewrite Hid in H. cbn in H. rewrite Hts in H. cbn in H. rewrite H0, H1 in H. cbn in H.
  rewrite !bool_decide_true in H by done. cbn in H. by destruct (answer event).
Qed.

Lemma scan_verdict borrower tx (Hs : tr_status tx = SUCCESS) :
  exists v, repay_verdict borrower (Ok tx) v /\
    v = match first_event (loan_event cfg "loanclos" borrower (fun event => fromScVal (T := Z) (ce_data event))) (tx_events tx) with
        | Throw _ => repay_refused rpc_error None
        | Ok None => repay_refused no_match (Some (tr_ledger tx))
        | Ok (Some paid) => {| verified := true; reason := None; blockNumber := Some (tr_ledger tx); paidUnits := Some paid |}
        end.
Proof.
  eexists. split; [|reflexivity]. unfold repay_verdict. rewrite Hs.
  destruct (first_event _ _) as [[paid|]|e] eqn:Ef.
  - left. apply first_event_some in Ef as (b & ev & c & Heq & Hb & Hev). apply loan_event_some in Hev as [Hp Hpaid].
    exists b, ev, c, paid. split_and!; try done. eapply list.Forall_impl; [exact Hb|]. intros e. apply not_published.
  - right. left. apply first_event_none in Ef. split; [|done]. eapply list.Forall_impl; [exact Ef|]. intros e. apply not_published.
  - right. right. split; [done|]. apply first_event_throw in Ef as (ev & Hin & Hev). eauto.
Qed.

Lemma verifyRepay_emits hash borrower :
  emits (fun cs r => match assertStellarAccount borrower with
                     | Throw e => cs = [] /\ r = Throw e
                     | Ok _ => exists answer v, asked hash 10 cs answer /\ r = Ok v /\ repay_verdict borrower answer v
                     end)
    (verifyRepayByTxHash cfg hash borrower).
Proof.
  unfold verifyRepayByTxHash. repeat emits_step. destruct (assertStellarAccount borrower) as [[]|e]; [|done].
  repeat emits_step. eapply emits_mono; [|apply poll_emits; lia].
  intros cs r (answer & Hasked & ->). destruct answer as [tx|e]; cbn.
  - destruct (tr_status tx) eqn:Es.
    + destruct (scan_verdict borrower tx Es) as (v & Hv & Heq). repeat emits_step. rewrite app_nil_r.
      destruct (first_event _ _) as [o|e]; emits_step; rewrite ?app_nil_r; exists (Ok tx), v; (split_and!; [done| |done]);
        [rewrite Heq; by destruct o|by rewrite Heq].
    + emits_step. rewrite app_nil_r. exists (Ok tx), (repay_refused reverted None). unfold repay_verdict. by rewrite Es.
    + emits_step. rewrite app_nil_r. exists (Ok tx), (repay_refused no_receipt None). unfold repay_verdict. by rewrite Es.
  - emits_step. rewrite app_nil_r. by exists (Throw e), (repay_refused rpc_error None).
Qed.

(** C18. What a repayment is told by its transaction. For an account id, the server
    is asked for the transaction until it knows it, at most ten times; the repayment
    is verified exactly when the transaction succeeded and the LoanManager published
    a [loanclos] event for the borrower in it, and the amount is the one of the first
    such event; every other case has its reason - [rpc_error] when the server does not
    answer, and also when the SDK does not decode a topic or the amount of an event
    before that, or the configured id of the contract - and nothing is thrown. *)
Theorem verify_repay_correct (hash borrower : string) (t : rpc_trace SSDK) :
  let '(r, t') := run (verifyRepayByTxHash cfg hash borrower) t in
  exists calls, t' = t ++ calls /\
  match assertStellarAccount borrower with
  | Throw e => calls = [] /\ r = Throw e
  | Ok _ => exists answer v, asked hash 10 calls answer /\ r = Ok v /\ repay_verdict borrower answer v
  end.
Proof. pose proof (verifyRepay_emits hash borrower t) as H. by destruct (run _ t). Qed.

(** What an opening is told by its transaction. *)
Definition open_verdict (borrower : string) (answer : result TxResponse) (r : result bool) : Prop :=
  match answer with
  | Throw e => r = Throw e
  | Ok tx =>
      match tr_status tx with
      | SUCCESS =>
          (r = Ok true /\ exists event, event ∈ tx_events tx /\ published "loanopen" borrower event) \/
          (r = Ok false /\ Forall (fun e => ~ published "loanopen" borrower e) (tx_events tx)) \/
          is_ok r = false
      | _ => r = Ok false
      end
  end.

(** Likewise for an opening, whose RPC errors are thrown. *)
Theorem verify_opened_correct (hash borrower : string) :
  emits (fun cs r => match assertStellarAccount borrower with
                     | Throw e => cs = [] /\ r = Throw e
                     | Ok _ => exists answer, asked hash 10 cs answer /\ open_verdict borrower answer r
                     end)
    (verifyLoanOpenedByTxHash cfg hash borrower).
Proof.
  unfold verifyLoanOpenedByTxHash. repeat emits_step. destruct (assertStellarAccount borrower) as [[]|e]; [|done].
  repeat emits_step. eapply emits_mono; [|apply poll_emits; lia].
  intros cs r (answer & Hasked & ->). destruct answer as [tx|e]; cbn; [|by exists (Throw e)].
  destruct (tr_status tx) eqn:Es; repeat emits_step; rewrite ?app_nil_r;
    [|exists (Ok tx); unfold open_verdict; by rewrite Es..].
  destruct (first_event _ _) as [o|e] eqn:Ef; [emits_step; rewrite ?app_nil_r|]; exists (Ok tx);
    unfold open_verdict; rewrite Es; (split; [done|]); [|by right; right].
  destruct o as [[]|].
  - left. split; [done|]. apply first_event_some in Ef as (b & ev & c & -> & _ & Hev). apply loan_event_some in Hev as [Hp _].
    exists ev. split; [|done]. apply elem_of_app. right. left.
  - right. left. split; [done|]. apply first_event_none in Ef. eapply list.Forall_impl; [exact Ef|]. intros e. apply not_published.
Qed.
End Verification.

(** ** Calls of the contract *)

Section Calls.
  Context `{RPC : SorobanRpc} {DP : DateParser} (cfg : SorobanConfig) (decimals : nat).

(** No transaction was sent and the method threw, or the contract was called with
    the arguments [args] and the method answers by what came of the call. *)
Definition calls_contract {A} (method : string) (guard : list ScVal -> Prop) (after : TxResponse -> result A)
    (calls : list rpc_call) (r : result A) : Prop :=
  (sends calls = [] /\ is_ok r = false) \/
  exists pre args cs r0, calls = pre ++ cs /\ sends pre = [] /\ guard args /\
    contract_call cfg method args cs r0 /\ r = (tx ← r0; after tx).

Lemma calls_call {A} method args purpose (guard : list ScVal -> Prop) (after : TxResponse -> result A) pre :
  0 < MAX_SEND_ATTEMPTS cfg -> sends pre = [] -> guard args ->
  emits (fun cs r => calls_contract method guard after (pre ++ cs) r)
    (tx ← sendLoanManagerCall cfg method args purpose; of_result (after tx)).
Proof.
  intros Hmax Hpre Hg. apply emits_bind. eapply emits_mono; [|by apply call_emits]. intros cs r Hc.
  destruct r as [tx|e]; [emits_step; rewrite app_nil_r|]; right; exists pre, args, cs; eexists; split_and!; done.
Qed.

(** What the arguments of [set_user_risk] say. *)
Definition risk_arguments (borrower : string) (score : num) (limit : Z) (kycOk : bool) (validUntil : option Z) (args : list ScVal) : Prop :=
  in_score_range score = true /\ 0 <= limit /\
  exists a1 a2 deadline a4 a5, args = [a1; a2; scv_bool kycOk; a4; a5] /\ scv_address borrower = Ok a1 /\ scv_u32 score = Ok a2 /\
    scv_u64 deadline = Ok a4 /\ scv_i128 limit = Ok a5 /\ (forall v, validUntil = Some v -> deadline = v).

(** One step past a guard that throws. *)
Ltac past_guard :=
  emits_step; match goal with |- context [match ?r with Ok _ => _ | Throw _ => _ end] => destruct r eqn:? end; [|by left].

Lemma calls_give borrower score limit kycOk validUntil (Hmax : 0 < MAX_SEND_ATTEMPTS cfg) :
  emits (calls_contract "set_user_risk" (risk_arguments borrower score limit kycOk validUntil) (fun _ => Ok 200))
    (giveCreditScoreAndLimit cfg borrower score limit kycOk validUntil).
Proof.
  unfold giveCreditScoreAndLimit. emits_step. past_guard. emits_step. past_guard. emits_step.
  assert (Hrest : forall deadline pre, sends pre = [] -> (forall v, validUntil = Some v -> deadline = v) -> in_score_range score = true ->
    emits (fun cs r => calls_contract "set_user_risk" (risk_arguments borrower score limit kycOk validUntil) (fun _ => Ok 200) (pre ++ cs) r)
     (_ ← of_result (throw_if (limit <? 0) (PlainError "Invalid limit"));
      a1 ← of_result (scv_address borrower); a2 ← of_result (scv_u32 score); a4 ← of_result (scv_u64 deadline); a5 ← of_result (scv_i128 limit);
      _ ← sendLoanManagerCall cfg "set_user_risk" [a1; a2; scv_bool kycOk; a4; a5] "set_user_risk"; Return 200)).
  { intros deadline pre Hpre Hu Hr.
    assert (Hleft : forall e, calls_contract "set_user_risk" (risk_arguments borrower score limit kycOk validUntil)
      (fun _ => Ok 200) (pre ++ []) (Throw e)) by (intros e; left; by rewrite app_nil_r).
    do 2 emits_step. destruct (throw_if (limit <? 0) _) as [[]|] eqn:El; [|by apply Hleft]. apply throw_if_ok in El. bool_to_prop.
    do 2 emits_step. destruct (scv_address borrower) as [a1|] eqn:E1; [|by apply Hleft].
    do 2 emits_step. destruct (scv_u32 score) as [a2|] eqn:E2; [|by apply Hleft].
    do 2 emits_step. destruct (scv_u64 deadline) as [a4|] eqn:E4; [|by apply Hleft].
    do 2 emits_step. destruct (scv_i128 limit) as [a5|] eqn:E5; [|by apply Hleft].
    apply (calls_call _ _ _ _ (fun _ => Ok 200)); [done..|]. split_and!; [done|lia|]. by exists a1, a2, deadline, a4, a5. }
  apply throw_if_ok in Heqr0. bool_to_prop. destruct validUntil as [v|].
  - emits_step. apply (Hrest v []); [done| |done]. by intros ? [= ->].
  - unfold nowPlus. do 3 emits_step. by apply (Hrest _ [RNow n]).
Qed.

(** What the arguments of [set_loan_offer] say: the amount in the token's units, to
    be used within three days. *)
Definition offer_arguments (amountHuman : amount_arg) (borrower : string) (tenorDays feeBps : num) (maxAmount : Z) (args : list ScVal) : Prop :=
  (exists tenor fee, num_integer tenorDays = Some tenor /\ num_integer feeBps = Some fee /\ 0 < tenor /\ 0 < fee) /\
  toUnits decimals amountHuman = Ok maxAmount /\ 0 < maxAmount /\
  exists now a1 a2 a3 a4 a5, args = [a1; a2; a3; a4; a5] /\ scv_address borrower = Ok a1 /\ scv_u32 tenorDays = Ok a2 /\
    scv_u32 feeBps = Ok a3 /\ scv_u64 (now / 1000 + 3 * 24 * 60 * 60) = Ok a4 /\ scv_i128 maxAmount = Ok a5.

Definition offer_of (maxAmount : Z) (tenorDays feeBps : num) (tx : TxResponse) : result LoanOffer :=
  Ok {| offer_ok := true; offer_feeBps := feeBps; offer_tenorDays := default 0 (num_integer tenorDays);
        offer_maxAmountBase := String_of_int maxAmount; offer_minedBlock := tr_ledger tx |}.

Lemma calls_offer amountHuman borrower tenorDays feeBps (Hmax : 0 < MAX_SEND_ATTEMPTS cfg) :
  emits (fun cs r => exists maxAmount, calls_contract "set_loan_offer" (offer_arguments amountHuman borrower tenorDays feeBps maxAmount)
                       (offer_of maxAmount tenorDays feeBps) cs r)
    (createLoanOfferBackend cfg decimals amountHuman borrower tenorDays feeBps).
Proof.
  assert (Hleft : forall m guard (after : TxResponse -> result LoanOffer) calls e, sends calls = [] ->
    exists maxAmount : Z, calls_contract m (guard maxAmount) after calls (Throw e)) by (intros; exists 0; by left).
  unfold createLoanOfferBackend. emits_step. emits_step.
  destruct (assertStellarAccount borrower); [|exists 0; by left].
  do 2 emits_step. destruct (num_integer tenorDays) as [tenor|] eqn:Et; [cbn [result_of_option]|exists 0; by left].
  do 2 emits_step. destruct (throw_if (tenor <=? 0) _) as [[]|] eqn:Ht; [apply throw_if_ok in Ht; bool_to_prop|exists 0; by left].
  do 2 emits_step. destruct (num_integer feeBps) as [fee|] eqn:Ef; [cbn [result_of_option]|exists 0; by left].
  do 2 emits_step. destruct (throw_if (fee <=? 0) _) as [[]|] eqn:Hf; [apply throw_if_ok in Hf; bool_to_prop|exists 0; by left].
  do 2 emits_step. destruct (toUnits decimals amountHuman) as [units|] eqn:Eu; [|exists 0; by left].
  do 2 emits_step. destruct (throw_if (units <=? 0) _) as [[]|] eqn:Hu; [apply throw_if_ok in Hu; bool_to_prop|exists 0; by left].
  unfold nowPlus. do 4 emits_step.
  do 2 emits_step. destruct (scv_address borrower) as [a1|] eqn:E1; [|exists 0; by left].
  do 2 emits_step. destruct (scv_u32 tenorDays) as [a2|] eqn:E2; [|exists 0; by left].
  do 2 emits_step. destruct (scv_u32 feeBps) as [a3|] eqn:E3; [|exists 0; by left].
  do 2 emits_step. destruct (scv_u64 _) as [a4|] eqn:E4; [|exists 0; by left].
  do 2 emits_step. destruct (scv_i128 units) as [a5|] eqn:E5; [|exists 0; by left].
  assert (Ed : default 0 (num_integer tenorDays) = tenor) by by rewrite Et.
  assert (Hargs : offer_arguments amountHuman borrower tenorDays feeBps units [a1; a2; a3; a4; a5]).
  { split; [by exists tenor, fee|]. split_and!; [done..|]. by exists n, a1, a2, a3, a4, a5. }
  rewrite <- Ed. eapply emits_mono; [|apply (calls_call "set_loan_offer" [a1; a2; a3; a4; a5] "set_loan_offer"
    (offer_arguments amountHuman borrower tenorDays feeBps units) (offer_of units tenorDays feeBps) [RNow n]); done].
  intros cs r Hr. by exists units.
Qed.

Definition premium_arguments (borrower : string) (rate : Z) (args : list ScVal) : Prop :=
  0 <= rate /\ exists a1 a2 a3, args = [a1; a2; a3] /\ scv_address borrower = Ok a1 /\ scv_i128 0 = Ok a2 /\ scv_i128 rate = Ok a3.

Lemma calls_premium borrower rate (Hmax : 0 < MAX_SEND_ATTEMPTS cfg) :
  emits (calls_contract "set_premium_config" (premium_arguments borrower rate) (fun _ => Ok tt)) (setPremiumConfig cfg borrower rate).
Proof.
  unfold setPremiumConfig. do 2 emits_step. destruct (assertStellarAccount borrower); [|by left].
  do 2 emits_step. destruct (throw_if (rate <? 0) _) as [[]|] eqn:Hr; [apply throw_if_ok in Hr; bool_to_prop|by left].
  do 2 emits_step. destruct (scv_address borrower) as [a1|] eqn:E1; [|by left].
  do 2 emits_step. destruct (scv_i128 0) as [a2|] eqn:E2; [|by left].
  do 2 emits_step. destruct (scv_i128 rate) as [a3|] eqn:E3; [|by left].
  apply (calls_call _ _ _ _ (fun _ => Ok tt)); [done..|]. split; [done|]. by exists a1, a2, a3.
Qed.

Lemma calls_accrue borrower (Hmax : 0 < MAX_SEND_ATTEMPTS cfg) :
  emits (calls_contract "accrue_late" (fun args => exists a1, args = [a1] /\ scv_address borrower = Ok a1) (fun _ => Ok tt))
    (accrueLate cfg borrower).
Proof.
  unfold accrueLate. do 2 emits_step. destruct (assertStellarAccount borrower); [|by left].
  do 2 emits_step. destruct (scv_address borrower) as [a1|] eqn:E1; [|by left].
  apply (calls_call _ _ _ _ (fun _ => Ok tt)); [done..|]. by exists a1.
Qed.

(** C17. The methods of the port that write. Each sends nothing and throws, or its
    arguments passed the guards - a score from 1 to 1000 and a limit that is not
    negative, a positive amount for a positive whole number of days at a positive
    whole fee - and it calls the contract once, with these arguments, and answers by
    what came of the call. *)
Theorem gateway_writes_guarded (env : SorobanEnv) (Hcfg : load_config env = Ok cfg) :
  (forall borrower score limit kycOk validUntil,
     emits (calls_contract "set_user_risk" (risk_arguments borrower score limit kycOk validUntil) (fun _ => Ok 200))
       (giveCreditScoreAndLimit cfg borrower score limit kycOk validUntil)) /\
  (forall amountHuman borrower tenorDays feeBps,
     emits (fun cs r => exists maxAmount, calls_contract "set_loan_offer" (offer_arguments amountHuman borrower tenorDays feeBps maxAmount)
                          (offer_of maxAmount tenorDays feeBps) cs r)
       (createLoanOfferBackend cfg decimals amountHuman borrower tenorDays feeBps)) /\
  (forall borrower rate,
     emits (calls_contract "set_premium_config" (premium_arguments borrower rate) (fun _ => Ok tt)) (setPremiumConfig cfg borrower rate)) /\
  (forall borrower,
     emits (calls_contract "accrue_late" (fun args => exists a1, args = [a1] /\ scv_address borrower = Ok a1) (fun _ => Ok tt))
       (accrueLate cfg borrower)).
Proof.
  destruct (load_config_pos env cfg Hcfg) as [Hmax _].
  split_and!; intros; [by apply calls_give|by apply calls_offer|by apply calls_premium|by apply calls_accrue].
Qed.

(** ** The decimals of the token *)

(** The process after [onModuleInit] and the checks it leaves scheduled. *)
Inductive guard_state := Checked | Waiting (c : recheck) | Down.

Definition guard_boot : proc (rpc_trace SSDK) guard_state :=
  r ← settle (onModuleInit cfg decimals);
  Return (match r with Ok None => Checked | Ok (Some c) => Waiting c | Throw _ => Down end).

(** [n] timers go off. *)
Fixpoint guard_run (n : nat) (s : guard_state) : proc (rpc_trace SSDK) guard_state :=
  match n, s with
  | S n', Waiting c =>
      o ← runRecheck cfg decimals c;
      guard_run n' (match o with Verified => Checked | ProcessExit => Down | Rescheduled c' => Waiting c' end)
  | _, _ => Return s
  end.

(** The contract of the token answered [d] to [decimals()]. *)
Definition told_decimals (calls : list rpc_call) (d : num) : Prop :=
  exists tx retval, RSimulate tx (Ok (SimResult (Some retval))) ∈ calls /\ tx_method tx = "decimals"%string /\
    new_Contract (SOROBAN_USDC_SAC cfg) = Ok (tx_contract tx) /\ fromScVal retval = Ok d.

Definition guard_ok (failures : Z) (calls : list rpc_call) (s : guard_state) : Prop :=
  match s with
  | Checked => exists d, told_decimals calls d /\ neqb d (num_of_Z (Z.of_nat decimals)) = true
  | Down => exists d, told_decimals calls d /\ neqb d (num_of_Z (Z.of_nat decimals)) = false
  | Waiting c => c = scheduleDecimalsRecheck failures
  end.

Lemma decimals_emits :
  emits (fun cs r => forall d, r = Ok d -> told_decimals cs d) (simulateUsdcSacDecimals cfg).
Proof.
  unfold simulateUsdcSacDecimals, build_transaction. do 2 emits_step. destruct (assertSorobanContractId _ _); [|done].
  do 3 emits_step. destruct (operatorKeypair cfg) as [kp|]; [|done]. emits_step. unfold getAccount. emits_step.
  destruct r as [account|]; [|done]. do 2 emits_step. destruct (new_Contract _) as [contract|] eqn:Ec; [|done].
  emits_step. emits_step. unfold simulateTransaction. emits_step. destruct r as [sim|]; [|done].
  destruct sim as [err|[retval|]]; emits_step; [done| |done]. intros d Hd. eexists _, retval.
  split_and!; [right; left|done|done|done].
Qed.

Lemma told_more calls calls' d : told_decimals calls d -> told_decimals (calls' ++ calls) d.
Proof. intros (tx & v & Hin & ?). exists tx, v. split; [|done]. apply elem_of_app. by right. Qed.

Lemma guard_run_ok n failures s calls :
  guard_ok failures calls s ->
  emits (fun cs r => exists s' more, r = Ok s' /\ 0 <= more <= Z.of_nat n /\ guard_ok (failures + more) (calls ++ cs) s') (guard_run n s).
Proof.
  revert failures s calls. induction n as [|n IH]; intros failures s calls Hs.
  - cbn. emits_step. exists s, 0. rewrite app_nil_r, Z.add_0_r. split_and!; [done|lia|lia|done].
  - destruct s as [|c|]; cbn [guard_run]; [emits_step; exists Checked, 0|emits_step|emits_step; exists Down, 0];
      [rewrite app_nil_r, Z.add_0_r; split_and!; [done|lia|lia|done]| |rewrite app_nil_r, Z.add_0_r; split_and!; [done|lia|lia|done]].
    unfold runRecheck. do 2 emits_step. eapply emits_mono; [|apply decimals_emits]. intros cs r Hr. cbn in Hs. subst c.
    assert (Hnext : forall s1 more1, 0 <= more1 <= 1 -> guard_ok (failures + more1) (calls ++ cs) s1 ->
      emits (fun cs' r' => exists s' more, r' = Ok s' /\ 0 <= more <= Z.of_nat (S n) /\ guard_ok (failures + more) (calls ++ cs ++ cs') s')
        (guard_run n s1)).
    { intros s1 more1 H1 H2. eapply emits_mono; [|by apply IH]. intros cs' r' (s' & more & -> & Hm & Hg).
      exists s', (more1 + more). rewrite Z.add_assoc, app_assoc. split_and!; [done|lia|lia|done]. }
    destruct r as [d|e]; emits_step; rewrite app_nil_r.
    + specialize (Hr d eq_refl). apply (told_more cs calls) in Hr.
      destruct (neqb d _) eqn:Ed; apply (Hnext _ 0); try lia; by exists d.
    + apply (Hnext _ 1); [lia|]. cbn. done.
Qed.

(** However often the token cannot be asked, the process ends up checked only if
    the token answered the decimals the backend counts with, and stays up after an
    answer only then; while it has no answer it asks again, after a minute more
    each time up to ten. *)
Theorem decimals_guard (n : nat) (t : rpc_trace SSDK) :
  let '(r, t') := run (s ← guard_boot; guard_run n s) t in
  exists calls s failures, t' = t ++ calls /\ r = Ok s /\ guard_ok failures calls s /\
    (forall c, s = Waiting c -> delayMs c = Z.min (60000 * attempt_no c) 600000 /\ 1 <= attempt_no c <= Z.of_nat n + 1).
Proof.
  assert (H : emits (fun cs r => exists s more, r = Ok s /\ 0 <= more <= Z.of_nat n /\ guard_ok (1 + more) cs s)
                (s ← guard_boot; guard_run n s)).
  { unfold guard_boot, onModuleInit. emits_step. emits_step. emits_step. do 2 emits_step. eapply emits_mono; [|apply decimals_emits].
    intros cs r Hr. assert (Hrun : forall s, guard_ok 1 cs s -> emits (fun cs' r' => exists s' more, r' = Ok s' /\ 0 <= more <= Z.of_nat n /\
        guard_ok (1 + more) (cs ++ cs') s') (guard_run n s)) by (intros s; apply guard_run_ok).
    destruct r as [d|e]; [destruct (neqb d _) eqn:Ed|]; emits_step; rewrite app_nil_r; emits_step; rewrite app_nil_r; apply Hrun.
    - exists d. split; [by apply Hr|done].
    - exists d. split; [by apply Hr|done].
    - done. }
  specialize (H t). destruct (run _ t) as [r t']. destruct H as (calls & Ht & s & more & Hr & Hm & Hg).
  exists calls, s, (1 + more). split_and!; [done..|]. intros c ->. cbn in Hg. subst c. cbn. lia.
Qed.
End Calls.

(** ** Witness: an offer made through the sample server *)

Lemma gateway_writes_guarded_witness :
  load_config sample_soroban_env = Ok sample_config /\
  (match fst (run (createLoanOfferBackend (RPC := sample_rpc sample_server) sample_config 7 (AString "1.5") sample_account (num_of_Z 14) (num_of_Z 300)) []) with
   | Ok offer => offer_maxAmountBase offer | Throw _ => ""%string end) = "15000000"%string /\
  emits (fun cs r => exists maxAmount, calls_contract sample_config "set_loan_offer"
                       (offer_arguments 7 (AString "1.5") sample_account (num_of_Z 14) (num_of_Z 300) maxAmount)
                       (offer_of maxAmount (num_of_Z 14) (num_of_Z 300)) cs r)
    (createLoanOfferBackend (RPC := sample_rpc sample_server) sample_config 7 (AString "1.5") sample_account (num_of_Z 14) (num_of_Z 300)).
Proof.
  split; [vm_compute; reflexivity|]. split; [vm_compute; reflexivity|].
  pose proof (gateway_writes_guarded (RPC := sample_rpc sample_server) sample_config 7 sample_soroban_env ltac:(vm_compute; reflexivity)) as (_ & H & _).
  exact (H (AString "1.5") sample_account (num_of_Z 14) (num_of_Z 300)).
Defined.
