(* ===== verification/SorobanEvents.v ===== *)
(** * Event scans of the Soroban gateway

    That the pages of a scan add up to all the events of the range, that the closing
    event found for a loan is the latest one, and what the topic filters the gateway
    builds let through. *)

From stdpp Require Import base tactics list strings numbers.
From Stdlib Require Import Lia ZArith.
From S2P Require Import Prelude JsString JsNum JsDate Strkey StellarSdk Gateway Async Trace SorobanConfig SorobanSample SorobanTx SorobanGateway.

Local Open Scope Z_scope.

(** ** Sorting *)

Section Sorting.
  Context {A : Type} (le : A -> A -> bool).
  Context (Htotal : forall x y, le x y = false -> le y x = true).
  Context (Htrans : forall x y z, le x y = true -> le y z = true -> le x z = true).

Lemma insert_le_head x l h : head l = Some h -> Forall (fun y => le h y = true) l ->
  exists h', head (insert_le le x l) = Some h' /\ Forall (fun y => le h' y = true) (x :: l).
Proof.
  destruct l as [|y l]; [done|]. cbn. intros [= ->] Hl. destruct (le x h) eqn:E.
  - assert (Hr : le x x = true) by (destruct (le x x) eqn:Er; [done|]; by rewrite (Htotal _ _ Er) in Er).
    exists x. split; [done|]. constructor; [done|]. eapply list.Forall_impl; [exact Hl|]. intros z. cbn. by apply Htrans.
  - exists h. split; [done|]. constructor; [by apply Htotal|done].
Qed.

(** The first of a sorted list is below all. *)
Lemma sort_le_head l x l' : sort_le le l = x :: l' -> x ∈ l /\ Forall (fun y => le x y = true) l.
Proof.
  intros H. split; [rewrite <- sort_le_perm, H; left|].
  assert (Hh : l = [] \/ exists h, head (sort_le le l) = Some h /\ Forall (fun y => le h y = true) l).
  { clear H. induction l as [|y l IH]; [by left|right]. cbn. fold (sort_le le l).
    destruct IH as [->|(h & Hh & Hl)].
    - exists y. split; [done|]. constructor; [|done]. destruct (le y y) eqn:Er; [done|]. by rewrite (Htotal _ _ Er) in Er.
    - destruct (insert_le_head y (sort_le le l) h Hh) as (h' & Hh' & Hl').
      + by rewrite sort_le_perm.
      + exists h'. split; [done|]. by rewrite sort_le_perm in Hl'. }
  destruct Hh as [->|(h & Hh & Hl)]; [done|]. rewrite H in Hh. cbn in Hh. by injection Hh as ->.
Qed.
End Sorting.

(** ** Pages *)

(** A server that keeps its word on a scan: for contracts, filters and a range of
    ledgers there is a list of events, each page holds the next ones up to the
    limit, and the cursor tells how many were read. A page is shorter than the limit
    only at the end of the range. *)
Class EventLaws `(RPC : SorobanRpc) := {
  matching : list string -> list (list string) -> Z -> Z -> list EventResponse;
  at_cursor : list string -> list (list string) -> Z -> Z -> nat -> string -> Prop;
  first_page t ids topics s e limit :
    let page := take limit (matching ids topics s e) in
    exists c, rpc_getEvents t {| q_contractIds := ids; q_topics := topics; q_range := Ledgers s e; q_limit := limit |}
      = Ok {| pg_events := page; pg_cursor := c |} /\ at_cursor ids topics s e (length page) c;
  next_page t ids topics s e k cursor limit :
    at_cursor ids topics s e k cursor ->
    let page := take limit (drop k (matching ids topics s e)) in
    exists c, rpc_getEvents t {| q_contractIds := ids; q_topics := topics; q_range := FromCursor cursor; q_limit := limit |}
      = Ok {| pg_events := page; pg_cursor := c |} /\ at_cursor ids topics s e (k + length page) c;
  cursor_position ids topics s e k k' c : at_cursor ids topics s e k c -> at_cursor ids topics s e k' c -> k = k';
  cursor_filled ids topics s e k c : at_cursor ids topics s e k c -> c <> ""%string;
}.

Section Pages.
  Context `{RPC : SorobanRpc} {EL : EventLaws RPC} {DP : DateParser} (cfg : SorobanConfig) (page_fuel : nat).

  Abbreviation manager := [SOROBAN_LOAN_MANAGER cfg].

Lemma page_limit_pos : (0 < PAGE_LIMIT)%nat.
Proof. unfold PAGE_LIMIT. lia. Qed.

(** The end of a page: the whole list, or its first events and a full page. *)
Lemma page_end {A} (k : nat) (l : list A) (limit : nat) :
  (length (take limit (drop k l)) < limit)%nat -> take k l ++ take limit (drop k l) = l.
Proof.
  intros H. rewrite length_take in H. rewrite (take_ge (drop k l)) by lia. by rewrite take_drop.
Qed.

Lemma page_more {A} (k : nat) (l : list A) (limit : nat) :
  length (take limit (drop k l)) = limit -> take k l ++ take limit (drop k l) = take (k + limit) l.
Proof. intros _. by rewrite take_take_drop. Qed.

Lemma page_loop_complete fuel s e topics k c :
  at_cursor manager topics s e k c -> (length (matching manager topics s e) - k < fuel * PAGE_LIMIT)%nat ->
  emits (fun cs r => r = Ok (Some (matching manager topics s e)))
    (page_loop cfg fuel s e topics (Some c) (take k (matching manager topics s e))).
Proof.
  pose proof page_limit_pos as Hpos. revert k c. induction fuel as [|fuel IH]; intros k c Hc Hlen; [lia|]. cbn [page_loop].
  apply emits_bind. intros t. unfold getEvents, ask. rewrite run_await. cbn [fst snd].
  destruct (next_page t _ _ _ _ _ _ PAGE_LIMIT Hc) as (c' & -> & Hc'). eexists. split; [reflexivity|]. cbn [pg_events pg_cursor].
  set (M := matching manager topics s e) in *. set (page := take PAGE_LIMIT (drop k M)) in *.
  rewrite bool_decide_false by (by eapply cursor_filled). cbn [orb].
  destruct (decide (length page = PAGE_LIMIT)) as [Hfull|Hshort].
  - rewrite bool_decide_false.
    2: { intros [= ->]. pose proof (cursor_position _ _ _ _ _ _ _ Hc Hc'). lia. }
    rewrite bool_decide_true by done. assert (Hmore : take k M ++ page = take (k + PAGE_LIMIT) M) by (by apply page_more).
    rewrite Hmore.
    eapply emits_mono; [|apply IH]; [done|by rewrite <- Hfull at 1|].
    unfold page in Hfull. rewrite length_take, length_drop in Hfull.
    rewrite Nat.mul_succ_l in Hlen. lia.
  - assert (Hend : take k M ++ page = M).
    { apply page_end. fold page. assert (length page <= PAGE_LIMIT)%nat by (unfold page; rewrite length_take; lia). lia. }
    rewrite Hend. rewrite (bool_decide_false (length page = PAGE_LIMIT)) by done.
    destruct (bool_decide _); by apply emits_return.
Qed.

Lemma events_emits s e topics (Hfuel : (length (matching manager topics s e) < (page_fuel - 1) * PAGE_LIMIT)%nat) :
  emits (fun cs r => r = Ok (matching manager topics s e)) (getContractEvents cfg page_fuel s e topics).
Proof.
  unfold getContractEvents. destruct page_fuel as [|fuel]; [lia|]. cbn [page_loop]. replace (S fuel - 1)%nat with fuel in Hfuel by lia.
  emits_step. emits_step. intros t. unfold getEvents, ask. rewrite run_await. cbn [fst snd].
  destruct (first_page t manager topics s e PAGE_LIMIT) as (c & -> & Hc). eexists. split; [reflexivity|]. cbn [pg_events pg_cursor].
  set (M := matching manager topics s e) in *. change ([] ++ take PAGE_LIMIT M) with (take PAGE_LIMIT M).
  rewrite (bool_decide_false (c = ""%string)) by (by eapply cursor_filled). rewrite (bool_decide_false (None = Some c)) by done. cbn [orb].
  destruct (decide (length (take PAGE_LIMIT M) = PAGE_LIMIT)) as [Hfull|Hshort].
  - rewrite bool_decide_true by done. rewrite Hfull in Hc. eapply emits_mono; [|eapply page_loop_complete; [exact Hc|fold M; lia]].
    intros cs r ->. by apply emits_return.
  - rewrite bool_decide_false by done. apply emits_return. apply emits_return.
    rewrite length_take in Hshort. by rewrite take_ge by lia.
Qed.

(** A scan reads every page: on a server that keeps its word, and with fuel for
    more pages than the events fill, it answers all the events of the range that
    match, in order and once each. *)
Theorem scan_complete (startLedger endLedger : Z) (topics : list (list string)) (t : rpc_trace SSDK)
    (Hfuel : (length (matching manager topics startLedger endLedger) < (page_fuel - 1) * PAGE_LIMIT)%nat) :
  fst (run (getContractEvents cfg page_fuel startLedger endLedger topics) t) = Ok (matching manager topics startLedger endLedger).
Proof. destruct (events_emits _ _ _ Hfuel t) as (cs & _ & Hr). exact Hr. Qed.

(** ** The closing event of a loan *)

(** The close time of the ledger of an event, in seconds. *)
Definition closed_at (event : EventResponse) : Z := default 0 (Date_parse (er_ledgerClosedAt event)) / 1000.

Definition dated (event : EventResponse) : Prop := exists ms, Date_parse (er_ledgerClosedAt event) = Some ms.

Lemma timestamp_emits event : dated event ->
  emits (fun cs r => r = Ok (closed_at event)) (eventTimestamp (er_ledgerClosedAt event)).
Proof. intros [ms Hms]. unfold eventTimestamp, closed_at. rewrite Hms. by apply emits_return. Qed.

Lemma stamped_emits events : Forall dated events ->
  emits (fun cs r => r = Ok (map (fun event => (event, closed_at event)) events))
    (pmap (fun event => timestamp ← eventTimestamp (er_ledgerClosedAt event); Return (event, timestamp)) events).
Proof.
  induction 1 as [|event events Hd _ IH]; cbn [pmap map]; [by apply emits_return|].
  do 2 emits_step. eapply emits_mono; [|by apply timestamp_emits]. intros cs r ->. emits_step.
  emits_step. eapply emits_mono; [|exact IH]. intros cs' r ->. by apply emits_return.
Qed.

(** The events that may close the loan, by the scan. *)
Definition may_close (start : Z) (event : EventResponse) : Prop :=
  er_inSuccessfulContractCall event = true /\ start <= closed_at event.

(** A later event of two: by the time of its ledger, then by its ledger. *)
Definition not_later (a b : EventResponse) : Prop :=
  closed_at a < closed_at b \/ (closed_at a = closed_at b /\ er_ledger a <= er_ledger b).

Lemma closed_le_total x y : closed_le x y = false -> closed_le y x = true.
Proof. unfold closed_le. repeat case_scrut; intros H; bool_to_prop; try lia; apply Z.leb_le; lia. Qed.

Lemma closed_le_trans x y z : closed_le x y = true -> closed_le y z = true -> closed_le x z = true.
Proof. unfold closed_le. repeat case_scrut; intros H1 H2; bool_to_prop; try lia; apply Z.leb_le; lia. Qed.

Definition closing (event : EventResponse) (borrower : string) (paid : Z) : ChainLoanClosedEvent :=
  {| cl_borrower := borrower; cl_amountPaid := paid; cl_txHash := er_txHash event; cl_ledger := er_ledger event;
     cl_timestamp := closed_at event |}.

(** What the search answers for the events of the scan. *)
Definition latest_closing (borrower : string) (start : Z) (events : list EventResponse) (r : result (option ChainLoanClosedEvent)) : Prop :=
  (r = Ok None /\ Forall (fun event => ~ may_close start event) events) \/
  exists event, event ∈ events /\ may_close start event /\ Forall (fun other => may_close start other -> not_later other event) events /\
    r = (paid ← fromScVal (T := Z) (er_value event); Ok (Some (closing event borrower paid))).

Lemma candidates_spec start events x :
  x ∈ List.filter (fun x : EventResponse * Z => start <=? x.2)
        (map (fun event => (event, closed_at event)) (List.filter er_inSuccessfulContractCall events)) <->
  exists event, x = (event, closed_at event) /\ event ∈ events /\ may_close start event.
Proof.
  rewrite list_elem_of_In, List.filter_In, in_map_iff. unfold may_close. split.
  - intros [(event & <- & Hin) Hle]. apply List.filter_In in Hin as [Hin Hok]. cbn in Hle. bool_to_prop.
    exists event. by rewrite list_elem_of_In.
  - intros (event & -> & Hin & Hok & Hle). cbn. split; [|by apply Z.leb_le]. exists event. split; [done|].
    apply List.filter_In. by rewrite <- list_elem_of_In.
Qed.

Lemma findClosed_emits borrower loanStartAt currentLedger address topic
    (Hacc : assertStellarAccount borrower = Ok tt) (Haddr : scv_address borrower = Ok address) (Htopic : eventTopic "loanclos" = Ok topic) :
  let events := matching manager [[topic]; [toXDR address]] (Z.max 0 (currentLedger - 100000)) currentLedger in
  (length events < (page_fuel - 1) * PAGE_LIMIT)%nat -> Forall dated events ->
  emits (fun cs r => latest_closing borrower (loanStartAt / 1000) events r)
    (findLoanClosedEvent cfg page_fuel borrower loanStartAt currentLedger).
Proof.
  intros events Hfuel Hdated. unfold findLoanClosedEvent. rewrite Hacc, Haddr, Htopic. do 6 emits_step.
  emits_step. eapply emits_mono; [|by apply events_emits]. intros cs r ->.
  emits_step. eapply emits_mono; [|apply stamped_emits].
  2: { apply list.Forall_forall. intros ev [Hin _]%list_elem_of_In%List.filter_In.
       apply (proj1 (list.Forall_forall _ _) Hdated). by apply list_elem_of_In. }
  intros cs' r ->. fold events.
  pose proof (candidates_spec (loanStartAt / 1000) events) as Hcand.
  set (l := List.filter _ (map _ _)) in *. destruct (sort_le closed_le l) as [|[event ts] rest] eqn:Es.
  - emits_step. left. split; [done|]. apply list.Forall_forall. intros ev Hin Hc.
    assert (Hn : l = []) by (apply Permutation_nil_r; rewrite <- (sort_le_perm closed_le l); by rewrite Es).
    assert (Hx : (ev, closed_at ev) ∈ l) by (apply Hcand; eauto). rewrite Hn in Hx. by apply elem_of_nil in Hx.
  - destruct (sort_le_head closed_le closed_le_total closed_le_trans l _ _ Es) as [Hin Hmax].
    apply Hcand in Hin as (ev & [= -> ->] & Hin & Hc). emits_step. emits_step.
    assert (Hlatest : Forall (fun other => may_close (loanStartAt / 1000) other -> not_later other ev) events).
    { apply list.Forall_forall. intros other Ho Hoc.
      assert (Hx : (other, closed_at other) ∈ l) by (apply Hcand; eauto).
      pose proof (proj1 (list.Forall_forall _ _) Hmax _ Hx) as Hle. unfold closed_le in Hle. cbn in Hle. unfold not_later.
      destruct (closed_at other - closed_at ev =? 0) eqn:E; bool_to_prop; lia. }
    destruct (fromScVal (er_value ev)) as [paid|e] eqn:Ep; [emits_step|]; right; exists ev; rewrite Ep; split_and!; done.
Qed.

(** The closing event found for a loan: of the events of the last hundred
    thousand ledgers that the scan lets through, in successful calls and not before
    the loan's start, it is the latest, and none is found only when there is none. *)
Theorem find_closed_latest (borrower : string) (loanStartAt currentLedger : Z) (address : ScVal) (topic : string) (t : rpc_trace SSDK)
    (Hacc : assertStellarAccount borrower = Ok tt) (Haddr : scv_address borrower = Ok address) (Htopic : eventTopic "loanclos" = Ok topic)
    (Hfuel : (length (matching manager [[topic]; [toXDR address]] (Z.max 0 (currentLedger - 100000)) currentLedger)
                < (page_fuel - 1) * PAGE_LIMIT)%nat)
    (Hdated : Forall dated (matching manager [[topic]; [toXDR address]] (Z.max 0 (currentLedger - 100000)) currentLedger)) :
  latest_closing borrower (loanStartAt / 1000)
    (matching manager [[topic]; [toXDR address]] (Z.max 0 (currentLedger - 100000)) currentLedger)
    (fst (run (findLoanClosedEvent cfg page_fuel borrower loanStartAt currentLedger) t)).
Proof. destruct (findClosed_emits borrower loanStartAt currentLedger address topic Hacc Haddr Htopic Hfuel Hdated t) as (cs & _ & Hr). exact Hr. Qed.

(** ** The filters *)

(** Filters of one segment let no event with two topics through. *)
Lemma one_segment_filters filters event :
  length (er_topic event) = 2%nat -> Forall (fun f => length f = 1%nat) filters -> event_matches filters event = false.
Proof.
  intros Hev Hf. unfold event_matches. induction Hf as [|f fs Hlen _ IH]; [done|]. cbn. rewrite IH, orb_false_r.
  destruct f as [|x [|y f]]; [done| |done]. destruct (er_topic event) as [|a [|b [|c l]]]; try done. cbn. by rewrite andb_false_r.
Qed.

(** The LoanManager publishes its events with two topics, their name and the
    borrower; the gateway filters on one. On a server that applies the filters as
    documented, neither scan finds anything: no closing, and no opening. *)
Theorem filters_miss_the_contract (borrower : string) (loanStartAt currentLedger fromLedger toLedger : Z) (address : ScVal)
    (closs opens : string) (t : rpc_trace SSDK)
    (Hacc : assertStellarAccount borrower = Ok tt) (Haddr : scv_address borrower = Ok address)
    (Hclos : eventTopic "loanclos" = Ok closs) (Hopen : eventTopic "loanopen" = Ok opens) (Hfuel : (2 <= page_fuel)%nat)
    (Hfilter : forall topics s e, Forall (fun event => event_matches topics event = true) (matching manager topics s e))
    (Htwo : forall topics s e, Forall (fun event => length (er_topic event) = 2%nat) (matching manager topics s e)) :
  fst (run (findLoanClosedEvent cfg page_fuel borrower loanStartAt currentLedger) t) = Ok None /\
  fst (run (getLoanOpenedEvents cfg page_fuel fromLedger toLedger) t) = Ok [].
Proof.
  assert (Hnone : forall topics s e, Forall (fun f => length f = 1%nat) topics -> matching manager topics s e = []).
  { intros topics s e H1. pose proof (Hfilter topics s e) as H2. pose proof (Htwo topics s e) as H3.
    destruct (matching manager topics s e) as [|event l]; [done|].
    apply list.Forall_cons in H2 as [H2 _]. apply list.Forall_cons in H3 as [H3 _].
    rewrite (one_segment_filters topics event H3 H1) in H2. done. }
  assert (H0 : (0 < (page_fuel - 1) * PAGE_LIMIT)%nat) by (pose proof page_limit_pos; nia).
  split.
  - set (events := matching manager [[closs]; [toXDR address]] (Z.max 0 (currentLedger - 100000)) currentLedger).
    assert (He : events = []) by (apply Hnone; by repeat constructor).
    assert (Hlen : (length events < (page_fuel - 1) * PAGE_LIMIT)%nat) by (rewrite He; exact H0).
    assert (Hd : Forall dated events) by (rewrite He; constructor).
    destruct (findClosed_emits borrower loanStartAt currentLedger address closs Hacc Haddr Hclos Hlen Hd t) as (cs & _ & Hr).
    destruct Hr as [[Hr _]|(ev & Hin & _)]; [exact Hr|]. fold events in Hin. rewrite He in Hin. by apply elem_of_nil in Hin.
  - assert (He : matching manager [[opens]] fromLedger toLedger = []) by (apply Hnone; by repeat constructor).
    assert (Hopened : emits (fun cs r => r = Ok []) (getLoanOpenedEvents cfg page_fuel fromLedger toLedger)).
    { unfold getLoanOpenedEvents. rewrite Hopen. do 2 emits_step. emits_step. eapply emits_mono; [|apply events_emits; rewrite He; exact H0].
      intros cs r ->. rewrite He. by apply emits_return. }
    destruct (Hopened t) as (cs & _ & Hr). exact Hr.
Qed.
End Pages.

(** ** Witnesses *)

Lemma cursor_count_text n : cursor_count (cursor_text n) = n.
Proof. unfold cursor_count, cursor_text. rewrite chars_of_chars. cbn. rewrite length_replicate. lia. Qed.

#[export] Instance sample_events (sv : Server) : EventLaws (sample_rpc sv).
Proof.
  refine {|
    matching ids topics s e := List.filter (event_matches topics) (sv_events sv);
    at_cursor ids topics s e k c := c = cursor_text k;
  |}.
  - intros t ids topics s e limit page. exists (cursor_text (0 + length page)). split; [done|done].
  - intros t ids topics s e k cursor limit -> page. cbn [rpc_getEvents sample_rpc q_range q_limit q_topics].
    rewrite cursor_count_text. eexists. split; reflexivity.
  - intros ids topics s e k k' c -> H. rewrite <- (cursor_count_text k), H. apply cursor_count_text.
  - intros ids topics s e k c -> H. apply (f_equal (fun s => length (chars s))) in H.
    unfold cursor_text in H. rewrite chars_of_chars in H. discriminate H.
Defined.

Definition closing_event (topics : list ScVal) (paid ledger : Z) (at_ : string) : EventResponse := {|
  er_inSuccessfulContractCall := true; er_topic := topics; er_value := MI128 paid; er_ledger := ledger;
  er_txHash := "hash"; er_ledgerClosedAt := at_;
|}.

(** Two closings, the later one second. *)
Definition closing_server : Server := {|
  sv_transactions _ := {| tr_status := SUCCESS; tr_ledger := 77; tr_events := None |};
  sv_simulations _ := SimResult None; sv_busy := 0; sv_start := 0;
  sv_events := [closing_event [MSymbol "loanclos"] 10 5 "2026-01-01T00:00:00Z";
                closing_event [MSymbol "loanclos"] 11 6 "2026-01-02T00:00:00Z"];
|}.

(** The same as the contract publishes them, with the borrower. *)
Definition published_server : Server := {|
  sv_transactions := sv_transactions closing_server; sv_simulations := sv_simulations closing_server; sv_busy := 0; sv_start := 0;
  sv_events := [closing_event [MSymbol "loanclos"; MAddress sample_account] 10 5 "2026-01-01T00:00:00Z"];
|}.

Lemma scan_complete_witness :
  fst (run (getContractEvents (RPC := sample_rpc closing_server) sample_config 2 1 1000 [["symbol:loanclos"%string]]) [])
  = Ok (sv_events closing_server).
Proof.
  pose proof (scan_complete (RPC := sample_rpc closing_server) (EL := sample_events closing_server) sample_config 2 1 1000
    [["symbol:loanclos"%string]] [] ltac:(apply Nat.ltb_lt; vm_compute; reflexivity)) as H.
  exact H.
Defined.

Lemma closing_dated : Forall dated (sv_events closing_server).
Proof. repeat constructor; eexists; vm_compute; reflexivity. Qed.

Lemma find_closed_latest_witness :
  fst (run (findLoanClosedEvent (RPC := sample_rpc closing_server) sample_config 2 sample_account 1767225600000 1000) [])
    = Ok (Some (closing (closing_event [MSymbol "loanclos"] 11 6 "2026-01-02T00:00:00Z") sample_account 11)) /\
  latest_closing sample_account 1767225600 (sv_events closing_server)
    (fst (run (findLoanClosedEvent (RPC := sample_rpc closing_server) sample_config 2 sample_account 1767225600000 1000) [])).
Proof.
  split; [vm_compute; reflexivity|].
  pose proof (find_closed_latest (RPC := sample_rpc closing_server) (EL := sample_events closing_server) sample_config 2
    sample_account 1767225600000 1000 (MAddress sample_account) "symbol:loanclos" []
    ltac:(vm_compute; reflexivity) ltac:(vm_compute; reflexivity) ltac:(vm_compute; reflexivity)
    ltac:(apply Nat.ltb_lt; vm_compute; reflexivity) closing_dated) as H.
  exact H.
Defined.

Lemma filters_miss_the_contract_witness :
  sv_events published_server <> [] /\
  fst (run (findLoanClosedEvent (RPC := sample_rpc published_server) sample_config 2 sample_account 1767225600000 1000) []) = Ok None.
Proof.
  split; [discriminate|].
  pose proof (filters_miss_the_contract (RPC := sample_rpc published_server) (EL := sample_events published_server) sample_config 2
    sample_account 1767225600000 1000 0 1000 (MAddress sample_account) "symbol:loanclos" "symbol:loanopen" []
    ltac:(vm_compute; reflexivity) ltac:(vm_compute; reflexivity) ltac:(vm_compute; reflexivity) ltac:(vm_compute; reflexivity) ltac:(lia)) as H.
  apply H; intros topics s e; apply list.Forall_forall; intros event [Hin Hm]%list_elem_of_In%List.filter_In; [exact Hm|].
  destruct Hin as [<-|[]]. reflexivity.
Defined.
