(* ===== verification/Port.v ===== *)
(** * Implementations of the blockchain gateway port
      ([backend/src/domain/ports/outbound/blockchain-gateway.port.ts],
       [backend/src/loan/loan.module.ts])

    The services reach the chain through the port of [Gateway]. An implementation of
    it is a process per method over the trace of the calls it makes to its own server.
    The trace of the port's calls then determines the calls made to the server, and so
    the next answer: every implementation is an [Outside] of [Gateway], for which the
    theorems about the services hold. The implementations are in [SorobanPort] and
    [EvmPort]. *)

From stdpp Require Import base tactics list strings numbers.
From Stdlib Require Import Lia ZArith.
From S2P Require Import Prelude JsString JsNum Gateway Async Trace.

Local Open Scope Z_scope.

(** The methods, called as the services call them: the priority, and the arguments
    they leave out ([kycOk], [validUntil]), have their defaults. *)
Class BlockchainGateway (E : Type) := {
  g_readCreditLimitOnChain : string -> proc (list E) Z;
  g_readNextBorrowTime : option (string -> proc (list E) Z);
  g_giveCreditScoreAndLimit : string -> Z -> Z -> proc (list E) Z;
  g_createLoanOfferBackend : string -> string -> Z -> num -> proc (list E) LoanOffer;
  g_setPremiumConfig : string -> Z -> proc (list E) unit;
  g_previewLoanWithLate : string -> proc (list E) (option Z);
  g_readLoanOnChain : string -> proc (list E) (option OnChainLoan);
  g_readLoanFull : string -> proc (list E) (option OnChainLoanFull);
  g_readPremium : string -> proc (list E) (option Premium);
  g_readIsDefaulted : string -> proc (list E) (option bool);
  g_getChainBlockTimestamp : proc (list E) (option Z);
  g_verifyLoanOpenedByTxHash : string -> string -> proc (list E) bool;
  g_verifyRepayByTxHash : string -> string -> proc (list E) RepayVerification;
  g_accrueLate : string -> proc (list E) unit;
  g_getLatestLedger : proc (list E) Z;
  g_readUserRisk : string -> proc (list E) (option UserRisk);
  g_getLoanOpenedEvents : Z -> Z -> proc (list E) (list ChainLoanOpenedEvent);
  g_findLoanClosedEvent : string -> Z -> Z -> proc (list E) (option ChainLoanClosedEvent);
  (** [Date.now()], and how it is recorded *)
  g_now : list E -> Z;
  g_reading : Z -> E;
}.

Section Port.
  Context {E : Type} {GW : BlockchainGateway E}.
  (** the parts of the outside that are not the gateway's *)
  Context (rest : Outside) (feed : ChainFeed).

(** The calls to the server a call to the port makes, whatever it answers. *)
Definition gateway_run (c : call) : proc (list E) unit :=
  let quiet {A} (p : proc (list E) A) : proc (list E) unit := _ ← settle p; Return tt in
  match c with
  | CReadCreditLimit b => quiet (g_readCreditLimitOnChain b)
  | CReadNextBorrowTime b => match g_readNextBorrowTime with Some f => quiet (f b) | None => Return tt end
  | CGiveCredit b sc limit _ => quiet (g_giveCreditScoreAndLimit b sc limit)
  | CCreateOffer amount b tenor fee _ => quiet (g_createLoanOfferBackend amount b tenor fee)
  | CSetPremium b rate => quiet (g_setPremiumConfig b rate)
  | CPreviewLate b => quiet (g_previewLoanWithLate b)
  | CReadLoan b => quiet (g_readLoanOnChain b)
  | CReadLoanFull b => quiet (g_readLoanFull b)
  | CReadPremium b => quiet (g_readPremium b)
  | CReadIsDefaulted b => quiet (g_readIsDefaulted b)
  | CChainTimestamp => quiet g_getChainBlockTimestamp
  | CVerifyOpened tx b _ => quiet (g_verifyLoanOpenedByTxHash tx b)
  | CVerifyRepay tx b _ => quiet (g_verifyRepayByTxHash tx b)
  | CAccrueLate b _ => quiet (g_accrueLate b)
  | CNow _ => quiet (ask_value g_now g_reading)
  | CLatestLedger => quiet g_getLatestLedger
  | CReadUserRisk b => quiet (g_readUserRisk b)
  | CLoanOpenedEvents from to _ => quiet (g_getLoanOpenedEvents from to)
  | CFindLoanClosed b startAt ledger _ => quiet (g_findLoanClosedEvent b startAt ledger)
  | CKycCreate _ | CKycDecision _ _ | CSubgraph | CRandom _ | CSendTemplate _ _ _ | CSendText _ _ _ => Return tt
  end.

(** The calls to the server behind a trace of calls to the port. *)
Definition server_calls (tr : list call) : list E := fold_left (fun t c => snd (run (gateway_run c) t)) tr [].

Definition answer {A} (p : proc (list E) A) (tr : list call) : result A := fst (run p (server_calls tr)).

Definition PortOutside : Outside := {|
  gw_readCreditLimit tr b := answer (g_readCreditLimitOnChain b) tr;
  gw_readNextBorrowTime := (fun f tr b => answer (f b) tr) <$> g_readNextBorrowTime;
  gw_giveCredit tr b sc limit := answer (g_giveCreditScoreAndLimit b sc limit) tr;
  gw_createOffer tr amount b tenor fee := answer (g_createLoanOfferBackend amount b tenor fee) tr;
  gw_previewLate tr b := answer (g_previewLoanWithLate b) tr;
  gw_readLoan tr b := answer (g_readLoanOnChain b) tr;
  gw_readLoanFull tr b := answer (g_readLoanFull b) tr;
  gw_readPremium tr b := answer (g_readPremium b) tr;
  gw_readIsDefaulted tr b := answer (g_readIsDefaulted b) tr;
  gw_chainTimestamp tr := answer g_getChainBlockTimestamp tr;
  gw_verifyOpened tr tx b := answer (g_verifyLoanOpenedByTxHash tx b) tr;
  gw_verifyRepay tr tx b := answer (g_verifyRepayByTxHash tx b) tr;
  gw_accrueLate tr b := answer (g_accrueLate b) tr;
  now_ms tr := g_now (server_calls tr);
  kyc_name := kyc_name (Outside := rest);
  kyc_createSession := kyc_createSession (Outside := rest);
  kyc_getDecision := kyc_getDecision (Outside := rest);
|}.

Definition PortFeed : ChainFeed := {|
  gw_latestLedger tr := answer g_getLatestLedger tr;
  gw_readUserRisk tr b := answer (g_readUserRisk b) tr;
  gw_loanOpenedEvents tr from to := answer (g_getLoanOpenedEvents from to) tr;
  gw_findLoanClosed tr b startAt ledger := answer (g_findLoanClosedEvent b startAt ledger) tr;
  subgraph_loansOriginated := subgraph_loansOriginated (ChainFeed := feed);
|}.

(** ** The trace of the server only grows *)

(** What an implementation promises: its methods append to the trace. *)
Class GatewayAppends : Prop := gateway_appends c : appends (gateway_run c).

Lemma server_calls_snoc tr c : server_calls (tr ++ [c]) = snd (run (gateway_run c) (server_calls tr)).
Proof. unfold server_calls. by rewrite fold_left_app. Qed.

Lemma server_calls_grow `{!GatewayAppends} tr tr' : server_calls tr `prefix_of` server_calls (tr ++ tr').
Proof.
  induction tr' as [|c tr' IH] using rev_ind; [by rewrite app_nil_r|].
  etrans; [exact IH|]. rewrite app_assoc, server_calls_snoc. by eapply makes_prefix, gateway_appends.
Qed.

(** The calls behind one more call whose method answers [r]. *)
Lemma server_calls_emits {A} (P : list E -> result A -> Prop) (p : proc (list E) A) tr c :
  gateway_run c = (_ ← settle p; Return tt) -> emits P p ->
  exists cs, server_calls (tr ++ [c]) = server_calls tr ++ cs /\ P cs (answer p tr).
Proof.
  intros Hc Hp. rewrite server_calls_snoc, Hc, run_bind, run_settle. unfold answer.
  destruct (Hp (server_calls tr)) as (cs & Ht & HP). destruct (run p (server_calls tr)) as [r t']. by exists cs.
Qed.

(** What a call to the server that was made shows, is shown from then on. *)
Lemma server_calls_in `{!GatewayAppends} e tr tr' : e ∈ server_calls tr -> e ∈ server_calls (tr ++ tr').
Proof. intros Hin. destruct (server_calls_grow tr tr') as [more ->]. apply elem_of_app. by left. Qed.
End Port.

(** To prove [GatewayAppends]: the method of each call. *)
Ltac gateway_methods GW :=
  let c := fresh "c" in
  intros c; destruct c; cbn [gateway_run];
    apply makes_return || (apply makes_bind; [apply makes_settle|intros; apply makes_return]);
    cbn [GW g_readCreditLimitOnChain g_readNextBorrowTime g_giveCreditScoreAndLimit g_createLoanOfferBackend g_setPremiumConfig
         g_previewLoanWithLate g_readLoanOnChain g_readLoanFull g_readPremium g_readIsDefaulted g_getChainBlockTimestamp
         g_verifyLoanOpenedByTxHash g_verifyRepayByTxHash g_accrueLate g_getLatestLedger g_readUserRisk g_getLoanOpenedEvents
         g_findLoanClosedEvent].

#[global] Arguments server_calls {E} GW tr.
#[global] Arguments GatewayAppends {E} GW.

(** [(process.env.BLOCKCHAIN_GATEWAY ?? '').toLowerCase() === 'soroban']: the gateway
    of a backend whose environment has the variable or not. *)
Definition blockchainGatewayProvider {A} (BLOCKCHAIN_GATEWAY : option string) (soroban ethers : A) : A :=
  if bool_decide (toLowerCase (default "" BLOCKCHAIN_GATEWAY) = "soroban"%string) then soroban else ethers.
