(* ===== verification/SorobanPort.v ===== *)
(** * The Soroban gateway behind the port

    The services reach the chain through the port of [Gateway]. Here the port is
    implemented by the gateway of [SorobanGateway]: the trace of the port's calls
    determines the calls the gateway has made to the RPC server, and so its next
    answer. Every theorem about the services, which are proved for any port, holds
    for this one, and what they say of the gateway becomes a statement about the
    server. *)

From stdpp Require Import base tactics list gmap strings numbers.
From Stdlib Require Import Lia ZArith.
From S2P Require Import Prelude JsString JsNum JsDate AmountUnits Strkey DecimalLib CreditPolicy StellarSdk Gateway Entities Store Async Trace Kyc LoanVerification LoanService LoanRepayment SorobanQueue SorobanConfig SorobanSample SorobanTx SorobanGateway SorobanGatewayProps Port.

Local Open Scope Z_scope.

Section Port.
  Context `{RPC : SorobanRpc} {DP : DateParser} (cfg : SorobanConfig) (decimals page_fuel : nat).
  (** the parts of the outside that are not the gateway's *)
  Context (rest : Outside) (feed : ChainFeed).

(** [SorobanBlockchainGateway]. *)
#[local] Instance SorobanGatewayPort : BlockchainGateway (rpc_call (SSDK := SSDK)) := {|
  g_readCreditLimitOnChain := readCreditLimitOnChain cfg;
  g_readNextBorrowTime := Some (readNextBorrowTime cfg);
  g_giveCreditScoreAndLimit b sc limit := giveCreditScoreAndLimit cfg b (num_of_Z sc) limit true None;
  g_createLoanOfferBackend amount b tenor fee := createLoanOfferBackend cfg decimals (AString amount) b (num_of_Z tenor) fee;
  g_setPremiumConfig := setPremiumConfig cfg;
  g_previewLoanWithLate := previewLoanWithLate cfg;
  g_readLoanOnChain := readLoanOnChain cfg;
  g_readLoanFull := readLoanFull cfg;
  g_readPremium := readPremium cfg;
  g_readIsDefaulted := readIsDefaulted cfg;
  (** a close time that is a number is one of seconds, an integer *)
  g_getChainBlockTimestamp := o ← getChainBlockTimestamp; Return (o ≫= num_integer);
  g_verifyLoanOpenedByTxHash := verifyLoanOpenedByTxHash cfg;
  g_verifyRepayByTxHash := verifyRepayByTxHash cfg;
  g_accrueLate := accrueLate cfg;
  g_getLatestLedger := getLatestLedger_sequence;
  g_readUserRisk := readUserRisk cfg;
  g_getLoanOpenedEvents := getLoanOpenedEvents cfg page_fuel;
  g_findLoanClosedEvent := findLoanClosedEvent cfg page_fuel;
  g_now := rpc_now;
  g_reading := RNow;
|}.

Definition SorobanOutside : Outside := PortOutside rest.
Definition SorobanFeed : ChainFeed := PortFeed feed.

(** The calls to the server behind a trace of calls to the port. *)
Abbreviation rpc_calls := (server_calls SorobanGatewayPort).

(** ** The trace of the server only grows *)

Lemma appends_now : appends Date_now.
Proof. by apply makes_ask_value. Qed.

Lemma appends_sleep ms : appends (sleep ms).
Proof. by apply makes_note. Qed.

#[local] Hint Resolve appends_now appends_sleep : makes.

Lemma appends_poll n hash : appends (poll_transaction n hash).
Proof. induction n as [|n IH]; cbn [poll_transaction]; unfold getTransaction; solve_makes. Qed.

Lemma appends_confirm n start hash : appends (confirm_loop cfg n start hash).
Proof. revert start. induction n as [|n IH]; intros start; cbn [confirm_loop]; unfold getTransaction; solve_makes. Qed.

Lemma appends_pages n from to topics cursor events : appends (page_loop cfg n from to topics cursor events).
Proof. revert cursor events. induction n as [|n IH]; intros cursor events; cbn [page_loop]; unfold getEvents; solve_makes. Qed.

Lemma appends_events from to topics : appends (getContractEvents cfg page_fuel from to topics).
Proof. unfold getContractEvents. apply makes_bind; [apply appends_pages|]. intros o. solve_makes. Qed.

Lemma appends_build contract method args : appends (build_transaction cfg contract method args).
Proof. unfold build_transaction, getAccount. solve_makes. Qed.

Lemma appends_read {T} `{!FromScVal T} method b : appends (read_borrower (T := T) cfg method b).
Proof.
  unfold read_borrower, simulateLoanManagerCall, buildContractTransaction, simulateTransaction.
  pose proof appends_build. solve_makes.
Qed.

Lemma appends_call method args purpose : appends (sendLoanManagerCall cfg method args purpose).
Proof.
  unfold sendLoanManagerCall, loan_manager_task, buildContractTransaction, prepareTransaction, sendPreparedTransaction,
    waitForTransactionWithRetry, send_once, sendTransaction, waitForTransaction.
  pose proof appends_build. pose proof appends_confirm. solve_makes.
Qed.

#[local] Hint Resolve appends_poll appends_events appends_read appends_call : makes.

#[local] Instance soroban_appends : GatewayAppends SorobanGatewayPort.
Proof.
  gateway_methods SorobanGatewayPort;
    unfold readCreditLimitOnChain, readNextBorrowTime, giveCreditScoreAndLimit, createLoanOfferBackend, setPremiumConfig,
      previewLoanWithLate, readLoanOnChain, readLoanFull, readPremium, readIsDefaulted, getChainBlockTimestamp, getLatestLedger_sequence,
      verifyLoanOpenedByTxHash, verifyRepayByTxHash, accrueLate, readUserRisk, getLoanOpenedEvents, findLoanClosedEvent,
      or_null, opened_event, eventTimestamp, nowPlus, getLatestLedger;
    solve_makes.
Qed.

(** ** What the services may rely on *)

(** The server reported the transaction as a success, with a [loanclos] event of the
    LoanManager for the wallet. *)
Definition closed_on_chain (hash wallet : string) (calls : rpc_trace SSDK) : Prop :=
  exists tx event paid, RGetTransaction hash (Ok tx) ∈ calls /\ tr_status tx = SUCCESS /\
    event ∈ tx_events tx /\ published cfg "loanclos" wallet event /\ fromScVal (T := Z) (ce_data event) = Ok paid.

(** The contract, asked for the loan of the wallet, answered one that is not active,
    or no loan at all. *)
Definition inactive_on_chain (wallet : string) (calls : rpc_trace SSDK) : Prop :=
  exists tx retval address, RSimulate tx (Ok (SimResult retval)) ∈ calls /\ tx_method tx = "get_loan"%string /\
    scv_address wallet = Ok address /\ tx_args tx = [address] /\ new_Contract (SOROBAN_LOAN_MANAGER cfg) = Ok (tx_contract tx) /\
    match retval with
    | None => True
    | Some v => exists loan, fromScVal (T := SorobanLoan) v = Ok loan /\ default false (sl_active loan) = false
    end.

Lemma readLoan_emits wallet :
  emits (fun cs r => forall l, r = Ok (Some l) -> active l = false -> inactive_on_chain wallet cs) (readLoanOnChain cfg wallet).
Proof.
  unfold readLoanOnChain, readLoanFull, or_null, read_borrower, simulateLoanManagerCall, buildContractTransaction, build_transaction.
  emits_step. do 2 emits_step. destruct (assertStellarAccount wallet); [|done]. emits_step.
  do 3 emits_step. destruct (scv_address wallet) as [address|] eqn:Ea; [|by repeat emits_step].
  do 2 emits_step. destruct (assertSorobanContractId _ _); [|by repeat emits_step].
  do 3 emits_step. destruct (operatorKeypair cfg) as [kp|]; [|by repeat emits_step].
  emits_step. unfold getAccount. emits_step. destruct r as [account|]; [|by repeat emits_step].
  do 2 emits_step. destruct (new_Contract _) as [contract|] eqn:Ec; [|by repeat emits_step].
  emits_step. emits_step. unfold simulateTransaction. emits_step. destruct r as [sim|]; [|by repeat emits_step].
  destruct sim as [err|[v|]]; [by repeat emits_step| |].
  - do 2 emits_step. destruct (fromScVal v) as [loan|] eqn:Ev; [|by repeat emits_step]. repeat emits_step.
    intros l [= <-] Hl. eexists _, (Some v), address. split_and!; [right; left|done|done|done|done|by exists loan].
  - repeat emits_step. intros l [= <-] _. eexists _, None, address. split_and!; [right; left|done|done|done|done|done].
Qed.

Lemma closed_grow hash wallet tr tr' : closed_on_chain hash wallet (rpc_calls tr) -> closed_on_chain hash wallet (rpc_calls (tr ++ tr')).
Proof.
  intros (tx & event & paid & Hin & H). exists tx, event, paid. split; [|done].
  by apply (server_calls_in (GW := SorobanGatewayPort)).
Qed.

Lemma inactive_grow wallet tr tr' : inactive_on_chain wallet (rpc_calls tr) -> inactive_on_chain wallet (rpc_calls (tr ++ tr')).
Proof.
  intros (tx & v & a & Hin & H). exists tx, v, a. split; [|done].
  by apply (server_calls_in (GW := SorobanGatewayPort)).
Qed.

(** A verified answer of the port comes from the server. *)
Lemma verified_on_chain tr hash wallet r :
  gw_verifyRepay (Outside := SorobanOutside) tr hash wallet = Ok r -> verified r = true ->
  closed_on_chain hash wallet (rpc_calls (tr ++ [CVerifyRepay hash wallet (Ok r)])).
Proof.
  intros Hr Hv.
  destruct (server_calls_emits (GW := SorobanGatewayPort) _ (verifyRepayByTxHash cfg hash wallet) tr (CVerifyRepay hash wallet (Ok r)) eq_refl (verifyRepay_emits cfg hash wallet))
    as (cs & -> & H).
  change (answer (verifyRepayByTxHash cfg hash wallet) tr = Ok r) in Hr. rewrite Hr in H.
  destruct (assertStellarAccount wallet) as [[]|e]; [|destruct H; congruence].
  destruct H as (ans & v & (misses & -> & _) & [= ->] & Hverdict).
  destruct ans as [tx|e]; cbn in Hverdict; [|by subst v].
  destruct (tr_status tx) eqn:Es; [|by subst v..].
  destruct Hverdict as [(b & event & c & paid & Heq & _ & Hp & Hpaid & _)|[(_ & ->)|(-> & _)]]; [|done..].
  exists tx, event, paid. split_and!; [|done| |done|done].
  - apply elem_of_app. right. apply elem_of_app. right. left.
  - rewrite Heq. apply elem_of_app. right. left.
Qed.

Lemma read_inactive tr wallet l :
  gw_readLoan (Outside := SorobanOutside) tr wallet = Ok (Some l) -> active l = false ->
  inactive_on_chain wallet (rpc_calls (tr ++ [CReadLoan wallet])).
Proof.
  intros Hr Hl.
  destruct (server_calls_emits (GW := SorobanGatewayPort) _ (readLoanOnChain cfg wallet) tr (CReadLoan wallet) eq_refl (readLoan_emits wallet)) as (cs & -> & H).
  destruct (H l Hr Hl) as (tx & v & a & Hin & Hrest). exists tx, v, a. split; [|done]. apply elem_of_app. by right.
Qed.

Section Repayment.
  Context `{ENV : Env} `{DB : Database} `{D : DecimalJs} `{JM : JsMath} {LAWS : DatabaseLaws DB}.

(** C6. End to end: recording a repayment leaves the loans as they are, or the RPC
    server told the gateway, when it was asked, that the transaction of the request
    succeeded and the LoanManager published the closing of the wallet's loan in it,
    or that the wallet's loan is not active. *)
Theorem repayment_backed_by_server (dto : InformRepaymentDto) (w : World) (Hok : tables_ok w) (Htx : w_tx w = NoTx) :
  let '(r, w') := processRepayment (OUT := SorobanOutside) dto w in
  w_loans w' = w_loans w \/
  exists wallet, normalizeWallet (ir_walletAddress dto) = Ok wallet /\
    ((exists hash, ir_txHash dto = Some hash /\ closed_on_chain hash wallet (rpc_calls (w_calls w'))) \/
     inactive_on_chain wallet (rpc_calls (w_calls w'))).
Proof.
  pose proof (process_repayment_run (OUT := SorobanOutside) dto w Hok Htx) as H.
  destruct (processRepayment (OUT := SorobanOutside) dto w) as [r w']. destruct H as [((_ & Hl & _) & _)|H]; [by left|right].
  destruct H as (i & user & _ & Hw & (evs & Hevs & Hproof) & _). exists (walletAddress user). split; [done|]. rewrite Hevs.
  destruct Hproof as [(hash & v & pre & post & Hh & Hv & -> & Hans)|(pre & post & l & -> & Hans & Hact)]; [left|right].
  - exists hash. split; [done|]. pose proof (verified_on_chain _ _ _ _ Hans Hv) as Hc.
    rewrite cons_middle, !app_assoc. by apply closed_grow.
  - pose proof (read_inactive _ _ _ Hans Hact) as Hc.
    rewrite cons_middle, !app_assoc. by apply inactive_grow.
Qed.
End Repayment.
End Port.

(** ** Witness: a repayment confirmed by a sample server *)

Definition sample_manager : list Z :=
  match StrKey_decodeContract (SOROBAN_LOAN_MANAGER sample_config) with Ok id => id | Throw _ => [] end.

Definition closing_tx : TxResponse := {|
  tr_status := SUCCESS; tr_ledger := 77;
  tr_events := Some [[{| ce_contractId := Some sample_manager;
                         ce_topics := [MSymbol "loanclos"; MAddress sample_account]; ce_data := MI128 10840000 |}]];
|}.

Definition repay_server : Server := {|
  sv_transactions _ := closing_tx; sv_simulations _ := SimResult (Some (MLoan 10000000 10840000 true));
  sv_events := []; sv_busy := 0; sv_start := 0;
|}.

Definition sample_port : Outside := SorobanOutside (RPC := sample_rpc repay_server) sample_config 7 2 lending.

Definition sample_calls (w : World) : rpc_trace ModelSoroban :=
  server_calls (SorobanGatewayPort (RPC := sample_rpc repay_server) sample_config 7 2) (w_calls w).

Lemma repayment_backed_by_server_witness :
  repaid_line (fst (inform_repay sample_port (Some "r1"%string) one_loan)) <> None /\
  match inform_repay sample_port (Some "r1"%string) one_loan return Prop with
  | (_, w') =>
      w_loans w' = w_loans one_loan \/
      exists wallet, normalizeWallet sample_account = Ok wallet /\
        ((exists hash, Some "r1"%string = Some hash /\ closed_on_chain (SSDK := ModelSoroban) sample_config hash wallet (sample_calls w')) \/
         inactive_on_chain (SSDK := ModelSoroban) sample_config wallet (sample_calls w'))
  end.
Proof.
  split; [vm_compute; discriminate|].
  pose proof (repayment_backed_by_server (RPC := sample_rpc repay_server) (ENV := sample_env) (D := QDecimal) (JM := SampleMath)
    sample_config 7 2 lending (sample_repay (Some "r1"%string)) one_loan one_loan_ok one_loan_tx) as H.
  exact H.
Defined.
