(* ===== verification/EvmConfig.v ===== *)
(** * Sending transactions to an EVM chain
      ([backend/src/config/contractConfig.ts])

    The legacy way to the LoanManager: one signer, whose nonces are cleared before it
    sends, retries with growing fees, and a receipt that is polled for. The library
    (ethers) and the node behind it are a parameter: every answer is a function of the
    calls made before. The tasks wait for their turn in a queue that is written as
    the one of [SorobanQueue] is, line for line. The messages of refused arguments and
    of a failed estimate are cut to their first words; no code reads the rest. *)

From stdpp Require Import base tactics list strings numbers.
From Stdlib Require Import Lia ZArith.
From S2P Require Import Prelude JsString JsNum Strkey Gateway Async Trace.

Local Open Scope Z_scope.

(** ** Configuration and data *)

(** The environment, as read: the numbers are whole. [signer_address] is the address
    of the private key. *)
Record EvmConfig := {
  CLM_ADDRESS : string;
  signer_address : string;
  AUTO_CLEAR_ENABLED : bool;
  AUTO_CLEAR_MAX_STEPS : Z;
  TX_CONFIRM_TIMEOUT_MS : Z;
  CANCEL_CONFIRM_TIMEOUT_MS : Z;
  CANCEL_FEE_MULTIPLIER : Z;
  CANCEL_FEE_MULTIPLIER_STEP : Z;
  MIN_PRIORITY_FEE_WEI : Z;
  MAX_SEND_ATTEMPTS : Z;
}.

(** The values without an environment. *)
Definition evm_defaults (clm signer : string) : EvmConfig := {|
  CLM_ADDRESS := clm; signer_address := signer; AUTO_CLEAR_ENABLED := true; AUTO_CLEAR_MAX_STEPS := 500;
  TX_CONFIRM_TIMEOUT_MS := 60000; CANCEL_CONFIRM_TIMEOUT_MS := 60000; CANCEL_FEE_MULTIPLIER := 4;
  CANCEL_FEE_MULTIPLIER_STEP := 2; MIN_PRIORITY_FEE_WEI := 2000000000; MAX_SEND_ATTEMPTS := 3 |}.

Record FeeData := { gasPrice : option Z; maxFeePerGas : option Z; maxPriorityFeePerGas : option Z }.

Inductive Fees := Eip1559 (maxFee priorityFee : Z) | LegacyFee (price : Z) | NodeFees.

(** What [signer.sendTransaction] is given; a call of the contract leaves the nonce
    and the value to the library. *)
Record EvmTx := {
  tx_to : string;
  tx_data : option string;
  tx_value : option Z;
  tx_gasLimit : Z;
  tx_nonce : option Z;
  tx_fees : Fees;
}.

Record Log := { log_address : string; log_topics : list string; log_data : string }.

Record Receipt := { rc_status : Z; rc_blockNumber : Z; rc_logs : list Log }.

Inductive block_tag := latest | pending.

Inductive abi_value := AAddress (a : string) | ANumber (n : num) | AUint (n : Z) | ABool (b : bool).

(** The views of the contract; the values they answer come in order, a truth value
    as 0 or 1 and an address as its number. *)
Inductive view :=
  | VOwner
  | VCreditLimit (borrower : string)
  | VPreviewLoanWithLate (borrower : string)
  | VLoans (borrower : string)
  | VPremiums (borrower : string)
  | VIsDefaulted (borrower : string)
  | VUsers (borrower : string).

(** An event of the contract: the indexed borrower, and the other arguments. *)
Record EvmEvent := { ee_borrower : string; ee_args : list Z; ee_blockNumber : Z; ee_txHash : string }.

Inductive evm_call :=
  | ECount (tag : block_tag) (answer : result Z)
  | EBalance (answer : result Z)
  | EFees (answer : result FeeData)
  | ESend (tx : EvmTx) (answer : result string)
  | EReceipt (hash : string) (answer : result (option Receipt))
  | EEstimate (data : string) (answer : result Z)
  | ENetwork (answer : result Z)
  | EView (v : view) (answer : result (list Z))
  | EBlock (number : option Z) (answer : result (option Z))
  | EQuery (closed : bool) (borrower : option string) (from to : Z) (answer : result (list EvmEvent))
  | EBlockNumber (answer : result Z)
  | ENow (millis : Z)
  | ESleep (millis : Z).

Class EvmProvider := {
  getTransactionCount : list evm_call -> block_tag -> result Z;
  getBalance : list evm_call -> result Z;
  getFeeData : list evm_call -> result FeeData;
  (** the hash of the transaction the node took *)
  sendTransaction : list evm_call -> EvmTx -> result string;
  getTransactionReceipt : list evm_call -> string -> result (option Receipt);
  estimateGas : list evm_call -> string -> result Z;
  getNetwork : list evm_call -> result Z;
  call_view : list evm_call -> view -> result (list Z);
  (** the timestamp of a block, [None] when there is none; no number is the latest *)
  getBlock : list evm_call -> option Z -> result (option Z);
  queryFilter : list evm_call -> bool -> option string -> Z -> Z -> result (list EvmEvent);
  getBlockNumber : list evm_call -> result Z;
  evm_now : list evm_call -> Z;
  encodeFunctionData : string -> list abi_value -> result string;
  parseUnits : string -> Z -> result Z;
  getAddress : string -> result string;
  zeroPadValue : string -> string;
  topicHash : string -> string;
  shortMessage : exn -> option string;
}.

Section Evm.
  Context `{PROV : EvmProvider} (cfg : EvmConfig).

Abbreviation evm := (proc (list evm_call)).

Definition count (tag : block_tag) : evm Z := ask (fun t => getTransactionCount t tag) (ECount tag).
Definition send (tx : EvmTx) : evm string := ask (fun t => sendTransaction t tx) (ESend tx).
Definition receipt_of (hash : string) : evm (option Receipt) := ask (fun t => getTransactionReceipt t hash) (EReceipt hash).
Definition view_call (v : view) : evm (list Z) := ask (fun t => call_view t v) (EView v).
Definition block_time (number : option Z) : evm (option Z) := ask (fun t => getBlock t number) (EBlock number).
Definition now : evm Z := ask_value evm_now ENow.
Definition sleep (ms : Z) : evm unit := note (ESleep ms).

(** [/^0x[0-9a-fA-F]{40}$/] *)
Definition isHexAddress (addr : string) : bool := EVM_WALLET_ADDRESS_PATTERN addr.

(** [String(err?.shortMessage ?? err?.message ?? err)] *)
Definition exn_text (e : exn) : string := default (exn_message e) (shortMessage e).

(** ** Fees and nonces *)

Definition feeOverridesFor (multiplier : Z) : evm Fees :=
  fee ← ask getFeeData EFees;
  match maxFeePerGas fee, maxPriorityFeePerGas fee, gasPrice fee with
  | Some maxFee, Some priority, _ =>
      let prio := if 0 <? priority then priority else MIN_PRIORITY_FEE_WEI cfg in
      Return (Eip1559 (maxFee * multiplier) (prio * multiplier))
  | _, _, Some price => Return (LegacyFee (price * multiplier))
  | _, _, None => Return NodeFees
  end.

Record SignerState := { ss_latest : Z; ss_pending : Z; ss_balance : Z }.

Definition gap (st : SignerState) : Z := ss_pending st - ss_latest st.

Definition signerState : evm SignerState :=
  latest_ ← count latest;
  pending_ ← count pending;
  balance ← ask getBalance EBalance;
  Return {| ss_latest := latest_; ss_pending := pending_; ss_balance := balance |}.

(** ** Receipts *)

Definition confirm_timeout (hash : string) (timeoutMs : Z) : exn :=
  PlainError ("TX_CONFIRM_TIMEOUT: " +:+ hash +:+ " not mined in " +:+ String_of_int timeoutMs +:+ "ms").

(** [while (Date.now() - start < timeoutMs) ...]; [None] when the fuel runs out. *)
Fixpoint receipt_loop (fuel : nat) (start : Z) (hash : string) (timeoutMs : Z) : evm (option Receipt) :=
  match fuel with
  | O => Return None
  | S fuel' =>
      t ← now;
      if t - start <? timeoutMs then
        r ← receipt_of hash;
        match r with
        | Some receipt => Return (Some receipt)
        | None => _ ← sleep 1500; receipt_loop fuel' start hash timeoutMs
        end
      else Raise (confirm_timeout hash timeoutMs)
  end.

(** More polls than a clock that moves allows. *)
Definition receipt_fuel (timeoutMs : Z) : nat := S (S (Z.to_nat timeoutMs)).

Definition waitReceiptPolling (hash : string) (timeoutMs : Z) : evm Receipt :=
  start ← now;
  r ← receipt_loop (receipt_fuel timeoutMs) start hash timeoutMs;
  match r with Some receipt => Return receipt | None => Raise (PlainError "out of fuel") end.

(** ** Clearing nonces *)

Definition cancel_tx (nonce : Z) (fees : Fees) : EvmTx :=
  {| tx_to := signer_address cfg; tx_data := None; tx_value := Some 0; tx_gasLimit := 21000; tx_nonce := Some nonce; tx_fees := fees |}.

Definition cancel_once (nonce attempt : Z) : evm unit :=
  fees ← feeOverridesFor (CANCEL_FEE_MULTIPLIER cfg + CANCEL_FEE_MULTIPLIER_STEP cfg * Z.max 0 (attempt - 1));
  hash ← send (cancel_tx nonce fees);
  _ ← waitReceiptPolling hash (CANCEL_CONFIRM_TIMEOUT_MS cfg);
  Return tt.

Fixpoint cancel_loop (left : nat) (nonce attempt : Z) (lastErr : option exn) : evm unit :=
  match left with
  | O => Raise (PlainError ("AUTO_CLEAR_FAILED nonce=" +:+ String_of_int nonce +:+ ": " +:+
                            match lastErr with Some e => exn_text e | None => "null" end))
  | S left' =>
      r ← settle (cancel_once nonce attempt);
      match r with
      | Ok _ => Return tt
      | Throw e => _ ← sleep (400 * attempt); cancel_loop left' nonce (attempt + 1) (Some e)
      end
  end.

Definition cancelNonce (nonce : Z) : evm unit := cancel_loop 5 nonce 1 None.

(** [addr=... latest=... pending=...] of a message. *)
Definition state_text (st : SignerState) : string :=
  "addr=" +:+ signer_address cfg +:+ " latest=" +:+ String_of_int (ss_latest st) +:+ " pending=" +:+ String_of_int (ss_pending st).

Definition stuck_error (st : SignerState) : exn :=
  PlainError ("SIGNER_STUCK_PENDING_TX: " +:+ state_text st +:+ " (gap=" +:+ String_of_int (gap st) +:+
    "). Auto-clear desactivado (CLM_AUTO_CLEAR_PENDING_NONCES=false). Cancel/speedup nonce=" +:+ String_of_int (ss_latest st) +:+ ".").

Definition gave_up_error (st : SignerState) : exn :=
  PlainError ("[AUTO-CLEAR] gave up after " +:+ String_of_int (AUTO_CLEAR_MAX_STEPS cfg) +:+ " cancels. " +:+ state_text st +:+
    " gap=" +:+ String_of_int (gap st)).

Definition no_gas_error : exn := PlainError "[AUTO-CLEAR] signer balance=0. No puede pagar gas para limpiar nonces.".

Fixpoint clear_loop (left : nat) : evm unit :=
  match left with
  | O => last ← signerState; Raise (gave_up_error last)
  | S left' =>
      cur ← signerState;
      if gap cur <=? 0 then Return tt else
      _ ← cancelNonce (ss_latest cur);
      clear_loop left'
  end.

(** The tasks of the queue run one at a time, so none finds another one clearing. *)
Definition autoClearPendingNoncesIfNeeded : evm unit :=
  st ← signerState;
  if gap st <=? 0 then Return tt
  else if negb (AUTO_CLEAR_ENABLED cfg) then Raise (stuck_error st)
  else if ss_balance st <=? 0 then Raise no_gas_error
  else clear_loop (Z.to_nat (AUTO_CLEAR_MAX_STEPS cfg)).

(** ** Sending *)

Definition RETRYABLE_ERROR_FRAGMENTS : list string :=
  ["AUTO_CLEAR_FAILED"; "nonce has already been used"; "replacement transaction underpriced"; "already known"]%string.

Definition isRetryableChainError (e : exn) : bool := existsb (includes (exn_message e)) RETRYABLE_ERROR_FRAGMENTS.

Definition withChainWriteRetry {A} (fn : evm A) (purpose : string) : evm A :=
  attempts ESleep fn isRetryableChainError
    (PlainError (purpose +:+ " failed after " +:+ String_of_int (MAX_SEND_ATTEMPTS cfg) +:+ " attempts"))
    (Z.to_nat (MAX_SEND_ATTEMPTS cfg)) 1 None.

Definition contract_tx (data : string) (gasLimit : Z) (fees : Fees) : EvmTx :=
  {| tx_to := CLM_ADDRESS cfg; tx_data := Some data; tx_value := None; tx_gasLimit := gasLimit; tx_nonce := None; tx_fees := fees |}.

(** The sends of one task: fees times 3, 4 and 5. *)
Fixpoint send_loop (left : nat) (attempt : Z) (data : string) (gasLimit : Z) (sendErr : option exn) : evm (result string) :=
  match left with
  | O => Return (Throw (default (PlainError "null") sendErr))
  | S left' =>
      r ← settle (fees ← feeOverridesFor (2 + attempt); send (contract_tx data gasLimit fees));
      match r with
      | Ok hash => Return (Ok hash)
      | Throw e => _ ← sleep (350 * attempt); send_loop left' (attempt + 1) data gasLimit (Some e)
      end
  end.

(** The task [sendContractTxOnce] puts in the queue. *)
Definition send_task (data : string) (gasLimit : Z) (purpose : string) : evm Receipt :=
  _ ← autoClearPendingNoncesIfNeeded;
  r ← send_loop 3 1 data gasLimit None;
  match r with
  | Throw e => Raise (PlainError (purpose +:+ " send failed after retries: " +:+ exn_text e))
  | Ok hash => waitReceiptPolling hash (TX_CONFIRM_TIMEOUT_MS cfg)
  end.

Definition sendContractTx (data : string) (gasLimit : Z) (purpose : string) : evm Receipt :=
  withChainWriteRetry (send_task data gasLimit purpose) purpose.

(** ** Writes *)

Definition tryEstimate (data : string) : evm (option Z) :=
  proc_try (fun _ => Return None) (g ← ask (fun t => estimateGas t data) (EEstimate data); Return (Some g)).

(** The end of every write: the estimate, a fifth more gas, the transaction. *)
Definition write_call (sig : string) (args : list abi_value) (reverted purpose : string) : evm Receipt :=
  data ← of_result (encodeFunctionData sig args);
  gas ← tryEstimate data;
  match gas with
  | None | Some 0 => Raise (PlainError reverted)
  | Some g => sendContractTx data (g + Z.quot g 5) purpose
  end.

Definition assertHexAddress (borrower : string) : result unit :=
  throw_if (negb (isHexAddress borrower)) (PlainError ("Invalid borrower: " +:+ borrower)).

Definition logHeaderAndCheck : evm unit :=
  _ ← ask getNetwork ENetwork;
  proc_try (fun _ => Return tt) (_ ← view_call VOwner; Return tt).

Definition nowPlus (seconds : Z) : evm Z := t ← now; Return (t / 1000 + seconds).

(** [!Number.isFinite(score) || score < 1 || score > 1000] *)
Definition bad_score (score : num) : bool :=
  negb (nleb (num_of_Z 1) score && nleb score (num_of_Z 1000)).

(** [if (!Number.isInteger(x) || x <= 0 || x > 65535) throw ...] *)
Definition uint16_arg (x : num) (invalid : string) : result Z :=
  n ← result_of_option (PlainError invalid) (num_integer x);
  _ ← throw_if ((n <=? 0) || (65535 <? n)) (PlainError invalid);
  mret n.

Definition giveCreditScoreAndLimit (borrower : string) (score : num) (limit : Z) (kycOk : bool) (validUntil : option Z) : evm Z :=
  _ ← of_result (assertHexAddress borrower);
  _ ← of_result (throw_if (bad_score score) (PlainError "Invalid score"));
  finalValidUntil ← match validUntil with Some v => Return v | None => nowPlus (30 * 24 * 60 * 60) end;
  _ ← logHeaderAndCheck;
  _ ← write_call "setUserRisk(address,uint16,bool,uint64,uint256)"
        [AAddress borrower; ANumber score; ABool kycOk; AUint finalValidUntil; AUint limit]
        "setUserRisk reverted on estimateGas" "setUserRisk";
  Return 200.

Definition toUnits (v : string) : result Z := parseUnits v 6.

Definition createLoanOfferBackend (amountHuman borrower : string) (tenorDays feeBps : num) : evm LoanOffer :=
  _ ← of_result (assertHexAddress borrower);
  tenor ← of_result (uint16_arg tenorDays "Invalid tenorDays (uint16)");
  _ ← of_result (uint16_arg feeBps "Invalid feeBps (uint16)");
  _ ← logHeaderAndCheck;
  maxAmount ← of_result (toUnits amountHuman);
  validUntil ← nowPlus (3 * 24 * 60 * 60);
  receipt ← write_call "setLoanOffer(address,uint16,uint16,uint64,uint256)"
              [AAddress borrower; ANumber tenorDays; ANumber feeBps; AUint validUntil; AUint maxAmount]
              "setLoanOffer reverted on estimateGas" "setLoanOffer";
  Return {| offer_ok := true; offer_feeBps := feeBps; offer_tenorDays := tenor;
            offer_maxAmountBase := String_of_int maxAmount; offer_minedBlock := rc_blockNumber receipt |}.

Definition setPremiumConfig (borrower : string) (lateRatePerSecWad : Z) : evm unit :=
  _ ← of_result (assertHexAddress borrower);
  _ ← write_call "setPremiumConfig(address,uint128,uint128)" [AAddress borrower; AUint 0; AUint lateRatePerSecWad]
        "setPremiumConfig reverted on estimateGas" "setPremiumConfig";
  Return tt.

Definition accrueLate (borrower : string) : evm unit :=
  _ ← of_result (assertHexAddress borrower);
  _ ← write_call "accrueLate(address)" [AAddress borrower] "accrueLate reverted on estimateGas" "accrueLate";
  Return tt.

(** ** Reads *)

(** The [i]-th value of an answer. *)
Definition value (i : nat) (vs : list Z) : Z := nth i vs 0.

Definition readCreditLimitOnChain (borrower : string) : evm Z :=
  _ ← of_result (assertHexAddress borrower);
  vs ← view_call (VCreditLimit borrower);
  Return (value 0 vs).

(** A read whose failure is null. *)
Definition read_or_null {A} (v : view) (f : list Z -> A) : evm (option A) :=
  proc_try (fun _ => Return None) (vs ← view_call v; Return (Some (f vs))).

Definition previewLoanWithLate (borrower : string) : evm (option Z) :=
  _ ← of_result (assertHexAddress borrower); read_or_null (VPreviewLoanWithLate borrower) (value 1).

Definition readLoanFull (borrower : string) : evm (option OnChainLoanFull) :=
  _ ← of_result (assertHexAddress borrower);
  read_or_null (VLoans borrower) (fun r => {|
    f_principal := value 0 r; f_amountDue := value 1 r; f_start := value 2 r; f_due := value 3 r;
    f_feeBps := Number_Z (value 4 r); f_gracePeriod := Number_Z (value 5 r); f_active := negb (value 6 r =? 0) |}).

Definition readPremium (borrower : string) : evm (option Premium) :=
  _ ← of_result (assertHexAddress borrower);
  read_or_null (VPremiums borrower) (fun r => {| premiumRatePerSecWad := value 0 r; premium_lateRatePerSecWad := value 1 r |}).

Definition readIsDefaulted (borrower : string) : evm (option bool) :=
  _ ← of_result (assertHexAddress borrower); read_or_null (VIsDefaulted borrower) (fun r => negb (value 0 r =? 0)).

Definition getChainBlockTimestamp : evm (option Z) := proc_try (fun _ => Return None) (block_time None).
End Evm.
