(* ===== verification/EvmGateway.v ===== *)
(** * The EVM gateway
      ([backend/src/infrastructure/blockchain/ethers-blockchain.gateway.ts])

    The implementation of the gateway port over ethers, the one a backend without
    [BLOCKCHAIN_GATEWAY=soroban] runs: its writes and simple reads are those of
    [EvmConfig]; here are the event scans and the verification of an opening or a
    repayment by its receipt. Its theorems are in [EvmTx] and [EvmGatewayProps]. *)

From stdpp Require Import base tactics list strings numbers.
From Stdlib Require Import Lia ZArith.
From S2P Require Import Prelude JsString JsNum Gateway Async Trace EvmConfig.

Local Open Scope Z_scope.

Definition CELO_BLOCK_TIME_SEC : Z := 1.
Definition MAX_BLOCK_RANGE : Z := 10000.

Section Gateway.
  Context `{PROV : EvmProvider} (cfg : EvmConfig).

  Abbreviation evm := (proc (list evm_call)).

(** [LOAN_MANAGER_IFACE.getEvent('LoanOpened')!.topicHash.toLowerCase()], with the
    event as the ABI file declares it. *)
Definition LOAN_OPENED_TOPIC : string := toLowerCase (topicHash "LoanOpened(address,uint256,uint256,uint64,uint16,uint32)").
Definition TOPIC_LOAN_CLOSED : string := toLowerCase (topicHash "LoanClosed(address,uint256)").

Definition getLatestLedger : evm Z := ask getBlockNumber EBlockNumber.

Definition readUserRisk (borrower : string) : evm (option UserRisk) :=
  proc_try (fun _ => Return None)
    (user ← view_call (VUsers borrower);
     Return (Some {| ur_score := Number_Z (value 0 user); ur_validUntil := Number_Z (value 2 user); ur_limit := value 4 user |})).

Definition readLoanOnChain (borrower : string) : evm (option OnChainLoan) :=
  proc_try (fun _ => Return None)
    (loan ← view_call (VLoans borrower);
     Return (Some {| active := negb (value 6 loan =? 0); oc_principal := value 0 loan; oc_amountDue := value 1 loan |})).

(** ** Events *)

Definition query (closed : bool) (borrower : option string) (from to : Z) : evm (list EvmEvent) :=
  ask (fun t => queryFilter t closed borrower from to) (EQuery closed borrower from to).

(** An event of [LoanOpened], [None] when its block is not there. *)
Definition opened_event (e : EvmEvent) : evm (option ChainLoanOpenedEvent) :=
  block ← block_time (Some (ee_blockNumber e));
  Return (timestamp ← block;
          Some {| ev_borrower := toLowerCase (ee_borrower e); ev_principal := value 0 (ee_args e); ev_amountDue := value 1 (ee_args e);
                  ev_due := Number_Z (value 2 (ee_args e)); ev_feeBps := Number_of_bigint (value 3 (ee_args e));
                  ev_ledger := ee_blockNumber e; ev_txHash := ee_txHash e; ev_timestamp := timestamp |}).

Definition getLoanOpenedEvents (fromLedger toLedger : Z) : evm (list ChainLoanOpenedEvent) :=
  events ← query false None fromLedger toLedger;
  opened ← pmap opened_event events;
  Return (omap (M := list) id opened).

(** [Math.ceil(a / b)] *)
Definition ceil_div (a b : Z) : Z := - ((- a) / b).

(** The first of the blocks that may hold the closing of a loan. *)
Definition closed_from (currentLedger loanStartUnix nowUnix : Z) : Z :=
  Z.max 0 (currentLedger - ceil_div (nowUnix - loanStartUnix) CELO_BLOCK_TIME_SEC - 2000).

(** The last event of a page, unless it is older than the loan. *)
Definition closing_of (borrower : string) (loanStartUnix nowUnix : Z) (event : EvmEvent) : evm (option ChainLoanClosedEvent) :=
  block ← block_time (Some (ee_blockNumber event));
  let eventTimestamp := default nowUnix block in
  if eventTimestamp <? loanStartUnix then Return None else
  Return (Some {| cl_borrower := borrower; cl_amountPaid := value 0 (ee_args event); cl_txHash := ee_txHash event;
                  cl_ledger := ee_blockNumber event; cl_timestamp := eventTimestamp |}).

(** [for (let to = currentLedger; to >= fromBlock; to -= MAX_BLOCK_RANGE)]; the outer
    [None] when the fuel runs out. *)
Fixpoint closed_loop (fuel : nat) (to fromBlock loanStartUnix nowUnix : Z) (borrower : string) : evm (option (option ChainLoanClosedEvent)) :=
  match fuel with
  | O => Return None
  | S fuel' =>
      if to <? fromBlock then Return (Some None) else
      events ← query true (Some borrower) (Z.max (to - MAX_BLOCK_RANGE + 1) fromBlock) to;
      match list.last events with
      | Some event => found ← closing_of borrower loanStartUnix nowUnix event; Return (Some found)
      | None =>
          _ ← (if fromBlock <=? to - MAX_BLOCK_RANGE then EvmConfig.sleep 200 else Return tt);
          closed_loop fuel' (to - MAX_BLOCK_RANGE) fromBlock loanStartUnix nowUnix borrower
      end
  end.

(** More pages than the range has. *)
Definition closed_fuel (to fromBlock : Z) : nat := S (Z.to_nat ((to - fromBlock) / MAX_BLOCK_RANGE + 1)).

Definition findLoanClosedEvent (borrower : string) (loanStartAt currentLedger : Z) : evm (option ChainLoanClosedEvent) :=
  let loanStartUnix := loanStartAt / 1000 in
  t ← EvmConfig.now;
  let nowUnix := t / 1000 in
  let fromBlock := closed_from currentLedger loanStartUnix nowUnix in
  found ← closed_loop (closed_fuel currentLedger fromBlock) currentLedger fromBlock loanStartUnix nowUnix borrower;
  match found with Some o => Return o | None => Raise (PlainError "out of fuel") end.

(** ** Verification by receipt *)

(** [log.topics[i]?.toLowerCase() === topic] *)
Definition topic_at (log : Log) (i : nat) (topic : string) : bool := bool_decide (toLowerCase <$> log_topics log !! i = Some topic).

Definition expectedTopicUser (borrower : string) : result string :=
  address ← getAddress borrower; mret (toLowerCase (zeroPadValue address)).

Definition loan_log (topic user : string) (log : Log) : bool :=
  bool_decide (toLowerCase (log_address log) = toLowerCase (CLM_ADDRESS cfg)) && topic_at log 0 topic && topic_at log 1 user.

Definition verifyLoanOpenedByTxHash (txHash borrower : string) : evm bool :=
  r ← receipt_of txHash;
  match r with
  | None => Return false
  | Some receipt =>
      if negb (rc_status receipt =? 1) then Return false else
      user ← of_result (expectedTopicUser borrower);
      Return (existsb (loan_log LOAN_OPENED_TOPIC user) (rc_logs receipt))
  end.

(** The polls of [verifyRepayByTxHash], with [left] to go. *)
Fixpoint poll_receipt (left : nat) (txHash : string) : evm (option Receipt) :=
  match left with
  | O => Return None
  | S left' =>
      r ← receipt_of txHash;
      match r with
      | Some receipt => Return (Some receipt)
      | None =>
          _ ← (if bool_decide (left' = O) then Return tt else EvmConfig.sleep 1000);
          poll_receipt left' txHash
      end
  end.

Definition refused (why : RepayFailure) : RepayVerification :=
  {| verified := false; reason := Some why; blockNumber := None; paidUnits := None |}.

Definition repay_of_receipt (borrower : string) (receipt : Receipt) : result RepayVerification :=
  if negb (rc_status receipt =? 1) then Ok (refused reverted) else
  user ← expectedTopicUser borrower;
  match find (loan_log TOPIC_LOAN_CLOSED user) (rc_logs receipt) with
  | None => Ok (refused no_match)
  | Some log =>
      paid ← result_of_option (SyntaxError "BigInt") (BigInt_chars (chars (log_data log)));
      Ok {| verified := true; reason := None; blockNumber := Some (rc_blockNumber receipt); paidUnits := Some paid |}
  end.

Definition verifyRepayByTxHash (txHash borrower : string) : evm RepayVerification :=
  proc_try (fun _ => Return (refused rpc_error))
    (r ← poll_receipt 10 txHash;
     match r with
     | None => Return (refused no_receipt)
     | Some receipt => of_result (repay_of_receipt borrower receipt)
     end).
End Gateway.
