(* ===== verification/EvmTx.v ===== *)
(** * What sending a transaction to an EVM chain does

    The theorems about [EvmConfig]: which transactions a write sends and how many,
    that none of the contract is sent before the signer's nonces are clear, when a
    transaction can be sent twice, and what an error says. *)

From stdpp Require Import base tactics list strings numbers.
From Stdlib Require Import Lia ZArith Ascii.
From S2P Require Import Prelude JsString JsNum Gateway Async Trace EvmConfig.

Local Open Scope Z_scope.

(** ** A concrete node, for the witnesses of the EVM gateway

    The signer has transactions that are stuck until they are cancelled, the first
    sends of a contract's transaction fail, a receipt is there after some polls, and
    the clock moves with each call and with each pause. *)
Record Node := {
  nd_stuck : nat;
  nd_failing : nat;
  nd_receipt : option Receipt;
  nd_polls : nat;
  nd_events : list EvmEvent;
  nd_block_time : Z -> option Z;
}.

Definition is_cancelled (c : evm_call) : bool :=
  match c with ESend tx (Ok _) => match tx_nonce tx with Some _ => true | None => false end | _ => false end.
Definition is_contract_send (c : evm_call) : bool :=
  match c with ESend tx _ => match tx_nonce tx with Some _ => false | None => true end | _ => false end.
Definition is_asked (hash : string) (c : evm_call) : bool := match c with EReceipt h _ => bool_decide (h = hash) | _ => false end.

Definition counted (p : evm_call -> bool) (t : list evm_call) : nat := length (List.filter p t).

Definition sample_hash : string := "0xab12".
Definition cancel_hash : string := "0xcd34".

Definition elapsed (c : evm_call) : Z := match c with ESleep ms => Z.max 0 ms | _ => 1 end.

Definition sample_node (nd : Node) : EvmProvider := {|
  getTransactionCount t tag := Ok match tag with
    | latest => 5 + Z.of_nat (counted is_cancelled t)
    | pending => 5 + Z.of_nat (nd_stuck nd)
    end;
  getBalance _ := Ok 1000;
  getFeeData _ := Ok {| gasPrice := None; maxFeePerGas := Some 7; maxPriorityFeePerGas := Some 0 |};
  sendTransaction t tx :=
    match tx_nonce tx with
    | Some _ => Ok cancel_hash
    | None => if (counted is_contract_send t <? nd_failing nd)%nat then Throw (PlainError "busy") else Ok sample_hash
    end;
  getTransactionReceipt t hash :=
    if bool_decide (hash = cancel_hash) then Ok (Some {| rc_status := 1; rc_blockNumber := 90; rc_logs := [] |})
    else Ok (if (counted (is_asked hash) t <? nd_polls nd)%nat then None else nd_receipt nd);
  estimateGas _ _ := Ok 100;
  getNetwork _ := Ok 42220;
  call_view _ _ := Throw (PlainError "no views");
  getBlock _ n := Ok (nd_block_time nd (default 30000 n));
  queryFilter _ closed borrower from to :=
    Ok (List.filter (fun e => (from <=? ee_blockNumber e) && (ee_blockNumber e <=? to)) (nd_events nd));
  getBlockNumber _ := Ok 30000;
  evm_now t := fold_left (fun now c => now + elapsed c) t 0;
  encodeFunctionData sig _ := Ok sig;
  parseUnits _ _ := Ok 1000000;
  getAddress a := Ok a;
  zeroPadValue a := a;
  topicHash sig := sig;
  shortMessage _ := None;
|}.

Definition sample_borrower : string := "0x1111111111111111111111111111111111111111".

Definition sample_evm : EvmConfig :=
  evm_defaults "0x2222222222222222222222222222222222222222" "0x3333333333333333333333333333333333333333".

Definition mined (status : Z) (logs : list Log) : option Receipt := Some {| rc_status := status; rc_blockNumber := 100; rc_logs := logs |}.

(** ** Errors worth a retry *)

Lemma starts_with_forall P t s : starts_with t s = true -> forallb P s = true -> forallb P t = true.
Proof.
  revert s. induction t as [|c t IH]; intros [|d s]; cbn; try done. intros H Hs.
  apply andb_true_iff in H as [->%Ascii.eqb_eq H]. apply andb_true_iff in Hs as [-> Hs]. by rewrite (IH s).
Qed.

Lemma includes_forall P s t : includes_chars s t = true -> forallb P s = true -> forallb P t = true.
Proof.
  induction s as [|c s IH]; cbn [includes_chars]; intros H Hs; apply orb_true_iff in H as [H|H].
  - by eapply starts_with_forall.
  - done.
  - by eapply starts_with_forall.
  - apply IH; [done|]. cbn in Hs. by apply andb_true_iff in Hs as [_ Hs].
Qed.

Lemma chars_append a b : chars (a +:+ b) = chars a ++ chars b.
Proof. induction a as [|c a IH]; [done|]. cbn. by rewrite <- IH. Qed.

(** A letter of each of the [RETRYABLE_ERROR_FRAGMENTS]. *)
Definition telltale (c : ascii) : bool := Ascii.eqb c "L" || Ascii.eqb c "y" || Ascii.eqb c "p".

Lemma not_retryable e : forallb (fun c => negb (telltale c)) (chars (exn_message e)) = true -> isRetryableChainError e = false.
Proof.
  intros H. unfold isRetryableChainError. destruct (existsb _ _) eqn:E; [|done].
  apply existsb_exists in E as (f & Hf & Hinc). pose proof (includes_forall _ _ _ Hinc H) as Hall.
  cbn in Hf. destruct Hf as [<-|[<-|[<-|[<-|[]]]]]; discriminate Hall.
Qed.

(** A transaction hash: [0x] and hexadecimal digits. *)
Definition hash_text (hash : string) : Prop := Forall (fun c => is_hex c = true \/ c = "x"%char) (chars hash).

Lemma hex_not_telltale c : is_hex c = true \/ c = "x"%char -> negb (telltale c) = true.
Proof.
  intros [H| ->]; [|done]. unfold telltale.
  destruct (Ascii.eqb_spec c "L"); [by subst|]. destruct (Ascii.eqb_spec c "y"); [by subst|].
  destruct (Ascii.eqb_spec c "p"); [by subst|done].
Qed.

Lemma plain_number n : forallb (fun c => negb (telltale c)) (chars (String_of_int n)) = true.
Proof.
  assert (Hd : forall m, 0 <= m -> forallb (fun c => negb (telltale c)) (decimal_digits m) = true).
  { intros m Hm. destruct (decimal_digits_spec m Hm) as (_ & H & _). apply forallb_forall. intros c Hc.
    apply list_elem_of_In in Hc. apply (proj1 (list.Forall_forall _ _) H) in Hc. apply hex_not_telltale. left.
    unfold is_hex, hex_digit. by rewrite Hc. }
  unfold String_of_int. destruct (n <? 0) eqn:E; bool_to_prop; rewrite chars_of_chars; [apply (Hd (- n))|apply Hd]; lia.
Qed.

Lemma timeout_not_retryable hash ms : hash_text hash -> isRetryableChainError (confirm_timeout hash ms) = false.
Proof.
  intros H. apply not_retryable. unfold confirm_timeout. cbn [exn_message].
  rewrite !chars_append, !forallb_app, plain_number. repeat (apply andb_true_iff; split); try (vm_compute; reflexivity).
  apply forallb_forall. intros c Hc. apply list_elem_of_In in Hc. apply hex_not_telltale.
  by apply (proj1 (list.Forall_forall _ _) H).
Qed.

Section Sending.
  Context `{PROV : EvmProvider} (cfg : EvmConfig).

(** ** Waiting for a receipt *)

Definition is_poll (hash : string) (c : evm_call) : Prop :=
  match c with EReceipt h _ => h = hash | ENow _ | ESleep _ => True | _ => False end.

(** What an error of the wait comes from. *)
Definition wait_failed (hash : string) (timeoutMs : Z) (calls : list evm_call) (e : exn) : Prop :=
  EReceipt hash (Throw e) ∈ calls \/ e = confirm_timeout hash timeoutMs \/ e = PlainError "out of fuel".

Record waited (hash : string) (timeoutMs : Z) (calls : list evm_call) (r : result Receipt) : Prop := {
  wt_polls : Forall (is_poll hash) calls;
  wt_receipt receipt : r = Ok receipt -> EReceipt hash (Ok (Some receipt)) ∈ calls;
  wt_failed e : r = Throw e -> wait_failed hash timeoutMs calls e;
}.

Definition polled (hash : string) (timeoutMs : Z) (calls : list evm_call) (r : result (option Receipt)) : Prop :=
  Forall (is_poll hash) calls /\
  (forall receipt, r = Ok (Some receipt) -> EReceipt hash (Ok (Some receipt)) ∈ calls) /\
  (forall e, r = Throw e -> EReceipt hash (Throw e) ∈ calls \/ e = confirm_timeout hash timeoutMs).

Lemma receipt_polled_after hash timeoutMs cs cs' r : Forall (is_poll hash) cs -> polled hash timeoutMs cs' r -> polled hash timeoutMs (cs ++ cs') r.
Proof.
  intros Hcs (H1 & H2 & H3). split_and!; [by apply Forall_app|..].
  - intros receipt Hr. apply elem_of_app. right. by apply H2.
  - intros e He. destruct (H3 e He); [left; apply elem_of_app; by right|by right].
Qed.

Lemma receipt_loop_emits fuel start hash timeoutMs : emits (polled hash timeoutMs) (receipt_loop fuel start hash timeoutMs).
Proof.
  induction fuel as [|fuel IH]; cbn [receipt_loop]; [by apply emits_return|].
  unfold now, receipt_of, sleep. repeat emits_step. destruct (a - start <? timeoutMs); repeat emits_step.
  - destruct r as [[receipt|]|e]; repeat emits_step.
    + split_and!; [by repeat constructor| |done]. intros ? [= <-]. right. left.
    + eapply emits_mono; [|apply IH]. intros cs r Hr. rewrite !app_assoc.
      apply receipt_polled_after; [by repeat constructor|exact Hr].
    + split_and!; [by repeat constructor|done|]. intros ? [= <-]. left. right. left.
  - split_and!; [by repeat constructor|done|]. intros ? [= <-]. by right.
Qed.

Lemma waitReceiptPolling_emits hash timeoutMs : emits (waited hash timeoutMs) (waitReceiptPolling hash timeoutMs).
Proof.
  unfold waitReceiptPolling, now. repeat emits_step. eapply emits_mono; [|apply receipt_loop_emits].
  intros cs r (H1 & H2 & H3). unfold wait_failed. destruct r as [[receipt|]|e]; repeat emits_step; rewrite ?app_nil_r.
  - split; [by repeat constructor| |done]. intros ? [= <-]. right. by apply H2.
  - split; [by repeat constructor|done|]. intros ? [= <-]. unfold wait_failed. auto.
  - split; [by repeat constructor|done|]. intros ? [= <-]. unfold wait_failed.
    destruct (H3 e eq_refl); [left; by right|auto].
Qed.

(** ** Clearing nonces *)

Definition is_send (c : evm_call) : bool := match c with ESend _ _ => true | _ => false end.

(** A cancel pays the signer nothing with the nonce it takes. *)
Definition is_cancel (nonce : Z) (tx : EvmTx) : Prop := exists fees, tx = cancel_tx cfg nonce fees.

(** The calls of [cancelNonce]. *)
Definition cancels (nonce : Z) (c : evm_call) : Prop :=
  match c with
  | EFees _ | ENow _ | ESleep _ | EReceipt _ _ => True
  | ESend tx _ => is_cancel nonce tx
  | _ => False
  end.

Lemma fees_make P multiplier : (forall r, P (EFees r)) -> makes P (feeOverridesFor cfg multiplier).
Proof. intros H. unfold feeOverridesFor. solve_makes. Qed.

Lemma waiting_makes (P : evm_call -> Prop) hash timeoutMs :
  (forall c, is_poll hash c -> P c) -> makes P (waitReceiptPolling hash timeoutMs).
Proof.
  intros HP. eapply makes_emits; [|apply waitReceiptPolling_emits]. intros cs r [H _ _].
  eapply list.Forall_impl; [exact H|exact HP].
Qed.

Lemma cancelNonce_makes nonce : makes (cancels nonce) (cancelNonce cfg nonce).
Proof.
  unfold cancelNonce. generalize 5%nat, 1, (None : option exn).
  intros n. induction n as [|n IH]; intros k err; cbn [cancel_loop]; [apply makes_raise|].
  apply makes_bind.
  - apply makes_settle. unfold cancel_once. apply makes_bind; [by apply fees_make|]. intros fees.
    apply makes_bind; [apply makes_ask; intros r; by exists fees|]. intros hash.
    apply makes_bind; [|intros; apply makes_return]. apply waiting_makes. by intros [].
  - intros [u|e]; [apply makes_return|]. apply makes_bind; [by apply makes_note|]. intros _. apply IH.
Qed.

(** A call after which the signer has the transactions it had before. *)
Definition quiet (c : evm_call) : Prop := match c with ECount _ _ | ESend _ (Ok _) => False | _ => True end.

(** The last the trace knows of the signer: no transaction of it is pending. *)
Definition cleared (calls : list evm_call) : Prop :=
  exists before l p after, calls = before ++ ECount latest (Ok l) :: ECount pending (Ok p) :: after /\ p <= l /\
    Forall quiet after.

(** Every transaction sent cancels a nonce that was the signer's next one. *)
Definition cancelled (calls : list evm_call) : Prop :=
  forall tx a, ESend tx a ∈ calls -> exists nonce, is_cancel nonce tx /\ ECount latest (Ok nonce) ∈ calls.

Lemma cleared_after cs cs' : cleared cs' -> cleared (cs ++ cs').
Proof. intros (b & l & p & a & -> & H). exists (cs ++ b), l, p, a. split; [by rewrite app_assoc|done]. Qed.

Lemma cleared_quiet cs cs' : cleared cs -> Forall quiet cs' -> cleared (cs ++ cs').
Proof.
  intros (b & l & p & a & -> & Hle & Ha) Hq. exists b, l, p, (a ++ cs'). split_and!; [by rewrite <- app_assoc|done|by apply Forall_app].
Qed.

Lemma cancelled_app cs cs' : cancelled cs -> cancelled cs' -> cancelled (cs ++ cs').
Proof.
  intros H1 H2 tx a [H|H]%elem_of_app; [apply H1 in H|apply H2 in H]; destruct H as (n & ? & ?); exists n;
    (split; [done|]); apply elem_of_app; auto.
Qed.

Lemma cancelled_none cs : Forall (fun c => is_send c = false) cs -> cancelled cs.
Proof. intros H tx a Hin. apply (proj1 (list.Forall_forall _ _) H) in Hin. done. Qed.

(** What [signerState] asks, and what it answers. *)
Definition state_read (calls : list evm_call) (r : result SignerState) : Prop :=
  Forall (fun c => is_send c = false) calls /\
  forall st, r = Ok st -> exists balance, ss_balance st = balance /\
    calls = [ECount latest (Ok (ss_latest st)); ECount pending (Ok (ss_pending st)); EBalance (Ok balance)].

Lemma signerState_emits : emits state_read signerState.
Proof.
  unfold signerState, count. repeat emits_step. destruct r as [l|e]; [|by split; [repeat constructor|]].
  repeat emits_step. destruct r as [p|e]; [|by split; [repeat constructor|]].
  repeat emits_step. destruct r as [b|e]; repeat emits_step; [|by split; [repeat constructor|]].
  split; [by repeat constructor|]. intros st [= <-]. by exists b.
Qed.

Lemma state_cleared cs st : state_read cs (Ok st) -> gap st <= 0 -> cleared cs.
Proof.
  intros [_ H] Hgap. destruct (H st eq_refl) as (b & _ & ->). exists [], (ss_latest st), (ss_pending st), [EBalance (Ok b)].
  split_and!; [done|unfold gap in Hgap; lia|by repeat constructor].
Qed.

Definition clears (calls : list evm_call) (r : result unit) : Prop := cancelled calls /\ (r = Ok tt -> cleared calls).

Lemma clears_after cs cs' r : cancelled cs -> clears cs' r -> clears (cs ++ cs') r.
Proof. intros Hc [H1 H2]. split; [by apply cancelled_app|]. intros Hr. apply cleared_after. auto. Qed.

Lemma cancel_cancelled cs st cs' : state_read cs (Ok st) -> Forall (cancels (ss_latest st)) cs' -> cancelled (cs ++ cs').
Proof.
  intros [Hs Hst] Hc tx a [H|H]%elem_of_app; [by apply (proj1 (list.Forall_forall _ _) Hs) in H|].
  exists (ss_latest st). apply (proj1 (list.Forall_forall _ _) Hc) in H. split; [exact H|].
  destruct (Hst st eq_refl) as (b & _ & ->). left.
Qed.

Lemma clear_loop_emits n : emits clears (clear_loop cfg n).
Proof.
  induction n as [|n IH]; cbn [clear_loop]; emits_step; (eapply emits_mono; [|apply signerState_emits]).
  - intros cs [st|e] [Hs _]; repeat emits_step; split; [|done| |done]; apply cancelled_none; [by rewrite app_nil_r|done].
  - intros cs [st|e] Hst; [|split; [apply cancelled_none, Hst|done]].
    destruct (gap st <=? 0) eqn:Eg; bool_to_prop.
    + repeat emits_step. rewrite app_nil_r. split; [apply cancelled_none, Hst|]. intros _. by eapply state_cleared.
    + emits_step. eapply emits_mono; [|apply cancelNonce_makes]. intros cs' r Hc. pose proof (cancel_cancelled _ _ _ Hst Hc).
      destruct r as [u|e]; [|by split]. eapply emits_mono; [|exact IH]. intros cs'' r Hr.
      rewrite app_assoc. by apply clears_after.
Qed.

Lemma autoClear_emits : emits clears (autoClearPendingNoncesIfNeeded cfg).
Proof.
  unfold autoClearPendingNoncesIfNeeded. emits_step. eapply emits_mono; [|apply signerState_emits].
  intros cs [st|e] Hst; [|split; [apply cancelled_none, Hst|done]].
  assert (Hno : cancelled cs) by apply cancelled_none, Hst.
  destruct (gap st <=? 0) eqn:Eg; bool_to_prop.
  - repeat emits_step. rewrite app_nil_r. split; [done|]. intros _. by eapply state_cleared.
  - destruct (AUTO_CLEAR_ENABLED cfg); cbn [negb]; [|repeat emits_step; by rewrite app_nil_r].
    destruct (ss_balance st <=? 0); [repeat emits_step; by rewrite app_nil_r|].
    eapply emits_mono; [|apply clear_loop_emits]. intros cs' r Hr. by apply clears_after.
Qed.

(** ** Sending *)

(** A transaction of the contract leaves the nonce to the library. *)
Definition is_write (c : evm_call) : bool :=
  match c with ESend tx _ => match tx_nonce tx with None => true | Some _ => false end | _ => false end.

(** The hash of a transaction of the contract the node took. *)
Definition written (c : evm_call) : option string :=
  match c with
  | ESend tx (Ok hash) => match tx_nonce tx with None => Some hash | Some _ => None end
  | _ => None
  end.

Definition writes (calls : list evm_call) : list string := omap written calls.

(** No transaction of the contract is sent while one of the signer is pending. *)
Definition guarded (calls : list evm_call) : Prop :=
  forall before c after, calls = before ++ c :: after -> is_write c = true -> cleared before.

Lemma writes_app cs cs' : writes (cs ++ cs') = writes cs ++ writes cs'.
Proof. apply omap_app. Qed.

Lemma app_cons_inv {A} (l1 l2 before after : list A) c :
  l1 ++ l2 = before ++ c :: after -> (exists k, l1 = before ++ c :: k) \/ (exists k, before = l1 ++ k /\ l2 = k ++ c :: after).
Proof.
  intros H. apply app_eq_inv in H as [(k & -> & Hk)|(k & -> & Hk)]; [|by right; exists k].
  destruct k as [|c' k]; cbn in Hk; [right; exists []; by rewrite !app_nil_r|]. injection Hk as <- _. left. by exists k.
Qed.

Lemma guarded_app cs cs' : guarded cs -> guarded cs' -> guarded (cs ++ cs').
Proof.
  intros H1 H2 before c after Heq Hc. apply app_cons_inv in Heq as [[k ->]|(k & -> & ->)]; [by eapply H1|].
  apply cleared_after. by eapply H2.
Qed.

Lemma guarded_none cs : Forall (fun c => is_write c = false) cs -> guarded cs.
Proof.
  intros H before c after -> Hc. apply Forall_app in H as [_ H]. apply list.Forall_cons in H as [H _]. congruence.
Qed.

(** The calls of the send loop that come to nothing. *)
Definition failed_send (data : string) (gasLimit : Z) (c : evm_call) : Prop :=
  match c with
  | EFees _ | ESleep _ => True
  | ESend tx (Throw _) => exists fees, tx = contract_tx cfg data gasLimit fees
  | _ => False
  end.

Record sent (data : string) (gasLimit : Z) (n : nat) (calls : list evm_call) (r : result (result string)) : Prop := {
  st_bounded : (length (List.filter is_write calls) <= n)%nat;
  st_shape : exists failed,  Forall (failed_send data gasLimit) failed /\
    ((exists e, r = Ok (Throw e) /\ calls = failed) \/
     (exists hash fees, r = Ok (Ok hash) /\ calls = failed ++ [ESend (contract_tx cfg data gasLimit fees) (Ok hash)]));
}.

Lemma sent_after data gasLimit n m cs cs' r :
  Forall (failed_send data gasLimit) cs -> (length (List.filter is_write cs) <= m)%nat -> sent data gasLimit n cs' r ->
  sent data gasLimit (m + n) (cs ++ cs') r.
Proof.
  intros Hcs Hl [Hb (failed & Hf & Hr)]. split.
  - rewrite List.filter_app, length_app. lia.
  - exists (cs ++ failed). split; [by apply Forall_app|]. destruct Hr as [(e & -> & ->)|(h & fees & -> & ->)]; [left; by exists e|].
    right. exists h, fees. by rewrite app_assoc.
Qed.

Lemma send_loop_emits n k data gasLimit err : emits (sent data gasLimit n) (send_loop cfg n k data gasLimit err).
Proof.
  revert k err. induction n as [|n IH]; intros k err; cbn [send_loop].
  - emits_step. split; [cbn; lia|]. exists []. split; [constructor|]. left. by eexists.
  - emits_step. emits_step. emits_step.
    eapply (emits_mono (fun cs _ => exists a, cs = [EFees a])).
    2: { unfold feeOverridesFor. repeat emits_step. destruct r as [fee|e]; [|by eexists].
         repeat case_scrut; repeat emits_step; by eexists. }
    assert (Hretry : forall cs e, Forall (failed_send data gasLimit) cs -> (length (List.filter is_write cs) <= 1)%nat ->
      emits (fun cs' r => sent data gasLimit (S n) (cs ++ cs') r)
        (_ ← sleep (350 * k); send_loop cfg n (k + 1) data gasLimit (Some e))).
    { intros cs e Hcs Hl. unfold sleep. repeat emits_step. eapply emits_mono; [|apply IH]. intros cs' r Hr.
      rewrite app_assoc. apply (sent_after _ _ n 1); [by apply Forall_app; split; [|repeat constructor]| |done].
      rewrite List.filter_app, length_app. cbn. lia. }
    intros cs [fees|e] [a ->]; [|by apply Hretry; [repeat constructor|cbn; lia]].
    unfold send. emits_step. destruct r as [hash|e].
    + emits_step. cbn [app]. split; [cbn; lia|]. exists [EFees a]. split; [by repeat constructor|].
      right. by exists hash, fees.
    + apply Hretry; [|cbn; lia]. repeat constructor. by exists fees.
Qed.

(** What the trace shows of sending one transaction of the contract, but for how
    often it is sent. *)
Record sends_ok (data : string) (gasLimit : Z) (calls : list evm_call) : Prop := {
  so_txs tx a : ESend tx a ∈ calls ->
    (exists fees, tx = contract_tx cfg data gasLimit fees) \/
    (exists nonce, is_cancel nonce tx /\ ECount latest (Ok nonce) ∈ calls);
  so_guarded : guarded calls;
}.

Lemma sends_ok_app data gasLimit cs cs' : sends_ok data gasLimit cs -> sends_ok data gasLimit cs' -> sends_ok data gasLimit (cs ++ cs').
Proof.
  intros [T1 G1] [T2 G2]. split; [|by apply guarded_app].
  intros tx a [H|H]%elem_of_app; [apply T1 in H|apply T2 in H];
    (destruct H as [?|(n & ? & ?)]; [by left|right; exists n; split; [done|]; apply elem_of_app; auto]).
Qed.

Lemma sends_ok_quiet data gasLimit cs : Forall (fun c => is_send c = false) cs -> sends_ok data gasLimit cs.
Proof.
  intros H. split.
  - intros tx a Hin. by apply (proj1 (list.Forall_forall _ _) H) in Hin.
  - apply guarded_none. eapply list.Forall_impl; [exact H|]. by intros [].
Qed.

Lemma cancelled_ok data gasLimit cs : cancelled cs -> sends_ok data gasLimit cs /\ List.filter is_write cs = [] /\ writes cs = [].
Proof.
  intros H. assert (Hw : Forall (fun c => is_write c = false) cs).
  { apply list.Forall_forall. intros c Hin. destruct c; try done. destruct (H _ _ Hin) as (n & (fees & ->) & _). done. }
  split_and!.
  - split; [|by apply guarded_none]. intros tx a Hin. right. by apply H in Hin.
  - clear H. induction Hw as [|c cs Hc _ IH]; [done|]. cbn. by rewrite Hc.
  - clear H. unfold writes. induction Hw as [|c cs Hc _ IH]; [done|]. cbn. rewrite IH.
    destruct c; cbn in *; try done. destruct answer; [|done]. by destruct (tx_nonce tx).
Qed.

(** The loop of sends, once the signer is clear. *)
Lemma sent_ok data gasLimit n clearing calls r :
  cancelled clearing -> cleared clearing -> sent data gasLimit n calls r -> sends_ok data gasLimit (clearing ++ calls).
Proof.
  intros Hca Hcl [_ (failed & Hf & Hr)].
  assert (Hquiet : Forall quiet failed) by (eapply list.Forall_impl; [exact Hf|]; by intros [| | |tx []| | | | | | | | |]).
  assert (Hcalls : exists post, calls = failed ++ post /\
            (post = [] \/ exists hash fees, post = [ESend (contract_tx cfg data gasLimit fees) (Ok hash)])).
  { destruct Hr as [(e & _ & ->)|(h & fees & _ & ->)]; [exists []; rewrite app_nil_r; auto|eexists; split; [done|]; eauto]. }
  destruct Hcalls as (post & -> & Hpost). split.
  - intros tx a [H|[H|H]%elem_of_app]%elem_of_app.
    + right. destruct (Hca _ _ H) as (nonce & ? & ?). exists nonce. split; [done|]. apply elem_of_app. by left.
    + left. apply (proj1 (list.Forall_forall _ _) Hf) in H. by destruct a.
    + left. destruct Hpost as [->|(h & fees & ->)]; [by apply elem_of_nil in H|]. apply list_elem_of_singleton in H.
      injection H as -> _. by exists fees.
  - intros before c after Heq Hc.
    apply app_cons_inv in Heq as [[k Hk]|(k & -> & Heq)].
    { destruct (cancelled_ok data gasLimit _ Hca) as ([_ G] & _). by eapply G. }
    apply cleared_quiet; [done|]. apply app_cons_inv in Heq as [[k' ->]|(k' & -> & Heq)].
    { by apply Forall_app in Hquiet as [? _]. }
    apply Forall_app. split; [done|]. destruct Hpost as [->|(h & fees & ->)]; [by destruct k'|].
    destruct k' as [|c' k']; [constructor|]. injection Heq as _ Heq. by destruct k'.
Qed.

(** ** One task of the queue *)

Record task (data : string) (gasLimit : Z) (calls : list evm_call) (r : result Receipt) : Prop := {
  tk_sends : sends_ok data gasLimit calls;
  tk_bounded : (length (List.filter is_write calls) <= 3)%nat;
  tk_receipt receipt : r = Ok receipt -> exists hash, writes calls = [hash] /\ EReceipt hash (Ok (Some receipt)) ∈ calls;
  tk_failed e : r = Throw e -> writes calls = [] \/
    exists hash, writes calls = [hash] /\ wait_failed hash (TX_CONFIRM_TIMEOUT_MS cfg) calls e;
}.

Lemma task_cancelled data gasLimit cs e : cancelled cs -> task data gasLimit cs (Throw e).
Proof.
  intros H. destruct (cancelled_ok data gasLimit cs H) as (H1 & H2 & H3).
  split; [done|rewrite H2; cbn; lia|done|by left].
Qed.

Lemma failed_writes data gasLimit cs : Forall (failed_send data gasLimit) cs -> writes cs = [].
Proof. unfold writes. induction 1 as [|c cs Hc _ IH]; [done|]. cbn. rewrite IH. by destruct c as [| | |tx []| | | | | | | | |]. Qed.

Lemma receipt_polls_quiet hash cs :
  Forall (is_poll hash) cs -> Forall (fun c => is_send c = false) cs /\ List.filter is_write cs = [] /\ writes cs = [].
Proof.
  intros H. split_and!; [eapply list.Forall_impl; [exact H|]; by intros []|..]; unfold writes;
    (induction H as [|c cs Hc _ IH]; [done|]; cbn; rewrite IH; by destruct c).
Qed.

Lemma send_task_emits data gasLimit purpose : emits (task data gasLimit) (send_task cfg data gasLimit purpose).
Proof.
  unfold send_task. emits_step. eapply emits_mono; [|apply autoClear_emits]. intros clearing [[]|e] [Hca Hcl];
    [|by apply task_cancelled].
  specialize (Hcl eq_refl). destruct (cancelled_ok data gasLimit _ Hca) as (_ & Hc1 & Hc2).
  emits_step. eapply emits_mono; [|apply send_loop_emits]. intros sending r Hs.
  pose proof (sent_ok _ _ _ _ _ _ Hca Hcl Hs) as Hok. destruct Hs as [Hb (failed & Hf & Hr)].
  assert (Hl : (length (List.filter is_write (clearing ++ sending)) <= 3)%nat) by (rewrite List.filter_app, Hc1; exact Hb).
  pose proof (failed_writes _ _ _ Hf) as Hw.
  destruct Hr as [(e & -> & ->)|(hash & fees & -> & ->)].
  - emits_step. rewrite app_nil_r. split; [done|done|done|]. intros e' _. left. by rewrite writes_app, Hc2, Hw.
  - eapply emits_mono; [|apply waitReceiptPolling_emits]. intros polls r [Hp Hrec Hfail].
    destruct (receipt_polls_quiet _ _ Hp) as (P1 & P2 & P3).
    assert (Hwr : writes (clearing ++ (failed ++ [ESend (contract_tx cfg data gasLimit fees) (Ok hash)]) ++ polls) = [hash]).
    { by rewrite !writes_app, Hc2, Hw, P3. }
    rewrite (app_assoc clearing) in Hwr |- *. split.
    + apply sends_ok_app; [done|by apply sends_ok_quiet].
    + by rewrite List.filter_app, P2, app_nil_r.
    + intros receipt Hr. exists hash. split; [done|]. apply elem_of_app. right. by apply Hrec.
    + intros e He. right. exists hash. split; [done|]. destruct (Hfail e He) as [H|H]; [left; apply elem_of_app; by right|by right].
Qed.

(** ** The task, retried *)

(** The requests for a receipt that failed with an error the write is retried on. *)
Definition retried (calls : list evm_call) : list evm_call :=
  List.filter (fun c => match c with EReceipt _ (Throw e) => isRetryableChainError e | _ => false end) calls.

Record contract_write (data : string) (gasLimit : Z) (calls : list evm_call) (r : result Receipt) : Prop := {
  cw_sends : sends_ok data gasLimit calls;
  cw_bounded : Z.of_nat (length (List.filter is_write calls)) <= 3 * MAX_SEND_ATTEMPTS cfg;
  cw_once : Forall hash_text (writes calls) -> (length (writes calls) <= S (length (retried calls)))%nat;
  cw_receipt receipt : r = Ok receipt -> exists hash, hash ∈ writes calls /\ EReceipt hash (Ok (Some receipt)) ∈ calls;
}.

Lemma retried_app cs cs' : retried (cs ++ cs') = retried cs ++ retried cs'.
Proof. apply List.filter_app. Qed.

(** A pass that is retried took no transaction of the contract, or failed to ask for
    its receipt. *)
Lemma task_retried data gasLimit cs e : task data gasLimit cs (Throw e) -> isRetryableChainError e = true ->
  Forall hash_text (writes cs) -> (length (writes cs) <= length (retried cs))%nat.
Proof.
  intros [_ _ _ Hf] He Hh. destruct (Hf e eq_refl) as [->|(hash & Hw & Hwait)]; [cbn; lia|].
  rewrite Hw in Hh |- *. apply list.Forall_cons in Hh as [Hh _]. destruct Hwait as [Hin|[-> | ->]].
  - assert (Hr : EReceipt hash (Throw e) ∈ retried cs).
    { apply list_elem_of_In, List.filter_In. split; [by apply list_elem_of_In|done]. }
    destruct (retried cs) as [|c l]; [by apply elem_of_nil in Hr|cbn; lia].
  - by rewrite timeout_not_retryable in He.
  - vm_compute in He. done.
Qed.

Lemma task_once data gasLimit cs r : task data gasLimit cs r -> (length (writes cs) <= 1)%nat.
Proof.
  intros [_ _ Hr Hf]. destruct r as [receipt|e]; [destruct (Hr receipt eq_refl) as (h & -> & _); cbn; lia|].
  destruct (Hf e eq_refl) as [->|(h & -> & _)]; cbn; lia.
Qed.

Lemma paused_tasks data gasLimit k ps :
  Forall (fun x => task data gasLimit x.1 (Throw x.2) /\ isRetryableChainError x.2 = true) ps ->
  sends_ok data gasLimit (paused ESleep k ps) /\ (length (List.filter is_write (paused ESleep k ps)) <= 3 * length ps)%nat /\
  (Forall hash_text (writes (paused ESleep k ps)) -> (length (writes (paused ESleep k ps)) <= length (retried (paused ESleep k ps)))%nat).
Proof.
  intros H. revert k. induction H as [|[cs e] ps [Ht He] _ IH]; intros k; cbn [fst snd] in *.
  - split_and!; [apply sends_ok_quiet; constructor|cbn; lia|done].
  - cbn [paused]. destruct (IH (k + 1)) as (I1 & I2 & I3). rewrite (cons_middle _ cs), app_assoc.
    assert (Hp : forall ms, sends_ok data gasLimit [ESleep ms]) by (intros ms; by apply sends_ok_quiet; repeat constructor).
    split_and!.
    + apply sends_ok_app; [apply sends_ok_app; [apply Ht|apply Hp]|exact I1].
    + pose proof (tk_bounded _ _ _ _ Ht). rewrite !List.filter_app, !length_app. cbn [length List.filter is_write]. lia.
    + rewrite !writes_app, !retried_app, !length_app, !list.Forall_app. intros [[Hh _] Hh'].
      pose proof (task_retried _ _ _ _ Ht He Hh). specialize (I3 Hh'). cbn [writes omap list_omap written retried List.filter length]. lia.
Qed.

Lemma sendContractTx_emits data gasLimit purpose (Hmax : 0 < MAX_SEND_ATTEMPTS cfg) :
  emits (contract_write data gasLimit) (sendContractTx cfg data gasLimit purpose).
Proof.
  unfold sendContractTx, withChainWriteRetry. eapply emits_mono; [|apply attempts_emits; [apply send_task_emits|lia]].
  intros calls r (ps & cl & -> & Hl & Hps & Hcl & _). destruct (paused_tasks _ _ 1 _ Hps) as (P1 & P2 & P3). split.
  - apply sends_ok_app; [done|apply Hcl].
  - pose proof (tk_bounded _ _ _ _ Hcl). rewrite List.filter_app, length_app. lia.
  - rewrite writes_app, retried_app, !length_app, list.Forall_app. intros [Hh _]. specialize (P3 Hh).
    pose proof (task_once _ _ _ _ Hcl). lia.
  - intros receipt Hr. destruct (tk_receipt _ _ _ _ Hcl receipt Hr) as (hash & Hw & Hin). exists hash.
    rewrite writes_app, Hw. split; apply elem_of_app; right; [left|done].
Qed.

(** ** Writes *)

(** The calls and the outcome of a write: the data is encoded, the gas estimated, and
    only then is the transaction sent, with a fifth more gas. *)
Definition write_outcome (sig : string) (args : list abi_value) (reverted : string) (calls : list evm_call) (r : result Receipt) : Prop :=
  match encodeFunctionData sig args with
  | Throw e => calls = [] /\ r = Throw e
  | Ok data => exists estimate sent, calls = EEstimate data estimate :: sent /\
      match estimate with
      | Ok gas => if gas =? 0 then sent = [] /\ r = Throw (PlainError reverted)
                  else contract_write data (gas + Z.quot gas 5) sent r
      | Throw _ => sent = [] /\ r = Throw (PlainError reverted)
      end
  end.

Lemma write_call_emits sig args reverted purpose (Hmax : 0 < MAX_SEND_ATTEMPTS cfg) :
  emits (write_outcome sig args reverted) (write_call cfg sig args reverted purpose).
Proof.
  unfold write_outcome, write_call. repeat emits_step. destruct (encodeFunctionData sig args) as [data|e]; [|done].
  unfold tryEstimate. repeat emits_step. destruct r as [gas|e]; repeat emits_step.
  - cbn [app]. destruct gas as [|g|g].
    + repeat emits_step. exists (Ok 0), []. done.
    + eapply emits_mono; [|by apply sendContractTx_emits]. intros cs r Hr. by exists (Ok (Z.pos g)), cs.
    + eapply emits_mono; [|by apply sendContractTx_emits]. intros cs r Hr. by exists (Ok (Z.neg g)), cs.
  - exists (Throw e), []. done.
Qed.

(** ** Errors *)

Definition auto_clear_failed (nonce : Z) (why : string) : exn :=
  PlainError ("AUTO_CLEAR_FAILED nonce=" +:+ String_of_int nonce +:+ ": " +:+ why).

Inductive clear_failure (calls : list evm_call) : exn -> Prop :=
  | clear_count tag e : ECount tag (Throw e) ∈ calls -> clear_failure calls e
  | clear_balance e : EBalance (Throw e) ∈ calls -> clear_failure calls e
  | clear_disabled st : AUTO_CLEAR_ENABLED cfg = false -> 0 < gap st -> clear_failure calls (stuck_error cfg st)
  | clear_no_gas balance : EBalance (Ok balance) ∈ calls -> balance <= 0 -> clear_failure calls no_gas_error
  | clear_gave_up st : clear_failure calls (gave_up_error cfg st)
  | clear_cancel nonce why : clear_failure calls (auto_clear_failed nonce why).

(** The error of one pass of a write, with the calls of the pass. *)
Inductive send_failure (purpose : string) (calls : list evm_call) : exn -> Prop :=
  | send_not_clear e : writes calls = [] -> clear_failure calls e -> send_failure purpose calls e
  | send_not_taken e : writes calls = [] ->
      send_failure purpose calls (PlainError (purpose +:+ " send failed after retries: " +:+ exn_text e))
  | send_not_seen hash e : writes calls = [hash] -> wait_failed hash (TX_CONFIRM_TIMEOUT_MS cfg) calls e ->
      send_failure purpose calls e.

Definition fails {A} (F : list evm_call -> exn -> Prop) (calls : list evm_call) (r : result A) : Prop := forall e, r = Throw e -> F calls e.

Lemma clear_failure_app cs cs' e : clear_failure cs' e -> clear_failure (cs ++ cs') e.
Proof.
  intros H. destruct H.
  - eapply clear_count. apply elem_of_app. right. eassumption.
  - apply clear_balance. apply elem_of_app. by right.
  - by apply clear_disabled.
  - eapply clear_no_gas; [apply elem_of_app; right; eassumption|done].
  - apply clear_gave_up.
  - apply clear_cancel.
Qed.

Lemma signerState_fails : emits (fails clear_failure) signerState.
Proof.
  unfold signerState, count. repeat emits_step. destruct r as [l|e]; [|intros ? [= <-]; eapply clear_count; left].
  repeat emits_step. destruct r as [p|e]; [|intros ? [= <-]; eapply clear_count; right; left].
  repeat emits_step. destruct r as [b|e]; [by repeat emits_step|]. intros ? [= <-]. apply clear_balance. do 2 right. left.
Qed.

Lemma cancel_once_appends nonce k : appends (cancel_once cfg nonce k).
Proof.
  unfold cancel_once, send. apply makes_bind; [by apply fees_make|]. intros fees. apply makes_bind; [by apply makes_ask|].
  intros h. apply makes_bind; [by apply waiting_makes|]. intros ?. apply makes_return.
Qed.

Lemma cancelNonce_fails nonce : emits (fails clear_failure) (cancelNonce cfg nonce).
Proof.
  unfold cancelNonce. generalize 5%nat, 1, (None : option exn).
  intros n. induction n as [|n IH]; intros k err; cbn [cancel_loop].
  - emits_step. intros e [= <-]. apply (clear_cancel _ nonce).
  - emits_step. emits_step. eapply emits_mono; [|apply cancel_once_appends].
    intros cs [u|e] _; [by repeat emits_step|]. unfold sleep. emits_step. emits_step.
    eapply emits_mono; [|apply IH]. intros cs' r Hr e' ->. rewrite app_assoc. apply clear_failure_app, Hr. done.
Qed.

(** The errors of [signerState] with the state it answers. *)
Lemma state_fails : emits (fun cs r => state_read cs r /\ fails clear_failure cs r) signerState.
Proof. apply emits_and; [apply signerState_emits|apply signerState_fails]. Qed.

Lemma clear_loop_fails n : emits (fails clear_failure) (clear_loop cfg n).
Proof.
  induction n as [|n IH]; cbn [clear_loop]; emits_step; (eapply emits_mono; [|apply signerState_fails]); intros cs [st|e] Hst;
    try by intros e' [= <-]; apply Hst.
  - emits_step. intros e [= <-]. apply clear_gave_up.
  - destruct (gap st <=? 0); [by repeat emits_step|]. emits_step.
    eapply emits_mono; [|apply cancelNonce_fails]. intros cs' [u|e] Hc; [|intros e' [= <-]; by apply clear_failure_app, Hc].
    eapply emits_mono; [|exact IH]. intros cs'' r Hr e ->. by do 2 apply clear_failure_app; apply Hr.
Qed.

Lemma autoClear_fails : emits (fails clear_failure) (autoClearPendingNoncesIfNeeded cfg).
Proof.
  unfold autoClearPendingNoncesIfNeeded. emits_step. eapply emits_mono; [|apply state_fails].
  intros cs [st|e] [[_ Hst] Hf]; [|intros e' [= <-]; by apply Hf].
  destruct (gap st <=? 0) eqn:Eg; bool_to_prop; [by repeat emits_step|].
  destruct (AUTO_CLEAR_ENABLED cfg) eqn:Ea; cbn [negb]; [|emits_step; intros e [= <-]; by apply clear_disabled].
  destruct (ss_balance st <=? 0) eqn:Eb; bool_to_prop.
  - emits_step. intros e [= <-]. destruct (Hst st eq_refl) as (b & Hb & ->).
    apply (clear_no_gas _ b); [rewrite app_nil_r; do 2 right; left|lia].
  - eapply emits_mono; [|apply clear_loop_fails]. intros cs' r Hr e ->. apply clear_failure_app. by apply Hr.
Qed.

Lemma send_task_fails data gasLimit purpose : emits (fails (send_failure purpose)) (send_task cfg data gasLimit purpose).
Proof.
  unfold send_task. emits_step.
  eapply emits_mono; [|apply emits_and; [apply autoClear_emits|apply autoClear_fails]].
  intros clearing [[]|e] [[Hca _] Hf]; destruct (cancelled_ok data gasLimit _ Hca) as (_ & _ & Hc);
    [|intros e' [= <-]; apply send_not_clear; [done|by apply Hf]].
  emits_step. eapply emits_mono; [|apply send_loop_emits]. intros sending r [_ (failed & Hfail & Hr)].
  pose proof (failed_writes _ _ _ Hfail) as Hw. destruct Hr as [(e & -> & ->)|(hash & fees & -> & ->)].
  - emits_step. rewrite app_nil_r. intros e' [= <-]. apply send_not_taken. by rewrite writes_app, Hc, Hw.
  - eapply emits_mono; [|apply waitReceiptPolling_emits]. intros polls r [Hp _ Hwait] e ->.
    destruct (receipt_polls_quiet _ _ Hp) as (_ & _ & P3). apply (send_not_seen _ _ hash).
    + by rewrite !writes_app, Hc, Hw, P3.
    + destruct (Hwait e eq_refl) as [H|H]; [left; apply elem_of_app; right; apply elem_of_app; by right|by right].
Qed.

(** Which of the errors of a pass are retried: the failure to cancel a nonce is; a
    signer without gas is not. A transaction that is not mined in time is not either
    ([timeout_not_retryable]). *)
Lemma retry_policy nonce why :
  isRetryableChainError (auto_clear_failed nonce why) = true /\ isRetryableChainError no_gas_error = false.
Proof. by split. Qed.

(** ** Properties *)

(** C19. A write of the EVM gateway. Every transaction it sends is the contract's, with
    the data of the call and a fifth more gas than estimated, or a cancel: no value to
    the signer itself, with a nonce that was its next one. None of the contract is
    sent unless the last counts said that no transaction of the signer is pending, at
    most three times per attempt; the node takes one of them at most once, but for
    each receipt it failed to answer with an error that is retried; and the write
    answers a receipt of a transaction it took. *)
Theorem evm_write_correct (sig : string) (args : list abi_value) (reverted purpose : string) (t : list evm_call)
    (Hmax : 0 < MAX_SEND_ATTEMPTS cfg) :
  let '(r, t') := run (write_call cfg sig args reverted purpose) t in
  exists calls, t' = t ++ calls /\ write_outcome sig args reverted calls r.
Proof. pose proof (write_call_emits sig args reverted purpose Hmax t) as H. by destruct (run _ t). Qed.

(** C20. What the error of a transaction says. The passes before the last failed with
    an error that is retried, two, four, ... seconds apart, and the last one failed
    with one that is not, or was the last allowed; the error of a pass is that the
    signer could not be cleared or that all its sends failed, and then the node took
    no transaction of the contract, or that the one it took was not seen in time. *)
Theorem evm_send_errors (data : string) (gasLimit : Z) (purpose : string) (t : list evm_call) (Hmax : 0 < MAX_SEND_ATTEMPTS cfg) :
  let '(r, t') := run (sendContractTx cfg data gasLimit purpose) t in
  exists calls, t' = t ++ calls /\
    attempted ESleep (fails (send_failure purpose)) isRetryableChainError (Z.to_nat (MAX_SEND_ATTEMPTS cfg)) 1 calls r.
Proof.
  assert (Hp : emits (attempted ESleep (fails (send_failure purpose)) isRetryableChainError (Z.to_nat (MAX_SEND_ATTEMPTS cfg)) 1)
                 (sendContractTx cfg data gasLimit purpose)) by (apply attempts_emits; [apply send_task_fails|lia]).
  specialize (Hp t). by destruct (run _ t).
Qed.
End Sending.

(** ** The clock *)

(** Time does not go back, and a pause lasts; [setTimeout] may fire a millisecond
    early. *)
Class EvmClock (PROV : EvmProvider) : Prop := {
  evm_forward t c : evm_now t <= evm_now (t ++ [c]);
  evm_pause t ms : evm_now t + ms - 1 <= evm_now (t ++ [ESleep ms]);
}.

Section Clock.
  Context {PROV : EvmProvider} {CLOCK : EvmClock PROV}.

Lemma evm_clock_prefix t t' : t `prefix_of` t' -> evm_now t <= evm_now t'.
Proof.
  intros [k ->]. revert t. induction k as [|c k IH]; intros t; [by rewrite app_nil_r|].
  specialize (IH (t ++ [c])). rewrite <- app_assoc in IH. pose proof (evm_forward t c). cbn in *. lia.
Qed.

Lemma receipt_loop_ends fuel start hash timeoutMs t :
  start + timeoutMs - evm_now t < Z.of_nat fuel -> (0 < fuel)%nat ->
  since (fun _ => True) prefix (fun _ r => r <> Ok None) t (receipt_loop fuel start hash timeoutMs).
Proof.
  revert t. induction fuel as [|fuel IH]; intros t Hfuel Hpos; [lia|]. cbn [receipt_loop].
  apply since_bind, since_await. intros t1 _ H1. cbn [fst snd].
  pose proof (evm_clock_prefix _ _ H1) as C1. split_and!; [done|by apply prefix_app_r|].
  destruct (evm_now t1 - start <? timeoutMs) eqn:Et; [bool_to_prop|done].
  apply since_bind, since_await. intros t2 _ H2. cbn [fst snd].
  pose proof (evm_clock_prefix _ _ H2) as C2. pose proof (evm_forward t1 (ENow (evm_now t1))) as C3.
  split_and!; [done|by apply prefix_app_r|]. destruct (getTransactionReceipt t2 hash) as [[receipt|]|e]; [done| |done].
  apply since_bind, since_await. intros t3 _ H3. cbn [fst snd].
  pose proof (evm_clock_prefix _ _ H3) as C4. pose proof (evm_forward t2 (EReceipt hash (Ok None))) as C5.
  split_and!; [done|by apply prefix_app_r|]. pose proof (evm_pause t3 1500) as C6.
  destruct fuel as [|fuel]; [lia|]. apply IH; lia.
Qed.

(** Waiting for a receipt comes to an end: while other requests use the node at will,
    and as long as the clock moves, the loop leaves before its fuel does. *)
Theorem receipt_wait_ends (hash : string) (timeoutMs : Z) (t : list evm_call) (Htime : 0 <= timeoutMs) :
  since (fun _ => True) prefix (fun _ r => r <> Ok None) t
    (start ← now; receipt_loop (receipt_fuel timeoutMs) start hash timeoutMs).
Proof.
  apply since_bind, since_await. intros t1 _ H1. cbn [fst snd]. split_and!; [done|by apply prefix_app_r|].
  apply receipt_loop_ends; unfold receipt_fuel; [|lia]. pose proof (evm_forward t1 (ENow (evm_now t1))). lia.
Qed.
End Clock.

(** ** Witnesses *)

(** One transaction is stuck, and the first send fails. *)
Definition stuck_node : Node := {|
  nd_stuck := 1; nd_failing := 1; nd_receipt := mined 1 []; nd_polls := 1; nd_events := []; nd_block_time _ := None |}.

Definition premium_args : list abi_value := [AAddress sample_borrower; AUint 0; AUint 19290123457].
Definition premium_sig : string := "setPremiumConfig(address,uint128,uint128)".

Lemma evm_write_correct_witness :
  (let '(r, t') := run (write_call (PROV := sample_node stuck_node) sample_evm premium_sig premium_args "reverted" "setPremiumConfig") [] in
   is_ok r = true /\ length (List.filter is_send t') = 3%nat /\
   exists calls, t' = [] ++ calls /\
     write_outcome (PROV := sample_node stuck_node) sample_evm premium_sig premium_args "reverted" calls r).
Proof.
  pose proof (evm_write_correct (PROV := sample_node stuck_node) sample_evm premium_sig premium_args "reverted" "setPremiumConfig" []
    ltac:(reflexivity)) as H.
  set (p := write_call sample_evm premium_sig premium_args "reverted" "setPremiumConfig") in *.
  assert (Hr : is_ok (fst (run p [])) = true) by (vm_compute; reflexivity).
  assert (Hs : length (List.filter is_send (snd (run p []))) = 3%nat) by (vm_compute; reflexivity).
  destruct (run p []) as [r t']. split; [exact Hr|]. split; [exact Hs|]. exact H.
Defined.

(** A node that takes no transaction of the contract. *)
Definition lost_node : Node := {|
  nd_stuck := 1; nd_failing := 100; nd_receipt := mined 1 []; nd_polls := 0; nd_events := []; nd_block_time _ := None |}.

Lemma evm_send_errors_witness :
  (let '(r, t') := run (sendContractTx (PROV := sample_node lost_node) sample_evm "data" 120 "accrueLate") [] in
   r = Throw (PlainError "accrueLate send failed after retries: busy") /\
   exists calls, t' = [] ++ calls /\
     attempted ESleep (fails (send_failure (PROV := sample_node lost_node) sample_evm "accrueLate")) isRetryableChainError 3 1 calls r).
Proof.
  pose proof (evm_send_errors (PROV := sample_node lost_node) sample_evm "data" 120 "accrueLate" [] ltac:(reflexivity)) as H.
  set (p := sendContractTx sample_evm "data" 120 "accrueLate") in *.
  assert (Hr : match fst (run p []) with
               | Throw (PlainError m) => bool_decide (m = "accrueLate send failed after retries: busy"%string)
               | _ => false end = true) by (vm_compute; reflexivity).
  destruct (run p []) as [[a|e] t']; [discriminate Hr|]. destruct e; try discriminate Hr. cbn [fst] in Hr. apply bool_decide_eq_true in Hr as ->.
  split; [reflexivity|exact H].
Defined.

#[export] Instance sample_evm_clock (nd : Node) : EvmClock (sample_node nd).
Proof. constructor; intros t x; cbn; rewrite fold_left_app; cbn; [destruct x; cbn; lia|lia]. Qed.

Lemma receipt_wait_ends_witness :
  since (fun _ => True) prefix (fun _ r => r <> Ok None) []
    (start ← now (PROV := sample_node stuck_node);
     receipt_loop (PROV := sample_node stuck_node) (receipt_fuel 60000) start sample_hash 60000).
Proof. exact (receipt_wait_ends (CLOCK := sample_evm_clock stuck_node) sample_hash 60000 [] ltac:(lia)). Defined.

(** The status of a receipt is not read: a call that reverted on chain, of which the
    gateway itself says so when it is asked to verify, counts as written, and the
    borrower's score and limit as given. *)
Definition reverting_node : Node := {|
  nd_stuck := 0; nd_failing := 0; nd_receipt := mined 0 []; nd_polls := 0; nd_events := []; nd_block_time _ := None |}.

Theorem reverted_write_succeeds :
  match run (giveCreditScoreAndLimit (PROV := sample_node reverting_node) sample_evm sample_borrower (num_of_Z 5) 10000000 true None) [] with
  | (Ok code, t') => (code =? 200) && existsb (fun c => match c with EReceipt _ (Ok (Some r)) => rc_status r =? 0 | _ => false end) t'
  | _ => false
  end = true.
Proof. vm_compute. reflexivity. Qed.
