(* ===== verification/EvmGatewayProps.v ===== *)
(** * What the EVM gateway answers

    The theorems about [EvmGateway]: what a verified repayment or opening means on
    chain, and which events the scans find. *)

From stdpp Require Import base tactics list sorting strings numbers.
From Stdlib Require Import Lia ZArith.
From S2P Require Import Prelude JsString JsNum Gateway Async Trace EvmConfig EvmGateway EvmTx.

Local Open Scope Z_scope.

Section Verification.
  Context `{PROV : EvmProvider} (cfg : EvmConfig).

(** The receipt was asked for until it was there or the node failed, at most [n]
    times; [answer] is the last answer. *)
Definition asked (hash : string) (n : nat) (calls : list evm_call) (answer : result (option Receipt)) : Prop :=
  exists misses, calls = (replicate misses tt ≫= fun _ => [EReceipt hash (Ok None); ESleep 1000]) ++ [EReceipt hash answer] /\
    (misses < n)%nat /\ (answer = Ok None -> S misses = n).

Lemma poll_receipt_emits n hash : (0 < n)%nat -> emits (asked hash n) (poll_receipt n hash).
Proof.
  induction n as [|n IH]; intros Hn; [lia|]. cbn [poll_receipt]. unfold receipt_of, EvmConfig.sleep. repeat emits_step.
  destruct r as [[receipt|]|e].
  - emits_step. exists 0%nat. split_and!; [done|lia|done].
  - destruct (bool_decide (n = O)) eqn:En; bool_to_prop.
    + subst n. cbn [poll_receipt]. repeat emits_step. exists 0%nat. split_and!; [done|lia|done].
    + repeat emits_step. eapply emits_mono; [|apply IH; lia]. intros cs r (m & -> & Hm & Hend).
      exists (S m). split_and!; [done|lia|]. intros Hr. f_equal. by apply Hend.
  - exists 0%nat. split_and!; [done|lia|done].
Qed.

(** The LoanManager logged the event of [topic] for the user. *)
Definition logged (topic user : string) (log : Log) : Prop :=
  toLowerCase (log_address log) = toLowerCase (CLM_ADDRESS cfg) /\
  toLowerCase <$> log_topics log !! 0%nat = Some topic /\ toLowerCase <$> log_topics log !! 1%nat = Some user.

Lemma loan_log_spec topic user log : loan_log cfg topic user log = true <-> logged topic user log.
Proof.
  unfold loan_log, topic_at, logged. rewrite !andb_true_iff, !bool_decide_eq_true. tauto.
Qed.

Lemma find_split {A} (f : A -> bool) l :
  match find f l with
  | Some x => exists before after, l = before ++ x :: after /\ Forall (fun y => f y = false) before /\ f x = true
  | None => Forall (fun y => f y = false) l
  end.
Proof.
  induction l as [|x l IH]; cbn; [constructor|]. destruct (f x) eqn:Ef.
  - exists [], l. split_and!; [done|constructor|done].
  - destruct (find f l) as [y|].
    + destruct IH as (b & a & -> & Hb & Hy). exists (x :: b), a. split_and!; [done|by constructor|done].
    + by constructor.
Qed.

(** What a repayment is told by its receipt. *)
Definition repay_verdict (borrower : string) (answer : result (option Receipt)) (v : RepayVerification) : Prop :=
  match answer with
  | Throw _ => v = refused rpc_error
  | Ok None => v = refused no_receipt
  | Ok (Some receipt) =>
      (rc_status receipt <> 1 /\ v = refused reverted) \/
      (rc_status receipt = 1 /\
       match expectedTopicUser borrower with
       | Throw _ => v = refused rpc_error
       | Ok user =>
           (Forall (fun log => ~ logged TOPIC_LOAN_CLOSED user log) (rc_logs receipt) /\ v = refused no_match) \/
           exists before log after, rc_logs receipt = before ++ log :: after /\
             Forall (fun log => ~ logged TOPIC_LOAN_CLOSED user log) before /\ logged TOPIC_LOAN_CLOSED user log /\
             match BigInt_chars (chars (log_data log)) with
             | Some paid => v = {| verified := true; reason := None; blockNumber := Some (rc_blockNumber receipt); paidUnits := Some paid |}
             | None => v = refused rpc_error
             end
       end)
  end.

Lemma not_logged topic user logs :
  Forall (fun log => loan_log cfg topic user log = false) logs -> Forall (fun log => ~ logged topic user log) logs.
Proof. intros H. eapply list.Forall_impl; [exact H|]. intros log Hf Hl%loan_log_spec. congruence. Qed.

(** The verdict, but for the errors that become [rpc_error]. *)
Lemma repay_of_receipt_spec borrower receipt :
  repay_verdict borrower (Ok (Some receipt))
    (match repay_of_receipt cfg borrower receipt with Ok v => v | Throw _ => refused rpc_error end).
Proof.
  unfold repay_verdict, repay_of_receipt. destruct (rc_status receipt =? 1) eqn:Es; cbn [negb]; bool_to_prop; [right|left; split; [lia|done]].
  split; [done|]. destruct (expectedTopicUser borrower) as [user|e]; cbn [mbind result_bind]; [|done].
  pose proof (find_split (loan_log cfg TOPIC_LOAN_CLOSED user) (rc_logs receipt)) as Hf.
  destruct (find _ _) as [log|]; [|left; split; [by apply not_logged|done]]. right.
  destruct Hf as (b & a & -> & Hb & Hl). exists b, log, a. split_and!; [done|by apply not_logged|by apply loan_log_spec|].
  by destruct (BigInt_chars _).
Qed.

Lemma evm_verifyRepay_emits hash borrower :
  emits (fun cs r => exists answer v, asked hash 10 cs answer /\ r = Ok v /\ repay_verdict borrower answer v)
    (verifyRepayByTxHash cfg hash borrower).
Proof.
  unfold verifyRepayByTxHash. do 2 emits_step. eapply emits_mono; [|apply poll_receipt_emits; lia].
  intros cs [[receipt|]|e] Ha.
  - pose proof (repay_of_receipt_spec borrower receipt) as Hv. emits_step.
    destruct (repay_of_receipt cfg borrower receipt) as [v|e]; [|emits_step]; rewrite ?app_nil_r; exists (Ok (Some receipt)); eexists; (split_and!; [exact Ha|done|exact Hv]).
  - emits_step. rewrite app_nil_r. by exists (Ok None), (refused no_receipt).
  - emits_step. rewrite app_nil_r. by exists (Throw e), (refused rpc_error).
Qed.

(** What a repayment is told by its receipt, on every branch: the node is asked for
    the receipt until it has one, at most ten times; the repayment is verified exactly
    when the transaction succeeded and the LoanManager logged [LoanClosed] for the
    borrower in it, with the amount of the first such log; every other case has its
    reason, an error being [rpc_error], and nothing is thrown. *)
Theorem evm_verify_repay_correct (hash borrower : string) (t : list evm_call) :
  let '(r, t') := run (verifyRepayByTxHash cfg hash borrower) t in
  exists calls answer v, t' = t ++ calls /\ asked hash 10 calls answer /\ r = Ok v /\ repay_verdict borrower answer v.
Proof.
  destruct (evm_verifyRepay_emits hash borrower t) as (calls & Ht & answer & v & H). destruct (run _ t) as [r t']. by exists calls, answer, v.
Qed.

(** What an opening is told by its receipt: it is asked for once, and errors are
    thrown. *)
Theorem evm_verify_opened_correct (hash borrower : string) :
  emits (fun cs r => exists answer, cs = [EReceipt hash answer] /\
    match answer with
    | Throw e => r = Throw e
    | Ok None => r = Ok false
    | Ok (Some receipt) =>
        (rc_status receipt <> 1 /\ r = Ok false) \/
        (rc_status receipt = 1 /\
         match expectedTopicUser borrower with
         | Throw e => r = Throw e
         | Ok user => exists b, r = Ok b /\ (b = true <-> exists log, log ∈ rc_logs receipt /\ logged LOAN_OPENED_TOPIC user log)
         end)
    end) (verifyLoanOpenedByTxHash cfg hash borrower).
Proof.
  unfold verifyLoanOpenedByTxHash, receipt_of. repeat emits_step. destruct r as [[receipt|]|e].
  - destruct (rc_status receipt =? 1) eqn:Es; cbn [negb]; bool_to_prop.
    + do 2 emits_step. destruct (expectedTopicUser borrower) as [user|e] eqn:Eu.
      * emits_step. exists (Ok (Some receipt)). split; [done|]. right. split; [done|]. eexists. split; [done|].
        rewrite existsb_exists. split; intros (log & Hin & Hl); exists log; rewrite ?list_elem_of_In in *;
          (split; [done|]); by apply loan_log_spec.
      * exists (Ok (Some receipt)). split; [done|]. by right.
    + emits_step. exists (Ok (Some receipt)). split; [done|]. left. split; [lia|done].
  - emits_step. by exists (Ok None).
  - by exists (Throw e).
Qed.
End Verification.

(** ** Events *)

(** A node that keeps its word: the events of the contract, in the order of their
    blocks, and the times of the blocks. *)
Class EventLaws (PROV : EvmProvider) := {
  chain_events : bool -> option string -> list EvmEvent;
  block_at : Z -> option Z;
  chain_sorted closed borrower : StronglySorted (fun a b => ee_blockNumber a <= ee_blockNumber b) (chain_events closed borrower);
  query_range t closed borrower from to :
    queryFilter t closed borrower from to =
    Ok (List.filter (fun e => (from <=? ee_blockNumber e) && (ee_blockNumber e <=? to)) (chain_events closed borrower));
  block_known t n : getBlock t (Some n) = Ok (block_at n);
}.

Section Events.
  Context {PROV : EvmProvider} {LAWS : EventLaws PROV}.

Definition between (from to : Z) (events : list EvmEvent) : list EvmEvent :=
  List.filter (fun e => (from <=? ee_blockNumber e) && (ee_blockNumber e <=? to)) events.

Lemma between_none from to events : Forall (fun e => ~ from <= ee_blockNumber e <= to) events -> between from to events = [].
Proof.
  unfold between. induction 1 as [|e events He _ IH]; [done|]. cbn. rewrite IH.
  destruct (Z.leb_spec from (ee_blockNumber e)), (Z.leb_spec (ee_blockNumber e) to); cbn; [lia|done..].
Qed.

(** A range, cut in two. *)
Lemma between_split from mid to events :
  StronglySorted (fun a b => ee_blockNumber a <= ee_blockNumber b) events -> from <= mid -> mid <= to ->
  between from to events = between from (mid - 1) events ++ between mid to events.
Proof.
  intros Hs H1 H2. induction Hs as [|e events Hs IH He]; [done|].
  destruct (Z_lt_le_dec (ee_blockNumber e) mid) as [Hlt|Hge].
  - unfold between in *. cbn [List.filter]. rewrite IH.
    rewrite (proj2 (Z.leb_le (ee_blockNumber e) to)), (proj2 (Z.leb_le (ee_blockNumber e) (mid - 1))) by lia.
    rewrite (proj2 (Z.leb_gt mid (ee_blockNumber e))) by lia. cbn [andb]. by destruct (from <=? ee_blockNumber e).
  - rewrite (between_none from (mid - 1) (e :: events)); [cbn [app]|].
    + unfold between. apply List.filter_ext_in. intros x Hx. apply list_elem_of_In in Hx.
      assert (ee_blockNumber e <= ee_blockNumber x)
        by (apply elem_of_cons in Hx as [-> |Hx]; [lia|by apply (proj1 (list.Forall_forall _ _) He)]).
      f_equal. apply eq_true_iff_eq. rewrite !Z.leb_le. lia.
    + constructor; [lia|]. eapply list.Forall_impl; [exact He|]. cbn. lia.
Qed.

Definition opened_of (e : EvmEvent) : option ChainLoanOpenedEvent :=
  timestamp ← block_at (ee_blockNumber e);
  Some {| ev_borrower := toLowerCase (ee_borrower e); ev_principal := value 0 (ee_args e); ev_amountDue := value 1 (ee_args e);
          ev_due := Number_Z (value 2 (ee_args e)); ev_feeBps := Number_of_bigint (value 3 (ee_args e));
          ev_ledger := ee_blockNumber e; ev_txHash := ee_txHash e; ev_timestamp := timestamp |}.

(** The openings of a range: all of them, in order, but for those whose block is not
    there. *)
Theorem evm_openings (from to : Z) :
  emits (fun _ r => r = Ok (omap opened_of (between from to (chain_events false None)))) (getLoanOpenedEvents from to).
Proof.
  unfold getLoanOpenedEvents, query. emits_step. intros t. unfold ask. rewrite run_await. eexists. split; [done|]. cbn [fst].
  rewrite query_range. fold (between from to (chain_events false None)). generalize (between from to (chain_events false None)).
  intros events. emits_step. apply (emits_mono (fun _ r => r = Ok (map opened_of events))).
  - intros cs r ->. emits_step. f_equal. clear. induction events as [|e events IH]; [done|]. cbn. destruct (opened_of e); cbn; by rewrite IH.
  - induction events as [|e events IH]; cbn [pmap map]; [by apply emits_return|].
    emits_step. apply (emits_mono (fun _ r => r = Ok (opened_of e))).
    + intros cs r ->. emits_step. eapply emits_mono; [|exact IH]. intros cs' r ->. by apply emits_return.
    + unfold opened_event, block_time. emits_step. intros t'. unfold ask. rewrite run_await. eexists. split; [done|]. cbn [fst].
      rewrite block_known. by apply emits_return.
Qed.

(** ** The closing of a loan *)

(** The closing of a loan, by the last of the borrower's [LoanClosed] events: none when
    there is none, or when it is older than the loan. *)
Definition last_closing (borrower : string) (loanStartUnix nowUnix : Z) (events : list EvmEvent) : option ChainLoanClosedEvent :=
  match list.last events with
  | None => None
  | Some event =>
      let eventTimestamp := default nowUnix (block_at (ee_blockNumber event)) in
      if eventTimestamp <? loanStartUnix then None else
      Some {| cl_borrower := borrower; cl_amountPaid := value 0 (ee_args event); cl_txHash := ee_txHash event;
              cl_ledger := ee_blockNumber event; cl_timestamp := eventTimestamp |}
  end.

(** A page with an event ends the search, one without does not. *)
Lemma closed_loop_emits fuel to fromBlock start nowUnix borrower :
  0 <= to + MAX_BLOCK_RANGE - fromBlock -> (to + MAX_BLOCK_RANGE - fromBlock) / MAX_BLOCK_RANGE < Z.of_nat fuel ->
  emits (fun _ r => r = Ok (Some (last_closing borrower start nowUnix (between fromBlock to (chain_events true (Some borrower))))))
    (closed_loop fuel to fromBlock start nowUnix borrower).
Proof.
  unfold MAX_BLOCK_RANGE. revert to. induction fuel as [|fuel IH]; intros to Hto Hfuel.
  { pose proof (Z.div_pos (to + 10000 - fromBlock) 10000). lia. }
  cbn [closed_loop]. destruct (to <? fromBlock) eqn:Et; bool_to_prop.
  { emits_step. do 2 f_equal. rewrite between_none; [done|]. apply list.Forall_forall. intros e _. lia. }
  unfold query. emits_step. intros t. unfold ask. rewrite run_await. eexists. split; [done|]. cbn [fst].
  rewrite query_range. unfold MAX_BLOCK_RANGE.
  fold (between (Z.max (to - 10000 + 1) fromBlock) to (chain_events true (Some borrower))).
  set (events := chain_events true (Some borrower)). set (page := between (Z.max (to - 10000 + 1) fromBlock) to events).
  assert (Hsplit : between fromBlock to events = between fromBlock (Z.max (to - 10000 + 1) fromBlock - 1) events ++ page).
  { apply between_split; [apply chain_sorted|lia..]. }
  destruct (list.last page) as [event|] eqn:El.
  - unfold closing_of, block_time. do 2 emits_step. intros t'. unfold ask. rewrite run_await. eexists. split; [done|]. cbn [fst].
    rewrite block_known. rewrite Hsplit. unfold last_closing. rewrite last_app, El. cbn zeta.
    by destruct (_ <? start); repeat emits_step.
  - apply last_None in El. rewrite Hsplit, El, app_nil_r.
    emits_step. apply (emits_mono (fun _ r => r = Ok tt)); [|destruct (fromBlock <=? to - 10000); [by apply emits_note|by apply emits_return]].
    intros cs r ->. destruct (Z_le_gt_dec fromBlock (to - 10000)) as [Hle|Hgt].
    + rewrite Z.max_l by lia. replace (to - 10000 + 1 - 1) with (to - 10000) by lia. apply IH; [lia|].
      replace (to - 10000 + 10000 - fromBlock) with (to + 10000 - fromBlock + (-1) * 10000) by lia. rewrite Z.div_add by lia. lia.
    + destruct fuel as [|fuel]; [|cbn [closed_loop]].
      { exfalso. assert (1 <= (to + 10000 - fromBlock) / 10000) by (apply Z.div_le_lower_bound; lia). lia. }
      rewrite (proj2 (Z.ltb_lt (to - 10000) fromBlock)) by lia. emits_step. do 2 f_equal.
      rewrite (between_none fromBlock); [done|]. apply list.Forall_forall. intros e _. lia.
Qed.

Lemma closed_fuel_enough to fromBlock :
  fromBlock <= to -> (to + MAX_BLOCK_RANGE - fromBlock) / MAX_BLOCK_RANGE < Z.of_nat (closed_fuel to fromBlock).
Proof.
  intros H. unfold closed_fuel, MAX_BLOCK_RANGE. replace (to + 10000 - fromBlock) with (to - fromBlock + 1 * 10000) by lia.
  rewrite Z.div_add by lia. pose proof (Z.div_pos (to - fromBlock) 10000). lia.
Qed.

(** C22. The closing of a loan: the search goes back from the current block, ten
    thousand blocks at a time, to two thousand blocks before the loan can have
    started; it answers what the last [LoanClosed] event of the borrower in all of
    these blocks says, and nothing when there is none or it is older than the loan.
    It always comes to an end. *)
Theorem evm_find_closed_last (borrower : string) (loanStartAt currentLedger : Z) (t : list evm_call) :
  let start := loanStartAt / 1000 in
  let nowUnix := evm_now t / 1000 in
  fst (run (findLoanClosedEvent borrower loanStartAt currentLedger) t) =
  Ok (last_closing borrower start nowUnix
        (between (closed_from currentLedger start nowUnix) currentLedger (chain_events true (Some borrower)))).
Proof.
  cbn zeta. unfold findLoanClosedEvent, EvmConfig.now, ask_value. rewrite run_bind, run_await. cbn [fst snd].
  set (from := closed_from _ _ _). rewrite run_bind.
  assert (Hend : forall r, emits (fun _ r' => r' = Ok (Some r)) (closed_loop (closed_fuel currentLedger from) currentLedger from
            (loanStartAt / 1000) (evm_now t / 1000) borrower) ->
          forall t', fst (run (closed_loop (closed_fuel currentLedger from) currentLedger from
            (loanStartAt / 1000) (evm_now t / 1000) borrower) t') = Ok (Some r)).
  { intros r H t'. by destruct (H t') as (cs & _ & ?). }
  destruct (Z_lt_le_dec currentLedger from) as [Hlt|Hle].
  - rewrite (between_none from currentLedger) by (apply list.Forall_forall; intros; lia).
    unfold closed_fuel. cbn [closed_loop]. rewrite (proj2 (Z.ltb_lt currentLedger from)) by done. done.
  - specialize (Hend _ (closed_loop_emits (closed_fuel currentLedger from) currentLedger from (loanStartAt / 1000) (evm_now t / 1000) borrower
      ltac:(unfold MAX_BLOCK_RANGE; lia) (closed_fuel_enough currentLedger from Hle)) (t ++ [ENow (evm_now t)])).
    destruct (run (closed_loop _ _ _ _ _ _) _) as [r t']. cbn in Hend. by subst r.
Qed.
End Events.

(** ** Witnesses *)


(** Two closings of the borrower, more than a page apart. *)
Definition closing_node : Node := {|
  nd_stuck := 0; nd_failing := 0; nd_receipt := None; nd_polls := 0;
  nd_events := [{| ee_borrower := sample_borrower; ee_args := [10]; ee_blockNumber := 11000; ee_txHash := "0x01" |};
                {| ee_borrower := sample_borrower; ee_args := [11]; ee_blockNumber := 12500; ee_txHash := "0x02" |}];
  nd_block_time n := Some (n - 30000);
|}.

Lemma closing_sorted : StronglySorted (fun a b => ee_blockNumber a <= ee_blockNumber b) (nd_events closing_node).
Proof. repeat constructor. cbn. lia. Qed.

#[local] Instance closing_laws : EventLaws (sample_node closing_node).
Proof.
  refine {| chain_events _ _ := nd_events closing_node; block_at n := Some (n - 30000) |}.
  - intros _ _. apply closing_sorted.
  - intros. reflexivity.
  - intros. reflexivity.
Defined.

(** A loan that started twenty thousand seconds ago, by a clock at zero. *)
Lemma evm_find_closed_last_witness :
  match last_closing (PROV := sample_node closing_node) sample_borrower (-20000) 0 (between 8000 30000 (nd_events closing_node)) with
  | Some c => (cl_amountPaid c =? 11) && bool_decide (cl_txHash c = "0x02"%string)
  | None => false
  end = true /\
  fst (run (findLoanClosedEvent (PROV := sample_node closing_node) sample_borrower (-20000000) 30000) []) =
  Ok (last_closing (PROV := sample_node closing_node) sample_borrower (-20000) 0 (between 8000 30000 (nd_events closing_node))).
Proof.
  split; [vm_compute; reflexivity|].
  pose proof (evm_find_closed_last (PROV := sample_node closing_node) (LAWS := closing_laws) sample_borrower (-20000000) 30000 []) as H.
  exact H.
Defined.
