(* ===== verification/EvmPort.v ===== *)
(** * The EVM gateway behind the port

    The implementation of [Port] a backend runs by default. As for [SorobanPort], what
    the services promise for any port becomes a statement about the server: here, about
    the receipts and the loans of the node. *)

From stdpp Require Import base tactics list gmap strings numbers.
From Stdlib Require Import Lia ZArith.
From S2P Require Import Prelude JsString JsNum AmountUnits Strkey DecimalLib CreditPolicy Gateway Entities Store Async Trace Kyc LoanVerification LoanService LoanRepayment Port EvmConfig EvmGateway EvmTx EvmGatewayProps.

Local Open Scope Z_scope.

Section Port.
  Context {PROV : EvmProvider} (cfg : EvmConfig).
  (** the parts of the outside that are not the gateway's *)
  Context (rest : Outside) (feed : ChainFeed).

(** [EthersBlockchainGateway]; it has no [readNextBorrowTime]. *)
#[local] Instance EvmGatewayPort : BlockchainGateway evm_call := {|
  g_readCreditLimitOnChain := readCreditLimitOnChain;
  g_readNextBorrowTime := None;
  g_giveCreditScoreAndLimit b sc limit := giveCreditScoreAndLimit cfg b (num_of_Z sc) limit true None;
  g_createLoanOfferBackend amount b tenor fee := createLoanOfferBackend cfg amount b (num_of_Z tenor) fee;
  g_setPremiumConfig := setPremiumConfig cfg;
  g_previewLoanWithLate := previewLoanWithLate;
  g_readLoanOnChain := readLoanOnChain;
  g_readLoanFull := readLoanFull;
  g_readPremium := readPremium;
  g_readIsDefaulted := readIsDefaulted;
  g_getChainBlockTimestamp := getChainBlockTimestamp;
  g_verifyLoanOpenedByTxHash := verifyLoanOpenedByTxHash cfg;
  g_verifyRepayByTxHash := verifyRepayByTxHash cfg;
  g_accrueLate := accrueLate cfg;
  g_getLatestLedger := getLatestLedger;
  g_readUserRisk := readUserRisk;
  g_getLoanOpenedEvents := getLoanOpenedEvents;
  g_findLoanClosedEvent := findLoanClosedEvent;
  g_now := evm_now;
  g_reading := ENow;
|}.

Definition EvmOutside : Outside := PortOutside rest.
Definition EvmFeed : ChainFeed := PortFeed feed.

(** The calls to the node behind a trace of calls to the port. *)
Abbreviation node_calls := (server_calls EvmGatewayPort).

(** ** The trace of the node only grows *)

Lemma evm_appends_receipt hash timeoutMs : appends (waitReceiptPolling hash timeoutMs).
Proof. by apply waiting_makes. Qed.

Lemma evm_appends_fees multiplier : appends (feeOverridesFor cfg multiplier).
Proof. by apply fees_make. Qed.

#[local] Hint Resolve evm_appends_receipt evm_appends_fees : makes.

Lemma evm_appends_cancel nonce : appends (cancelNonce cfg nonce).
Proof. eapply makes_emits; [|apply cancelNonce_makes]. intros cs r H. eapply list.Forall_impl; [exact H|done]. Qed.

Lemma evm_appends_state : appends signerState.
Proof. unfold signerState, count. solve_makes. Qed.

#[local] Hint Resolve evm_appends_cancel evm_appends_state : makes.

Lemma evm_appends_clear n : appends (clear_loop cfg n).
Proof. induction n as [|n IH]; cbn [clear_loop]; solve_makes. Qed.

Lemma evm_appends_sends n k data gasLimit err : appends (send_loop cfg n k data gasLimit err).
Proof.
  revert k err. induction n as [|n IH]; intros k err; cbn [send_loop]; unfold send, EvmConfig.sleep; solve_makes.
Qed.

#[local] Hint Resolve evm_appends_clear evm_appends_sends : makes.

Lemma evm_appends_write sig args reverted purpose : appends (write_call cfg sig args reverted purpose).
Proof.
  unfold write_call, tryEstimate, sendContractTx, withChainWriteRetry, send_task, autoClearPendingNoncesIfNeeded. solve_makes.
Qed.

Lemma evm_appends_poll n hash : appends (poll_receipt n hash).
Proof. induction n as [|n IH]; cbn [poll_receipt]; unfold receipt_of, EvmConfig.sleep; solve_makes. Qed.

Lemma evm_appends_closed n to from start nowUnix b : appends (closed_loop n to from start nowUnix b).
Proof.
  revert to. induction n as [|n IH]; intros to; cbn [closed_loop]; unfold query, closing_of, block_time, EvmConfig.sleep; solve_makes.
Qed.

#[local] Hint Resolve evm_appends_write evm_appends_poll evm_appends_closed : makes.

#[local] Instance evm_appends : GatewayAppends EvmGatewayPort.
Proof.
  gateway_methods EvmGatewayPort;
    unfold readCreditLimitOnChain, giveCreditScoreAndLimit, createLoanOfferBackend, setPremiumConfig, previewLoanWithLate,
      readLoanOnChain, readLoanFull, readPremium, readIsDefaulted, getChainBlockTimestamp, verifyLoanOpenedByTxHash,
      verifyRepayByTxHash, accrueLate, getLatestLedger, readUserRisk, getLoanOpenedEvents, findLoanClosedEvent,
      read_or_null, logHeaderAndCheck, nowPlus, EvmConfig.now, view_call, opened_event, block_time, receipt_of, query;
    solve_makes.
Qed.

(** ** What the services may rely on *)

(** The node answered a receipt of the transaction: it succeeded, and the LoanManager
    logged the closing of the wallet's loan in it. *)
Definition receipt_closes (hash wallet : string) (calls : list evm_call) : Prop :=
  exists receipt user log paid, EReceipt hash (Ok (Some receipt)) ∈ calls /\ rc_status receipt = 1 /\
    expectedTopicUser wallet = Ok user /\ log ∈ rc_logs receipt /\ logged cfg TOPIC_LOAN_CLOSED user log /\
    BigInt_chars (chars (log_data log)) = Some paid.

(** The contract, asked for the loan of the wallet, answered one that is not active. *)
Definition loan_inactive (wallet : string) (calls : list evm_call) : Prop :=
  exists loan, EView (VLoans wallet) (Ok loan) ∈ calls /\ value 6 loan = 0.

Lemma readLoan_shows wallet :
  emits (fun cs r => forall l, r = Ok (Some l) -> active l = false -> loan_inactive wallet cs) (readLoanOnChain wallet).
Proof.
  unfold readLoanOnChain, view_call. repeat emits_step. destruct r as [loan|e]; repeat emits_step; [|done].
  intros l [= <-] Hl. cbn in Hl. exists loan. split; [left|]. by apply negb_false_iff, Z.eqb_eq in Hl.
Qed.

Lemma verifyRepay_shows hash wallet :
  emits (fun cs r => forall v, r = Ok v -> verified v = true -> receipt_closes hash wallet cs) (verifyRepayByTxHash cfg hash wallet).
Proof.
  eapply emits_mono; [|apply evm_verifyRepay_emits]. intros cs r (answer & v & (misses & -> & _) & -> & Hv) v' [= <-] Htrue.
  destruct answer as [[receipt|]|e]; cbn in Hv; [|by subst v..].
  destruct Hv as [[_ ->]|[Hs Hv]]; [done|]. destruct (expectedTopicUser wallet) as [user|e] eqn:Eu; [|by subst v].
  destruct Hv as [[_ ->]|(b & log & a & Hlogs & _ & Hl & Hpaid)]; [done|].
  destruct (BigInt_chars _) as [paid|] eqn:Ep; [|by subst v].
  exists receipt, user, log, paid. split_and!; [apply elem_of_app; right; left|done|done| |done|done].
  rewrite Hlogs. apply elem_of_app. right. left.
Qed.

Lemma closes_grow hash wallet tr tr' : receipt_closes hash wallet (node_calls tr) -> receipt_closes hash wallet (node_calls (tr ++ tr')).
Proof.
  intros (receipt & user & log & paid & Hin & H). exists receipt, user, log, paid. split; [|done].
  by apply (server_calls_in (GW := EvmGatewayPort)).
Qed.

Lemma loan_inactive_grow wallet tr tr' : loan_inactive wallet (node_calls tr) -> loan_inactive wallet (node_calls (tr ++ tr')).
Proof. intros (loan & Hin & H). exists loan. split; [|done]. by apply (server_calls_in (GW := EvmGatewayPort)). Qed.

Section Repayment.
  Context `{ENV : Env} `{DB : Database} `{D : DecimalJs} `{JM : JsMath} {DL : DatabaseLaws DB}.

(** C21. End to end, over the EVM gateway: recording a repayment leaves the loans as
    they are, or the node answered the gateway, when it was asked, a receipt of the
    request's transaction that succeeded, with the LoanManager's log of the closing of
    the wallet's loan, or a loan of the wallet that is not active. *)
Theorem repayment_backed_by_receipt (dto : InformRepaymentDto) (w : World) (Hok : tables_ok w) (Htx : w_tx w = NoTx) :
  let '(r, w') := processRepayment (OUT := EvmOutside) dto w in
  w_loans w' = w_loans w \/
  exists wallet, normalizeWallet (ir_walletAddress dto) = Ok wallet /\
    ((exists hash, ir_txHash dto = Some hash /\ receipt_closes hash wallet (node_calls (w_calls w'))) \/
     loan_inactive wallet (node_calls (w_calls w'))).
Proof.
  pose proof (process_repayment_run (OUT := EvmOutside) dto w Hok Htx) as H.
  destruct (processRepayment (OUT := EvmOutside) dto w) as [r w']. destruct H as [((_ & Hl & _) & _)|H]; [by left|right].
  destruct H as (i & user & _ & Hw & (evs & Hevs & Hproof) & _). exists (walletAddress user). split; [done|]. rewrite Hevs.
  destruct Hproof as [(hash & v & pre & post & Hh & Hv & -> & Hans)|(pre & post & l & -> & Hans & Hact)]; [left|right].
  - exists hash. split; [done|]. rewrite cons_middle, !app_assoc. apply closes_grow.
    destruct (server_calls_emits (GW := EvmGatewayPort) _ (verifyRepayByTxHash cfg hash (walletAddress user)) (w_calls w ++ pre)
      (CVerifyRepay hash (walletAddress user) (Ok v)) eq_refl (verifyRepay_shows hash (walletAddress user))) as (cs & -> & H).
    destruct (H v Hans Hv) as (receipt & u & log & paid & Hin & Hrest). exists receipt, u, log, paid. split; [|done].
    apply elem_of_app. by right.
  - rewrite cons_middle, !app_assoc. apply loan_inactive_grow.
    destruct (server_calls_emits (GW := EvmGatewayPort) _ (readLoanOnChain (walletAddress user)) (w_calls w ++ pre)
      (CReadLoan (walletAddress user)) eq_refl (readLoan_shows (walletAddress user))) as (cs & -> & H).
    destruct (H l Hans Hact) as (loan & Hin & Hz). exists loan. split; [|done]. apply elem_of_app. by right.
Qed.
End Repayment.
End Port.

(** ** Witness: a repayment confirmed by a sample node *)

Definition closing_log : Log := {|
  log_address := CLM_ADDRESS sample_evm; log_topics := ["LoanClosed(address,uint256)"; sample_wallet]%string; log_data := "0xa56a80" |}.

Definition repaid_node : Node := {|
  nd_stuck := 0; nd_failing := 0; nd_receipt := mined 1 [closing_log]; nd_polls := 2; nd_events := []; nd_block_time _ := None |}.

Definition evm_port : Outside := EvmOutside (PROV := sample_node repaid_node) sample_evm lending.

Definition evm_calls (w : World) : list evm_call := server_calls (EvmGatewayPort (PROV := sample_node repaid_node) sample_evm) (w_calls w).

Lemma repayment_backed_by_receipt_witness :
  repaid_line (fst (inform_repay evm_port (Some "r1"%string) one_loan)) <> None /\
  match inform_repay evm_port (Some "r1"%string) one_loan return Prop with
  | (_, w') =>
      w_loans w' = w_loans one_loan \/
      exists wallet, normalizeWallet sample_wallet = Ok wallet /\
        ((exists hash, Some "r1"%string = Some hash /\ receipt_closes (PROV := sample_node repaid_node) sample_evm hash wallet (evm_calls w')) \/
         loan_inactive wallet (evm_calls w'))
  end.
Proof.
  split; [vm_compute; discriminate|].
  pose proof (repayment_backed_by_receipt (PROV := sample_node repaid_node) (ENV := sample_env) (D := QDecimal) (JM := SampleMath)
    sample_evm lending (sample_repay (Some "r1"%string)) one_loan one_loan_ok one_loan_tx) as H.
  exact H.
Defined.
