(* ===== verification/UsdcFormat.v ===== *)
(** * Amounts on the screen ([frontend/src/lib/utils.ts])

    The text of an amount and back: the formatters the wallet screens use, the
    parser of what the user types, and the parser the formatters apply to strings. *)

From S2P Require Import Prelude JsString AmountUnits.
From stdpp Require Import base tactics list strings numbers.
From Stdlib Require Import Lia ZArith Ascii.

Local Open Scope Z_scope.

(** ** Model *)

(** [DECIMALS], chosen by the chain mode of the build. *)
Definition DECIMALS (chain_mode : option string) : nat :=
  if bool_decide (toLowerCase <$> chain_mode = Some "stellar"%string) then STELLAR_TOKEN_DECIMALS else EVM_USDC_DECIMALS.

(** [\w] *)
Definition is_word (c : ascii) : bool := is_digit c || is_upper c || is_lower c || Ascii.eqb c "_"%char.

Fixpoint digit_run (l : list ascii) : nat :=
  match l with
  | c :: l' => if is_digit c then S (digit_run l') else O
  | [] => O
  end.

(** A comma at every position inside a word from which a run of digits goes on for a
    multiple of three. *)
Fixpoint thousands (inside : bool) (l : list ascii) : list ascii :=
  match l with
  | [] => []
  | c :: l' =>
      let n := digit_run l in
      let rest := c :: thousands (is_word c) l' in
      if inside && (0 <? n)%nat && (n mod 3 =? 0)%nat then ","%char :: rest else rest
  end.

Definition withThousands (l : list ascii) : list ascii := thousands false l.

(** The pattern of an optional sign, digits, and an optional point with digits. *)
Definition is_sign (c : ascii) : bool := Ascii.eqb c "-"%char || Ascii.eqb c "+"%char.

Definition decimal_text (raw : list ascii) : bool :=
  let x := match raw with c :: r => if is_sign c then r else raw | [] => raw end in
  match drop_while is_digit x with
  | [] => true
  | c :: r => Ascii.eqb c "."%char && forallb is_digit r
  end.

(** [BigInt(s)] of a string of digits. *)
Definition BigInt_digits_of (l : list ascii) : Z := default 0 (BigInt_chars l).

(** [l || '0'] *)
Definition or_zero (l : list ascii) : list ascii := match l with [] => ["0"%char] | _ => l end.

Definition digit_at (l : list ascii) (i : nat) : Z := digit_val (default "0"%char (l !! i)).

Definition decimalToUnits (v : list ascii) (decimals : nat) : option Z :=
  match v with
  | [] => None
  | _ =>
      let raw := List.filter (fun c => negb (is_space c || Ascii.eqb c ","%char)) v in
      if negb (decimal_text raw) then None else
      let neg := match raw with "-"%char :: _ => true | _ => false end in
      let x := match raw with c :: r => if is_sign c then r else raw | [] => raw end in
      let parts := split_on "."%char x in
      let i := or_zero (default [] (head parts)) in
      let f := default [] (parts !! 1%nat) in
      let padded := take (S decimals) (f ++ replicate (S decimals) "0"%char) in
      let frac := BigInt_digits_of (or_zero (take decimals padded)) in
      let whole := BigInt_digits_of i in
      let limit := 10 ^ Z.of_nat decimals in
      let '(whole, frac) :=
        if 5 <=? digit_at padded decimals then
          if limit <=? frac + 1 then (whole + 1, frac + 1 - limit) else (whole, frac + 1)
        else (whole, frac) in
      let units := whole * limit + frac in
      Some (if neg then - units else units)
  end.

(** [s.replace(/0+$/, '')] *)
Definition strip_zeros (l : list ascii) : list ascii := rev (drop_while (Ascii.eqb "0"%char) (rev l)).

(** The digits of the fraction, rounded to [maxFrac] of them, and the carry. *)
Definition frac_digits (rem : Z) (decimals maxFrac : nat) : list ascii * Z :=
  let fracFull := pad_start decimals "0"%char (decimal_digits rem) in
  if (maxFrac <? decimals)%nat then
    let headInt := BigInt_digits_of (or_zero (take maxFrac fracFull)) in
    let limit := 10 ^ Z.of_nat maxFrac in
    let '(headInt, carry) :=
      if 5 <=? digit_at fracFull maxFrac then
        if limit <=? headInt + 1 then (headInt + 1 - limit, 1) else (headInt + 1, 0)
      else (headInt, 0) in
    (pad_start maxFrac "0"%char (decimal_digits headInt), carry)
  else (pad_end maxFrac "0"%char fracFull, 0).

Definition formatAmount (amount : Z) (decimals minFrac maxFrac : nat) : list ascii :=
  let neg := amount <? 0 in
  let a := if neg then - amount else amount in
  let base := 10 ^ Z.of_nat decimals in
  let '(fracFull, carry) := frac_digits (a mod base) decimals maxFrac in
  let whole := a / base + carry in
  let trimmed := strip_zeros fracFull in
  let fracTrimmed :=
    if (length trimmed <? minFrac)%nat then take (Nat.max minFrac (Nat.min maxFrac (length fracFull))) fracFull
    else if (maxFrac <? length trimmed)%nat then take maxFrac trimmed else trimmed in
  let sign := if neg then ["-"%char] else [] in
  let wholeStr := withThousands (decimal_digits whole) in
  match fracTrimmed with [] => sign ++ wholeStr | _ => sign ++ wholeStr ++ "."%char :: fracTrimmed end.

(** The argument of the public formatters. *)
Inductive usdc_value :=
  | UnitsValue (n : Z)
  | TextValue (s : string).

(** The units of the argument, and what is shown when there are none. *)
Definition units_of (decimals : nat) (value : usdc_value) : option Z :=
  match value with UnitsValue n => Some n | TextValue s => decimalToUnits (chars s) decimals end.

Definition shown_raw (value : usdc_value) : string :=
  match value with TextValue s => s | UnitsValue _ => "—" end.

Section Formatters.
  Context (decimals : nat).

Definition formatUSDCAmount (value : usdc_value) : string :=
  match units_of decimals value with
  | None => shown_raw value
  | Some units => of_chars (formatAmount units decimals 0 6)
  end.

Definition exact_text (units : Z) : list ascii :=
  let neg := units <? 0 in
  let v := if neg then - units else units in
  let base := 10 ^ Z.of_nat decimals in
  let frac := strip_zeros (pad_start decimals "0"%char (decimal_digits (v mod base))) in
  let frac := if (length frac <? 2)%nat then pad_end 2 "0"%char frac else frac in
  (if neg then ["-"%char] else []) ++ decimal_digits (v / base) ++ "."%char :: frac.

Definition formatUSDCAmountExact (value : usdc_value) : string :=
  match units_of decimals value with
  | None => shown_raw value
  | Some units => of_chars (exact_text units)
  end.

Definition formatUSDCAmount2dp (value : usdc_value) : string :=
  match units_of decimals value with
  | None => shown_raw value
  | Some units => of_chars (formatAmount units decimals 2 2)
  end.

(** [units / truncFactor * truncFactor]: the division of bigints truncates. *)
Definition truncated (units : Z) : Z :=
  let truncFactor := 10 ^ Z.of_nat (decimals - 2) in Z.quot units truncFactor * truncFactor.

Definition formatUSDCAmount2dpTruncated (value : usdc_value) : string :=
  match units_of decimals value with
  | None => shown_raw value
  | Some units => of_chars (formatAmount (truncated units) decimals 2 2)
  end.

(** [s.replace(',', '.')]: the first comma. *)
Fixpoint replace_comma (l : list ascii) : list ascii :=
  match l with
  | [] => []
  | c :: l' => if Ascii.eqb c ","%char then "."%char :: l' else c :: replace_comma l'
  end.

(** The pattern of digits, an optional point, and digits. *)
Definition plain_decimal (v : list ascii) : bool :=
  match drop_while is_digit v with
  | [] => true
  | c :: r => Ascii.eqb c "."%char && forallb is_digit r
  end.

Definition parseUsdcAmount (raw : string) : option Z :=
  let v := trim_chars (replace_comma (chars raw)) in
  match v with
  | [] => None
  | _ =>
      if negb (plain_decimal v) then None else
      let parts := split_on "."%char v in
      let i := default [] (head parts) in
      let f := default [] (parts !! 1%nat) in
      let frac := take decimals (f ++ replicate decimals "0"%char) in
      Some (BigInt_digits_of (or_zero i) * 10 ^ Z.of_nat decimals + BigInt_digits_of (or_zero frac))
  end.
End Formatters.

(** ** Rounding *)

(** [x / y] rounded half up. *)
Definition round_half_up (x y : Z) : Z := (2 * x + y) / (2 * y).

(** [u] rounded to a multiple of [10^k], half away from zero. *)
Definition round_to (k : nat) (u : Z) : Z :=
  let r := round_half_up (Z.abs u) (10 ^ Z.of_nat k) * 10 ^ Z.of_nat k in if u <? 0 then - r else r.

Definition all_digits (l : list ascii) : Prop := Forall (fun c => is_digit c = true) l.

(** The digits [w] before the point and [f] after it, as an integer with [length f]
    decimals. *)
Definition numerator (w f : list ascii) : Z := decimal_value w * 10 ^ Z.of_nat (length f) + decimal_value f.

Lemma round_half_up_scale x y c : 0 < c -> 0 < y -> round_half_up (x * c) (y * c) = round_half_up x y.
Proof.
  intros Hc Hy. unfold round_half_up.
  replace (2 * (x * c) + y * c) with ((2 * x + y) * c) by lia. replace (2 * (y * c)) with (2 * y * c) by lia.
  apply Z.div_mul_cancel_r; lia.
Qed.

Lemma round_half_up_exact x y : 0 < y -> round_half_up (x * y) y = x.
Proof.
  intros Hy. unfold round_half_up. symmetry. apply (Z.div_unique _ _ _ y); lia.
Qed.

Lemma round_half_up_1 x : round_half_up x 1 = x.
Proof. rewrite <- (Z.mul_1_r x) at 1. by apply round_half_up_exact. Qed.

(** Rounding after cutting to one more digit. *)
Lemma round_half_up_next x y : 0 <= x -> 0 < y -> round_half_up x y = (x * 10 / y + 5) / 10.
Proof.
  intros Hx Hy. unfold round_half_up.
  replace ((x * 10 / y + 5) / 10) with ((x * 10 + 5 * y) / y / 10) by (by rewrite Z.div_add by lia).
  rewrite Z.div_div by lia. replace (x * 10 + 5 * y) with ((2 * x + y) * 5) by lia.
  replace (y * 10) with (2 * y * 5) by lia. symmetry. apply Z.div_mul_cancel_r; lia.
Qed.

Lemma round_half_up_near x y : 0 < y -> Z.abs (2 * (round_half_up x y * y - x)) <= y.
Proof.
  intros Hy. unfold round_half_up. pose proof (Z.div_mod (2 * x + y) (2 * y) ltac:(lia)) as E.
  pose proof (Z.mod_pos_bound (2 * x + y) (2 * y) ltac:(lia)). set (q := (2 * x + y) / (2 * y)) in *. nia.
Qed.

Lemma round_to_0 u : round_to 0 u = u.
Proof. unfold round_to. cbn. rewrite round_half_up_1. destruct (Z.ltb_spec u 0); lia. Qed.

Lemma round_to_near k u : Z.abs (2 * (round_to k u - u)) <= 10 ^ Z.of_nat k.
Proof.
  unfold round_to. pose proof (round_half_up_near (Z.abs u) (10 ^ Z.of_nat k) ltac:(lia)).
  destruct (Z.ltb_spec u 0); lia.
Qed.

(** ** Digits *)

Lemma digits_BigInt l : all_digits l -> BigInt_digits_of (or_zero l) = decimal_value l.
Proof. intros H. unfold BigInt_digits_of, or_zero. by rewrite (BigInt_frac l H). Qed.

Lemma all_digits_decimal n : 0 <= n -> all_digits (decimal_digits n).
Proof. intros Hn. apply (decimal_digits_spec n Hn). Qed.

Lemma numerator_zeros w f k :
  numerator w (f ++ replicate k "0"%char) = numerator w f * 10 ^ Z.of_nat k.
Proof.
  unfold numerator. rewrite decimal_value_app, decimal_value_zeros, length_app, length_replicate.
  rewrite Nat2Z.inj_add, Z.pow_add_r by lia. lia.
Qed.

Lemma drop_zeros l : exists k, l = replicate k "0"%char ++ drop_while (Ascii.eqb "0"%char) l.
Proof.
  induction l as [|c l [k IH]]; [by exists 0%nat|]. cbn [drop_while].
  destruct (Ascii.eqb_spec "0"%char c) as [<-|]; [exists (S k); cbn; by rewrite IH at 1|by exists 0%nat].
Qed.

Lemma rev_zeros k : rev (replicate k "0"%char) = replicate k "0"%char.
Proof. induction k as [|k IH]; [done|]. cbn. rewrite IH. symmetry. apply replicate_cons_app. Qed.

Lemma strip_zeros_spec l : exists k, l = strip_zeros l ++ replicate k "0"%char.
Proof.
  unfold strip_zeros. destruct (drop_zeros (rev l)) as [k Hk]. exists k.
  apply (f_equal (@rev ascii)) in Hk. rewrite rev_involutive, rev_app_distr, rev_zeros in Hk. exact Hk.
Qed.

Lemma all_digits_zeros k : all_digits (replicate k "0"%char).
Proof. by apply Forall_replicate. Qed.

Lemma pad_start_value n l : decimal_value (pad_start n "0"%char l) = decimal_value l.
Proof. unfold pad_start. by rewrite decimal_value_app, decimal_value_zeros. Qed.

Lemma pad_start_digits n l : all_digits l -> all_digits (pad_start n "0"%char l).
Proof. intros H. apply Forall_app. split; [apply all_digits_zeros|done]. Qed.

(** A number below [10^n] has at most [n] digits. *)
Lemma nat_digits_length fuel n acc k : 0 <= n < 10 ^ Z.of_nat k -> (0 < k)%nat ->
  (length (nat_digits fuel n acc) <= k + length acc)%nat.
Proof.
  revert n acc k. induction fuel as [|fuel IH]; intros n acc k Hn Hk; cbn [nat_digits]; [lia|].
  destruct (Z.ltb_spec n 10); [cbn; lia|].
  destruct k as [|[|k]]; [lia|change (10 ^ Z.of_nat 1) with 10 in Hn; lia|].
  assert (Hq : 0 <= n / 10 < 10 ^ Z.of_nat (S k)).
  { split; [apply Z.div_pos; lia|]. apply Z.div_lt_upper_bound; [lia|].
    rewrite <- Z.pow_succ_r, <- Nat2Z.inj_succ by lia. lia. }
  specialize (IH (n / 10) (digit_chr (n mod 10) :: acc) (S k) Hq ltac:(lia)). cbn in *. lia.
Qed.

Lemma decimal_digits_length n k : 0 <= n < 10 ^ Z.of_nat k -> (0 < k)%nat -> (length (decimal_digits n) <= k)%nat.
Proof. intros Hn Hk. unfold decimal_digits. pose proof (nat_digits_length (S (Z.to_nat (Z.log2 n))) n [] k Hn Hk). cbn in *. lia. Qed.

(** Padded to [k] digits, or the one digit of zero. *)
Definition fixed_digits (k : nat) (n : Z) : list ascii := pad_start k "0"%char (decimal_digits n).

Lemma fixed_digits_spec k n : 0 <= n < 10 ^ Z.of_nat k ->
  all_digits (fixed_digits k n) /\ decimal_value (fixed_digits k n) = n /\ length (fixed_digits k n) = Nat.max k 1.
Proof.
  intros Hn. destruct (decimal_digits_spec n ltac:(lia)) as (Hne & Hd & Hv). unfold fixed_digits. split_and!.
  - by apply pad_start_digits.
  - by rewrite pad_start_value.
  - unfold pad_start. rewrite length_app, length_replicate.
    destruct k as [|k]; [|pose proof (decimal_digits_length n (S k) Hn ltac:(lia)); lia].
    cbn in Hn. assert (n = 0) as -> by lia. done.
Qed.

(** ** Thousands *)

Lemma thousands_filter p inside l : p ","%char = false -> List.filter p (thousands inside l) = List.filter p l.
Proof.
  intros Hp. revert inside. induction l as [|c l IH]; intros inside; [done|]. cbn [thousands].
  destruct (inside && _ && _); cbn; by rewrite ?Hp, IH.
Qed.

(** ** Parsing *)

Definition kept (c : ascii) : bool := negb (is_space c || Ascii.eqb c ","%char).

Lemma digit_kept c : is_digit c = true -> kept c = true.
Proof.
  intros H. unfold kept. rewrite (digit_not_space c H). cbn. apply negb_true_iff.
  destruct (Ascii.eqb_spec c ","%char) as [->|]; [discriminate H|done].
Qed.

Lemma filter_all {A} (p : A -> bool) l : Forall (fun x => p x = true) l -> List.filter p l = l.
Proof. induction 1 as [|x l Hx _ IH]; [done|]. cbn. by rewrite Hx, IH. Qed.

Lemma digits_kept l : all_digits l -> List.filter kept l = l.
Proof. intros H. apply filter_all. exact (List.Forall_impl _ digit_kept H). Qed.

Lemma drop_digits w r : all_digits w -> match r with c :: _ => is_digit c = false | [] => True end ->
  drop_while is_digit (w ++ r) = r.
Proof.
  intros Hw Hr. induction Hw as [|c w Hc _ IH]; cbn [drop_while app]; [|by rewrite Hc].
  destruct r as [|c r]; [done|]. cbn [drop_while]. by rewrite Hr.
Qed.

Lemma forallb_digits l : all_digits l -> forallb is_digit l = true.
Proof. intros H. apply forallb_forall. intros c Hc. exact (proj1 (List.Forall_forall _ l) H c Hc). Qed.

Definition point_frac (fo : option (list ascii)) : list ascii :=
  match fo with Some f => "."%char :: f | None => [] end.

Lemma point_frac_head fo : match point_frac fo with c :: _ => is_digit c = false | [] => True end.
Proof. by destruct fo. Qed.

Lemma digits_point_ok w fo : all_digits w -> all_digits (default [] fo) ->
  match drop_while is_digit (w ++ point_frac fo) with
  | [] => true
  | c :: r => Ascii.eqb c "."%char && forallb is_digit r
  end = true.
Proof.
  intros Hw Hf. rewrite (drop_digits _ _ Hw (point_frac_head fo)). destruct fo as [f|]; [|done].
  cbn [point_frac]. rewrite Ascii.eqb_refl. by rewrite forallb_digits.
Qed.

(** A sign and a digit are different characters. *)
Lemma digit_not_sign c : is_digit c = true -> is_sign c = false /\ c <> "-"%char.
Proof.
  intros H. split; [|intros ->; discriminate H]. unfold is_sign.
  destruct (Ascii.eqb_spec c "-"%char) as [->|]; [discriminate H|].
  destruct (Ascii.eqb_spec c "+"%char) as [->|]; [discriminate H|done].
Qed.

Definition minus (neg : bool) : list ascii := if neg then ["-"%char] else [].

Lemma signed_head neg w r : w <> [] -> all_digits w ->
  let raw := minus neg ++ w ++ r in
  (match raw with c :: r => if is_sign c then r else raw | [] => raw end) = w ++ r /\
  (match raw with "-"%char :: _ => true | _ => false end) = neg.
Proof.
  intros Hne Hw raw. destruct neg; [done|]. destruct Hw as [|c w Hc Hw]; [done|]. subst raw. cbn [minus app].
  destruct (digit_not_sign c Hc) as [-> Hm]. split; [done|]. exact (digit_head_not_minus (c :: w) ltac:(done) ltac:(by constructor) r).
Qed.

(** Padding with more zeros than needed changes nothing before the cut. *)
Lemma take_padded n f : take n (f ++ replicate n "0"%char) = take n (pad_end n "0"%char f).
Proof.
  unfold pad_end. destruct (decide (length f <= n)%nat) as [Hle|Hgt]; [|by rewrite !take_app_le by lia].
  rewrite <- (take_drop (n - length f) (replicate n "0"%char)) at 1.
  rewrite take_replicate, Nat.min_l by lia. rewrite app_assoc, take_app_le; [done|].
  rewrite length_app, length_replicate. lia.
Qed.

(** The digits cut to one more than the decimals, rounded. *)
Lemma cut_and_round d f : all_digits f ->
  let padded := take (S d) (f ++ replicate (S d) "0"%char) in
  all_digits padded /\ length padded = S d /\
  decimal_value (take d padded) + (if 5 <=? digit_at padded d then 1 else 0)
    = round_half_up (decimal_value f * 10 ^ Z.of_nat d) (10 ^ Z.of_nat (length f)).
Proof.
  intros Hf padded.
  assert (Hpad : padded = take (S d) (pad_end (S d) "0"%char f)) by apply take_padded.
  assert (Hall : all_digits padded) by (rewrite Hpad; by apply pad_take_digits).
  assert (Hlen : length padded = S d) by (unfold padded; rewrite length_take, length_app, length_replicate; lia).
  split_and!; [done|done|].
  rewrite round_half_up_next by (pose proof (decimal_value_range f Hf); lia).
  replace (decimal_value f * 10 ^ Z.of_nat d * 10) with (decimal_value f * 10 ^ Z.of_nat (S d))
    by (rewrite Nat2Z.inj_succ, Z.pow_succ_r by lia; lia).
  rewrite <- pad_take_value by done. rewrite <- Hpad.
  destruct (lookup_lt_is_Some_2 padded d ltac:(lia)) as [c Hc].
  assert (Hsplit : padded = take d padded ++ [c]).
  { rewrite <- (take_drop d padded) at 1. f_equal. apply drop_S in Hc. rewrite Hc. f_equal.
    apply length_zero_iff_nil. rewrite length_drop. lia. }
  assert (Hdigit : digit_at padded d = digit_val c) by (unfold digit_at; by rewrite Hc).
  rewrite Hdigit. rewrite Hsplit at 2. rewrite decimal_value_app. cbn [length].
  assert (Hcv : decimal_value [c] = digit_val c) by (unfold decimal_value, digits_value; cbn; lia). rewrite Hcv.
  pose proof (digit_val_range c (Forall_lookup_1 _ _ _ _ Hall Hc)) as Hr.
  change (10 ^ Z.of_nat 1) with 10. set (h := decimal_value (take d padded)).
  destruct (Z.leb_spec 5 (digit_val c)).
  - apply (Z.div_unique _ _ _ (digit_val c - 5)); lia.
  - apply (Z.div_unique _ _ _ (digit_val c + 5)); lia.
Qed.

(** What [decimalToUnits] answers for a sign, digits and a fraction, with any
    thousands separators and spaces in between. *)
Lemma decimalToUnits_text d v neg w fo :
  v <> [] -> List.filter kept v = minus neg ++ w ++ point_frac fo ->
  w <> [] -> all_digits w -> all_digits (default [] fo) ->
  let f := default [] fo in
  let r := round_half_up (numerator w f * 10 ^ Z.of_nat d) (10 ^ Z.of_nat (length f)) in
  decimalToUnits v d = Some (if neg then - r else r).
Proof.
  intros Hv Hraw Hne Hw Hf f r. unfold decimalToUnits. destruct v as [|c0 v0]; [done|].
  change (fun c => negb (is_space c || Ascii.eqb c ","%char)) with kept. rewrite Hraw.
  destruct (signed_head neg w (point_frac fo) Hne Hw) as [Hx Hneg].
  unfold decimal_text. rewrite Hx, Hneg, (digits_point_ok w fo Hw Hf). cbn [negb].
  destruct (toUnits_unsigned w fo Hne Hw Hf) as [E1 E2]. fold (point_frac fo) in E1, E2.
  rewrite E1, E2. fold f.
  destruct (cut_and_round d f Hf) as (Hall & Hlen & Hround).
  set (padded := take (S d) (f ++ replicate (S d) "0"%char)) in *.
  rewrite (digits_BigInt (take d padded)) by (by apply Forall_take). rewrite (digits_BigInt w Hw).
  set (limit := 10 ^ Z.of_nat d) in *. set (h := decimal_value (take d padded)) in *.
  set (R := round_half_up (decimal_value f * limit) (10 ^ Z.of_nat (length f))) in *.
  assert (Hr : r = decimal_value w * limit + R).
  { subst r R. unfold numerator, round_half_up.
    set (L := 10 ^ Z.of_nat (length f)). assert (0 < L) by (unfold L; lia).
    replace (2 * ((decimal_value w * L + decimal_value f) * limit) + L)
      with (decimal_value w * limit * (2 * L) + (2 * (decimal_value f * limit) + L)) by ring.
    by rewrite Z.div_add_l by lia. }
  rewrite Hr, <- Hround.
  destruct (5 <=? digit_at padded d); [destruct (limit <=? h + 1)|]; destruct neg; f_equal; lia.
Qed.

(** ** Formatting *)

Lemma round_half_up_add q x y : 0 < y -> round_half_up (q * y + x) y = q + round_half_up x y.
Proof.
  intros Hy. unfold round_half_up. replace (2 * (q * y + x) + y) with (q * (2 * y) + (2 * x + y)) by ring.
  by rewrite Z.div_add_l by lia.
Qed.

Lemma pow10_split a b : (b <= a)%nat -> 10 ^ Z.of_nat a = 10 ^ Z.of_nat b * 10 ^ Z.of_nat (a - b).
Proof. intros H. rewrite <- Z.pow_add_r by lia. f_equal. lia. Qed.

(** Rounded digits and carry, as a number with as many decimals as digits. *)
Lemma frac_digits_spec rem d M : 0 <= rem < 10 ^ Z.of_nat d ->
  let '(g, carry) := frac_digits rem d M in
  all_digits g /\ length g = Nat.max M 1 /\ (M = 0%nat -> g = ["0"%char]) /\ 0 <= carry /\
  (carry * 10 ^ Z.of_nat (length g) + decimal_value g) * 10 ^ Z.of_nat d
    = round_half_up rem (10 ^ Z.of_nat (d - M)) * 10 ^ Z.of_nat (d - M) * 10 ^ Z.of_nat (length g).
Proof.
  intros Hrem. unfold frac_digits. destruct (fixed_digits_spec d rem Hrem) as (Hd & Hv & Hl).
  fold (fixed_digits d rem). set (g0 := fixed_digits d rem) in *.
  destruct (Nat.ltb_spec M d) as [HM|HM].
  - destruct (cut_and_round M g0 Hd) as (_ & _ & Hround). cbn [Nat.add] in Hround.
    assert (Htake : forall n, (n <= S M)%nat -> take n (take (S M) (g0 ++ replicate (S M) "0"%char)) = take n g0).
    { intros n Hn. rewrite take_take, Nat.min_l by lia. apply take_app_le. lia. }
    assert (Hat : digit_at (take (S M) (g0 ++ replicate (S M) "0"%char)) M = digit_at g0 M).
    { unfold digit_at. rewrite lookup_take_lt by lia. by rewrite lookup_app_l by lia. }
    rewrite Htake, Hat in Hround by lia. rewrite Hv, Hl in Hround.
    replace (Nat.max d 1) with d in Hround by lia.
    rewrite (pow10_split d M), Z.mul_comm in Hround by lia.
    rewrite (Z.mul_comm (10 ^ Z.of_nat M) rem), (Z.mul_comm (10 ^ Z.of_nat M)) in Hround.
    rewrite round_half_up_scale in Hround by lia.
    rewrite (digits_BigInt (take M g0)) by (by apply Forall_take).
    pose proof (decimal_value_range (take M g0) ltac:(by apply Forall_take)) as Hh.
    rewrite length_take, Nat.min_l in Hh by lia.
    set (h := decimal_value (take M g0)) in *. set (R := round_half_up rem (10 ^ Z.of_nat (d - M))) in *.
    assert (Hgoal : forall hi carry, 0 <= hi < 10 ^ Z.of_nat M -> 0 <= carry -> carry * 10 ^ Z.of_nat M + hi = R ->
      all_digits (fixed_digits M hi) /\ length (fixed_digits M hi) = Nat.max M 1 /\
      (M = 0%nat -> fixed_digits M hi = ["0"%char]) /\ 0 <= carry /\
      (carry * 10 ^ Z.of_nat (length (fixed_digits M hi)) + decimal_value (fixed_digits M hi)) * 10 ^ Z.of_nat d
        = R * 10 ^ Z.of_nat (d - M) * 10 ^ Z.of_nat (length (fixed_digits M hi))).
    { intros hi carry Hhi Hc HR. destruct (fixed_digits_spec M hi Hhi) as (? & -> & ->). split_and!; [done|done| |done|].
      { intros ->. cbn in Hhi. by assert (hi = 0) as -> by lia. }
      rewrite (pow10_split d M) by lia. rewrite <- HR. destruct M as [|M]; [|rewrite Nat.max_l by lia; ring].
      cbn in Hhi. assert (hi = 0) as -> by lia. cbn. ring. }
    fold (fixed_digits M h). destruct (5 <=? digit_at g0 M); [destruct (Z.leb_spec (10 ^ Z.of_nat M) (h + 1))|].
    + apply Hgoal; lia.
    + apply Hgoal; lia.
    + apply Hgoal; lia.
  - replace (d - M)%nat with 0%nat by lia. change (10 ^ Z.of_nat 0) with 1. rewrite round_half_up_1.
    unfold pad_end. split_and!.
    + apply Forall_app. split; [done|apply all_digits_zeros].
    + rewrite length_app, length_replicate. lia.
    + intros ->. assert (d = 0%nat) as -> by lia. cbn in Hrem. by assert (rem = 0) as -> by lia.
    + lia.
    + rewrite decimal_value_app, decimal_value_zeros, length_app, length_replicate, Hv.
      set (z := (M - length g0)%nat). rewrite Nat2Z.inj_add, Z.pow_add_r by lia.
      destruct d as [|d]; [cbn in Hrem; assert (rem = 0) as -> by lia; lia|].
      rewrite Hl. rewrite Nat.max_l by lia. ring.
Qed.

(** The fraction shown is the rounded one, with or without its trailing zeros. *)
Lemma frac_shown g m M : length g = Nat.max M 1 -> (M = 0%nat -> g = ["0"%char]) ->
  exists t z, g = t ++ replicate z "0"%char /\
  (if (length (strip_zeros g) <? m)%nat then take (Nat.max m (Nat.min M (length g))) g
   else if (M <? length (strip_zeros g))%nat then take M (strip_zeros g) else strip_zeros g) = t.
Proof.
  intros Hl H0. destruct (strip_zeros_spec g) as [z Hz].
  destruct (Nat.ltb_spec (length (strip_zeros g)) m) as [Hm|Hm].
  - exists g, 0%nat. split; [by rewrite app_nil_r|]. apply take_ge. lia.
  - destruct (Nat.ltb_spec M (length (strip_zeros g))) as [HM|HM]; [|by exists (strip_zeros g), z].
    assert (Hlen : length g = (length (strip_zeros g) + z)%nat) by (rewrite Hz at 1; by rewrite length_app, length_replicate).
    assert (M = 0%nat) as -> by lia. rewrite H0 in HM by done. cbn in HM. lia.
Qed.

Lemma formatAmount_text u d m M :
  exists W fo, 0 <= W /\ all_digits (default [] fo) /\
  formatAmount u d m M = minus (u <? 0) ++ withThousands (decimal_digits W) ++ point_frac fo /\
  numerator (decimal_digits W) (default [] fo) * 10 ^ Z.of_nat d
    = Z.abs (round_to (d - M) u) * 10 ^ Z.of_nat (length (default [] fo)).
Proof.
  unfold formatAmount. set (base := 10 ^ Z.of_nat d). assert (Hb : 0 < base) by (unfold base; lia).
  replace (if u <? 0 then - u else u) with (Z.abs u) by (destruct (Z.ltb_spec u 0); lia).
  pose proof (frac_digits_spec (Z.abs u mod base) d M (Z.mod_pos_bound _ _ Hb)) as H.
  destruct (frac_digits (Z.abs u mod base) d M) as [g carry]. destruct H as (Hg & Hl & H0 & Hc & Hval).
  destruct (frac_shown g m M Hl H0) as (t & z & Hgt & ->).
  set (W := Z.abs u / base + carry). assert (HW : 0 <= W) by (unfold W; pose proof (Z.div_pos (Z.abs u) base); lia).
  assert (Ht : all_digits t) by (rewrite Hgt in Hg; by apply Forall_app in Hg as [? _]).
  exists W, (match t with [] => None | _ => Some t end).
  replace (default [] (match t with [] => None | _ => Some t end)) with t by (by destruct t).
  split_and!; [done|done|destruct t; cbn [point_frac]; by rewrite ?app_nil_r|].
  assert (Hround : Z.abs (round_to (d - M) u) = Z.abs u / base * base
            + round_half_up (Z.abs u mod base) (10 ^ Z.of_nat (d - M)) * 10 ^ Z.of_nat (d - M)).
  { set (y := 10 ^ Z.of_nat (d - M)) in *. assert (Hy : 0 < y) by (unfold y; lia).
    assert (Hby : exists c, base = c * y).
    { destruct (decide (M <= d)%nat); [exists (10 ^ Z.of_nat M); unfold base, y; by apply pow10_split|].
      exists base. unfold y. replace (d - M)%nat with 0%nat by lia. cbn. lia. }
    destruct Hby as [c Hcy].
    assert (Hsum : round_half_up (Z.abs u) y = Z.abs u / base * c + round_half_up (Z.abs u mod base) y).
    { rewrite <- round_half_up_add by done. f_equal.
      rewrite <- Z.mul_assoc, <- Hcy. pose proof (Z.div_mod (Z.abs u) base). lia. }
    assert (0 <= round_half_up (Z.abs u) y) by (unfold round_half_up; apply Z.div_pos; lia).
    unfold round_to. fold y. replace (Z.abs (if u <? 0 then _ else _)) with (round_half_up (Z.abs u) y * y) by (destruct (u <? 0); lia).
    by rewrite Hsum, Z.mul_add_distr_r, <- Z.mul_assoc, <- Hcy. }
  rewrite Hround. unfold numerator. destruct (decimal_digits_spec W HW) as (_ & _ & ->).
  rewrite Hgt in Hval. rewrite decimal_value_app, decimal_value_zeros, length_app, length_replicate in Hval.
  rewrite Nat2Z.inj_add, Z.pow_add_r in Hval by lia. fold base in Hval.
  set (E := 10 ^ Z.of_nat (length t)) in *. set (F := 10 ^ Z.of_nat z) in *. assert (HF : 0 < F) by (unfold F; lia).
  set (R := round_half_up _ _ * _) in *. unfold W. fold base.
  apply (Z.mul_reg_r _ _ F); [lia|]. nia.
Qed.

(** What is shown of an amount parses back to it, rounded to the decimals shown. *)
Lemma parse_formatAmount u d m M : decimalToUnits (formatAmount u d m M) d = Some (round_to (d - M) u).
Proof.
  destruct (formatAmount_text u d m M) as (W & fo & HW & Hf & -> & Hval).
  destruct (decimal_digits_spec W HW) as (Hne & Hd & _).
  assert (Hcons : withThousands (decimal_digits W) <> []).
  { unfold withThousands. destruct (decimal_digits W); [done|]. cbn [thousands]. by destruct (_ && _ && _). }
  rewrite (decimalToUnits_text d _ (u <? 0) (decimal_digits W) fo); [|..|done|done|done].
  - rewrite Hval, round_half_up_exact by lia. unfold round_to.
    set (r := round_half_up _ _ * _). assert (0 <= r).
    { unfold r, round_half_up. pose proof (Z.div_pos (2 * Z.abs u + 10 ^ Z.of_nat (d - M)) (2 * 10 ^ Z.of_nat (d - M))). lia. }
    destruct (u <? 0); f_equal; lia.
  - destruct (u <? 0), (withThousands (decimal_digits W)); done.
  - rewrite !List.filter_app. unfold withThousands. rewrite thousands_filter by reflexivity. rewrite (digits_kept _ Hd).
    f_equal; [by destruct (u <? 0)|]. f_equal. destruct fo as [f|]; [|done]. cbn. by rewrite (digits_kept f Hf).
Qed.

(** The other parser, on digits and a fraction. *)
Lemma replace_comma_none l : Forall (fun c => c <> ","%char) l -> replace_comma l = l.
Proof.
  induction 1 as [|c l Hc _ IH]; [done|]. cbn [replace_comma].
  destruct (Ascii.eqb_spec c ","%char); [done|]. by rewrite IH.
Qed.

Lemma replace_comma_first l r : Forall (fun c => c <> ","%char) l -> replace_comma (l ++ ","%char :: r) = l ++ "."%char :: r.
Proof.
  induction 1 as [|c l Hc _ IH]; [done|]. cbn [replace_comma app].
  destruct (Ascii.eqb_spec c ","%char); [done|]. by rewrite IH.
Qed.

Lemma digits_no_comma l : all_digits l -> Forall (fun c => c <> ","%char) l.
Proof. intros H. exact (List.Forall_impl _ (fun c Hc => digit_not_char c ","%char Hc eq_refl) H). Qed.

Lemma digits_point_no_space w fo : all_digits w -> all_digits (default [] fo) ->
  Forall (fun c => is_space c = false) (w ++ point_frac fo).
Proof.
  intros Hw Hf. apply Forall_app. split; [exact (List.Forall_impl _ digit_not_space Hw)|].
  destruct fo as [f|]; [|done]. constructor; [done|]. exact (List.Forall_impl _ digit_not_space Hf).
Qed.

Lemma parseUsdcAmount_text d raw w fo : replace_comma (chars raw) = w ++ point_frac fo ->
  w <> [] -> all_digits w -> all_digits (default [] fo) ->
  parseUsdcAmount d raw = Some (numeral_units d {| num_neg := false; num_whole := w; num_frac := fo |}).
Proof.
  intros Hraw Hne Hw Hf. unfold parseUsdcAmount. rewrite Hraw, trim_chars_no_space by (by apply digits_point_no_space).
  unfold plain_decimal. rewrite (digits_point_ok w fo Hw Hf). cbn [negb].
  destruct (toUnits_unsigned w fo Hne Hw Hf) as [E1 E2]. fold (point_frac fo) in E1, E2. rewrite E1, E2, take_padded.
  rewrite (digits_BigInt w Hw), (digits_BigInt (take d _)) by (by apply pad_take_digits).
  rewrite pad_take_value by done. destruct (w ++ point_frac fo) eqn:E; [by destruct w|]. f_equal.
  unfold numeral_units. cbn [num_neg num_whole num_frac]. rewrite decimal_value_app, Z.mul_add_distr_r.
  set (L := 10 ^ Z.of_nat (length (default [] fo))).
  replace (decimal_value w * L * 10 ^ Z.of_nat d) with (decimal_value w * 10 ^ Z.of_nat d * L) by ring.
  by rewrite Z.div_add_l by (unfold L; lia).
Qed.

(** The exact text: the digits of the amount, and a fraction of two digits or more. *)
Lemma exact_text_spec d u : exists f, exact_text d u = minus (u <? 0) ++ decimal_digits (Z.abs u / 10 ^ Z.of_nat d) ++ "."%char :: f /\
  all_digits f /\ numerator (decimal_digits (Z.abs u / 10 ^ Z.of_nat d)) f * 10 ^ Z.of_nat d = Z.abs u * 10 ^ Z.of_nat (length f).
Proof.
  unfold exact_text. set (base := 10 ^ Z.of_nat d). assert (Hb : 0 < base) by (unfold base; lia).
  replace (if u <? 0 then - u else u) with (Z.abs u) by (destruct (Z.ltb_spec u 0); lia).
  pose proof (Z.mod_pos_bound (Z.abs u) base Hb) as Hr. destruct (fixed_digits_spec d (Z.abs u mod base) Hr) as (Hd & Hv & Hl).
  fold (fixed_digits d (Z.abs u mod base)). set (g := fixed_digits d (Z.abs u mod base)) in *.
  destruct (strip_zeros_spec g) as [z Hz]. set (t := strip_zeros g) in *.
  assert (Ht : all_digits t) by (rewrite Hz in Hd; by apply Forall_app in Hd as [? _]).
  assert (Hq : 0 <= Z.abs u / base) by (apply Z.div_pos; lia).
  destruct (decimal_digits_spec _ Hq) as (_ & _ & Hw).
  assert (Htz : numerator (decimal_digits (Z.abs u / base)) t * base = Z.abs u * 10 ^ Z.of_nat (length t)).
  { assert (Hg : numerator (decimal_digits (Z.abs u / base)) g * base = Z.abs u * 10 ^ Z.of_nat (length g)).
    { unfold numerator. rewrite Hv, Hw, Hl. pose proof (Z.div_mod (Z.abs u) base ltac:(lia)) as E.
      destruct d as [|d].
      - change base with 1 in *. rewrite Z.mod_1_r, Z.div_1_r in *. lia.
      - rewrite Nat.max_l by lia. fold base. nia. }
    rewrite Hz in Hg. rewrite numerator_zeros, length_app, length_replicate, Nat2Z.inj_add, Z.pow_add_r in Hg by lia.
    apply (Z.mul_reg_r _ _ (10 ^ Z.of_nat z)); [lia|]. lia. }
  destruct (Nat.ltb_spec (length t) 2).
  - exists (pad_end 2 "0"%char t). unfold pad_end. split_and!; [done|apply Forall_app; split; [done|apply all_digits_zeros]|].
    rewrite numerator_zeros, length_app, length_replicate, Nat2Z.inj_add, Z.pow_add_r by lia. nia.
  - by exists t.
Qed.

Lemma parse_exact d u : decimalToUnits (exact_text d u) d = Some u.
Proof.
  destruct (exact_text_spec d u) as (f & -> & Hf & Hval). set (W := Z.abs u / 10 ^ Z.of_nat d) in *.
  destruct (decimal_digits_spec W) as (Hne & Hd & _); [unfold W; apply Z.div_pos; lia|].
  change ("."%char :: f) with (point_frac (Some f)).
  rewrite (decimalToUnits_text d _ (u <? 0) (decimal_digits W) (Some f)); [|..|done|done|done]; change (default [] (Some f)) with f.
  - rewrite Hval, round_half_up_exact by lia. destruct (Z.ltb_spec u 0); f_equal; lia.
  - destruct (u <? 0), (decimal_digits W); done.
  - rewrite !List.filter_app, (digits_kept _ Hd). f_equal; [by destruct (u <? 0)|]. f_equal.
    cbn. by rewrite (digits_kept f Hf).
Qed.

Lemma typed_exact d u : parseUsdcAmount d (of_chars (exact_text d u)) = if u <? 0 then None else Some u.
Proof.
  destruct (exact_text_spec d u) as (f & E & Hf & Hval). rewrite E. set (W := Z.abs u / 10 ^ Z.of_nat d) in *.
  destruct (decimal_digits_spec W) as (Hne & Hd & _); [unfold W; apply Z.div_pos; lia|].
  change ("."%char :: f) with (point_frac (Some f)) in *.
  assert (Hcomma : replace_comma (minus (u <? 0) ++ decimal_digits W ++ point_frac (Some f))
                   = minus (u <? 0) ++ decimal_digits W ++ point_frac (Some f)).
  { apply replace_comma_none. repeat (apply Forall_app; split); [by destruct (u <? 0); repeat constructor|by apply digits_no_comma|].
    constructor; [done|by apply digits_no_comma]. }
  destruct (Z.ltb_spec u 0).
  - unfold parseUsdcAmount. rewrite chars_of_chars, Hcomma. cbn [minus app].
    rewrite trim_chars_no_space; [done|]. constructor; [done|]. by apply (digits_point_no_space _ (Some f)).
  - rewrite (parseUsdcAmount_text d _ (decimal_digits W) (Some f)); [|by rewrite chars_of_chars|done..].
    unfold numeral_units. cbn [num_neg num_whole num_frac]. change (default [] (Some f)) with f. f_equal.
    unfold numerator in Hval. rewrite decimal_value_app, Hval, Z.div_mul by lia. lia.
Qed.

Lemma round_to_multiple k c : round_to k (c * 10 ^ Z.of_nat k) = c * 10 ^ Z.of_nat k.
Proof.
  unfold round_to. set (y := 10 ^ Z.of_nat k). assert (Hy : 0 < y) by (unfold y; lia).
  rewrite Z.abs_mul, (Z.abs_eq y), round_half_up_exact by lia. destruct (Z.ltb_spec (c * y) 0); nia.
Qed.

Lemma truncated_spec d u :
  Z.abs (truncated d u) <= Z.abs u < Z.abs (truncated d u) + 10 ^ Z.of_nat (d - 2) /\ 0 <= truncated d u * u.
Proof.
  unfold truncated. set (y := 10 ^ Z.of_nat (d - 2)). assert (Hy : 0 < y) by (unfold y; lia).
  pose proof (Z.quot_rem' u y) as E. destruct (Z.lt_ge_cases u 0) as [Hu|Hu].
  - pose proof (Z.rem_bound_pos_neg u y Hy ltac:(lia)).
    assert (Hq : Z.quot u y <= 0) by nia. assert (Z.quot u y * y <= 0) by nia. split; [lia|nia].
  - pose proof (Z.rem_bound_pos u y Hu Hy).
    assert (Hq : 0 <= Z.quot u y) by nia. assert (0 <= Z.quot u y * y) by nia. split; [lia|nia].
Qed.

(** The units and the rounded units of a number differ by one at most. *)
Lemma round_half_up_bracket x y : 0 <= x -> 0 < y -> 0 <= x / y <= round_half_up x y /\ round_half_up x y <= x / y + 1.
Proof.
  intros Hx Hy. pose proof (Z.div_pos x y Hx Hy). unfold round_half_up. pose proof (Z.div_mod x y ltac:(lia)) as E.
  pose proof (Z.mod_pos_bound x y Hy). set (q := x / y) in *.
  split_and!; [done|apply Z.div_le_lower_bound; nia|]. apply Z.lt_succ_r, Z.div_lt_upper_bound; nia.
Qed.

Lemma replace_comma_numeral w fo : all_digits w -> all_digits (default [] fo) ->
  replace_comma (minus false ++ w ++ point_frac fo) = w ++ point_frac fo.
Proof.
  intros Hw Hf. apply replace_comma_none, Forall_app. split; [by apply digits_no_comma|].
  destruct fo as [f|]; [|done]. constructor; [done|by apply digits_no_comma].
Qed.

Lemma parse_negative d n : numeral_ok n -> num_neg n = true -> parseUsdcAmount d (numeral_text n) = None.
Proof.
  intros (Hne & Hw & Hf) Hn. unfold parseUsdcAmount, numeral_text. rewrite Hn, chars_of_chars.
  fold (point_frac (num_frac n)). cbn [app replace_comma]. pose proof (replace_comma_numeral _ _ Hw Hf) as E. cbn [minus app] in E.
  replace (Ascii.eqb "-" ",") with false by done. rewrite E.
  rewrite trim_chars_no_space; [done|]. constructor; [done|]. by apply digits_point_no_space.
Qed.

(** ** Properties *)

(** C32. What the screen shows of an amount, read back. The flexible format gives
    the amount rounded, half away from zero, to six decimals - on Stellar, where the
    token has seven, that is not always the amount itself - and the format with two
    decimals rounds it to two. The exact format gives the amount back, through the
    formatter's parser and, when it is not negative, through the parser of what a
    user types. The truncated format never shows more than the amount, and less by
    under a hundredth. *)
Theorem amounts_shown (decimals : nat) (u : Z) :
  decimalToUnits (chars (formatUSDCAmount decimals (UnitsValue u))) decimals = Some (round_to (decimals - 6) u) /\
  decimalToUnits (chars (formatUSDCAmount2dp decimals (UnitsValue u))) decimals = Some (round_to (decimals - 2) u) /\
  decimalToUnits (chars (formatUSDCAmountExact decimals (UnitsValue u))) decimals = Some u /\
  parseUsdcAmount decimals (formatUSDCAmountExact decimals (UnitsValue u)) = (if u <? 0 then None else Some u) /\
  exists t, decimalToUnits (chars (formatUSDCAmount2dpTruncated decimals (UnitsValue u))) decimals = Some t /\
    Z.abs t <= Z.abs u < Z.abs t + 10 ^ Z.of_nat (decimals - 2) /\ 0 <= t * u.
Proof.
  unfold formatUSDCAmount, formatUSDCAmount2dp, formatUSDCAmountExact, formatUSDCAmount2dpTruncated. cbn [units_of].
  rewrite !chars_of_chars, !parse_formatAmount, parse_exact, typed_exact. split_and!; [done..|].
  exists (truncated decimals u). split; [|apply truncated_spec]. f_equal. apply round_to_multiple.
Qed.

(** The text of an unsigned numeral with a decimal comma. *)
Definition comma_text (n : numeral) : string :=
  of_chars (num_whole n ++ match num_frac n with Some f => ","%char :: f | None => [] end).

(** C33. The same number on both sides. Of a plain decimal numeral, the amount typed
    on the screen, with a point or a comma, and the amount the backend reads from the
    text are the same units, both cut after the token's decimals; a negative amount
    is refused on the screen. The formatter's own parser rounds instead: it agrees as
    long as the numeral has no more decimals than the token, and is off by at most
    one unit otherwise. *)
Theorem parsers_agree (decimals : nat) (n : numeral) (Hok : numeral_ok n) :
  let u := numeral_units decimals n in exists v,
    toUnits decimals (AString (numeral_text n)) = Ok u /\
    parseUsdcAmount decimals (numeral_text n) = (if num_neg n then None else Some u) /\
    parseUsdcAmount decimals (comma_text n) = Some (Z.abs u) /\
    decimalToUnits (chars (numeral_text n)) decimals = Some v /\
    Z.abs u <= Z.abs v <= Z.abs u + 1 /\ 0 <= u * v /\
    ((length (default [] (num_frac n)) <= decimals)%nat -> v = u).
Proof.
  destruct Hok as (Hne & Hw & Hf). set (f := default [] (num_frac n)) in *.
  set (X := numerator (num_whole n) f * 10 ^ Z.of_nat decimals). set (L := 10 ^ Z.of_nat (length f)).
  assert (HX : 0 <= X).
  { pose proof (decimal_value_range _ Hw). pose proof (decimal_value_range _ Hf). unfold X, numerator. nia. }
  assert (HL : 0 < L) by (unfold L; lia).
  assert (Hu : numeral_units decimals n = if num_neg n then - (X / L) else X / L).
  { unfold numeral_units, X, numerator. by rewrite decimal_value_app. }
  assert (Habs : Z.abs (numeral_units decimals n) = X / L)
    by (rewrite Hu; pose proof (Z.div_pos X L HX HL); destruct (num_neg n); lia).
  intros u. unfold u. clear u. exists (if num_neg n then - round_half_up X L else round_half_up X L).
  split; [by apply toUnits_string_numeral|]. split.
  { destruct (num_neg n) eqn:En; [by apply parse_negative|].
    rewrite (parseUsdcAmount_text decimals _ (num_whole n) (num_frac n)); [by rewrite <- En; destruct n|..|done|done|done].
    unfold numeral_text. rewrite En, chars_of_chars. by apply replace_comma_numeral. }
  split.
  { rewrite Habs, (parseUsdcAmount_text decimals _ (num_whole n) (num_frac n)); [|..|done|done|done].
    - f_equal. unfold numeral_units, X, numerator. cbn [num_neg num_whole num_frac]. by rewrite decimal_value_app.
    - unfold comma_text. rewrite chars_of_chars. destruct (num_frac n) as [g|].
      + apply replace_comma_first. by apply digits_no_comma.
      + cbn [point_frac]. rewrite app_nil_r. apply replace_comma_none. by apply digits_no_comma. }
  split.
  { apply (decimalToUnits_text decimals _ (num_neg n) (num_whole n) (num_frac n)); [|..|done|done|done];
      unfold numeral_text; rewrite chars_of_chars; fold (minus (num_neg n)); fold (point_frac (num_frac n)).
    - destruct (num_neg n), (num_whole n); done.
    - rewrite !List.filter_app, (digits_kept _ Hw). f_equal; [by destruct (num_neg n)|]. f_equal.
      subst f. destruct (num_frac n) as [g|]; [|done]. cbn. by rewrite (digits_kept g Hf). }
  rewrite Habs. pose proof (round_half_up_bracket X L HX HL) as Hr.
  split_and!; [destruct (num_neg n); lia..|rewrite Hu; destruct (num_neg n); nia|].
  intros Hlen. rewrite Hu. replace (round_half_up X L) with (X / L); [done|].
  unfold X. rewrite (pow10_split decimals (length f)) by done. fold L.
  set (q := 10 ^ Z.of_nat (decimals - length f)).
  replace (numerator (num_whole n) f * (L * q)) with (numerator (num_whole n) f * q * L) by ring.
  by rewrite round_half_up_exact, Z.div_mul by lia.
Qed.

Lemma parsers_agree_witness :
  numeral_text {| num_neg := false; num_whole := ["1"; "2"]%char; num_frac := Some ["5"]%char |} = "12.5"%string /\
  toUnits 7 (AString "12.5") = Ok 125000000 /\ parseUsdcAmount 7 "12.5" = Some 125000000 /\
  parseUsdcAmount 7 "12,5" = Some 125000000 /\ decimalToUnits (chars "12.5") 7 = Some 125000000.
Proof.
  split; [reflexivity|].
  destruct (parsers_agree 7 {| num_neg := false; num_whole := ["1"; "2"]%char; num_frac := Some ["5"]%char |}
    ltac:(split_and!; [done|repeat constructor|repeat constructor])) as (v & H1 & H2 & H3 & H4 & _ & _ & H5).
  split_and!; [exact H1|exact H2|exact H3|]. etransitivity; [exact H4|]. f_equal. apply H5. cbn. lia.
Defined.
