(* ===== verification/PendingQueue.v ===== *)
(** * What the browser still has to tell the backend
      ([frontend/src/lib/repaymentQueue.ts], [loanOpenQueue.ts], [wallet-address.ts],
      [retryWithBackoff.ts])

    A repayment or an opening is confirmed on chain before the backend hears of it,
    so the wallet keeps it in the local storage until the backend has answered. The
    two queues are the same code on two keys: they are written once here, over the
    key, and instantiated twice. Every operation is synchronous, so the handlers of one
    page never come between its read and its write: for them it is one step. Another
    page of the same origin may, because the storage has no lock: [Pages] has the
    operations with the read and the write apart. *)

From stdpp Require Import base tactics list strings numbers.
From Stdlib Require Import Lia ZArith Ascii.
From S2P Require Import Prelude JsString JsNum Strkey Async.

Local Open Scope Z_scope.

(** ** Wallet addresses *)

Definition normalizeWalletAddress (address : option string) (mode : option string) : option string :=
  match address with
  | None => None
  | Some a =>
      let trimmed := trim a in
      if bool_decide (trimmed = ""%string) then None
      else if bool_decide (mode = Some "stellar"%string) then
        if STELLAR_ACCOUNT_ADDRESS_PATTERN trimmed then Some trimmed else None
      else if EVM_WALLET_ADDRESS_PATTERN trimmed then Some (toLowerCase trimmed)
      else if STELLAR_ACCOUNT_ADDRESS_PATTERN trimmed then Some trimmed
      else None
  end.

Definition walletAddressEquals (a b mode : option string) : bool :=
  match normalizeWalletAddress a mode, normalizeWalletAddress b mode with
  | Some l, Some r => bool_decide (l = r)
  | _, _ => false
  end.

(** ** Entries *)

(** [PendingRepayment] and [PendingLoanOpen]: they differ in what was done. *)
Record Pending (P : Type) := {
  pd_id : string;
  pd_walletAddress : string;
  pd_payload : P;
  pd_txHash : option string;
  pd_createdAt : Z;
  pd_attempts : Z;
  pd_lastAttemptAt : option Z;
}.
Arguments pd_id {P}. Arguments pd_walletAddress {P}. Arguments pd_payload {P}. Arguments pd_txHash {P}.
Arguments pd_createdAt {P}. Arguments pd_attempts {P}. Arguments pd_lastAttemptAt {P}.

(** [amountPaidHuman] of a repayment; [amountHuman] and [tenorDays] of an opening. *)
Definition RepayPayload : Type := string.
Record OpenPayload := { op_amountHuman : string; op_tenorDays : Z }.

Definition PendingRepayment : Type := Pending RepayPayload.
Definition PendingLoanOpen : Type := Pending OpenPayload.

(** A key of the storage: no item, an item that is not a JSON array or cannot be
    read, or an array. *)
Inductive stored (P : Type) :=
  | NoItem
  | BadItem
  | Items (items : list (Pending P)).
Arguments NoItem {P}. Arguments BadItem {P}. Arguments Items {P} items.

(** What the backend answers to a repayment, as far as the screen shows it: numbers,
    the codes of achievements (an entry may have none) and the gain of reputation. *)
Record RepayAnswer := {
  ans_score : option num;
  ans_xp : option num;
  ans_newAchievements : list (option string);
  ans_gain : option Z;
}.

(** What the stores of the screen are set to, where they are set. *)
Record ShownAnswer := {
  set_score : option num;
  set_xp : option num;
  set_achievements : list string;
  set_repGain : option Z;
}.

(** The gain is not celebrated a second time. *)
Definition shown_answer (optimisticRepGainApplied : bool) (data : RepayAnswer) : ShownAnswer :=
  let finite o := match o with Some x => if isFinite x then Some (nmax (num_of_Z 0) x) else None | None => None end in
  {| set_score := finite (ans_score data); set_xp := finite (ans_xp data);
     set_achievements := omap id (ans_newAchievements data);
     set_repGain := match ans_gain data with
                    | Some delta => if negb optimisticRepGainApplied && (0 <? delta) then Some delta else None
                    | None => None
                    end |}.

(** What a page does besides writing to the storage. *)
Inductive browser_event :=
  | ENow (ms : Z)
  | ERandom (id : string)
  | EAddedRepayment (item : PendingRepayment) (saved : bool)
  | EAddedOpen (item : PendingLoanOpen) (saved : bool)
  | EInformRepayment (wallet : string) (amountPaidHuman : RepayPayload) (txHash : option string) (r : result RepayAnswer)
  | EInformOpen (wallet : string) (opened : OpenPayload) (txHash : option string) (r : result unit)
  | EBackoff (delay : Z)
  | EShown (shown : ShownAnswer)
  | EToast (id : string)
  | ERefreshLoanStats (wallet : string).

Record Browser := {
  b_repayments : stored RepayPayload;
  b_opens : stored OpenPayload;
  b_events : list browser_event;
}.

Definition log_event (e : browser_event) (w : Browser) : Browser :=
  {| b_repayments := b_repayments w; b_opens := b_opens w; b_events := b_events w ++ [e] |}.

(** The browser and the network. [random_id] is the identifier of a new entry, the
    clock and a random number; [set_item_ok] says whether the storage takes an item;
    the API answers, throws an ApiError with its status ([HttpException]) or fails
    otherwise. *)
Class BrowserOutside := {
  date_now : list browser_event -> Z;
  random_id : list browser_event -> string;
  set_item_ok : list browser_event -> bool;
  api_informRepayment : list browser_event -> string -> RepayPayload -> option string -> result RepayAnswer;
  api_informOpen : list browser_event -> string -> OpenPayload -> option string -> result unit;
}.

(** A key of the storage with its entries. *)
Class Slot (P : Type) := {
  slot_get : Browser -> stored P;
  slot_set : stored P -> Browser -> Browser;
  slot_added : Pending P -> bool -> browser_event;
}.

#[export] Instance repayment_slot : Slot RepayPayload := {|
  slot_get := b_repayments;
  slot_set s w := {| b_repayments := s; b_opens := b_opens w; b_events := b_events w |};
  slot_added := EAddedRepayment |}.

#[export] Instance open_slot : Slot OpenPayload := {|
  slot_get := b_opens;
  slot_set s w := {| b_repayments := b_repayments w; b_opens := s; b_events := b_events w |};
  slot_added := EAddedOpen |}.

(** ** The queue *)

Section Queue.
  Context `{OUT : BrowserOutside} {P : Type} `{SLOT : Slot P}.

Definition readAll (w : Browser) : list (Pending P) :=
  match slot_get w with Items items => items | _ => [] end.

(** The storage may be full or unavailable; the error is swallowed. *)
Definition writeAll (items : list (Pending P)) (w : Browser) : Browser :=
  if set_item_ok (b_events w) then slot_set (Items items) w else w.

Definition getPendingForWallet (wallet : string) (w : Browser) : list (Pending P) :=
  let normalized := default wallet (normalizeWalletAddress (Some wallet) None) in
  List.filter (fun r => bool_decide (normalizeWalletAddress (Some (pd_walletAddress r)) None = Some normalized)) (readAll w).

(** [Date.now()] *)
Definition now : M Browser Z := fun w => let t := date_now (b_events w) in (Ok t, log_event (ENow t) w).

Definition new_id : M Browser string := fun w => let i := random_id (b_events w) in (Ok i, log_event (ERandom i) w).

Definition new_entry (wallet : string) (payload : P) (txHash : option string) (id : string) (createdAt : Z) : Pending P :=
  {| pd_id := id; pd_walletAddress := default wallet (normalizeWalletAddress (Some wallet) None); pd_payload := payload;
     pd_txHash := txHash; pd_createdAt := createdAt; pd_attempts := 0; pd_lastAttemptAt := None |}.

Definition addPending (wallet : string) (payload : P) (txHash : option string) : M Browser (Pending P) :=
  item_id ← new_id;
  createdAt ← now;
  let item := new_entry wallet payload txHash item_id createdAt in
  (fun w => (Ok item, log_event (slot_added item (set_item_ok (b_events w))) (writeAll (readAll w ++ [item]) w))) : M Browser (Pending P).

Definition removePending (id : string) : M Browser unit := fun w =>
  (Ok tt, writeAll (List.filter (fun r => negb (bool_decide (pd_id r = id))) (readAll w)) w).

(** The patch the callers use: the attempts and the time of the last one. *)
Definition with_last_attempt (attempts lastAttemptAt : Z) (r : Pending P) : Pending P :=
  {| pd_id := pd_id r; pd_walletAddress := pd_walletAddress r; pd_payload := pd_payload r; pd_txHash := pd_txHash r;
     pd_createdAt := pd_createdAt r; pd_attempts := attempts; pd_lastAttemptAt := Some lastAttemptAt |}.

(** The first entry with the identifier takes the patch. *)
Fixpoint update_first (id : string) (f : Pending P -> Pending P) (items : list (Pending P)) : option (list (Pending P)) :=
  match items with
  | [] => None
  | r :: items' =>
      if bool_decide (pd_id r = id) then Some (f r :: items')
      else match update_first id f items' with Some l => Some (r :: l) | None => None end
  end.

Definition updatePending (id : string) (attempts lastAttemptAt : Z) : M Browser unit := fun w =>
  (Ok tt, match update_first id (with_last_attempt attempts lastAttemptAt) (readAll w) with
          | Some items => writeAll items w
          | None => w
          end).

Definition STALE_MS : Z := 7 * 24 * 60 * 60 * 1000.

Definition clearStale : M Browser unit :=
  t ← now;
  (fun w => (Ok tt, writeAll (List.filter (fun r => t - pd_createdAt r <? STALE_MS) (readAll w)) w)) : M Browser unit.
End Queue.

(** [loanOpenQueue.ts] is the same code on the other key. *)
Section OpenQueue.
  Context `{OUT : BrowserOutside}.

Definition getPendingOpensForWallet : string -> Browser -> list PendingLoanOpen := getPendingForWallet.
Definition addPendingOpen : string -> OpenPayload -> option string -> M Browser PendingLoanOpen := addPending.
Definition removePendingOpen : string -> M Browser unit := removePending (SLOT := open_slot).
Definition updatePendingOpen : string -> Z -> Z -> M Browser unit := updatePending (SLOT := open_slot).
Definition clearStaleLoanOpens : M Browser unit := clearStale (SLOT := open_slot).
End OpenQueue.

(** ** Between pages

    The operations as other pages of the browser see them: what they write in between
    is overwritten. *)

Section Pages.
  Context `{OUT : BrowserOutside} {P : Type} `{SLOT : Slot P}.

Definition read_step : proc Browser (list (Pending P)) := await (gets readAll).
Definition write_step (items : list (Pending P)) : proc Browser unit := await (modify (writeAll items)).

Definition addPending_steps (wallet : string) (payload : P) (txHash : option string) : proc Browser (Pending P) :=
  item_id ← await new_id;
  createdAt ← await now;
  let item := new_entry wallet payload txHash item_id createdAt in
  all ← read_step;
  await (fun w => (Ok item, log_event (slot_added item (set_item_ok (b_events w))) (writeAll (all ++ [item]) w))).

Definition removePending_steps (id : string) : proc Browser unit :=
  all ← read_step; write_step (List.filter (fun r => negb (bool_decide (pd_id r = id))) all).

Definition updatePending_steps (id : string) (attempts lastAttemptAt : Z) : proc Browser unit :=
  all ← read_step;
  match update_first id (with_last_attempt attempts lastAttemptAt) all with
  | Some items => write_step items
  | None => Return tt
  end.

Definition clearStale_steps : proc Browser unit :=
  t ← await now; all ← read_step; write_step (List.filter (fun r => t - pd_createdAt r <? STALE_MS) all).

(** Without another page they are the operations. *)
Lemma steps_alone w :
  (forall wallet payload hash, run (addPending_steps wallet payload hash) w = addPending wallet payload hash w) /\
  (forall id, run (removePending_steps id) w = removePending id w) /\
  (forall id n t, run (updatePending_steps id n t) w = updatePending id n t w) /\
  run clearStale_steps w = clearStale w.
Proof.
  split_and!; [done|done| |done]. intros id n t. unfold updatePending_steps, updatePending, read_step. cbn.
  by destruct (update_first id _ _).
Qed.
End Pages.

(** ** Retries *)

Section Retry.
  Context {A : Type}.

(** The wait before the next attempt, up to the jitter of a fifth. *)
Definition backoff (baseDelayMs : Z) (attempt : nat) : M Browser unit :=
  modify (log_event (EBackoff (baseDelayMs * 2 ^ Z.of_nat (attempt - 1)))).

Fixpoint retry_from (left attempt maxAttempts : nat) (baseDelayMs : Z) (shouldRetry : exn -> bool) (fn : proc Browser A)
    : proc Browser A :=
  match left with
  | O => Raise (PlainError "undefined")
  | S left' =>
      proc_try (fun err =>
        if (maxAttempts <=? attempt)%nat || negb (shouldRetry err) then Raise err
        else _ ← await (backoff baseDelayMs attempt); retry_from left' (S attempt) maxAttempts baseDelayMs shouldRetry fn) fn
  end.

Definition retryWithBackoff (fn : proc Browser A) (maxAttempts : nat) (shouldRetry : exn -> bool) : proc Browser A :=
  retry_from maxAttempts 1 maxAttempts 1000 shouldRetry fn.
End Retry.
