(* ===== verification/Recovery.v ===== *)
(** * Telling the backend, and telling it again
      ([frontend/src/hooks/borrow/useRepaymentRecovery.ts] and [informBackend] of
      [blockchain/useRepay.ts], [blockchain/useBorrow.ts])

    After a transaction the hooks put an entry in the queue, inform the backend and
    take the entry out when it has answered; entries left behind are sent again by
    the recovery, when a page opens. *)

From stdpp Require Import base tactics list strings numbers.
From Stdlib Require Import Lia ZArith Ascii.
From S2P Require Import Prelude JsString JsNum Strkey Async PendingQueue.

Local Open Scope Z_scope.

(** ** Model *)

Section Recovery.
  Context `{OUT : BrowserOutside}.

Definition informRepayment (wallet amountPaidHuman : string) (txHash : option string) : M Browser RepayAnswer := fun w =>
  let r := api_informRepayment (b_events w) wallet amountPaidHuman txHash in
  (r, log_event (EInformRepayment wallet amountPaidHuman txHash r) w).

Definition informOpen (wallet : string) (o : OpenPayload) (txHash : option string) : M Browser unit := fun w =>
  let r := api_informOpen (b_events w) wallet o txHash in (r, log_event (EInformOpen wallet o txHash r) w).

(** [err instanceof ApiError && err.status >= 400 && err.status < 500] *)
Definition isNonRetryableStatus (err : exn) : bool :=
  match err with HttpException status _ => (400 <=? status) && (status <? 500) | _ => false end.

(** [err instanceof ApiError && err.status === 404] *)
Definition is_not_found (err : exn) : bool :=
  match err with HttpException status _ => status =? 404 | _ => false end.

(** The stores of the screen take the answer; [refreshLoanStats] never throws. *)
Definition show (optimisticRepGainApplied : bool) (data : RepayAnswer) : M Browser unit :=
  modify (log_event (EShown (shown_answer optimisticRepGainApplied data))).
Definition toast (id : string) : M Browser unit := modify (log_event (EToast id)).
Definition refreshLoanStats (wallet : string) : M Browser unit := modify (log_event (ERefreshLoanStats wallet)).

Definition retry_inform {A} (fn : M Browser A) : proc Browser A :=
  retryWithBackoff (await fn) 3 (fun err => negb (isNonRetryableStatus err)).

Definition MAX_ATTEMPTS_BEFORE_WARNING : Z := 15.

(** What follows the answer runs in one go, up to the refresh. *)
Definition recover_repayment (walletAddress : string) (entry : PendingRepayment) : proc Browser unit :=
  proc_try (fun e =>
    if is_not_found e then
      _ ← await (removePending (SLOT := repayment_slot) (pd_id entry));
      await (refreshLoanStats walletAddress)
    else
      let newAttempts := pd_attempts entry + 1 in
      await (t ← now; _ ← updatePending (SLOT := repayment_slot) (pd_id entry) newAttempts t;
             when (MAX_ATTEMPTS_BEFORE_WARNING <=? newAttempts) (toast (pd_id entry))))
  (data ← retry_inform (informRepayment (pd_walletAddress entry) (pd_payload entry) (pd_txHash entry));
   _ ← await (_ ← removePending (SLOT := repayment_slot) (pd_id entry); _ ← show false data; toast (pd_id entry));
   await (refreshLoanStats walletAddress)).

Definition recover_open (walletAddress : string) (entry : PendingLoanOpen) : proc Browser unit :=
  proc_try (fun e =>
    await (t ← now; updatePendingOpen (pd_id entry) (pd_attempts entry + 1) t))
  (_ ← retry_inform (informOpen (pd_walletAddress entry) (pd_payload entry) (pd_txHash entry));
   _ ← await (_ ← removePendingOpen (pd_id entry); toast (pd_id entry));
   await (refreshLoanStats walletAddress)).

(** [[...entries].sort((a, b) => a.createdAt - b.createdAt)]: a stable sort. *)
Definition by_age {P} (items : list (Pending P)) : list (Pending P) :=
  sort_le (fun a b => pd_createdAt a <=? pd_createdAt b) items.

Fixpoint each {A} (f : A -> proc Browser unit) (xs : list A) : proc Browser unit :=
  match xs with
  | [] => Return tt
  | x :: xs' => _ ← f x; each f xs'
  end.

(** The recovery of a wallet; the reference [runningRef] only keeps one component
    from starting it twice. *)
Definition recover (walletAddress : string) : proc Browser unit :=
  sortedRepayments ← await (_ ← clearStale (SLOT := repayment_slot);
                            gets (fun w => by_age (getPendingForWallet (SLOT := repayment_slot) walletAddress w)));
  _ ← each (recover_repayment walletAddress) sortedRepayments;
  sortedOpens ← await (_ ← clearStaleLoanOpens;
                       gets (fun w => by_age (getPendingOpensForWallet walletAddress w)));
  each (recover_open walletAddress) sortedOpens.

(** [informBackend] of a repayment, and of an opening. *)
Definition inform_repaid (walletAddress amountHuman : string) (txHash : option string) (optimisticRepGainApplied : bool) : proc Browser bool :=
  pending ← await (addPending (SLOT := repayment_slot) walletAddress amountHuman txHash);
  proc_try (fun e =>
    if is_not_found e then
      _ ← await (removePending (SLOT := repayment_slot) (pd_id pending));
      _ ← await (refreshLoanStats walletAddress); Return true
    else
      _ ← await (t ← now; updatePending (SLOT := repayment_slot) (pd_id pending) (pd_attempts pending + 1) t); Return false)
  (data ← retry_inform (informRepayment walletAddress amountHuman txHash);
   _ ← await (_ ← removePending (SLOT := repayment_slot) (pd_id pending); show optimisticRepGainApplied data);
   _ ← await (refreshLoanStats walletAddress); Return true).

Definition inform_opened (walletAddress : string) (o : OpenPayload) (txHash : option string) : proc Browser bool :=
  pending ← await (addPendingOpen walletAddress o txHash);
  proc_try (fun e =>
    _ ← await (t ← now; updatePendingOpen (pd_id pending) (pd_attempts pending + 1) t); Return false)
  (_ ← retry_inform (informOpen walletAddress o txHash);
   _ ← await (removePendingOpen (pd_id pending));
   _ ← await (refreshLoanStats walletAddress); Return true).
End Recovery.
