(* ===== verification/RecoveryProps.v ===== *)
(** * Nothing the backend was not told is forgotten

    The theorems about the queues of [PendingQueue] and the hooks of [Recovery]: how
    an entry leaves its queue, whatever the handlers of the page do at the same time,
    and what one recovery achieves. With two pages open an entry can be lost
    ([lost_between_pages]). *)

From stdpp Require Import base tactics list strings numbers.
From Stdlib Require Import Lia ZArith Ascii.
From S2P Require Import Prelude JsString JsNum Strkey Async PendingQueue Recovery.

Local Open Scope Z_scope.

(** ** The life of an entry *)

(** What an entry is about, apart from its attempts. *)
Definition contents {P} (r : Pending P) : string * string * P * option string * Z :=
  (pd_id r, pd_walletAddress r, pd_payload r, pd_txHash r, pd_createdAt r).

(** The events that concern a queue: an entry was added (and saved, or not), and the
    backend settled a request, by its answer or, for a repayment, with a 404. *)
Class SlotEvents (P : Type) := {
  view_added : browser_event -> option (Pending P * bool);
  view_settled : browser_event -> option (string * P * option string);
}.

#[export] Instance repayment_events : SlotEvents RepayPayload := {|
  view_added e := match e with EAddedRepayment item saved => Some (item, saved) | _ => None end;
  view_settled e := match e with
                    | EInformRepayment wallet amount hash (Ok _) => Some (wallet, amount, hash)
                    | EInformRepayment wallet amount hash (Throw err) =>
                        if is_not_found err then Some (wallet, amount, hash) else None
                    | _ => None
                    end |}.

#[export] Instance open_events : SlotEvents OpenPayload := {|
  view_added e := match e with EAddedOpen item saved => Some (item, saved) | _ => None end;
  view_settled e := match e with EInformOpen wallet o hash (Ok _) => Some (wallet, o, hash) | _ => None end |}.

Section Entries.
  Context {P : Type} `{EV : SlotEvents P}.

Definition added (t : list browser_event) : list (Pending P * bool) := omap view_added t.

(** The wallet of an entry, as it was written or before it was normalised. *)
Definition wallet_of (wallet : string) (r : Pending P) : Prop :=
  pd_walletAddress r = wallet \/ pd_walletAddress r = default wallet (normalizeWalletAddress (Some wallet) None).

(** The backend settled the request of the entry. *)
Definition settled (t : list browser_event) (r : Pending P) : Prop :=
  exists e wallet, e ∈ t /\ view_settled e = Some (wallet, pd_payload r, pd_txHash r) /\ wallet_of wallet r.

(** The page saw the entry at the age of seven days. *)
Definition expired (t : list browser_event) (r : Pending P) : Prop :=
  exists ms, ENow ms ∈ t /\ STALE_MS <= ms - pd_createdAt r.

(** The backend settled the request of an entry with this identifier. *)
Definition settled_id (t : list browser_event) (i : string) : Prop :=
  exists a saved, (a, saved) ∈ added t /\ pd_id a = i /\ settled t a.

Definition finished (t : list browser_event) (r : Pending P) : Prop := expired t r \/ settled_id t (pd_id r).

Definition known (t : list browser_event) (r : Pending P) : Prop :=
  exists a b, (a, b) ∈ added t /\ contents a = contents r.

(** The queue against the history of the browser. *)
Record queue_ok (items : list (Pending P)) (t : list browser_event) : Prop := {
  items_known : forall r, r ∈ items -> known t r;
  saved_kept : forall a, (a, true) ∈ added t -> (exists r, r ∈ items /\ contents r = contents a) \/ finished t a;
}.

Lemma added_app t t' : added (t ++ t') = added t ++ added t'.
Proof. apply omap_app. Qed.

Lemma added_log e w : view_added e = None -> added (b_events (log_event e w)) = added (b_events w).
Proof. intros He. cbn [log_event b_events]. rewrite added_app. unfold added at 2. cbn [omap list_omap]. by rewrite He, app_nil_r. Qed.

Lemma known_prefix t t' r : t `prefix_of` t' -> known t r -> known t' r.
Proof. intros [u ->] (a & b & Ha & Hc). exists a, b. split; [|done]. rewrite added_app. apply elem_of_app. by left. Qed.

Lemma settled_prefix t t' r : t `prefix_of` t' -> settled t r -> settled t' r.
Proof. intros [u ->] (e & wallet & He & H). exists e, wallet. split; [|done]. apply elem_of_app. by left. Qed.

Lemma finished_prefix t t' r : t `prefix_of` t' -> finished t r -> finished t' r.
Proof.
  intros Hp [(ms & Hm & H)|(a & b & Ha & Hi & Hs)].
  - left. destruct Hp as [u ->]. exists ms. split; [|done]. apply elem_of_app. by left.
  - right. exists a, b. split_and!; [|done|by eapply settled_prefix]. destruct Hp as [u ->]. rewrite added_app. apply elem_of_app. by left.
Qed.

Lemma settled_contents t r r' : contents r = contents r' -> settled t r -> settled t r'.
Proof.
  intros [= _ Hw Hp Ht _] (e & wallet & He & Hs & Hr). exists e, wallet. unfold wallet_of in *. rewrite <- Hw, <- Hp, <- Ht. by split_and!.
Qed.

Lemma finished_contents t r r' : contents r = contents r' -> finished t r -> finished t r'.
Proof.
  intros [= Hi _ _ _ Hc] [(ms & Hm & Hr)|H]; [left; exists ms; by rewrite <- Hc|right; by rewrite <- Hi].
Qed.

(** A known entry that was settled is settled under its identifier. *)
Lemma settled_known t r : known t r -> settled t r -> settled_id t (pd_id r).
Proof.
  intros (a & b & Ha & Hc) Hs. exists a, b. split_and!; [done|by injection Hc|]. by eapply settled_contents.
Qed.

(** ** The operations keep the account *)

Lemma queue_log items t e : view_added e = None -> queue_ok items t -> queue_ok items (t ++ [e]).
Proof.
  intros He [Hk Hs]. assert (E : added (t ++ [e]) = added t) by (rewrite added_app; cbn; by rewrite He, app_nil_r).
  constructor.
  - intros r Hr. eapply known_prefix; [by apply prefix_app_r|by apply Hk].
  - intros a Ha. rewrite E in Ha. destruct (Hs a Ha) as [?|Hf]; [by left|right].
    eapply finished_prefix; [by apply prefix_app_r|done].
Qed.

Lemma queue_same items items' t : contents <$> items' = contents <$> items -> queue_ok items t -> queue_ok items' t.
Proof.
  intros E [Hk Hs]. assert (Hin : forall l l' : list (Pending P), contents <$> l = contents <$> l' ->
    forall r, r ∈ l -> exists r', r' ∈ l' /\ contents r' = contents r).
  { intros l l' El r Hr. assert (Hc : contents r ∈ contents <$> l') by (rewrite <- El; by apply list_elem_of_fmap_2).
    apply list_elem_of_fmap in Hc as (r' & ? & ?). by exists r'. }
  constructor.
  - intros r Hr. destruct (Hin _ _ E r Hr) as (r' & Hr' & Hc). destruct (Hk r' Hr') as (a & b & ? & ?).
    exists a, b. split; [done|congruence].
  - intros a Ha. destruct (Hs a Ha) as [(r & Hr & Hc)|?]; [left|by right].
    destruct (Hin _ _ (eq_sym E) r Hr) as (r' & ? & ?). exists r'. split; [done|congruence].
Qed.

Lemma queue_filter p items t : (forall r, r ∈ items -> p r = false -> finished t r) -> queue_ok items t ->
  queue_ok (List.filter p items) t.
Proof.
  intros Hp [Hk Hs]. constructor.
  - intros r Hr. apply list_elem_of_In, filter_In in Hr as [Hr _]. apply Hk. by apply list_elem_of_In.
  - intros a Ha. destruct (Hs a Ha) as [(r & Hr & Hc)|?]; [|by right]. destruct (p r) eqn:E.
    + left. exists r. split; [|done]. apply list_elem_of_In, filter_In. split; [by apply list_elem_of_In|done].
    + right. eapply finished_contents; [exact Hc|by apply Hp].
Qed.

Lemma queue_add items t e a (b : bool) : view_added e = Some (a, b) ->
  queue_ok items t -> queue_ok (if b then items ++ [a] else items) (t ++ [e]).
Proof.
  intros He [Hk Hs]. assert (E : added (t ++ [e]) = added t ++ [(a, b)]) by (rewrite added_app; cbn; by rewrite He).
  assert (Hkn : forall r, known t r -> known (t ++ [e]) r) by (intros r; apply known_prefix, prefix_app_r; done).
  constructor.
  - intros r Hr. destruct b; [|by apply Hkn, Hk]. apply elem_of_app in Hr as [Hr|Hr]; [by apply Hkn, Hk|].
    apply list_elem_of_singleton in Hr as ->. exists a, true. split; [|done]. rewrite E. apply elem_of_app. right. by apply list_elem_of_singleton.
  - intros a' Ha'. rewrite E in Ha'. apply elem_of_app in Ha' as [Ha'|Ha'].
    + destruct (Hs a' Ha') as [(r & Hr & Hc)|Hfin].
      * left. exists r. split; [|done]. destruct b; [apply elem_of_app; by left|done].
      * right. eapply finished_prefix; [by apply prefix_app_r|done].
    + apply list_elem_of_singleton in Ha'. injection Ha' as -> <-. left. exists a. split; [|done].
      apply elem_of_app. right. by apply list_elem_of_singleton.
Qed.
End Entries.

(** ** The handlers of the page *)

(** Both queues are in order with the history. *)
Definition account (w : Browser) : Prop :=
  queue_ok (readAll (SLOT := repayment_slot) w) (b_events w) /\ queue_ok (readAll (SLOT := open_slot) w) (b_events w).

Definition grows (w w' : Browser) : Prop := b_events w `prefix_of` b_events w'.

#[export] Instance grows_refl : Reflexive grows.
Proof. intros w. unfold grows. reflexivity. Qed.

#[export] Instance grows_trans : Transitive grows.
Proof. intros a b c. unfold grows. by etrans. Qed.

Section Pages.
  Context `{OUT : BrowserOutside}.

Lemma grows_log e w : grows w (log_event e w).
Proof. by apply prefix_app_r. Qed.

Lemma account_log e w : view_added (P := RepayPayload) e = None -> view_added (P := OpenPayload) e = None ->
  account w -> account (log_event e w).
Proof. intros H1 H2 [Hr Ho]. split; by apply queue_log. Qed.

Lemma account_write_repayments items w : account w -> queue_ok items (b_events w) ->
  account (writeAll (SLOT := repayment_slot) items w).
Proof. intros [Hr Ho] Hi. unfold writeAll. by destruct (set_item_ok (b_events w)). Qed.

Lemma account_write_opens items w : account w -> queue_ok items (b_events w) -> account (writeAll (SLOT := open_slot) items w).
Proof. intros [Hr Ho] Hi. unfold writeAll. by destruct (set_item_ok (b_events w)). Qed.

Lemma write_events {P} `{SLOT : Slot P} (H : forall s w, b_events (slot_set s w) = b_events w) items w :
  b_events (writeAll items w) = b_events w.
Proof. unfold writeAll. by destruct (set_item_ok (b_events w)). Qed.

(** An entry with this identifier is done with. *)
Lemma queue_remove {P} `{EV : SlotEvents P} items t i :
  queue_ok items t -> settled_id t i -> queue_ok (List.filter (fun r => negb (bool_decide (pd_id r = i))) items) t.
Proof.
  intros Hq Hs. apply queue_filter; [|done]. intros r Hr Hid. apply negb_false_iff, bool_decide_eq_true_1 in Hid.
  right. by rewrite Hid.
Qed.

Lemma update_first_contents {P} i (f : Pending P -> Pending P) items items' :
  (forall r, contents (f r) = contents r) -> update_first i f items = Some items' -> contents <$> items' = contents <$> items.
Proof.
  intros Hf. revert items'. induction items as [|r items IH]; intros items'; cbn [update_first]; [done|].
  case_bool_decide; [intros [= <-]; cbn; by rewrite Hf|].
  destruct (update_first i f items) as [l|]; [|done]. intros [= <-]. cbn. f_equal. by apply IH.
Qed.

(** The operation keeps the account, only adds to the history, and returns. *)
Definition keeps {A} (m : M Browser A) : Prop := forall w, account w ->
  account (snd (m w)) /\ grows w (snd (m w)) /\ is_ok (fst (m w)) = true.

Lemma keeps_log e : view_added (P := RepayPayload) e = None -> view_added (P := OpenPayload) e = None ->
  keeps (modify (log_event e)).
Proof. intros H1 H2 w Hw. split_and!; [by apply account_log|apply grows_log|done]. Qed.

Lemma keeps_slots_bind {A B} (m : M Browser A) (k : A -> M Browser B) : keeps m -> (forall a, keeps (k a)) -> keeps (m ≫= k).
Proof.
  intros Hm Hk w Hw. unfold mbind, M_bind. destruct (Hm w Hw) as (Ha & Hg & Hok). destruct (m w) as [[a|e] w']; [|done].
  destruct (Hk a w' Ha) as (? & ? & ?). split_and!; [done| |done]. by etrans.
Qed.

Lemma keeps_now : keeps now.
Proof. intros w Hw. split_and!; [by apply account_log|apply grows_log|done]. Qed.

Lemma keeps_update_repayment i n t : keeps (updatePending (SLOT := repayment_slot) i n t).
Proof.
  intros w Hw. unfold updatePending. cbn [snd].
  destruct (update_first i _ (readAll w)) as [items|] eqn:E; [|by split_and!].
  split_and!; [|unfold grows; by rewrite write_events|done]. apply account_write_repayments; [done|].
  eapply queue_same; [by eapply update_first_contents; [|exact E]|]. apply Hw.
Qed.

Lemma keeps_update_open i n t : keeps (updatePending (SLOT := open_slot) i n t).
Proof.
  intros w Hw. unfold updatePending. cbn [snd].
  destruct (update_first i _ (readAll w)) as [items|] eqn:E; [|by split_and!].
  split_and!; [|unfold grows; by rewrite write_events|done]. apply account_write_opens; [done|].
  eapply queue_same; [by eapply update_first_contents; [|exact E]|]. apply Hw.
Qed.

Lemma remove_repayment_keeps (r0 : PendingRepayment) w : account w -> known (b_events w) r0 -> settled (b_events w) r0 ->
  account (snd (removePending (SLOT := repayment_slot) (pd_id r0) w)) /\
  b_events (snd (removePending (SLOT := repayment_slot) (pd_id r0) w)) = b_events w.
Proof.
  intros Hw Hk Hf. unfold removePending. cbn [snd]. split; [|by rewrite write_events].
  apply account_write_repayments; [done|]. apply queue_remove; [exact (proj1 Hw)|by apply settled_known].
Qed.

Lemma remove_open_keeps (r0 : PendingLoanOpen) w : account w -> known (b_events w) r0 -> settled (b_events w) r0 ->
  account (snd (removePending (SLOT := open_slot) (pd_id r0) w)) /\
  b_events (snd (removePending (SLOT := open_slot) (pd_id r0) w)) = b_events w.
Proof.
  intros Hw Hk Hf. unfold removePending. cbn [snd]. split; [|by rewrite write_events].
  apply account_write_opens; [done|]. apply queue_remove; [exact (proj2 Hw)|by apply settled_known].
Qed.

Lemma keeps_clear_repayments : keeps (clearStale (SLOT := repayment_slot)).
Proof.
  intros w Hw. unfold clearStale, now, mbind, M_bind. cbn [snd fst]. set (w1 := log_event _ w).
  assert (H1 : account w1) by (by apply account_log). split_and!; [..|done].
  - apply account_write_repayments; [done|]. apply queue_filter; [|exact (proj1 H1)].
    intros r Hr Ht. left. exists (date_now (b_events w)). bool_to_prop. split; [|done].
    apply elem_of_app. right. by apply list_elem_of_singleton.
  - unfold grows. rewrite write_events by done. by apply prefix_app_r.
Qed.

Lemma keeps_clear_opens : keeps (clearStale (SLOT := open_slot)).
Proof.
  intros w Hw. unfold clearStale, now, mbind, M_bind. cbn [snd fst]. set (w1 := log_event _ w).
  assert (H1 : account w1) by (by apply account_log). split_and!; [..|done].
  - apply account_write_opens; [done|]. apply queue_filter; [|exact (proj2 H1)].
    intros r Hr Ht. left. exists (date_now (b_events w)). bool_to_prop. split; [|done].
    apply elem_of_app. right. by apply list_elem_of_singleton.
  - unfold grows. rewrite write_events by done. by apply prefix_app_r.
Qed.

(** A new entry is known, and it is the one the code goes on with. *)
Lemma add_repayment_keeps wallet amount hash w : account w ->
  let '(r, w') := addPending (SLOT := repayment_slot) wallet amount hash w in
  account w' /\ grows w w' /\ exists item, r = Ok item /\ known (b_events w') item /\
    wallet_of wallet item /\ pd_payload item = amount /\ pd_txHash item = hash.
Proof.
  intros Hw. unfold addPending, new_id, now, mbind, M_bind. set (w1 := log_event _ w). set (w2 := log_event _ w1).
  set (item := new_entry _ _ _ _ _). set (saved := set_item_ok (b_events w2)).
  assert (H2 : account w2) by (by repeat apply account_log).
  assert (Hg : grows w w2) by (etrans; [apply (grows_log (ERandom (random_id (b_events w))))|apply grows_log]).
  assert (Hev : b_events (writeAll (SLOT := repayment_slot) (readAll w2 ++ [item]) w2) = b_events w2) by (by apply write_events).
  split_and!.
  - destruct H2 as [Hr Ho]. split.
    + cbn [log_event b_events]. rewrite Hev.
      replace (readAll (log_event _ _)) with (if saved then readAll (SLOT := repayment_slot) w2 ++ [item] else readAll w2)
        by (unfold writeAll; fold saved; by destruct saved).
      by eapply queue_add.
    + cbn [log_event b_events]. rewrite Hev.
      replace (readAll (log_event _ _)) with (readAll (SLOT := open_slot) w2) by (unfold writeAll; fold saved; by destruct saved).
      by apply queue_log.
  - etrans; [exact Hg|]. unfold grows. cbn. rewrite Hev. by apply prefix_app_r.
  - exists item. split; [done|]. split; [|split_and!; [by right|done|done]]. exists item, saved. split; [|done].
    cbn [log_event b_events]. rewrite Hev, added_app. apply elem_of_app. right. fold saved. by apply list_elem_of_singleton.
Qed.

Lemma add_open_keeps wallet o hash w : account w ->
  let '(r, w') := addPending (SLOT := open_slot) wallet o hash w in
  account w' /\ grows w w' /\ exists item, r = Ok item /\ known (b_events w') item /\
    wallet_of wallet item /\ pd_payload item = o /\ pd_txHash item = hash.
Proof.
  intros Hw. unfold addPending, new_id, now, mbind, M_bind. set (w1 := log_event _ w). set (w2 := log_event _ w1).
  set (item := new_entry _ _ _ _ _). set (saved := set_item_ok (b_events w2)).
  assert (H2 : account w2) by (by repeat apply account_log).
  assert (Hg : grows w w2) by (etrans; [apply (grows_log (ERandom (random_id (b_events w))))|apply grows_log]).
  assert (Hev : b_events (writeAll (SLOT := open_slot) (readAll w2 ++ [item]) w2) = b_events w2) by (by apply write_events).
  split_and!.
  - destruct H2 as [Hr Ho]. split.
    + cbn [log_event b_events]. rewrite Hev.
      replace (readAll (log_event _ _)) with (readAll (SLOT := repayment_slot) w2) by (unfold writeAll; fold saved; by destruct saved).
      by apply queue_log.
    + cbn [log_event b_events]. rewrite Hev.
      replace (readAll (log_event _ _)) with (if saved then readAll (SLOT := open_slot) w2 ++ [item] else readAll w2)
        by (unfold writeAll; fold saved; by destruct saved).
      by eapply queue_add.
  - etrans; [exact Hg|]. unfold grows. cbn. rewrite Hev. by apply prefix_app_r.
  - exists item. split; [done|]. split; [|split_and!; [by right|done|done]]. exists item, saved. split; [|done].
    cbn [log_event b_events]. rewrite Hev, added_app. apply elem_of_app. right. fold saved. by apply list_elem_of_singleton.
Qed.

(** ** The hooks *)

Local Abbreviation page := (since account grows).

Lemma page_mono {A} (Q Q' : Browser -> result A -> Prop) w0 p :
  (forall w r, grows w0 w -> Q w r -> Q' w r) -> page Q w0 p -> page Q' w0 p.
Proof. apply (since_mono account grows). Qed.

Definition returns {A} (_ : Browser) (r : result A) : Prop := is_ok r = true.

Definition anything {A} (_ : Browser) (_ : result A) : Prop := True.

Lemma page_keeps {A} (m : M Browser A) w : keeps m -> page returns w (await m).
Proof. intros Hm. apply (since_await account grows). intros w' Hw' _. exact (Hm w' Hw'). Qed.

(** A retried call ends like one of its attempts. *)
Lemma page_retry {A} (Q : Browser -> result A -> Prop) (fn : proc Browser A) left attempt n base should :
  (forall w, page Q w fn) -> (forall w, Q w (Throw (PlainError "undefined"))) ->
  forall w, page Q w (retry_from left attempt n base should fn).
Proof.
  intros Hfn Hu. revert attempt. induction left as [|left IH]; intros attempt w; cbn [retry_from]; [apply Hu|].
  apply (since_try account grows). eapply page_mono; [|apply Hfn]. intros w1 [a|e] _ HQ; [done|].
  destruct (_ || _); [exact HQ|]. apply (since_bind account grows).
  eapply page_mono; [|by apply page_keeps, keeps_log]. intros w2 [u|e'] _ Hr; [apply IH|discriminate Hr].
Qed.

(** What is known of an entry after the request for it ended. *)
Definition informed_repayment (entry : PendingRepayment) (w : Browser) (r : result RepayAnswer) : Prop :=
  match r with Ok _ => settled (b_events w) entry | Throw e => is_not_found e = true -> settled (b_events w) entry end.

Definition informed_open (entry : PendingLoanOpen) (w : Browser) (r : result unit) : Prop :=
  match r with Ok _ => settled (b_events w) entry | Throw _ => True end.

Lemma page_inform_repayment wallet (entry : PendingRepayment) w : wallet_of wallet entry ->
  page (informed_repayment entry) w (retry_inform (informRepayment wallet (pd_payload entry) (pd_txHash entry))).
Proof.
  intros Hwal. apply page_retry; [|done]. intros w0. apply (since_await account grows). intros w1 H1 _. unfold informRepayment. cbn [fst snd].
  set (r := api_informRepayment _ _ _ _). split_and!; [by apply account_log|apply grows_log|].
  unfold informed_repayment. set (e := EInformRepayment _ _ _ r).
  assert (He : e ∈ b_events (log_event e w1)) by (apply elem_of_app; right; by apply list_elem_of_singleton).
  destruct r as [data|err] eqn:Er; [|intros Hnf]; exists e, wallet; split_and!; try done.
  subst e. cbn. by rewrite Hnf.
Qed.

Lemma page_inform_open wallet (entry : PendingLoanOpen) w : wallet_of wallet entry ->
  page (informed_open entry) w (retry_inform (informOpen wallet (pd_payload entry) (pd_txHash entry))).
Proof.
  intros Hwal. apply page_retry; [|done]. intros w0. apply (since_await account grows). intros w1 H1 _. unfold informOpen. cbn [fst snd].
  set (r := api_informOpen _ _ _ _). split_and!; [by apply account_log|apply grows_log|].
  unfold informed_open. set (e := EInformOpen _ _ _ r).
  assert (He : e ∈ b_events (log_event e w1)) by (apply elem_of_app; right; by apply list_elem_of_singleton).
  destruct r as [[]|err] eqn:Er; [|done]. by exists e, wallet.
Qed.

Lemma keeps_ret {A} (a : A) : keeps (mret a).
Proof. by intros w Hw. Qed.

Lemma keeps_when b m : keeps m -> keeps (when b m).
Proof. intros Hm. destruct b; [done|apply keeps_ret]. Qed.

(** Removing a settled entry, together with what is shown of it. *)
Lemma page_drop_repayment {A} (entry : PendingRepayment) (rest : unit -> M Browser A) w0 :
  known (b_events w0) entry -> settled (b_events w0) entry -> keeps (rest tt) ->
  page returns w0 (await (removePending (SLOT := repayment_slot) (pd_id entry) ≫= rest)).
Proof.
  intros Hk Hs Hrest. apply (since_await account grows). intros w Hw Hg. unfold mbind, M_bind.
  destruct (remove_repayment_keeps entry w Hw) as [Ha He];
    [by eapply known_prefix|by eapply settled_prefix|].
  unfold removePending in *. cbn [fst snd] in *. set (w1 := writeAll _ w) in *.
  destruct (Hrest w1 Ha) as (? & Hg1 & ?). split_and!; [done| |done]. unfold grows in *. by rewrite He in Hg1.
Qed.

Lemma page_drop_open {A} (entry : PendingLoanOpen) (rest : unit -> M Browser A) w0 :
  known (b_events w0) entry -> settled (b_events w0) entry -> keeps (rest tt) ->
  page returns w0 (await (removePending (SLOT := open_slot) (pd_id entry) ≫= rest)).
Proof.
  intros Hk Hs Hrest. apply (since_await account grows). intros w Hw Hg. unfold mbind, M_bind.
  destruct (remove_open_keeps entry w Hw) as [Ha He];
    [by eapply known_prefix|by eapply settled_prefix|].
  unfold removePending in *. cbn [fst snd] in *. set (w1 := writeAll _ w) in *.
  destruct (Hrest w1 Ha) as (? & Hg1 & ?). split_and!; [done| |done]. unfold grows in *. by rewrite He in Hg1.
Qed.

Lemma remove_alone {P} `{SLOT : Slot P} i : (removePending i : M Browser unit) = (removePending i ≫= (fun u => mret u)).
Proof. done. Qed.

(** A step that returns, then the rest. *)
Lemma page_then {A B} (Q : Browser -> result B -> Prop) (p : proc Browser A) (k : A -> proc Browser B) w :
  page returns w p -> (forall w' a, grows w w' -> page Q w' (k a)) -> page Q w (p ≫= k).
Proof.
  intros Hp Hk. apply (since_bind account grows). eapply page_mono; [|exact Hp].
  intros w' [a|e] Hg Hr; [by apply Hk|discriminate Hr].
Qed.

Ltac keep :=
  repeat first
    [ apply keeps_slots_bind; [|intros ?]
    | apply keeps_now | apply keeps_update_repayment | apply keeps_update_open | apply keeps_when
    | (apply keeps_log; done) | apply keeps_ret ].

Lemma page_last {A} (Q : Browser -> result A -> Prop) (m : M Browser A) w : keeps m -> (forall w a, Q w (Ok a)) -> page Q w (await m).
Proof. intros Hm HQ. eapply page_mono; [|by apply page_keeps]. intros w' [a|e] _ Hr; [apply HQ|discriminate Hr]. Qed.

(** After the request for a known repayment its entry goes, or stays with one attempt
    more; so it does after the request for an opening. *)
Lemma page_recover_repayment wallet entry w : known (b_events w) entry -> page returns w (recover_repayment wallet entry).
Proof.
  intros Hk. unfold recover_repayment. apply (since_try account grows), (since_bind account grows).
  eapply page_mono; [|by apply page_inform_repayment; left]. intros w1 [data|e] Hg Hr; cbn in Hr.
  - apply page_then; [apply page_drop_repayment; [by eapply known_prefix|done|keep]|].
    intros w2 u _. apply page_last; [keep|done].
  - destruct (is_not_found e); [|apply page_keeps; keep].
    apply page_then; [|intros; apply page_keeps; keep]. rewrite remove_alone.
    apply page_drop_repayment; [by eapply known_prefix|by apply Hr|keep].
Qed.

Lemma page_recover_open wallet entry w : known (b_events w) entry -> page returns w (recover_open wallet entry).
Proof.
  intros Hk. unfold recover_open. apply (since_try account grows), (since_bind account grows).
  eapply page_mono; [|by apply page_inform_open; left]. intros w1 [data|e] Hg Hr; cbn in Hr; [|apply page_keeps; keep].
  apply page_then; [apply page_drop_open; [by eapply known_prefix|done|keep]|].
  intros w2 u _. apply page_last; [keep|done].
Qed.

Lemma page_each {A} (K : Browser -> A -> Prop) (f : A -> proc Browser unit) xs w :
  (forall w w' x, grows w w' -> K w x -> K w' x) -> (forall x w, K w x -> page returns w (f x)) ->
  Forall (K w) xs -> page returns w (each f xs).
Proof.
  intros HK Hf. revert w. induction xs as [|x xs IH]; intros w Hxs; cbn [each]; [done|].
  apply list.Forall_cons in Hxs as [Hx Hxs]. apply page_then; [by apply Hf|].
  intros w' u Hg. apply IH. eapply list.Forall_impl; [exact Hxs|]. intros y. by apply HK.
Qed.

(** The entries the recovery goes through are known. *)
Lemma pending_known {P} `{SLOT : Slot P} `{EV : SlotEvents P} wallet w t :
  queue_ok (readAll w) t -> Forall (known t) (by_age (getPendingForWallet wallet w)).
Proof.
  intros Hq. unfold by_age. rewrite sort_le_perm. unfold getPendingForWallet. apply list.Forall_forall. intros r Hr.
  apply list_elem_of_In, filter_In in Hr as [Hr _]. apply (items_known _ _ Hq). by apply list_elem_of_In.
Qed.

Lemma page_recover wallet w : page returns w (recover wallet).
Proof.
  unfold recover, clearStaleLoanOpens, getPendingOpensForWallet. apply (since_bind account grows), (since_await account grows). intros w1 H1 _.
  destruct (keeps_clear_repayments w1 H1) as (H2 & Hg2 & _). unfold mbind at 1 2 3, M_bind.
  set (w2 := snd (clearStale (SLOT := repayment_slot) w1)) in *.
  assert (E : clearStale (SLOT := repayment_slot) w1 = (Ok tt, w2)) by done. rewrite E. cbn [fst snd gets].
  split_and!; [done|done|]. apply page_then.
  { apply page_each with (K := fun w r => known (b_events w) r); [by intros ???; apply known_prefix|apply page_recover_repayment|].
    apply pending_known, H2. }
  intros w3 u _. apply (since_bind account grows), (since_await account grows). intros w4 H4 _.
  destruct (keeps_clear_opens w4 H4) as (H5 & Hg5 & _). unfold mbind at 1 2 3, M_bind.
  set (w5 := snd (clearStale (SLOT := open_slot) w4)) in *.
  assert (E' : clearStale (SLOT := open_slot) w4 = (Ok tt, w5)) by done. rewrite E'. cbn [fst snd gets].
  split_and!; [done|done|].
  apply page_each with (K := fun w r => known (b_events w) r); [by intros ???; apply known_prefix|apply page_recover_open|].
  apply pending_known, H5.
Qed.

Lemma page_inform_repaid wallet amount hash applied w : page returns w (inform_repaid wallet amount hash applied).
Proof.
  unfold inform_repaid. apply (since_bind account grows), (since_await account grows). intros w0 H0 _.
  pose proof (add_repayment_keeps wallet amount hash w0 H0) as H. destruct (addPending (SLOT := repayment_slot) wallet amount hash w0) as [r w1].
  destruct H as (H1 & Hg1 & item & -> & Hk & Hw & <- & <-). cbn [fst snd]. split_and!; [done|done|].
  apply (since_try account grows), (since_bind account grows).
  eapply page_mono; [|by apply page_inform_repayment]. intros w2 [data|e] Hg Hr; cbn in Hr.
  - apply page_then; [apply page_drop_repayment; [by eapply known_prefix|done|keep]|].
    intros w3 u _. apply page_then; [apply page_keeps; keep|done].
  - destruct (is_not_found e).
    + apply page_then; [rewrite remove_alone; apply page_drop_repayment; [by eapply known_prefix|by apply Hr|keep]|].
      intros w3 u _. apply page_then; [apply page_keeps; keep|done].
    + apply page_then; [apply page_keeps; keep|done].
Qed.

Lemma page_inform_opened wallet o hash w : page returns w (inform_opened wallet o hash).
Proof.
  unfold inform_opened, addPendingOpen, removePendingOpen, updatePendingOpen. apply (since_bind account grows), (since_await account grows). intros w0 H0 _.
  pose proof (add_open_keeps wallet o hash w0 H0) as H. destruct (addPending (SLOT := open_slot) wallet o hash w0) as [r w1].
  destruct H as (H1 & Hg1 & item & -> & Hk & Hw & <- & <-). cbn [fst snd]. split_and!; [done|done|].
  apply (since_try account grows), (since_bind account grows).
  eapply page_mono; [|by apply page_inform_open]. intros w2 [data|e] Hg Hr; cbn in Hr.
  - apply page_then; [rewrite remove_alone; apply page_drop_open; [by eapply known_prefix|done|keep]|].
    intros w3 u _. apply page_then; [apply page_keeps; keep|done].
  - apply page_then; [apply page_keeps; keep|done].
Qed.
End Pages.

Lemma added_repayment t (a : PendingRepayment) b : (a, b) ∈ added t <-> EAddedRepayment a b ∈ t.
Proof.
  unfold added. rewrite list_elem_of_omap. split; [|by exists (EAddedRepayment a b)].
  intros (e & He & Hv). destruct e; try discriminate Hv. by injection Hv as -> ->.
Qed.

Lemma added_open t (a : PendingLoanOpen) b : (a, b) ∈ added t <-> EAddedOpen a b ∈ t.
Proof.
  unfold added. rewrite list_elem_of_omap. split; [|by exists (EAddedOpen a b)].
  intros (e & He & Hv). destruct e; try discriminate Hv. by injection Hv as -> ->.
Qed.

Lemma NoDup_fmap_same {A B} (f : A -> B) l x y : NoDup (f <$> l) -> x ∈ l -> y ∈ l -> f x = f y -> x = y.
Proof.
  intros Hn Hx Hy E. apply list_elem_of_lookup in Hx as [i Hi]. apply list_elem_of_lookup in Hy as [j Hj].
  assert (i = j) as -> by (eapply NoDup_lookup; [exact Hn|by rewrite list_lookup_fmap, Hi|rewrite list_lookup_fmap, Hj; cbn; by rewrite E]).
  congruence.
Qed.

(** An identifier that was drawn once: it is the entry itself that was settled. *)
Lemma settled_itself {P} `{EV : SlotEvents P} t (a b : Pending P) saved saved' :
  NoDup ((fun x => pd_id (fst x)) <$> added t) -> (a, saved) ∈ added t -> (b, saved') ∈ added t -> pd_id b = pd_id a ->
  settled t b -> settled t a.
Proof. intros Hn Ha Hb Hi Hs. pose proof (NoDup_fmap_same _ _ _ _ Hn Hb Ha Hi) as E. by injection E as -> _. Qed.

(** ** Properties *)

(** What the page may be doing: a recovery, or informing the backend of a transaction
    that was just confirmed. *)
Inductive page_request :=
  | RecoverWallet (wallet : string)
  | InformRepaid (wallet amountHuman : string) (txHash : option string) (optimisticRepGainApplied : bool)
  | InformOpened (wallet : string) (opened : OpenPayload) (txHash : option string).

Section Properties.
  Context `{OUT : BrowserOutside}.

Definition serve_page (r : page_request) : proc Browser unit :=
  match r with
  | RecoverWallet wallet => recover wallet
  | InformRepaid wallet amount hash applied => _ ← inform_repaid wallet amount hash applied; Return tt
  | InformOpened wallet o hash => _ ← inform_opened wallet o hash; Return tt
  end.

(** C23. In the one page that uses the storage, whatever its handlers do at the same
    time - informing the backend of repayments and openings, recovering what was left -
    and whatever the backend answers: an entry that was saved leaves its queue only when
    a handler has seen it at the age of seven days, or when the backend has settled the
    request of an entry with its identifier, by an answer or (for a repayment) by a 404.
    The identifier is the clock and six random characters; an entry that shares it with
    no other has been settled itself ([settled_itself]). Until then the entry is in the
    queue, with its wallet, its amount and its transaction as they were. The account is
    in order at the end, so the page that is opened next starts from it. *)
Theorem nothing_forgotten (requests : list page_request) (w : Browser) (c' : pool Browser unit)
    (Hw : account w) (Hsteps : steps pool_step (serve_page <$> requests, w) c') :
  account (snd c') /\
  (forall a, EAddedRepayment a true ∈ b_events (snd c') ->
    (exists r, r ∈ readAll (SLOT := repayment_slot) (snd c') /\ contents r = contents a) \/
    expired (b_events (snd c')) a \/
    exists b saved, EAddedRepayment b saved ∈ b_events (snd c') /\ pd_id b = pd_id a /\ settled (b_events (snd c')) b) /\
  (forall a, EAddedOpen a true ∈ b_events (snd c') ->
    (exists r, r ∈ readAll (SLOT := open_slot) (snd c') /\ contents r = contents a) \/
    expired (b_events (snd c')) a \/
    exists b saved, EAddedOpen b saved ∈ b_events (snd c') /\ pd_id b = pd_id a /\ settled (b_events (snd c')) b).
Proof.
  assert (H : account (snd c')).
  { destruct (since_pool account grows anything _ _ ltac:(done) Hsteps) as [? _]; [|done..].
    apply list.Forall_forall. intros p Hp. apply list_elem_of_fmap in Hp as (r & -> & _). cbn [snd].
    destruct r as [wallet|wallet amount hash applied|wallet o hash]; cbn [serve_page].
    - eapply page_mono; [|apply page_recover]. done.
    - apply page_then; [apply page_inform_repaid|done].
    - apply page_then; [apply page_inform_opened|done]. }
  split; [done|]. destruct H as [Hr Ho]. split; intros a Ha.
  - destruct (saved_kept _ _ Hr a) as [?|[?|(b & saved & Hb & Hi & Hs)]]; [by apply added_repayment|by left|right; by left|right; right].
    exists b, saved. split; [by apply added_repayment|done].
  - destruct (saved_kept _ _ Ho a) as [?|[?|(b & saved & Hb & Hi & Hs)]]; [by apply added_open|by left|right; by left|right; right].
    exists b, saved. split; [by apply added_open|done].
Qed.

(** The requests made for repayments and for openings. *)
Definition repayment_requests (t : list browser_event) : list (string * RepayPayload * option string) :=
  omap (fun e => match e with EInformRepayment wallet amount hash _ => Some (wallet, amount, hash) | _ => None end) t.

Definition open_requests (t : list browser_event) : list (string * OpenPayload * option string) :=
  omap (fun e => match e with EInformOpen wallet o hash _ => Some (wallet, o, hash) | _ => None end) t.

Definition request_of {P} (r : Pending P) : string * P * option string := (pd_walletAddress r, pd_payload r, pd_txHash r).

(** The backend answers everything, and the storage works. *)
Record Online : Prop := {
  online_repayment : forall t wallet amount hash, is_ok (api_informRepayment t wallet amount hash) = true;
  online_open : forall t wallet o hash, is_ok (api_informOpen t wallet o hash) = true;
  online_storage : forall t, set_item_ok t = true;
}.

Definition without {P} (i : string) (items : list (Pending P)) : list (Pending P) :=
  List.filter (fun r => negb (bool_decide (pd_id r = i))) items.

Lemma recover_repayment_online wallet entry w : Online ->
  exists w', run (recover_repayment wallet entry) w = (Ok tt, w') /\
    readAll (SLOT := repayment_slot) w' = without (pd_id entry) (readAll (SLOT := repayment_slot) w) /\
    readAll (SLOT := open_slot) w' = readAll (SLOT := open_slot) w /\
    repayment_requests (b_events w') = repayment_requests (b_events w) ++ [request_of entry] /\
    open_requests (b_events w') = open_requests (b_events w).
Proof.
  intros [Hr _ Hs]. unfold recover_repayment. rewrite proc_try_run, run_bind. unfold retry_inform, retryWithBackoff. cbn [retry_from].
  rewrite proc_try_run, run_await. unfold informRepayment at 1.
  pose proof (Hr (b_events w) (pd_walletAddress entry) (pd_payload entry) (pd_txHash entry)) as Hok.
  destruct (api_informRepayment _ _ _ _) as [data|e]; [|discriminate Hok]. cbn [fst snd].
  rewrite run_bind, run_await. unfold mbind at 1 2, M_bind, removePending, writeAll. rewrite Hs. cbn.
  eexists. split; [reflexivity|]. cbn. unfold repayment_requests, open_requests. rewrite !omap_app. cbn. rewrite !app_nil_r. done.
Qed.

Lemma recover_open_online wallet entry w : Online ->
  exists w', run (recover_open wallet entry) w = (Ok tt, w') /\
    readAll (SLOT := open_slot) w' = without (pd_id entry) (readAll (SLOT := open_slot) w) /\
    readAll (SLOT := repayment_slot) w' = readAll (SLOT := repayment_slot) w /\
    open_requests (b_events w') = open_requests (b_events w) ++ [request_of entry] /\
    repayment_requests (b_events w') = repayment_requests (b_events w).
Proof.
  intros [_ Ho Hs]. unfold recover_open, removePendingOpen, updatePendingOpen. rewrite proc_try_run, run_bind. unfold retry_inform, retryWithBackoff. cbn [retry_from].
  rewrite proc_try_run, run_await. unfold informOpen at 1.
  pose proof (Ho (b_events w) (pd_walletAddress entry) (pd_payload entry) (pd_txHash entry)) as Hok.
  destruct (api_informOpen _ _ _ _) as [[]|e]; [|discriminate Hok]. cbn [fst snd].
  rewrite run_bind, run_await. unfold mbind at 1 2, M_bind, removePending, writeAll. rewrite Hs. cbn.
  eexists. split; [reflexivity|]. cbn. unfold repayment_requests, open_requests. rewrite !omap_app. cbn. rewrite !app_nil_r. done.
Qed.

(** One entry after the other: each is asked for once and taken out, and the other
    queue stays as it is. *)
Lemma each_online {P Q} `{SLOT : Slot P} `{OTHER : Slot Q} (f : Pending P -> proc Browser unit)
    (mine : list browser_event -> list (string * P * option string)) (theirs : list browser_event -> list (string * Q * option string)) xs w :
  (forall x w, exists w', run (f x) w = (Ok tt, w') /\ readAll (SLOT := SLOT) w' = without (pd_id x) (readAll (SLOT := SLOT) w) /\
    readAll (SLOT := OTHER) w' = readAll (SLOT := OTHER) w /\ mine (b_events w') = mine (b_events w) ++ [request_of x] /\
    theirs (b_events w') = theirs (b_events w)) ->
  exists w', run (each f xs) w = (Ok tt, w') /\
    (forall r, r ∈ readAll (SLOT := SLOT) w' -> r ∈ readAll (SLOT := SLOT) w /\ pd_id r ∉ pd_id <$> xs) /\
    readAll (SLOT := OTHER) w' = readAll (SLOT := OTHER) w /\ mine (b_events w') = mine (b_events w) ++ map request_of xs /\
    theirs (b_events w') = theirs (b_events w).
Proof.
  intros Hf. revert w. induction xs as [|x xs IH]; intros w; cbn [each].
  - exists w. split_and!; [done| |done|by rewrite app_nil_r|done]. intros r Hr. split; [done|]. apply not_elem_of_nil.
  - destruct (Hf x w) as (w1 & E1 & Hr1 & Ho1 & Hm1 & Ht1). destruct (IH w1) as (w2 & E2 & Hr2 & Ho2 & Hm2 & Ht2).
    exists w2. rewrite run_bind, E1. split_and!; [done| |congruence| |congruence].
    + intros r Hr. destruct (Hr2 r Hr) as [Hin Hid]. rewrite Hr1 in Hin.
      apply list_elem_of_In, filter_In in Hin as [Hin Hne]. split; [by apply list_elem_of_In|].
      rewrite fmap_cons. apply not_elem_of_cons. split; [|done].
      apply negb_true_iff, bool_decide_eq_false_1 in Hne. done.
    + rewrite Hm2, Hm1, <- app_assoc. done.
Qed.

(** Nothing of the wallet is left when all its entries are out. *)
Lemma none_pending {P} `{SLOT : Slot P} wallet w w' :
  (forall r, r ∈ readAll w' -> r ∈ readAll w /\ pd_id r ∉ pd_id <$> by_age (getPendingForWallet wallet w)) ->
  getPendingForWallet wallet w' = [].
Proof.
  intros H. destruct (getPendingForWallet wallet w') as [|r l] eqn:E; [done|exfalso].
  assert (Hr : r ∈ getPendingForWallet wallet w') by (rewrite E; left).
  unfold getPendingForWallet in Hr. apply list_elem_of_In, filter_In in Hr as [Hr Hw]. apply list_elem_of_In in Hr.
  destruct (H r Hr) as [Hin Hid]. apply Hid, list_elem_of_fmap_2. unfold by_age. rewrite sort_le_perm.
  apply list_elem_of_In, filter_In. split; [by apply list_elem_of_In|done].
Qed.

Lemma pending_same {P} `{SLOT : Slot P} wallet w w' : readAll w' = readAll w -> getPendingForWallet wallet w' = getPendingForWallet wallet w.
Proof. intros E. unfold getPendingForWallet. by rewrite E. Qed.

(** The entries younger than a week, at the time of the clock. *)
Definition young {P} (t : Z) (items : list (Pending P)) : list (Pending P) := List.filter (fun r => t - pd_createdAt r <? STALE_MS) items.

(** C24. A recovery with the backend at hand: it ends, asks the backend once for each
    repayment of the wallet younger than a week, oldest first, and once for each such
    opening, and leaves no entry of the wallet in either queue. *)
Theorem recovery_drains (wallet : string) (w : Browser) (Honline : Online) :
  let '(r, w') := run (recover wallet) w in
  r = Ok tt /\
  getPendingForWallet (SLOT := repayment_slot) wallet w' = [] /\ getPendingForWallet (SLOT := open_slot) wallet w' = [] /\
  exists t t', 
    repayment_requests (b_events w') = repayment_requests (b_events w) ++
      map request_of (by_age (List.filter (fun r => bool_decide (normalizeWalletAddress (Some (pd_walletAddress r)) None
        = Some (default wallet (normalizeWalletAddress (Some wallet) None)))) (young t (readAll (SLOT := repayment_slot) w)))) /\
    open_requests (b_events w') = open_requests (b_events w) ++
      map request_of (by_age (List.filter (fun r => bool_decide (normalizeWalletAddress (Some (pd_walletAddress r)) None
        = Some (default wallet (normalizeWalletAddress (Some wallet) None)))) (young t' (readAll (SLOT := open_slot) w)))).
Proof.
  unfold recover, clearStaleLoanOpens, getPendingOpensForWallet, PendingRepayment, PendingLoanOpen. rewrite run_bind, run_await. unfold mbind at 1, M_bind.
  set (w1 := snd (clearStale (SLOT := repayment_slot) w)).
  assert (E : clearStale (SLOT := repayment_slot) w = (Ok tt, w1)) by done. rewrite E. cbn [gets].
  assert (H1 : readAll (SLOT := repayment_slot) w1 = young (date_now (b_events w)) (readAll (SLOT := repayment_slot) w) /\
    readAll (SLOT := open_slot) w1 = readAll (SLOT := open_slot) w /\ b_events w1 = b_events w ++ [ENow (date_now (b_events w))]).
  { unfold w1, clearStale, now, mbind, M_bind, writeAll. cbn. by rewrite (online_storage Honline). }
  destruct H1 as (Hr1 & Ho1 & He1). rewrite run_bind.
  destruct (each_online (SLOT := repayment_slot) (OTHER := open_slot) (recover_repayment wallet) repayment_requests open_requests
    (by_age (getPendingForWallet (SLOT := repayment_slot) wallet w1)) w1) as (w2 & E2 & Hr2 & Ho2 & Hm2 & Ht2).
  { intros x w0. by apply recover_repayment_online. }
  rewrite E2, run_bind, run_await. unfold mbind at 1, M_bind.
  set (w3 := snd (clearStale (SLOT := open_slot) w2)).
  assert (E' : clearStale (SLOT := open_slot) w2 = (Ok tt, w3)) by done. rewrite E'. cbn [gets].
  assert (H3 : readAll (SLOT := open_slot) w3 = young (date_now (b_events w2)) (readAll (SLOT := open_slot) w2) /\
    readAll (SLOT := repayment_slot) w3 = readAll (SLOT := repayment_slot) w2 /\ b_events w3 = b_events w2 ++ [ENow (date_now (b_events w2))]).
  { unfold w3, clearStale, now, mbind, M_bind, writeAll. cbn. by rewrite (online_storage Honline). }
  destruct H3 as (Ho3 & Hr3 & He3).
  destruct (each_online (SLOT := open_slot) (OTHER := repayment_slot) (recover_open wallet) open_requests repayment_requests
    (by_age (getPendingForWallet (SLOT := open_slot) wallet w3)) w3) as (w4 & E4 & Ho4 & Hr4 & Hm4 & Ht4).
  { intros x w0. by apply recover_open_online. }
  rewrite E4. assert (Hsilent : forall t u, repayment_requests (t ++ [ENow u]) = repayment_requests t /\ open_requests (t ++ [ENow u]) = open_requests t).
  { intros t u. unfold repayment_requests, open_requests. rewrite !omap_app. cbn. by rewrite !app_nil_r. }
  split_and!; [done| |by apply none_pending with (w := w3)|].
  - rewrite (pending_same wallet w2) by congruence. by apply none_pending with (w := w1).
  - exists (date_now (b_events w)), (date_now (b_events w2)). split.
    + rewrite Ht4, He3, (proj1 (Hsilent _ _)), Hm2, He1, (proj1 (Hsilent _ _)). unfold getPendingForWallet. by rewrite Hr1.
    + rewrite Hm4, He3, (proj2 (Hsilent _ _)), Ht2, He1, (proj2 (Hsilent _ _)). unfold getPendingForWallet. by rewrite Ho3, Ho2, Ho1.
Qed.
End Properties.

(** ** A concrete browser *)

(** A backend that knows no loan before the opening is informed ([strict]), or that
    knows them all. *)
Definition opening_informed (t : list browser_event) : bool :=
  existsb (fun e => match e with EInformOpen _ _ _ (Ok _) => true | _ => false end) t.

Definition sample_browser (strict : bool) : BrowserOutside := {|
  date_now t := Z.of_nat (length t);
  random_id t := String_of_int (Z.of_nat (length t));
  set_item_ok _ := true;
  api_informRepayment t _ _ _ :=
    if negb strict || opening_informed t then Ok {| ans_score := None; ans_xp := None; ans_newAchievements := []; ans_gain := None |}
    else Throw (HttpException 404 "No open loan");
  api_informOpen _ _ _ _ := Ok tt |}.

Definition empty_browser : Browser := {| b_repayments := NoItem; b_opens := NoItem; b_events := [] |}.

Lemma empty_account : account empty_browser.
Proof. split; (constructor; [by intros r ?%elem_of_nil|by intros a ?%elem_of_nil]). Qed.

Definition wallet_a : string := "0x00000000000000000000000000000000000000aa".

(** Two handlers: one informs the backend of a repayment while the other recovers. *)
Definition two_handlers : list page_request := [InformRepaid wallet_a "5" (Some "tx1"%string) false; RecoverWallet wallet_a].

Lemma nothing_forgotten_witness :
  account empty_browser /\
  let c' := run_schedule [0; 1; 1; 0]%nat (serve_page (OUT := sample_browser true) <$> two_handlers, empty_browser) in
  length (readAll (SLOT := repayment_slot) (snd c')) = 1%nat /\
  forall a, EAddedRepayment a true ∈ b_events (snd c') ->
    (exists r, r ∈ readAll (SLOT := repayment_slot) (snd c') /\ contents r = contents a) \/
    expired (b_events (snd c')) a \/
    exists b saved, EAddedRepayment b saved ∈ b_events (snd c') /\ pd_id b = pd_id a /\ settled (b_events (snd c')) b.
Proof.
  split; [apply empty_account|]. split; [vm_compute; reflexivity|].
  exact (proj1 (proj2 (nothing_forgotten (OUT := sample_browser true) two_handlers empty_browser _ empty_account
    (run_schedule_steps [0; 1; 1; 0]%nat (serve_page (OUT := sample_browser true) <$> two_handlers, empty_browser))))).
Defined.

(** Two pages of the browser: one reads the queue to drop what is stale, the other
    puts a repayment in and saves it, the first writes what it has read. The entry is
    gone, although the backend was asked nothing and no entry is a week old. *)
Definition two_pages : pool Browser unit :=
  run_schedule [0; 0; 1; 1; 1; 1; 0]%nat
    ([clearStale_steps (OUT := sample_browser true) (SLOT := repayment_slot);
      (_ ← addPending_steps (OUT := sample_browser true) (SLOT := repayment_slot) wallet_a "5"%string (Some "tx1"%string); Return tt)],
     empty_browser).

Theorem lost_between_pages :
  fst two_pages = [Return tt; Return tt] /\ readAll (SLOT := repayment_slot) (snd two_pages) = [] /\
  exists a, EAddedRepayment a true ∈ b_events (snd two_pages) /\ ~ settled (b_events (snd two_pages)) a /\ ~ expired (b_events (snd two_pages)) a.
Proof.
  split; [vm_compute; reflexivity|]. split; [vm_compute; reflexivity|].
  assert (E : exists ms i ms' a, b_events (snd two_pages) = [ENow ms; ERandom i; ENow ms'; EAddedRepayment a true] /\
    ms - pd_createdAt a < STALE_MS /\ ms' - pd_createdAt a < STALE_MS)
    by (eexists _, _, _, _; split; [vm_compute; reflexivity|by vm_compute]).
  destruct E as (ms & i & ms' & a & -> & H1 & H2). exists a. split_and!; [by repeat constructor|..].
  - intros (e & wallet & He & Hs & _). repeat (apply elem_of_cons in He as [->|He]; [discriminate Hs|]). by apply elem_of_nil in He.
  - intros (m & Hm & Hage). repeat (apply elem_of_cons in Hm as [Hm|Hm]; [try discriminate Hm; injection Hm as ->; lia|]). by apply elem_of_nil in Hm.
Qed.

(** A browser that was closed before the backend heard of a loan and its repayment. *)
Definition item_of {P} (i : string) (payload : P) (hash : string) : Pending P :=
  {| pd_id := i; pd_walletAddress := wallet_a; pd_payload := payload; pd_txHash := Some hash; pd_createdAt := 0;
     pd_attempts := 0; pd_lastAttemptAt := None |}.

Definition closed_browser : Browser := {|
  b_repayments := Items [item_of "r1" "5" "tx2"];
  b_opens := Items [item_of "o1" {| op_amountHuman := "5"; op_tenorDays := 14 |} "tx1"];
  b_events := [] |}.

Lemma sample_online : Online (OUT := sample_browser false).
Proof. by constructor. Qed.

Lemma recovery_drains_witness :
  Online (OUT := sample_browser false) /\
  getPendingForWallet (SLOT := repayment_slot) wallet_a closed_browser <> [] /\
  getPendingForWallet (SLOT := repayment_slot) wallet_a (snd (run (recover (OUT := sample_browser false) wallet_a) closed_browser)) = [].
Proof.
  split; [apply sample_online|]. split; [by vm_compute|].
  pose proof (recovery_drains (OUT := sample_browser false) wallet_a closed_browser sample_online) as H.
  destruct (run (recover (OUT := sample_browser false) wallet_a) closed_browser) as [r w']. exact (proj1 (proj2 H)).
Defined.

(** The recovery sends the repayments first. A backend that has not heard of the loan
    answers 404, which the recovery takes for a repayment already recorded: the entry
    goes, the opening is then informed, and the loan stays open. *)
Lemma early_repayment_dropped :
  let w' := snd (run (recover (OUT := sample_browser true) wallet_a) closed_browser) in
  readAll (SLOT := repayment_slot) w' = [] /\ readAll (SLOT := open_slot) w' = [] /\
  Forall (fun e => match e with EInformRepayment _ _ _ r => is_ok r = false | _ => True end) (b_events w') /\
  is_ok (api_informRepayment (BrowserOutside := sample_browser true) (b_events w') wallet_a "5" (Some "tx2"%string)) = true.
Proof.
  split; [vm_compute; reflexivity|]. split; [vm_compute; reflexivity|]. split; [|vm_compute; reflexivity].
  apply list.Forall_forall. intros e He.
  assert (H : forallb (fun e => match e with EInformRepayment _ _ _ r => negb (is_ok r) | _ => true end)
    (b_events (snd (run (recover (OUT := sample_browser true) wallet_a) closed_browser))) = true) by (vm_compute; reflexivity).
  rewrite forallb_forall in H. specialize (H e). apply list_elem_of_In in He. specialize (H He).
  destruct e; try done. by apply negb_true_iff in H.
Qed.
