(* ===== verification/Session.v ===== *)
(** * The session of the browser
      ([frontend/src/lib/auth.ts], [hooks/borrow/useRefreshAccessToken.ts],
      [stores/authStore.ts], and the calls of [lib/api.ts])

    An access token in the local storage, renewed silently or by a signature of the
    wallet, and the requests that carry it. Requests that need a renewal at the same
    time share one. *)

From stdpp Require Import base tactics list strings numbers.
From Stdlib Require Import Lia ZArith Ascii.
From S2P Require Import Prelude JsString JsNum Strkey Async PendingQueue.

Local Open Scope Z_scope.

(** ** The hook and its surroundings *)

Inductive WalletMode := lemon | farcaster | webapp | stellar | none_mode.

#[export] Instance WalletMode_eq_dec : EqDecision WalletMode.
Proof. solve_decision. Defined.

Definition mode_name (m : WalletMode) : string :=
  match m with
  | lemon => "lemon" | farcaster => "farcaster" | webapp => "webapp" | stellar => "stellar" | none_mode => "none"
  end.

(** What the hook closes over: the wallets of the page, its address. *)
Record Hook := {
  mode : WalletMode;
  primaryWallet : option string;
  stellarLoading : bool;
  wagmiAddress : option string;
  wagmiChainId : option Z;
  wagmiConnected : bool;
  page_host : string;
  page_origin : string;
  lemonChainId : Z;
}.

(** An answer: its status, and its body, which is JSON or is not. *)
Definition http (A : Type) : Type := Z * result A.

(** A wallet that is missing is [undefined]. *)
Record RefreshData := { rd_wallet : option string; rd_accessToken : string }.
Record LemonData := { ld_wallet : string; ld_signature : string; ld_message : string; ld_claims : bool }.

Inductive session_event :=
  | SRefresh (token : string) (r : result (http RefreshData))
  | SNonce (r : result (http string))
  | SLemon (nonce : string) (chainId : Z) (r : result (option LemonData))
  | SSign (address message : string) (r : result string)
  | SVerify (stellar_route : bool) (wallet signature message nonce : string) (r : result (http string))
  | SProfile (wallet : string)
  | SFetch (token : option string) (r : result Z)
  | SToast (cancelled : bool).

(** The two keys of the storage, the token of the store, and what went on. *)
Record SessionWorld := {
  s_accessToken : option string;
  s_tokenWallet : option string;
  s_store : option string;
  s_events : list session_event;
}.

Definition s_log (e : session_event) (w : SessionWorld) : SessionWorld :=
  {| s_accessToken := s_accessToken w; s_tokenWallet := s_tokenWallet w; s_store := s_store w; s_events := s_events w ++ [e] |}.

(** The backend, the wallets and the clock. [fetch_status] answers the request itself:
    its status, or a network error; [can_store] tells whether a write to the storage
    succeeds (its errors are ignored); reading and removing do. *)
Class SessionOutside := {
  auth_refresh : list session_event -> string -> result (http RefreshData);
  auth_nonce : list session_event -> result (http string);
  lemonAuthenticate : list session_event -> string -> Z -> result (option LemonData);
  signMessage : list session_event -> string -> string -> result string;
  auth_verify : list session_event -> bool -> string -> string -> string -> string -> result (http string);
  fetch_status : list session_event -> option string -> result Z;
  now_iso : list session_event -> string;
  can_store : list session_event -> bool;
  is_rejection : exn -> bool;
}.

Section Session.
  Context `{OUT : SessionOutside}.

Definition call {A} (f : list session_event -> A) (e : A -> session_event) : M SessionWorld A := fun w =>
  let r := f (s_events w) in (Ok r, s_log (e r) w).

(** A call that may throw. *)
Definition call_result {A} (f : list session_event -> result A) (e : result A -> session_event) : M SessionWorld A := fun w =>
  let r := f (s_events w) in (r, s_log (e r) w).

(** [response.ok] *)
Definition ok_status (status : Z) : bool := (200 <=? status) && (status <? 300).

(** ** The stores *)

Definition has_text (s : option string) : bool := match s with Some t => negb (bool_decide (t = ""%string)) | None => false end.

(** An empty token is removed from the storage. *)
Definition setAccessToken (token : option string) : M SessionWorld unit := modify (fun w =>
  {| s_accessToken := if has_text token then if can_store (s_events w) then token else s_accessToken w else None;
     s_tokenWallet := s_tokenWallet w; s_store := token; s_events := s_events w |}).

Definition set_tokenWallet (wallet : string) : M SessionWorld unit := modify (fun w =>
  {| s_accessToken := s_accessToken w; s_tokenWallet := if can_store (s_events w) then Some wallet else s_tokenWallet w;
     s_store := s_store w; s_events := s_events w |}).

(** [setAccessToken(null)] and both keys removed. *)
Definition forget_session : M SessionWorld unit := modify (fun w =>
  {| s_accessToken := None; s_tokenWallet := None; s_store := None; s_events := s_events w |}).

(** ** Renewal *)

Definition newline : string := String (chr 10) "".

Definition buildSiweMessage (h : Hook) (address : string) (chainId : Z) (nonce issuedAt : string) : string :=
  page_host h +:+ " wants you to sign in with your Ethereum account:" +:+ newline +:+ address +:+ newline +:+ newline +:+
  "Sign in to Lendoor" +:+ newline +:+ newline +:+ "URI: " +:+ page_origin h +:+ newline +:+ "Version: 1" +:+ newline +:+
  "Chain ID: " +:+ String_of_int chainId +:+ newline +:+ "Nonce: " +:+ nonce +:+ newline +:+ "Issued At: " +:+ issuedAt.

Definition buildStellarAuthMessage (h : Hook) (address nonce issuedAt : string) : string :=
  page_host h +:+ " wants you to sign in with your Stellar account:" +:+ newline +:+ address +:+ newline +:+ newline +:+
  "Sign in to Lendoor" +:+ newline +:+ newline +:+ "URI: " +:+ page_origin h +:+ newline +:+ "Version: 1" +:+ newline +:+
  "Nonce: " +:+ nonce +:+ newline +:+ "Issued At: " +:+ issuedAt.

(** The wallet the session has to belong to. *)
Definition connectedWallet (h : Hook) : option string :=
  match mode h with stellar => primaryWallet h | lemon => None | _ => wagmiAddress h end.

Definition bound_to (h : Hook) (wallet : option string) (connected : string) : bool :=
  match normalizeWalletAddress wallet (Some (mode_name (mode h))), normalizeWalletAddress (Some connected) (Some (mode_name (mode h))) with
  | Some refreshed, Some current => bool_decide (refreshed = current)
  | _, _ => false
  end.

(** The silent renewal; [None] when the backend refuses. *)
Definition silent_refresh (h : Hook) (currentToken : string) : proc SessionWorld (option string) :=
  res ← await (call_result (fun t => auth_refresh t currentToken) (SRefresh currentToken));
  if ok_status (fst res) then
    data ← await (lift (snd res));
    let connected := connectedWallet h in
    if negb (bool_decide (mode h = lemon)) && negb (has_text connected) && negb (bool_decide (mode h = stellar) && stellarLoading h) then
      await (_ ← forget_session; throw (PlainError "Stored session cannot be bound to a connected wallet"))
    else if has_text connected && negb (bound_to h (rd_wallet data) (default "" connected)) then
      await (_ ← forget_session; throw (PlainError "Stored session wallet does not match"))
    else
      let wallet := default "undefined" (rd_wallet data) in
      await (_ ← setAccessToken (Some (rd_accessToken data));
             _ ← set_tokenWallet (if bool_decide (mode h = stellar) then wallet else toLowerCase wallet);
             mret (Some (rd_accessToken data)))
  else Return None.

Definition fetch_nonce : proc SessionWorld string :=
  nonceRes ← await (call_result auth_nonce SNonce);
  if ok_status (fst nonceRes) then await (lift (snd nonceRes)) else Raise (PlainError "Error al pedir nonce").

(** The signature checked by the backend, and the token it gives. *)
Definition verify_signature (stellar_route : bool) (wallet signature message nonce storedWallet : string) : proc SessionWorld string :=
  verifyRes ← await (call_result (fun t => auth_verify t stellar_route wallet signature message nonce)
                                 (SVerify stellar_route wallet signature message nonce));
  if ok_status (fst verifyRes) then
    token ← await (lift (snd verifyRes));
    await (_ ← setAccessToken (Some token); _ ← set_tokenWallet storedWallet; mret token)
  else Raise (PlainError "Error /auth/verify").

Definition lemon_session (h : Hook) : proc SessionWorld (option string) :=
  nonce ← fetch_nonce;
  res ← await (call_result (fun t => lemonAuthenticate t nonce (lemonChainId h)) (SLemon nonce (lemonChainId h)));
  match res with
  | None => Raise (PlainError "Lemon SIWE")
  | Some d =>
      token ← verify_signature false (ld_wallet d) (ld_signature d) (ld_message d) nonce (toLowerCase (ld_wallet d));
      _ ← (if ld_claims d then await (modify (s_log (SProfile (toLowerCase (ld_wallet d))))) else Return tt);
      Return (Some token)
  end.

Definition sign (address message : string) : proc SessionWorld string :=
  await (call_result (fun t => signMessage t address message) (SSign address message)).

Definition issued_at : proc SessionWorld string := await (gets (fun w => now_iso (s_events w))).

Definition stellar_session (h : Hook) : proc SessionWorld (option string) :=
  if stellarLoading h then Return None else
  if has_text (primaryWallet h) then
    let address := default "" (primaryWallet h) in
    nonce ← fetch_nonce;
    issuedAt ← issued_at;
    let message := buildStellarAuthMessage h address nonce issuedAt in
    signature ← sign address message;
    token ← verify_signature true address signature message nonce address;
    Return (Some token)
  else Return None.

Definition wagmi_session (h : Hook) : proc SessionWorld (option string) :=
  match wagmiAddress h, wagmiChainId h with
  | Some address, Some chainId =>
      if wagmiConnected h && negb (bool_decide (address = ""%string)) && negb (chainId =? 0) then
        nonce ← fetch_nonce;
        issuedAt ← issued_at;
        let message := buildSiweMessage h address chainId nonce issuedAt in
        signature ← sign address message;
        token ← verify_signature false address signature message nonce (toLowerCase address);
        Return (Some token)
      else Return None
  | _, _ => Return None
  end.

Definition full_session (h : Hook) : proc SessionWorld (option string) :=
  match mode h with lemon => lemon_session h | stellar => stellar_session h | _ => wagmi_session h end.

Definition refreshAccessToken (h : Hook) : proc SessionWorld (option string) :=
  proc_try (fun e => await (_ ← setAccessToken None; _ ← modify (s_log (SToast (is_rejection e))); mret None))
  (currentToken ← await (gets s_accessToken);
   silent ← match currentToken with
            | Some t => if bool_decide (t = ""%string) then Return None else proc_try (fun _ => Return None) (silent_refresh h t)
            | None => Return None
            end;
   match silent with Some t => Return (Some t) | None => full_session h end).

(** ** Requests *)

(** [{ res, authFailed }]: the status of the answer, [None] for a network error. *)
Record AuthFetchResult := { af_res : option Z; af_authFailed : bool }.

(** A network error is an answer of its own. *)
Definition doFetch (token : option string) : proc SessionWorld (option Z) :=
  r ← await (call (fun t => fetch_status t token) (SFetch token));
  Return (match r with Ok status => Some status | Throw _ => None end).

Section Request.
  (** the renewal, shared between the requests *)
  Context (refresh : proc SessionWorld (option string)).

Definition fetchWithAuthRetry : proc SessionWorld AuthFetchResult :=
  stored ← await (gets s_accessToken);
  first ← (if has_text stored then Return (stored, false) else fresh ← refresh; Return (fresh, true));
  let '(token, didInitialRefresh) := (first : option string * bool) in
  if negb (has_text token) then
    res ← doFetch None; Return {| af_res := res; af_authFailed := false |}
  else
  res ← doFetch token;
  match res with
  | None => Return {| af_res := None; af_authFailed := false |}
  | Some status =>
      if negb (status =? 401) then Return {| af_res := res; af_authFailed := false |}
      else if didInitialRefresh then Return {| af_res := res; af_authFailed := true |}
      else
        fresh ← refresh;
        if negb (has_text fresh) then Return {| af_res := res; af_authFailed := false |}
        else
        res2 ← doFetch fresh;
        match res2 with
        | None => Return {| af_res := None; af_authFailed := false |}
        | Some status2 => Return {| af_res := res2; af_authFailed := status2 =? 401 |}
        end
  end.

(** The errors of the API client: [AuthError], [NetworkError] and [ApiError]. *)
Definition authed_call : proc SessionWorld Z :=
  r ← fetchWithAuthRetry;
  if af_authFailed r then Raise (UnauthorizedException "AuthError")
  else match af_res r with
       | None => Raise (PlainError "Network error")
       | Some status => if ok_status status then Return status else Raise (HttpException status "")
       end.
End Request.
End Session.

(** ** The shared renewal ([deduplicatedRefresh])

    The variable [inflightRefresh] of the module, the renewals started (an entry is
    the outcome of the promise, once it has one), and the promise each call got. *)

Record Shared := { inflightRefresh : option nat; renewals : list (option (option string)); calls : list nat }.

Definition no_renewal : Shared := {| inflightRefresh := None; renewals := []; calls := [] |}.

Definition deduplicatedRefresh (s : Shared) : Shared :=
  match inflightRefresh s with
  | Some p => {| inflightRefresh := Some p; renewals := renewals s; calls := calls s ++ [p] |}
  | None => let p := length (renewals s) in
            {| inflightRefresh := Some p; renewals := renewals s ++ [None]; calls := calls s ++ [p] |}
  end.

(** [.finally(...)]: the promise ends with what the renewal answered. *)
Definition renewal_ends (p : nat) (answer : option string) (s : Shared) : Shared :=
  {| inflightRefresh := None; renewals := <[p := Some answer]> (renewals s); calls := calls s |}.

(** A request asks for a renewal, or a renewal that is running ends. *)
Inductive shared_step : Shared -> Shared -> Prop :=
  | shared_call s : shared_step s (deduplicatedRefresh s)
  | shared_end s p answer : renewals s !! p = Some None -> shared_step s (renewal_ends p answer s).
