(* ===== verification/SessionProps.v ===== *)
(** * The session: where a token comes from, and what a request does with it

    Under any interleaving of renewals and requests of the page a token comes from
    the backend, for the connected wallet; what one request does on every branch; and
    the shared renewal. *)

From stdpp Require Import base tactics list strings numbers.
From Stdlib Require Import Lia ZArith Ascii.
From S2P Require Import Prelude JsString JsNum Strkey Async PendingQueue Session.

Local Open Scope Z_scope.

(** ** Where a token comes from *)

(** The wallet of a silent renewal is the connected one; the mini-app of Lemon has
    no connected wallet, nor has a page whose Stellar wallet is loading. *)
Definition bound_session (h : Hook) (wallet : option string) : Prop :=
  mode h = lemon \/
  (mode h = stellar /\ stellarLoading h = true /\ has_text (connectedWallet h) = false) \/
  bound_to h wallet (default "" (connectedWallet h)) = true.

(** The message the wallet of the page signs for a nonce. *)
Definition auth_message (h : Hook) (address nonce issuedAt message : string) : Prop :=
  match mode h with
  | stellar => message = buildStellarAuthMessage h address nonce issuedAt
  | lemon => False
  | _ => exists chainId, wagmiChainId h = Some chainId /\ message = buildSiweMessage h address chainId nonce issuedAt
  end.

(** The backend gave the token to the page of [h]. *)
Inductive issued (h : Hook) (log : list session_event) (token : string) : Prop :=
  | by_refresh current status data :
      SRefresh current (Ok (status, Ok data)) ∈ log -> ok_status status = true -> rd_accessToken data = token ->
      bound_session h (rd_wallet data) -> issued h log token
  | by_lemon nonce d st st' :
      mode h = lemon ->
      SNonce (Ok (st, Ok nonce)) ∈ log -> ok_status st = true ->
      SLemon nonce (lemonChainId h) (Ok (Some d)) ∈ log ->
      SVerify false (ld_wallet d) (ld_signature d) (ld_message d) nonce (Ok (st', Ok token)) ∈ log -> ok_status st' = true ->
      issued h log token
  | by_signature address nonce issuedAt message signature st st' :
      connectedWallet h = Some address -> auth_message h address nonce issuedAt message ->
      SNonce (Ok (st, Ok nonce)) ∈ log -> ok_status st = true ->
      SSign address message (Ok signature) ∈ log ->
      SVerify (bool_decide (mode h = stellar)) address signature message nonce (Ok (st', Ok token)) ∈ log -> ok_status st' = true ->
      issued h log token.

Section Tokens.
  Context `{OUT : SessionOutside}.
  Context (hooks : list Hook) (given : list string).

(** The page had the token, or the backend gave it. *)
Definition known_token (log : list session_event) (token : string) : Prop :=
  token ∈ given \/ exists h, h ∈ hooks /\ issued h log token.

Definition session_ok (w : SessionWorld) : Prop :=
  (forall t, s_store w = Some t -> known_token (s_events w) t) /\
  (forall t, s_accessToken w = Some t -> known_token (s_events w) t) /\
  (forall t r, SFetch (Some t) r ∈ s_events w -> known_token (s_events w) t).

Definition later (w w' : SessionWorld) : Prop := s_events w `prefix_of` s_events w'.

#[export] Instance later_refl : Reflexive later.
Proof. intros w. by unfold later. Qed.

#[export] Instance later_trans : Transitive later.
Proof. intros w1 w2 w3. unfold later. apply transitivity. Qed.

Lemma later_log e w : later w (s_log e w).
Proof. apply prefix_app_r. reflexivity. Qed.

Lemma issued_prefix h log log' t : log `prefix_of` log' -> issued h log t -> issued h log' t.
Proof.
  intros [l ->]. assert (Hin : forall e, e ∈ log -> e ∈ log ++ l) by (intros e ?; apply elem_of_app; by left).
  intros []; [eapply by_refresh|eapply by_lemon|eapply by_signature]; eauto.
Qed.

Lemma known_prefix_token log log' t : log `prefix_of` log' -> known_token log t -> known_token log' t.
Proof. intros Hp [?|(h & ? & ?)]; [by left|right; exists h; eauto using issued_prefix]. Qed.

Definition told (P : list session_event -> Prop) : Prop := forall log log', log `prefix_of` log' -> P log -> P log'.

(** What goes on in a page keeps its tokens known. *)
Definition tokens_safe {A} (Q : list session_event -> A -> Prop) (w0 : SessionWorld) (p : proc SessionWorld A) : Prop :=
  since session_ok later (fun w r => match r with Ok a => Q (s_events w) a | Throw _ => True end) w0 p.

Lemma tokens_bind {A B} (P : list session_event -> A -> Prop) (Q : list session_event -> B -> Prop) w0 (k : A -> proc SessionWorld B) p :
  tokens_safe P w0 p -> (forall w a, later w0 w -> P (s_events w) a -> tokens_safe Q w (k a)) -> tokens_safe Q w0 (p ≫= k).
Proof.
  intros Hp Hk. apply (since_bind session_ok later). eapply (since_mono session_ok later); [|exact Hp]. intros w [a|e] Hw Ha; [by apply Hk|done].
Qed.

(** A call that is no request of the page, and what its event tells. *)
Lemma tokens_call {A} (f : list session_event -> result A) e w0 :
  (forall r t s, e r <> SFetch (Some t) s) -> tokens_safe (fun log a => e (Ok a) ∈ log) w0 (await (call_result f e)).
Proof.
  intros He. apply (since_await session_ok later). intros w (Hs & Ha & Hf) _. unfold call_result. cbn [fst snd].
  assert (Hp := later_log (e (f (s_events w))) w). split_and!; [|done|].
  - split_and!; cbn; [intros t Ht; eapply known_prefix_token; [exact Hp|eauto]..|].
    intros t r Hin. eapply known_prefix_token; [exact Hp|]. apply elem_of_app in Hin as [?|Hin]; [by eapply Hf|].
    apply list_elem_of_singleton in Hin. by destruct (He (f (s_events w)) t r).
  - destruct (f (s_events w)); [|done]. cbn. apply elem_of_app. right. by apply list_elem_of_singleton.
Qed.

(** A step that leaves the events. *)
Lemma tokens_step {A} (m : M SessionWorld A) (Q : list session_event -> A -> Prop) w0 :
  (forall w, session_ok w -> later w0 w -> s_events (snd (m w)) = s_events w /\
     (forall t, s_store (snd (m w)) = Some t -> known_token (s_events w) t) /\
     (forall t, s_accessToken (snd (m w)) = Some t -> known_token (s_events w) t) /\
     match fst (m w) with Ok a => Q (s_events w) a | Throw _ => True end) ->
  tokens_safe Q w0 (await m).
Proof.
  intros H. apply (since_await session_ok later). intros w Hw Hl. destruct (H w Hw Hl) as (E & Hs & Ha & HQ). destruct Hw as (_ & _ & Hf).
  unfold session_ok, later. rewrite E. by split_and!.
Qed.

Lemma tokens_mono {A} (P Q : list session_event -> A -> Prop) w0 (p : proc SessionWorld A) :
  (forall w a, later w0 w -> P (s_events w) a -> Q (s_events w) a) -> tokens_safe P w0 p -> tokens_safe Q w0 p.
Proof. intros H. apply (since_mono session_ok later). intros w [a|e] Hw; [by apply H|done]. Qed.

Lemma tokens_return {A} (Q : list session_event -> A -> Prop) w0 a : Q (s_events w0) a -> tokens_safe Q w0 (Return a).
Proof. done. Qed.

Lemma tokens_result {A} (r : result A) w0 : tokens_safe (fun _ a => r = Ok a) w0 (await (lift r)).
Proof. apply tokens_step. intros w (? & ? & ?) _. unfold lift. cbn. split_and!; [done..|]. by destruct r. Qed.

Lemma tokens_try {A} (Q : list session_event -> A -> Prop) w0 h (p : proc SessionWorld A) :
  tokens_safe Q w0 p -> (forall w e, later w0 w -> tokens_safe Q w (h e)) -> tokens_safe Q w0 (proc_try h p).
Proof. intros Hp Hh. apply (since_try session_ok later). eapply (since_mono session_ok later); [|exact Hp]. intros w [a|e] Hw Ha; [done|by apply Hh]. Qed.

(** ** The renewals *)

Context (h : Hook).
Hypothesis (Hh : h ∈ hooks).

(** The backend's token is stored as it is answered. *)
Lemma tokens_store {B} (b : B) token wallet w0 : issued h (s_events w0) token ->
  tokens_safe (fun log a => a = b /\ issued h log token) w0
    (await (_ ← setAccessToken (Some token); _ ← set_tokenWallet wallet; mret b)).
Proof.
  intros Hi. apply tokens_step. intros w (Hs & Ha & _) Hl. apply (issued_prefix _ _ _ _ Hl) in Hi.
  assert (Hk : known_token (s_events w) token) by (right; by exists h).
  unfold setAccessToken, set_tokenWallet, modify, mbind, M_bind. cbn -[has_text]. split_and!; [done|by intros ? [= <-]| |done..].
  intros t. destruct (has_text _); [|done]. destruct can_store; [by intros [= <-]|apply Ha].
Qed.

Lemma tokens_forget e w0 {A} (Q : list session_event -> A -> Prop) : tokens_safe Q w0 (await (_ ← forget_session; throw e)).
Proof. apply tokens_step. intros w _ _. by split_and!. Qed.

(** What a renewal answers. *)
Definition renewed (log : list session_event) (a : option string) : Prop := forall t, a = Some t -> issued h log t.

Lemma renewed_none w0 : tokens_safe renewed w0 (Return None).
Proof. by apply tokens_return. Qed.

Lemma silent_refresh_safe current w0 : tokens_safe renewed w0 (silent_refresh h current).
Proof.
  unfold silent_refresh. eapply tokens_bind; [by apply tokens_call|]. intros w1 [status body] _ Hin. cbn [fst snd] in *.
  destruct (ok_status status) eqn:Est; [|done].
  eapply tokens_bind; [apply tokens_result|]. intros w2 data Hl ->. cbn zeta.
  case_scrut; [apply tokens_forget|]. case_scrut; [apply tokens_forget|].
  eapply tokens_mono; [|apply tokens_store, (by_refresh h _ _ current status data); [|done..|]].
  - intros w3 a _ [-> Hi] t [= <-]. exact Hi.
  - eapply elem_of_prefix; [exact Hin|exact Hl].
  - unfold bound_session. destruct (decide (mode h = lemon)) as [|Hn]; [by left|right].
    rewrite (bool_decide_false _ Hn) in *.
    destruct (has_text (connectedWallet h)); [right|left]; cbn in *; bool_to_prop; intuition.
Qed.

Lemma fetch_nonce_safe w0 :
  tokens_safe (fun log nonce => exists st, SNonce (Ok (st, Ok nonce)) ∈ log /\ ok_status st = true) w0 fetch_nonce.
Proof.
  unfold fetch_nonce. eapply tokens_bind; [by apply tokens_call|]. intros w1 [st body] _ Hin. cbn [fst snd] in *.
  destruct (ok_status st) eqn:E; [|done]. eapply tokens_mono; [|apply tokens_result].
  intros w2 nonce Hl ->. exists st. split; [|done]. by eapply elem_of_prefix.
Qed.

Lemma verify_signature_safe route wallet signature message nonce stored w0 :
  (forall log t st, s_events w0 `prefix_of` log -> SVerify route wallet signature message nonce (Ok (st, Ok t)) ∈ log ->
     ok_status st = true -> issued h log t) ->
  tokens_safe (fun log t => issued h log t) w0 (verify_signature route wallet signature message nonce stored).
Proof.
  intros Hi. unfold verify_signature. eapply tokens_bind; [by apply tokens_call|]. intros w1 [st body] Hl Hin. cbn [fst snd] in *.
  destruct (ok_status st) eqn:E; [|done]. eapply tokens_bind; [apply tokens_result|]. intros w2 t Hl' ->.
  eapply tokens_mono; [|apply tokens_store, (Hi _ _ st)]; [|by etrans|by eapply elem_of_prefix|done].
  by intros w3 a _ [-> ?].
Qed.

Lemma lemon_session_safe w0 : mode h = lemon -> tokens_safe renewed w0 (lemon_session h).
Proof.
  intros Hm. unfold lemon_session. eapply tokens_bind; [apply fetch_nonce_safe|]. intros w1 nonce _ (st & Hn & Hst).
  eapply tokens_bind; [by apply tokens_call|]. intros w2 [d|] Hl2 Hd; [|done].
  eapply tokens_bind.
  { apply verify_signature_safe. intros log t st' Hl Hv Hst'.
    eapply by_lemon; [done| |exact Hst| |exact Hv|done]; (eapply elem_of_prefix; [eassumption|]); [by etrans|done]. }
  intros w3 t Hl3 Ht. eapply (tokens_bind (fun _ _ => True)).
  { destruct (ld_claims d); [|done]. apply since_await. intros w (Hs & Ha & Hf) _. cbn [fst snd modify].
    assert (Hp := later_log (SProfile (toLowerCase (ld_wallet d))) w). split_and!; [|done..].
    split_and!; cbn; [intros t' Ht'; eapply known_prefix_token; [exact Hp|eauto]..|].
    intros t' r Hin. eapply known_prefix_token; [exact Hp|]. apply elem_of_app in Hin as [?|Hin]; [by eapply Hf|].
    by apply list_elem_of_singleton in Hin. }
  intros w4 [] Hl4 _. apply tokens_return. intros t' [= <-]. by eapply issued_prefix.
Qed.

(** The nonce, the message over it, the signature and the token. *)
Lemma signed_session_safe route address stored build w0 :
  connectedWallet h = Some address -> route = bool_decide (mode h = stellar) ->
  (forall nonce issuedAt, auth_message h address nonce issuedAt (build nonce issuedAt)) ->
  tokens_safe renewed w0
    (nonce ← fetch_nonce; issuedAt ← issued_at; signature ← sign address (build nonce issuedAt);
     token ← verify_signature route address signature (build nonce issuedAt) nonce stored; Return (Some token)).
Proof.
  intros Hc -> Hb. eapply tokens_bind; [apply fetch_nonce_safe|]. intros w1 nonce _ (st & Hn & Hst).
  eapply (tokens_bind (fun _ _ => True)); [apply tokens_step; intros w (? & ? & ?) _; cbn; split_and!; try done|]. intros w2 issuedAt Hl2 _.
  eapply tokens_bind; [by apply tokens_call|]. intros w3 signature Hl3 Hsig. eapply tokens_bind.
  { apply verify_signature_safe. intros log t st' Hl Hv Hst'.
    eapply (by_signature h log t address nonce issuedAt _ signature); [exact Hc|apply Hb| |exact Hst| |exact Hv|done].
    - eapply elem_of_prefix; [exact Hn|]. etrans; [exact Hl2|]. by etrans.
    - eapply elem_of_prefix; [exact Hsig|exact Hl]. }
  intros w4 t _ Ht. apply tokens_return. by intros t' [= <-].
Qed.

Lemma full_session_safe w0 : tokens_safe renewed w0 (full_session h).
Proof.
  unfold full_session, stellar_session, wagmi_session. destruct (mode h) eqn:Em; [by apply lemon_session_safe|..|].
  1, 2, 4: destruct (wagmiAddress h) as [address|] eqn:Ea, (wagmiChainId h) as [chainId|] eqn:Ec; try apply renewed_none;
    case_scrut; [|apply renewed_none]; apply (signed_session_safe false address _ (buildSiweMessage h address chainId));
    [unfold connectedWallet|..|unfold auth_message]; rewrite ?Em; eauto.
  destruct (stellarLoading h); [apply renewed_none|]. destruct (has_text (primaryWallet h)) eqn:Ef; [|apply renewed_none].
  destruct (primaryWallet h) as [address|] eqn:Ea; [|done]. cbn.
  apply (signed_session_safe true address address (buildStellarAuthMessage h address)); [|by rewrite Em|].
  - unfold connectedWallet. by rewrite Em.
  - unfold auth_message. by rewrite Em.
Qed.

(** A failed renewal leaves no token. *)
Lemma refreshAccessToken_safe w0 : tokens_safe renewed w0 (refreshAccessToken h).
Proof.
  unfold refreshAccessToken. apply tokens_try.
  - eapply (tokens_bind (fun _ _ => True)); [apply tokens_step; intros w (? & ? & ?) _; by split_and!|]. intros w1 current _ _.
    eapply (tokens_bind renewed).
    { destruct current as [t|]; [|apply renewed_none]. case_bool_decide; [apply renewed_none|].
      apply tokens_try; [apply silent_refresh_safe|intros; apply renewed_none]. }
    intros w2 [t|] _ Ht; [by apply tokens_return|apply full_session_safe].
  - intros w e _. apply since_await. intros w1 (Hs & Ha & Hf) _.
    assert (Hp := later_log (SToast (is_rejection e)) w1). cbn. split_and!; [|done..].
    split_and!; cbn; [done..|]. intros t r Hin. eapply known_prefix_token; [exact Hp|].
    apply elem_of_app in Hin as [?|Hin]; [by eapply Hf|]. by apply list_elem_of_singleton in Hin.
Qed.
End Tokens.

(** ** The requests of a page *)

Section Requests.
  Context `{OUT : SessionOutside}.
  Context (hooks : list Hook) (given : list string) (h : Hook).
  Hypothesis (Hh : h ∈ hooks).

Lemma doFetch_safe token w0 : (forall t, token = Some t -> known_token hooks given (s_events w0) t) ->
  tokens_safe hooks given (fun _ _ => True) w0 (doFetch token).
Proof.
  intros Hk. unfold doFetch. eapply (tokens_bind _ _ (fun _ _ => True)); [|by intros; apply tokens_return].
  apply (since_await (session_ok _ _) later). intros w (Hs & Ha & Hf) Hl. unfold call. cbn [fst snd].
  assert (Hp := later_log (SFetch token (fetch_status (s_events w) token)) w). split_and!; [|done..].
  split_and!; cbn; [intros t' Ht'; eapply known_prefix_token; [exact Hp|eauto]..|].
  intros t r Hin. eapply known_prefix_token; [exact Hp|]. apply elem_of_app in Hin as [?|Hin]; [by eapply Hf|].
  apply list_elem_of_singleton in Hin as [= <- _]. eapply known_prefix_token; [exact Hl|]. by apply Hk.
Qed.

Lemma fetchWithAuthRetry_safe w0 :
  tokens_safe hooks given (fun _ _ => True) w0 (fetchWithAuthRetry (refreshAccessToken h)).
Proof.
  assert (Hr : forall w, tokens_safe hooks given (fun log a => forall t, a = Some t -> known_token hooks given log t) w (refreshAccessToken h)).
  { intros w. eapply tokens_mono; [|by apply (refreshAccessToken_safe hooks given)].
    intros w' a _ Ha t Ht. right. exists h. split; [done|by apply Ha]. }
  unfold fetchWithAuthRetry. eapply (tokens_bind _ _ (fun log a => forall t, a = Some t -> known_token hooks given log t)).
  { apply tokens_step. intros w (? & ? & ?) _. by split_and!. }
  intros w1 stored _ Hst. eapply (tokens_bind _ _ (fun log a => forall t, fst a = Some t -> known_token hooks given log t)).
  { destruct (has_text stored); [by apply tokens_return|]. eapply tokens_bind; [apply Hr|].
    intros w2 fresh _ Hf. by apply tokens_return. }
  intros w2 [token initial] _ Hk. cbn in Hk. case_scrut.
  { eapply tokens_bind; [by apply doFetch_safe|]. intros. by apply tokens_return. }
  eapply tokens_bind; [by apply doFetch_safe|]. intros w3 [status|] _ _; [|done].
  do 2 (case_scrut; [done|]). eapply tokens_bind; [apply Hr|]. intros w4 fresh _ Hf. case_scrut; [done|].
  eapply tokens_bind; [by apply doFetch_safe|]. intros w5 [status2|] _ _; done.
Qed.

Lemma authed_call_safe w0 : tokens_safe hooks given (fun _ _ => True) w0 (authed_call (refreshAccessToken h)).
Proof.
  unfold authed_call. eapply tokens_bind; [apply fetchWithAuthRetry_safe|]. intros w a _ _. case_scrut; [done|].
  destruct (af_res a); [|done]. by destruct (ok_status _).
Qed.
End Requests.

(** What goes on in a page: renewals and requests, of hooks of that page. *)
Inductive page_task `{OUT : SessionOutside} (hooks : list Hook) : proc SessionWorld unit -> Prop :=
  | renewal h : h ∈ hooks -> page_task hooks (_ ← refreshAccessToken h; Return tt)
  | request h : h ∈ hooks -> page_task hooks (_ ← authed_call (refreshAccessToken h); Return tt).

Lemma page_task_safe `{OUT : SessionOutside} hooks given p w0 :
  page_task hooks p -> since (session_ok hooks given) later (fun _ _ => True) w0 p.
Proof.
  assert (Hq : forall q w, tokens_safe hooks given (fun _ (_ : unit) => True) w q -> since (session_ok hooks given) later (fun _ _ => True) w q).
  { intros q w. by apply (since_mono (session_ok hooks given) later). }
  intros [h Hh|h Hh]; apply Hq.
  - eapply tokens_bind; [by apply refreshAccessToken_safe|]. intros. by apply tokens_return.
  - eapply tokens_bind; [by apply authed_call_safe|]. intros. by apply tokens_return.
Qed.

(** C26. Whatever renewals and requests of a page run interleaved, and whatever the backend,
    the wallets and the network answer: every token the store or the storage holds, and
    every token a request carried, was there when the page was loaded or was given by the
    backend to that page: in a silent renewal for the connected wallet, or for a signature
    of the connected wallet over a message with a nonce the backend had issued. While no
    wallet is connected the code renews without asking for one in the Lemon app and while
    the Stellar wallet loads; there a renewed token is bound to no wallet, and in the
    Lemon app the signature is that of the wallet the app answers. *)
Theorem session_authentic `{OUT : SessionOutside} hooks ps w ps' w' t :
  Forall (page_task hooks) ps -> s_events w = [] -> steps pool_step (ps, w) (ps', w') ->
  s_store w' = Some t \/ s_accessToken w' = Some t \/ (exists r, SFetch (Some t) r ∈ s_events w') ->
  s_store w = Some t \/ s_accessToken w = Some t \/ exists h, h ∈ hooks /\ issued h (s_events w') t.
Proof.
  intros Hps Hw Hsteps Ht.
  set (given := option_list (s_store w) ++ option_list (s_accessToken w)).
  assert (Hg : forall t, t ∈ given <-> s_store w = Some t \/ s_accessToken w = Some t).
  { intros u. unfold given. rewrite elem_of_app. destruct (s_store w), (s_accessToken w); cbn;
      rewrite ?list_elem_of_singleton, ?elem_of_nil; naive_solver. }
  destruct (since_pool (session_ok hooks given) later (fun _ _ => True) _ _ (fun _ _ _ _ H => H) Hsteps) as [(Hs & Ha & Hf) _].
  - eapply list.Forall_impl; [exact Hps|]. intros p. apply page_task_safe.
  - split_and!; [intros u Hu; left; apply Hg; auto..|]. intros u r Hin. cbn in Hin. rewrite Hw in Hin.
    by apply elem_of_nil in Hin.
  - assert (Hk : known_token hooks given (s_events w') t) by (destruct Ht as [?|[?|[r ?]]]; eauto).
    destruct Hk as [Hk|Hk]; [apply Hg in Hk; tauto|auto].
Qed.

(** ** One request *)

Definition fetched (e : session_event) : option (option string * result Z) :=
  match e with SFetch token r => Some (token, r) | _ => None end.

(** The requests sent, with the token they carried and what was answered. *)
Definition sent (w : SessionWorld) : list (option string * result Z) := omap fetched (s_events w).

Section Renewals.
  Context `{OUT : SessionOutside}.

(** A renewal sends no request of the page. *)
Definition same_sent (w w' : SessionWorld) : Prop := sent w' = sent w.

#[export] Instance same_sent_refl : Reflexive same_sent.
Proof. done. Qed.

#[export] Instance same_sent_trans : Transitive same_sent.
Proof. unfold same_sent. intros w1 w2 w3. congruence. Qed.

Definition quiet {A} (p : proc SessionWorld A) : Prop := safe (fun _ => True) same_sent (fun _ => True) p.

Lemma quiet_bind {A B} (k : A -> proc SessionWorld B) p : quiet p -> (forall a, quiet (k a)) -> quiet (p ≫= k).
Proof. intros Hp Hk. apply safe_bind. eapply safe_mono; [|exact Hp]. intros [a|e] _; [apply Hk|done]. Qed.

Lemma quiet_try {A} h (p : proc SessionWorld A) : quiet p -> (forall e, quiet (h e)) -> quiet (proc_try h p).
Proof. intros Hp Hk. apply safe_try. eapply safe_mono; [|exact Hp]. intros [a|e] _; [done|apply Hk]. Qed.

Lemma quiet_await {A} (m : M SessionWorld A) : (forall w, same_sent w (snd (m w))) -> quiet (await m).
Proof. intros H. apply safe_await. intros w _. by split_and!. Qed.

Lemma quiet_log e w : fetched e = None -> same_sent w (s_log e w).
Proof. intros He. unfold same_sent, sent. cbn. rewrite omap_app. cbn. by rewrite He, app_nil_r. Qed.

Lemma quiet_call {A} (f : list session_event -> result A) e : (forall r, fetched (e r) = None) -> quiet (await (call_result f e)).
Proof. intros H. apply quiet_await. intros w. by apply quiet_log. Qed.

Ltac quiet_step :=
  match goal with
  | |- quiet (_ ≫= _) => apply quiet_bind; [|intros]
  | |- quiet (proc_try _ _) => apply quiet_try; [|intros]
  | |- quiet (await (call_result _ _)) => apply quiet_call; done
  | |- quiet (await _) => apply quiet_await; by intros ?
  | |- quiet (Return _) => exact I
  | |- quiet (Raise _) => exact I
  | |- quiet (match ?x with _ => _ end) => destruct x
  end.

Lemma silent_refresh_quiet h t : quiet (silent_refresh h t).
Proof. unfold silent_refresh. cbn zeta. repeat quiet_step. Qed.

Lemma full_session_quiet h : quiet (full_session h).
Proof.
  unfold full_session, lemon_session, stellar_session, wagmi_session, verify_signature, fetch_nonce, sign, issued_at. cbn zeta.
  repeat quiet_step. apply quiet_await. intros w. by apply quiet_log.
Qed.

Lemma refreshAccessToken_quiet h : quiet (refreshAccessToken h).
Proof.
  unfold refreshAccessToken. apply quiet_try.
  - apply quiet_bind; [by apply quiet_await|]. intros current. apply quiet_bind.
    + repeat first [simple apply silent_refresh_quiet|quiet_step].
    + intros [t|]; [done|apply full_session_quiet].
  - intros e. apply quiet_await. intros w. cbn. etrans; [|by apply quiet_log]. done.
Qed.

(** It answers a token or none: its errors are shown, not thrown. *)
Lemma refreshAccessToken_answers h w :
  exists fresh w', run (refreshAccessToken h) w = (Ok fresh, w') /\ sent w' = sent w.
Proof.
  pose proof (safe_run _ _ _ _ w (refreshAccessToken_quiet h) Logic.I) as H.
  unfold refreshAccessToken in *. rewrite proc_try_run in *. destruct (run _ w) as [[a|e] w1].
  - exists a, w1. by destruct H as (_ & H & _).
  - rewrite run_await in *. cbn in *. eexists _, _. split; [done|]. by destruct H as (_ & H & _).
Qed.
End Renewals.

(** A network error is answered as none. *)
Definition answer_of (r : result Z) : option Z := match r with Ok status => Some status | Throw _ => None end.

Lemma doFetch_run `{OUT : SessionOutside} token w :
  exists r w', run (doFetch token) w = (Ok (answer_of r), w') /\ sent w' = sent w ++ [(token, r)].
Proof.
  unfold doFetch. rewrite run_await_bind. cbn. eexists _, _. split; [done|]. unfold sent. cbn. by rewrite omap_app.
Qed.

(** One request of the page: it always answers; it sends itself once, or twice when
    the first answer to the stored token was a 401 and the renewal gave a token, which
    the second carries; the answer is the last one's, and the session is said to have failed
    exactly when that is a 401 to a token renewed by this request (so never for a 403, a
    network error, or without a token). *)
Theorem request_correct `{OUT : SessionOutside} h w :
  exists a w' first rest,
    run (fetchWithAuthRetry (refreshAccessToken h)) w = (Ok a, w') /\ sent w' = sent w ++ first :: rest /\
    match rest with
    | [] => af_res a = answer_of (snd first) /\ (has_text (s_accessToken w) = true -> fst first = s_accessToken w) /\
            (af_authFailed a = true <-> has_text (s_accessToken w) = false /\ has_text (fst first) = true /\ snd first = Ok 401)
    | [(token, r)] => first = (s_accessToken w, Ok 401) /\ has_text (s_accessToken w) = true /\ has_text token = true /\
            af_res a = answer_of r /\ (af_authFailed a = true <-> r = Ok 401)
    | _ => False
    end.
Proof.
  unfold fetchWithAuthRetry. rewrite run_await_bind. cbn [gets]. destruct (has_text (s_accessToken w)) eqn:Es.
  - rewrite return_bind, Es. cbn [negb]. rewrite run_bind.
    destruct (doFetch_run (s_accessToken w) w) as (r & w1 & -> & S1). destruct r as [status|e]; cbn [answer_of].
    2: { eexists; exists w1, (s_accessToken w, Throw e), []. cbn. naive_solver. }
    destruct (Z.eqb_spec status 401) as [->|Hne]; cbn [negb].
    2: { eexists; exists w1, (s_accessToken w, Ok status), []. cbn. naive_solver. }
    rewrite run_bind. destruct (refreshAccessToken_answers h w1) as (fresh & w2 & -> & S2). rewrite S1 in S2.
    destruct (has_text fresh) eqn:Ef; cbn [negb].
    2: { eexists; exists w2, (s_accessToken w, Ok 401), []. cbn. naive_solver. }
    rewrite run_bind. destruct (doFetch_run fresh w2) as (r & w3 & -> & S3). rewrite S2, <- app_assoc in S3.
    destruct r as [status|e]; cbn [answer_of]; eexists; exists w3, (s_accessToken w, Ok 401); eexists [(fresh, _)];
      (split; [done|split; [exact S3|]]); cbn; split_and!; try done; rewrite ?Z.eqb_eq; split; congruence.
  - rewrite run_bind, run_bind. destruct (refreshAccessToken_answers h w) as (fresh & w1 & -> & S1). cbn [run].
    destruct (has_text fresh) eqn:Ef; cbn [negb]; rewrite run_bind.
    + destruct (doFetch_run fresh w1) as (r & w2 & -> & S2). rewrite S1 in S2. destruct r as [status|e]; cbn [answer_of].
      2: { eexists; exists w2, (fresh, Throw e), []. cbn. naive_solver. }
      destruct (Z.eqb_spec status 401) as [->|Hne]; cbn [negb]; eexists; exists w2; eexists (fresh, _), []; cbn; naive_solver.
    + destruct (doFetch_run None w1) as (r & w2 & -> & S2). rewrite S1 in S2.
      eexists; exists w2, (None, r), []. cbn. naive_solver.
Qed.

(** ** The shared renewal *)

(** The state the calls and the ends of renewals keep. *)
Record shared_ok (s : Shared) : Prop := {
  running_is_inflight : forall p, renewals s !! p = Some None <-> inflightRefresh s = Some p;
  inflight_is_last : forall p, inflightRefresh s = Some p -> length (renewals s) = S p;
  calls_in_order : forall i j p q, (i <= j)%nat -> calls s !! i = Some p -> calls s !! j = Some q -> (p <= q)%nat;
  calls_started : forall i p, calls s !! i = Some p -> (p < length (renewals s))%nat;
  renewals_asked : forall p, (p < length (renewals s))%nat -> p ∈ calls s;
}.

Lemma lookup_snoc_Some_inv {A} (l : list A) x i y : (l ++ [x]) !! i = Some y -> l !! i = Some y \/ (i = length l /\ y = x).
Proof. intros [?|[Hl H]]%lookup_app_Some; [by left|right]. apply list_lookup_singleton_Some in H. split; [lia|by destruct H]. Qed.

(** A call that gets the newest promise. *)
Lemma calls_snoc (l : list nat) n p : p = pred n -> (0 < n)%nat ->
  (forall i j p q, (i <= j)%nat -> l !! i = Some p -> l !! j = Some q -> (p <= q)%nat) ->
  (forall i p, l !! i = Some p -> (p < n)%nat) ->
  (forall i j p' q, (i <= j)%nat -> (l ++ [p]) !! i = Some p' -> (l ++ [p]) !! j = Some q -> (p' <= q)%nat) /\
  (forall i p', (l ++ [p]) !! i = Some p' -> (p' < n)%nat).
Proof.
  intros -> Hn Ho Hs. split.
  - intros i j p' q Hij [Hi|[-> ->]]%lookup_snoc_Some_inv [Hj|[-> ->]]%lookup_snoc_Some_inv; [by eapply Ho| | |done].
    + apply Hs in Hi. lia.
    + apply lookup_lt_Some in Hj. lia.
  - intros i p' [Hi|[-> ->]]%lookup_snoc_Some_inv; [by eapply Hs|lia].
Qed.

Lemma call_ok s : shared_ok s -> shared_ok (deduplicatedRefresh s).
Proof.
  intros [Hr Hl Ho Hs Ha]. unfold deduplicatedRefresh. destruct (inflightRefresh s) as [p|] eqn:E.
  - destruct (calls_snoc (calls s) (length (renewals s)) p) as [Ho' Hs']; [rewrite (Hl p); done|rewrite (Hl p); [lia|done]|done..|].
    constructor; cbn; [done..|]. intros q Hq. apply elem_of_app. left. by apply Ha.
  - assert (Hn : forall p, renewals s !! p <> Some None) by (intros p Hp; by apply Hr in Hp).
    destruct (calls_snoc (calls s) (S (length (renewals s))) (length (renewals s))) as [Ho' Hs'];
      [done|lia|done|intros i p Hi; apply Hs in Hi; lia|].
    constructor; cbn; rewrite ?length_app; cbn; [|intros ? [= <-]; lia|done|intros i p Hi; apply Hs' in Hi; lia|].
    + intros p. split; [|intros [= <-]; by apply list_lookup_middle].
      intros [Hp|[-> _]]%lookup_snoc_Some_inv; [by destruct (Hn p)|done].
    + intros q Hq. apply elem_of_app. destruct (decide (q = length (renewals s))) as [->|]; [right; by apply list_elem_of_singleton|].
      left. apply Ha. lia.
Qed.

Lemma end_ok s p answer : shared_ok s -> renewals s !! p = Some None -> shared_ok (renewal_ends p answer s).
Proof.
  intros [Hr Hl Ho Hs Ha] Hp. constructor; cbn; rewrite ?length_insert; [|done..].
  intros q. split; [|done]. destruct (decide (q = p)) as [->|].
  - rewrite list_lookup_insert_eq by (by eapply lookup_lt_Some). done.
  - rewrite list_lookup_insert_ne by done. intros Hq. apply Hr in Hp, Hq. congruence.
Qed.

(** However calls and the ends of renewals follow each other, one renewal runs at a
    time, and it is the one in flight; every renewal was asked for; a call made after
    another gets the same renewal or a later one, so that no call is told the outcome of
    a renewal that ended before it; and a call is answered, or its renewal is the one running. *)
Theorem renewals_shared s : steps shared_step no_renewal s ->
  (forall p q, renewals s !! p = Some None -> renewals s !! q = Some None -> p = q /\ inflightRefresh s = Some p) /\
  (forall p, (p < length (renewals s))%nat -> p ∈ calls s) /\
  (forall i j p q, (i <= j)%nat -> calls s !! i = Some p -> calls s !! j = Some q -> (p <= q)%nat) /\
  (forall i p, calls s !! i = Some p -> (exists answer, renewals s !! p = Some (Some answer)) \/ inflightRefresh s = Some p).
Proof.
  intros Hs. assert (Hok : shared_ok s).
  { eapply (steps_invariant shared_step shared_ok); [|exact Hs|].
    - intros s1 s2 [s'|s' p answer Hp] H1; [by apply call_ok|by apply end_ok].
    - constructor; cbn; [|done..|]; [intros p; by rewrite lookup_nil|lia]. }
  destruct Hok as [Hr Hl Ho Hst Ha]. split_and!; [|done..|].
  - intros p q Hp Hq. apply Hr in Hp, Hq. split; [congruence|done].
  - intros i p Hi. apply Hst in Hi. apply lookup_lt_is_Some in Hi as [[answer|] Hp]; [left; by exists answer|right; by apply Hr].
Qed.

(** ** A page at work *)

Module Demo.
(** A Stellar page whose stored token the backend no longer takes. *)
Definition page : Hook := {|
  mode := stellar; primaryWallet := Some "GABC"; stellarLoading := false; wagmiAddress := None; wagmiChainId := None;
  wagmiConnected := false; page_host := "lendoor.xyz"; page_origin := "https://lendoor.xyz"; lemonChainId := 42220 |}.

#[export] Instance outside : SessionOutside := {|
  auth_refresh _ _ := Ok (401, Throw (PlainError "json"));
  auth_nonce _ := Ok (200, Ok "n1"%string);
  lemonAuthenticate _ _ _ := Ok None;
  signMessage _ _ _ := Ok "sig"%string;
  auth_verify _ _ _ _ _ _ := Ok (200, Ok "fresh"%string);
  fetch_status _ token := Ok (if bool_decide (token = Some "fresh"%string) then 200 else 401);
  now_iso _ := "2025-01-01T00:00:00.000Z"%string;
  can_store _ := true;
  is_rejection _ := false |}.

Definition start : SessionWorld :=
  {| s_accessToken := Some "old"%string; s_tokenWallet := Some "GABC"%string; s_store := Some "old"%string; s_events := [] |}.

Definition tasks : list (proc SessionWorld unit) :=
  [(_ ← authed_call (refreshAccessToken page); Return tt); (_ ← refreshAccessToken page; Return tt)].

(** The request and the renewal take turns. *)
Definition after : pool SessionWorld unit := run_schedule (concat (replicate 12 [0; 1]%nat)) (tasks, start).

Example token_renewed : s_accessToken (snd after) = Some "fresh"%string.
Proof. vm_compute. reflexivity. Qed.

Example two_sent : (fst <$> sent (snd after)) = [Some "old"%string; Some "fresh"%string].
Proof. vm_compute. reflexivity. Qed.
End Demo.

#[local] Existing Instance Demo.outside.

Lemma session_authentic_witness : exists h, h ∈ [Demo.page] /\ issued h (s_events (snd Demo.after)) "fresh".
Proof.
  assert (H : s_store Demo.start = Some "fresh"%string \/ s_accessToken Demo.start = Some "fresh"%string \/
              exists h, h ∈ [Demo.page] /\ issued h (s_events (snd Demo.after)) "fresh").
  { apply (session_authentic [Demo.page] Demo.tasks Demo.start (fst Demo.after)).
    - repeat constructor.
    - reflexivity.
    - rewrite <- surjective_pairing. apply run_schedule_steps.
    - right. left. vm_compute. reflexivity. }
  destruct H as [H|[H|H]]; [discriminate H|discriminate H|exact H].
Defined.

Lemma renewals_shared_witness :
  let s := deduplicatedRefresh (renewal_ends 0 (Some "fresh"%string) (deduplicatedRefresh (deduplicatedRefresh no_renewal))) in
  calls s = [0; 0; 1]%nat /\ forall i p, calls s !! i = Some p -> (exists answer, renewals s !! p = Some (Some answer)) \/ inflightRefresh s = Some p.
Proof.
  split; [reflexivity|]. apply renewals_shared.
  eapply steps_step; [apply shared_call|]. eapply steps_step; [apply shared_call|].
  eapply steps_step; [apply (shared_end _ 0 (Some "fresh"%string)); reflexivity|]. eapply steps_step; [apply shared_call|]. apply steps_refl.
Defined.
