(* ===== verification/PhoneVerification.v ===== *)
(** * Phone verification ([backend/src/user/phone-verification.service.ts],
      [backend/src/user/phone-otp.service.ts])

    The one-time password sent to a phone, the request that checks it, and the
    phone they put on the user's row. Requests interleave at their awaits. *)

From stdpp Require Import base tactics list gmap strings numbers.
From Stdlib Require Import Lia ZArith.
From S2P Require Import Prelude JsString JsNum Strkey Entities Gateway Store Async Kyc LoanVerification.

Local Open Scope Z_scope.

Definition OTP_LIFETIME_MS : Z := 10 * 60000.
Definition OTP_THROTTLE_MS : Z := 60000.

Definition with_phone (u : User) (p : PhoneColumns) : User :=
  {| user_id := user_id u; walletAddress := walletAddress u; onboarding := onboarding u; credit := credit u;
     phone_columns := p; kyc := kyc u |}.

(** [{ phoneOtpCode: code, phoneOtpExpiresAt: expires }] *)
Definition patch_code (code : option string) (expires : option Z) (u : User) : User :=
  let p := phone_columns u in
  with_phone u {| phone := phone p; phoneVerifiedAt := phoneVerifiedAt p; lastPhoneOtpSentAt := lastPhoneOtpSentAt p;
                  phoneOtpCode := code; phoneOtpExpiresAt := expires; phoneOtpAttemptCount := phoneOtpAttemptCount p |}.

(** [{ lastPhoneOtpSentAt: now }] *)
Definition patch_sent (now : Z) (u : User) : User :=
  let p := phone_columns u in
  with_phone u {| phone := phone p; phoneVerifiedAt := phoneVerifiedAt p; lastPhoneOtpSentAt := Some now;
                  phoneOtpCode := phoneOtpCode p; phoneOtpExpiresAt := phoneOtpExpiresAt p;
                  phoneOtpAttemptCount := phoneOtpAttemptCount p |}.

(** [{ phone, phoneVerifiedAt: now }] *)
Definition patch_verified (number : string) (now : Z) (u : User) : User :=
  let p := phone_columns u in
  with_phone u {| phone := Some number; phoneVerifiedAt := Some now; lastPhoneOtpSentAt := lastPhoneOtpSentAt p;
                  phoneOtpCode := phoneOtpCode p; phoneOtpExpiresAt := phoneOtpExpiresAt p;
                  phoneOtpAttemptCount := phoneOtpAttemptCount p |}.

Definition has_phone (number : string) (u : User) : bool := bool_decide (phone (phone_columns u) = Some number).

Section PhoneVerification.
  Context `{DB : Database} `{OUT : Outside} `{MSG : Messaging}.

(** ** The one-time password *)

(** [String(Math.floor(100000 + Math.random() * 900000))] *)
Definition otp_of (r : num) : string :=
  match num_floor (num_of_Z 100000 + r * num_of_Z 900000)%num with
  | Some z => String_of_int z
  | None => "NaN"%string
  end.

(** The template, then a plain text; a failure of both is only logged. *)
Definition deliver_otp (number code : string) : proc World unit :=
  match kapso with
  | None => Return tt
  | Some k => proc_try (fun _ => proc_try (fun _ => Return tt) (await (sendText k number code))) (await (sendTemplate k number code))
  end.

Definition sendVerification (number wallet : string) : proc World unit :=
  wallet ← of_result (normalizeWallet wallet);
  r ← await random;
  let code := otp_of r in
  now ← await date_now;
  _ ← await (update_users (by_wallet wallet) (patch_code (Some code) (Some (now + OTP_LIFETIME_MS))));
  deliver_otp number code.

(** Whether the user's code is this one; it is used up when it is. The number is
    not looked at. *)
Definition checkVerification (number code wallet : string) : proc World bool :=
  wallet ← of_result (normalizeWallet wallet);
  user ← await (find_user (by_wallet wallet));
  match user with
  | None => Return false
  | Some user =>
      match filled (phoneOtpCode (phone_columns user)), phoneOtpExpiresAt (phone_columns user) with
      | true, Some expires =>
          now ← await date_now;
          if expires <? now then Return false
          else if bool_decide (phoneOtpCode (phone_columns user) = Some code) then
            _ ← await (update_users (by_wallet wallet) (patch_code None None)); Return true
          else Return false
      | _, _ => Return false
      end
  end.

(** ** The service *)

Definition ensurePhoneIsFreeForWallet (number wallet : string) : proc World unit :=
  existing ← await (find_user (has_phone number));
  match existing with
  | Some u => if bool_decide (walletAddress u = wallet) then Return tt
              else Raise (ConflictException "Este número ya está registrado con otra cuenta")
  | None => Return tt
  end.

(** The clock is only read for a user who was sent a code before. *)
Definition assertPhoneOtpThrottle (user : User) : proc World unit :=
  match lastPhoneOtpSentAt (phone_columns user) with
  | None => Return tt
  | Some sent =>
      now ← await date_now;
      if now - sent <? OTP_THROTTLE_MS
      then Raise (BadRequestException "Esperá al menos 1 minuto antes de pedir otro código") else Return tt
  end.

Definition findPhoneUser (wallet : string) : proc World User :=
  user ← await (find_user (by_wallet wallet));
  of_result (result_of_option (NotFoundException "User not found") user).

Definition verifyPhone (walletAddress number : string) : proc World unit :=
  wallet ← of_result (normalizeWallet walletAddress);
  user ← findPhoneUser wallet;
  _ ← ensurePhoneIsFreeForWallet number wallet;
  _ ← assertPhoneOtpThrottle user;
  _ ← sendVerification number wallet;
  await (now ← date_now; update_user (user_id user) (patch_sent now)).

Definition verifyPhoneOtp (walletAddress number code : string) : proc World unit :=
  wallet ← of_result (normalizeWallet walletAddress);
  user ← findPhoneUser wallet;
  _ ← ensurePhoneIsFreeForWallet number wallet;
  approved ← checkVerification number code wallet;
  if negb approved then Raise (BadRequestException "Código inválido o expirado")
  else
    proc_try (fun e => match e with
                       | UniqueViolation _ => Raise (ConflictException "Este teléfono ya fue verificado por otro usuario")
                       | _ => Raise e
                       end)
      (await (now ← date_now; update_user (user_id user) (patch_verified number now))).

Definition resendPhoneOtp (walletAddress number : string) : proc World unit := verifyPhone walletAddress number.

Definition updatePhone (walletAddress number : string) : proc World unit :=
  wallet ← of_result (normalizeWallet walletAddress);
  user ← findPhoneUser wallet;
  _ ← ensurePhoneIsFreeForWallet number wallet;
  _ ← assertPhoneOtpThrottle user;
  _ ← sendVerification number wallet;
  await (now ← date_now; update_user (user_id user) (patch_sent now)).
End PhoneVerification.

(** ** Lemmas *)

(** The table of users: rows under their ids, no wallet and no phone twice. *)
Definition wallets_unique (t : gmap Z User) : Prop :=
  forall i j u u', t !! i = Some u -> t !! j = Some u' -> walletAddress u = walletAddress u' -> i = j.

Definition phones_unique (t : gmap Z User) : Prop :=
  forall i j u u' p, t !! i = Some u -> t !! j = Some u' ->
    phone (phone_columns u) = Some p -> phone (phone_columns u') = Some p -> i = j.

Definition users_ok (t : gmap Z User) : Prop :=
  map_Forall (fun i u => user_id u = i) t /\ wallets_unique t /\ phones_unique t.

(** A patch that leaves the identity of the row alone. *)
Definition keeps_identity (patch : User -> User) : Prop :=
  forall u, user_id (patch u) = user_id u /\ walletAddress (patch u) = walletAddress u.

Section Facts.
  Context `{DB : Database} `{OUT : Outside} `{MSG : Messaging} {LAWS : DatabaseLaws DB}.

Lemma users_ok_patch t i u u' :
  users_ok t -> t !! i = Some u -> user_id u' = user_id u -> walletAddress u' = walletAddress u ->
  (forall j v p, t !! j = Some v -> j <> i -> phone (phone_columns u') = Some p -> phone (phone_columns v) <> Some p) ->
  users_ok (<[i := u']> t).
Proof.
  intros (Hid & Hw & Hp) Hi Hu Ha Hph. split_and!.
  - apply map_Forall_insert_2; [|done]. rewrite Hu. by apply Hid.
  - intros j k v v' Hj Hk Hvv. apply lookup_insert_Some in Hj as [[<- <-]|[Hne Hj]], Hk as [[<- <-]|[Hne' Hk]]; [done|..].
    + eapply Hw; [exact Hi|exact Hk|congruence].
    + eapply Hw; [exact Hj|exact Hi|congruence].
    + by eapply Hw.
  - intros j k v v' p Hj Hk Hv Hv'. apply lookup_insert_Some in Hj as [[<- <-]|[Hne Hj]], Hk as [[<- <-]|[Hne' Hk]]; [done|..].
    + exfalso. by eapply (Hph k v' p).
    + exfalso. by eapply (Hph j v p).
    + by eapply Hp.
Qed.

(** Updating by wallet updates the one row of the wallet. *)
Lemma update_by_wallet t i u patch :
  wallets_unique t -> t !! i = Some u ->
  (fun v => if by_wallet (walletAddress u) v then patch v else v) <$> t = <[i := patch u]> t.
Proof.
  intros Hw Hi. apply map_eq. intros j. rewrite lookup_fmap. destruct (decide (j = i)) as [->|Hne].
  - rewrite Hi, lookup_insert_eq. cbn. unfold by_wallet. by rewrite bool_decide_true.
  - rewrite lookup_insert_ne by done. destruct (t !! j) as [v|] eqn:Ej; [|done]. cbn. unfold by_wallet.
    case_bool_decide as Hv; [|done]. exfalso. apply Hne. by eapply Hw.
Qed.

Lemma update_users_run p patch w :
  w_tx w = NoTx ->
  (exists e, update_users p patch w = (Throw e, w)) \/
  update_users p patch w = (Ok tt, set_users ((fun u => if p u then patch u else u) <$> w_users w) w).
Proof.
  intros Htx. unfold update_users. rewrite statement_NoTx by done. destruct (List.find _ _); [left; eauto|by right].
Qed.

Lemma update_wallet_run w i u patch :
  w_tx w = NoTx -> users_ok (w_users w) -> w_users w !! i = Some u ->
  (exists e, update_users (by_wallet (walletAddress u)) patch w = (Throw e, w)) \/
  update_users (by_wallet (walletAddress u)) patch w = (Ok tt, set_users (<[i := patch u]> (w_users w)) w).
Proof.
  intros Htx (_ & Hw & _) Hi. destruct (update_users_run (by_wallet (walletAddress u)) patch w Htx) as [H|H]; [by left|right].
  by rewrite H, (update_by_wallet _ i).
Qed.

(** The row of the wallet, when the request finds one. *)
Lemma findPhoneUser_run {A} wallet (k : User -> proc World A) w :
  w_tx w = NoTx ->
  (exists e, run (findPhoneUser wallet ≫= k) w = (Throw e, w)) \/
  exists i u, w_users w !! i = Some u /\ walletAddress u = wallet /\ run (findPhoneUser wallet ≫= k) w = run (k u) w.
Proof.
  intros Htx. unfold findPhoneUser. rewrite run_bind, run_await_bind. unfold find_user. rewrite query_NoTx by done.
  destruct (db_find_user w (by_wallet wallet)) as [[u|]|e] eqn:Eu; [|left; eauto..].
  right. apply find_user_some in Eu as (i & Hi & Hw). unfold by_wallet in Hw. bool_to_prop. by exists i, u.
Qed.

(** The number is free for the wallet: every row that has it is the wallet's. *)
Lemma ensureFree_run {A} number wallet (k : unit -> proc World A) w :
  w_tx w = NoTx -> users_ok (w_users w) ->
  (exists e, run (ensurePhoneIsFreeForWallet number wallet ≫= k) w = (Throw e, w)) \/
  ((forall i u, w_users w !! i = Some u -> phone (phone_columns u) = Some number -> walletAddress u = wallet) /\
   run (ensurePhoneIsFreeForWallet number wallet ≫= k) w = run (k tt) w).
Proof.
  intros Htx (_ & _ & Hp). unfold ensurePhoneIsFreeForWallet. rewrite run_bind, run_await_bind. unfold find_user. rewrite query_NoTx by done.
  destruct (db_find_user w (has_phone number)) as [[u|]|e] eqn:Eu; [| |left; eauto].
  - case_bool_decide as Hw; [|left; eauto]. right. split; [|done].
    apply find_user_some in Eu as (i & Hi & Hn). unfold has_phone in Hn. bool_to_prop.
    intros j v Hj Hv. pose proof (Hp _ _ _ _ _ Hi Hj Hn Hv) as ->. congruence.
  - right. split; [|done]. intros i u Hi Hn. eapply find_user_none in Eu; [|exact Hi].
    unfold has_phone in Eu. bool_to_prop. done.
Qed.

(** The wallet's row [u] carries this code, unexpired at the clock [now]. *)
Definition right_code (a code : string) (now : Z) (w : World) (i : Z) (u : User) : Prop :=
  w_users w !! i = Some u /\ normalizeWallet a = Ok (walletAddress u) /\
  phoneOtpCode (phone_columns u) = Some code /\ code <> ""%string /\
  exists expires, phoneOtpExpiresAt (phone_columns u) = Some expires /\ now <= expires.

Lemma filled_some o : filled o = true <-> exists s, o = Some s /\ s <> ""%string.
Proof.
  unfold filled. destruct o as [s|]; cbn; [|split; [done|by intros (? & ? & _)]].
  case_bool_decide; cbn; split; naive_solver.
Qed.

(** Checking a code: nothing, or the right code is used up. *)
Lemma checkVerification_run number code a wallet w :
  w_tx w = NoTx -> users_ok (w_users w) -> normalizeWallet a = Ok wallet ->
  let '(r, w') := run (checkVerification number code wallet) w in
  w_loans w' = w_loans w /\ w_tx w' = NoTx /\
  match r with
  | Ok true => exists i u now, right_code a code now w i u /\ walletAddress u = wallet /\ CNow now ∈ w_calls w' /\
      w_users w' = <[i := patch_code None None u]> (w_users w)
  | _ => w_users w' = w_users w
  end.
Proof.
  intros Htx Hok Ha. unfold checkVerification. rewrite (normalizeWallet_fixed a wallet Ha). cbn [of_result].
  rewrite return_bind, run_await_bind. unfold find_user. rewrite query_NoTx by done.
  destruct (db_find_user w (by_wallet wallet)) as [[u|]|e] eqn:Eu; [|done..].
  apply find_user_some in Eu as (i & Hi & Hw). unfold by_wallet in Hw. apply bool_decide_eq_true_1 in Hw. subst wallet.
  destruct (filled (phoneOtpCode (phone_columns u))) eqn:Ef; [|done].
  destruct (phoneOtpExpiresAt (phone_columns u)) as [expires|] eqn:Ee; [|done].
  rewrite run_await_bind. cbv [date_now outside]. set (now := now_ms (w_calls w)). set (w1 := log_call _ w).
  destruct (expires <? now) eqn:Elt; [done|]. case_bool_decide as Hc; [|done].
  rewrite run_await_bind. destruct (update_wallet_run w1 i u (patch_code None None) Htx Hok Hi) as [[e ->]| ->]; [done|].
  cbn [run]. split_and!; try done. exists i, u, now. apply filled_some in Ef as (c & Hc' & Hne). apply Z.ltb_ge in Elt.
  split_and!; [|done| |done].
  - split_and!; [done..| |by exists expires]. congruence.
  - cbn. apply elem_of_app. right. by left.
Qed.

Lemma patch_code_ok t i u c e : users_ok t -> t !! i = Some u -> users_ok (<[i := patch_code c e u]> t).
Proof.
  intros Hok Hi. apply (users_ok_patch t i u); [done..|]. intros j v p Hj Hne Hp Hv.
  apply Hne. destruct Hok as (_ & _ & H). cbn in Hp. by eapply H.
Qed.

(** What verifying a code did: nothing, or the code was used up and, when the
    request answers, the number is on the wallet's row. *)
Definition otp_checked (a number code : string) (w w' : World) (r : result unit) : Prop :=
  w_loans w' = w_loans w /\ w_tx w' = NoTx /\ users_ok (w_users w') /\
  match r with
  | Ok _ => exists i u now t, right_code a code now w i u /\ CNow now ∈ w_calls w' /\
      (forall j v, w_users w !! j = Some v -> phone (phone_columns v) = Some number -> j = i) /\
      w_users w' = <[i := patch_verified number t (patch_code None None u)]> (w_users w)
  | Throw _ => w_users w' = w_users w \/
      exists i u now, right_code a code now w i u /\ w_users w' = <[i := patch_code None None u]> (w_users w)
  end.

Lemma verifyPhoneOtp_run a number code w :
  w_tx w = NoTx -> users_ok (w_users w) ->
  let '(r, w') := run (verifyPhoneOtp a number code) w in otp_checked a number code w w' r.
Proof.
  intros Htx Hok. assert (Hno : forall e, otp_checked a number code w w (Throw e)) by (intros e; split_and!; try done; by left).
  unfold verifyPhoneOtp. destruct (normalizeWallet a) as [wallet|e] eqn:Ea; [|apply Hno]. cbn [of_result]. rewrite return_bind.
  match goal with |- context [findPhoneUser wallet ≫= ?k] =>
    destruct (findPhoneUser_run wallet k w Htx) as [[e ->]|(i & u & Hi & Hw & ->)] end; [apply Hno|].
  match goal with |- context [ensurePhoneIsFreeForWallet number wallet ≫= ?k] =>
    destruct (ensureFree_run number wallet k w Htx Hok) as [[e ->]|[Hfree ->]] end; [apply Hno|].
  rewrite run_bind. pose proof (checkVerification_run number code a wallet w Htx Hok Ea) as Hc.
  destruct (run (checkVerification number code wallet) w) as [[[|]|e] w1]; destruct Hc as (Hl1 & Htx1 & H1).
  2, 3: cbn; unfold otp_checked; rewrite H1; split_and!; try done; by left.
  destruct H1 as (j & v & now & Hright & Hv & Hin & Hu1).
  assert (Hrow : j = i /\ v = u).
  { destruct Hright as (Hj & _). destruct Hok as (_ & Huniq & _). assert (j = i) as -> by (eapply Huniq; [exact Hj|exact Hi|congruence]).
    split; [done|congruence]. }
  destruct Hrow as [-> ->]. cbn [negb]. rewrite proc_try_run, run_await. cbv [mbind M_bind date_now outside].
  set (w2 := log_call _ w1). pose proof (proj1 Hok _ _ Hi) as Hid. cbn in Hid.
  assert (Hok1 : users_ok (w_users w1)) by (rewrite Hu1; by apply patch_code_ok).
  assert (Hfail : forall e, otp_checked a number code w w2 (Throw e)).
  { intros e. unfold otp_checked. split_and!; try done. right. exists i, u, now. done. }
  unfold update_user. rewrite statement_NoTx by done. change (w_users w2) with (w_users w1). rewrite Hu1, Hid, lookup_insert_eq.
  set (t := now_ms (w_calls w1)). set (row := patch_verified number t (patch_code None None u)).
  destruct (db_user_error w2 row) as [e|] eqn:Ee.
  { destruct e; apply Hfail. }
  cbn [fst snd]. unfold otp_checked. cbn [w_loans w_tx w_users set_users]. change (w_users w2) with (w_users w1).
  split_and!; [done..| |].
  - rewrite Hu1. apply (users_ok_patch (<[i := patch_code None None u]> (w_users w)) i (patch_code None None u)); try done.
    + by apply patch_code_ok.
    + by rewrite lookup_insert_eq.
    + intros k x p Hk Hne Hp Hx. rewrite lookup_insert_ne in Hk by done.
      assert (Hconf : phone_conflict row x = true) by (unfold phone_conflict; rewrite Hp, Hx; by apply bool_decide_eq_true_2).
      destruct (phone_refused w2 row k x) as [ix Hix]; [|cbn; congruence|done|congruence].
      change (w_users w2) with (w_users w1). rewrite Hu1. by rewrite lookup_insert_ne.
  - exists i, u, now, t. split_and!; [done| | |by rewrite Hu1, insert_insert_eq].
    + cbn. apply elem_of_app. by left.
    + intros j x Hj Hx. pose proof (Hfree j x Hj Hx). destruct Hok as (_ & Huniq & _). eapply Huniq; [exact Hj|exact Hi|congruence].
Qed.

(** A message carries the code that was drawn, and goes to the number asked for. *)
Definition tells (number code : string) (c : call) : Prop :=
  match c with CSendTemplate to x _ | CSendText to x _ => to = number /\ x = code | _ => True end.

(** What asking for a code does when it answers: the wallet's row was last sent a
    code at least a minute before, no other row has the number, and the row now has
    a fresh code, valid for ten minutes, and the time; every message of the request
    carries that code to that number. *)
Definition otp_sent (a number : string) (w w' : World) : Prop :=
  exists i u r now t ws, w_users w !! i = Some u /\ normalizeWallet a = Ok (walletAddress u) /\
    (forall j v, w_users w !! j = Some v -> phone (phone_columns v) = Some number -> j = i) /\
    (forall sent, lastPhoneOtpSentAt (phone_columns u) = Some sent -> exists s, CNow s ∈ ws /\ OTP_THROTTLE_MS <= s - sent) /\
    CRandom r ∈ ws /\ CNow now ∈ ws /\ CNow t ∈ ws /\
    w_calls w' = w_calls w ++ ws /\ Forall (tells number (otp_of r)) ws /\
    w_users w' = <[i := patch_sent t (patch_code (Some (otp_of r)) (Some (now + OTP_LIFETIME_MS)) u)]> (w_users w).

Definition otp_asked (a number : string) (w w' : World) (r : result unit) : Prop :=
  w_loans w' = w_loans w /\ w_tx w' = NoTx /\ users_ok (w_users w') /\
  match r with
  | Ok _ => otp_sent a number w w'
  | Throw _ => w_users w' = w_users w \/
      exists i u c now, w_users w !! i = Some u /\ normalizeWallet a = Ok (walletAddress u) /\
        w_users w' = <[i := patch_code (Some c) (Some (now + OTP_LIFETIME_MS)) u]> (w_users w)
  end.

Definition calls_more (ws : list call) (w : World) : World :=
  {| w_users := w_users w; w_loans := w_loans w; w_side := w_side w; w_tx := w_tx w; w_calls := w_calls w ++ ws |}.

Lemma deliver_otp_run {A} number code (k : unit -> proc World A) w :
  exists ws, Forall (tells number code) ws /\ run (deliver_otp number code ≫= k) w = run (k tt) (calls_more ws w).
Proof.
  unfold deliver_otp, calls_more. destruct kapso as [c|].
  - rewrite run_bind, proc_try_run, run_await. unfold sendTemplate, outside at 1. cbn [fst snd].
    destruct (kapso_sendTemplate c _ _ _) as [[]|e] eqn:E1.
    + exists [CSendTemplate number code (Ok tt)]. split; [by repeat constructor|done].
    + rewrite proc_try_run, run_await. unfold sendText, outside. cbn [fst snd].
      exists [CSendTemplate number code (Throw e); CSendText number code (kapso_sendText c (w_calls (log_call (CSendTemplate number code (Throw e)) w)) number code)].
      split; [by repeat constructor|].
      destruct (kapso_sendText c _ _ _) as [[]|e']; cbn; unfold log_call; cbn; by rewrite <- app_assoc.
  - exists []. split; [constructor|]. cbn. rewrite app_nil_r. by destruct w.
Qed.

(** A code is drawn and stored on the row of the wallet, then delivered. *)
Lemma sendVerification_run {A} number (k : unit -> proc World A) w i u :
  w_tx w = NoTx -> users_ok (w_users w) -> w_users w !! i = Some u -> normalizeWallet (walletAddress u) = Ok (walletAddress u) ->
  (exists e w', run (sendVerification number (walletAddress u) ≫= k) w = (Throw e, w') /\
     w_users w' = w_users w /\ w_loans w' = w_loans w /\ w_tx w' = NoTx) \/
  exists r now ws, Forall (tells number (otp_of r)) ws /\ CRandom r ∈ ws /\ CNow now ∈ ws /\
    run (sendVerification number (walletAddress u) ≫= k) w =
    run (k tt) (calls_more ws (set_users (<[i := patch_code (Some (otp_of r)) (Some (now + OTP_LIFETIME_MS)) u]> (w_users w)) w)).
Proof.
  intros Htx Hok Hi Ha. unfold sendVerification. rewrite Ha. cbn [of_result]. rewrite return_bind, run_bind, run_await_bind.
  cbv [random outside]. set (r := math_random (w_calls w)). rewrite run_await_bind. cbv [date_now outside].
  set (now := now_ms _). set (w2 := log_call (CNow now) (log_call (CRandom r) w)). rewrite run_await_bind.
  destruct (update_wallet_run w2 i u (patch_code (Some (otp_of r)) (Some (now + OTP_LIFETIME_MS))) Htx Hok Hi) as [[e ->]| ->].
  - left. by exists e, w2.
  - right. rewrite <- run_bind. set (w3 := set_users _ w2).
    destruct (deliver_otp_run number (otp_of r) k w3) as (ws & Hws & ->).
    exists r, now, (CRandom r :: CNow now :: ws). split_and!; [by repeat constructor|by left|right; by left|].
    f_equal. unfold calls_more, w3, w2, log_call. cbn. by rewrite <- !app_assoc.
Qed.

(** The last code was sent at least a minute ago. *)
Lemma throttle_run {A} u (k : unit -> proc World A) w :
  (exists e ws, run (assertPhoneOtpThrottle u ≫= k) w = (Throw e, calls_more ws w)) \/
  exists ws, run (assertPhoneOtpThrottle u ≫= k) w = run (k tt) (calls_more ws w) /\ (forall number code, Forall (tells number code) ws) /\
    forall sent, lastPhoneOtpSentAt (phone_columns u) = Some sent -> exists s, CNow s ∈ ws /\ OTP_THROTTLE_MS <= s - sent.
Proof.
  unfold assertPhoneOtpThrottle. destruct (lastPhoneOtpSentAt (phone_columns u)) as [sent|].
  - rewrite run_bind, run_await_bind. cbv [date_now outside]. set (s := now_ms _).
    destruct (Z.ltb_spec (s - sent) OTP_THROTTLE_MS); [left; by eexists _, [CNow s]|].
    right. exists [CNow s]. split_and!; [done|by repeat constructor|]. intros x [= <-]. exists s. split; [by left|done].
  - right. exists []. split_and!; [|constructor|done]. cbn. unfold calls_more. rewrite app_nil_r. by destruct w.
Qed.

Lemma verifyPhone_run a number w :
  w_tx w = NoTx -> users_ok (w_users w) ->
  let '(r, w') := run (verifyPhone a number) w in otp_asked a number w w' r.
Proof.
  intros Htx Hok.
  assert (Hno : forall e w', w_users w' = w_users w -> w_loans w' = w_loans w -> w_tx w' = NoTx -> otp_asked a number w w' (Throw e)).
  { intros e w' Hu Hl Ht. unfold otp_asked. rewrite Hu. split_and!; [done..|by left]. }
  unfold verifyPhone. destruct (normalizeWallet a) as [wallet|e] eqn:Ea; [|by apply Hno]. cbn [of_result]. rewrite return_bind.
  match goal with |- context [findPhoneUser wallet ≫= ?k] =>
    destruct (findPhoneUser_run wallet k w Htx) as [[e ->]|(i & u & Hi & Hw & ->)] end; [by apply Hno|].
  match goal with |- context [ensurePhoneIsFreeForWallet number wallet ≫= ?k] =>
    destruct (ensureFree_run number wallet k w Htx Hok) as [[e ->]|[Hfree ->]] end; [by apply Hno|].
  match goal with |- context [assertPhoneOtpThrottle u ≫= ?k] =>
    destruct (throttle_run u k w) as [(e & ws & ->)|(ws & -> & Hws & Hlast)] end; [by apply Hno|].
  set (w1 := calls_more ws w). subst wallet.
  match goal with |- context [sendVerification number (walletAddress u) ≫= ?k] =>
    destruct (sendVerification_run number k w1 i u Htx Hok Hi (normalizeWallet_fixed a _ Ea))
      as [(e & w2 & -> & Hu & Hl & Ht)|(r & now & ws' & Hws' & Hr & Hnow & ->)] end; [by apply Hno|].
  rewrite run_await. cbv [mbind M_bind date_now outside].
  match goal with |- context [log_call (CNow ?t) ?w2] => set (tt0 := t); set (w3 := log_call (CNow tt0) w2) end.
  assert (Hok3 : users_ok (w_users w3)) by (by apply patch_code_ok).
  pose proof (proj1 Hok _ _ Hi) as Hid. cbn in Hid.
  unfold update_user. rewrite statement_NoTx by done. rewrite Hid.
  change (w_users w3) with (<[i := patch_code (Some (otp_of r)) (Some (now + OTP_LIFETIME_MS)) u]> (w_users w)).
  rewrite lookup_insert_eq.
  destruct (db_user_error w3 _) as [e|].
  { split_and!; [done..|]. right. exists i, u, (otp_of r), now. done. }
  cbn [fst snd]. split_and!; [done|done| |].
  - cbn. rewrite insert_insert_eq. apply (users_ok_patch (w_users w) i u); [done..|].
    intros j v p Hj Hne Hp Hv. cbn in Hp. apply Hne. destruct Hok as (_ & _ & H). by eapply H.
  - exists i, u, r, now, tt0, (ws ++ ws' ++ [CNow tt0]). split_and!; try done.
    + intros j v Hj Hv. pose proof (Hfree j v Hj Hv). destruct Hok as (_ & Huniq & _). eapply Huniq; [exact Hj|exact Hi|congruence].
    + intros sent Hs. destruct (Hlast sent Hs) as (s & Hin & Hle). exists s. split; [set_solver|done].
    + set_solver.
    + set_solver.
    + set_solver.
    + cbn. by rewrite <- !app_assoc.
    + apply Forall_app. split; [apply Hws|]. apply Forall_app. split; [done|]. by repeat constructor.
    + cbn. by rewrite insert_insert_eq.
Qed.
End Facts.

(** ** Properties *)

Section Properties.
  Context `{DB : Database} `{OUT : Outside} `{MSG : Messaging} {LAWS : DatabaseLaws DB}.

(** What checking a one-time password can do, whatever the database answers.
    When the request succeeds, the wallet's row carried exactly this code, not
    expired by the clock read during the request, and no other row had the number;
    the row then has the number, verified, the code is used up, and no other row
    changed. When it fails, the tables are as they were, or only the right code was
    used up. Numbers stay unique. *)
Theorem verify_otp_correct (a number code : string) (w : World) (Htx : w_tx w = NoTx) (Hok : users_ok (w_users w)) :
  let '(r, w') := run (verifyPhoneOtp a number code) w in otp_checked a number code w w' r.
Proof. by apply verifyPhoneOtp_run. Qed.

(** What asking for a code does, whatever the clock, the draw, the database and
    the messaging service answer. When the request answers, a minute had passed
    since the last code, nobody else has the number, and the wallet's row has a
    fresh code, valid for ten minutes: the code every message of the request
    carries, to that number only. When it fails, the rows are as they were, or only
    the new code is stored. *)
Theorem send_otp_correct (a number : string) (w : World) (Htx : w_tx w = NoTx) (Hok : users_ok (w_users w)) :
  let '(r, w') := run (verifyPhone a number) w in otp_asked a number w w' r.
Proof. by apply verifyPhone_run. Qed.

Lemma otp_failed a number code w :
  w_tx w = NoTx -> users_ok (w_users w) -> (forall i u now, ~ right_code a code now w i u) ->
  let '(r, w') := run (verifyPhoneOtp a number code) w in is_ok r = false /\ w_users w' = w_users w /\ w_loans w' = w_loans w.
Proof.
  intros Htx Hok Hwrong. pose proof (verifyPhoneOtp_run a number code w Htx Hok) as H.
  destruct (run (verifyPhoneOtp a number code) w) as [[[]|e] w']; destruct H as (Hl & _ & _ & H).
  - destruct H as (i & u & now & t & Hr & _). exfalso. by eapply Hwrong.
  - split_and!; [done| |done]. destruct H as [?|(i & u & now & Hr & _)]; [done|]. exfalso. by eapply Hwrong.
Qed.

(** [n] guesses at a code, one request after the other. *)
Fixpoint guesses (a number : string) (codes : list string) (w : World) : World :=
  match codes with
  | [] => w
  | c :: codes' => guesses a number codes' (snd (run (verifyPhoneOtp a number c) w))
  end.

(** Guessing is free: however many wrong codes are tried, the row is as it
    was - the code still valid, no attempt counted - so the next guess is taken as
    the first one would have been. *)
Theorem guesses_are_free (a number : string) (codes : list string) (w : World)
    (Htx : w_tx w = NoTx) (Hok : users_ok (w_users w))
    (Hwrong : forall c, c ∈ codes -> forall i u, w_users w !! i = Some u -> phoneOtpCode (phone_columns u) <> Some c) :
  w_users (guesses a number codes w) = w_users w.
Proof.
  revert w Htx Hok Hwrong. induction codes as [|c codes IH]; intros w Htx Hok Hwrong; [done|]. cbn [guesses].
  pose proof (verifyPhoneOtp_run a number c w Htx Hok) as Hrun.
  pose proof (otp_failed a number c w Htx Hok) as H.
  destruct (run (verifyPhoneOtp a number c) w) as [r w']. destruct Hrun as (_ & Htx' & Hok' & _). cbn [snd].
  destruct H as (_ & Hu & _).
  { intros i u now (Hi & _ & Hc & _). by apply (Hwrong c ltac:(left) i u Hi). }
  rewrite IH; [done..|]. intros d Hd. rewrite Hu. apply Hwrong. by right.
Qed.

(** A code is used once: after a request that succeeded, the same request
    fails and changes no row. *)
Theorem otp_single_use (a number code : string) (w w1 : World) (Htx : w_tx w = NoTx) (Hok : users_ok (w_users w))
    (Hrun : run (verifyPhoneOtp a number code) w = (Ok tt, w1)) :
  let '(r, w2) := run (verifyPhoneOtp a number code) w1 in is_ok r = false /\ w_users w2 = w_users w1 /\ w_loans w2 = w_loans w1.
Proof.
  pose proof (verifyPhoneOtp_run a number code w Htx Hok) as H. rewrite Hrun in H.
  destruct H as (_ & Htx1 & Hok1 & i & u & now & t & (Hi & Ha & _) & _ & _ & Hu1).
  apply otp_failed; [done..|]. intros j v now' (Hj & Ha' & Hc & _).
  assert (Hj' : j = i).
  { destruct Hok1 as (_ & Huniq & _). eapply Huniq; [exact Hj| |].
    - rewrite Hu1. apply lookup_insert_eq.
    - rewrite Ha in Ha'. injection Ha'. cbn. congruence. }
  subst j. rewrite Hu1, lookup_insert_eq in Hj. injection Hj as <-. discriminate Hc.
Qed.

(** *** Interleavings *)

(** The requests about phones. *)
Inductive phone_request :=
  | VerifyPhone (walletAddress number : string)
  | VerifyPhoneOtp (walletAddress number code : string)
  | UpdatePhone (walletAddress number : string).

Definition serve_phone (r : phone_request) : proc World unit :=
  match r with
  | VerifyPhone a n => verifyPhone a n
  | VerifyPhoneOtp a n c => verifyPhoneOtp a n c
  | UpdatePhone a n => updatePhone a n
  end.

(** Outside a transaction, over a well-formed table of users. *)
Definition users_quiet (w : World) : Prop := w_tx w = NoTx /\ users_ok (w_users w).

Definition users_safe {A} (p : proc World A) : Prop := safe users_quiet any_step (fun _ => True) p.

Lemma users_safe_bind {A B} (k : A -> proc World B) p : users_safe p -> (forall a, users_safe (k a)) -> users_safe (p ≫= k).
Proof. intros Hp Hk. apply safe_bind. eapply safe_mono; [|exact Hp]. intros [a|e] _; [apply Hk|done]. Qed.

Lemma users_safe_try {A} h (p : proc World A) : users_safe p -> (forall e, users_safe (h e)) -> users_safe (proc_try h p).
Proof. intros Hp Hh. apply safe_try. eapply safe_mono; [|exact Hp]. intros [a|e] _; [done|apply Hh]. Qed.

Lemma users_safe_result {A} (r : result A) : users_safe (of_result r).
Proof. by destruct r. Qed.

Lemma users_safe_query {A} (f : World -> result A) : users_safe (await (query f)).
Proof. apply safe_await. intros w [Htx Hok]. rewrite query_NoTx by done. done. Qed.

Lemma users_safe_outside {A} (f : list call -> result A) c : users_safe (await (outside f c)).
Proof. apply safe_await. intros w [Htx Hok]. split; [by split|done]. Qed.

(** A patch of one row under its id, accepted by the phone index. *)
Lemma users_safe_update i (m : Z -> User -> User) :
  (forall t u, user_id (m t u) = user_id u /\ walletAddress (m t u) = walletAddress u) ->
  users_safe (await (now ← date_now; update_user i (m now))).
Proof.
  intros Hm. apply safe_await. intros w [Htx Hok]. cbv [mbind M_bind date_now outside]. set (w1 := log_call _ w).
  split; [|done]. unfold update_user. rewrite statement_NoTx by done. change (w_users w1) with (w_users w).
  set (t := now_ms _). destruct (w_users w !! i) as [u|] eqn:Ei; [|done].
  destruct (db_user_error w1 (m t u)) as [e|] eqn:Ee; [done|]. cbn [snd].
  pose proof (proj1 Hok _ _ Ei) as Hid. cbn in Hid. destruct (Hm t u) as [Hmi Hmw].
  split; [done|]. cbn [w_users set_users]. apply (users_ok_patch (w_users w) i u); [done..|].
  intros j v p Hj Hne Hp Hv. destruct (phone_refused w1 (m t u) j v) as [ix Hix]; [done|congruence| |congruence].
  unfold phone_conflict. rewrite Hp, Hv. by apply bool_decide_eq_true_2.
Qed.

(** A patch by wallet that leaves the phones alone. *)
Lemma users_safe_patch p patch :
  (forall u, user_id (patch u) = user_id u /\ walletAddress (patch u) = walletAddress u /\
             phone (phone_columns (patch u)) = phone (phone_columns u)) ->
  users_safe (await (update_users p patch)).
Proof.
  intros Hp. apply safe_await. intros w [Htx Hok]. split; [|done].
  destruct (update_users_run p patch w Htx) as [[e ->]| ->]; [done|]. cbn [snd]. split; [done|]. cbn [w_users set_users].
  set (f u := if p u then patch u else u).
  assert (Hf : forall u, user_id (f u) = user_id u /\ walletAddress (f u) = walletAddress u /\
             phone (phone_columns (f u)) = phone (phone_columns u)) by (intros u; unfold f; by destruct (p u)).
  destruct Hok as (Hid & Hw & Hph).
  assert (Hrow : forall i u, (f <$> w_users w) !! i = Some u -> exists v, w_users w !! i = Some v /\ user_id u = user_id v /\
            walletAddress u = walletAddress v /\ phone (phone_columns u) = phone (phone_columns v)).
  { intros i u Hi. rewrite lookup_fmap in Hi. destruct (w_users w !! i) as [v|]; [|done]. injection Hi as <-.
    exists v. destruct (Hf v) as (? & ? & ?). done. }
  split_and!.
  - intros i u Hi. apply Hrow in Hi as (v & Hv & -> & _). by apply Hid.
  - intros i j u v Hi Hj Huv. apply Hrow in Hi as (u' & Hi & _ & Hwu & _). apply Hrow in Hj as (v' & Hj & _ & Hwv & _).
    eapply Hw; [exact Hi|exact Hj|congruence].
  - intros i j u v q Hi Hj Hu Hv. apply Hrow in Hi as (u' & Hi & _ & _ & Hpu). apply Hrow in Hj as (v' & Hj & _ & _ & Hpv).
    apply (Hph i j u' v' q Hi Hj); [by rewrite <- Hpu|by rewrite <- Hpv].
Qed.
End Properties.

Ltac solve_users :=
  repeat first
    [ done
    | apply users_safe_result
    | apply users_safe_query
    | apply users_safe_update; done
    | apply users_safe_patch; done
    | apply users_safe_outside
    | apply users_safe_bind; [|intros ?]
    | apply users_safe_try; [|intros ?]
    | progress case_scrut ].

Section Interleavings.
  Context `{DB : Database} `{OUT : Outside} `{MSG : Messaging} {LAWS : DatabaseLaws DB}.

Lemma users_safe_send n a : users_safe (sendVerification n a).
Proof. unfold sendVerification, deliver_otp. solve_users. Qed.

Lemma users_safe_find a : users_safe (findPhoneUser a).
Proof. unfold findPhoneUser. solve_users. Qed.

Lemma users_safe_free n a : users_safe (ensurePhoneIsFreeForWallet n a).
Proof. unfold ensurePhoneIsFreeForWallet. solve_users. Qed.

Lemma users_safe_throttle u : users_safe (assertPhoneOtpThrottle u).
Proof. unfold assertPhoneOtpThrottle. solve_users. Qed.

Lemma users_safe_check n c a : users_safe (checkVerification n c a).
Proof. unfold checkVerification. solve_users. Qed.

Lemma serve_phone_safe r : users_safe (serve_phone r).
Proof.
  pose proof users_safe_send. pose proof users_safe_find. pose proof users_safe_free.
  pose proof users_safe_throttle. pose proof users_safe_check.
  destruct r; cbn [serve_phone]; unfold verifyPhone, updatePhone, verifyPhoneOtp; solve_users; auto.
Qed.

(** However any number of phone requests interleave, no two users end up with
    the same verified number, and every row keeps its id and its wallet its own. *)
Theorem phones_stay_unique (rs : list phone_request) (w : World) (c : pool World unit)
    (Hrun : steps pool_step (map serve_phone rs, w) c) (Htx : w_tx w = NoTx) (Hok : users_ok (w_users w)) :
  users_ok (w_users (snd c)).
Proof.
  destruct (safe_pool users_quiet any_step (fun _ => True) _ _ Hrun) as (_ & [_ H] & _); [|done|exact H].
  apply Forall_map, Forall_true, serve_phone_safe.
Qed.
End Interleavings.

(** ** Concrete runs *)

(** Two users without a number; messages are not configured and the first code
    drawn is 100000. *)
Definition no_phone : PhoneColumns :=
  {| phone := None; phoneVerifiedAt := None; lastPhoneOtpSentAt := None; phoneOtpCode := None; phoneOtpExpiresAt := None;
     phoneOtpAttemptCount := 0 |}.

Definition new_user (i : Z) (a : string) : User :=
  {| user_id := i; walletAddress := a; onboarding := onboarding sample_user; credit := credit sample_user;
     phone_columns := no_phone; kyc := kyc sample_user |}.

Definition phone_world : World :=
  {| w_users := <[1 := new_user 1 sample_wallet]> {[ 2 := new_user 2 "0x00000000000000000000000000000000000000aa" ]};
     w_loans := ∅; w_side := no_side; w_tx := NoTx; w_calls := [] |}.

Definition silent : Messaging := {| math_random _ := num_of_Z 0; kapso := None |}.

Definition ask_run : result unit * World :=
  run (verifyPhone (OUT := vendor) (MSG := silent) sample_wallet "+5491100000001") phone_world.

Definition asked_world : World := snd ask_run.

Definition phone_of (w : World) (i : Z) : option string := w_users w !! i ≫= (fun u => phone (phone_columns u)).
Definition code_of (w : World) (i : Z) : option string := w_users w !! i ≫= (fun u => phoneOtpCode (phone_columns u)).

Lemma phone_world_ok : users_ok (w_users phone_world).
Proof.
  assert (H : forall i u, w_users phone_world !! i = Some u ->
    (i = 1 /\ u = new_user 1 sample_wallet) \/ (i = 2 /\ u = new_user 2 "0x00000000000000000000000000000000000000aa")).
  { intros i u Hu. cbn in Hu. apply lookup_insert_Some in Hu as [[<- <-]|[_ Hu]]; [by left|].
    apply lookup_singleton_Some in Hu as [<- <-]. by right. }
  split_and!.
  - intros i u Hu. by apply H in Hu as [[-> ->]|[-> ->]].
  - intros i j u v Hi Hj. apply H in Hi as [[-> ->]|[-> ->]], Hj as [[-> ->]|[-> ->]]; done.
  - intros i j u v p Hi Hj. apply H in Hi as [[-> ->]|[-> ->]]; done.
Qed.

(** A run that answers, from a statement about its result. *)
Lemma when_ok (Q : result unit -> World -> Prop) (p : result unit * World) :
  (let '(r, w') := p in Q r w') -> is_ok (fst p) = true -> Q (Ok tt) (snd p).
Proof. by destruct p as [[[]|e] w']. Qed.

Lemma ok_run (p : result unit * World) : is_ok (fst p) = true -> p = (Ok tt, snd p).
Proof. by destruct p as [[[]|e] w']. Qed.

Lemma send_otp_correct_witness :
  otp_asked sample_wallet "+5491100000001" phone_world (snd ask_run) (Ok tt) /\ code_of asked_world 1 = Some "100000"%string.
Proof.
  split; [|vm_compute; reflexivity].
  refine (when_ok (fun r w' => otp_asked sample_wallet "+5491100000001" phone_world w' r) ask_run _ _).
  - cbv beta. unfold ask_run.
    pose proof (send_otp_correct (OUT := vendor) (MSG := silent) sample_wallet "+5491100000001" phone_world eq_refl phone_world_ok) as H.
    exact H.
  - vm_compute. reflexivity.
Defined.

Lemma asked_world_ok : w_tx asked_world = NoTx /\ users_ok (w_users asked_world).
Proof.
  pose proof (verifyPhone_run (OUT := vendor) (MSG := silent) sample_wallet "+5491100000001" phone_world eq_refl phone_world_ok) as H.
  unfold asked_world, ask_run. destruct (run _ phone_world) as [r w']. cbn [snd]. destruct H as (_ & ? & ? & _). by split.
Qed.

Local Abbreviation verify_in_asked number code :=
  (run (verifyPhoneOtp (OUT := vendor) sample_wallet number code) asked_world) (only parsing).

Lemma verify_otp_correct_witness :
  otp_checked sample_wallet "+5491100000001" "100000" asked_world (snd (verify_in_asked "+5491100000001" "100000")) (Ok tt).
Proof.
  refine (when_ok (fun r w' => otp_checked sample_wallet "+5491100000001" "100000" asked_world w' r)
    (verify_in_asked "+5491100000001" "100000") _ _).
  - cbv beta.
    pose proof (verify_otp_correct (OUT := vendor) sample_wallet "+5491100000001" "100000" asked_world
      (proj1 asked_world_ok) (proj2 asked_world_ok)) as H.
    exact H.
  - vm_compute. reflexivity.
Defined.

Lemma guesses_are_free_witness :
  w_users (guesses (OUT := vendor) sample_wallet "+5491100000001" ["100001"%string; "100002"%string; "100003"%string] asked_world) =
  w_users asked_world.
Proof.
  apply (guesses_are_free (OUT := vendor) sample_wallet "+5491100000001" _ asked_world (proj1 asked_world_ok) (proj2 asked_world_ok)).
  assert (H : map_Forall (fun _ u => phoneOtpCode (phone_columns u) = None \/ phoneOtpCode (phone_columns u) = Some "100000"%string)
                (w_users asked_world)).
  { apply (bool_decide_eq_true_1 _). vm_compute. reflexivity. }
  intros c Hc i u Hu Hs. specialize (H i u Hu). cbn in H. rewrite Hs in H.
  apply list_elem_of_In in Hc. clear Hu Hs. destruct Hc as [<-|[<-|[<-|[]]]]; destruct H as [H|H]; discriminate H.
Defined.

Lemma otp_single_use_witness :
  let w1 := snd (verify_in_asked "+5491100000001" "100000") in
  let '(r, w2) := run (verifyPhoneOtp (OUT := vendor) sample_wallet "+5491100000001" "100000") w1 in
  is_ok r = false /\ w_users w2 = w_users w1 /\ w_loans w2 = w_loans w1.
Proof.
  assert (Hr : is_ok (fst (verify_in_asked "+5491100000001" "100000")) = true) by (vm_compute; reflexivity).
  pose proof (ok_run _ Hr) as E.
  pose proof (otp_single_use (OUT := vendor) sample_wallet "+5491100000001" "100000" asked_world
    (snd (verify_in_asked "+5491100000001" "100000")) (proj1 asked_world_ok) (proj2 asked_world_ok) E) as H.
  exact H.
Defined.

(** Both users ask for the same number, and the first verifies it. *)
Lemma phones_stay_unique_witness :
  let c := (map (serve_phone (OUT := vendor) (MSG := silent))
             [VerifyPhone sample_wallet "+5491100000001"; VerifyPhone "0x00000000000000000000000000000000000000aa" "+5491100000001";
              VerifyPhoneOtp sample_wallet "+5491100000001" "100000"], phone_world) in
  users_ok (w_users (snd (run_schedule [0; 1; 0; 1; 0; 1; 0; 1; 0; 1; 0; 2; 2; 2; 2; 2; 2]%nat c))) /\
  phone_of (snd (run_schedule [0; 1; 0; 1; 0; 1; 0; 1; 0; 1; 0; 2; 2; 2; 2; 2; 2]%nat c)) 1 = Some "+5491100000001"%string.
Proof.
  split; [|vm_compute; reflexivity].
  exact (phones_stay_unique (OUT := vendor) (MSG := silent) _ phone_world _ (run_schedule_steps _ _) eq_refl phone_world_ok).
Defined.

(** A code asked for one number verifies another: the number of the request is not
    compared with the number the code was sent to, so the user of this run ends
    with a number no message was ever sent to. *)
Theorem otp_not_bound_to_phone :
  code_of asked_world 1 = Some "100000"%string /\
  is_ok (fst (verify_in_asked "+5491199999999" "100000")) = true /\
  phone_of (snd (verify_in_asked "+5491199999999" "100000")) 1 = Some "+5491199999999"%string.
Proof. vm_compute. auto. Qed.
