(* ===== verification/UserStore.v ===== *)
(** * The tables of the registration ([backend/src/domain/entities/not-verified-user.entity.ts])

    Besides the users and the loans ([Store.World]), registration has the people who
    did not verify their e-mail yet, the analytics rows it links to a new user, and a
    cache of waitlist ranks in the memory of the process. *)

From stdpp Require Import base tactics list gmap strings numbers.
From Stdlib Require Import Lia ZArith.
From S2P Require Import Prelude JsString JsNum Strkey Entities Gateway Store Async Kyc LoanVerification.

Local Open Scope Z_scope.

(** A person who asked to register; the phone columns of the table are not used. *)
Record NotVerifiedUser := {
  nv_id : Z;
  nv_walletAddress : string;
  nv_platform : option string;
  nv_email : option string;
  nv_otpCode : option string;
  nv_otpExpiresAt : option Z;
  nv_otpAttemptCount : Z;
  nv_lastOtpSentAt : option Z;
  nv_waitlistJoinedAt : option Z;
  nv_termsAcceptedAt : option Z;
}.

(** The columns of [device_sessions] and [borrow_attempts] that linking looks at. *)
Record AnalyticsRow := { ar_userId : option Z; ar_walletAddress : option string }.

Record CachedRank := { cr_value : Z; cr_expiresAt : Z }.

(** What registration takes from outside: a random code, and the mails it sends. *)
Inductive onboard_event :=
  | ERandomInt (value : Z)
  | EMail (to code : string).

Record OnboardWorld := {
  o_main : World;
  o_pending : gmap Z NotVerifiedUser;
  o_sessions : gmap Z AnalyticsRow;
  o_attempts : gmap Z AnalyticsRow;
  (** a JavaScript Map: the keys in the order they were added *)
  o_ranks : list (string * CachedRank);
  o_events : list onboard_event;
}.

Definition set_main (m : World) (w : OnboardWorld) : OnboardWorld :=
  {| o_main := m; o_pending := o_pending w; o_sessions := o_sessions w; o_attempts := o_attempts w;
     o_ranks := o_ranks w; o_events := o_events w |}.
Definition set_pending (t : gmap Z NotVerifiedUser) (w : OnboardWorld) : OnboardWorld :=
  {| o_main := o_main w; o_pending := t; o_sessions := o_sessions w; o_attempts := o_attempts w;
     o_ranks := o_ranks w; o_events := o_events w |}.
Definition set_analytics (s a : gmap Z AnalyticsRow) (w : OnboardWorld) : OnboardWorld :=
  {| o_main := o_main w; o_pending := o_pending w; o_sessions := s; o_attempts := a;
     o_ranks := o_ranks w; o_events := o_events w |}.
Definition set_ranks (r : list (string * CachedRank)) (w : OnboardWorld) : OnboardWorld :=
  {| o_main := o_main w; o_pending := o_pending w; o_sessions := o_sessions w; o_attempts := o_attempts w;
     o_ranks := r; o_events := o_events w |}.
Definition log_onboard (e : onboard_event) (w : OnboardWorld) : OnboardWorld :=
  {| o_main := o_main w; o_pending := o_pending w; o_sessions := o_sessions w; o_attempts := o_attempts w;
     o_ranks := o_ranks w; o_events := o_events w ++ [e] |}.

(** ** The database *)

Class OnboardDatabase := {
  odb_find_pending : OnboardWorld -> (NotVerifiedUser -> bool) -> result (option NotVerifiedUser);
  (** the error of a write of a pending row, of its deletion, of an update of an
      analytics table, of the query of the loan metrics, if any *)
  odb_pending_error : OnboardWorld -> NotVerifiedUser -> option exn;
  odb_delete_error : OnboardWorld -> Z -> option exn;
  odb_sessions_error : OnboardWorld -> option exn;
  odb_attempts_error : OnboardWorld -> option exn;
  odb_metrics_error : OnboardWorld -> option exn;
  (** the ids of inserted rows *)
  odb_new_pending_id : OnboardWorld -> Z;
  odb_new_user_id : World -> Z;
}.

(** Two users may not share a wallet or an e-mail (idx_user_wallet, uq_user_email). *)
Definition identity_conflict (u u' : User) : bool :=
  bool_decide (walletAddress u = walletAddress u') ||
  match email (onboarding u), email (onboarding u') with Some a, Some b => bool_decide (a = b) | _, _ => false end.

Class OnboardLaws (DB : Database) (ODB : OnboardDatabase) := {
  find_pending_some : forall w p r, odb_find_pending w p = Ok (Some r) -> exists i, o_pending w !! i = Some r /\ p r = true;
  find_pending_none : forall w p i r, odb_find_pending w p = Ok None -> o_pending w !! i = Some r -> p r = false;
  (** idx_not_verified_wallet *)
  pending_refused : forall w r i r', o_pending w !! i = Some r' -> i <> nv_id r ->
    nv_walletAddress r = nv_walletAddress r' -> is_Some (odb_pending_error w r);
  identity_refused : forall w u i u', w_users w !! i = Some u' -> i <> user_id u -> identity_conflict u u' = true ->
    exists ix, db_user_error w u = Some (UniqueViolation ix);
  new_pending_id_fresh : forall w, o_pending w !! odb_new_pending_id w = None;
  new_user_id_fresh : forall w, w_users w !! odb_new_user_id w = None;
}.

(** The mail transport, when it is configured, the random generator and SHA-256. *)
Class OnboardOutside := {
  (** [randomInt(100000, 1000000)] *)
  onboard_randomInt : list onboard_event -> Z;
  otp_hash : string -> string;
  mailer : option (list onboard_event -> string -> string -> result unit);
}.

(** ** Statements *)

Section Statements.
  Context `{DB : Database} `{ODB : OnboardDatabase} `{OOUT : OnboardOutside}.

(** A statement on the users or the loans, or a look at the clock. *)
Definition on_main {A} (m : M World A) : M OnboardWorld A := fun w =>
  let '(r, m') := m (o_main w) in (r, set_main m' w).

(** A statement on the other tables, in the same transaction if one is open. *)
Definition ostatement {A} (f : OnboardWorld -> result (A * (OnboardWorld -> OnboardWorld))) : M OnboardWorld A := fun w =>
  match w_tx (o_main w) with
  | TxAborted => (Throw tx_aborted, w)
  | _ => match f w with
         | Ok (a, eff) => (Ok a, eff w)
         | Throw e => (Throw e, set_main (poison (o_main w)) w)
         end
  end.

Definition written (error : option exn) (eff : OnboardWorld -> OnboardWorld) : result (unit * (OnboardWorld -> OnboardWorld)) :=
  match error with Some e => Throw e | None => Ok (tt, eff) end.

Definition find_pending (p : NotVerifiedUser -> bool) : M OnboardWorld (option NotVerifiedUser) :=
  ostatement (fun w => match odb_find_pending w p with Ok r => Ok (r, id) | Throw e => Throw e end).

(** [pendingRepo.save(pending)] of a row that was read. *)
Definition save_pending (p : NotVerifiedUser) : M OnboardWorld unit :=
  ostatement (fun w => written (odb_pending_error w p) (fun w => set_pending (<[nv_id p := p]> (o_pending w)) w)).

Definition with_nv_id (i : Z) (p : NotVerifiedUser) : NotVerifiedUser :=
  {| nv_id := i; nv_walletAddress := nv_walletAddress p; nv_platform := nv_platform p; nv_email := nv_email p;
     nv_otpCode := nv_otpCode p; nv_otpExpiresAt := nv_otpExpiresAt p; nv_otpAttemptCount := nv_otpAttemptCount p;
     nv_lastOtpSentAt := nv_lastOtpSentAt p; nv_waitlistJoinedAt := nv_waitlistJoinedAt p;
     nv_termsAcceptedAt := nv_termsAcceptedAt p |}.

(** [pendingRepo.save(pending)] of a new row: the entity with its id. *)
Definition insert_pending (p : NotVerifiedUser) : M OnboardWorld NotVerifiedUser :=
  ostatement (fun w =>
    let p' := with_nv_id (odb_new_pending_id w) p in
    match odb_pending_error w p' with
    | Some e => Throw e
    | None => Ok (p', fun w => set_pending (<[nv_id p' := p']> (o_pending w)) w)
    end).

(** [manager.delete(NotVerifiedUser, { id })] *)
Definition delete_pending (i : Z) : M OnboardWorld unit :=
  ostatement (fun w => written (odb_delete_error w i) (fun w => set_pending (delete i (o_pending w)) w)).

Definition with_user_id (i : Z) (u : User) : User :=
  {| user_id := i; walletAddress := walletAddress u; onboarding := onboarding u; credit := credit u;
     phone_columns := phone_columns u; kyc := kyc u |}.

(** [manager.save(User, newUser)] of a new user: the entity with its id. *)
Definition insert_user (u : User) : M World User :=
  statement (fun w =>
    let u' := with_user_id (odb_new_user_id w) u in
    match db_user_error w u' with
    | Some e => Throw e
    | None => Ok (u', fun w => set_users (<[user_id u' := u']> (w_users w)) w)
    end).

(** A query runner's transaction: rolled back when the body throws, or when it
    returns from an aborted transaction. *)
Definition otransaction {A} (body : M OnboardWorld A) : M OnboardWorld A := fun w =>
  let '(r, w') := body (set_main (set_tx TxActive (o_main w)) w) in
  let rolled_back :=
    {| o_main := {| w_users := w_users (o_main w); w_loans := w_loans (o_main w); w_side := w_side (o_main w);
                    w_tx := w_tx (o_main w); w_calls := w_calls (o_main w') |};
       o_pending := o_pending w; o_sessions := o_sessions w; o_attempts := o_attempts w;
       o_ranks := o_ranks w'; o_events := o_events w' |} in
  match r, w_tx (o_main w') with
  | Ok a, TxAborted => (Ok a, rolled_back)
  | Ok a, _ => (Ok a, set_main (set_tx (w_tx (o_main w)) (o_main w')) w')
  | Throw e, _ => (Throw e, rolled_back)
  end.

Definition oRandomInt : M OnboardWorld Z := fun w =>
  let x := onboard_randomInt (o_events w) in (Ok x, log_onboard (ERandomInt x) w).

Definition sendMail (send : list onboard_event -> string -> string -> result unit) (to code : string) : M OnboardWorld unit :=
  fun w => (send (o_events w) to code, log_onboard (EMail to code) w).
End Statements.

(** ** A concrete database *)

(** The memory database, with the unique indexes of registration. *)
Definition strict_user_error (w : World) (u : User) : option exn :=
  if bool_decide (map_Exists (fun i u' => i <> user_id u /\ (identity_conflict u u' || phone_conflict u u') = true) (w_users w))
  then Some (UniqueViolation "users") else None.

Definition StrictDatabase : Database := {|
  db_decimal := @db_decimal MemoryDatabase; db_find_user := @db_find_user MemoryDatabase;
  db_find_loan := @db_find_loan MemoryDatabase; db_find_loans := @db_find_loans MemoryDatabase;
  db_find_loans_latest := @db_find_loans_latest MemoryDatabase; db_count_loans := @db_count_loans MemoryDatabase;
  db_sum_paid := @db_sum_paid MemoryDatabase; db_find_self := @db_find_self MemoryDatabase;
  db_count_users := @db_count_users MemoryDatabase; db_find_users := @db_find_users MemoryDatabase;
  db_user_error := strict_user_error; db_loan_error := @db_loan_error MemoryDatabase;
  db_new_loan_id := @db_new_loan_id MemoryDatabase; db_created_at := @db_created_at MemoryDatabase;
  db_find_loans_desc := @db_find_loans_desc MemoryDatabase; db_find_all_users := @db_find_all_users MemoryDatabase;
  db_find_cursor := @db_find_cursor MemoryDatabase; db_side_error := @db_side_error MemoryDatabase |}.

Definition MemoryOnboard : OnboardDatabase := {|
  odb_find_pending w p := Ok (head (rows (o_pending w) p));
  odb_pending_error w r :=
    if bool_decide (map_Exists (fun i r' => i <> nv_id r /\ nv_walletAddress r = nv_walletAddress r') (o_pending w))
    then Some (UniqueViolation "idx_not_verified_wallet") else None;
  odb_delete_error _ _ := None;
  odb_sessions_error _ := None; odb_attempts_error _ := None; odb_metrics_error _ := None;
  odb_new_pending_id w := fresh (dom (o_pending w));
  odb_new_user_id w := fresh (dom (w_users w)) |}.

Lemma strict_refuses w u i u' :
  w_users w !! i = Some u' -> i <> user_id u -> (identity_conflict u u' || phone_conflict u u') = true ->
  exists ix, strict_user_error w u = Some (UniqueViolation ix).
Proof.
  intros Hu Hi Hc. unfold strict_user_error. rewrite bool_decide_true; [eauto|]. exists i, u'. done.
Qed.

#[export] Instance StrictDatabase_laws : DatabaseLaws StrictDatabase.
Proof.
  destruct MemoryDatabase_laws. constructor; try assumption.
  intros w u i u' Hu Hi Hc. eapply strict_refuses; [done..|]. by rewrite Hc, orb_true_r.
Qed.

#[export] Instance MemoryOnboard_laws : OnboardLaws StrictDatabase MemoryOnboard.
Proof.
  constructor; cbn.
  - intros w p r [= H]. apply head_Some_elem_of in H. by apply elem_of_rows.
  - intros w p i r [= H] Hr. apply head_None in H. destruct (p r) eqn:Hp; [|done].
    assert (Hin : r ∈ rows (o_pending w) p) by (apply elem_of_rows; eauto).
    rewrite H in Hin. by apply elem_of_nil in Hin.
  - intros w r i r' Hr Hi Hc. rewrite bool_decide_true; [eauto|]. exists i, r'. done.
  - intros w u i u' Hu Hi Hc. eapply strict_refuses; [done..|]. by rewrite Hc.
  - intros w. apply not_elem_of_dom. apply is_fresh.
  - intros w. apply not_elem_of_dom. apply is_fresh.
Qed.
