(* ===== verification/UserQuery.v ===== *)
(** * The state of a user ([backend/src/user/user-query.service.ts])

    What the application shows of a wallet: the registered user, the person who has
    not verified an e-mail yet, or nobody; with the rank on the platform, kept for a
    minute in a bounded cache. *)

From stdpp Require Import base tactics list gmap strings numbers.
From Stdlib Require Import Lia ZArith Ascii.
From S2P Require Import Prelude JsString JsNum Strkey Entities Gateway Store Async Kyc EarlyAccess LoanVerification UserStore.

Local Open Scope Z_scope.

Definition RANK_CACHE_TTL_MS : Z := 60000.
Definition RANK_CACHE_MAX : nat := 500.

Definition resolvePlatform (storedPlatform requestPlatform : option string) : string :=
  match normalizePlatform storedPlatform, normalizePlatform requestPlatform with
  | Some a, _ => a
  | None, Some b => b
  | None, None => "lemon"
  end.

(** ** The rank cache: a JavaScript Map *)

Section Ranks.

(** [map.get(key)] *)
Fixpoint rank_get (key : string) (m : list (string * CachedRank)) : option CachedRank :=
  match m with
  | [] => None
  | (k, c) :: m' => if bool_decide (k = key) then Some c else rank_get key m'
  end.

(** [map.set(key, value)]: a key that is there keeps its place. *)
Fixpoint rank_set (key : string) (c : CachedRank) (m : list (string * CachedRank)) : list (string * CachedRank) :=
  match m with
  | [] => [(key, c)]
  | (k, d) :: m' => if bool_decide (k = key) then (key, c) :: m' else (k, d) :: rank_set key c m'
  end.

(** The pruning: first the expired entries, then the oldest ones. *)
Definition rank_prune (now : Z) (m : list (string * CachedRank)) : list (string * CachedRank) :=
  let live := List.filter (fun kc => now <? cr_expiresAt (snd kc)) m in
  drop (length live - RANK_CACHE_MAX) live.

Definition rank_key (u : User) (pf : string) : string :=
  (pf ++ ":" ++ String_of_int (waitlistPriority (onboarding u)) ++ ":" ++ String_of_int (createdAt (onboarding u)))%string.
End Ranks.

(** ** What is shown of a phone *)

(** [/^\+\d{1,3}/]: the plus sign and up to three digits, or nothing. *)
Definition phone_prefix (p : list ascii) : list ascii :=
  match p with
  | "+"%char :: d :: r =>
      if is_digit d then
        "+"%char :: d :: match r with
                         | e :: r' => if is_digit e then e :: match r' with f :: _ => if is_digit f then [f] else [] | [] => [] end else []
                         | [] => []
                         end
      else []
  | _ => []
  end.

(** The prefix, a space, and the rest with all but its last four characters hidden:
    digits become bullets. *)
Definition phoneMasked (p : string) : string :=
  let prefix := phone_prefix (chars p) in
  let rest := drop (length prefix) (chars p) in
  let hidden := take (length rest - 4) rest in
  let shown := drop (length rest - 4) rest in
  (of_chars prefix ++ " " ++ String.concat "" (map (fun c => if is_digit c then "•"%string else of_chars [c]) hidden) ++ of_chars shown)%string.

(** [!!v] of a number: neither zero nor NaN. *)
Definition truthy (v : option num) : bool :=
  match v with Some x => negb (neqb x (num_of_Z 0)) && neqb x x | None => false end.

(** The columns a verified user has. *)
Definition allRequiredPresent (u : User) : bool :=
  truthy (creditLimit (credit u)) && match score (credit u) with Some s => negb (s =? 0) | None => false end.

(** The part of the answer only a registered user has. *)
Record RegisteredPart := {
  rp_workType : option string;
  rp_phoneMasked : option string;
  rp_pendingPhoneOtp : bool;
  rp_openLoansCount : Z;
}.

Record UserStep := {
  us_walletAddress : string;
  us_userId : option Z;
  us_isVerified : bool;
  us_creditLimit : option num;
  us_email : option string;
  us_xp : Z;
  us_achievementsCount : Z;
  us_score : option Z;
  us_termsAccepted : bool;
  us_phoneVerified : bool;
  us_waitlistLimit : Z;
  us_isEarlyUser : bool;
  us_isInWaitlist : bool;
  us_waitlistPosition : option Z;
  us_waitlistPriority : Z;
  us_needsEmailForWaitlist : bool;
  us_goToWaitlist : bool;
  us_hasPendingWaitlist : bool;
  us_requiresWaitlistOtp : bool;
  us_otpExpiresAt : option Z;
  us_loansTotal : Z;
  us_closedLoansTotal : Z;
  us_loansOnTime : Z;
  us_registered : option RegisteredPart;
}.

Definition is_some {A} (o : option A) : bool := match o with Some _ => true | None => false end.

Definition pending_step (p : NotVerifiedUser) : UserStep :=
  {| us_walletAddress := nv_walletAddress p; us_userId := None; us_isVerified := false; us_creditLimit := None;
     us_email := nv_email p; us_xp := 1; us_achievementsCount := 0; us_score := None;
     us_termsAccepted := is_some (nv_termsAcceptedAt p); us_phoneVerified := false;
     us_waitlistLimit := 0; us_isEarlyUser := true; us_isInWaitlist := false; us_waitlistPosition := None;
     us_waitlistPriority := 0; us_needsEmailForWaitlist := false; us_goToWaitlist := false;
     us_hasPendingWaitlist := is_some (nv_waitlistJoinedAt p); us_requiresWaitlistOtp := true;
     us_otpExpiresAt := nv_otpExpiresAt p; us_loansTotal := 0; us_closedLoansTotal := 0; us_loansOnTime := 0;
     us_registered := None |}.

Definition unknown_step (wallet : string) : UserStep :=
  {| us_walletAddress := wallet; us_userId := None; us_isVerified := false; us_creditLimit := None; us_email := None;
     us_xp := 1; us_achievementsCount := 0; us_score := None; us_termsAccepted := false; us_phoneVerified := false;
     us_waitlistLimit := 0; us_isEarlyUser := true; us_isInWaitlist := false; us_waitlistPosition := None;
     us_waitlistPriority := 0; us_needsEmailForWaitlist := false; us_goToWaitlist := false;
     us_hasPendingWaitlist := false; us_requiresWaitlistOtp := false; us_otpExpiresAt := None;
     us_loansTotal := 0; us_closedLoansTotal := 0; us_loansOnTime := 0; us_registered := None |}.

(** The counts of the metrics query. *)
Record LoanMetrics := { lm_total : Z; lm_closed : Z; lm_onTime : Z; lm_open : Z }.

Definition unpaid_status (s : LoanStatus) : bool :=
  match s with OPEN | DEFAULTED | DEFAULTED_IN_GRACE => true | _ => false end.

Definition metrics_of (i : Z) (w : World) : LoanMetrics :=
  let count p := Z.of_nat (size (loans_where (fun l => of_user i l && p l) w)) in
  {| lm_total := count (fun _ => true);
     lm_closed := count (fun l => is_some (closedAt (state l)));
     lm_onTime := count (fun l => is_some (closedAt (state l)) && repaidOnTime (state l));
     lm_open := count (fun l => negb (is_some (closeTxHash (state l))) && unpaid_status (status (state l))) |}.

Definition registered_step (u : User) (m : LoanMetrics) (pending : option NotVerifiedUser) (now : Z) : UserStep :=
  let ph := phone_columns u in
  {| us_walletAddress := walletAddress u; us_userId := Some (user_id u); us_isVerified := allRequiredPresent u;
     us_creditLimit := creditLimit (credit u); us_email := email (onboarding u); us_xp := xp (credit u);
     us_achievementsCount := 0; us_score := score (credit u); us_termsAccepted := is_some (termsAcceptedAt (onboarding u));
     us_phoneVerified := is_some (phoneVerifiedAt ph);
     us_waitlistLimit := 0; us_isEarlyUser := true; us_isInWaitlist := false; us_waitlistPosition := None;
     us_waitlistPriority := waitlistPriority (onboarding u); us_needsEmailForWaitlist := false; us_goToWaitlist := false;
     us_hasPendingWaitlist := false; us_requiresWaitlistOtp := is_some pending;
     us_otpExpiresAt := pending ≫= nv_otpExpiresAt;
     us_loansTotal := lm_total m; us_closedLoansTotal := lm_closed m; us_loansOnTime := lm_onTime m;
     us_registered := Some {|
       rp_workType := workType (onboarding u);
       rp_phoneMasked := if filled (phone ph) then phoneMasked <$> phone ph else None;
       rp_pendingPhoneOtp := filled (phoneOtpCode ph) && match phoneOtpExpiresAt ph with Some t => now <? t | None => false end;
       rp_openLoansCount := lm_open m |} |}.

Section UserQuery.
  Context `{DB : Database} `{ODB : OnboardDatabase} `{OUT : Outside}.

Definition by_pending_wallet (wallet : string) (p : NotVerifiedUser) : bool := bool_decide (nv_walletAddress p = wallet).

(** [cached && cached.expiresAt > Date.now()] *)
Definition rank_cached (key : string) : M OnboardWorld (option Z) := fun w =>
  match rank_get key (o_ranks w) with
  | None => (Ok None, w)
  | Some c =>
      match on_main date_now w with
      | (Ok now, w') => (Ok (if now <? cr_expiresAt c then Some (cr_value c) else None), w')
      | (Throw e, w') => (Throw e, w')
      end
  end.

(** The clock is read again when the cache has to be pruned. *)
Definition rank_store (key : string) (rank : Z) : M OnboardWorld unit :=
  now ← on_main date_now;
  _ ← modify (fun w => set_ranks (rank_set key {| cr_value := rank; cr_expiresAt := now + RANK_CACHE_TTL_MS |} (o_ranks w)) w);
  size ← gets (fun w => length (o_ranks w));
  if (RANK_CACHE_MAX <? size)%nat then
    now ← on_main date_now;
    modify (fun w => set_ranks (rank_prune now (o_ranks w)) w)
  else mret tt.

Definition getRankWithinPlatform (u : User) (pf : string) : proc OnboardWorld Z :=
  cached ← await (rank_cached (rank_key u pf));
  match cached with
  | Some v => Return v
  | None =>
      rank ← await (on_main (count_users (ranked_before u pf)));
      _ ← await (rank_store (rank_key u pf) rank);
      Return rank
  end.

Definition getWaitlistPosition (u : User) (platformOverride : option string) : proc OnboardWorld (option Z) :=
  match waitlistJoinedAt (onboarding u) with
  | None => Return None
  | Some _ =>
      let platformEff := match platformOverride with
                         | Some p => p
                         | None => default "lemon"%string (normalizePlatform (platform (onboarding u)))
                         end in
      limit ← await (on_main (getUserUntilWaitlist (Some platformEff)));
      if limit <=? 0 then Return None
      else
        rank ← getRankWithinPlatform u platformEff;
        Return (if rank <=? limit then None else Some (rank - limit))
  end.

Definition loan_metrics (i : Z) : M OnboardWorld LoanMetrics :=
  ostatement (fun w => match odb_metrics_error w with Some e => Throw e | None => Ok (metrics_of i (o_main w), id) end).

(** The rank is only asked for: no answer depends on it. The clock is read for the
    phone code, when there is one. *)
Definition getStepByWallet (walletAddress : string) (pf : option string) : proc OnboardWorld UserStep :=
  wallet ← of_result (normalizeWallet walletAddress);
  user ← await (on_main (find_user (by_wallet wallet)));
  match user with
  | Some user =>
      let platformEff := resolvePlatform (platform (onboarding user)) pf in
      _ ← getRankWithinPlatform user platformEff;
      m ← await (loan_metrics (user_id user));
      pending ← await (find_pending (by_pending_wallet wallet));
      now ← await (on_main date_now);
      Return (registered_step user m pending now)
  | None =>
      pending ← await (find_pending (by_pending_wallet wallet));
      Return (match pending with Some p => pending_step p | None => unknown_step wallet end)
  end.
End UserQuery.
