(* ===== verification/Onboarding.v ===== *)
(** * Registration ([backend/src/user/user-onboarding.service.ts])

    The terms, the e-mail and its one-time password, the waitlist, and the request
    that checks the password and creates the user. Requests interleave at their
    awaits. *)

From stdpp Require Import base tactics list gmap strings numbers.
From Stdlib Require Import Lia ZArith.
From S2P Require Import Prelude JsString JsNum Strkey Entities Gateway Store Async Kyc EarlyAccess LoanVerification UserStore UserQuery.

Local Open Scope Z_scope.

Definition EMAIL_OTP_THROTTLE_MS : Z := 60000.
Definition EMAIL_OTP_LIFETIME_MS : Z := 10 * 60 * 1000.
Definition EMAIL_OTP_MAX_ATTEMPTS : Z := 5.

(** [email.trim().toLowerCase()] *)
Definition normalizedEmail (email : string) : string := toLowerCase (trim email).

(** ** The columns a request writes *)

(** A text column that is null or empty takes the new value, if there is one. *)
Definition fill_text (old new : option string) : option string :=
  match new with
  | Some n => if filled old then old else Some n
  | None => old
  end.

Definition fill {A} (old new : option A) : option A := match old with Some _ => old | None => new end.

(** [updates]: the columns of a user that registration sets; [None] leaves a column. *)
Record UserUpdates := {
  up_email : option string;
  up_platform : option string;
  up_workType : option string;
  up_termsAcceptedAt : option Z;
  up_waitlistJoinedAt : option Z;
}.

Definition no_updates : UserUpdates :=
  {| up_email := None; up_platform := None; up_workType := None; up_termsAcceptedAt := None; up_waitlistJoinedAt := None |}.

Definition apply_updates (up : UserUpdates) (u : User) : User :=
  let o := onboarding u in
  let set {A} (new old : option A) : option A := match new with Some _ => new | None => old end in
  with_onboarding u {| platform := set (up_platform up) (platform o); email := set (up_email up) (email o);
    workType := set (up_workType up) (workType o); termsAcceptedAt := set (up_termsAcceptedAt up) (termsAcceptedAt o);
    waitlistJoinedAt := set (up_waitlistJoinedAt up) (waitlistJoinedAt o);
    earlyAccessNotifiedAt := earlyAccessNotifiedAt o; waitlistPriority := waitlistPriority o; createdAt := createdAt o |}.

(** [if (!user.platform && p) updates.platform = p] *)
Definition missing_platform (current : option string) (p : option string) : option string :=
  if filled current then None else p.

(** The updates of [verifyOtp]: when no e-mail waits to be verified, and when one did. *)
Definition work_updates (user : User) (workType : string) (requestPlatform : option string) : UserUpdates :=
  {| up_email := None; up_platform := missing_platform (platform (onboarding user)) requestPlatform;
     up_workType := Some workType; up_termsAcceptedAt := None; up_waitlistJoinedAt := None |}.

Definition otp_updates (p : NotVerifiedUser) (user : User) (mail workType : string) (platformNorm : option string) : UserUpdates :=
  {| up_email := Some mail; up_platform := missing_platform (platform (onboarding user)) platformNorm;
     up_workType := Some workType; up_waitlistJoinedAt := None;
     up_termsAcceptedAt := if is_some (termsAcceptedAt (onboarding user)) then None else nv_termsAcceptedAt p |}.

(** A person who was not known yet. *)
Definition new_pending (wallet : string) (pf email : option string) (joined terms : option Z) : NotVerifiedUser :=
  {| nv_id := 0; nv_walletAddress := wallet; nv_platform := pf; nv_email := email; nv_otpCode := None; nv_otpExpiresAt := None;
     nv_otpAttemptCount := 0; nv_lastOtpSentAt := None; nv_waitlistJoinedAt := joined; nv_termsAcceptedAt := terms |}.

(** Assignments to the columns of a person that is known. *)
Definition pending_with (p : NotVerifiedUser) (pf email : option string) (joined terms : option Z) : NotVerifiedUser :=
  {| nv_id := nv_id p; nv_walletAddress := nv_walletAddress p; nv_platform := pf; nv_email := email;
     nv_otpCode := nv_otpCode p; nv_otpExpiresAt := nv_otpExpiresAt p; nv_otpAttemptCount := nv_otpAttemptCount p;
     nv_lastOtpSentAt := nv_lastOtpSentAt p; nv_waitlistJoinedAt := joined; nv_termsAcceptedAt := terms |}.

Definition pending_code (p : NotVerifiedUser) (hash : string) (now : Z) : NotVerifiedUser :=
  {| nv_id := nv_id p; nv_walletAddress := nv_walletAddress p; nv_platform := nv_platform p; nv_email := nv_email p;
     nv_otpCode := Some hash; nv_otpExpiresAt := Some (now + EMAIL_OTP_LIFETIME_MS); nv_otpAttemptCount := 0;
     nv_lastOtpSentAt := Some now; nv_waitlistJoinedAt := nv_waitlistJoinedAt p; nv_termsAcceptedAt := nv_termsAcceptedAt p |}.

Definition pending_attempt (p : NotVerifiedUser) : NotVerifiedUser :=
  {| nv_id := nv_id p; nv_walletAddress := nv_walletAddress p; nv_platform := nv_platform p; nv_email := nv_email p;
     nv_otpCode := nv_otpCode p; nv_otpExpiresAt := nv_otpExpiresAt p; nv_otpAttemptCount := nv_otpAttemptCount p + 1;
     nv_lastOtpSentAt := nv_lastOtpSentAt p; nv_waitlistJoinedAt := nv_waitlistJoinedAt p; nv_termsAcceptedAt := nv_termsAcceptedAt p |}.

(** The row of a new user, with the defaults of the table. *)
Definition registered_user (wallet : string) (pf : option string) (mail work : string) (terms joined : option Z) (created : Z) : User :=
  {| user_id := 0; walletAddress := wallet;
     onboarding := {| platform := pf; email := Some mail; workType := Some work; termsAcceptedAt := terms;
                      waitlistJoinedAt := joined; earlyAccessNotifiedAt := None; waitlistPriority := 0; createdAt := created |};
     credit := {| creditLimit := None; score := None; xp := 1; riskDecision := None; riskPDefault := None; walletQuality := None;
                  hadDefaultEver := false; defaultsCount := 0 |};
     phone_columns := {| phone := None; phoneVerifiedAt := None; lastPhoneOtpSentAt := None; phoneOtpCode := None;
                         phoneOtpExpiresAt := None; phoneOtpAttemptCount := 0 |};
     kyc := {| kycStatus := "none"; kycSessionId := None; kycProvider := None; kycApprovedAt := None |} |}.

(** The row belongs to the wallet and to no user yet. *)
Definition linkable (wallet : string) (r : AnalyticsRow) : bool :=
  negb (is_some (ar_userId r)) &&
  match ar_walletAddress r with
  | Some a => bool_decide (a = wallet) || bool_decide (toLowerCase a = toLowerCase wallet)
  | None => false
  end.

Definition link_rows (i : Z) (wallet : string) (t : gmap Z AnalyticsRow) : gmap Z AnalyticsRow :=
  (fun r => if linkable wallet r then {| ar_userId := Some i; ar_walletAddress := ar_walletAddress r |} else r) <$> t.

(** [{ walletAddress, otpExpiresAt }] of [resendOtp], or the state of the user. *)
Inductive ResendAnswer :=
  | ResendStep (s : UserStep)
  | Resent (walletAddress : string) (otpExpiresAt : option Z).

Section Onboarding.
  Context `{DB : Database} `{OUT : Outside} `{ODB : OnboardDatabase} `{OOUT : OnboardOutside}.

Definition find_user_by_wallet (wallet : string) : M OnboardWorld (option User) := on_main (find_user (by_wallet wallet)).
Definition find_pending_by_wallet (wallet : string) : M OnboardWorld (option NotVerifiedUser) := find_pending (by_pending_wallet wallet).

Definition linkAnalyticsForNewUser (i : Z) (walletAddress : string) : proc OnboardWorld unit :=
  wallet ← of_result (normalizeWallet walletAddress);
  _ ← await (ostatement (fun w => written (odb_sessions_error w)
               (fun w => set_analytics (link_rows i wallet (o_sessions w)) (o_attempts w) w)));
  await (ostatement (fun w => written (odb_attempts_error w)
               (fun w => set_analytics (o_sessions w) (link_rows i wallet (o_attempts w)) w))).

Definition ensureEmailIsFreeForWallet (mail wallet : string) : proc OnboardWorld unit :=
  if bool_decide (mail = ""%string) then Raise (BadRequestException "Email is required")
  else
    existing ← await (on_main (find_user (fun u => bool_decide (email (onboarding u) = Some mail))));
    match existing with
    | Some u => if bool_decide (walletAddress u = wallet) then Return tt
                else Raise (BadRequestException "Email already used by another account")
    | None => Return tt
    end.

(** The code is hashed and stored, then mailed; a mail that fails is only logged. *)
Definition issueOtpForPending (p : NotVerifiedUser) : proc OnboardWorld NotVerifiedUser :=
  if negb (filled (nv_email p)) then Raise (BadRequestException "User has no email")
  else
    now ← await (on_main date_now);
    if match nv_lastOtpSentAt p with Some t => now - t <? EMAIL_OTP_THROTTLE_MS | None => false end
    then Raise (BadRequestException "Esperá unos segundos antes de pedir otro código")
    else
      n ← await oRandomInt;
      let code := String_of_int n in
      let p := pending_code p (otp_hash code) now in
      _ ← await (save_pending p);
      _ ← match mailer with
          | Some send => proc_try (fun _ => Return tt) (await (sendMail send (default ""%string (nv_email p)) code))
          | None => Return tt
          end;
      Return p.

Definition acceptTerms (walletAddress : string) (pf : option string) : proc OnboardWorld UserStep :=
  wallet ← of_result (normalizeWallet walletAddress);
  let platformNorm := normalizePlatform pf in
  now ← await (on_main date_now);
  user ← await (find_user_by_wallet wallet);
  match user with
  | Some user =>
      let updates := {| up_email := None; up_platform := missing_platform (platform (onboarding user)) platformNorm;
                        up_workType := None; up_waitlistJoinedAt := None;
                        up_termsAcceptedAt := if is_some (termsAcceptedAt (onboarding user)) then None else Some now |} in
      _ ← await (on_main (update_user (user_id user) (apply_updates updates)));
      getStepByWallet wallet None
  | None =>
      pending ← await (find_pending_by_wallet wallet);
      _ ← match pending with
          | None => _ ← await (insert_pending (new_pending wallet platformNorm None None (Some now))); Return tt
          | Some p =>
              await (save_pending (pending_with p (fill_text (nv_platform p) platformNorm) (nv_email p) (nv_waitlistJoinedAt p)
                                     (fill (nv_termsAcceptedAt p) (Some now))))
          end;
      getStepByWallet wallet None
  end.

Definition verifyEmail (walletAddress mail : string) (pf : option string) : proc OnboardWorld UserStep :=
  wallet ← of_result (normalizeWallet walletAddress);
  let mail := normalizedEmail mail in
  let platformNorm := normalizePlatform pf in
  _ ← ensureEmailIsFreeForWallet mail wallet;
  user ← await (find_user_by_wallet wallet);
  _ ← match user with
      | Some user =>
          let updates := {| up_email := Some mail; up_platform := missing_platform (platform (onboarding user)) platformNorm;
                            up_workType := None; up_termsAcceptedAt := None; up_waitlistJoinedAt := None |} in
          await (on_main (update_user (user_id user) (apply_updates updates)))
      | None => Return tt
      end;
  pending ← await (find_pending_by_wallet wallet);
  pending ← match pending with
            | None => await (insert_pending (new_pending wallet platformNorm (Some mail) None None))
            | Some p =>
                let p := pending_with p (fill_text (nv_platform p) platformNorm) (Some mail) (nv_waitlistJoinedAt p) (nv_termsAcceptedAt p) in
                _ ← await (save_pending p); Return p
            end;
  _ ← issueOtpForPending pending;
  getStepByWallet wallet None.

(** [waitlistJoinedAt ?? new Date()] *)
Definition joined_or_now (joined : option Z) : proc OnboardWorld Z :=
  match joined with Some t => Return t | None => await (on_main date_now) end.

(** The update of the user's row in [joinWaitlist], and when the user joined. *)
Definition join_user (user : User) (mail : string) (platformNorm : option string) : proc OnboardWorld (option Z) :=
  early ← await (on_main (isEarlyUser user None));
  joinedNow ← (if negb early && negb (is_some (waitlistJoinedAt (onboarding user)))
               then now ← await (on_main date_now); Return (Some now) else Return None);
  let updates := {| up_email := Some mail; up_platform := missing_platform (platform (onboarding user)) platformNorm;
                    up_workType := None; up_termsAcceptedAt := None; up_waitlistJoinedAt := joinedNow |} in
  _ ← await (on_main (update_user (user_id user) (apply_updates updates)));
  Return (fill joinedNow (waitlistJoinedAt (onboarding user))).

Definition joinWaitlist (walletAddress mail : string) (pf : option string) : proc OnboardWorld UserStep :=
  wallet ← of_result (normalizeWallet walletAddress);
  let mail := normalizedEmail mail in
  let platformNorm := normalizePlatform pf in
  _ ← ensureEmailIsFreeForWallet mail wallet;
  user ← await (find_user_by_wallet wallet);
  joined ← match user with Some user => join_user user mail platformNorm | None => Return None end;
  pending ← await (find_pending_by_wallet wallet);
  pending ← match pending with
            | None =>
                t ← joined_or_now joined;
                await (insert_pending (new_pending wallet platformNorm (Some mail) (Some t) None))
            | Some p =>
                t ← match nv_waitlistJoinedAt p with Some t => Return t | None => joined_or_now joined end;
                let p := pending_with p (fill_text (nv_platform p) platformNorm) (Some mail) (Some t) (nv_termsAcceptedAt p) in
                _ ← await (save_pending p); Return p
            end;
  _ ← issueOtpForPending pending;
  getStepByWallet wallet None.

(** ** The check of the code *)

(** No e-mail waits to be verified: only the work is recorded, for a known user. *)
Definition no_pending_otp (wallet workType : string) (requestPlatform : option string) : proc OnboardWorld UserStep :=
  existing ← await (find_user_by_wallet wallet);
  match existing with
  | Some user =>
      _ ← await (on_main (update_user (user_id user) (apply_updates (work_updates user workType requestPlatform))));
      getStepByWallet wallet (fill (normalizePlatform (platform (onboarding user))) requestPlatform)
  | None => Raise (BadRequestException "Invalid user")
  end.

(** [if (pending.otpExpiresAt < now) ... if (pending.otpCode !== hashOtp(code)) ...] *)
Definition check_otp (p : NotVerifiedUser) (code : string) : proc OnboardWorld unit :=
  match filled (nv_otpCode p), nv_otpExpiresAt p with
  | true, Some expires =>
      now ← await (on_main date_now);
      if expires <? now then Raise (BadRequestException "Code expired")
      else if EMAIL_OTP_MAX_ATTEMPTS <=? nv_otpAttemptCount p
      then Raise (BadRequestException "Too many failed attempts, request a new code")
      else if negb (bool_decide (nv_otpCode p = Some (otp_hash code))) then
        _ ← await (save_pending (pending_attempt p)); Raise (BadRequestException "Invalid code")
      else Return tt
  | _, _ => Raise (BadRequestException "No active code, request a new one")
  end.

(** The user exists: the row and the pending one, in a transaction. *)
Definition sync_existing (wallet : string) (p : NotVerifiedUser) (user : User) (mail workType : string) (platformNorm : option string)
  : proc OnboardWorld UserStep :=
  _ ← await (otransaction (_ ← on_main (update_user (user_id user) (apply_updates (otp_updates p user mail workType platformNorm)));
                           delete_pending (nv_id p)));
  getStepByWallet wallet (fill (normalizePlatform (platform (onboarding user))) platformNorm).

(** [where: { platform }], or every user when the platform is unknown. *)
Definition on_platform (pf : option string) (u : User) : bool :=
  match pf with Some p => bool_decide (platform (onboarding u) = Some p) | None => true end.

Definition create_user (wallet : string) (p : NotVerifiedUser) (mail workType : string) (platformNorm : option string)
  : proc OnboardWorld UserStep :=
  waitlistLimit ← await (on_main (getUserUntilWaitlist platformNorm));
  currentUsers ← await (on_main (count_users (on_platform platformNorm)));
  let isEarly := (0 <? waitlistLimit) && (currentUsers + 1 <=? waitlistLimit) in
  joined ← (if isEarly then Return None else t ← joined_or_now (nv_waitlistJoinedAt p); Return (Some t));
  newUser ← await (otransaction (
    u ← on_main (fun w => insert_user (registered_user (nv_walletAddress p) platformNorm mail workType (nv_termsAcceptedAt p) joined
                                         (db_created_at w)) w);
    _ ← delete_pending (nv_id p);
    mret u));
  _ ← proc_try (fun _ => Return tt) (linkAnalyticsForNewUser (user_id newUser) (walletAddress newUser));
  getStepByWallet wallet platformNorm.

Definition verifyOtp (walletAddress code workType : string) (pf : option string) : proc OnboardWorld UserStep :=
  wallet ← of_result (normalizeWallet walletAddress);
  let trimmedCode := trim code in
  let workTypeClean := trim workType in
  if bool_decide (trimmedCode = ""%string) then Raise (BadRequestException "Code is required") else
  if bool_decide (workTypeClean = ""%string) then Raise (BadRequestException "workType is required") else
  let requestPlatform := normalizePlatform pf in
  pending ← await (find_pending_by_wallet wallet);
  match pending with
  | Some ({| nv_email := Some pendingEmail |} as p) =>
      if bool_decide (pendingEmail = ""%string) then no_pending_otp wallet workTypeClean requestPlatform
      else
        _ ← check_otp p trimmedCode;
        let mail := normalizedEmail pendingEmail in
        _ ← ensureEmailIsFreeForWallet mail wallet;
        let platformNorm := fill (normalizePlatform (nv_platform p)) requestPlatform in
        existing ← await (find_user_by_wallet wallet);
        match existing with
        | Some user => sync_existing wallet p user mail workTypeClean platformNorm
        | None => create_user wallet p mail workTypeClean platformNorm
        end
  | _ => no_pending_otp wallet workTypeClean requestPlatform
  end.

(** ** Another code *)

(** [email?.trim().toLowerCase() || null] *)
Definition optional_email (mail : option string) : option string :=
  match mail with
  | Some m => if bool_decide (normalizedEmail m = ""%string) then None else Some (normalizedEmail m)
  | None => None
  end.

Definition resendOtp (walletAddress : string) (mail : option string) : proc OnboardWorld ResendAnswer :=
  wallet ← of_result (normalizeWallet walletAddress);
  existing ← await (find_user_by_wallet wallet);
  match existing with
  | Some _ => s ← getStepByWallet wallet None; Return (ResendStep s)
  | None =>
      pending ← await (find_pending_by_wallet wallet);
      pending ← match optional_email mail with
                | None => Return pending
                | Some m =>
                    _ ← ensureEmailIsFreeForWallet m wallet;
                    match pending with
                    | None => p ← await (insert_pending (new_pending wallet None (Some m) None None)); Return (Some p)
                    | Some p =>
                        let p := pending_with p (nv_platform p) (Some m) (nv_waitlistJoinedAt p) (nv_termsAcceptedAt p) in
                        _ ← await (save_pending p); Return (Some p)
                    end
                end;
      match pending with
      | Some p =>
          if filled (nv_email p) then
            p ← issueOtpForPending p;
            Return (Resent (nv_walletAddress p) (nv_otpExpiresAt p))
          else Raise (BadRequestException "Invalid user")
      | None => Raise (BadRequestException "Invalid user")
      end
  end.
End Onboarding.
