(* ===== verification/OnboardingProps.v ===== *)
(** * Registration: what holds under every interleaving

    Wallets, e-mails and phones stay unique, a user is created only for a request
    that presents a code this service drew, and a row counts at most five wrong
    guesses. *)

From stdpp Require Import base tactics list gmap strings numbers.
From Stdlib Require Import Lia ZArith.
From S2P Require Import Prelude JsString JsNum Strkey Entities Gateway Store Async Kyc EarlyAccess LoanVerification PhoneVerification UserStore UserQuery Onboarding.

Local Open Scope Z_scope.

(** The requests of registration. *)
Inductive onboard_request :=
  | AcceptTerms (walletAddress : string) (pf : option string)
  | VerifyEmail (walletAddress mail : string) (pf : option string)
  | JoinWaitlist (walletAddress mail : string) (pf : option string)
  | VerifyOtp (walletAddress code workType : string) (pf : option string)
  | ResendOtp (walletAddress : string) (mail : option string)
  | GetStep (walletAddress : string) (pf : option string).

Definition serve_onboard `{DB : Database} `{OUT : Outside} `{ODB : OnboardDatabase} `{OOUT : OnboardOutside}
    (r : onboard_request) : proc OnboardWorld unit :=
  match r with
  | AcceptTerms a pf => _ ← acceptTerms a pf; Return tt
  | VerifyEmail a m pf => _ ← verifyEmail a m pf; Return tt
  | JoinWaitlist a m pf => _ ← joinWaitlist a m pf; Return tt
  | VerifyOtp a c wt pf => _ ← verifyOtp a c wt pf; Return tt
  | ResendOtp a m => _ ← resendOtp a m; Return tt
  | GetStep a pf => _ ← getStepByWallet a pf; Return tt
  end.

(** ** The invariant *)

Definition emails_unique (t : gmap Z User) : Prop :=
  forall i j u u' a, t !! i = Some u -> t !! j = Some u' ->
    email (onboarding u) = Some a -> email (onboarding u') = Some a -> i = j.

Definition pendings_unique (t : gmap Z NotVerifiedUser) : Prop :=
  forall i j p q, t !! i = Some p -> t !! j = Some q -> nv_walletAddress p = nv_walletAddress q -> i = j.

Section Invariant.
  Context `{DB : Database} `{OUT : Outside} `{ODB : OnboardDatabase} `{OOUT : OnboardOutside}.

(** The hash of a code the service drew. *)
Definition drawn (w : OnboardWorld) (hash : string) : Prop :=
  exists n, ERandomInt n ∈ o_events w /\ hash = otp_hash (String_of_int n).

Definition pending_fact (w : OnboardWorld) (p : NotVerifiedUser) : Prop :=
  0 <= nv_otpAttemptCount p <= EMAIL_OTP_MAX_ATTEMPTS /\ forall h, nv_otpCode p = Some h -> drawn w h.

Record onboard_ok (w : OnboardWorld) : Prop := {
  ok_tx : w_tx (o_main w) = NoTx;
  ok_users : users_ok (w_users (o_main w));
  ok_emails : emails_unique (w_users (o_main w));
  ok_ids : map_Forall (fun i p => nv_id p = i) (o_pending w);
  ok_facts : map_Forall (fun _ p => pending_fact w p) (o_pending w);
  ok_pendings : pendings_unique (o_pending w);
  ok_ranks : (length (o_ranks w) <= RANK_CACHE_MAX)%nat;
}.

(** A request of the list presented a drawn code for the wallet. *)
Definition presented (rs : list onboard_request) (wallet : string) (w : OnboardWorld) : Prop :=
  exists a code workType pf, VerifyOtp a code workType pf ∈ rs /\ normalizeWallet a = Ok wallet /\
    drawn w (otp_hash (trim code)).

(** What happens between two worlds: no loan changes, no user is lost or gets another
    wallet, and every new user's code was presented. *)
Record onboard_le (rs : list onboard_request) (w w' : OnboardWorld) : Prop := {
  le_loans : w_loans (o_main w') = w_loans (o_main w);
  le_users : forall i u, w_users (o_main w) !! i = Some u ->
    exists u', w_users (o_main w') !! i = Some u' /\ walletAddress u' = walletAddress u;
  le_events : forall e, e ∈ o_events w -> e ∈ o_events w';
  le_created : forall i u, w_users (o_main w) !! i = None -> w_users (o_main w') !! i = Some u -> presented rs (walletAddress u) w';
}.

Lemma drawn_le rs w w' h : onboard_le rs w w' -> drawn w h -> drawn w' h.
Proof. intros H (n & Hn & ->). exists n. split; [by apply (le_events _ _ _ H)|done]. Qed.

Lemma presented_le rs a w w' : onboard_le rs w w' -> presented rs a w -> presented rs a w'.
Proof. intros H (b & c & wt & pf & ? & ? & Hd). exists b, c, wt, pf. split_and!; [done..|]. by eapply drawn_le. Qed.

Lemma fact_le rs w w' p : onboard_le rs w w' -> pending_fact w p -> pending_fact w' p.
Proof. intros H [? Hd]. split; [done|]. intros h Hh. eapply drawn_le; [exact H|by apply Hd]. Qed.

#[export] Instance onboard_le_refl rs : Reflexive (onboard_le rs).
Proof. intros w. split; [done|eauto|done|congruence]. Qed.

#[export] Instance onboard_le_trans rs : Transitive (onboard_le rs).
Proof.
  intros w1 w2 w3 H12 H23. split.
  - rewrite (le_loans _ _ _ H23). apply (le_loans _ _ _ H12).
  - intros i u Hi. destruct (le_users _ _ _ H12 i u Hi) as (u2 & H2 & E2).
    destruct (le_users _ _ _ H23 i u2 H2) as (u3 & H3 & E3). exists u3. split; [done|congruence].
  - intros e He. apply (le_events _ _ _ H23), (le_events _ _ _ H12), He.
  - intros i u Hn Hi. destruct (w_users (o_main w2) !! i) as [u2|] eqn:E2; [|by eapply (le_created _ _ _ H23)].
    destruct (le_users _ _ _ H23 i u2 E2) as (u3 & H3 & E3). rewrite Hi in H3. injection H3 as <-. rewrite E3.
    eapply presented_le; [exact H23|]. by eapply (le_created _ _ _ H12).
Qed.

(** ** Rules *)

(** The method keeps the invariant from [w] on, and what it answers satisfies [Q]. *)
Definition onb {A} (rs : list onboard_request) (Q : OnboardWorld -> A -> Prop) (w : OnboardWorld) (p : proc OnboardWorld A) : Prop :=
  since onboard_ok (onboard_le rs) (fun w r => match r with Ok a => Q w a | Throw _ => True end) w p.

Definition anything {A} (_ : OnboardWorld) (_ : A) : Prop := True.

Lemma onb_bind {A B} rs (P : OnboardWorld -> A -> Prop) (Q : OnboardWorld -> B -> Prop) w0 (k : A -> proc OnboardWorld B) p :
  onb rs P w0 p -> (forall w a, onboard_le rs w0 w -> P w a -> onb rs Q w (k a)) -> onb rs Q w0 (p ≫= k).
Proof.
  intros Hp Hk. apply since_bind. eapply (since_mono onboard_ok (onboard_le rs)); [|exact Hp].
  intros w [a|e] Hr H; [by apply Hk|done].
Qed.

Lemma onb_then {A B} rs (Q : OnboardWorld -> B -> Prop) w0 (k : A -> proc OnboardWorld B) p :
  onb rs anything w0 p -> (forall w a, onboard_le rs w0 w -> onb rs Q w (k a)) -> onb rs Q w0 (p ≫= k).
Proof. intros Hp Hk. eapply onb_bind; [exact Hp|]. intros w a Hw _. by apply Hk. Qed.

Lemma onb_weaken {A} rs (P Q : OnboardWorld -> A -> Prop) w0 p : (forall w a, P w a -> Q w a) -> onb rs P w0 p -> onb rs Q w0 p.
Proof. intros H. apply (since_mono onboard_ok (onboard_le rs)). intros w [a|e] _; [apply H|done]. Qed.

Lemma onb_any {A} rs (P : OnboardWorld -> A -> Prop) w0 p : onb rs P w0 p -> onb rs anything w0 p.
Proof. by apply onb_weaken. Qed.

Lemma onb_try {A} rs (Q : OnboardWorld -> A -> Prop) w0 h p :
  onb rs Q w0 p -> (forall w e, onb rs Q w (h e)) -> onb rs Q w0 (proc_try h p).
Proof.
  intros Hp Hh. apply since_try. eapply (since_mono onboard_ok (onboard_le rs)); [|exact Hp]. intros w [a|e] _ H; [done|apply Hh].
Qed.

Lemma onb_raise {A} rs (Q : OnboardWorld -> A -> Prop) w0 e : onb rs Q w0 (Raise e).
Proof. done. Qed.

Lemma onb_result {A} rs w0 (r : result A) : onb rs (fun _ a => r = Ok a) w0 (of_result r).
Proof. by destruct r. Qed.

Lemma onb_await {A} rs (Q : OnboardWorld -> A -> Prop) w0 (m : M OnboardWorld A) :
  (forall w, onboard_ok w -> onboard_le rs w0 w -> let '(r, w') := m w in
     onboard_ok w' /\ onboard_le rs w w' /\ match r with Ok a => Q w' a | Throw _ => True end) -> onb rs Q w0 (await m).
Proof. intros H. apply since_await. intros w Hw Hr. specialize (H w Hw Hr). by destruct (m w). Qed.

(** An operation that leaves the tables alone, and may add an event. *)
Record onboard_frame (w w' : OnboardWorld) : Prop := {
  frame_users : w_users (o_main w') = w_users (o_main w);
  frame_loans : w_loans (o_main w') = w_loans (o_main w);
  frame_tx : w_tx (o_main w') = w_tx (o_main w);
  frame_pending : o_pending w' = o_pending w;
  frame_ranks : (length (o_ranks w) <= RANK_CACHE_MAX)%nat -> (length (o_ranks w') <= RANK_CACHE_MAX)%nat;
  frame_events : exists evs, o_events w' = o_events w ++ evs;
}.

Lemma frame_le rs w w' : onboard_frame w w' -> onboard_le rs w w'.
Proof.
  intros [Hu Hl _ _ _ [evs He]]. split; [done|rewrite Hu; eauto| |rewrite Hu; congruence].
  intros e H. rewrite He. apply elem_of_app. by left.
Qed.

Lemma frame_ok w w' : onboard_ok w -> onboard_frame w w' -> onboard_ok w'.
Proof.
  intros [] F. pose proof (frame_le [] w w' F) as Hle. destruct F as [Hu Hl Ht Hp Hr _].
  split; rewrite ?Hu, ?Ht, ?Hp; auto. eapply map_Forall_impl; [exact ok_facts0|]. intros i p. by apply (fact_le []).
Qed.

Lemma onb_frame {A} rs (Q : OnboardWorld -> A -> Prop) w0 (m : M OnboardWorld A) :
  (forall w, onboard_ok w -> let '(r, w') := m w in
     onboard_frame w w' /\ match r with Ok a => Q w' a | Throw _ => True end) -> onb rs Q w0 (await m).
Proof.
  intros H. apply onb_await. intros w Hw _. specialize (H w Hw). destruct (m w) as [r w']. destruct H as [F HQ].
  split_and!; [by eapply frame_ok|by apply frame_le|done].
Qed.

Lemma frame_main w m' :
  w_users m' = w_users (o_main w) -> w_loans m' = w_loans (o_main w) -> w_tx m' = w_tx (o_main w) -> onboard_frame w (set_main m' w).
Proof. intros. split; try done. exists []. cbn. by rewrite app_nil_r. Qed.

Lemma frame_same w : onboard_frame w w.
Proof. split; try done. exists []. by rewrite app_nil_r. Qed.
End Invariant.

(** ** Operations *)

Section Operations.
  Context `{DB : Database} `{OUT : Outside} `{ODB : OnboardDatabase} `{OOUT : OnboardOutside}.
  Context {LAWS : DatabaseLaws DB} {OLAWS : OnboardLaws DB ODB}.

Lemma onb_reads {A} rs w0 (m : M World A) : only_reads m -> onb rs anything w0 (await (on_main m)).
Proof.
  intros Hm. apply onb_frame. intros w Hw. unfold on_main. pose proof (Hm (o_main w) (ok_tx _ Hw)) as (? & ? & _ & ? & _).
  destruct (m (o_main w)) as [r m']. split; [by apply frame_main|by destruct r].
Qed.

Lemma onb_date rs w0 : onb rs anything w0 (await (on_main date_now)).
Proof. apply onb_reads, only_reads_outside. by intros. Qed.

Lemma onb_find_user rs w0 p : onb rs anything w0 (await (on_main (find_user p))).
Proof. apply onb_reads, only_reads_query. Qed.

Lemma ostatement_NoTx {A} (f : OnboardWorld -> result (A * (OnboardWorld -> OnboardWorld))) w :
  w_tx (o_main w) = NoTx ->
  ostatement f w = match f w with Ok (a, eff) => (Ok a, eff w) | Throw e => (Throw e, w) end.
Proof.
  intros H. unfold ostatement. rewrite H. destruct (f w) as [[a eff]|e]; [done|]. unfold poison. rewrite H. by destruct w.
Qed.

Lemma onb_find_pending rs w0 p :
  onb rs (fun w r => match r with Some q => pending_fact w q /\ p q = true | None => True end) w0 (await (find_pending p)).
Proof.
  apply onb_frame. intros w Hw. unfold find_pending. rewrite ostatement_NoTx by apply Hw.
  destruct (odb_find_pending w p) as [r|e] eqn:E; (split; [apply frame_same|]); [|done].
  destruct r as [q|]; [|done]. apply find_pending_some in E as (i & Hi & Hq). split; [by apply (ok_facts _ Hw i)|done].
Qed.

Lemma onb_metrics rs w0 i : onb rs anything w0 (await (loan_metrics i)).
Proof.
  apply onb_frame. intros w Hw. unfold loan_metrics. rewrite ostatement_NoTx by apply Hw.
  destruct (odb_metrics_error w); (split; [apply frame_same|done]).
Qed.

Lemma onb_random rs w0 : onb rs (fun w n => drawn w (otp_hash (String_of_int n))) w0 (await oRandomInt).
Proof.
  apply onb_frame. intros w Hw. unfold oRandomInt. split; [split; try done; by eexists|].
  eexists. split; [|done]. cbn. apply elem_of_app. right. by left.
Qed.

Lemma onb_mail rs w0 send to code : onb rs anything w0 (await (sendMail send to code)).
Proof. apply onb_frame. intros w Hw. unfold sendMail. split; [split; try done; by eexists|]. by destruct (send _ _ _). Qed.

Lemma onb_analytics rs w0 error (s a : OnboardWorld -> gmap Z AnalyticsRow) :
  onb rs anything w0 (await (ostatement (fun w => written (error w) (fun w => set_analytics (s w) (a w) w)))).
Proof.
  apply onb_frame. intros w Hw. rewrite ostatement_NoTx by apply Hw. unfold written.
  destruct (error w); (split; [|done]); [apply frame_same|]. split; try done. exists []. cbn. by rewrite app_nil_r.
Qed.

(** *** The rank cache *)

Lemma rank_set_length key c m : (length (rank_set key c m) <= S (length m))%nat.
Proof. induction m as [|[k d] m IH]; cbn; [lia|]. case_bool_decide; cbn; lia. Qed.

Lemma rank_prune_length now m : (length (rank_prune now m) <= RANK_CACHE_MAX)%nat.
Proof. unfold rank_prune. rewrite length_drop. lia. Qed.

Lemma onb_rank_cached rs w0 key : onb rs anything w0 (await (rank_cached key)).
Proof.
  apply onb_frame. intros w Hw. unfold rank_cached. destruct (rank_get key (o_ranks w)); [|split; [apply frame_same|done]].
  cbv [on_main date_now outside]. split; [by apply frame_main|done].
Qed.

Lemma onb_rank_store rs w0 key rank : onb rs anything w0 (await (rank_store key rank)).
Proof.
  apply onb_frame. intros w Hw. unfold rank_store. cbv [mbind M_bind on_main date_now outside modify gets].
  set (w1 := set_ranks _ _). destruct (Nat.ltb_spec RANK_CACHE_MAX (length (o_ranks w1))) as [Hl|Hl].
  - split; [|done]. split; try done; [|exists []; cbn; by rewrite app_nil_r]. intros _. apply rank_prune_length.
  - split; [|done]. split; try done. exists []. cbn. by rewrite app_nil_r.
Qed.

(** *** Rows *)

(** A row the unique indexes accept. *)
Lemma accepted_users m u' :
  users_ok (w_users m) -> emails_unique (w_users m) -> db_user_error m u' = None ->
  users_ok (<[user_id u' := u']> (w_users m)) /\ emails_unique (<[user_id u' := u']> (w_users m)).
Proof.
  intros (Hid & Hw & Hp) He Hacc.
  assert (Hno : forall j v, w_users m !! j = Some v -> j <> user_id u' -> identity_conflict u' v = false /\ phone_conflict u' v = false).
  { intros j v Hj Hne. split; apply not_true_is_false; intros Hc.
    - destruct (identity_refused m u' j v Hj Hne Hc) as [ix E]. congruence.
    - destruct (phone_refused m u' j v Hj Hne Hc) as [ix E]. congruence. }
  assert (Hw' : forall j v, w_users m !! j = Some v -> j <> user_id u' -> walletAddress u' <> walletAddress v).
  { intros j v Hj Hne Heq. destruct (Hno j v Hj Hne) as [Hc _]. unfold identity_conflict in Hc.
    by rewrite bool_decide_true in Hc. }
  assert (He' : forall j v a, w_users m !! j = Some v -> j <> user_id u' -> email (onboarding u') = Some a -> email (onboarding v) <> Some a).
  { intros j v a Hj Hne Hu Hv. destruct (Hno j v Hj Hne) as [Hc _]. unfold identity_conflict in Hc.
    rewrite Hu, Hv, (bool_decide_true (a = a)), orb_true_r in Hc by done. done. }
  assert (Hp' : forall j v p, w_users m !! j = Some v -> j <> user_id u' -> phone (phone_columns u') = Some p -> phone (phone_columns v) <> Some p).
  { intros j v p Hj Hne Hu Hv. destruct (Hno j v Hj Hne) as [_ Hc]. unfold phone_conflict in Hc.
    rewrite Hu, Hv, (bool_decide_true (p = p)) in Hc by done. done. }
  split; [split_and!|].
  - by apply map_Forall_insert_2.
  - intros j k v v' [[<- <-]|[Hj Ej]]%lookup_insert_Some [[<- <-]|[Hk Ek]]%lookup_insert_Some Hvv; [done|..].
    + exfalso. by eapply Hw'.
    + exfalso. by eapply Hw'.
    + by eapply Hw.
  - intros j k v v' p [[<- <-]|[Hj Ej]]%lookup_insert_Some [[<- <-]|[Hk Ek]]%lookup_insert_Some Hv Hv'; [done|..].
    + exfalso. by eapply (Hp' k).
    + exfalso. by eapply (Hp' j).
    + by eapply Hp.
  - intros j k v v' p [[<- <-]|[Hj Ej]]%lookup_insert_Some [[<- <-]|[Hk Ek]]%lookup_insert_Some Hv Hv'; [done|..].
    + exfalso. by eapply (He' k).
    + exfalso. by eapply (He' j).
    + by eapply He.
Qed.

(** Writing one user's row: the row of the user, or a new one that was presented. *)
Lemma write_user_ok rs w m u' :
  onboard_ok w -> w_users m = w_users (o_main w) -> w_loans m = w_loans (o_main w) -> w_tx m = NoTx ->
  db_user_error m u' = None \/ db_user_error (set_tx TxActive m) u' = None ->
  match w_users (o_main w) !! user_id u' with
  | Some u => walletAddress u' = walletAddress u
  | None => presented rs (walletAddress u') w
  end ->
  let w' := set_main (set_users (<[user_id u' := u']> (w_users (o_main w))) m) w in
  onboard_ok w' /\ onboard_le rs w w'.
Proof.
  intros Hw Hum Hlm Htm Hacc Hrow w'.
  assert (Hu : users_ok (<[user_id u' := u']> (w_users (o_main w))) /\ emails_unique (<[user_id u' := u']> (w_users (o_main w)))).
  { rewrite <- Hum. destruct Hacc as [Hacc|Hacc]; [apply (accepted_users m u')|apply (accepted_users (set_tx TxActive m) u')];
      cbn; rewrite ?Hum; try done; apply Hw. }
  assert (Hle : onboard_le rs w w').
  { split; cbn; [done| |done|].
    - intros i u Hi. destruct (decide (i = user_id u')) as [->|Hne]; [|rewrite lookup_insert_ne by done; eauto].
      rewrite lookup_insert_eq. exists u'. split; [done|]. by rewrite Hi in Hrow.
    - intros i u Hn [[<- <-]|[_ Hi]]%lookup_insert_Some; [by rewrite Hn in Hrow|congruence]. }
  split; [|done]. destruct Hw, Hu. split; cbn; try done.
Qed.

Lemma onb_update_user rs w0 i up : onb rs anything w0 (await (on_main (update_user i (apply_updates up)))).
Proof.
  apply onb_await. intros w Hw _. unfold on_main, update_user. rewrite statement_NoTx by apply Hw.
  assert (Hsame : set_main (o_main w) w = w) by (by destruct w).
  destruct (w_users (o_main w) !! i) as [u|] eqn:Ei; [|cbv beta iota; unfold id; rewrite Hsame; by split_and!].
  destruct (db_user_error (o_main w) (apply_updates up u)) as [e|] eqn:Ee; [cbv beta iota; rewrite Hsame; by split_and!|].
  pose proof (proj1 (ok_users _ Hw) _ _ Ei) as Hid. cbn in Hid.
  destruct (write_user_ok rs w (o_main w) (apply_updates up u) Hw) as [? ?]; [done|done|apply Hw|by left| |].
  - cbn. by rewrite Hid, Ei.
  - cbn in *. rewrite Hid in *. by split_and!.
Qed.

Lemma write_pending_ok rs w p :
  onboard_ok w -> pending_fact w p -> odb_pending_error w p = None ->
  let w' := set_pending (<[nv_id p := p]> (o_pending w)) w in onboard_ok w' /\ onboard_le rs w w'.
Proof.
  intros Hw Hp Hacc w'. split; [|split; cbn; [done|eauto|done|congruence]].
  destruct Hw. split; cbn; try done.
  - by apply map_Forall_insert_2.
  - by apply map_Forall_insert_2.
  - intros i j q r [[<- <-]|[Hi Ei]]%lookup_insert_Some [[<- <-]|[Hj Ej]]%lookup_insert_Some Hqr; [done|..].
    + destruct (pending_refused w p j r) as [e He]; [done..|congruence].
    + destruct (pending_refused w p i q) as [e He]; [done..|congruence].
    + by eapply ok_pendings0.
Qed.

Lemma onb_save_pending rs w0 p : pending_fact w0 p -> onb rs anything w0 (await (save_pending p)).
Proof.
  intros Hp. apply onb_await. intros w Hw Hle. unfold save_pending, written. rewrite ostatement_NoTx by apply Hw.
  destruct (odb_pending_error w p) eqn:Ee; [by split_and!|].
  destruct (write_pending_ok rs w p Hw (fact_le _ _ _ _ Hle Hp) Ee). by split_and!.
Qed.

Lemma onb_insert_pending rs w0 p : pending_fact w0 p -> onb rs pending_fact w0 (await (insert_pending p)).
Proof.
  intros Hp. apply onb_await. intros w Hw Hle. unfold insert_pending. rewrite ostatement_NoTx by apply Hw.
  set (p' := with_nv_id _ p). assert (Hp' : pending_fact w p') by apply (fact_le _ _ _ _ Hle Hp).
  destruct (odb_pending_error w p') eqn:Ee; [by split_and!|].
  destruct (write_pending_ok rs w p' Hw Hp' Ee). by split_and!.
Qed.

Lemma delete_pending_ok rs w i : onboard_ok w -> let w' := set_pending (delete i (o_pending w)) w in onboard_ok w' /\ onboard_le rs w w'.
Proof.
  intros Hw w'. split; [|split; cbn; [done|eauto|done|congruence]].
  destruct Hw. split; cbn; try done.
  - by apply map_Forall_delete.
  - by apply map_Forall_delete.
  - intros j k q r [_ Hj]%lookup_delete_Some [_ Hk]%lookup_delete_Some. by apply ok_pendings0.
Qed.

(** *** The transactions *)

Lemma rolled_back_same w :
  w_tx (o_main w) = NoTx ->
  {| o_main := {| w_users := w_users (o_main w); w_loans := w_loans (o_main w); w_side := w_side (o_main w);
                  w_tx := w_tx (o_main w); w_calls := w_calls (o_main w) |};
     o_pending := o_pending w; o_sessions := o_sessions w; o_attempts := o_attempts w; o_ranks := o_ranks w; o_events := o_events w |} = w.
Proof. by destruct w as [[] ? ? ? ? ?]. Qed.

(** Both statements, or nothing. *)
Lemma sync_tx_run i up j w :
  w_tx (o_main w) = NoTx ->
  let tx := otransaction (_ ← on_main (update_user i (apply_updates up)); delete_pending j) in
  (exists e, tx w = (Throw e, w)) \/
  (exists users, tx w = (Ok tt, set_pending (delete j (o_pending w)) (set_main (set_users users (o_main w)) w)) /\
     match w_users (o_main w) !! i with
     | Some u => users = <[i := apply_updates up u]> (w_users (o_main w)) /\ db_user_error (set_tx TxActive (o_main w)) (apply_updates up u) = None
     | None => users = w_users (o_main w)
     end).
Proof.
  intros Htx tx. unfold tx, otransaction. cbv [mbind M_bind]. unfold on_main, update_user. rewrite statement_active by done.
  cbn [o_main set_main w_users set_tx]. destruct (w_users (o_main w) !! i) as [u|] eqn:Ei.
  - destruct (db_user_error _ _) as [e|] eqn:Ee; cbn.
    { left. exists e. f_equal. by apply rolled_back_same. }
    unfold delete_pending, ostatement, written. cbn. destruct (odb_delete_error _ _) as [e|]; cbn.
    { left. exists e. f_equal. by apply rolled_back_same. }
    right. eexists. split; [|done]. done.
  - unfold delete_pending, ostatement, written. cbn. destruct (odb_delete_error _ _) as [e|]; cbn.
    { left. exists e. f_equal. by apply rolled_back_same. }
    right. exists (w_users (o_main w)). split; [|done]. f_equal.
Qed.

(** The row of a new user: under a new id, once the indexes accept it. *)
Definition inserted (u : User) (w : OnboardWorld) : User := with_user_id (odb_new_user_id (set_tx TxActive (o_main w))) u.

Lemma create_tx_run (row : World -> User) j w :
  w_tx (o_main w) = NoTx ->
  let tx := otransaction (u ← on_main (fun m => insert_user (row m) m); _ ← delete_pending j; mret u) in
  (exists e, tx w = (Throw e, w)) \/
  let u := inserted (row (set_tx TxActive (o_main w))) w in
  tx w = (Ok u, set_pending (delete j (o_pending w)) (set_main (set_users (<[user_id u := u]> (w_users (o_main w))) (o_main w)) w)) /\
  db_user_error (set_tx TxActive (o_main w)) u = None.
Proof.
  intros Htx tx. unfold tx, otransaction, inserted. cbv [mbind M_bind]. unfold on_main, insert_user. rewrite statement_active by done.
  cbn [o_main set_main]. set (u := with_user_id _ _). destruct (db_user_error _ u) as [e|] eqn:Ee; cbn.
  { left. exists e. f_equal. by apply rolled_back_same. }
  unfold delete_pending, ostatement, written. cbn. destruct (odb_delete_error _ _) as [e|]; cbn.
  { left. exists e. f_equal. by apply rolled_back_same. }
  by right.
Qed.

Lemma onb_sync_tx rs w0 i up j :
  onb rs anything w0 (await (otransaction (_ ← on_main (update_user i (apply_updates up)); delete_pending j))).
Proof.
  apply onb_await. intros w Hw _. destruct (sync_tx_run i up j w (ok_tx _ Hw)) as [[e ->]|(users & -> & Hu)]; [by split_and!|].
  assert (H : onboard_ok (set_main (set_users users (o_main w)) w) /\ onboard_le rs w (set_main (set_users users (o_main w)) w)).
  { destruct (w_users (o_main w) !! i) as [u|] eqn:Ei.
    - destruct Hu as [-> Hacc]. pose proof (proj1 (ok_users _ Hw) _ _ Ei) as Hid. cbn in Hid.
      destruct (write_user_ok rs w (o_main w) (apply_updates up u) Hw) as [? ?]; [done|done|apply Hw|by right| |].
      + cbn. by rewrite Hid, Ei.
      + cbn in *. by rewrite Hid in *.
    - subst users. by destruct w as [[] ? ? ? ? ?]. }
  destruct H as [Hok Hle]. destruct (delete_pending_ok rs _ j Hok) as [? Hle'].
  split_and!; [done| |done]. etrans; [exact Hle|exact Hle'].
Qed.

Lemma onb_create_tx rs w0 (row : World -> User) wallet j :
  (forall m, walletAddress (row m) = wallet) -> presented rs wallet w0 ->
  onb rs anything w0 (await (otransaction (u ← on_main (fun m => insert_user (row m) m); _ ← delete_pending j; mret u))).
Proof.
  intros Hrow Hp. apply onb_await. intros w Hw Hle.
  destruct (create_tx_run row j w (ok_tx _ Hw)) as [[e ->]|[-> Hacc]]; [by split_and!|]. cbv beta iota zeta.
  set (u := inserted _ w) in *.
  destruct (write_user_ok rs w (o_main w) u Hw) as [Hok Hle1]; [done|done|apply Hw|by right| |].
  - replace (w_users (o_main w) !! user_id u) with (@None User).
    + cbn. rewrite Hrow. by eapply presented_le.
    + symmetry. cbn. exact (new_user_id_fresh (set_tx TxActive (o_main w))).
  - destruct (delete_pending_ok rs _ j Hok) as [? Hle2]. split_and!; [done| |done]. etrans; [exact Hle1|exact Hle2].
Qed.
End Operations.

Create HintDb onboard.
#[export] Hint Resolve onb_reads onb_date onb_find_user onb_metrics onb_mail onb_analytics onb_rank_cached onb_rank_store
  onb_update_user onb_sync_tx onb_raise : onboard.

(** Follows the shape of a method whose answers matter to no later step. *)
Ltac solve_onb :=
  repeat first
    [ done
    | solve [eauto with onboard nocore]
    | apply (onb_any _ _ _ _ (onb_result _ _ _))
    | apply (onb_any _ _ _ _ (onb_find_pending _ _ _))
    | eapply onb_then; [|intros ? ? ?]
    | apply onb_try; [|intros ? ?]
    | progress case_scrut ].

Ltac onb_if := lazymatch goal with |- onb _ _ _ (if ?b then _ else _) => destruct b eqn:? end.

(** ** The requests *)

Section Requests.
  Context `{DB : Database} `{OUT : Outside} `{ODB : OnboardDatabase} `{OOUT : OnboardOutside}.
  Context {LAWS : DatabaseLaws DB} {OLAWS : OnboardLaws DB ODB}.

Lemma onb_rank rs w0 u pf : onb rs anything w0 (getRankWithinPlatform u pf).
Proof. pose proof (fun p => only_reads_query (fun m => db_count_users m p)). unfold getRankWithinPlatform, count_users. solve_onb. Qed.

Lemma onb_step rs w0 a pf : onb rs anything w0 (getStepByWallet a pf).
Proof. pose proof onb_rank. unfold getStepByWallet. solve_onb. Qed.

Lemma onb_free rs w0 m a : onb rs anything w0 (ensureEmailIsFreeForWallet m a).
Proof. unfold ensureEmailIsFreeForWallet. solve_onb. Qed.

Lemma onb_link rs w0 i a : onb rs anything w0 (linkAnalyticsForNewUser i a).
Proof. unfold linkAnalyticsForNewUser. solve_onb. Qed.

Lemma onb_issue rs w0 p : pending_fact w0 p -> onb rs anything w0 (issueOtpForPending p).
Proof.
  intros Hp. unfold issueOtpForPending. onb_if; [done|]. eapply onb_then; [apply onb_date|]. intros w1 now Hw1.
  onb_if; [done|]. eapply onb_bind; [apply onb_random|]. intros w2 n Hw2 Hn.
  eapply onb_then; [apply onb_save_pending|intros w3 ? Hw3; solve_onb].
  split; [cbn; unfold EMAIL_OTP_MAX_ATTEMPTS; lia|]. by intros h [= <-].
Qed.

Lemma new_pending_fact w a pf m j t : pending_fact w (new_pending a pf m j t).
Proof. split; [cbn; unfold EMAIL_OTP_MAX_ATTEMPTS; lia|done]. Qed.

Lemma pending_with_fact w p pf m j t : pending_fact w p -> pending_fact w (pending_with p pf m j t).
Proof. done. Qed.

Lemma onb_terms rs w0 a pf : onb rs anything w0 (acceptTerms a pf).
Proof.
  pose proof onb_step. unfold acceptTerms. eapply onb_then; [apply (onb_any _ _ _ _ (onb_result _ _ _))|]. intros w1 wallet H1.
  eapply onb_then; [apply onb_date|]. intros w2 now H2. eapply onb_then; [apply onb_find_user|]. intros w3 [u|] H3; [solve_onb|].
  eapply onb_bind; [apply onb_find_pending|]. intros w4 [p|] H4 Hp.
  - eapply onb_then; [by apply onb_save_pending, pending_with_fact, Hp|]. intros; apply onb_step.
  - eapply onb_then; [|intros; apply onb_step]. eapply onb_then; [apply (onb_any _ pending_fact), onb_insert_pending, new_pending_fact|done].
Qed.

(** The pending row after an e-mail was put on it. *)
Lemma onb_put_email rs w0 wallet new (change : NotVerifiedUser -> proc OnboardWorld NotVerifiedUser) insert :
  (forall w p, pending_fact w p -> onb rs pending_fact w (change p)) ->
  (forall w, onb rs pending_fact w insert) ->
  onb rs anything w0 (
    pending ← await (find_pending_by_wallet wallet);
    pending ← match pending with None => insert | Some p => change p end;
    _ ← issueOtpForPending pending;
    getStepByWallet new None).
Proof.
  intros Hc Hi. eapply onb_bind; [apply onb_find_pending|]. intros w1 o H1 Ho.
  eapply onb_bind; [destruct o; [apply Hc, Ho|apply Hi]|]. intros w2 p H2 Hp.
  eapply onb_then; [by apply onb_issue|]. intros; apply onb_step.
Qed.

Lemma onb_saved rs w0 p : pending_fact w0 p -> onb rs pending_fact w0 (_ ← await (save_pending p); Return p).
Proof. intros Hp. eapply onb_then; [by apply onb_save_pending|]. intros w _ Hle. by eapply fact_le. Qed.

Lemma onb_email rs w0 a m pf : onb rs anything w0 (verifyEmail a m pf).
Proof.
  unfold verifyEmail. eapply onb_then; [apply (onb_any _ _ _ _ (onb_result _ _ _))|]. intros w1 wallet H1.
  eapply onb_then; [apply onb_free|]. intros w2 [] H2. eapply onb_then; [apply onb_find_user|]. intros w3 o H3.
  eapply onb_then; [solve_onb|]. intros w4 [] H4. apply onb_put_email.
  - intros w p Hp. by apply onb_saved, pending_with_fact.
  - intros w. apply onb_insert_pending, new_pending_fact.
Qed.

Lemma onb_joined rs w0 j : onb rs anything w0 (joined_or_now j).
Proof. unfold joined_or_now. solve_onb. Qed.

Lemma onb_waitlist rs w0 a m pf : onb rs anything w0 (joinWaitlist a m pf).
Proof.
  assert (Hearly : forall u, only_reads (isEarlyUser u None))
    by (intros; unfold isEarlyUser, EarlyAccess.getRankWithinPlatform, count_users; solve_reads).
  unfold joinWaitlist. eapply onb_then; [apply (onb_any _ _ _ _ (onb_result _ _ _))|]. intros w1 wallet H1.
  eapply onb_then; [apply onb_free|]. intros w2 [] H2. eapply onb_then; [apply onb_find_user|]. intros w3 o H3.
  eapply onb_then; [unfold join_user; solve_onb|]. intros w4 joined H4. apply onb_put_email.
  - intros w p Hp. eapply onb_then; [destruct (nv_waitlistJoinedAt p); [done|apply onb_joined]|]. intros w5 t H5.
    by apply onb_saved, pending_with_fact, (fact_le rs w).
  - intros w. eapply onb_then; [apply onb_joined|]. intros w5 t H5. apply onb_insert_pending, new_pending_fact.
Qed.

Lemma onb_resend rs w0 a m : onb rs anything w0 (resendOtp a m).
Proof.
  pose proof onb_step. unfold resendOtp. eapply onb_then; [apply (onb_any _ _ _ _ (onb_result _ _ _))|]. intros w1 wallet H1.
  eapply onb_then; [apply onb_find_user|]. intros w2 [u|] H2; [solve_onb|].
  eapply onb_bind; [apply onb_find_pending|]. intros w3 o H3 Ho.
  eapply (onb_bind rs (fun w r => match r with Some p => pending_fact w p | None => True end)).
  - destruct (optional_email m) as [m'|]; [|destruct o; [apply Ho|done]].
    eapply onb_then; [apply onb_free|]. intros w4 [] H4. destruct o as [p|].
    + eapply onb_bind; [by apply onb_save_pending, pending_with_fact, (fact_le rs w3); [|apply Ho]|].
      intros w5 [] H5 _. apply pending_with_fact, (fact_le rs w4); [done|]. by apply (fact_le rs w3); [|apply Ho].
    + eapply onb_bind; [apply onb_insert_pending, new_pending_fact|done].
  - intros w4 [p|] H4 Hp; [|done]. onb_if; [|done]. eapply onb_then; [by apply onb_issue|]. done.
Qed.

Lemma onb_check rs w0 p code : pending_fact w0 p -> onb rs (fun w _ => drawn w (otp_hash code)) w0 (check_otp p code).
Proof.
  intros Hp. unfold check_otp. destruct (filled (nv_otpCode p)); [|done]. destruct (nv_otpExpiresAt p) as [expires|]; [|done].
  eapply onb_then; [apply onb_date|]. intros w1 now H1. onb_if; [done|]. onb_if; [done|]. onb_if.
  - eapply onb_then; [apply onb_save_pending|done]. apply (fact_le rs w0 w1 p H1) in Hp as [Hn Hd].
    split; [cbn; lia|exact Hd].
  - case_bool_decide as Hc; [|done]. cbn. by apply (fact_le rs w0 w1 p H1), Hc.
Qed.

Lemma onb_no_pending rs w0 wallet workType pf : onb rs anything w0 (no_pending_otp wallet workType pf).
Proof. pose proof onb_step. unfold no_pending_otp. solve_onb. Qed.

Lemma onb_create rs w0 wallet p mail workType pf :
  presented rs (nv_walletAddress p) w0 -> onb rs anything w0 (create_user wallet p mail workType pf).
Proof.
  intros Hp. pose proof onb_step as Hstep. pose proof onb_link as Hlink. pose proof onb_joined as Hjoin. unfold create_user.
  eapply onb_then; [apply onb_reads, only_reads_ret|]. intros w1 limit H1.
  eapply onb_then; [apply onb_reads, only_reads_query|]. intros w2 n H2.
  eapply onb_then; [solve_onb|]. intros w3 joined H3. eapply onb_then; [apply (onb_create_tx rs _ _ (nv_walletAddress p)); [done|]|intros; solve_onb].
  by apply (presented_le rs _ w2), (presented_le rs _ w1), (presented_le rs _ w0).
Qed.

Lemma onb_otp rs w0 a code workType pf : VerifyOtp a code workType pf ∈ rs -> onb rs anything w0 (verifyOtp a code workType pf).
Proof.
  intros Hin. pose proof onb_step. unfold verifyOtp. eapply onb_bind; [apply onb_result|]. intros w1 wallet H1 Ha. cbv zeta.
  onb_if; [done|]. onb_if; [done|]. eapply onb_bind; [apply onb_find_pending|]. intros w2 [p|] H2 Hp; [|apply onb_no_pending].
  destruct Hp as [Hp Hwallet]. unfold by_pending_wallet in Hwallet. apply bool_decide_eq_true_1 in Hwallet.
  assert (Hgo : forall mail, onb rs anything w2 (
    _ ← check_otp p (trim code); _ ← ensureEmailIsFreeForWallet mail wallet;
    existing ← await (find_user_by_wallet wallet);
    match existing with
    | Some user => sync_existing wallet p user mail (trim workType) (fill (normalizePlatform (nv_platform p)) (normalizePlatform pf))
    | None => create_user wallet p mail (trim workType) (fill (normalizePlatform (nv_platform p)) (normalizePlatform pf))
    end)).
  { intros mail. eapply onb_bind; [by apply onb_check|]. intros w3 [] H3 Hd.
    eapply onb_then; [apply onb_free|]. intros w4 [] H4. eapply onb_then; [apply onb_find_user|]. intros w5 [u|] H5.
    - unfold sync_existing. solve_onb.
    - apply onb_create, (presented_le rs _ w4); [done|]. apply (presented_le rs _ w3); [done|].
      exists a, code, workType, pf. by rewrite Hwallet. }
  destruct p as [i w ? [pendingEmail|] ? ? ? ? ? ?]; [|apply onb_no_pending]. onb_if; [apply onb_no_pending|apply Hgo].
Qed.

Lemma serve_onboard_onb rs r w0 : r ∈ rs -> onb rs anything w0 (serve_onboard r).
Proof.
  intros Hr. destruct r; cbn [serve_onboard]; (eapply onb_then; [|done]);
    [apply onb_terms|apply onb_email|apply onb_waitlist|by apply onb_otp|apply onb_resend|apply onb_step].
Qed.

(** C13. However the requests of registration interleave, whatever the database and the
    mail transport answer: no two users share a wallet, an e-mail or a phone and no
    two pending rows a wallet; a row never counts more than five wrong codes, well
    within the limit of ten the table is declared with; the rank cache holds at most
    five hundred entries; no user is lost; and a user is only created when one of the
    requests presented, for the wallet of the user, a code with the hash of one the
    service drew. *)
Theorem registration_safe (rs : list onboard_request) (w : OnboardWorld) (c : pool OnboardWorld unit)
    (Hrun : steps pool_step (map serve_onboard rs, w) c) (Hok : onboard_ok w) :
  onboard_ok (snd c) /\ onboard_le rs w (snd c).
Proof.
  apply (since_pool onboard_ok (onboard_le rs) (fun w r => match r with Ok a => anything w a | Throw _ => True end) (map serve_onboard rs, w) c).
  - by intros w1 w2 [a|e].
  - done.
  - apply Forall_map, Forall_forall. intros r Hr. cbn [snd]. apply serve_onboard_onb, list_elem_of_In, Hr.
  - done.
Qed.
End Requests.
