(* ===== verification/OnboardingRuns.v ===== *)
(** * Registration: what each request does alone

    The state shown of a wallet, the code that is sent, the check of the code on every
    branch, the limit on guesses; and the runs in which the code of one e-mail
    verifies another. *)

From stdpp Require Import base tactics list gmap strings numbers.
From Stdlib Require Import Lia ZArith Ascii.
From S2P Require Import Prelude JsString JsNum Strkey Entities Gateway Store Async Kyc EarlyAccess LoanVerification PhoneVerification UserStore UserQuery Onboarding OnboardingProps.

Local Open Scope Z_scope.

(** ** One operation *)

Section Steps.
  Context `{DB : Database} `{OUT : Outside} `{ODB : OnboardDatabase} `{OOUT : OnboardOutside}.

Definition clock (w : OnboardWorld) : Z := now_ms (w_calls (o_main w)).

(** The world after the clock was read. *)
Definition stamped (w : OnboardWorld) : OnboardWorld := set_main (log_call (CNow (clock w)) (o_main w)) w.

Lemma set_main_same w : set_main (o_main w) w = w.
Proof. by destruct w. Qed.

Lemma run_date {A} (k : Z -> proc OnboardWorld A) w : run (await (on_main date_now) ≫= k) w = run (k (clock w)) (stamped w).
Proof. by rewrite run_await_bind. Qed.

Lemma run_find_user {A} p (k : option User -> proc OnboardWorld A) w :
  w_tx (o_main w) = NoTx ->
  run (await (on_main (find_user p)) ≫= k) w =
  match db_find_user (o_main w) p with Ok r => run (k r) w | Throw e => (Throw e, w) end.
Proof.
  intros Htx. rewrite run_await_bind. unfold on_main, find_user. rewrite query_NoTx, set_main_same by done.
  by destruct (db_find_user _ _).
Qed.

Lemma run_find_pending {A} p (k : option NotVerifiedUser -> proc OnboardWorld A) w :
  w_tx (o_main w) = NoTx ->
  run (await (find_pending p) ≫= k) w = match odb_find_pending w p with Ok r => run (k r) w | Throw e => (Throw e, w) end.
Proof.
  intros Htx. rewrite run_await_bind. unfold find_pending. rewrite ostatement_NoTx by done. by destruct (odb_find_pending _ _).
Qed.

Lemma run_count_users {A} p (k : Z -> proc OnboardWorld A) w :
  w_tx (o_main w) = NoTx ->
  run (await (on_main (count_users p)) ≫= k) w =
  match db_count_users (o_main w) p with Ok r => run (k r) w | Throw e => (Throw e, w) end.
Proof.
  intros Htx. rewrite run_await_bind. unfold on_main, count_users. rewrite query_NoTx, set_main_same by done.
  by destruct (db_count_users _ _).
Qed.

(** Nothing but clock readings and the rank cache is new. *)
Record untouched (w w' : OnboardWorld) : Prop := {
  un_users : w_users (o_main w') = w_users (o_main w);
  un_loans : w_loans (o_main w') = w_loans (o_main w);
  un_tx : w_tx (o_main w') = w_tx (o_main w);
  un_pending : o_pending w' = o_pending w;
  un_sessions : o_sessions w' = o_sessions w;
  un_attempts : o_attempts w' = o_attempts w;
  un_events : o_events w' = o_events w;
  un_calls : forall c, c ∈ w_calls (o_main w) -> c ∈ w_calls (o_main w');
}.

#[export] Instance untouched_refl : Reflexive untouched.
Proof. by split. Qed.

#[export] Instance untouched_trans : Transitive untouched.
Proof. intros w1 w2 w3 [] []. split; try congruence. auto. Qed.

Lemma untouched_stamped w : untouched w (stamped w).
Proof. split; try done. intros c Hc. cbn. apply elem_of_app. by left. Qed.

Lemma clock_logged w : CNow (clock w) ∈ w_calls (o_main (stamped w)).
Proof. cbn. apply elem_of_app. right. by left. Qed.

Lemma untouched_ranks w r : untouched w (set_ranks r w).
Proof. by split. Qed.
End Steps.

(** ** The state of a wallet *)

Section State.
  Context `{DB : Database} `{OUT : Outside} `{ODB : OnboardDatabase} `{OOUT : OnboardOutside}.
  Context {LAWS : DatabaseLaws DB} {OLAWS : OnboardLaws DB ODB}.

Lemma rank_store_untouched key rank w : exists w', rank_store key rank w = (Ok tt, w') /\ untouched w w'.
Proof.
  unfold rank_store. cbv [mbind M_bind on_main date_now outside modify gets]. set (w1 := set_ranks _ _).
  assert (Hw1 : untouched w w1) by (etrans; [apply untouched_stamped|apply untouched_ranks]).
  destruct (Nat.ltb_spec RANK_CACHE_MAX (length (o_ranks w1))); eexists; (split; [reflexivity|]); [|done].
  etrans; [exact Hw1|]. etrans; [apply untouched_stamped|apply untouched_ranks].
Qed.

Lemma rank_untouched u pf w : w_tx (o_main w) = NoTx -> untouched w (snd (run (getRankWithinPlatform u pf) w)).
Proof.
  intros Htx. unfold getRankWithinPlatform. rewrite run_await_bind. unfold rank_cached.
  assert (Hq : forall w1, untouched w w1 -> untouched w (snd (run (rank ← await (on_main (count_users (ranked_before u pf)));
                 _ ← await (rank_store (rank_key u pf) rank); Return rank) w1))).
  { intros w1 Hw1. rewrite run_count_users by (rewrite (un_tx _ _ Hw1); done). destruct (db_count_users _ _) as [n|e]; [|done].
    rewrite run_await_bind. destruct (rank_store_untouched (rank_key u pf) n w1) as (w2 & -> & H2). cbn. by etrans. }
  destruct (rank_get _ _) as [c|]; [|by apply Hq]. cbv [on_main date_now outside].
  destruct (_ <? _); [apply untouched_stamped|apply Hq, untouched_stamped].
Qed.

(** What the state of a wallet is: of its user, else of its pending row, else of nobody. *)
Definition step_of (wallet : string) (w : OnboardWorld) (s : UserStep) : Prop :=
  (exists i u m pending now, w_users (o_main w) !! i = Some u /\ walletAddress u = wallet /\
     s = registered_step u m pending now /\ m = metrics_of (user_id u) (o_main w) /\
     match pending with
     | Some p => (exists j, o_pending w !! j = Some p) /\ nv_walletAddress p = wallet
     | None => forall j p, o_pending w !! j = Some p -> nv_walletAddress p <> wallet
     end) \/
  ((forall i u, w_users (o_main w) !! i = Some u -> walletAddress u <> wallet) /\
   ((exists j p, o_pending w !! j = Some p /\ nv_walletAddress p = wallet /\ s = pending_step p) \/
    ((forall j p, o_pending w !! j = Some p -> nv_walletAddress p <> wallet) /\ s = unknown_step wallet))).

Lemma pending_row w wallet o :
  odb_find_pending w (by_pending_wallet wallet) = Ok o ->
  match o with
  | Some p => (exists j, o_pending w !! j = Some p) /\ nv_walletAddress p = wallet
  | None => forall j p, o_pending w !! j = Some p -> nv_walletAddress p <> wallet
  end.
Proof.
  intros E. destruct o as [p|].
  - apply find_pending_some in E as (j & Hj & Hp). unfold by_pending_wallet in Hp. bool_to_prop. split; [by exists j|done].
  - intros j p Hj. eapply find_pending_none in E; [|exact Hj]. unfold by_pending_wallet in E. by bool_to_prop.
Qed.

Lemma user_row w wallet o :
  db_find_user w (by_wallet wallet) = Ok o ->
  match o with
  | Some u => exists i, w_users w !! i = Some u /\ walletAddress u = wallet
  | None => forall i u, w_users w !! i = Some u -> walletAddress u <> wallet
  end.
Proof.
  intros E. destruct o as [u|].
  - apply find_user_some in E as (i & Hi & Hp). unfold by_wallet in Hp. bool_to_prop. by exists i.
  - intros i u Hi. eapply find_user_none in E; [|exact Hi]. unfold by_wallet in E. by bool_to_prop.
Qed.

Lemma step_of_untouched wallet w w' s : untouched w w' -> step_of wallet w' s -> step_of wallet w s.
Proof. intros [] H. unfold step_of, metrics_of, loans_where in *. by rewrite un_users0, un_pending0, un_loans0 in H. Qed.

Lemma getStep_run a pf w :
  w_tx (o_main w) = NoTx ->
  let '(r, w') := run (getStepByWallet a pf) w in
  untouched w w' /\ forall s, r = Ok s -> exists wallet, normalizeWallet a = Ok wallet /\ step_of wallet w s.
Proof.
  intros Htx. unfold getStepByWallet. destruct (normalizeWallet a) as [wallet|e]; [|done]. cbn [of_result]. rewrite return_bind.
  rewrite run_find_user by done. destruct (db_find_user _ _) as [o|e] eqn:Eu; [|done]. apply user_row in Eu.
  destruct o as [u|].
  - destruct Eu as (i & Hi & Hw). rewrite run_bind. pose proof (rank_untouched u (resolvePlatform (platform (onboarding u)) pf) w Htx) as H1.
    destruct (run (getRankWithinPlatform _ _) w) as [[n|e] w1]; [|done]. cbn [snd] in H1.
    assert (Htx1 : w_tx (o_main w1) = NoTx) by (rewrite (un_tx _ _ H1); done).
    rewrite run_await_bind. unfold loan_metrics. rewrite ostatement_NoTx by done.
    destruct (odb_metrics_error w1); [done|]. rewrite run_find_pending by done.
    destruct (odb_find_pending _ _) as [o|e] eqn:Ep; [|done]. apply pending_row in Ep. rewrite run_date. cbn [run].
    split; [by etrans; [|apply untouched_stamped]|]. intros s [= <-]. exists wallet. split; [done|].
    apply (step_of_untouched wallet w w1); [done|]. left. exists i, u, (metrics_of (user_id u) (o_main w1)), o, (clock w1).
    split_and!; try done. by rewrite (un_users _ _ H1).
  - rewrite run_find_pending by done. destruct (odb_find_pending _ _) as [o|e] eqn:Ep; [|done]. apply pending_row in Ep. cbn [run].
    split; [done|]. intros s [= <-]. exists wallet. split; [done|]. right. split; [done|]. destruct o as [p|].
    + destruct Ep as ((j & Hj) & Hp). left. by exists j, p.
    + by right.
Qed.

(** What the application shows of a wallet: the request reads only, and answers the
    state of the wallet's user with the counts of its loans, or of its pending row, or
    of an unknown wallet; never anyone else's. *)
Theorem get_step_correct (a : string) (pf : option string) (w : OnboardWorld) (Htx : w_tx (o_main w) = NoTx) :
  let '(r, w') := run (getStepByWallet a pf) w in
  untouched w w' /\ forall s, r = Ok s -> exists wallet, normalizeWallet a = Ok wallet /\ step_of wallet w s.
Proof. exact (getStep_run a pf w Htx). Qed.
End State.

(** ** The check of the code *)

Section VerifyOtp.
  Context `{DB : Database} `{OUT : Outside} `{ODB : OnboardDatabase} `{OOUT : OnboardOutside}.
  Context {LAWS : DatabaseLaws DB} {OLAWS : OnboardLaws DB ODB}.

(** The users and the pending rows are now these; loans, mails and codes are as they
    were. *)
Record changed (w w' : OnboardWorld) (users : gmap Z User) (pending : gmap Z NotVerifiedUser) : Prop := {
  ch_users : w_users (o_main w') = users;
  ch_pending : o_pending w' = pending;
  ch_loans : w_loans (o_main w') = w_loans (o_main w);
  ch_tx : w_tx (o_main w') = w_tx (o_main w);
  ch_events : o_events w' = o_events w;
  ch_calls : forall c, c ∈ w_calls (o_main w) -> c ∈ w_calls (o_main w');
}.

Definition same_analytics (w w' : OnboardWorld) : Prop := o_sessions w' = o_sessions w /\ o_attempts w' = o_attempts w.

Lemma changed_nothing w w' : untouched w w' -> changed w w' (w_users (o_main w)) (o_pending w) /\ same_analytics w w'.
Proof. intros []. by split. Qed.

Lemma changed_then w w1 w' users pending :
  changed w w1 users pending -> same_analytics w w1 -> untouched w1 w' -> changed w w' users pending /\ same_analytics w w'.
Proof. intros [] [Hs Ha] []. unfold same_analytics. split; [split; try congruence; auto|split; congruence]. Qed.

Lemma changed_after w w0 w1 users pending :
  untouched w w0 -> changed w0 w1 users pending -> same_analytics w0 w1 -> changed w w1 users pending /\ same_analytics w w1.
Proof. intros [] [] [Hs Ha]. unfold same_analytics. split; [split; try congruence; auto|split; congruence]. Qed.

(** The row carries this code, unexpired at the clock, and guesses are left. *)
Definition right_otp (p : NotVerifiedUser) (code : string) (now : Z) : Prop :=
  nv_otpCode p = Some (otp_hash code) /\ (exists expires, nv_otpExpiresAt p = Some expires /\ now <= expires) /\
  nv_otpAttemptCount p < EMAIL_OTP_MAX_ATTEMPTS.

Definition counted_wrong (p : NotVerifiedUser) (code : string) (w w' : OnboardWorld) : Prop :=
  nv_otpCode p <> Some (otp_hash code) /\ nv_otpAttemptCount p < EMAIL_OTP_MAX_ATTEMPTS /\
  changed w w' (w_users (o_main w)) (<[nv_id p := pending_attempt p]> (o_pending w)) /\ same_analytics w w'.

Lemma check_run p code w :
  w_tx (o_main w) = NoTx ->
  let '(r, w') := run (check_otp p code) w in
  match r with
  | Ok _ => w' = stamped w /\ right_otp p code (clock w)
  | Throw _ => untouched w w' \/ counted_wrong p code w w'
  end.
Proof.
  intros Htx. unfold check_otp. destruct (filled (nv_otpCode p)); [|by left]. destruct (nv_otpExpiresAt p) as [expires|] eqn:Ee; [|by left].
  rewrite run_date. pose proof (untouched_stamped w) as Hs. destruct (Z.ltb_spec expires (clock w)); [by left|].
  destruct (Z.leb_spec EMAIL_OTP_MAX_ATTEMPTS (nv_otpAttemptCount p)); [by left|].
  case_bool_decide as Hc; cbn [negb].
  - split; [done|]. split_and!; [done|by exists expires|done].
  - rewrite run_await_bind. unfold save_pending, written. rewrite ostatement_NoTx by done.
    destruct (odb_pending_error _ _); [by left|]. right. split_and!; [done..| |].
    + split; try done. apply (un_calls _ _ Hs).
    + done.
Qed.

Definition email_free (mail wallet : string) (w : OnboardWorld) : Prop :=
  mail <> ""%string /\ forall i u, w_users (o_main w) !! i = Some u -> email (onboarding u) = Some mail -> walletAddress u = wallet.

Lemma free_run {A} mail wallet (k : unit -> proc OnboardWorld A) w :
  onboard_ok w ->
  (exists e, run (ensureEmailIsFreeForWallet mail wallet ≫= k) w = (Throw e, w)) \/
  (email_free mail wallet w /\ run (ensureEmailIsFreeForWallet mail wallet ≫= k) w = run (k tt) w).
Proof.
  intros Hw. unfold ensureEmailIsFreeForWallet. case_bool_decide as Hm; [left; eauto|]. rewrite run_bind, run_find_user by apply Hw.
  destruct (db_find_user _ _) as [[u|]|e] eqn:Eu; [| |left; eauto].
  - case_bool_decide as Hwal; [|left; eauto]. right. split; [|done]. split; [done|].
    apply find_user_some in Eu as (i & Hi & Hp). bool_to_prop. intros j v Hj Hv.
    pose proof (ok_emails _ Hw _ _ _ _ _ Hi Hj Hp Hv) as <-. congruence.
  - right. split; [|done]. split; [done|]. intros i u Hi He. eapply find_user_none in Eu; [|exact Hi]. by bool_to_prop.
Qed.

(** The update of one user's row. *)
Lemma update_run {A} (k : unit -> proc OnboardWorld A) i u up w :
  onboard_ok w -> w_users (o_main w) !! i = Some u ->
  (exists e, run (await (on_main (update_user i (apply_updates up))) ≫= k) w = (Throw e, w)) \/
  exists w1, run (await (on_main (update_user i (apply_updates up))) ≫= k) w = run (k tt) w1 /\
    changed w w1 (<[i := apply_updates up u]> (w_users (o_main w))) (o_pending w) /\ same_analytics w w1.
Proof.
  intros Hw Hi. rewrite run_await_bind. unfold on_main, update_user. rewrite statement_NoTx, Hi by apply Hw.
  destruct (db_user_error _ _) as [e|]; [left; exists e; by rewrite set_main_same|]. right. eexists. by split_and!.
Qed.

Definition answers (wallet : string) (r : result UserStep) (w : OnboardWorld) : Prop := forall s, r = Ok s -> step_of wallet w s.

(** The state asked for at the end of a request that changed the tables. *)
Lemma finish_run a wallet pf w w1 users pending :
  normalizeWallet a = Ok wallet -> w_tx (o_main w1) = NoTx -> changed w w1 users pending ->
  let '(r, w') := run (getStepByWallet wallet pf) w1 in
  changed w w' users pending /\ (same_analytics w w1 -> same_analytics w w') /\ untouched w1 w' /\ answers wallet r w'.
Proof.
  intros Ha Htx Hc. pose proof (getStep_run wallet pf w1 Htx) as H. destruct (run _ w1) as [r w'].
  destruct H as [Hun Hs]. split_and!; [|intros Hsa; by eapply changed_then|done|].
  - destruct Hc, Hun. split; try congruence. auto.
  - intros s Hr. destruct (Hs s Hr) as (wallet' & Hn & Hstep). rewrite (normalizeWallet_fixed a wallet Ha) in Hn. injection Hn as <-.
    destruct Hun. unfold step_of, metrics_of, loans_where in *. by rewrite un_users0, un_pending0, un_loans0.
Qed.

(** Only the work and the platform of a known user are written. *)
Definition worked (wallet workType : string) (pf : option string) (w w' : OnboardWorld) (r : result UserStep) : Prop :=
  exists i u, w_users (o_main w) !! i = Some u /\ walletAddress u = wallet /\
    changed w w' (<[i := apply_updates (work_updates u workType pf) u]> (w_users (o_main w))) (o_pending w) /\
    same_analytics w w' /\ answers wallet r w'.

Definition refused {A} (r : result A) (w w' : OnboardWorld) : Prop := is_ok r = false /\ untouched w w'.

Lemma refused_here {A} e w : refused (A := A) (Throw e) w w.
Proof. by split. Qed.

Lemma no_pending_run a wallet workType pf w :
  onboard_ok w -> normalizeWallet a = Ok wallet ->
  let '(r, w') := run (no_pending_otp wallet workType pf) w in refused r w w' \/ worked wallet workType pf w w' r.
Proof.
  intros Hw Ha. unfold no_pending_otp, find_user_by_wallet. rewrite run_find_user by apply Hw.
  destruct (db_find_user _ _) as [[u|]|e] eqn:Eu; [|left; apply refused_here..]. apply user_row in Eu as (i & Hi & Hwal).
  pose proof (proj1 (ok_users _ Hw) _ _ Hi) as Hid. cbn in Hid. rewrite Hid.
  destruct (update_run (fun _ => getStepByWallet wallet (fill (normalizePlatform (platform (onboarding u))) pf)) i u
              (work_updates u workType pf) w Hw Hi) as [[e ->]|(w1 & -> & Hc & Hsa)]; [left; apply refused_here|].
  pose proof (finish_run a wallet (fill (normalizePlatform (platform (onboarding u))) pf) w w1 _ _ Ha
                ltac:(rewrite (ch_tx _ _ _ _ Hc); apply Hw) Hc) as H.
  destruct (run _ w1) as [r w']. destruct H as (? & ? & _ & ?). right. exists i, u. split_and!; auto.
Qed.

(** The row [p] was used up: the user of the wallet is brought up to date, or created;
    the analytics rows of the wallet are linked to a new user, when nothing fails. *)
Definition joined_rows (i : Z) (wallet : string) (w w' : OnboardWorld) : Prop :=
  same_analytics w w' \/
  (o_sessions w' = link_rows i wallet (o_sessions w) /\
   (o_attempts w' = o_attempts w \/ o_attempts w' = link_rows i wallet (o_attempts w))).

Definition registered (p : NotVerifiedUser) (mail workType : string) (pf : option string) (w w' : OnboardWorld) : Prop :=
  (exists i u, w_users (o_main w) !! i = Some u /\ walletAddress u = nv_walletAddress p /\
     changed w w' (<[i := apply_updates (otp_updates p u mail workType pf) u]> (w_users (o_main w))) (delete (nv_id p) (o_pending w)) /\
     same_analytics w w') \/
  ((forall i u, w_users (o_main w) !! i = Some u -> walletAddress u <> nv_walletAddress p) /\
   exists i joined created, w_users (o_main w) !! i = None /\
     changed w w' (<[i := with_user_id i (registered_user (nv_walletAddress p) pf mail workType (nv_termsAcceptedAt p) (Some joined) created)]>
                     (w_users (o_main w))) (delete (nv_id p) (o_pending w)) /\
     joined_rows i (nv_walletAddress p) w w').

Lemma changed_untouched w w0 w1 users pending :
  untouched w w0 -> changed w0 w1 users pending -> changed w w1 users pending.
Proof. intros [] []. split; try congruence. auto. Qed.

Lemma registered_untouched p mail workType pf w w0 w' :
  untouched w w0 -> registered p mail workType pf w0 w' -> registered p mail workType pf w w'.
Proof.
  intros Hu H. pose proof (un_users _ _ Hu) as Eu. pose proof (un_pending _ _ Hu) as Ep.
  unfold registered, joined_rows, same_analytics in *. rewrite Eu, Ep, (un_sessions _ _ Hu), (un_attempts _ _ Hu) in H.
  destruct H as [(i & u & ? & ? & Hc & ?)|(? & i & j & c & ? & Hc & ?)].
  - left. exists i, u. refine (conj _ (conj _ (conj _ _))); [done..| |done]. by eapply changed_untouched.
  - right. split; [done|]. exists i, j, c. refine (conj _ (conj _ _)); [done| |done]. by eapply changed_untouched.
Qed.

Lemma sync_run a p u i mail workType pf w :
  onboard_ok w -> normalizeWallet a = Ok (nv_walletAddress p) ->
  w_users (o_main w) !! i = Some u -> walletAddress u = nv_walletAddress p ->
  let '(r, w') := run (sync_existing (nv_walletAddress p) p u mail workType pf) w in
  refused r w w' \/ registered p mail workType pf w w' /\ answers (nv_walletAddress p) r w'.
Proof.
  intros Hw Ha Hi Hwal. unfold sync_existing. rewrite run_await_bind.
  pose proof (proj1 (ok_users _ Hw) _ _ Hi) as Hid. cbn in Hid. rewrite Hid.
  destruct (sync_tx_run i (otp_updates p u mail workType pf) (nv_id p) w (ok_tx _ Hw)) as [[e ->]|(users & -> & Hu)]; [left; apply refused_here|].
  rewrite Hi in Hu. destruct Hu as [-> _]. set (w1 := set_pending _ _).
  pose proof (finish_run a (nv_walletAddress p) (fill (normalizePlatform (platform (onboarding u))) pf) w w1
    (<[i := apply_updates (otp_updates p u mail workType pf) u]> (w_users (o_main w))) (delete (nv_id p) (o_pending w)) Ha (ok_tx _ Hw)
    ltac:(by split)) as H.
  destruct (run _ w1) as [r w']. destruct H as (? & Hsa & _ & ?). right. split; [|done]. left. exists i, u. split_and!; [done..|].
  by apply Hsa.
Qed.

(** Linking: all of it, the sessions only, or nothing. *)
Lemma link_run a i wallet w :
  w_tx (o_main w) = NoTx -> normalizeWallet a = Ok wallet ->
  exists w', run (proc_try (fun _ => Return tt) (linkAnalyticsForNewUser i wallet)) w = (Ok tt, w') /\
    joined_rows i wallet w w' /\ changed w w' (w_users (o_main w)) (o_pending w).
Proof.
  intros Htx Ha. rewrite proc_try_run. unfold linkAnalyticsForNewUser. rewrite (normalizeWallet_fixed a wallet Ha). cbn [of_result].
  rewrite return_bind, run_await_bind. rewrite ostatement_NoTx by done. unfold written at 1.
  destruct (odb_sessions_error w); [exists w; split_and!; [done|by left|by split]|].
  set (w1 := set_analytics _ _ w). rewrite run_await, ostatement_NoTx by done. unfold written.
  destruct (odb_attempts_error w1); eexists; (split; [reflexivity|]); (split; [right; split; [done|]|by split]); [by left|by right].
Qed.

Lemma joined_or_now_run {A} j (k : Z -> proc OnboardWorld A) w :
  exists t w1, untouched w w1 /\ run (joined_or_now j ≫= k) w = run (k t) w1.
Proof.
  unfold joined_or_now. destruct j as [t|]; [by exists t, w|]. exists (clock w), (stamped w).
  split; [apply untouched_stamped|]. by rewrite run_date.
Qed.

Lemma create_run a p mail workType pf w :
  onboard_ok w -> normalizeWallet a = Ok (nv_walletAddress p) ->
  (forall i u, w_users (o_main w) !! i = Some u -> walletAddress u <> nv_walletAddress p) ->
  let '(r, w') := run (create_user (nv_walletAddress p) p mail workType pf) w in
  refused r w w' \/ registered p mail workType pf w w' /\ answers (nv_walletAddress p) r w'.
Proof.
  intros Hw Ha Hnone. unfold create_user. rewrite run_await_bind. unfold on_main at 1.
  change (getUserUntilWaitlist pf (o_main w)) with (Ok 0 : result Z, o_main w). cbv beta iota.
  rewrite set_main_same, run_count_users by apply Hw. destruct (db_count_users _ _) as [n|e]; [|left; apply refused_here].
  cbv zeta. change (0 <? 0) with false. cbn [andb].
  match goal with |- context [run ((t ← joined_or_now ?j; Return (Some t)) ≫= ?k) w] =>
    assert (Hj : run ((t ← joined_or_now j; Return (Some t)) ≫= k) w = run (joined_or_now j ≫= fun t => k (Some t)) w)
      by (unfold joined_or_now; by destruct j); rewrite Hj; clear Hj;
    destruct (joined_or_now_run j (fun t => k (Some t)) w) as (t & w1 & Hw1 & ->)
  end.
  rewrite run_await_bind.
  assert (Htx1 : w_tx (o_main w1) = NoTx) by (rewrite (un_tx _ _ Hw1); apply Hw).
  match goal with |- context [otransaction (u ← on_main (fun m => insert_user (@?row m) m); _)] =>
    destruct (create_tx_run row (nv_id p) w1 Htx1) as [[e ->]|[-> _]] end; [by left|].
  set (u := inserted _ w1). set (w2 := set_pending _ _). rewrite run_bind.
  destruct (link_run a (user_id u) (nv_walletAddress p) w2 Htx1 Ha) as (w3 & Hl & Hj & Hc3). cbn [walletAddress u] in *.
  change (walletAddress u) with (nv_walletAddress p). rewrite Hl. clear Hl.
  pose proof (finish_run a (nv_walletAddress p) pf w2 w3 _ _ Ha ltac:(rewrite (ch_tx _ _ _ _ Hc3); done) Hc3) as H.
  destruct (run _ w3) as [r w']. destruct H as (Hc & _ & Hun & Hans). right. split; [|done].
  apply (registered_untouched p mail workType pf w w1); [done|]. right. rewrite (un_users _ _ Hw1). split; [done|].
  exists (user_id u), t, (db_created_at (set_tx TxActive (o_main w1))). split; [|split].
  - rewrite <- (un_users _ _ Hw1). exact (new_user_id_fresh (set_tx TxActive (o_main w1))).
  - rewrite <- (un_users _ _ Hw1). destruct Hc. by split.
  - destruct Hun. unfold joined_rows, same_analytics in *. by rewrite un_sessions0, un_attempts0.
Qed.

(** What checking a code did: nothing; a wrong guess counted; the work of a known
    user, when no e-mail waits to be verified; or the right code was used up and the
    user of the wallet has the e-mail, which was free. *)
Definition otp_outcome (a code workType : string) (pf : option string) (w w' : OnboardWorld) (r : result UserStep) : Prop :=
  refused r w w' \/
  (exists p, is_ok r = false /\ o_pending w !! nv_id p = Some p /\ normalizeWallet a = Ok (nv_walletAddress p) /\
     counted_wrong p (trim code) w w') \/
  (exists wallet, normalizeWallet a = Ok wallet /\
     (forall j p, o_pending w !! j = Some p -> nv_walletAddress p = wallet -> filled (nv_email p) = false) /\
     worked wallet (trim workType) (normalizePlatform pf) w w' r) \/
  (exists p mail now, o_pending w !! nv_id p = Some p /\ normalizeWallet a = Ok (nv_walletAddress p) /\
     right_otp p (trim code) now /\ CNow now ∈ w_calls (o_main w') /\
     nv_email p = Some mail /\ email_free (normalizedEmail mail) (nv_walletAddress p) w /\
     registered p (normalizedEmail mail) (trim workType) (fill (normalizePlatform (nv_platform p)) (normalizePlatform pf)) w w' /\
     answers (nv_walletAddress p) r w').

Lemma registered_calls p mail workType pf w w' c :
  registered p mail workType pf w w' -> c ∈ w_calls (o_main w) -> c ∈ w_calls (o_main w').
Proof. intros [(i & u & _ & _ & Hc & _)|(_ & i & j & t & _ & Hc & _)]; apply (ch_calls _ _ _ _ Hc). Qed.

Lemma onboard_ok_stamped w : onboard_ok w -> onboard_ok (stamped w).
Proof. intros Hw. eapply frame_ok; [exact Hw|]. by apply frame_main. Qed.

(** From the pending row on, when it has an e-mail. *)
Lemma verify_pending_run a p mail code workType pf w :
  onboard_ok w -> normalizeWallet a = Ok (nv_walletAddress p) -> o_pending w !! nv_id p = Some p -> nv_email p = Some mail ->
  let '(r, w') := run (
    _ ← check_otp p (trim code); _ ← ensureEmailIsFreeForWallet (normalizedEmail mail) (nv_walletAddress p);
    existing ← await (find_user_by_wallet (nv_walletAddress p));
    match existing with
    | Some user => sync_existing (nv_walletAddress p) p user (normalizedEmail mail) (trim workType) (fill (normalizePlatform (nv_platform p)) (normalizePlatform pf))
    | None => create_user (nv_walletAddress p) p (normalizedEmail mail) (trim workType) (fill (normalizePlatform (nv_platform p)) (normalizePlatform pf))
    end) w in otp_outcome a code workType pf w w' r.
Proof.
  intros Hw Ha Hp Hm. rewrite run_bind. pose proof (check_run p (trim code) w (ok_tx _ Hw)) as Hc.
  destruct (run (check_otp _ _) w) as [[[]|e] w1].
  2: { destruct Hc as [Hc|Hc]; [by left; split|]. right. left. by exists p. }
  destruct Hc as [-> Hright]. pose proof (untouched_stamped w) as Hun. pose proof (onboard_ok_stamped w Hw) as Hw1.
  match goal with |- context [run (ensureEmailIsFreeForWallet ?m ?x ≫= ?k) ?w1] =>
    destruct (free_run m x k w1 Hw1) as [[e ->]|[Hfree ->]] end; [by left; split|].
  unfold find_user_by_wallet. rewrite run_find_user by apply Hw1.
  destruct (db_find_user _ _) as [o|e] eqn:Eu; [|by left; split]. apply user_row in Eu.
  set (pf' := fill _ _).
  assert (Hgo : forall r w', refused r (stamped w) w' \/
      registered p (normalizedEmail mail) (trim workType) pf' (stamped w) w' /\ answers (nv_walletAddress p) r w' ->
      otp_outcome a code workType pf w w' r).
  { intros r w' [[Hr Hu]|[Hreg Hans]]; [left; split; [done|by etrans]|]. right. right. right.
    exists p, mail, (clock w). refine (conj Hp (conj Ha (conj Hright (conj _ (conj Hm (conj Hfree (conj _ Hans))))))).
    - eapply registered_calls; [exact Hreg|apply clock_logged].
    - by eapply registered_untouched. }
  destruct o as [u|].
  - destruct Eu as (i & Hi & Hwal).
    pose proof (sync_run a p u i (normalizedEmail mail) (trim workType) pf' (stamped w) Hw1 Ha Hi Hwal) as H.
    destruct (run _ (stamped w)) as [r w']. by apply Hgo.
  - pose proof (create_run a p (normalizedEmail mail) (trim workType) pf' (stamped w) Hw1 Ha Eu) as H.
    destruct (run _ (stamped w)) as [r w']. by apply Hgo.
Qed.

Lemma verifyOtp_run a code workType pf w :
  onboard_ok w -> let '(r, w') := run (verifyOtp a code workType pf) w in otp_outcome a code workType pf w w' r.
Proof.
  intros Hw. unfold verifyOtp. destruct (normalizeWallet a) as [wallet|e] eqn:Ea; [|by left; split]. cbn [of_result]. rewrite return_bind.
  cbv zeta. case_bool_decide as Hcode; [by left; split|]. case_bool_decide as Hwork; [by left; split|].
  unfold find_pending_by_wallet. rewrite run_find_pending by apply Hw.
  destruct (odb_find_pending _ _) as [o|e] eqn:Ep; [|by left; split]. apply pending_row in Ep.
  assert (Hno : (forall j p, o_pending w !! j = Some p -> nv_walletAddress p = wallet -> filled (nv_email p) = false) ->
    let '(r, w') := run (no_pending_otp wallet (trim workType) (normalizePlatform pf)) w in otp_outcome a code workType pf w w' r).
  { intros Hnone. pose proof (no_pending_run a wallet (trim workType) (normalizePlatform pf) w Hw Ea) as Hrun.
    destruct (run _ w) as [r w']. destruct Hrun as [Hrun|Hrun]; [by left|]. right. right. left. by exists wallet. }
  destruct o as [p|]; [|apply Hno; intros j p Hj Hwal; exfalso; by eapply Ep].
  destruct Ep as ((j & Hj) & Hwal). pose proof (ok_ids _ Hw _ _ Hj) as Hid. cbn in Hid. subst j.
  assert (Honly : filled (nv_email p) = false ->
    forall j q, o_pending w !! j = Some q -> nv_walletAddress q = wallet -> filled (nv_email q) = false).
  { intros Hf j q Hq Hqw. pose proof (ok_pendings _ Hw _ _ _ _ Hj Hq ltac:(congruence)) as <-. congruence. }
  destruct (nv_email p) as [mail|] eqn:Em; [|destruct p; cbn in Em; subst; by apply Hno, Honly].
  destruct (decide (mail = ""%string)) as [->|Hne].
  { destruct p. cbn in Em. subst. by apply Hno, Honly. }
  pose proof (verify_pending_run a p mail code workType pf w Hw ltac:(congruence) Hj Em) as H. rewrite Hwal in H.
  destruct p. cbn in Em. subst. rewrite bool_decide_false by done. exact H.
Qed.

(** What presenting a code does, alone and on every branch: nothing; or one wrong
    guess counted on the pending row; or, when no e-mail waits to be verified, the work
    of a user that exists recorded; or the code was the one of the wallet's pending
    row, not expired and with guesses left, the e-mail of that row belongs to no other
    user, the user of the wallet is brought up to date or created with that e-mail, and
    the pending row is gone, both or neither. A request that answers, answers the state
    of the wallet. *)
Theorem email_otp_correct (a code workType : string) (pf : option string) (w : OnboardWorld) (Hok : onboard_ok w) :
  let '(r, w') := run (verifyOtp a code workType pf) w in otp_outcome a code workType pf w w' r.
Proof. exact (verifyOtp_run a code workType pf w Hok). Qed.
End VerifyOtp.

(** ** Sending a code *)

Section Issue.
  Context `{DB : Database} `{OUT : Outside} `{ODB : OnboardDatabase} `{OOUT : OnboardOutside}.
  Context {LAWS : DatabaseLaws DB} {OLAWS : OnboardLaws DB ODB}.

(** The mail of a code, when a transport is configured. *)
Definition mailed (to code : string) : list onboard_event := match mailer with Some _ => [EMail to code] | None => [] end.

(** Sending a code to a pending person, on every branch: refused without a trace when
    the row has no e-mail or was sent a code less than a minute ago; otherwise a code is
    drawn and, unless the row cannot be written, its hash is stored for ten minutes with
    no guess counted, and the code is mailed at most once, to the e-mail of the row and
    to nobody else, whether or not the mail arrives. *)
Theorem issue_otp_correct (p : NotVerifiedUser) (w : OnboardWorld) (Htx : w_tx (o_main w) = NoTx) :
  let '(r, w') := run (issueOtpForPending p) w in
  let n := onboard_randomInt (o_events w) in
  w_users (o_main w') = w_users (o_main w) /\ w_loans (o_main w') = w_loans (o_main w) /\
  match r with
  | Throw _ => o_pending w' = o_pending w /\ (o_events w' = o_events w \/ o_events w' = o_events w ++ [ERandomInt n])
  | Ok p' =>
      exists mail, nv_email p = Some mail /\ mail <> ""%string /\
        (forall t, nv_lastOtpSentAt p = Some t -> EMAIL_OTP_THROTTLE_MS <= clock w - t) /\
        p' = pending_code p (otp_hash (String_of_int n)) (clock w) /\
        o_pending w' = <[nv_id p := p']> (o_pending w) /\
        o_events w' = o_events w ++ ERandomInt n :: mailed mail (String_of_int n)
  end.
Proof.
  unfold issueOtpForPending. destruct (filled (nv_email p)) eqn:Ef; cbn [negb]; [|split_and!; try done; by left].
  apply filled_some in Ef as (mail & Em & Hne). rewrite run_date.
  destruct (match nv_lastOtpSentAt p with Some t => clock w - t <? EMAIL_OTP_THROTTLE_MS | None => false end) eqn:Et.
  { split_and!; try done. by left. }
  rewrite run_await_bind. cbv [oRandomInt]. cbn [o_events stamped set_main].
  set (n := onboard_randomInt _). set (w1 := log_onboard _ _). rewrite run_await_bind. unfold save_pending, written.
  rewrite ostatement_NoTx by done. cbv zeta. destruct (odb_pending_error _ _); [split_and!; try done; by right|].
  rewrite Em. cbn [default]. set (p' := pending_code _ _ _). set (w2 := set_pending _ w1).
  assert (Hthr : forall t, nv_lastOtpSentAt p = Some t -> EMAIL_OTP_THROTTLE_MS <= clock w - t)
    by (intros t Ht; rewrite Ht in Et; lia).
  assert (Em' : nv_email p' = Some mail) by exact Em.
  assert (Hend : forall evs, evs = mailed mail (String_of_int n) -> forall w', w' = {| o_main := o_main w2; o_pending := o_pending w2;
      o_sessions := o_sessions w2; o_attempts := o_attempts w2; o_ranks := o_ranks w2; o_events := o_events w2 ++ evs |} ->
    w_users (o_main w') = w_users (o_main w) /\ w_loans (o_main w') = w_loans (o_main w) /\
    exists m, Some mail = Some m /\ m <> ""%string /\ (forall t, nv_lastOtpSentAt p = Some t -> EMAIL_OTP_THROTTLE_MS <= clock w - t) /\
      p' = p' /\ o_pending w' = <[nv_id p := p']> (o_pending w) /\
      o_events w' = o_events w ++ ERandomInt n :: mailed m (String_of_int n)).
  { intros evs -> w' ->. split_and!; [done..|]. exists mail. split_and!; try done. cbn. by rewrite <- app_assoc. }
  rewrite run_bind. destruct mailer as [send|] eqn:Emailer.
  - rewrite proc_try_run, run_await. cbv [sendMail]. rewrite Em'. cbn [default].
    destruct (send _ _ _); cbn [run]; (eapply Hend; [|reflexivity]); unfold mailed; by rewrite Emailer.
  - cbn [run]. eapply (Hend []); [unfold mailed; by rewrite Emailer|]. rewrite app_nil_r. by destruct w2.
Qed.
End Issue.

(** ** Concrete runs *)

Definition post : OnboardOutside := {|
  onboard_randomInt _ := 123456; otp_hash s := ("#" ++ s)%string; mailer := Some (fun _ _ _ => Ok tt) |}.

Definition empty_main : World := {| w_users := ∅; w_loans := ∅; w_side := no_side; w_tx := NoTx; w_calls := [] |}.

(** Nobody is registered; a device of the wallet was seen. *)
Definition onboard_world : OnboardWorld :=
  {| o_main := empty_main; o_pending := ∅; o_sessions := {[ 1 := {| ar_userId := None; ar_walletAddress := Some sample_wallet |} ]};
     o_attempts := ∅; o_ranks := []; o_events := [] |}.

Lemma onboard_world_ok : onboard_ok (OOUT := post) onboard_world.
Proof.
  split; try done. cbn. apply Nat.le_0_l.
Qed.

Local Abbreviation serve_one r :=
  (serve_onboard (DB := StrictDatabase) (OUT := vendor) (ODB := MemoryOnboard) (OOUT := post) r) (only parsing).

Definition join_request : onboard_request := JoinWaitlist sample_wallet "Mine@Example.com" (Some "lemon"%string).
Definition otp_request : onboard_request := VerifyOtp sample_wallet " 123456 " "other_job" None.

Definition joined_world : OnboardWorld := snd (run (serve_one join_request) onboard_world).

Definition email_of (w : OnboardWorld) : list (option string) := (fun u => email (onboarding u)) <$> (snd <$> map_to_list (w_users (o_main w))).

Definition mails_of (w : OnboardWorld) : list (string * string) :=
  omap (fun e => match e with EMail to code => Some (to, code) | _ => None end) (o_events w).

(** The two requests one after the other, in the pool. *)
Definition registered_pool : pool OnboardWorld unit :=
  run_schedule (replicate 20 0 ++ replicate 20 1)%nat (map (fun r => serve_one r) [join_request; otp_request], onboard_world).

Lemma registration_safe_witness :
  email_of (snd registered_pool) = [Some "mine@example.com"%string] /\
  onboard_ok (OOUT := post) (snd registered_pool) /\ onboard_le (OOUT := post) [join_request; otp_request] onboard_world (snd registered_pool).
Proof.
  split; [vm_compute; reflexivity|].
  pose proof (registration_safe (DB := StrictDatabase) (OUT := vendor) (ODB := MemoryOnboard) (OOUT := post) [join_request; otp_request]
    onboard_world registered_pool (run_schedule_steps _ _) onboard_world_ok) as H.
  exact H.
Defined.

(** The code mailed to one address registers another: an e-mail asked for within the
    minute replaces the one on the pending row although no code is sent to it, and the
    code sent before still counts. The user of this run has an e-mail that was never
    written to. *)
Theorem code_for_another_email :
  let '(r1, w1) := run (serve_one (VerifyEmail sample_wallet "victim@example.com" None)) joined_world in
  let '(r2, w2) := run (serve_one otp_request) w1 in
  is_ok r1 = false /\ r2 = Ok tt /\ email_of w2 = [Some "victim@example.com"%string] /\
  mails_of w2 = [("mine@example.com"%string, "123456"%string)].
Proof. vm_compute. auto. Qed.

(** A request alone keeps the invariant. *)
Lemma serve_one_ok r w : onboard_ok (OOUT := post) w -> onboard_ok (OOUT := post) (snd (run (serve_one r) w)).
Proof.
  intros Hw.
  pose proof (since_run (onboard_ok (OOUT := post)) (onboard_le (OOUT := post) [r]) _ w (serve_one r)
    (serve_onboard_onb (DB := StrictDatabase) (OUT := vendor) (ODB := MemoryOnboard) (OOUT := post) [r] r w ltac:(by left)) Hw) as H.
  destruct (run _ w) as [x w']. exact (proj1 H).
Qed.

Lemma joined_world_ok : onboard_ok (OOUT := post) joined_world.
Proof. apply serve_one_ok, onboard_world_ok. Qed.

Local Abbreviation verify_joined :=
  (run (verifyOtp (DB := StrictDatabase) (OUT := vendor) (ODB := MemoryOnboard) (OOUT := post) sample_wallet " 123456 " "other_job" None)
     joined_world) (only parsing).

Lemma email_otp_correct_witness :
  is_ok (fst verify_joined) = true /\ email_of (snd verify_joined) = [Some "mine@example.com"%string] /\
  otp_outcome (OOUT := post) sample_wallet " 123456 " "other_job" None joined_world (snd verify_joined) (fst verify_joined).
Proof.
  split; [vm_compute; reflexivity|]. split; [vm_compute; reflexivity|].
  pose proof (email_otp_correct (DB := StrictDatabase) (OUT := vendor) (ODB := MemoryOnboard) (OOUT := post)
    sample_wallet " 123456 " "other_job" None joined_world joined_world_ok) as H.
  destruct verify_joined as [r w']. exact H.
Defined.

Lemma get_step_correct_witness :
  let '(r, w') := run (getStepByWallet (DB := StrictDatabase) (OUT := vendor) (ODB := MemoryOnboard) sample_wallet None) joined_world in
  untouched joined_world w' /\ forall s, r = Ok s -> exists wallet, normalizeWallet sample_wallet = Ok wallet /\ step_of wallet joined_world s.
Proof.
  exact (get_step_correct (DB := StrictDatabase) (OUT := vendor) (ODB := MemoryOnboard) sample_wallet None joined_world (ok_tx _ joined_world_ok)).
Defined.

Definition asking : NotVerifiedUser := with_nv_id 1 (new_pending sample_wallet None (Some "mine@example.com"%string) None None).

Lemma issue_otp_correct_witness :
  let r := run (issueOtpForPending (OUT := vendor) (ODB := MemoryOnboard) (OOUT := post) asking) onboard_world in
  mails_of (snd r) = [("mine@example.com"%string, "123456"%string)] /\ w_loans (o_main (snd r)) = w_loans (o_main onboard_world).
Proof.
  cbv zeta. split; [vm_compute; reflexivity|].
  pose proof (issue_otp_correct (OUT := vendor) (ODB := MemoryOnboard) (OOUT := post) asking onboard_world eq_refl) as H.
  destruct (run _ onboard_world) as [r w']. exact (proj1 (proj2 H)).
Defined.

(** An e-mail is replaced before it is verified: for a user that exists, asking for the
    code of another e-mail already puts that e-mail on the user's row, in the place of
    the verified one. *)
Theorem email_replaced_unverified :
  let w1 := snd verify_joined in
  let w2 := snd (run (serve_one (VerifyEmail sample_wallet "victim@example.com" None)) w1) in
  email_of w1 = [Some "mine@example.com"%string] /\ email_of w2 = [Some "victim@example.com"%string].
Proof. vm_compute. auto. Qed.
