(* ===== verification/Profile.v ===== *)
(** * The profile of a user and the proof of identity of Self
      ([backend/src/user/user.service.ts], [self/self.service.ts],
      [common/iso-country.util.ts])

    The claims Lemon grants about a user, and the passport proof that Self checks,
    written to the row of the user and to the table of verified identities. *)

From stdpp Require Import base tactics list gmap strings numbers.
From Stdlib Require Import Lia ZArith Ascii.
From S2P Require Import Prelude JsString JsNum Strkey Entities Gateway Store Async Kyc LoanVerification EarlyAccess.

Local Open Scope Z_scope.

(** ** Countries ([common/iso-country.util.ts]) *)

Definition ALPHA3_TO_ALPHA2 : list (string * string) :=
  [("ARG", "AR"); ("BOL", "BO"); ("BRA", "BR"); ("CHL", "CL"); ("COL", "CO"); ("CRI", "CR"); ("CUB", "CU"); ("DOM", "DO");
   ("ECU", "EC"); ("SLV", "SV"); ("GTM", "GT"); ("HND", "HN"); ("MEX", "MX"); ("NIC", "NI"); ("PAN", "PA"); ("PRY", "PY");
   ("PER", "PE"); ("PRI", "PR"); ("URY", "UY"); ("VEN", "VE"); ("USA", "US"); ("CAN", "CA"); ("ESP", "ES"); ("ITA", "IT");
   ("DEU", "DE"); ("FRA", "FR"); ("GBR", "GB"); ("PRT", "PT")]%string.

Definition alpha2_of (code : string) : option string :=
  snd <$> List.find (fun row => bool_decide (fst row = code)) ALPHA3_TO_ALPHA2.

Definition toIso2 (code : option string) : option string :=
  match code with
  | None => None
  | Some s =>
      let trimmed := toUpperCase (trim s) in
      match String.length trimmed with
      | 2%nat => Some trimmed
      | 3%nat => alpha2_of trimmed
      | _ => None
      end
  end.

Definition countriesEqual (a b : option string) : option bool :=
  match toIso2 a, toIso2 b with Some x, Some y => Some (bool_decide (x = y)) | _, _ => None end.

(** ** The tables *)

(** The columns of a user the profile is about; the others are in [Entities.User]. *)
Record ProfileColumns := {
  firstName : option string;
  lastName : option string;
  birthdate : option string;
  nationality : option string;
  documentType : option string;
  documentNumber : option string;
  lemonTag : option string;
  pep : option bool;
  lemonCountry : option string;
  lemonAuthenticatedAt : option Z;
  lemonEmail : option string;
  emailMatchesLemon : option bool;
  identityMatchScore : option Z;
  identityCrossCheckedAt : option Z;
}.

Definition no_profile : ProfileColumns := {|
  firstName := None; lastName := None; birthdate := None; nationality := None; documentType := None; documentNumber := None;
  lemonTag := None; pep := None; lemonCountry := None; lemonAuthenticatedAt := None; lemonEmail := None;
  emailMatchesLemon := None; identityMatchScore := None; identityCrossCheckedAt := None |}.

(** The values of JSON; the fields of an object in order. *)
#[warnings="-register-all"]
Inductive json :=
  | JNull
  | JBool (b : bool)
  | JNumber (n : num)
  | JString (s : string)
  | JArray (vs : list json)
  | JObject (fields : list (string * json)).

Record SelfVerification := {
  sv_userId : Z;
  sv_walletAddress : string;
  sv_verified : bool;
  sv_payload : json;
  sv_createdAt : Z;
  sv_updatedAt : Z;
}.

(** What the verifier of @selfxyz/core answers: [isValidDetails.isValid] as a
    condition, and the disclosed fields ([JNull] when there are none). *)
Record SelfVerifyResult := { isValid : bool; discloseOutput : json }.

Record SelfProof := { attestationId : json; proof : json; publicSignals : json; userContextData : json }.

Inductive profile_event := SelfVerify (body : SelfProof) (r : result SelfVerifyResult).

(** The users, with their profiles under the same ids, and the rows of
    [self_verifications]; [Store.w_self] is what the gates see of these. *)
Record ProfileWorld := {
  pw_main : World;
  pw_columns : gmap Z ProfileColumns;
  pw_self : gmap Z SelfVerification;
  pw_events : list profile_event;
}.

Definition set_pw_main (m : World) (w : ProfileWorld) : ProfileWorld :=
  {| pw_main := m; pw_columns := pw_columns w; pw_self := pw_self w; pw_events := pw_events w |}.
Definition set_columns (t : gmap Z ProfileColumns) (w : ProfileWorld) : ProfileWorld :=
  {| pw_main := pw_main w; pw_columns := t; pw_self := pw_self w; pw_events := pw_events w |}.
Definition log_profile (e : profile_event) (w : ProfileWorld) : ProfileWorld :=
  {| pw_main := pw_main w; pw_columns := pw_columns w; pw_self := pw_self w; pw_events := pw_events w ++ [e] |}.

(** The rows of the table, and what the gates read of them. *)
Definition set_self (i : Z) (r : SelfVerification) (w : ProfileWorld) : ProfileWorld :=
  let side := w_side (pw_main w) in
  let side' := {| self_verified := if sv_verified r then {[ sv_userId r ]} ∪ self_verified side else self_verified side;
                  loan_opened_cursor := loan_opened_cursor side; metrics := metrics side |} in
  {| pw_main := set_side side' (pw_main w); pw_columns := pw_columns w; pw_self := <[i := r]> (pw_self w); pw_events := pw_events w |}.

Class ProfileDatabase := {
  pdb_find_self : ProfileWorld -> Z -> result (option (Z * SelfVerification));
  (** the errors of a write of the profile of a user and of a row of a verification,
      if any; the id of a new row *)
  pdb_columns_error : ProfileWorld -> Z -> ProfileColumns -> option exn;
  pdb_self_error : ProfileWorld -> Z -> SelfVerification -> option exn;
  pdb_new_self_id : ProfileWorld -> Z;
}.

(** A query answers a row of the user, and the unique indexes refuse a second row for
    a user or for a wallet. *)
Class ProfileLaws (PDB : ProfileDatabase) := {
  pfind_self_some : forall w i id r, pdb_find_self w i = Ok (Some (id, r)) -> pw_self w !! id = Some r /\ sv_userId r = i;
  pfind_self_none : forall w i id r, pdb_find_self w i = Ok None -> pw_self w !! id = Some r -> sv_userId r <> i;
  pself_refused : forall w id r id' r', pw_self w !! id' = Some r' -> id' <> id ->
    sv_userId r' = sv_userId r \/ sv_walletAddress r' = sv_walletAddress r -> is_Some (pdb_self_error w id r);
  pnew_self_fresh : forall w, pw_self w !! pdb_new_self_id w = None;
}.

Class ProfileOutside := {
  self_verify : list profile_event -> SelfProof -> result SelfVerifyResult;
  (** [err.issues[0].type] *)
  issue_type : exn -> option string;
  (** what a text column reads back for a value that is not a string *)
  column_text : json -> string;
}.

Section Statements.
  Context `{DB : Database} `{OUT : Outside} `{PDB : ProfileDatabase} `{POUT : ProfileOutside}.

Definition on_users {A} (m : M World A) : M ProfileWorld A := fun w =>
  let '(r, m') := m (pw_main w) in (r, set_pw_main m' w).

(** [repo.findOne({ where: { walletAddress } })], with all the columns. *)
Definition find_profile (wallet : string) : M ProfileWorld (option (User * ProfileColumns)) := fun w =>
  let '(r, m') := find_user (fun u => bool_decide (walletAddress u = wallet)) (pw_main w) in
  (match r with
   | Ok found => Ok ((fun u : User => (u, default no_profile (pw_columns w !! user_id u))) <$> found)
   | Throw e => Throw e
   end, set_pw_main m' w).

(** The transformers of the columns: these are written in lower case. *)
Definition with_email (e : option string) (u : User) : User :=
  let o := onboarding u in
  with_onboarding u {| platform := platform o; email := e; workType := workType o; termsAcceptedAt := termsAcceptedAt o;
    waitlistJoinedAt := waitlistJoinedAt o; earlyAccessNotifiedAt := earlyAccessNotifiedAt o;
    waitlistPriority := waitlistPriority o; createdAt := createdAt o |}.

Definition lowered_user (u : User) : User := with_email (toLowerCase <$> email (onboarding u)) u.

Definition lowered_columns (c : ProfileColumns) : ProfileColumns := {|
  firstName := firstName c; lastName := lastName c; birthdate := birthdate c; nationality := nationality c;
  documentType := documentType c; documentNumber := documentNumber c; lemonTag := toLowerCase <$> lemonTag c; pep := pep c;
  lemonCountry := lemonCountry c; lemonAuthenticatedAt := lemonAuthenticatedAt c; lemonEmail := toLowerCase <$> lemonEmail c;
  emailMatchesLemon := emailMatchesLemon c; identityMatchScore := identityMatchScore c;
  identityCrossCheckedAt := identityCrossCheckedAt c |}.

(** [repo.save(user)]: every column of the entity, in one statement. *)
Definition save_profile (u : User) (c : ProfileColumns) : M ProfileWorld unit := fun w =>
  match pdb_columns_error w (user_id u) (lowered_columns c) with
  | Some e => (Throw e, set_pw_main (poison (pw_main w)) w)
  | None =>
      let '(r, m') := save_user (lowered_user u) (pw_main w) in
      (r, match r with
          | Ok _ => set_columns (<[user_id u := lowered_columns c]> (pw_columns w)) (set_pw_main m' w)
          | Throw _ => set_pw_main m' w
          end)
  end.

Definition find_self_row (i : Z) : M ProfileWorld (option (Z * SelfVerification)) := fun w => (pdb_find_self w i, w).

Definition stored_self (r : SelfVerification) : result SelfVerification :=
  a ← normalizeWallet (sv_walletAddress r);
  Ok {| sv_userId := sv_userId r; sv_walletAddress := a; sv_verified := sv_verified r; sv_payload := sv_payload r;
        sv_createdAt := sv_createdAt r; sv_updatedAt := sv_updatedAt r |}.

(** [selfRepo.save(record)] of a row that was read, or of a new one. *)
Definition save_self (id : option Z) (r : SelfVerification) : M ProfileWorld unit := fun w =>
  let i := default (pdb_new_self_id w) id in
  match stored_self r with
  | Throw e => (Throw e, w)
  | Ok row => match pdb_self_error w i row with
              | Some e => (Throw e, w)
              | None => (Ok tt, set_self i row w)
              end
  end.

Definition verify_proof (b : SelfProof) : M ProfileWorld SelfVerifyResult := fun w =>
  let r := self_verify (pw_events w) b in (r, log_profile (SelfVerify b r) w).
End Statements.

(** ** The profile Lemon tells ([upsertLemonProfile]) *)

Record LemonProfilePayload := {
  lp_walletAddress : string;
  lp_firstName : option string;
  lp_lastName : option string;
  lp_email : option string;
  lp_lemonTag : option string;
  lp_pep : option bool;
  lp_lemonCountry : option string;
}.

Record LemonProfileAnswer := { la_updated : bool; la_identityMatchScore : option Z }.

(** [(s ?? '').trim().toLowerCase()] *)
Definition norm (s : option string) : string := toLowerCase (trim (default "" s)).

(** A text that is kept, or taken from the claim. *)
Definition unless_filled (kept claim : option string) : option string :=
  if negb (filled kept) && filled claim then trim <$> claim else kept.

Definition taken (kept claim : option string) : bool := negb (filled kept) && filled claim.

(** One field of the score. *)
Definition matches (had : bool) (mine claim : option string) (points : Z) : Z :=
  if had && filled claim && bool_decide (norm mine = norm claim) then points else 0.

Definition match_score (u : User) (c : ProfileColumns) (p : LemonProfilePayload) : Z :=
  matches (filled (firstName c)) (firstName c) (lp_firstName p) 40 +
  matches (filled (lastName c)) (lastName c) (lp_lastName p) 40 +
  matches (filled (email (onboarding u))) (email (onboarding u)) (lp_email p) 20.

(** There is something to compare the claims with. *)
Definition compared (u : User) (c : ProfileColumns) : bool :=
  filled (firstName c) || filled (lastName c) || filled (email (onboarding u)).

Definition country_of (claim : string) : string := default (toUpperCase (trim claim)) (toIso2 (Some claim)).

Definition lemon_user (p : LemonProfilePayload) (u : User) : User :=
  with_email (unless_filled (email (onboarding u)) (lp_email p)) u.

Definition lemon_columns (p : LemonProfilePayload) (at_ : Z) (crossChecked : option Z) (u : User) (c : ProfileColumns) : ProfileColumns :=
  let email' := unless_filled (email (onboarding u)) (lp_email p) in
  {| firstName := unless_filled (firstName c) (lp_firstName p);
     lastName := unless_filled (lastName c) (lp_lastName p);
     birthdate := birthdate c; nationality := nationality c; documentType := documentType c; documentNumber := documentNumber c;
     lemonTag := match lp_lemonTag p with Some t => Some (trim t) | None => lemonTag c end;
     pep := match lp_pep p with Some b => Some b | None => pep c end;
     lemonCountry := match lp_lemonCountry p with Some s => Some (country_of s) | None => lemonCountry c end;
     lemonAuthenticatedAt := Some at_;
     lemonEmail := if filled (lp_email p) then trim <$> lp_email p else lemonEmail c;
     emailMatchesLemon := if filled (lp_email p) && filled email' then Some (bool_decide (norm email' = norm (lp_email p)))
                          else emailMatchesLemon c;
     identityMatchScore := if compared u c then Some (match_score u c p) else identityMatchScore c;
     identityCrossCheckedAt := match crossChecked with Some t => Some t | None => identityCrossCheckedAt c end |}.

Definition lemon_updated (p : LemonProfilePayload) (u : User) (c : ProfileColumns) : bool :=
  taken (firstName c) (lp_firstName p) || taken (lastName c) (lp_lastName p) || taken (email (onboarding u)) (lp_email p) ||
  bool_decide (is_Some (lp_lemonTag p)) || bool_decide (is_Some (lp_pep p)) || bool_decide (is_Some (lp_lemonCountry p)) ||
  filled (lp_email p).

(** ** The proof of Self *)

Definition truthy_json (v : json) : bool :=
  match v with
  | JNull => false
  | JBool b => b
  | JNumber n => negb (isNaN n) && negb (neqb n (num_of_Z 0))
  | JString s => negb (bool_decide (s = ""%string))
  | JArray _ | JObject _ => true
  end.

(** The null character. *)
Definition NUL : ascii := chr 0.

Definition without_nul (s : string) : string := of_chars (List.filter (fun c => negb (Ascii.eqb c NUL)) (chars s)).

Fixpoint sanitizeSelfPayload (v : json) : json :=
  match v with
  | JString s => JString (without_nul s)
  | JArray vs => JArray (map sanitizeSelfPayload vs)
  | JObject fields => JObject (map (fun kv => (fst kv, sanitizeSelfPayload (snd kv))) fields)
  | JNull | JBool _ | JNumber _ => v
  end.

Definition lower_hex (c : ascii) : bool := is_digit c || ((97 <=? code c) && (code c <=? 102)).

(** [/^[0-9a-f]{40}$/] *)
Definition address_hex (l : list ascii) : bool := bool_decide (length l = 40%nat) && forallb lower_hex l.

Definition strip_0x (l : list ascii) : list ascii :=
  match l with "0"%char :: "x"%char :: r => r | _ => l end.

Definition with_0x (l : list ascii) : string := of_chars ("0"%char :: "x"%char :: l).

Definition extractWalletFromUserContextData (userContextData : string) : option string :=
  let hex := strip_0x (chars (toLowerCase (trim userContextData))) in
  if address_hex hex then Some (with_0x hex)
  else if (128 <=? length hex)%nat then
    let addrPart := drop 24 (take 64 (drop 64 hex)) in
    if address_hex addrPart then Some (with_0x addrPart) else None
  else None.

(** [o[k]], when it is neither missing nor null. *)
Definition field (k : string) (v : json) : option json :=
  match v with
  | JObject fields => match List.find (fun kv => bool_decide (fst kv = k)) fields with
                      | Some (_, JNull) | None => None
                      | Some (_, x) => Some x
                      end
  | _ => None
  end.

Definition or_field (o o' : option json) : option json := match o with Some _ => o | None => o' end.

Inductive SelfAnswer := SelfFailure (error_code : string) | SelfSuccess (credentialSubject : json).

Record SelfProfile := {
  sp_walletAddress : string;
  sp_userId : option Z;
  sp_verified : bool;
  sp_lastUpdatedAt : option Z;
  sp_createdAt : option Z;
}.

Section Profile.
  Context `{DB : Database} `{OUT : Outside} `{PDB : ProfileDatabase} `{POUT : ProfileOutside}.

Definition upsertLemonProfile (p : LemonProfilePayload) : proc ProfileWorld LemonProfileAnswer :=
  wallet ← of_result (normalizeWallet (lp_walletAddress p));
  found ← await (find_profile wallet);
  match found with
  | None => Raise (NotFoundException "User not found")
  | Some (u, c) =>
      await (at_ ← on_users date_now;
             crossChecked ← (if compared u c then t ← on_users date_now; mret (Some t) else mret None);
             _ ← save_profile (lemon_user p u) (lemon_columns p at_ crossChecked u c);
             mret {| la_updated := lemon_updated p u c;
                     la_identityMatchScore := if compared u c then Some (match_score u c p) else None |})
  end.

Definition set_workType (t : string) (u : User) : User :=
  let o := onboarding u in
  with_onboarding u {| platform := platform o; email := email o; workType := Some t; termsAcceptedAt := termsAcceptedAt o;
    waitlistJoinedAt := waitlistJoinedAt o; earlyAccessNotifiedAt := earlyAccessNotifiedAt o;
    waitlistPriority := waitlistPriority o; createdAt := createdAt o |}.

Definition updateWorkType (walletAddress_ workType_ : string) : proc ProfileWorld unit :=
  wallet ← of_result (normalizeWallet walletAddress_);
  found ← await (find_profile wallet);
  match found with
  | None => Raise (NotFoundException "User not found")
  | Some (u, _) => await (on_users (update_user (user_id u) (set_workType (trim workType_))))
  end.

Definition getStrict (walletAddress_ : string) : proc ProfileWorld string :=
  wallet ← of_result (normalizeWallet walletAddress_);
  found ← await (find_profile wallet);
  match found with
  | None => Raise (NotFoundException "User not found")
  | Some (u, _) => Return (walletAddress u)
  end.

(** What a column takes from a disclosed value. *)
Definition as_text (v : json) : string := match v with JString s => s | _ => column_text v end.

Definition disclosed (v : option json) (kept : option string) : option string :=
  match v with Some v => Some (as_text v) | None => kept end.

Definition identified (payload : json) (c : ProfileColumns) : ProfileColumns :=
  let name := default (JObject []) (field "name" payload) in
  {| firstName := disclosed (field "given_name" name) (firstName c);
     lastName := disclosed (field "family_name" name) (lastName c);
     birthdate := disclosed (or_field (field "date_of_birth" payload) (field "dateOfBirth" payload)) (birthdate c);
     nationality := disclosed (field "nationality" payload) (nationality c);
     documentType := disclosed (or_field (field "document_type" payload) (field "documentType" payload)) (documentType c);
     documentNumber := disclosed (or_field (field "passport_number" payload)
                                    (or_field (field "document_number" payload) (field "documentNumber" payload))) (documentNumber c);
     lemonTag := lemonTag c; pep := pep c; lemonCountry := lemonCountry c; lemonAuthenticatedAt := lemonAuthenticatedAt c;
     lemonEmail := lemonEmail c; emailMatchesLemon := emailMatchesLemon c; identityMatchScore := identityMatchScore c;
     identityCrossCheckedAt := identityCrossCheckedAt c |}.

Definition payload_of (v : json) : json := sanitizeSelfPayload (match v with JNull => JObject [] | _ => v end).

Definition context_wallet (v : json) : option string :=
  extractWalletFromUserContextData (match v with JString s => s | _ => "" end).

Definition verifyFromSelf (body : SelfProof) : proc ProfileWorld SelfAnswer :=
  if negb (truthy_json (proof body) && truthy_json (publicSignals body) && truthy_json (attestationId body) &&
           truthy_json (userContextData body))
  then Return (SelfFailure "MISSING_FIELDS") else
  outcome ← proc_try (fun e => Return (inl (default "VERIFY_EXCEPTION"%string (issue_type e))))
                     (r ← await (verify_proof body); Return (inr r));
  match outcome with
  | inl code => Return (SelfFailure code)
  | inr r =>
      if negb (isValid r) then Return (SelfFailure "VERIFICATION_FAILED") else
      let answer := SelfSuccess (discloseOutput r) in
      match context_wallet (userContextData body) with
      | None => Return answer
      | Some extracted =>
          match normalizeWallet extracted with
          | Throw _ => Return answer
          | Ok wallet =>
              found ← await (find_profile wallet);
              match found with
              | None => Return answer
              | Some (u, c) =>
                  let payload := payload_of (discloseOutput r) in
                  _ ← await (save_profile u (identified payload c));
                  existing ← await (find_self_row (user_id u));
                  _ ← await (now ← on_users date_now;
                             save_self (fst <$> existing)
                               {| sv_userId := user_id u; sv_walletAddress := wallet; sv_verified := true; sv_payload := payload;
                                  sv_createdAt := default now (sv_createdAt ∘ snd <$> existing); sv_updatedAt := now |});
                  Return answer
              end
          end
      end
  end.

Definition getProfile (walletAddress_ : string) : proc ProfileWorld SelfProfile :=
  wallet ← of_result (normalizeWallet walletAddress_);
  found ← await (find_profile wallet);
  match found with
  | None => Return {| sp_walletAddress := wallet; sp_userId := None; sp_verified := false; sp_lastUpdatedAt := None; sp_createdAt := None |}
  | Some (u, _) =>
      record ← await (find_self_row (user_id u));
      Return {| sp_walletAddress := wallet; sp_userId := Some (user_id u);
                sp_verified := match record with Some (_, r) => sv_verified r | None => false end;
                sp_lastUpdatedAt := sv_updatedAt ∘ snd <$> record; sp_createdAt := sv_createdAt ∘ snd <$> record |}
  end.
End Profile.
