(* ===== verification/ProfileProps.v ===== *)
(** * The profile: what is written, and who is verified

    Countries, wallets in a proof, cleaned payloads; what the profile of Lemon writes;
    and that under any interleaving a user counts as verified only after a proof for
    the wallet of the user was accepted. *)

From stdpp Require Import base tactics list gmap strings numbers.
From Stdlib Require Import Lia ZArith Ascii.
From S2P Require Import Prelude JsString JsNum Strkey Entities Gateway Store Async Kyc LoanVerification EarlyAccess Profile.

Local Open Scope Z_scope.

(** ** Countries *)

Lemma upper_char_facts c : is_space (upper_char c) = is_space c /\ upper_char (upper_char c) = upper_char c.
Proof.
  pose proof (all_ascii (fun c => Bool.eqb (is_space (upper_char c)) (is_space c) &&
    Ascii.eqb (upper_char (upper_char c)) (upper_char c)) ltac:(vm_compute; reflexivity) c) as E.
  cbn beta in E. apply andb_true_iff in E as [E1 E2]. split; [by apply eqb_prop|by apply Ascii.eqb_eq].
Qed.

Lemma drop_while_map p (f : ascii -> ascii) l : (forall c, p (f c) = p c) -> drop_while p (map f l) = map f (drop_while p l).
Proof. intros Hf. induction l as [|c l IH]; cbn; [done|]. rewrite Hf. by destruct (p c). Qed.

Lemma drop_while_head p l : match drop_while p l with [] => True | c :: _ => p c = false end.
Proof. induction l as [|c l IH]; cbn; [done|]. by destruct (p c) eqn:E. Qed.

Lemma drop_while_suffix p l : exists l', l = l' ++ drop_while p l.
Proof. induction l as [|c l [l' IH]]; cbn; [by exists []|]. destruct (p c); [exists (c :: l'); cbn; by f_equal|by exists []]. Qed.

Lemma drop_while_fixed p l : match l with [] => True | c :: _ => p c = false end -> drop_while p l = l.
Proof. destruct l as [|c l]; [done|]. apply drop_while_none. Qed.

Lemma trim_chars_map (f : ascii -> ascii) l : (forall c, is_space (f c) = is_space c) -> trim_chars (map f l) = map f (trim_chars l).
Proof. intros Hf. unfold trim_chars. by rewrite drop_while_map, <- map_rev, drop_while_map, map_rev by done. Qed.

Lemma trim_chars_idemp l : trim_chars (trim_chars l) = trim_chars l.
Proof.
  unfold trim_chars. set (m := drop_while is_space l). pose proof (drop_while_head is_space l) as Hm. fold m in Hm.
  set (k := drop_while is_space (rev m)). pose proof (drop_while_head is_space (rev m)) as Hk. fold k in Hk.
  destruct (drop_while_suffix is_space (rev m)) as [l' Hl]. fold k in Hl.
  assert (E : drop_while is_space (rev k) = rev k).
  { apply drop_while_fixed. destruct (rev k) as [|c r] eqn:Er; [done|].
    apply (f_equal (@rev ascii)) in Hl. rewrite rev_involutive, rev_app_distr, Er in Hl. by rewrite Hl in Hm. }
  rewrite E, rev_involutive. f_equal. by apply drop_while_fixed.
Qed.

(** A normalised country code has two characters in upper case, and is itself normal,
    whatever case and spaces the code came with. *)
Lemma toIso2_normal code t : toIso2 code = Some t -> String.length t = 2%nat /\ toIso2 (Some t) = Some t.
Proof.
  unfold toIso2. destruct code as [s|]; [|done]. cbn zeta. set (u := toUpperCase (trim s)).
  assert (Hu : toUpperCase (trim u) = u).
  { unfold u, toUpperCase, trim. rewrite !chars_of_chars, trim_chars_map by apply upper_char_facts.
    rewrite trim_chars_idemp, map_map. f_equal. apply map_ext. intros c. apply upper_char_facts. }
  destruct (String.length u) as [|[|[|[|n]]]] eqn:El; [done|done| | |done].
  - intros [= <-]. by rewrite Hu, El.
  - unfold alpha2_of. destruct (List.find _ _) as [[a b]|] eqn:Ef; [|done]. intros [= <-]. cbn [snd].
    apply find_some in Ef as [Hin _]. clear El Hu. repeat (destruct Hin as [[= <- <-]|Hin]; [by split|]). done.
Qed.

(** Country codes are compared after normalisation: equal codes in any case, with spaces, in two
    or three letters, are equal, the comparison is symmetric, and it says nothing about a code it does not know. *)
Theorem countries_compared a b :
  countriesEqual a b = countriesEqual b a /\
  (countriesEqual a b = Some true <-> exists t, toIso2 a = Some t /\ toIso2 b = Some t) /\
  (countriesEqual a b = None <-> toIso2 a = None \/ toIso2 b = None) /\
  (forall t, toIso2 a = Some t -> countriesEqual a (Some t) = Some true /\ String.length t = 2%nat).
Proof.
  unfold countriesEqual. split_and!.
  - destruct (toIso2 a), (toIso2 b); [|done..]. f_equal. apply bool_decide_ext. split; congruence.
  - destruct (toIso2 a), (toIso2 b); try naive_solver. split; [intros [= H]; apply bool_decide_eq_true in H; naive_solver|].
    intros (t & [= ->] & [= ->]). by rewrite bool_decide_true.
  - destruct (toIso2 a), (toIso2 b); naive_solver.
  - intros t Ht. destruct (toIso2_normal _ _ Ht) as [Hl ->]. rewrite Ht, bool_decide_true; done.
Qed.

(** ** Values of JSON *)

Section JsonInduction.
  Context (P : json -> Prop).
  Hypotheses (HNull : P JNull) (HBool : forall b, P (JBool b)) (HNumber : forall n, P (JNumber n)) (HString : forall s, P (JString s))
    (HArray : forall vs, Forall P vs -> P (JArray vs)) (HObject : forall fields, Forall (fun kv => P (snd kv)) fields -> P (JObject fields)).

Fixpoint json_nested (v : json) : P v :=
  match v with
  | JNull => HNull
  | JBool b => HBool b
  | JNumber n => HNumber n
  | JString s => HString s
  | JArray vs => HArray vs ((fix go (l : list json) : Forall P l :=
      match l with [] => Forall_nil_2 _ | x :: l' => Forall_cons_2 _ _ _ (json_nested x) (go l') end) vs)
  | JObject fields => HObject fields ((fix go (l : list (string * json)) : Forall (fun kv => P (snd kv)) l :=
      match l with [] => Forall_nil_2 _ | x :: l' => Forall_cons_2 _ _ _ (json_nested (snd x)) (go l') end) fields)
  end.
End JsonInduction.

(** The null character is in no string of the value; the names of fields are not looked at. *)
Fixpoint clean_json (v : json) : bool :=
  match v with
  | JString s => forallb (fun c => negb (Ascii.eqb c NUL)) (chars s)
  | JArray vs => forallb clean_json vs
  | JObject fields => forallb (fun kv => clean_json (snd kv)) fields
  | JNull | JBool _ | JNumber _ => true
  end.

Lemma filter_forallb {A} (p : A -> bool) (l : list A) : forallb p (List.filter p l) = true.
Proof. apply forallb_forall. intros x Hx. by apply filter_In in Hx as [_ ?]. Qed.

Lemma filter_keeps_all {A} (p : A -> bool) (l : list A) : forallb p l = true -> List.filter p l = l.
Proof. induction l as [|x l IH]; cbn; [done|]. intros [-> H]%andb_true_iff. by rewrite IH. Qed.

Lemma forallb_map_Forall {A B} (f : A -> B) (p : B -> bool) (l : list A) : Forall (fun x => p (f x) = true) l -> forallb p (map f l) = true.
Proof. induction 1 as [|x l Hx _ IH]; cbn; [done|]. by rewrite Hx. Qed.

Lemma map_id_Forall {A} (f : A -> A) (p : A -> bool) (l : list A) :
  Forall (fun x => p x = true -> f x = x) l -> forallb p l = true -> map f l = l.
Proof. induction 1 as [|x l Hx _ IH]; cbn; [done|]. intros [H1 H2]%andb_true_iff. by rewrite Hx, IH. Qed.

(** The cleaned payload has no null character in any string, whatever the nesting, and a
    payload without them is left as it is; so cleaning twice is cleaning once. *)
Theorem sanitize_correct v :
  clean_json (sanitizeSelfPayload v) = true /\ (clean_json v = true -> sanitizeSelfPayload v = v).
Proof.
  split.
  - induction v as [|b|n|s|vs IH|fields IH] using json_nested; cbn; [done..| | |].
    + unfold without_nul. rewrite chars_of_chars. apply filter_forallb.
    + by apply forallb_map_Forall.
    + by apply forallb_map_Forall.
  - induction v as [|b|n|s|vs IH|fields IH] using json_nested; cbn; [done..| | |]; intros H.
    + unfold without_nul. rewrite filter_keeps_all by done. by rewrite of_chars_chars.
    + f_equal. by eapply map_id_Forall.
    + f_equal. eapply (map_id_Forall _ (fun kv => clean_json (snd kv))); [|done].
      eapply list.Forall_impl; [exact IH|]. intros [k x] Hx Hc. cbn in *. by rewrite Hx.
Qed.

(** ** The wallet of a proof *)

Lemma lower_hex_facts c : lower_hex c = true -> is_hex c = true /\ lower_char c = c /\ is_space c = false.
Proof.
  pose proof (all_ascii (fun c => implb (lower_hex c) (is_hex c && Ascii.eqb (lower_char c) c && negb (is_space c)))
    ltac:(vm_compute; reflexivity) c) as E.
  cbn beta in E. intros H. rewrite H in E. cbn [implb] in E. bool_to_prop. split_and!; [done|by apply Ascii.eqb_eq|done].
Qed.

Lemma address_hex_evm l : address_hex l = true -> EVM_WALLET_ADDRESS_PATTERN (with_0x l) = true /\ normalizeWallet (with_0x l) = Ok (with_0x l).
Proof.
  unfold address_hex. intros [Hl Hx]%andb_true_iff. rewrite forallb_forall in Hx.
  assert (E : EVM_WALLET_ADDRESS_PATTERN (with_0x l) = true).
  { unfold EVM_WALLET_ADDRESS_PATTERN, with_0x. rewrite chars_of_chars, Hl. cbn [andb]. apply forallb_forall.
    intros c Hc. by apply lower_hex_facts, Hx. }
  assert (Hs : Forall (fun c => is_space c = false) ("0"%char :: "x"%char :: l)).
  { repeat (constructor; [done|]). apply List.Forall_forall. intros c Hc. by apply lower_hex_facts, Hx. }
  split; [exact E|]. unfold normalizeWallet. rewrite (trim_of_chars _ Hs : trim (with_0x l) = with_0x l), E. f_equal.
  assert (Hm : map lower_char l = l).
  { rewrite <- (map_id l) at 2. apply map_ext_in. intros c Hc. by apply lower_hex_facts, Hx. }
  unfold with_0x, toLowerCase. rewrite chars_of_chars. cbn [map]. by rewrite Hm.
Qed.

(** Whatever a proof carries, the wallet found in it is a lower-case address of an
    EVM chain, which normalisation leaves as it is. *)
Lemma extracted_normal s w : extractWalletFromUserContextData s = Some w ->
  EVM_WALLET_ADDRESS_PATTERN w = true /\ normalizeWallet w = Ok w.
Proof.
  unfold extractWalletFromUserContextData. cbn zeta. repeat case_match; intros [= <-]; by apply address_hex_evm.
Qed.

(** ** The profile of Lemon *)

Section LemonProfile.
  Context `{DB : Database} `{OUT : Outside} `{PDB : ProfileDatabase} `{POUT : ProfileOutside}.
  Context {LAWS : DatabaseLaws DB}.

Definition profile_of (w : ProfileWorld) (i : Z) : ProfileColumns := default no_profile (pw_columns w !! i).

(** The tables as they were. *)
Definition same_profiles (w w' : ProfileWorld) : Prop :=
  w_users (pw_main w') = w_users (pw_main w) /\ w_loans (pw_main w') = w_loans (pw_main w) /\
  w_side (pw_main w') = w_side (pw_main w) /\ w_tx (pw_main w') = w_tx (pw_main w) /\
  pw_columns w' = pw_columns w /\ pw_self w' = pw_self w /\ pw_events w' = pw_events w.

Lemma find_profile_run wallet w : w_tx (pw_main w) = NoTx -> tables_ok (pw_main w) ->
  (exists e, find_profile wallet w = (Throw e, w)) \/
  (find_profile wallet w = (Ok None, w) /\ forall i u, w_users (pw_main w) !! i = Some u -> walletAddress u <> wallet) \/
  (exists u, find_profile wallet w = (Ok (Some (u, profile_of w (user_id u))), w) /\
     w_users (pw_main w) !! user_id u = Some u /\ walletAddress u = wallet).
Proof.
  intros Htx [Hids _]. unfold find_profile, find_user. rewrite query_NoTx by done.
  assert (Ew : set_pw_main (pw_main w) w = w) by (by destruct w). rewrite Ew.
  destruct (db_find_user _ _) as [[u|]|e] eqn:E; [right; right; exists u|right; left|left; by exists e].
  - destruct (find_user_some _ _ _ E) as (i & Hi & Hp%bool_decide_eq_true). pose proof (Hids _ _ Hi) as Hu. cbn in Hu.
    split_and!; [done|by rewrite Hu|done].
  - split; [done|]. intros i u Hu Hw. apply (find_user_none _ _ _ _ E) in Hu. by rewrite bool_decide_true in Hu.
Qed.

(** A write of a user and its profile: refused, or both are written. *)
Lemma save_profile_run u c w : w_tx (pw_main w) = NoTx ->
  let '(r, w') := save_profile u c w in
  (exists e, r = Throw e /\ w' = w) \/
  (r = Ok tt /\ w' = set_columns (<[user_id u := lowered_columns c]> (pw_columns w))
     (set_pw_main (set_users (<[user_id u := stored_user (lowered_user u)]> (w_users (pw_main w))) (pw_main w)) w)).
Proof.
  intros Htx. unfold save_profile, save_user. rewrite poison_NoTx, statement_NoTx by done.
  assert (Ew : set_pw_main (pw_main w) w = w) by (by destruct w). rewrite Ew.
  destruct (pdb_columns_error _ _ _) as [e|]; [left; by exists e|].
  destruct (db_user_error _ _) as [e|]; [left; exists e; by rewrite Ew|by right].
Qed.

(** A look at the clock changes no table. *)
Lemma date_now_profiles w : exists t w', on_users date_now w = (Ok t, w') /\ same_profiles w w'.
Proof. unfold on_users, date_now, outside. eexists _, _. split; [reflexivity|]. by destruct w as [[]]. Qed.

Lemma same_profiles_trans w1 w2 w3 : same_profiles w1 w2 -> same_profiles w2 w3 -> same_profiles w1 w3.
Proof. unfold same_profiles. intuition congruence. Qed.

(** The step that writes: the clock, once or twice, and the save. *)
Lemma lemon_step_run p u c w : w_tx (pw_main w) = NoTx ->
  let '(r, w') := (at_ ← on_users date_now;
                   crossChecked ← (if compared u c then t ← on_users date_now; mret (Some t) else mret None);
                   _ ← save_profile (lemon_user p u) (lemon_columns p at_ crossChecked u c);
                   mret {| la_updated := lemon_updated p u c;
                           la_identityMatchScore := if compared u c then Some (match_score u c p) else None |}) w in
  (exists e, r = Throw e /\ same_profiles w w') \/
  (r = Ok {| la_updated := lemon_updated p u c;
             la_identityMatchScore := if compared u c then Some (match_score u c p) else None |} /\
   exists t cross, w_users (pw_main w') = <[user_id u := stored_user (lowered_user (lemon_user p u))]> (w_users (pw_main w)) /\
     pw_columns w' = <[user_id u := lowered_columns (lemon_columns p t cross u c)]> (pw_columns w) /\
     pw_self w' = pw_self w /\ w_side (pw_main w') = w_side (pw_main w) /\ w_loans (pw_main w') = w_loans (pw_main w)).
Proof.
  intros Htx. destruct (date_now_profiles w) as (t & w1 & E1 & S1).
  assert (Hc : exists cross w2, (if compared u c then t ← on_users date_now; mret (Some t) else mret None) w1 = (Ok cross, w2) /\ same_profiles w1 w2).
  { destruct (compared u c); [|by exists None, w1]. destruct (date_now_profiles w1) as (t2 & w2 & E2 & S2).
    exists (Some t2), w2. split; [|done]. unfold mbind, M_bind. by rewrite E2. }
  destruct Hc as (cross & w2 & E2 & S2). unfold mbind at 1, M_bind at 1. rewrite E1. unfold mbind at 1, M_bind at 1. rewrite E2.
  assert (S : same_profiles w w2) by (by eapply same_profiles_trans).
  assert (Htx2 : w_tx (pw_main w2) = NoTx) by (destruct S as (_ & _ & _ & -> & _); done).
  unfold mbind, M_bind. pose proof (save_profile_run (lemon_user p u) (lemon_columns p t cross u c) w2 Htx2) as Hsave.
  destruct (save_profile _ _ w2) as [r w3]. destruct Hsave as [(e & -> & ->)|[-> ->]]; [left; eauto|right; split; [done|]].
  destruct S as (Hu & Hl & Hsd & _ & Hco & Hse & _). exists t, cross. cbn. by rewrite Hu, Hco, Hse, Hsd, Hl.
Qed.

(** What became of a column: kept when it was filled, otherwise the claim. *)
Definition kept_or_claimed (lower : bool) (old claim new : option string) : Prop :=
  let f := if lower then fmap toLowerCase else id in
  new = f (if filled old then old else if filled claim then trim <$> claim else old).

Lemma unless_filled_spec old claim : unless_filled old claim = if filled old then old else if filled claim then trim <$> claim else old.
Proof. unfold unless_filled. by destruct (filled old), (filled claim). Qed.

Lemma match_score_values u c p : In (match_score u c p) [0; 20; 40; 60; 80; 100].
Proof. unfold match_score, matches. repeat case_match; cbn; tauto. Qed.

(** What the profile of Lemon writes, on every branch: nothing for an address that is none, a
    wallet without a user, or a refused write; otherwise the row of the user of that wallet, and no other:
    a name or an e-mail that is filled is kept (up to case), an empty one takes the claim as
    it comes; nothing else of the user changes; and the score is 40 for each name and 20 for
    the e-mail that was there before and equals the claim, answered and stored, or none when
    nothing was there to compare. *)
Theorem lemon_profile_correct p w : w_tx (pw_main w) = NoTx -> tables_ok (pw_main w) ->
  let '(r, w') := run (upsertLemonProfile p) w in
  (exists e, r = Throw e /\ same_profiles w w') \/
  exists wallet u u' c',
    normalizeWallet (lp_walletAddress p) = Ok wallet /\ w_users (pw_main w) !! user_id u = Some u /\ walletAddress u = wallet /\
    w_users (pw_main w') = <[user_id u := u']> (w_users (pw_main w)) /\ pw_columns w' = <[user_id u := c']> (pw_columns w) /\
    pw_self w' = pw_self w /\
    user_id u' = user_id u /\ walletAddress u' = walletAddress u /\ credit u' = credit (stored_user u) /\
    phone_columns u' = phone_columns u /\ kyc u' = kyc u /\
    kept_or_claimed true (email (onboarding u)) (lp_email p) (email (onboarding u')) /\
    let c := profile_of w (user_id u) in
    kept_or_claimed false (firstName c) (lp_firstName p) (firstName c') /\
    kept_or_claimed false (lastName c) (lp_lastName p) (lastName c') /\
    documentNumber c' = documentNumber c /\ birthdate c' = birthdate c /\ nationality c' = nationality c /\
    exists updated score, r = Ok {| la_updated := updated; la_identityMatchScore := score |} /\
      match score with
      | Some s => compared u c = true /\ s = match_score u c p /\ In s [0; 20; 40; 60; 80; 100] /\ identityMatchScore c' = Some s
      | None => compared u c = false /\ identityMatchScore c' = identityMatchScore c
      end.
Proof.
  intros Htx Hids. unfold upsertLemonProfile. destruct (normalizeWallet (lp_walletAddress p)) as [wallet|e] eqn:En.
  2: { cbn. left. exists e. by destruct w as [[]]. }
  cbn [of_result]. rewrite return_bind, run_await_bind.
  destruct (find_profile_run wallet w Htx Hids) as [(e & ->)|[[-> _]|(u & -> & Hu & Hw)]].
  - left. exists e. by destruct w as [[]].
  - left. eexists. split; [reflexivity|]. by destruct w as [[]].
  - rewrite run_await. set (c := profile_of w (user_id u)).
    pose proof (lemon_step_run p u c w Htx) as Hs. case_match. destruct Hs as [?|(-> & t & cross & Hus & Hco & Hse & _)]; [by left|right].
    eexists wallet, u, _, _. split_and!; try done; cbn -[fmap option_fmap]; try by rewrite unless_filled_spec.
    eexists _, _. split; [reflexivity|]. fold c. destruct (compared u c); cbn -[In]; [|by split].
    split_and!; [done..|apply match_score_values|done].
Qed.
End LemonProfile.

(** ** Who is verified *)

Section Verified.
  Context `{DB : Database} `{OUT : Outside} `{PDB : ProfileDatabase} `{POUT : ProfileOutside}.
  Context {LAWS : DatabaseLaws DB} {PLAWS : ProfileLaws PDB}.

(** The verifier accepted a proof whose context carries the wallet. *)
Definition proved (es : list profile_event) (wallet : string) : Prop :=
  exists body r, SelfVerify body (Ok r) ∈ es /\ isValid r = true /\ context_wallet (userContextData body) = Some wallet.

(** The user of the row has its wallet, which was proved. *)
Definition row_ok (w : ProfileWorld) (r : SelfVerification) : Prop :=
  proved (pw_events w) (sv_walletAddress r) /\
  exists u, w_users (pw_main w) !! sv_userId r = Some u /\ walletAddress u = sv_walletAddress r.

Record verified_ok (w : ProfileWorld) : Prop := {
  vo_tx : w_tx (pw_main w) = NoTx;
  vo_ids : tables_ok (pw_main w);
  vo_rows : map_Forall (fun _ r => row_ok w r) (pw_self w);
  vo_unique : forall i j r r', pw_self w !! i = Some r -> pw_self w !! j = Some r' ->
    sv_userId r = sv_userId r' \/ sv_walletAddress r = sv_walletAddress r' -> i = j;
  vo_gate : forall i, i ∈ w_self (pw_main w) -> exists id r, pw_self w !! id = Some r /\ sv_userId r = i;
}.

(** What no request takes back. *)
Record later_profiles (w w' : ProfileWorld) : Prop := {
  lp_events : pw_events w `prefix_of` pw_events w';
  lp_users : forall i u, w_users (pw_main w) !! i = Some u ->
    exists u', w_users (pw_main w') !! i = Some u' /\ walletAddress u' = walletAddress u;
  lp_rows : forall i r, pw_self w !! i = Some r -> exists r', pw_self w' !! i = Some r' /\ sv_userId r' = sv_userId r;
}.

#[export] Instance later_profiles_refl : Reflexive later_profiles.
Proof. intros w. constructor; eauto. Qed.

#[export] Instance later_profiles_trans : Transitive later_profiles.
Proof.
  intros w1 w2 w3 [E1 U1 R1] [E2 U2 R2]. constructor; [by etrans|..].
  - intros i u Hu. destruct (U1 _ _ Hu) as (u' & Hu' & E). destruct (U2 _ _ Hu') as (u'' & ? & E'). exists u''. split; congruence.
  - intros i r Hr. destruct (R1 _ _ Hr) as (r' & Hr' & E). destruct (R2 _ _ Hr') as (r'' & ? & E'). exists r''. split; congruence.
Qed.

Lemma proved_later w w' a : later_profiles w w' -> proved (pw_events w) a -> proved (pw_events w') a.
Proof. intros [[l ->] _ _] (b & r & Hin & H). exists b, r. split; [|done]. apply elem_of_app. by left. Qed.

Lemma row_ok_later w w' r : later_profiles w w' -> row_ok w r -> row_ok w' r.
Proof.
  intros Hl [Hp (u & Hu & Hw)]. split; [by eapply proved_later|]. destruct (lp_users _ _ Hl _ _ Hu) as (u' & Hu' & E).
  exists u'. split; [done|congruence].
Qed.

(** A step that leaves the table of verifications. *)
Lemma step_users w w' : verified_ok w -> later_profiles w w' -> pw_self w' = pw_self w -> w_side (pw_main w') = w_side (pw_main w) ->
  w_tx (pw_main w') = NoTx -> tables_ok (pw_main w') -> verified_ok w'.
Proof.
  intros [Ht Hi Hr Hu Hg] Hl Es Ed Ht' Hi'. constructor; [done..| |by rewrite Es|].
  - rewrite Es. eapply map_Forall_impl; [exact Hr|]. intros i r. by apply row_ok_later.
  - intros i. unfold w_self. rewrite Ed, Es. apply Hg.
Qed.

Lemma same_profiles_later w w' : verified_ok w -> same_profiles w w' -> verified_ok w' /\ later_profiles w w'.
Proof.
  intros Hok (Eu & Elo & Esd & Etx & Eco & Ese & Eev).
  assert (Hl : later_profiles w w') by (constructor; rewrite ?Eev, ?Eu, ?Ese; eauto). split; [|done].
  apply (step_users w); [done..|by rewrite Etx, (vo_tx _ Hok)|].
  unfold tables_ok. rewrite Eu, Elo. apply (vo_ids _ Hok).
Qed.

(** A write of a user and its profile that keeps the wallet. *)
Lemma save_profile_ok u c w u0 : verified_ok w -> w_users (pw_main w) !! user_id u = Some u0 -> walletAddress u = walletAddress u0 ->
  verified_ok (snd (save_profile u c w)) /\ later_profiles w (snd (save_profile u c w)).
Proof.
  intros Hok Hu Hw. pose proof (save_profile_run u c w (vo_tx _ Hok)) as H.
  destruct (save_profile u c w) as [r w']. cbn [snd]. destruct H as [(e & _ & ->)|[_ ->]]; [by split|].
  set (w1 := set_columns _ _).
  assert (Hl : later_profiles w w1).
  { constructor; cbn; [done| |eauto]. intros i u1 Hu1. destruct (decide (i = user_id u)) as [->|Hne].
    - eexists. rewrite lookup_insert_eq. split; [done|]. cbn. congruence.
    - exists u1. by rewrite lookup_insert_ne. }
  split; [|done]. apply (step_users w); [done..|exact (vo_tx _ Hok)|]. destruct (vo_ids _ Hok) as [H1 H2]. split; [|done].
  cbn. apply map_Forall_insert_2; done.
Qed.

(** What a request keeps, and what it tells for good. *)
Definition profile_safe {A} (Q : ProfileWorld -> A -> Prop) (w0 : ProfileWorld) (p : proc ProfileWorld A) : Prop :=
  since verified_ok later_profiles (fun w r => match r with Ok a => Q w a | Throw _ => True end) w0 p.

Lemma profile_bind {A B} (P : ProfileWorld -> A -> Prop) (Q : ProfileWorld -> B -> Prop) w0 (k : A -> proc ProfileWorld B) p :
  profile_safe P w0 p -> (forall w a, later_profiles w0 w -> P w a -> profile_safe Q w (k a)) -> profile_safe Q w0 (p ≫= k).
Proof.
  intros Hp Hk. apply (since_bind verified_ok later_profiles). eapply (since_mono verified_ok later_profiles); [|exact Hp].
  intros w [a|e] Hw Ha; [by apply Hk|done].
Qed.

Lemma profile_await {A} (m : M ProfileWorld A) (Q : ProfileWorld -> A -> Prop) w0 :
  (forall w, verified_ok w -> later_profiles w0 w -> verified_ok (snd (m w)) /\ later_profiles w (snd (m w)) /\
     forall a, fst (m w) = Ok a -> Q (snd (m w)) a) -> profile_safe Q w0 (await m).
Proof.
  intros H. apply (since_await verified_ok later_profiles). intros w Hw Hl. destruct (H w Hw Hl) as (? & ? & HQ).
  split_and!; [done..|]. destruct (fst (m w)); [by apply HQ|done].
Qed.

(** The user a request works on. *)
Definition user_known (w : ProfileWorld) (wallet : string) (i : Z) : Prop :=
  exists u, w_users (pw_main w) !! i = Some u /\ walletAddress u = wallet.

Lemma user_known_later w w' wallet i : later_profiles w w' -> user_known w wallet i -> user_known w' wallet i.
Proof. intros Hl (u & Hu & Hw). destruct (lp_users _ _ Hl _ _ Hu) as (u' & ? & E). exists u'. split; congruence. Qed.

Lemma profile_find wallet w0 :
  profile_safe (fun w r => forall u c, r = Some (u, c) -> user_known w wallet (user_id u) /\ walletAddress u = wallet) w0
    (await (find_profile wallet)).
Proof.
  apply profile_await. intros w Hw _.
  destruct (find_profile_run wallet w (vo_tx _ Hw) (vo_ids _ Hw)) as [(e & ->)|[[-> _]|(u & -> & Hu & Hwa)]]; cbn.
  - by split_and!.
  - split_and!; [done..|]. by intros a [= <-].
  - split_and!; [done..|]. intros a [= <-] u' c' [= <- <-]. split; [by exists u|done].
Qed.

Lemma profile_result {A} (r : result A) w0 : profile_safe (fun _ a => r = Ok a) w0 (of_result r).
Proof. by destruct r. Qed.

Lemma profile_save u c wallet w0 : user_known w0 wallet (user_id u) -> walletAddress u = wallet ->
  profile_safe (fun w _ => user_known w wallet (user_id u)) w0 (await (save_profile u c)).
Proof.
  intros Hk Hw. apply profile_await. intros w Hok Hl. apply (user_known_later _ _ _ _ Hl) in Hk as (u0 & Hu0 & Hw0).
  destruct (save_profile_ok u c w u0) as [Hok' Hl']; [done..|congruence|]. split_and!; [done..|].
  intros _ _. eapply user_known_later; [exact Hl'|]. by exists u0.
Qed.

(** A row that may be written: of a user whose wallet was proved, under the id of the
    user's row or as a new row. *)
Lemma save_self_ok id r w : verified_ok w -> proved (pw_events w) (sv_walletAddress r) ->
  normalizeWallet (sv_walletAddress r) = Ok (sv_walletAddress r) -> user_known w (sv_walletAddress r) (sv_userId r) -> sv_verified r = true ->
  (forall i, id = Some i -> exists r0, pw_self w !! i = Some r0 /\ sv_userId r0 = sv_userId r) ->
  verified_ok (snd (save_self id r w)) /\ later_profiles w (snd (save_self id r w)).
Proof.
  intros Hok Hp Hn Hu Hv Hid. unfold save_self, stored_self. rewrite Hn. cbn [mbind result_bind].
  set (i := default _ id). set (row := {| sv_userId := sv_userId r |}).
  assert (Hi : forall r0, pw_self w !! i = Some r0 -> sv_userId r0 = sv_userId r).
  { intros r0 Hr0. unfold i in Hr0. destruct id as [j|]; [destruct (Hid j) as (r1 & H1 & ?); [done|cbn in Hr0; congruence]|].
    cbn in Hr0. by rewrite pnew_self_fresh in Hr0. }
  destruct (pdb_self_error w i row) as [e|] eqn:Ee; [by split|]. cbn [snd].
  assert (Hfree : forall j r', pw_self w !! j = Some r' -> j <> i -> sv_userId r' <> sv_userId r /\ sv_walletAddress r' <> sv_walletAddress r).
  { intros j r' Hj Hne. split; intros E; destruct (pself_refused w i row j r' Hj Hne) as [? Hx]; auto; rewrite Hx in Ee; done. }
  assert (Hl : later_profiles w (set_self i row w)).
  { constructor; cbn; [done|eauto|]. intros j r' Hj. destruct (decide (j = i)) as [->|Hne].
    - exists row. rewrite lookup_insert_eq. split; [done|]. cbn. symmetry. by apply Hi.
    - exists r'. by rewrite lookup_insert_ne. }
  split; [|done]. destruct Hok as [Ht Hids Hr Hun Hg]. constructor; cbn; [done..| | |].
  - apply map_Forall_insert_2.
    + split; [done|]. exact Hu.
    + eapply map_Forall_impl; [exact Hr|]. intros j r'. by apply row_ok_later.
  - intros j k r1 r2. destruct (decide (j = i)) as [->|Hj], (decide (k = i)) as [->|Hk];
      rewrite ?lookup_insert_eq, ?lookup_insert_ne by done; [done|..].
    + intros [= <-] H2 E. destruct (Hfree _ _ H2 Hk). cbn in E. intuition congruence.
    + intros H1 [= <-] E. destruct (Hfree _ _ H1 Hj). cbn in E. intuition congruence.
    + apply Hun.
  - intros j. unfold w_self. cbn. rewrite Hv. rewrite elem_of_union, elem_of_singleton. intros [->|Hj].
    + exists i, row. by rewrite lookup_insert_eq.
    + destruct (Hg j Hj) as (k & r' & Hk & E). destruct (decide (k = i)) as [->|Hne].
      * exists i, row. rewrite lookup_insert_eq. split; [done|]. cbn. rewrite <- E. symmetry. by apply Hi.
      * exists k, r'. by rewrite lookup_insert_ne.
Qed.

Lemma date_now_later w : verified_ok w ->
  exists t w', on_users date_now w = (Ok t, w') /\ verified_ok w' /\ later_profiles w w'.
Proof. intros Hok. destruct (date_now_profiles w) as (t & w' & E & S). exists t, w'. split; [done|by apply same_profiles_later]. Qed.

Lemma verifyFromSelf_safe body w0 : profile_safe (fun _ _ => True) w0 (verifyFromSelf body).
Proof.
  unfold verifyFromSelf. destruct (negb _); [done|].
  eapply (profile_bind (fun w (o : string + SelfVerifyResult) => forall r, o = inr r -> SelfVerify body (Ok r) ∈ pw_events w)).
  { apply (since_try verified_ok later_profiles). eapply (since_bind verified_ok later_profiles), (since_await verified_ok later_profiles).
    intros w Hok _. cbn.
    assert (Hl : later_profiles w (log_profile (SelfVerify body (self_verify (pw_events w) body)) w)).
    { constructor; cbn; [by apply prefix_app_r|eauto..]. }
    split_and!; [by apply (step_users w); try done; apply Hok|done|].
    destruct (self_verify (pw_events w) body) as [r|e]; cbn; [|done].
    intros r' [= <-]. apply elem_of_app. right. by apply list_elem_of_singleton. }
  intros w1 [code|r] _ Hin; [done|]. specialize (Hin r eq_refl). destruct (isValid r) eqn:Ev; cbn [negb]; [|done]. cbn zeta.
  destruct (context_wallet (userContextData body)) as [extracted|] eqn:Ec; [|done].
  assert (Hn : normalizeWallet extracted = Ok extracted) by (eapply extracted_normal; exact Ec). rewrite Hn.
  eapply profile_bind; [apply profile_find|]. intros w2 [[u c]|] Hl2 Hf; [|done]. destruct (Hf u c eq_refl) as [Hk Hw].
  eapply profile_bind; [by apply (profile_save _ _ extracted)|]. intros w3 [] Hl3 Hk3.
  eapply (profile_bind (fun w (e : option (Z * SelfVerification)) => forall i r0, e = Some (i, r0) -> exists r1, pw_self w !! i = Some r1 /\ sv_userId r1 = user_id u)).
  { apply profile_await. intros w Hok _. unfold find_self_row. cbn. split_and!; [done..|]. intros a Ha i r0 ->.
    destruct (pfind_self_some _ _ _ _ Ha) as [? ?]. by exists r0. }
  intros w4 existing Hl4 He. eapply (profile_bind (fun _ _ => True)); [|done].
  apply profile_await. intros w Hok Hl5. destruct (date_now_later w Hok) as (now & w5 & En & Hok5 & Hl6).
  unfold mbind, M_bind. rewrite En. set (row := {| sv_userId := user_id u |}).
  assert (Hl : later_profiles w1 w5) by (do 4 (etrans; [eassumption|]); done).
  destruct (save_self_ok (fst <$> existing) row w5) as [Hok' Hl']; try done.
  - eapply proved_later; [exact Hl|]. by exists body, r.
  - eapply user_known_later; [|exact Hk3]. etrans; [exact Hl4|]. by etrans.
  - intros i Hi. destruct existing as [[j r0]|]; [|done]. injection Hi as ->. destruct (He i r0 eq_refl) as (r1 & Hr1 & E1).
    destruct (lp_rows _ _ (later_profiles_trans _ _ _ Hl5 Hl6) _ _ Hr1) as (r2 & Hr2 & E2). exists r2. split; [done|]. cbn. congruence.
  - split_and!; [exact Hok'|by etrans|done].
Qed.

Lemma upsertLemonProfile_safe p w0 : profile_safe (fun _ _ => True) w0 (upsertLemonProfile p).
Proof.
  unfold upsertLemonProfile. eapply profile_bind; [apply profile_result|]. intros w1 wallet _ _.
  eapply profile_bind; [apply profile_find|]. intros w2 [[u c]|] _ Hf; [|done]. destruct (Hf u c eq_refl) as [Hk Hw].
  apply profile_await. intros w Hok Hl. apply (user_known_later _ _ _ _ Hl) in Hk.
  destruct (date_now_later w Hok) as (t & w3 & E3 & Hok3 & Hl3).
  assert (Hc : exists cross w4, (if compared u c then t ← on_users date_now; mret (Some t) else mret None) w3 = (Ok cross, w4) /\
                 verified_ok w4 /\ later_profiles w3 w4).
  { destruct (compared u c); [|by exists None, w3]. destruct (date_now_later w3 Hok3) as (t2 & w4 & E4 & ? & ?).
    exists (Some t2), w4. split; [|done]. unfold mbind, M_bind. by rewrite E4. }
  destruct Hc as (cross & w4 & E4 & Hok4 & Hl4). unfold mbind, M_bind in E4 |- *. rewrite E3, E4.
  apply (user_known_later _ w3) in Hk; [|done]. apply (user_known_later _ w4) in Hk; [|done]. destruct Hk as (u0 & Hu0 & Hw0).
  destruct (save_profile_ok (lemon_user p u) (lemon_columns p t cross u c) w4 u0) as [Hok5 Hl5]; [done..|cbn; congruence|].
  destruct (save_profile _ _ w4) as [[[]|e] w5]; cbn in *; (split_and!; [done| |done]);
    (etrans; [exact Hl3|]; etrans; [exact Hl4|exact Hl5]).
Qed.

Lemma update_user_ok i patch w : verified_ok w -> (forall u, user_id (patch u) = user_id u /\ walletAddress (patch u) = walletAddress u) ->
  verified_ok (snd (on_users (update_user i patch) w)) /\ later_profiles w (snd (on_users (update_user i patch) w)).
Proof.
  intros Hok Hp. unfold on_users, update_user. rewrite statement_NoTx by apply Hok.
  assert (Ew : set_pw_main (pw_main w) w = w) by (by destruct w).
  destruct (w_users (pw_main w) !! i) as [u|] eqn:Hu; [|cbn; rewrite Ew; by split].
  destruct (db_user_error _ _) as [e|]; cbn; [rewrite Ew; by split|].
  set (w1 := set_pw_main _ _). destruct (Hp u) as [Hi Hw].
  assert (Hl : later_profiles w w1).
  { constructor; cbn; [done| |eauto]. intros j u1 Hu1. destruct (decide (j = i)) as [->|Hne].
    - exists (patch u). rewrite lookup_insert_eq. split; [done|]. congruence.
    - exists u1. by rewrite lookup_insert_ne. }
  split; [|done]. apply (step_users w); [done..|exact (vo_tx _ Hok)|]. destruct (vo_ids _ Hok) as [H1 H2]. split; [|done].
  cbn. apply map_Forall_insert_2; [|done]. rewrite Hi. by apply H1.
Qed.

Lemma updateWorkType_safe a t w0 : profile_safe (fun _ _ => True) w0 (updateWorkType a t).
Proof.
  unfold updateWorkType. eapply profile_bind; [apply profile_result|]. intros w1 wallet _ _.
  eapply profile_bind; [apply profile_find|]. intros w2 [[u c]|] _ _; [|done].
  apply profile_await. intros w Hok _. destruct (update_user_ok (user_id u) (set_workType (trim t)) w Hok) as [? ?]; [done|by split_and!].
Qed.

Lemma getProfile_safe a w0 : profile_safe (fun _ _ => True) w0 (getProfile a).
Proof.
  unfold getProfile. eapply profile_bind; [apply profile_result|]. intros w1 wallet _ _.
  eapply profile_bind; [apply profile_find|]. intros w2 [[u c]|] _ _; [|done].
  eapply (profile_bind (fun _ _ => True)); [|by intros]. apply profile_await. intros w Hok _. by split_and!.
Qed.

(** The requests about profiles. *)
Inductive profile_request : proc ProfileWorld unit -> Prop :=
  | request_self body : profile_request (_ ← verifyFromSelf body; Return tt)
  | request_lemon p : profile_request (_ ← upsertLemonProfile p; Return tt)
  | request_work a t : profile_request (updateWorkType a t)
  | request_profile a : profile_request (_ ← getProfile a; Return tt).

Lemma profile_request_safe p w0 : profile_request p -> since verified_ok later_profiles (fun _ _ => True) w0 p.
Proof.
  assert (Hq : forall q w, profile_safe (fun _ (_ : unit) => True) w q -> since verified_ok later_profiles (fun _ _ => True) w q).
  { intros q w. by apply (since_mono verified_ok later_profiles). }
  intros []; apply Hq.
  - eapply profile_bind; [apply verifyFromSelf_safe|done].
  - eapply profile_bind; [apply upsertLemonProfile_safe|done].
  - apply updateWorkType_safe.
  - eapply profile_bind; [apply getProfile_safe|done].
Qed.

(** C25. Whatever requests about profiles run interleaved, a user who passes the gate for
    Farcaster users is one whose wallet was in the context of a proof the verifier accepted, and that
    wallet is an address of an EVM chain; no two verifications are of one user or of one wallet. *)
Theorem gate_needs_proof ps w ps' w' : Forall profile_request ps ->
  w_tx (pw_main w) = NoTx -> tables_ok (pw_main w) -> w_self (pw_main w) = ∅ -> pw_self w = ∅ ->
  steps pool_step (ps, w) (ps', w') ->
  (forall i u, w_users (pw_main w') !! i = Some u -> toLowerCase (default "" (platform (onboarding u))) = "farcaster" ->
     fst (ensureSelfVerificationForPlatform u (pw_main w')) = Ok tt ->
     proved (pw_events w') (walletAddress u) /\ EVM_WALLET_ADDRESS_PATTERN (walletAddress u) = true) /\
  (forall i j r r', pw_self w' !! i = Some r -> pw_self w' !! j = Some r' ->
     sv_userId r = sv_userId r' \/ sv_walletAddress r = sv_walletAddress r' -> i = j).
Proof.
  intros Hps Htx Hids Hg Hs Hsteps.
  destruct (since_pool verified_ok later_profiles (fun _ _ => True) _ _ (fun _ _ _ _ H => H) Hsteps) as [Hok _].
  - eapply list.Forall_impl; [exact Hps|]. intros p. apply profile_request_safe.
  - cbn. constructor; [done..| | |]; rewrite ?Hs, ?Hg; [by apply map_Forall_empty|intros ????; by rewrite lookup_empty|].
    intros i. by rewrite elem_of_empty.
  - split; [|apply (vo_unique _ Hok)]. cbn in Hok. intros i u Hu Hp Hgate.
    assert (Hi : i ∈ w_self (pw_main w')).
    { revert Hgate. unfold ensureSelfVerificationForPlatform, isUserSelfVerified. rewrite bool_decide_true by exact Hp. cbn [negb].
      destruct (vo_ids _ Hok) as [Hid _]. rewrite (Hid _ _ Hu). destruct (i =? 0); [done|].
      unfold mbind, M_bind, find_self. rewrite query_NoTx by apply Hok. destruct (db_find_self _ i) as [b|] eqn:Eb; [|done].
      rewrite (find_self_spec _ _ _ Eb). by case_bool_decide. }
    destruct (vo_gate _ Hok _ Hi) as (id & r & Hr & <-). destruct (vo_rows _ Hok _ _ Hr) as [Hproved (u' & Hu' & Hw)].
    assert (u' = u) as -> by congruence. rewrite Hw. split; [done|]. destruct Hproved as (body & r' & _ & _ & Hc). by eapply extracted_normal.
Qed.
End Verified.

(** ** Concrete runs *)

#[export] Instance MemoryProfiles : ProfileDatabase := {|
  pdb_find_self w i := Ok (head (List.filter (fun kv => sv_userId (snd kv) =? i) (map_to_list (pw_self w))));
  pdb_columns_error _ _ _ := None;
  pdb_self_error w i r :=
    if bool_decide (map_Exists (fun j r' => j <> i /\ (sv_userId r' = sv_userId r \/ sv_walletAddress r' = sv_walletAddress r)) (pw_self w))
    then Some (UniqueViolation "self_verifications") else None;
  pdb_new_self_id w := fresh (dom (pw_self w)) |}.

Lemma head_filter_matches {A} (p : A -> bool) l x : head (List.filter p l) = Some x -> x ∈ l /\ p x = true.
Proof.
  intros H. assert (Hx : x ∈ List.filter p l) by (destruct (List.filter p l); [done|injection H as ->; by left]).
  apply list_elem_of_In, filter_In in Hx as [? ?]. split; [by apply list_elem_of_In|done].
Qed.

#[export] Instance MemoryProfiles_laws : ProfileLaws MemoryProfiles.
Proof.
  constructor; cbn.
  - intros w i id r [= H]. apply head_filter_matches in H as [Hin Hp]. apply elem_of_map_to_list in Hin. split; [done|cbn in Hp; lia].
  - intros w i id r [= H] Hr E. apply elem_of_map_to_list, list_elem_of_In in Hr.
    assert (Hx : In (id, r) (List.filter (fun kv => sv_userId (snd kv) =? i) (map_to_list (pw_self w)))) by (apply filter_In; split; [done|cbn; lia]).
    by destruct (List.filter _ _).
  - intros w id r id' r' Hr Hne H. rewrite bool_decide_true; [by eexists|]. by exists id', r'.
  - intros w. apply not_elem_of_dom, is_fresh.
Qed.

(** A Farcaster user without a profile, and a verifier that accepts every proof. *)
Definition caster : User :=
  with_onboarding waiting_user {| platform := Some "farcaster"%string; email := None; workType := None; termsAcceptedAt := None;
    waitlistJoinedAt := None; earlyAccessNotifiedAt := None; waitlistPriority := 0; createdAt := 5 |}.

Definition profiles : ProfileWorld := {|
  pw_main := {| w_users := {[ 1 := caster ]}; w_loans := ∅; w_side := no_side; w_tx := NoTx; w_calls := [] |};
  pw_columns := ∅; pw_self := ∅; pw_events := [] |}.

#[export] Instance accepting : ProfileOutside := {|
  self_verify _ _ := Ok {| isValid := true; discloseOutput := JObject [("name", JObject [("given_name", JString "Ana")])]%string |};
  issue_type _ := None; column_text _ := "" |}.

Definition ana : LemonProfilePayload := {|
  lp_walletAddress := walletAddress caster; lp_firstName := Some "Ana"%string; lp_lastName := Some "Paz"%string;
  lp_email := Some "Ana@b.c"%string; lp_lemonTag := Some "ana"%string; lp_pep := Some false; lp_lemonCountry := Some "arg"%string |}.

Definition scored (r : result LemonProfileAnswer) : option Z := match r with Ok a => la_identityMatchScore a | Throw _ => None end.

Lemma profiles_tables : tables_ok (pw_main profiles).
Proof. split; [by apply map_Forall_singleton|by apply map_Forall_empty]. Qed.

Section Runs.
Let DB : Database := MemoryDatabase.
Let OUT : Outside := vendor.
Existing Instances DB OUT.

(** The claims of Lemon are compared with themselves: the first profile fills the
    names and the e-mail, the second, the same, finds them and scores 100, although
    nothing else was ever known of the user. *)
Theorem lemon_compared_with_itself :
  let '(first, w1) := run (upsertLemonProfile ana) profiles in
  let '(second, w2) := run (upsertLemonProfile ana) w1 in
  scored first = None /\ scored second = Some 100 /\ (identityMatchScore <$> pw_columns w2 !! 1) = Some (Some 100) /\
  size (pw_self w2) = 0%nat.
Proof. vm_compute. by repeat split. Qed.

(** The e-mail of the claims becomes the e-mail of the user, without a code. *)
Theorem lemon_email_unverified :
  let '(_, w1) := run (upsertLemonProfile ana) profiles in
  (email ∘ onboarding <$> w_users (pw_main w1) !! 1) = Some (Some "ana@b.c"%string).
Proof. vm_compute. reflexivity. Qed.

(** A profile saved with the row it read undoes what another request wrote to the
    credit line in between. *)
Definition two_writers : pool ProfileWorld unit :=
  ([(_ ← upsertLemonProfile ana; Return tt); await (on_users (update_user 1 (set_score_and_limit 3 (num_of_Z 50))))], profiles).

Definition score_after (sched : list nat) : option (option Z) :=
  score ∘ credit <$> w_users (pw_main (snd (run_schedule sched two_writers))) !! 1.

Theorem profile_save_undoes_credit :
  score_after [0; 1]%nat = Some (Some 3) /\ score_after [0; 1; 0]%nat = Some None.
Proof. split; vm_compute; reflexivity. Qed.

(** The proof of the user, and a profile of Lemon, at the same time. *)
Definition passport : SelfProof := {|
  attestationId := JNumber (num_of_Z 1); proof := JString "proof"; publicSignals := JArray [JString "1"];
  userContextData := JString "0x00000000000000000000000000000000000000B0" |}.

Definition proving : list (proc ProfileWorld unit) := [(_ ← verifyFromSelf passport; Return tt); (_ ← upsertLemonProfile ana; Return tt)].

Definition proven : pool ProfileWorld unit := run_schedule [0; 1; 0; 1; 0; 0; 0]%nat (proving, profiles).

Lemma gate_needs_proof_witness : proved (pw_events (snd proven)) (walletAddress caster).
Proof.
  assert (Hu : exists u, w_users (pw_main (snd proven)) !! 1 = Some u /\ walletAddress u = walletAddress caster /\
    toLowerCase (default "" (platform (onboarding u))) = "farcaster"%string /\
    fst (ensureSelfVerificationForPlatform u (pw_main (snd proven))) = Ok tt).
  { eexists. split; [vm_compute; reflexivity|]. split_and!; vm_compute; reflexivity. }
  destruct Hu as (u & Hu & <- & Hp & Hg).
  refine (proj1 (proj1 (gate_needs_proof proving profiles (fst proven) (snd proven) _ _ _ _ _ _) 1 u Hu Hp Hg)).
  - repeat constructor.
  - reflexivity.
  - exact profiles_tables.
  - reflexivity.
  - reflexivity.
  - rewrite <- surjective_pairing. apply run_schedule_steps.
Defined.

Lemma lemon_profile_correct_witness :
  exists w', run (upsertLemonProfile ana) profiles = (Ok {| la_updated := true; la_identityMatchScore := None |}, w') /\ pw_self w' = ∅.
Proof.
  pose proof (lemon_profile_correct ana profiles eq_refl profiles_tables) as H.
  assert (Hr : match fst (run (upsertLemonProfile ana) profiles) with
               | Ok a => la_updated a && bool_decide (la_identityMatchScore a = None) | Throw _ => false end = true) by (vm_compute; reflexivity).
  destruct (run (upsertLemonProfile ana) profiles) as [r w']. exists w'.
  destruct H as [(e & -> & _)|(wallet & u & u' & c' & H)]; [discriminate Hr|].
  destruct H as (_ & _ & _ & _ & _ & Hs & _ & _ & _ & _ & _ & _ & _ & _ & _ & _ & _ & updated & sc & -> & _).
  cbn in Hr. destruct updated; [|discriminate Hr]. destruct sc; [discriminate Hr|]. split; [reflexivity|exact Hs].
Defined.
End Runs.
