(* ===== verification/WalletLink.v ===== *)
(** * Linking an external wallet ([backend/src/wallet-link])

    The companion flow: a code sent to the e-mail of a user, an opaque session
    token in exchange for the code, a nonce and a message to sign, and the linked
    wallet in exchange for the signature. The service has tables of its own, hence
    a world of its own; requests interleave at their awaits. *)

From stdpp Require Import base tactics list gmap strings numbers.
From Stdlib Require Import Lia ZArith Ascii Sorted.
From S2P Require Import Prelude JsString JsDate Strkey Store Async.

Local Open Scope Z_scope.

Definition OTP_TTL_MS : Z := 10 * 60 * 1000.
Definition OTP_THROTTLE_MS : Z := 60 * 1000.
Definition OTP_MAX_ATTEMPTS : Z := 5.
Definition SESSION_TTL_MS : Z := 15 * 60 * 1000.
Definition NONCE_TTL_MS : Z := 5 * 60 * 1000.
Definition SIGN_DOMAIN : string := "link.lendoor.xyz".

(** ** Tables *)

(** The columns of a user this service reads. *)
Record LinkUser := { lu_email : option string; lu_lemonEmail : option string; lu_walletAddress : string }.

Record WalletLinkSession := {
  ws_email : string;
  ws_userId : option Z;
  otpCodeHash : option string;
  otpExpiresAt : option Z;
  otpAttemptCount : Z;
  lastOtpSentAt : option Z;
  token : option string;
  tokenExpiresAt : option Z;
}.

Record WalletLinkNonce := {
  wn_userId : Z;
  wn_address : string;
  wn_nonce : string;
  wn_message : string;
  wn_used : bool;
  wn_expiresAt : Z;
}.

Record LinkedExternalWallet := {
  lw_userId : Z;
  lw_address : string;
  lw_chainId : Z;
  lw_verifiedAt : Z;
  lw_source : string;
  lw_verificationMethod : string;
  lw_message : string;
  lw_signature : string;
}.

(** What the service takes from outside, in order. *)
Inductive link_event :=
  | LNow (millis : Z)
  | LRandomInt (value : Z)
  | LRandomBytes (hex : string).

(** Rows are stored under their id; ids come from a sequence, which never goes back. *)
Record LinkWorld := {
  l_users : gmap Z LinkUser;
  l_sessions : gmap Z WalletLinkSession;
  l_nonces : gmap Z WalletLinkNonce;
  l_linked : gmap Z LinkedExternalWallet;
  l_sequence : Z;
  l_events : list link_event;
}.

Definition set_sessions (t : gmap Z WalletLinkSession) (w : LinkWorld) : LinkWorld :=
  {| l_users := l_users w; l_sessions := t; l_nonces := l_nonces w; l_linked := l_linked w; l_sequence := l_sequence w;
     l_events := l_events w |}.
Definition set_nonces (t : gmap Z WalletLinkNonce) (w : LinkWorld) : LinkWorld :=
  {| l_users := l_users w; l_sessions := l_sessions w; l_nonces := t; l_linked := l_linked w; l_sequence := l_sequence w;
     l_events := l_events w |}.
Definition set_linked (t : gmap Z LinkedExternalWallet) (w : LinkWorld) : LinkWorld :=
  {| l_users := l_users w; l_sessions := l_sessions w; l_nonces := l_nonces w; l_linked := t; l_sequence := l_sequence w;
     l_events := l_events w |}.
Definition next_id (w : LinkWorld) : LinkWorld :=
  {| l_users := l_users w; l_sessions := l_sessions w; l_nonces := l_nonces w; l_linked := l_linked w;
     l_sequence := l_sequence w + 1; l_events := l_events w |}.
Definition log_event (e : link_event) (w : LinkWorld) : LinkWorld :=
  {| l_users := l_users w; l_sessions := l_sessions w; l_nonces := l_nonces w; l_linked := l_linked w;
     l_sequence := l_sequence w; l_events := l_events w ++ [e] |}.

(** The database: which matching row a query returns, and whether a statement fails. *)
Class LinkDatabase := {
  ldb_find_users : LinkWorld -> (LinkUser -> bool) -> result (list (Z * LinkUser));
  ldb_find_user : LinkWorld -> (Z -> LinkUser -> bool) -> result (option (Z * LinkUser));
  ldb_find_session : LinkWorld -> (WalletLinkSession -> bool) -> result (option (Z * WalletLinkSession));
  ldb_find_nonce : LinkWorld -> (WalletLinkNonce -> bool) -> result (option (Z * WalletLinkNonce));
  ldb_find_linked : LinkWorld -> (LinkedExternalWallet -> bool) -> result (option (Z * LinkedExternalWallet));
  (** all the matching rows, the last verified first *)
  ldb_find_wallets : LinkWorld -> (LinkedExternalWallet -> bool) -> result (list LinkedExternalWallet);
  (** the error of a write of a row under an id, if any *)
  ldb_session_error : LinkWorld -> Z -> WalletLinkSession -> option exn;
  ldb_nonce_error : LinkWorld -> Z -> WalletLinkNonce -> option exn;
  ldb_linked_error : LinkWorld -> Z -> LinkedExternalWallet -> option exn;
  (** the error of an update or a delete by condition, if any *)
  ldb_update_error : LinkWorld -> option exn;
}.

(** What PostgreSQL documents: a query returns matching rows, a unique index refuses
    a second row. *)
Class LinkDatabaseLaws (LDB : LinkDatabase) := {
  lfind_users_rows : forall w p us, ldb_find_users w p = Ok us ->
    us ≡ₚ List.filter (fun iu => p (snd iu)) (map_to_list (l_users w));
  lfind_user_some : forall w p i u, ldb_find_user w p = Ok (Some (i, u)) -> l_users w !! i = Some u /\ p i u = true;
  lfind_session_some : forall w p i s, ldb_find_session w p = Ok (Some (i, s)) -> l_sessions w !! i = Some s /\ p s = true;
  lfind_nonce_some : forall w p i n, ldb_find_nonce w p = Ok (Some (i, n)) -> l_nonces w !! i = Some n /\ p n = true;
  lfind_linked_some : forall w p i l, ldb_find_linked w p = Ok (Some (i, l)) -> l_linked w !! i = Some l /\ p l = true;
  lfind_linked_none : forall w p i l, ldb_find_linked w p = Ok None -> l_linked w !! i = Some l -> p l = false;
  lfind_wallets_rows : forall w p ls, ldb_find_wallets w p = Ok ls -> ls ≡ₚ rows (l_linked w) p;
  lfind_wallets_sorted : forall w p ls, ldb_find_wallets w p = Ok ls ->
    StronglySorted (fun l l' => lw_verifiedAt l' <= lw_verifiedAt l) ls;
  (** the index uq_linked_wallet_addr *)
  address_refused : forall w i l j l', l_linked w !! j = Some l' -> j <> i -> lw_address l' = lw_address l ->
    is_Some (ldb_linked_error w i l);
}.

(** The clock, the random generators and the libraries: SHA-256, and the recovery of
    the signer of a message. *)
Class LinkOutside := {
  link_now : list link_event -> Z;
  (** [randomInt(100000, 1000000)] *)
  link_randomInt : list link_event -> Z;
  (** [randomBytes(n).toString("hex")] *)
  link_randomBytes : list link_event -> nat -> string;
  hashOtp : string -> string;
  recoverMessageAddress : string -> string -> result string;
}.

(** ** Statements *)

Section Statements.
  Context `{LDB : LinkDatabase} `{LOUT : LinkOutside}.

Definition lquery {A} (f : LinkWorld -> result A) : M LinkWorld A := fun w => (f w, w).

Definition link_date : M LinkWorld Z := fun w => let t := link_now (l_events w) in (Ok t, log_event (LNow t) w).
Definition randomInt : M LinkWorld Z := fun w => let x := link_randomInt (l_events w) in (Ok x, log_event (LRandomInt x) w).
Definition randomBytes (n : nat) : M LinkWorld string := fun w =>
  let x := link_randomBytes (l_events w) n in (Ok x, log_event (LRandomBytes x) w).

(** [sessionRepo.save(session)]: every column of the entity, under its id or under a
    new one. *)
Definition save_session (id : option Z) (s : WalletLinkSession) : M LinkWorld unit := fun w =>
  let i := default (l_sequence w) id in
  let w1 := match id with Some _ => w | None => next_id w end in
  match ldb_session_error w i s with
  | Some e => (Throw e, w1)
  | None => (Ok tt, set_sessions (<[i := s]> (l_sessions w1)) w1)
  end.

Definition insert_nonce (n : WalletLinkNonce) : M LinkWorld unit := fun w =>
  match ldb_nonce_error w (l_sequence w) n with
  | Some e => (Throw e, next_id w)
  | None => (Ok tt, set_nonces (<[l_sequence w := n]> (l_nonces w)) (next_id w))
  end.

Definition insert_linked (l : LinkedExternalWallet) : M LinkWorld unit := fun w =>
  match ldb_linked_error w (l_sequence w) l with
  | Some e => (Throw e, next_id w)
  | None => (Ok tt, set_linked (<[l_sequence w := l]> (l_linked w)) (next_id w))
  end.

Definition consumed (n : WalletLinkNonce) : WalletLinkNonce :=
  {| wn_userId := wn_userId n; wn_address := wn_address n; wn_nonce := wn_nonce n; wn_message := wn_message n;
     wn_used := true; wn_expiresAt := wn_expiresAt n |}.

(** [UPDATE ... SET used = true WHERE id = :id AND used = false]: whether a row was
    affected. *)
Definition consume_nonce (i : Z) : M LinkWorld bool := fun w =>
  match ldb_update_error w with
  | Some e => (Throw e, w)
  | None =>
      match l_nonces w !! i with
      | Some n => if wn_used n then (Ok false, w) else (Ok true, set_nonces (<[i := consumed n]> (l_nonces w)) w)
      | None => (Ok false, w)
      end
  end.

(** [DELETE ... WHERE expiresAt < :now] *)
Definition delete_nonces (now : Z) : M LinkWorld unit := fun w =>
  match ldb_update_error w with
  | Some e => (Throw e, w)
  | None => (Ok tt, set_nonces (filter (fun kv => now <= wn_expiresAt (snd kv)) (l_nonces w)) w)
  end.

Definition without_token (s : WalletLinkSession) : WalletLinkSession :=
  {| ws_email := ws_email s; ws_userId := ws_userId s; otpCodeHash := otpCodeHash s; otpExpiresAt := otpExpiresAt s;
     otpAttemptCount := otpAttemptCount s; lastOtpSentAt := lastOtpSentAt s; token := None; tokenExpiresAt := None |}.

(** [UPDATE ... SET token = NULL, tokenExpiresAt = NULL WHERE tokenExpiresAt < :now] *)
Definition clear_tokens (now : Z) : M LinkWorld unit := fun w =>
  match ldb_update_error w with
  | Some e => (Throw e, w)
  | None =>
      let expired s := match tokenExpiresAt s with Some t => t <? now | None => false end in
      (Ok tt, set_sessions ((fun s => if expired s then without_token s else s) <$> l_sessions w) w)
  end.
End Statements.

(** ** The service *)

(** [/^[^@\s]+@[^@\s]+\.[^@\s]+$/]: one at-sign, and a dot inside the domain. *)
Definition EMAIL_PATTERN (s : string) : bool :=
  match split_on "@"%char (chars s) with
  | [name; domain] =>
      negb (bool_decide (name = [])) && forallb (fun c => negb (is_space c)) (name ++ domain) &&
      existsb (fun c => Ascii.eqb c "."%char) (removelast (tl domain))
  | _ => false
  end.

(** [/^0x[0-9a-f]{40}$/] *)
Definition EVM_LOWER_PATTERN (s : string) : bool :=
  match chars s with
  | "0"%char :: "x"%char :: r =>
      bool_decide (length r = 40%nat) && forallb (fun c => is_digit c || ((97 <=? code c) && (code c <=? 102))) r
  | _ => false
  end.

(** [(raw ?? '').trim().toLowerCase()] *)
Definition normalized (raw : option string) : string := toLowerCase (trim (default "" raw)).

Definition requireAddress (addressRaw : option string) : result string :=
  let a := normalized addressRaw in
  if EVM_LOWER_PATTERN a then Ok a else Throw (BadRequestException "Invalid address").

(** A line break. *)
Definition newline : string := String (chr 10) "".

Definition link_message (address : string) (chainId : Z) (nonce : string) (issuedAt : Z) : string :=
  ("By signing, you are proving you own this wallet and linking it to your Lendoor account. " ++
   "This does not initiate a transaction or cost any fees." ++ newline ++ newline ++
   "Domain: " ++ SIGN_DOMAIN ++ newline ++
   "Wallet: " ++ address ++ newline ++
   "Chain ID: " ++ String_of_int chainId ++ newline ++
   "Nonce: " ++ nonce ++ newline ++
   "Issued At: " ++ toISOString issuedAt)%string.

Definition filled_text (o : option string) : bool := match o with Some s => negb (bool_decide (s = ""%string)) | None => false end.

(** The row of [start]: a new challenge, and no token. *)
Definition challenged (email : string) (userId : Z) (hash : string) (now : Z) : WalletLinkSession :=
  {| ws_email := email; ws_userId := Some userId; otpCodeHash := Some hash; otpExpiresAt := Some (now + OTP_TTL_MS);
     otpAttemptCount := 0; lastOtpSentAt := Some now; token := None; tokenExpiresAt := None |}.

(** One more attempt. *)
Definition attempted (s : WalletLinkSession) : WalletLinkSession :=
  {| ws_email := ws_email s; ws_userId := ws_userId s; otpCodeHash := otpCodeHash s; otpExpiresAt := otpExpiresAt s;
     otpAttemptCount := otpAttemptCount s + 1; lastOtpSentAt := lastOtpSentAt s; token := token s;
     tokenExpiresAt := tokenExpiresAt s |}.

(** The challenge used up, for a token. *)
Definition opened (t : string) (now : Z) (s : WalletLinkSession) : WalletLinkSession :=
  {| ws_email := ws_email s; ws_userId := ws_userId s; otpCodeHash := None; otpExpiresAt := None; otpAttemptCount := 0;
     lastOtpSentAt := lastOtpSentAt s; token := Some t; tokenExpiresAt := Some (now + SESSION_TTL_MS) |}.

Record LinkSession := { linkSession : string; ls_userId : Z; ls_email : string; lendoorAddress : option string }.

Section WalletLink.
  Context `{LDB : LinkDatabase} `{LOUT : LinkOutside}.

Definition by_email (email : string) (s : WalletLinkSession) : bool := bool_decide (ws_email s = email).

Definition user_has_email (email : string) (u : LinkUser) : bool :=
  bool_decide (lu_email u = Some email) || bool_decide (lu_lemonEmail u = Some email).

(** [otpExpiresAt] of the answer, when there is one. *)
Definition start (emailRaw : option string) : proc LinkWorld (option string) :=
  let email := normalized emailRaw in
  if negb (EMAIL_PATTERN email) then Raise (BadRequestException "Invalid email") else
  matches ← await (lquery (fun w => ldb_find_users w (user_has_email email)));
  match matches with
  | [(userId, _)] =>
      session ← await (lquery (fun w => ldb_find_session w (by_email email)));
      now ← await link_date;
      if match session ≫= (fun row => lastOtpSentAt (snd row)) with
         | Some sent => now - sent <? OTP_THROTTLE_MS
         | None => false
         end
      then Raise (BadRequestException "Esperá unos segundos antes de pedir otro código") else
      code ← await randomInt;
      let code := String_of_int code in
      _ ← await (save_session (fst <$> session) (challenged email userId (hashOtp code) now));
      Return (Some (toISOString (now + OTP_TTL_MS)))
  | _ => Return None
  end.

Definition invalid_code : exn := UnauthorizedException "Invalid or expired code".

Definition session (emailRaw code : option string) : proc LinkWorld LinkSession :=
  let email := normalized emailRaw in
  let trimmedCode := trim (default "" code) in
  session ← await (lquery (fun w => ldb_find_session w (by_email email)));
  match session with
  | None => Raise invalid_code
  | Some (id, s) =>
      match filled_text (otpCodeHash s), otpExpiresAt s, ws_userId s with
      | true, Some expires, Some userId =>
          now ← await link_date;
          if expires <? now then Raise invalid_code else
          if OTP_MAX_ATTEMPTS <=? otpAttemptCount s
          then Raise (UnauthorizedException "Too many attempts, request a new code") else
          if negb (bool_decide (otpCodeHash s = Some (hashOtp trimmedCode))) then
            _ ← await (save_session (Some id) (attempted s)); Raise invalid_code
          else
            t ← await (randomBytes 24);
            _ ← await (save_session (Some id) (opened t now s));
            user ← await (lquery (fun w => ldb_find_user w (fun i _ => bool_decide (i = userId))));
            Return {| linkSession := t; ls_userId := userId; ls_email := email;
                      lendoorAddress := lu_walletAddress ∘ snd <$> user |}
      | _, _, _ => Raise invalid_code
      end
  end.

Definition validateLinkSession (tok : string) : proc LinkWorld Z :=
  session ← await (lquery (fun w => ldb_find_session w (fun s => bool_decide (token s = Some tok))));
  match session with
  | Some (_, {| ws_userId := Some userId; tokenExpiresAt := Some expires |}) =>
      now ← await link_date;
      if expires <? now then Raise (UnauthorizedException "Link session expired") else Return userId
  | _ => Raise (UnauthorizedException "Invalid link session")
  end.

(** The guard of the routes that need a session: the user of the bearer token. *)
Definition canActivate (authorization : option string) : proc LinkWorld Z :=
  match chars <$> authorization with
  | Some ("B" :: "e" :: "a" :: "r" :: "e" :: "r" :: " " :: r)%char =>
      let tok := trim (of_chars r) in
      if bool_decide (tok = ""%string) then Raise (UnauthorizedException "Empty link session") else validateLinkSession tok
  | _ => Raise (UnauthorizedException "Missing link session")
  end.

(** The nonce, the message to sign and the time the nonce expires. *)
Definition createNonce (userId : Z) (addressRaw : option string) (chainId : Z) : proc LinkWorld (string * string * string) :=
  address ← of_result (requireAddress addressRaw);
  nonce ← await (randomBytes 16);
  issuedAt ← await link_date;
  let expiresAt := issuedAt + NONCE_TTL_MS in
  let message := link_message address chainId nonce issuedAt in
  _ ← await (insert_nonce {| wn_userId := userId; wn_address := address; wn_nonce := nonce; wn_message := message;
                             wn_used := false; wn_expiresAt := expiresAt |});
  Return (nonce, message, toISOString expiresAt).

Definition ecdsa_signature (signature : option string) : bool :=
  match chars <$> signature with
  | Some ("0" :: "x" :: r)%char => bool_decide (length r = 130%nat)
  | _ => false
  end.

Definition live_nonce (userId : Z) (address message : string) (n : WalletLinkNonce) : bool :=
  bool_decide (wn_userId n = userId) && bool_decide (wn_address n = address) && bool_decide (wn_message n = message) && negb (wn_used n).

(** The linked address, and when it was verified. *)
Definition verify (userId : Z) (addressRaw : option string) (chainId : Z) (message : string) (signature : option string) :
    proc LinkWorld (string * string) :=
  address ← of_result (requireAddress addressRaw);
  if negb (ecdsa_signature signature) then Raise (BadRequestException "Unsupported signature (v1 = ECDSA only)") else
  let signature := default ""%string signature in
  nonceRow ← await (lquery (fun w => ldb_find_nonce w (live_nonce userId address message)));
  match nonceRow with
  | None => Raise (BadRequestException "Nonce not found or already used")
  | Some (id, n) =>
      now ← await link_date;
      if wn_expiresAt n <? now then Raise (BadRequestException "Nonce expired") else
      recovered ← proc_try (fun _ => Raise (BadRequestException "Invalid signature"))
                    (await (lquery (fun _ => recoverMessageAddress message signature)));
      if negb (bool_decide (toLowerCase recovered = address))
      then Raise (BadRequestException "Signature does not match wallet") else
      affected ← await (consume_nonce id);
      if negb affected then Raise (BadRequestException "Nonce already used") else
      existing ← await (lquery (fun w => ldb_find_linked w (fun l => bool_decide (lw_address l = address))));
      if match existing with Some (_, l) => negb (bool_decide (lw_userId l = userId)) | None => false end
      then Raise (ConflictException "Wallet already linked to another account") else
      verifiedAt ← await link_date;
      _ ← match existing with
          | Some _ => Return tt
          | None => await (insert_linked {| lw_userId := userId; lw_address := address; lw_chainId := chainId;
                      lw_verifiedAt := verifiedAt; lw_source := "companion_web"; lw_verificationMethod := "ecdsa_companion";
                      lw_message := message; lw_signature := signature |})
          end;
      Return (address, toISOString (match existing with Some (_, l) => lw_verifiedAt l | None => verifiedAt end))
  end.

Definition walletsForUser (userId : Z) : proc LinkWorld (list (string * Z * string * string)) :=
  rows ← await (lquery (fun w => ldb_find_wallets w (fun l => bool_decide (lw_userId l = userId))));
  Return (map (fun l => (lw_address l, lw_chainId l, toISOString (lw_verifiedAt l), lw_source l)) rows).

Record LinkStatus := { linkedCount : nat; st_wallets : list (string * string); latestVerifiedAt : option string }.

Definition no_wallets : LinkStatus := {| linkedCount := 0; st_wallets := []; latestVerifiedAt := None |}.

Definition statusForWallet (walletAddress : option string) : proc LinkWorld LinkStatus :=
  match normalizeWalletOrNull walletAddress with
  | None => Return no_wallets
  | Some normalized =>
      user ← await (lquery (fun w => ldb_find_user w (fun _ u => bool_decide (lu_walletAddress u = normalized))));
      match user with
      | None => Return no_wallets
      | Some (id, _) =>
          rows ← await (lquery (fun w => ldb_find_wallets w (fun l => bool_decide (lw_userId l = id))));
          Return {| linkedCount := length rows;
                    st_wallets := map (fun l => (lw_address l, toISOString (lw_verifiedAt l))) rows;
                    latestVerifiedAt := toISOString ∘ lw_verifiedAt <$> head rows |}
      end
  end.

Definition cleanup : proc LinkWorld unit :=
  now ← await link_date;
  _ ← await (delete_nonces now);
  await (clear_tokens now).
End WalletLink.
