(* ===== verification/WalletLinkProps.v ===== *)
(** * Wallet links: what the companion flow guarantees

    The invariant of the linked wallets under any interleaving of requests, what
    each request does to the tables, the limit on guesses of a code when requests
    come one after the other, and how concurrent requests get around it. *)

From stdpp Require Import base tactics list gmap strings numbers.
From Stdlib Require Import Lia ZArith Ascii Sorted.
From S2P Require Import Prelude JsString JsDate Strkey Store Async WalletLink.

Local Open Scope Z_scope.

Section Invariant.
  Context `{LDB : LinkDatabase} `{LOUT : LinkOutside} {LLAWS : LinkDatabaseLaws LDB}.

(** A nonce row carries a message this service wrote for its address and nonce. *)
Definition nonce_ok (n : WalletLinkNonce) : Prop :=
  exists chain issued, wn_message n = link_message (wn_address n) chain (wn_nonce n) issued.

(** A linked wallet signed a message this service wrote for it. *)
Definition link_signed (l : LinkedExternalWallet) : Prop :=
  exists chain nonce issued signer,
    lw_message l = link_message (lw_address l) chain nonce issued /\
    recoverMessageAddress (lw_message l) (lw_signature l) = Ok signer /\ toLowerCase signer = lw_address l.

Definition addresses_unique (t : gmap Z LinkedExternalWallet) : Prop :=
  forall i j l l', t !! i = Some l -> t !! j = Some l' -> lw_address l = lw_address l' -> i = j.

Definition link_ok (w : LinkWorld) : Prop :=
  map_Forall (fun i n => i < l_sequence w /\ nonce_ok n) (l_nonces w) /\
  map_Forall (fun i l => i < l_sequence w /\ link_signed l) (l_linked w) /\ addresses_unique (l_linked w).

(** The nonce of an id can no longer be consumed. *)
Definition spent (w : LinkWorld) (i : Z) : Prop :=
  match l_nonces w !! i with Some n => wn_used n = true | None => i < l_sequence w end.

(** What no request undoes: a link stays as it is, and a spent nonce stays spent. *)
Definition link_le (w w' : LinkWorld) : Prop :=
  l_linked w ⊆ l_linked w' /\ l_sequence w <= l_sequence w' /\ (forall i, spent w i -> spent w' i).

#[export] Instance link_le_refl : Reflexive link_le.
Proof. intros w. by split_and!. Qed.

#[export] Instance link_le_trans : Transitive link_le.
Proof. intros w1 w2 w3 (? & ? & ?) (? & ? & ?). split_and!; [by etrans|lia|auto]. Qed.

Definition link_safe {A} (p : proc LinkWorld A) : Prop := safe link_ok link_le (fun _ => True) p.

(** A step that touches neither nonces nor links. *)
Lemma link_step_other w w' :
  link_ok w -> l_nonces w' = l_nonces w -> l_linked w' = l_linked w -> l_sequence w <= l_sequence w' ->
  link_ok w' /\ link_le w w'.
Proof.
  intros (Hn & Hl & Hu) En El Es. split.
  - unfold link_ok. rewrite En, El. split_and!; [| |done]; (eapply map_Forall_impl; [eassumption|]); cbn; intuition lia.
  - split_and!; [by rewrite El|done|]. intros i. unfold spent. rewrite En. destruct (l_nonces w !! i); [done|lia].
Qed.

Lemma link_safe_bind {A B} (k : A -> proc LinkWorld B) p : link_safe p -> (forall a, link_safe (k a)) -> link_safe (p ≫= k).
Proof. intros Hp Hk. apply safe_bind. eapply safe_mono; [|exact Hp]. intros [a|e] _; [apply Hk|done]. Qed.

Lemma link_safe_result {A} (r : result A) : link_safe (of_result r).
Proof. by destruct r. Qed.

(** An operation that touches neither nonces nor links. *)
Lemma link_safe_other {A} (m : M LinkWorld A) :
  (forall w, l_nonces (snd (m w)) = l_nonces w /\ l_linked (snd (m w)) = l_linked w /\ l_sequence w <= l_sequence (snd (m w))) ->
  link_safe (await m).
Proof.
  intros H. apply safe_await. intros w Hw. destruct (H w) as (? & ? & ?).
  destruct (link_step_other w (snd (m w))) as [? ?]; done.
Qed.

Lemma link_safe_query {A} (f : LinkWorld -> result A) : link_safe (await (lquery f)).
Proof. by apply link_safe_other. Qed.

Lemma save_session_other id s w :
  l_nonces (snd (save_session id s w)) = l_nonces w /\ l_linked (snd (save_session id s w)) = l_linked w /\
  l_sequence w <= l_sequence (snd (save_session id s w)).
Proof. unfold save_session. destruct id, ldb_session_error; cbn; split_and!; done || lia. Qed.

Lemma clear_tokens_other now w :
  l_nonces (snd (clear_tokens now w)) = l_nonces w /\ l_linked (snd (clear_tokens now w)) = l_linked w /\
  l_sequence w <= l_sequence (snd (clear_tokens now w)).
Proof. unfold clear_tokens. destruct ldb_update_error; cbn; split_and!; done || lia. Qed.

Lemma link_safe_insert_nonce n : nonce_ok n -> link_safe (await (insert_nonce n)).
Proof.
  intros Hok. apply safe_await. intros w Hw. unfold insert_nonce.
  destruct ldb_nonce_error as [e|]; cbn [fst snd].
  { destruct (link_step_other w (next_id w)) as [? ?]; cbn; done || lia. }
  destruct Hw as (Hn & Hl & Hu). unfold link_ok, link_le; split_and!; try done; cbn.
  - apply map_Forall_insert_2; [split; [lia|done]|]. eapply map_Forall_impl; [exact Hn|]. cbn. intuition lia.
  - eapply map_Forall_impl; [exact Hl|]. cbn. intuition lia.
  - lia.
  - intros i Hi. unfold spent in *. cbn. destruct (decide (i = l_sequence w)) as [->|Hne].
    + destruct (l_nonces w !! l_sequence w) eqn:E; [|lia]. apply Hn in E. cbn in E. lia.
    + rewrite lookup_insert_ne by done. destruct (l_nonces w !! i); [done|lia].
Qed.

Lemma link_safe_insert_linked l : link_signed l -> link_safe (await (insert_linked l)).
Proof.
  intros Hok. apply safe_await. intros w Hw. unfold insert_linked.
  destruct ldb_linked_error as [e|] eqn:Ee; cbn [fst snd].
  { destruct (link_step_other w (next_id w)) as [? ?]; cbn; done || lia. }
  destruct Hw as (Hn & Hl & Hu).
  assert (Hfresh : l_linked w !! l_sequence w = None).
  { destruct (l_linked w !! l_sequence w) eqn:E; [|done]. apply Hl in E. cbn in E. lia. }
  assert (Hnew : forall j l', l_linked w !! j = Some l' -> lw_address l' <> lw_address l).
  { intros j l' Hj Ha. destruct (address_refused w (l_sequence w) l j l') as [e He]; [done| |done|congruence]. congruence. }
  unfold link_ok, link_le; split_and!; try done; cbn.
  - eapply map_Forall_impl; [exact Hn|]. cbn. intuition lia.
  - apply map_Forall_insert_2; [split; [lia|done]|]. eapply map_Forall_impl; [exact Hl|]. cbn. intuition lia.
  - intros i j x y Hi Hj Hxy. apply lookup_insert_Some in Hi as [[<- <-]|[? Hi]], Hj as [[<- <-]|[? Hj]]; [done|..|by eapply Hu].
    + exfalso. by eapply Hnew.
    + exfalso. by eapply Hnew.
  - by apply insert_subseteq.
  - lia.
  - intros i. unfold spent. cbn. destruct (l_nonces w !! i); [done|lia].
Qed.

Lemma link_safe_consume i : link_safe (await (consume_nonce i)).
Proof.
  apply safe_await. intros w Hw. unfold consume_nonce. destruct ldb_update_error; [done|].
  destruct (l_nonces w !! i) as [n|] eqn:Ei; [|done]. destruct (wn_used n) eqn:Eu; [done|]. cbn [fst snd].
  destruct Hw as (Hn & Hl & Hu). unfold link_ok, link_le; split_and!; try done; cbn.
  - apply map_Forall_insert_2; [|done]. apply (Hn i n Ei).
  - intros j. unfold spent. cbn. destruct (decide (j = i)) as [->|Hne]; [by rewrite lookup_insert_eq|].
    by rewrite lookup_insert_ne.
Qed.

Lemma link_safe_delete now : link_safe (await (delete_nonces now)).
Proof.
  apply safe_await. intros w Hw. unfold delete_nonces. destruct ldb_update_error; [done|]. cbn [fst snd].
  destruct Hw as (Hn & Hl & Hu). unfold link_ok, link_le; split_and!; try done; cbn.
  - intros i n Hi. apply map_lookup_filter_Some in Hi as [Hi _]. by apply Hn.
  - intros i. unfold spent. cbn. destruct (filter _ (l_nonces w) !! i) as [n|] eqn:Ef.
    + apply map_lookup_filter_Some in Ef as [-> _]. done.
    + destruct (l_nonces w !! i) as [n|] eqn:Ei; [|done]. intros _. by apply (Hn i n Ei).
Qed.

Ltac case_if := lazymatch goal with |- link_safe (if ?b then _ else _) => destruct b eqn:? end.

Lemma link_safe_start email : link_safe (start email).
Proof.
  unfold start. case_if; [done|].
  apply link_safe_bind; [apply link_safe_query|]. intros [|[i u] [|]]; [done| |done].
  apply link_safe_bind; [apply link_safe_query|]. intros found.
  apply link_safe_bind; [apply link_safe_other; intros w; cbn; split_and!; done || lia|]. intros now.
  case_if; [done|]. apply link_safe_bind; [apply link_safe_other; intros w; cbn; split_and!; done || lia|]. intros c.
  apply link_safe_bind; [apply link_safe_other, save_session_other|]. done.
Qed.

Lemma link_safe_session email c : link_safe (session email c).
Proof.
  unfold session. apply link_safe_bind; [apply link_safe_query|]. intros [[i s]|]; [|done].
  destruct (filled_text _); [|done]. destruct (otpExpiresAt s); [|done]. destruct (ws_userId s); [|done].
  apply link_safe_bind; [apply link_safe_other; intros w; cbn; split_and!; done || lia|]. intros now.
  case_if; [done|]. case_if; [done|]. case_if.
  - apply link_safe_bind; [apply link_safe_other, save_session_other|]. done.
  - apply link_safe_bind; [apply link_safe_other; intros w; cbn; split_and!; done || lia|]. intros t.
    apply link_safe_bind; [apply link_safe_other, save_session_other|]. intros [].
    apply link_safe_bind; [apply link_safe_query|]. done.
Qed.

Lemma link_safe_nonce user a chain : link_safe (createNonce user a chain).
Proof.
  unfold createNonce. apply link_safe_bind; [apply link_safe_result|]. intros address.
  apply link_safe_bind; [apply link_safe_other; intros w; cbn; split_and!; done || lia|]. intros nonce.
  apply link_safe_bind; [apply link_safe_other; intros w; cbn; split_and!; done || lia|]. intros issued.
  apply link_safe_bind; [|done]. apply link_safe_insert_nonce. by exists chain, issued.
Qed.

Lemma link_safe_verify user a chain message signature : link_safe (verify user a chain message signature).
Proof.
  unfold verify. apply link_safe_bind; [apply link_safe_result|]. intros address.
  case_if; [done|]. set (sig := default ""%string signature).
  apply safe_bind, safe_await. intros w Hw. split_and!; [done..|]. cbn [fst lquery].
  destruct (ldb_find_nonce w _) as [[[i n]|]|e] eqn:En; [|done..].
  apply lfind_nonce_some in En as [Hi Hp]. destruct Hw as (Hn & _). destruct (Hn i n Hi) as [_ (ch & issued & Hmsg)].
  unfold live_nonce in Hp. bool_to_prop. subst.
  apply link_safe_bind; [apply link_safe_other; intros v; cbn; split_and!; done || lia|]. intros now.
  case_if; [done|]. apply safe_bind, safe_try, safe_await. intros v Hv. split_and!; [done..|]. cbn [fst lquery].
  destruct (recoverMessageAddress (wn_message n) sig) as [signer|e] eqn:Er; [|done].
  case_bool_decide as Hs; [|done]. cbn [negb].
  apply link_safe_bind; [apply link_safe_consume|]. intros [|]; [|done]. cbn [negb].
  apply link_safe_bind; [apply link_safe_query|]. intros existing. case_if; [done|].
  apply link_safe_bind; [apply link_safe_other; intros x; cbn; split_and!; done || lia|]. intros at_.
  apply link_safe_bind; [|done]. destruct existing; [done|]. apply link_safe_insert_linked.
  by exists ch, (wn_nonce n), issued, signer.
Qed.

Lemma link_safe_cleanup : link_safe cleanup.
Proof.
  unfold cleanup. apply link_safe_bind; [apply link_safe_other; intros w; cbn; split_and!; done || lia|]. intros now.
  apply link_safe_bind; [apply link_safe_delete|]. intros []. apply link_safe_other, clear_tokens_other.
Qed.

(** The requests that write, and the hourly job. *)
Inductive link_request :=
  | Start (email : option string)
  | OpenSession (email code : option string)
  | CreateNonce (authorization address : option string) (chainId : Z)
  | Verify (authorization address : option string) (chainId : Z) (message : string) (signature : option string)
  | Cleanup.

(** A request that needs a session runs for the user of its bearer token. *)
Definition serve_link (r : link_request) : proc LinkWorld unit :=
  match r with
  | Start e => _ ← start e; Return tt
  | OpenSession e c => _ ← session e c; Return tt
  | CreateNonce auth a ch => user ← canActivate auth; _ ← createNonce user a ch; Return tt
  | Verify auth a ch m s => user ← canActivate auth; _ ← verify user a ch m s; Return tt
  | Cleanup => cleanup
  end.

Lemma link_safe_guard auth : link_safe (canActivate auth).
Proof.
  unfold canActivate. repeat (case_scrut; try done). unfold validateLinkSession.
  apply link_safe_bind; [apply link_safe_query|]. intros [[i [? [u|] ? ? ? ? ? [x|]]]|]; try done.
  apply link_safe_bind; [apply link_safe_other; intros w; cbn; split_and!; done || lia|]. intros now. by case_if.
Qed.

Lemma serve_link_safe r : link_safe (serve_link r).
Proof.
  destruct r; cbn [serve_link].
  - apply link_safe_bind; [apply link_safe_start|done].
  - apply link_safe_bind; [apply link_safe_session|done].
  - apply link_safe_bind; [apply link_safe_guard|]. intros u. apply link_safe_bind; [apply link_safe_nonce|done].
  - apply link_safe_bind; [apply link_safe_guard|]. intros u. apply link_safe_bind; [apply link_safe_verify|done].
  - apply link_safe_cleanup.
Qed.

(** C11. Under any interleaving of requests and of the hourly cleanup, a linked wallet
    belongs to one user and signed, as far as the recovery of signers tells, a
    message this service wrote for its address; a link never changes or
    disappears, and a nonce that was consumed, or was deleted, cannot be consumed
    again. *)
Theorem links_are_signed (rs : list link_request) (w : LinkWorld) (c : pool LinkWorld unit)
    (Hrun : steps pool_step (map serve_link rs, w) c) (Hok : link_ok w) :
  link_ok (snd c) /\ link_le w (snd c).
Proof.
  destruct (safe_pool link_ok link_le (fun _ => True) _ _ Hrun) as (_ & H & Hle); [|done|by split].
  apply Forall_map, Forall_true, serve_link_safe.
Qed.
End Invariant.

(** ** One request alone *)

Section Requests.
  Context `{LDB : LinkDatabase} `{LOUT : LinkOutside} {LLAWS : LinkDatabaseLaws LDB}.

(** Only the sessions, the sequence and the events differ. *)
Definition only_sessions (w w' : LinkWorld) : Prop :=
  l_users w' = l_users w /\ l_nonces w' = l_nonces w /\ l_linked w' = l_linked w.

Lemma save_session_run id s w :
  (exists e w1, save_session id s w = (Throw e, w1) /\ only_sessions w w1 /\ l_sessions w1 = l_sessions w) \/
  exists w1, save_session id s w = (Ok tt, w1) /\ only_sessions w w1 /\ l_events w1 = l_events w /\
    l_sessions w1 = <[default (l_sequence w) id := s]> (l_sessions w).
Proof.
  unfold save_session. destruct (ldb_session_error w (default (l_sequence w) id) s) as [e|].
  - left. eexists e, _. split; [reflexivity|]. by destruct id.
  - right. eexists. split; [reflexivity|]. by destruct id.
Qed.

(** The row of an e-mail carries this code: not expired at the clock [now], with
    attempts left. *)
Definition right_otp (email c : option string) (now : Z) (w : LinkWorld) (i : Z) (s : WalletLinkSession) : Prop :=
  l_sessions w !! i = Some s /\ ws_email s = normalized email /\
  otpCodeHash s = Some (hashOtp (trim (default "" c))) /\ hashOtp (trim (default "" c)) <> ""%string /\
  otpAttemptCount s < OTP_MAX_ATTEMPTS /\ exists expires, otpExpiresAt s = Some expires /\ now <= expires.

Definition session_effect (email c : option string) (w w' : LinkWorld) (r : result LinkSession) : Prop :=
  only_sessions w w' /\
  match r with
  | Ok answer => exists i s now, right_otp email c now w i s /\ LNow now ∈ l_events w' /\
      ws_userId s = Some (ls_userId answer) /\ LRandomBytes (linkSession answer) ∈ l_events w' /\
      l_sessions w' = <[i := opened (linkSession answer) now s]> (l_sessions w)
  | Throw _ => l_sessions w' = l_sessions w \/
      (exists i s, l_sessions w !! i = Some s /\ ws_email s = normalized email /\ otpAttemptCount s < OTP_MAX_ATTEMPTS /\
         otpCodeHash s <> Some (hashOtp (trim (default "" c))) /\ l_sessions w' = <[i := attempted s]> (l_sessions w)) \/
      (exists i s now t, right_otp email c now w i s /\ l_sessions w' = <[i := opened t now s]> (l_sessions w))
  end.

Lemma filled_text_some o s : filled_text o = true -> o = Some s -> s <> ""%string.
Proof. intros H ->. unfold filled_text in H. by bool_to_prop. Qed.

(** What exchanging a code for a session does, whatever the database answers. When
    it answers, the row of the e-mail carried the hash of this code, not expired by
    the clock read during the request, after fewer than five attempts; the code is
    used up and the token of the answer is the one drawn for this row. When it
    fails, the tables are as they were, one more attempt is counted for a code that
    was wrong, or only the right code was used up. *)
Theorem session_correct (email c : option string) (w : LinkWorld) :
  let '(r, w') := run (session email c) w in session_effect email c w w' r.
Proof.
  assert (Hno : forall w' e, only_sessions w w' -> l_sessions w' = l_sessions w -> session_effect email c w w' (Throw e))
    by (intros w' e Ho Hs; split; [done|by left]).
  unfold session. rewrite run_await_bind. cbn [lquery].
  destruct (ldb_find_session w _) as [[[i s]|]|e] eqn:Ef; [|by apply Hno..].
  apply lfind_session_some in Ef as [Hi He]. unfold by_email in He. apply bool_decide_eq_true_1 in He.
  destruct (filled_text (otpCodeHash s)) eqn:Efill; [|by apply Hno].
  destruct (otpExpiresAt s) as [expires|] eqn:Eexp; [|by apply Hno].
  destruct (ws_userId s) as [user|] eqn:Eu; [|by apply Hno].
  rewrite run_await_bind. cbv [link_date]. set (now := link_now _). set (w1 := log_event (LNow now) w).
  destruct (Z.ltb_spec expires now) as [?|Hlive]; [by apply Hno|].
  destruct (Z.leb_spec OTP_MAX_ATTEMPTS (otpAttemptCount s)) as [?|Hatt]; [by apply Hno|].
  case_bool_decide as Hc; cbn [negb].
  - rewrite run_await_bind. cbv [randomBytes]. set (t := link_randomBytes _ _). set (w2 := log_event (LRandomBytes t) w1).
    assert (Hright : right_otp email c now w i s).
    { split_and!; [done..| |done|by exists expires]. by eapply filled_text_some. }
    rewrite run_await_bind. destruct (save_session_run (Some i) (opened t now s) w2)
      as [(e & w3 & -> & Ho & Hs)|(w3 & -> & Ho & Hev & Hs)]; [by apply Hno|].
    rewrite run_await_bind. cbn [lquery]. destruct (ldb_find_user w3 _) as [u|e].
    + split; [exact Ho|]. exists i, s, now. cbn [linkSession ls_userId]. rewrite Hev.
      split_and!; [done| |done| |done]; unfold w2, w1, log_event; cbn; set_solver.
    + split; [exact Ho|]. right. right. by exists i, s, now, t.
  - rewrite run_await_bind. destruct (save_session_run (Some i) (attempted s) w1)
      as [(e & w3 & -> & Ho & Hs)|(w3 & -> & Ho & Hev & Hs)]; [by apply Hno|].
    split; [exact Ho|]. right. left. by exists i, s.
Qed.

(** What asking for a code does. *)
Definition start_effect (email : option string) (w w' : LinkWorld) (r : result (option string)) : Prop :=
  only_sessions w w' /\
  match r with
  | Ok (Some expires) => exists user u i now draw,
      List.filter (fun iu => user_has_email (normalized email) (snd iu)) (map_to_list (l_users w)) = [(user, u)] /\
      (forall s sent, l_sessions w !! i = Some s -> lastOtpSentAt s = Some sent -> i <> l_sequence w -> OTP_THROTTLE_MS <= now - sent) /\
      LNow now ∈ l_events w' /\ LRandomInt draw ∈ l_events w' /\ expires = toISOString (now + OTP_TTL_MS) /\
      l_sessions w' = <[i := challenged (normalized email) user (hashOtp (String_of_int draw)) now]> (l_sessions w)
  | Ok None => w' = w /\ EMAIL_PATTERN (normalized email) = true /\
      length (List.filter (fun iu => user_has_email (normalized email) (snd iu)) (map_to_list (l_users w))) <> 1%nat
  | Throw _ => l_sessions w' = l_sessions w
  end.

(** What asking for a code does. It answers a time exactly when one user has the
    e-mail: then the row of the e-mail is a new challenge for that user - the hash of
    a fresh code for ten minutes, no attempt counted, no token - and the last one was
    sent a minute before. It answers nothing, and changes nothing, when no user or
    several have it. When it fails the sessions are as they were. *)
Theorem start_correct (email : option string) (w : LinkWorld) :
  let '(r, w') := run (start email) w in start_effect email w w' r.
Proof.
  unfold start. destruct (EMAIL_PATTERN (normalized email)) eqn:Ep; [cbn [negb]|done].
  rewrite run_await_bind. cbn [lquery]. destruct (ldb_find_users w _) as [us|e] eqn:Eus; [|done].
  apply lfind_users_rows in Eus. pose proof (Permutation_length Eus) as Hlen.
  destruct us as [|[user u] [|x us]]; [split_and!; [done..|by rewrite <- Hlen]| |split_and!; [done..|by rewrite <- Hlen]].
  apply Permutation_singleton_l in Eus. rewrite run_await_bind. cbn [lquery].
  destruct (ldb_find_session w _) as [found|e] eqn:Ef; [|done].
  rewrite run_await_bind. cbv [link_date]. set (now := link_now _). set (w1 := log_event (LNow now) w).
  match goal with |- context [if ?b then _ else _] => destruct b eqn:Et end; [done|].
  rewrite run_await_bind. cbv [randomInt]. set (draw := link_randomInt _). set (w2 := log_event (LRandomInt draw) w1).
  rewrite run_await_bind.
  destruct (save_session_run (fst <$> found) (challenged (normalized email) user (hashOtp (String_of_int draw)) now) w2)
    as [(e & w3 & -> & Ho & Hs)|(w3 & -> & Ho & Hev & Hs)]; [done|].
  split; [exact Ho|]. exists user, u, (default (l_sequence w) (fst <$> found)), now, draw. rewrite Hev.
  split_and!; [done| | | |done|done]; [|unfold w2, w1, log_event; cbn; set_solver..].
  intros s sent Hi Hsent Hne. destruct found as [[i s']|]; [|done]. cbn in Hi.
  apply lfind_session_some in Ef as [Hi' _]. rewrite Hi in Hi'. injection Hi' as <-. cbn in Et. rewrite Hsent in Et.
  by apply Z.ltb_ge in Et.
Qed.

(** What presenting a signature does. *)
Definition verified_row (user : Z) (address : string) (chain at_ : Z) (message signature : string) : LinkedExternalWallet :=
  {| lw_userId := user; lw_address := address; lw_chainId := chain; lw_verifiedAt := at_; lw_source := "companion_web";
     lw_verificationMethod := "ecdsa_companion"; lw_message := message; lw_signature := signature |}.

Definition consumes (user : Z) (address message : string) (now : Z) (w w' : LinkWorld) : Prop :=
  exists i n, l_nonces w !! i = Some n /\ live_nonce user address message n = true /\ now <= wn_expiresAt n /\
    l_nonces w' = <[i := consumed n]> (l_nonces w).

Definition verify_effect (user : Z) (a : option string) (chain : Z) (message : string) (signature : option string)
    (w w' : LinkWorld) (r : result (string * string)) : Prop :=
  l_users w' = l_users w /\ l_sessions w' = l_sessions w /\
  match r with
  | Ok (address, at_) => exists now signer, requireAddress a = Ok address /\ consumes user address message now w w' /\
      LNow now ∈ l_events w' /\ recoverMessageAddress message (default "" signature) = Ok signer /\ toLowerCase signer = address /\
      ((exists j l, l_linked w !! j = Some l /\ lw_address l = address /\ lw_userId l = user /\ l_linked w' = l_linked w /\
          at_ = toISOString (lw_verifiedAt l)) \/
       ((forall j l, l_linked w !! j = Some l -> lw_address l <> address) /\
        exists t, at_ = toISOString t /\
          l_linked w' = <[l_sequence w := verified_row user address chain t message (default "" signature)]> (l_linked w)))
  | Throw _ => l_linked w' = l_linked w /\
      (l_nonces w' = l_nonces w \/ exists address now, requireAddress a = Ok address /\ consumes user address message now w w')
  end.

(** What presenting a signature does. When it answers, an unused and unexpired nonce
    of this user, address and message was consumed, the signer recovered from the
    message is the address, and the address is linked to this user: it was already,
    or its row is new and nobody had it. When it fails no link changes, and at most
    that nonce is consumed. *)
Theorem verify_link_correct (user : Z) (a : option string) (chain : Z) (message : string) (signature : option string) (w : LinkWorld) :
  let '(r, w') := run (verify user a chain message signature) w in verify_effect user a chain message signature w w' r.
Proof.
  assert (Hno : forall w' e, l_users w' = l_users w -> l_sessions w' = l_sessions w -> l_linked w' = l_linked w ->
    l_nonces w' = l_nonces w -> verify_effect user a chain message signature w w' (Throw e)).
  { intros w' e ? ? ? ?. unfold verify_effect. split_and!; [done..|by left]. }
  unfold verify. destruct (requireAddress a) as [address|e] eqn:Ea; [|by apply Hno]. cbn [of_result]. rewrite return_bind.
  destruct (ecdsa_signature signature); [cbn [negb]|by apply Hno]. set (sig := default ""%string signature).
  rewrite run_await_bind. cbn [lquery]. destruct (ldb_find_nonce w _) as [[[i n]|]|e] eqn:En; [|by apply Hno..].
  apply lfind_nonce_some in En as [Hi Hp]. rewrite run_await_bind. cbv [link_date].
  set (now := link_now _). set (w1 := log_event (LNow now) w).
  destruct (Z.ltb_spec (wn_expiresAt n) now) as [?|Hlive]; [by apply Hno|].
  rewrite run_bind, proc_try_run, run_await. cbn [lquery].
  destruct (recoverMessageAddress message sig) as [signer|e] eqn:Er; [|by apply Hno].
  case_bool_decide as Hs; [cbn [negb]|by apply Hno].
  rewrite run_await_bind. unfold consume_nonce. destruct ldb_update_error; [by apply Hno|].
  change (l_nonces w1) with (l_nonces w). rewrite Hi.
  assert (Hused : wn_used n = false) by (unfold live_nonce in Hp; bool_to_prop; tauto). rewrite Hused. cbn [negb].
  set (w2 := set_nonces _ w1). assert (Hcons : consumes user address message now w w2) by (by exists i, n).
  assert (Hfail : forall w' e, l_users w' = l_users w -> l_sessions w' = l_sessions w -> l_linked w' = l_linked w ->
    l_nonces w' = l_nonces w2 -> verify_effect user a chain message signature w w' (Throw e)).
  { intros w' e ? ? ? Hn. unfold verify_effect. split_and!; [done..|]. right. exists address, now. split; [done|].
    destruct Hcons as (i' & n' & ? & ? & ? & Hc). exists i', n'. by rewrite Hn. }
  rewrite run_await_bind. cbn [lquery].
  destruct (ldb_find_linked w2 _) as [[[j l]|]|e] eqn:El; [| |by apply Hfail].
  - apply lfind_linked_some in El as [Hj Hl]. apply bool_decide_eq_true_1 in Hl.
    case_bool_decide as Hu; [cbn [negb]|by apply Hfail]. rewrite run_await_bind. cbv [link_date].
    set (t := link_now (l_events w2)). rewrite return_bind. cbn [run]. unfold verify_effect.
    split_and!; [done..|]. exists now, signer. split_and!; try done.
    + unfold w2, w1, log_event. cbn. set_solver.
    + left. by exists j, l.
  - rewrite run_await_bind. cbv [link_date]. set (t := link_now (l_events w2)). rewrite run_await_bind. unfold insert_linked.
    destruct ldb_linked_error; [by apply Hfail|]. cbn [run]. unfold verify_effect. split_and!; [done..|].
    exists now, signer. split_and!; try done.
    + unfold w2, w1, log_event. cbn. set_solver.
    + right. split; [|by exists t]. intros j l Hj Hadr. eapply lfind_linked_none in El; [|exact Hj].
      by apply bool_decide_eq_false_1 in El.
Qed.
End Requests.

(** ** Guessing a code *)

Section Guesses.
  Context `{LDB : LinkDatabase} `{LOUT : LinkOutside} {LLAWS : LinkDatabaseLaws LDB}.
  (** The row of the e-mail, in a database whose statements succeed. *)
  Context (email : option string) (id : Z) (expires : Z).
  Context (Hfind : forall w s, l_sessions w !! id = Some s -> ws_email s = normalized email ->
             ldb_find_session w (by_email (normalized email)) = Ok (Some (id, s))).
  Context (Hsave : forall w s, ldb_session_error w id s = None).
  Context (Hclock : forall es, link_now es <= expires).

(** The codes tried, one request after the other. *)
Fixpoint try_codes (codes : list string) (w : LinkWorld) : LinkWorld :=
  match codes with
  | [] => w
  | c :: codes' => try_codes codes' (snd (run (session email (Some c)) w))
  end.

Definition with_count (k : Z) (s : WalletLinkSession) : WalletLinkSession :=
  {| ws_email := ws_email s; ws_userId := ws_userId s; otpCodeHash := otpCodeHash s; otpExpiresAt := otpExpiresAt s;
     otpAttemptCount := k; lastOtpSentAt := lastOtpSentAt s; token := token s; tokenExpiresAt := tokenExpiresAt s |}.

(** The row is waiting for a code. *)
Definition waiting (w : LinkWorld) (s : WalletLinkSession) : Prop :=
  l_sessions w !! id = Some s /\ ws_email s = normalized email /\ filled_text (otpCodeHash s) = true /\
  otpExpiresAt s = Some expires /\ is_Some (ws_userId s).

Lemma try_wrong w s c :
  waiting w s -> otpCodeHash s <> Some (hashOtp (trim c)) ->
  let w' := snd (run (session email (Some c)) w) in
  l_sessions w' = <[id := with_count (if otpAttemptCount s <? OTP_MAX_ATTEMPTS then otpAttemptCount s + 1 else otpAttemptCount s) s]> (l_sessions w) /\
  is_ok (fst (run (session email (Some c)) w)) = false.
Proof.
  intros (Hi & He & Hf & Hx & [u Hu]) Hc. unfold session. rewrite run_await_bind. cbn [lquery].
  rewrite (Hfind w s Hi He), Hf, Hx, Hu, run_await_bind. cbv [link_date]. set (now := link_now _). set (w1 := log_event _ w).
  destruct (Z.ltb_spec expires now) as [Hlt|_]; [pose proof (Hclock (l_events w)); unfold now in Hlt; lia|].
  destruct (Z.leb_spec OTP_MAX_ATTEMPTS (otpAttemptCount s)) as [Ha|Ha].
  - rewrite (proj2 (Z.ltb_ge _ _) Ha). cbn. split; [|done]. rewrite insert_id; [done|]. by destruct s.
  - rewrite (proj2 (Z.ltb_lt _ _) Ha). rewrite bool_decide_false by done. cbn [negb]. rewrite run_await_bind.
    unfold save_session. cbn [default]. rewrite Hsave. by split.
Qed.

(** Five guesses: after [n] wrong codes, one request after the other, the row counts
    them up to five, and from five on every code is refused, the right one too, and
    the row no longer changes. *)
Theorem otp_guess_limit (codes : list string) (w : LinkWorld) (s : WalletLinkSession)
    (Hw : waiting w s) (Hcount : 0 <= otpAttemptCount s <= OTP_MAX_ATTEMPTS)
    (Hwrong : Forall (fun c => otpCodeHash s <> Some (hashOtp (trim c))) codes) :
  let n := Z.min OTP_MAX_ATTEMPTS (otpAttemptCount s + Z.of_nat (length codes)) in
  l_sessions (try_codes codes w) = <[id := with_count n s]> (l_sessions w) /\
  (n = OTP_MAX_ATTEMPTS -> forall c, let '(r, w') := run (session email c) (try_codes codes w) in
     is_ok r = false /\ l_sessions w' = l_sessions (try_codes codes w)).
Proof.
  assert (Hrow : l_sessions (try_codes codes w) =
    <[id := with_count (Z.min OTP_MAX_ATTEMPTS (otpAttemptCount s + Z.of_nat (length codes))) s]> (l_sessions w)).
  { revert w s Hw Hcount Hwrong. induction codes as [|c codes IH]; intros w s Hw Hcount Hwrong.
    - cbn [try_codes length]. rewrite Z.min_r, Z.add_0_r by lia. rewrite insert_id; [done|]. destruct Hw as [-> _]. by destruct s.
    - inversion Hwrong as [|? ? Hc Hcs]; subst. cbn [try_codes]. destruct (try_wrong w s c Hw Hc) as [Hs _].
      set (w1 := snd _) in *. set (k := if _ : bool then _ else _) in Hs.
      assert (Hk : 0 <= k <= OTP_MAX_ATTEMPTS /\
                   Z.min OTP_MAX_ATTEMPTS (k + Z.of_nat (length codes)) = Z.min OTP_MAX_ATTEMPTS (otpAttemptCount s + Z.of_nat (length (c :: codes)))).
      { unfold k. destruct (Z.ltb_spec (otpAttemptCount s) OTP_MAX_ATTEMPTS); cbn [length]; lia. }
      rewrite (IH w1 (with_count k s)); [| |exact (proj1 Hk)|exact Hcs].
      + rewrite Hs, insert_insert_eq. cbn [otpAttemptCount with_count]. by rewrite (proj2 Hk).
      + destruct Hw as (_ & ? & ? & ? & ?). split_and!; [rewrite Hs; apply lookup_insert_eq|done..]. }
  cbv zeta. split; [exact Hrow|]. intros Hn c. set (w1 := try_codes codes w) in *.
  destruct Hw as (_ & He & Hf & Hx & [u Hu]). unfold session. rewrite run_await_bind. cbn [lquery].
  rewrite (Hfind w1 (with_count OTP_MAX_ATTEMPTS s)) by (done || (rewrite Hrow, Hn; apply lookup_insert_eq)).
  cbn [otpCodeHash otpExpiresAt ws_userId otpAttemptCount with_count]. rewrite Hf, Hx, Hu, run_await_bind. cbv [link_date].
  destruct (expires <? _); [done|]. by rewrite Z.leb_refl.
Qed.
End Guesses.

(** ** A concrete database *)

Definition first_where {A} (t : gmap Z A) (p : A -> bool) : option (Z * A) :=
  head (List.filter (fun ia => p (snd ia)) (map_to_list t)).

Lemma first_where_some {A} (t : gmap Z A) p i a : first_where t p = Some (i, a) -> t !! i = Some a /\ p a = true.
Proof.
  intros H. apply head_Some_elem_of, list_elem_of_In, filter_In in H as [H Hp]. split; [|done].
  by apply elem_of_map_to_list, list_elem_of_In.
Qed.

Lemma first_where_none {A} (t : gmap Z A) p i a : first_where t p = None -> t !! i = Some a -> p a = false.
Proof.
  unfold first_where. intros H Hi. apply elem_of_map_to_list, list_elem_of_In in Hi.
  destruct (p a) eqn:Ep; [|done]. assert (Hin : In (i, a) (List.filter (fun ia => p (snd ia)) (map_to_list t))) by (by apply filter_In).
  destruct (List.filter _ _); [done|discriminate H].
Qed.

Lemma first_where_ext {A} (t : gmap Z A) p i a :
  t !! i = Some a -> p a = true -> (forall j b, t !! j = Some b -> p b = true -> j = i) -> first_where t p = Some (i, a).
Proof.
  intros Hi Hp Hone. destruct (first_where t p) as [[j b]|] eqn:E.
  - apply first_where_some in E as [Hj Hb]. pose proof (Hone j b Hj Hb) as ->. congruence.
  - pose proof (first_where_none _ _ _ _ E Hi). congruence.
Qed.

#[export] Instance MemoryLinks : LinkDatabase := {|
  ldb_find_users w p := Ok (List.filter (fun iu => p (snd iu)) (map_to_list (l_users w)));
  ldb_find_user w p := Ok (head (List.filter (fun iu => p (fst iu) (snd iu)) (map_to_list (l_users w))));
  ldb_find_session w p := Ok (first_where (l_sessions w) p);
  ldb_find_nonce w p := Ok (first_where (l_nonces w) p);
  ldb_find_linked w p := Ok (first_where (l_linked w) p);
  ldb_find_wallets w p := Ok (insert_sort (fun l => - lw_verifiedAt l) (rows (l_linked w) p));
  ldb_session_error _ _ _ := None;
  ldb_nonce_error _ _ _ := None;
  ldb_linked_error w i l :=
    if bool_decide (map_Exists (fun j l' => j <> i /\ lw_address l' = lw_address l) (l_linked w))
    then Some (UniqueViolation "uq_linked_wallet_addr") else None;
  ldb_update_error _ := None;
|}.

#[export] Instance MemoryLinksLaws : LinkDatabaseLaws MemoryLinks.
Proof.
  split; cbn.
  - by intros w p us [= <-].
  - intros w p i u [= H]. apply head_Some_elem_of, list_elem_of_In, filter_In in H as [H Hp]. split; [|done].
    by apply elem_of_map_to_list, list_elem_of_In.
  - intros w p i s [= H]. by apply first_where_some.
  - intros w p i n [= H]. by apply first_where_some.
  - intros w p i l [= H]. by apply first_where_some.
  - intros w p i l [= H]. by apply first_where_none.
  - intros w p ls [= <-]. apply insert_sort_perm.
  - intros w p ls [= <-]. eapply StronglySorted_le_neg, insert_sort_sorted.
  - intros w i l j l' Hj Hne Ha. rewrite bool_decide_true; [eauto|]. by exists j, l'.
Qed.

(** One user, whose code is always 123456; every signature is by the address 0x11...1. *)
Definition link_address : string := "0x1111111111111111111111111111111111111111".

Definition sample_signature : string := ("0x" ++ of_chars (replicate 130 "0"%char))%string.

Definition companion : LinkOutside := {|
  link_now es := 1000 * Z.of_nat (length es);
  link_randomInt _ := 123456;
  link_randomBytes es _ := String_of_int (Z.of_nat (length es));
  hashOtp s := ("#" ++ s)%string;
  recoverMessageAddress _ _ := Ok link_address;
|}.

Definition link_world : LinkWorld :=
  {| l_users := {[ 7 := {| lu_email := Some "a@b.c"%string; lu_lemonEmail := None; lu_walletAddress := "G1" |} ]};
     l_sessions := ∅; l_nonces := ∅; l_linked := ∅; l_sequence := 1; l_events := [] |}.

Definition asked : LinkWorld := snd (run (start (LOUT := companion) (Some " A@b.c "%string)) link_world).

Lemma link_world_ok : link_ok (LOUT := companion) link_world.
Proof. split_and!; [intros i n Hi; done..|intros i j l l' Hi; done]. Qed.

Lemma start_correct_witness :
  let '(r, w') := run (start (LOUT := companion) (Some " A@b.c "%string)) link_world in
  start_effect (LOUT := companion) (Some " A@b.c "%string) link_world w' r.
Proof. pose proof (start_correct (LOUT := companion) (Some " A@b.c "%string) link_world) as H. exact H. Defined.

Definition flow : list link_request :=
  [OpenSession (Some "a@b.c"%string) (Some "123456"%string);
   CreateNonce (Some "Bearer 3"%string) (Some link_address) 1;
   Verify (Some "Bearer 3"%string) (Some link_address) 1 (link_message link_address 1 "5" 6000) (Some sample_signature)].

Definition flow_end : pool LinkWorld unit :=
  run_schedule (replicate 5 0 ++ replicate 6 1 ++ replicate 9 2)%nat (map (serve_link (LOUT := companion)) flow, asked).

Lemma links_are_signed_witness :
  (link_ok (LOUT := companion) (snd flow_end) /\ link_le link_world (snd flow_end)) /\ lw_userId <$> l_linked (snd flow_end) !! 3 = Some 7.
Proof.
  split; [|vm_compute; reflexivity].
  assert (Hok : link_ok (LOUT := companion) asked /\ link_le link_world asked).
  { pose proof (safe_run (link_ok (LOUT := companion)) link_le _ _ _ (link_safe_start (LOUT := companion) (Some " A@b.c "%string)) link_world_ok) as H.
    unfold asked. destruct (run _ link_world) as [r w']. cbn [snd]. tauto. }
  pose proof (links_are_signed (LOUT := companion) flow asked flow_end (run_schedule_steps _ _) (proj1 Hok)) as [H Hle].
  split; [exact H|]. exact (transitivity (proj2 Hok) Hle).
Defined.

(** The tables after a link. *)
Definition no_links : LinkWorld :=
  snd (run_schedule (replicate 5 0 ++ replicate 6 1)%nat (map (serve_link (LOUT := companion)) flow, asked)).

Lemma session_correct_witness :
  let '(r, w') := run (session (LOUT := companion) (Some "a@b.c"%string) (Some "123456"%string)) asked in
  session_effect (LOUT := companion) (Some "a@b.c"%string) (Some "123456"%string) asked w' r.
Proof. pose proof (session_correct (LOUT := companion) (Some "a@b.c"%string) (Some "123456"%string) asked) as H. exact H. Defined.

Lemma verify_link_correct_witness :
  let message := link_message link_address 1 "5" 6000 in
  let '(r, w') := run (verify (LOUT := companion) 7 (Some link_address) 1 message (Some sample_signature)) no_links in
  verify_effect (LOUT := companion) 7 (Some link_address) 1 message (Some sample_signature) no_links w' r.
Proof.
  pose proof (verify_link_correct (LOUT := companion) 7 (Some link_address) 1 (link_message link_address 1 "5" 6000)
    (Some sample_signature) no_links) as H. exact H.
Defined.

(** A row that waits for a code, and six codes that are wrong. *)
Definition waiting_row : WalletLinkSession := challenged "a@b.c" 7 "#123456" 0.

Definition waiting_world : LinkWorld := set_sessions {[ 1 := waiting_row ]} link_world.

(** A database that always finds the row under its id. *)
Definition IdLinks : LinkDatabase := {|
  ldb_find_users := ldb_find_users; ldb_find_user := ldb_find_user;
  ldb_find_session w p :=
    match l_sessions w !! 1 with
    | Some s => if p s then Ok (Some (1, s)) else Ok (first_where (l_sessions w) p)
    | None => Ok (first_where (l_sessions w) p)
    end;
  ldb_find_nonce := ldb_find_nonce; ldb_find_linked := ldb_find_linked; ldb_find_wallets := ldb_find_wallets;
  ldb_session_error := ldb_session_error; ldb_nonce_error := ldb_nonce_error; ldb_linked_error := ldb_linked_error;
  ldb_update_error := ldb_update_error |}.

Definition stopped : LinkOutside := {|
  link_now _ := 1000; link_randomInt _ := 123456; link_randomBytes _ _ := "t"%string; hashOtp s := ("#" ++ s)%string;
  recoverMessageAddress _ _ := Ok link_address |}.

Definition wrong_codes : list string := ["1"; "2"; "3"; "4"; "5"; "6"]%string.

Lemma otp_guess_limit_witness :
  let w' := try_codes (LDB := IdLinks) (LOUT := stopped) (Some "a@b.c"%string) wrong_codes waiting_world in
  l_sessions w' = <[1 := with_count 5 waiting_row]> (l_sessions waiting_world) /\
  is_ok (fst (run (session (LDB := IdLinks) (LOUT := stopped) (Some "a@b.c"%string) (Some "123456"%string)) w')) = false.
Proof.
  assert (Hfind : forall w s, l_sessions w !! 1 = Some s -> ws_email s = normalized (Some "a@b.c"%string) ->
             ldb_find_session (LinkDatabase := IdLinks) w (by_email (normalized (Some "a@b.c"%string))) = Ok (Some (1, s))).
  { intros w s Hi He. cbn [ldb_find_session IdLinks]. rewrite Hi. unfold by_email. by rewrite bool_decide_true. }
  assert (Hw : waiting (Some "a@b.c"%string) 1 600000 waiting_world waiting_row).
  { split_and!; [reflexivity..|by exists 7]. }
  assert (Hwrong : Forall (fun c => otpCodeHash waiting_row <> Some (hashOtp (LinkOutside := stopped) (trim c))) wrong_codes).
  { repeat constructor; vm_compute; discriminate. }
  destruct (otp_guess_limit (LDB := IdLinks) (LOUT := stopped) (Some "a@b.c"%string) 1 600000 Hfind (fun _ _ => eq_refl)
    ltac:(cbn; lia) wrong_codes waiting_world waiting_row Hw ltac:(cbn; unfold OTP_MAX_ATTEMPTS; lia) Hwrong) as [Hrow Hlast].
  cbv zeta. split; [exact Hrow|]. specialize (Hlast eq_refl (Some "123456"%string)). cbv zeta in Hlast.
  destruct (run _ _) as [r w']. exact (proj1 Hlast).
Defined.

(** ** Concurrent requests *)

Definition wrong : link_request := OpenSession (Some "a@b.c"%string) (Some "000000"%string).
Definition right_code : link_request := OpenSession (Some "a@b.c"%string) (Some "123456"%string).

Definition attempts_of (w : LinkWorld) : option Z := otpAttemptCount <$> l_sessions w !! 1.

Definition race (sched : list nat) (rs : list link_request) : pool LinkWorld unit :=
  run_schedule sched (map (serve_link (LOUT := companion)) rs, asked).

(** The limit does not hold for requests that run together: each reads the count,
    and writes its own count plus one with the whole row. Of ten wrong codes tried at
    once one is counted; and a wrong code read before the right one was used up puts
    that code back, so that it opens a second session. *)
Theorem concurrent_guesses_not_counted :
  let ten := race (seq 0 10 ++ seq 0 10 ++ seq 0 10)%nat (replicate 10 wrong) in
  (fst ten = replicate 10 (Raise invalid_code) /\ attempts_of (snd ten) = Some 1) /\
  let twice := race (1 :: replicate 5 0 ++ [1; 1] ++ replicate 5 2)%nat [right_code; wrong; right_code] in
  fst twice = [Return tt; Raise invalid_code; Return tt].
Proof. vm_compute. auto. Qed.

(** The chain of a link is not the one that was signed: the row takes the chain of the
    request, which is not compared with the chain of the message. *)
Theorem chain_not_signed :
  let c := run_schedule (replicate 9 0)%nat
    ([serve_link (LOUT := companion) (Verify (Some "Bearer 3"%string) (Some link_address) 8453 (link_message link_address 1 "5" 6000) (Some sample_signature))],
     no_links) in
  fst c = [Return tt] /\ lw_chainId <$> l_linked (snd c) !! 3 = Some 8453.
Proof. vm_compute. auto. Qed.
