(* ===== verification/Auth.v ===== *)
(** * Authentication ([backend/src/auth])

    Sign-in with an Ethereum or a Stellar wallet, the access tokens it issues,
    their refresh and validation, the guards over them and the hourly cleanup.
    Tokens and nonces are rows; validated tokens and replayed Lemon nonces are also
    in a cache. Requests interleave at their awaits. *)

From stdpp Require Import base tactics list gmap strings numbers.
From Stdlib Require Import Lia ZArith Ascii.
From S2P Require Import Prelude JsString Strkey Async.

Local Open Scope Z_scope.

Record SiweNonce := { sn_nonce : string; sn_used : bool; sn_expiresAt : Z }.

Record AccessToken := {
  at_token : string;
  at_walletAddress : string;
  at_revokedAt : option Z;
  at_expiresAt : option Z;
}.

(** The fields of a parsed sign-in message. A time that does not parse is a date
    without a value. *)
Record SiweMessage := {
  sm_address : option string;
  sm_nonce : option string;
  sm_chainId : option Z;
  sm_domain : option string;
  sm_issuedAt : option (option Z);
}.

(** What the service takes from outside, in order. *)
Inductive auth_event :=
  | ANow (millis : Z)
  | ABytes (hex : string)
  | ACacheRead
  | AVerifySiwe (answer : result bool)
  | AVerifyMessage (answer : result bool).

(** A cache entry is the value and the time it expires, if it does. The keys of the
    two kinds of entry begin differently, so they are kept apart. *)
Record AuthWorld := {
  a_nonces : gmap Z SiweNonce;
  a_tokens : gmap Z AccessToken;
  a_tokenCache : gmap string (string * option Z);
  a_replayCache : gmap string (option Z);
  a_sequence : Z;
  a_events : list auth_event;
}.

Definition set_a_nonces (t : gmap Z SiweNonce) (w : AuthWorld) : AuthWorld :=
  {| a_nonces := t; a_tokens := a_tokens w; a_tokenCache := a_tokenCache w; a_replayCache := a_replayCache w;
     a_sequence := a_sequence w; a_events := a_events w |}.
Definition set_a_tokens (t : gmap Z AccessToken) (w : AuthWorld) : AuthWorld :=
  {| a_nonces := a_nonces w; a_tokens := t; a_tokenCache := a_tokenCache w; a_replayCache := a_replayCache w;
     a_sequence := a_sequence w; a_events := a_events w |}.
Definition set_tokenCache (t : gmap string (string * option Z)) (w : AuthWorld) : AuthWorld :=
  {| a_nonces := a_nonces w; a_tokens := a_tokens w; a_tokenCache := t; a_replayCache := a_replayCache w;
     a_sequence := a_sequence w; a_events := a_events w |}.
Definition set_replayCache (t : gmap string (option Z)) (w : AuthWorld) : AuthWorld :=
  {| a_nonces := a_nonces w; a_tokens := a_tokens w; a_tokenCache := a_tokenCache w; a_replayCache := t;
     a_sequence := a_sequence w; a_events := a_events w |}.
Definition a_next (w : AuthWorld) : AuthWorld :=
  {| a_nonces := a_nonces w; a_tokens := a_tokens w; a_tokenCache := a_tokenCache w; a_replayCache := a_replayCache w;
     a_sequence := a_sequence w + 1; a_events := a_events w |}.
Definition a_log (e : auth_event) (w : AuthWorld) : AuthWorld :=
  {| a_nonces := a_nonces w; a_tokens := a_tokens w; a_tokenCache := a_tokenCache w; a_replayCache := a_replayCache w;
     a_sequence := a_sequence w; a_events := a_events w ++ [e] |}.

Class AuthDatabase := {
  adb_find_nonce : AuthWorld -> (SiweNonce -> bool) -> result (option (Z * SiweNonce));
  adb_find_token : AuthWorld -> (AccessToken -> bool) -> result (option (Z * AccessToken));
  (** the error of a write, if any *)
  adb_nonce_error : AuthWorld -> Z -> SiweNonce -> option exn;
  adb_token_error : AuthWorld -> Z -> AccessToken -> option exn;
  adb_update_error : AuthWorld -> option exn;
}.

Class AuthDatabaseLaws (ADB : AuthDatabase) := {
  afind_nonce_some : forall w p i n, adb_find_nonce w p = Ok (Some (i, n)) -> a_nonces w !! i = Some n /\ p n = true;
  afind_token_some : forall w p i t, adb_find_token w p = Ok (Some (i, t)) -> a_tokens w !! i = Some t /\ p t = true;
}.

(** The clock, the cache's own choices, and the libraries. *)
Class AuthOutside := {
  auth_now : list auth_event -> Z;
  auth_randomBytes : list auth_event -> nat -> string;
  (** whether the cache still has an entry that has not expired *)
  cache_keeps : AuthWorld -> string -> bool;
  (** when an entry set at a time for so many milliseconds expires, if it does *)
  cache_expires : Z -> Z -> option Z;
  (** viem *)
  parseSiweMessage : string -> result SiweMessage;
  (** chain, message, signature, address *)
  rpc_verifySiweMessage : list auth_event -> Z -> string -> string -> option string -> result bool;
  rpc_verifyMessage : list auth_event -> Z -> string -> string -> string -> result bool;
  recoverSigner : string -> string -> result string;
  (** Node's base64 decoder and SHA-256, noble's ed25519: signature, hash, key *)
  base64_decode : string -> list Z;
  sha256 : list Z -> list Z;
  verifyEd25519 : list Z -> list Z -> list Z -> result bool;
}.

Section Statements.
  Context `{ADB : AuthDatabase} `{AOUT : AuthOutside}.

Definition aquery {A} (f : AuthWorld -> result A) : M AuthWorld A := fun w => (f w, w).
Definition auth_date : M AuthWorld Z := fun w => let t := auth_now (a_events w) in (Ok t, a_log (ANow t) w).
Definition randomHex (n : nat) : M AuthWorld string := fun w =>
  let x := auth_randomBytes (a_events w) n in (Ok x, a_log (ABytes x) w).

Definition verifySiweMessage (chain : Z) (message signature : string) (address : option string) : M AuthWorld bool := fun w =>
  let r := rpc_verifySiweMessage (a_events w) chain message signature address in (r, a_log (AVerifySiwe r) w).
Definition verifyMessage (chain : Z) (message signature address : string) : M AuthWorld bool := fun w =>
  let r := rpc_verifyMessage (a_events w) chain message signature address in (r, a_log (AVerifyMessage r) w).

Definition live (now : Z) (expires : option Z) : bool := match expires with Some e => now <? e | None => true end.

Definition cache_get_token (key : string) : M AuthWorld (option string) := fun w =>
  (Ok (match a_tokenCache w !! key with
       | Some (wallet, e) => if live (auth_now (a_events w)) e && cache_keeps w key then Some wallet else None
       | None => None
       end), a_log ACacheRead w).

Definition cache_set_token (key wallet : string) (ttl : Z) : M AuthWorld unit := fun w =>
  let now := auth_now (a_events w) in
  (Ok tt, a_log (ANow now) (set_tokenCache (<[key := (wallet, cache_expires now ttl)]> (a_tokenCache w)) w)).

Definition cache_del_token (key : string) : M AuthWorld unit := fun w =>
  (Ok tt, set_tokenCache (delete key (a_tokenCache w)) w).

Definition cache_get_replay (key : string) : M AuthWorld bool := fun w =>
  (Ok (match a_replayCache w !! key with
       | Some e => live (auth_now (a_events w)) e && cache_keeps w key
       | None => false
       end), a_log ACacheRead w).

Definition cache_set_replay (key : string) (ttl : Z) : M AuthWorld unit := fun w =>
  let now := auth_now (a_events w) in
  (Ok tt, a_log (ANow now) (set_replayCache (<[key := cache_expires now ttl]> (a_replayCache w)) w)).

(** [nonceRepo.save(nonce)]: under its id, or under a new one. *)
Definition save_nonce (id : option Z) (n : SiweNonce) : M AuthWorld unit := fun w =>
  let i := default (a_sequence w) id in
  let w1 := match id with Some _ => w | None => a_next w end in
  match adb_nonce_error w i n with
  | Some e => (Throw e, w1)
  | None => (Ok tt, set_a_nonces (<[i := n]> (a_nonces w1)) w1)
  end.

Definition insert_token (t : AccessToken) : M AuthWorld unit := fun w =>
  match adb_token_error w (a_sequence w) t with
  | Some e => (Throw e, a_next w)
  | None => (Ok tt, set_a_tokens (<[a_sequence w := t]> (a_tokens w)) (a_next w))
  end.

Definition revoked (now : Z) (t : AccessToken) : AccessToken :=
  {| at_token := at_token t; at_walletAddress := at_walletAddress t; at_revokedAt := Some now; at_expiresAt := at_expiresAt t |}.

(** [UPDATE ... SET revokedAt = :now WHERE id = :id AND revokedAt IS NULL]: whether a
    row was affected. *)
Definition revoke_token (id now : Z) : M AuthWorld bool := fun w =>
  match adb_update_error w with
  | Some e => (Throw e, w)
  | None =>
      match a_tokens w !! id with
      | Some t => match at_revokedAt t with
                  | Some _ => (Ok false, w)
                  | None => (Ok true, set_a_tokens (<[id := revoked now t]> (a_tokens w)) w)
                  end
      | None => (Ok false, w)
      end
  end.

Definition delete_nonces_before (now : Z) : M AuthWorld unit := fun w =>
  match adb_update_error w with
  | Some e => (Throw e, w)
  | None => (Ok tt, set_a_nonces (filter (fun kv => now <= sn_expiresAt (snd kv)) (a_nonces w)) w)
  end.

(** [expiresAt < :cutoff OR revokedAt IS NOT NULL] *)
Definition token_dead (cutoff : Z) (t : AccessToken) : bool :=
  match at_expiresAt t with Some e => e <? cutoff | None => false end || bool_decide (is_Some (at_revokedAt t)).

Definition delete_tokens (cutoff : Z) : M AuthWorld unit := fun w =>
  match adb_update_error w with
  | Some e => (Throw e, w)
  | None => (Ok tt, set_a_tokens (filter (fun kv => token_dead cutoff (snd kv) = false) (a_tokens w)) w)
  end.
End Statements.

(** ** The service *)

Definition NONCE_TTL : Z := 10 * 60 * 1000.
Definition TOKEN_TTL : Z := 60 * 60 * 1000.
Definition REFRESH_GRACE : Z := 15 * 60 * 1000.
Definition MAX_AGE_MS : Z := 5 * 60 * 1000.
Definition CACHE_TTL : Z := 10000.

(** The chain of a sign-in message: its id and endpoint. *)
Definition getChainConfig (chainId : Z) : Z * string :=
  if chainId =? 42220 then (42220, "https://forno.celo.org"%string) else (8453, "https://mainnet.base.org"%string).

(** [s.endsWith(suffix)] *)
Definition endsWith (s suffix : string) : bool :=
  let a := chars s in let b := chars suffix in
  bool_decide (length b <= length a)%nat && bool_decide (drop (length a - length b) a = b).

Definition isLemonDomain (domain : string) : bool :=
  let d := toLowerCase domain in
  endsWith d ".lemoncash.com.ar" || bool_decide (d = "lemoncash.com.ar"%string)
  || endsWith d ".lemon.me" || bool_decide (d = "lemon.me"%string).

Definition used_nonce (n : SiweNonce) : SiweNonce := {| sn_nonce := sn_nonce n; sn_used := true; sn_expiresAt := sn_expiresAt n |}.

(** [{ nonce, used: false, expiresAt: MoreThan(now) }] *)
Definition fresh_nonce (nonce : string) (now : Z) (n : SiweNonce) : bool :=
  bool_decide (sn_nonce n = nonce) && negb (sn_used n) && (now <? sn_expiresAt n).

Definition replay_key (nonce address : string) : string := ("siwe:lemon:" ++ nonce ++ ":" ++ address)%string.
Definition token_key (token : string) : string := ("token:" ++ token)%string.

(** [0x] and 130 characters, or more. *)
Definition hex_signature (signature : string) : bool := starts_with ["0"; "x"]%char (chars signature).
Definition isPlainEcdsa (signature : string) : bool := hex_signature signature && (String.length signature =? 132)%nat.
Definition looksLike6492Envelope (signature : string) : bool := hex_signature signature && (132 <? String.length signature)%nat.

(** Older than five minutes, or without a time. A date without a value is neither. *)
Definition message_expired (now : Z) (issuedAt : option (option Z)) : bool :=
  match issuedAt with
  | None => true
  | Some None => false
  | Some (Some t) => MAX_AGE_MS <? now - t
  end.

(** The bytes a Stellar wallet signs. *)
Definition bytes_of (s : string) : list Z := map code (chars s).
Definition sep53_prefix : list Z := (bytes_of "Stellar Signed Message:" ++ [10])%list.

Section Auth.
  Context `{ADB : AuthDatabase} `{AOUT : AuthOutside}.

Definition createNonce : proc AuthWorld string :=
  nonce ← await (randomHex 16);
  now ← await auth_date;
  _ ← await (save_nonce None {| sn_nonce := nonce; sn_used := false; sn_expiresAt := now + NONCE_TTL |});
  Return nonce.

Definition createAccessToken (wallet : string) : proc AuthWorld string :=
  token ← await (randomHex 24);
  now ← await auth_date;
  walletAddress ← of_result (normalizeWallet wallet);
  _ ← await (insert_token {| at_token := token; at_walletAddress := walletAddress; at_revokedAt := None;
                             at_expiresAt := Some (now + TOKEN_TTL) |});
  Return token.

(** The nonce of the message: a fresh row, or, for Lemon, not seen lately. *)
Definition check_nonce (isLemon : bool) (nonce : string) (address : option string) (now : Z) : proc AuthWorld (option (Z * SiweNonce)) :=
  if isLemon then
    address ← of_result (result_of_option (PlainError "TypeError") address);
    alreadyUsed ← await (cache_get_replay (replay_key nonce address));
    if alreadyUsed : bool then Raise (UnauthorizedException "Nonce already used") else Return None
  else
    stored ← await (aquery (fun w => adb_find_nonce w (fresh_nonce nonce now)));
    match stored with
    | None => Raise (UnauthorizedException "Invalid or expired nonce")
    | Some _ => Return stored
    end.

(** Whether the signature is valid, by the chain or by the two fallbacks. *)
Definition check_signature (isLemon : bool) (p : SiweMessage) (address : option string) (message signature : string) (now : Z)
    : proc AuthWorld bool :=
  let chain := fst (getChainConfig (default 0 (sm_chainId p))) in
  isValid ← proc_try (fun _ => Return false) (await (verifySiweMessage chain message signature address));
  if isValid : bool then Return true
  else if isPlainEcdsa signature then
    proc_try (fun _ => Return false)
      (recovered ← await (aquery (fun _ => recoverSigner message signature));
       Return (bool_decide (Some (toLowerCase recovered) = address)))
  else if looksLike6492Envelope signature && isLemon then
    if message_expired now (sm_issuedAt p) then Raise (UnauthorizedException "Message expired")
    else proc_try (fun _ => Return false) (await (verifyMessage chain message signature (default ""%string address)))
  else Return false.

(** The nonce is marked as used. *)
Definition use_nonce (isLemon : bool) (nonce : string) (address : option string) (stored : option (Z * SiweNonce)) : proc AuthWorld unit :=
  if isLemon then
    _ ← proc_try (fun _ => Return tt)
          (lemonNonce ← await (aquery (fun w => adb_find_nonce w (fun n => bool_decide (sn_nonce n = nonce))));
           match lemonNonce with
           | Some (id, n) => if sn_used n then Return tt else await (save_nonce (Some id) (used_nonce n))
           | None => Return tt
           end);
    await (cache_set_replay (replay_key nonce (default ""%string address)) NONCE_TTL)
  else match stored with
       | Some (id, n) => await (save_nonce (Some id) (used_nonce n))
       | None => Return tt
       end.

(** The wallet and the token. *)
Definition verifySiweAndIssueToken (signature message : string) : proc AuthWorld (string * string) :=
  now ← await auth_date;
  match parseSiweMessage message with
  | Throw _ => Raise (UnauthorizedException "Invalid SIWE message")
  | Ok parsed =>
      let address := toLowerCase <$> sm_address parsed in
      let isLemon := isLemonDomain (default ""%string (sm_domain parsed)) in
      let nonce := default ""%string (sm_nonce parsed) in
      if bool_decide (nonce = ""%string) then Raise (UnauthorizedException "Missing nonce in SIWE message") else
      stored ← check_nonce isLemon nonce address now;
      isValid ← check_signature isLemon parsed address message signature now;
      if negb isValid then Raise (UnauthorizedException "Invalid SIWE signature") else
      _ ← use_nonce isLemon nonce address stored;
      accessToken ← createAccessToken (default ""%string address);
      Return (default ""%string address, accessToken)
  end.

(** Whether the wallet's key signed the message, as SEP-53 has it. *)
Definition stellar_signed (wallet message signature : string) : result bool :=
  key ← decodeStellarPublicKey wallet;
  verifyEd25519 (base64_decode signature) (sha256 (sep53_prefix ++ bytes_of message)%list) key.

Definition verifyStellarAndIssueToken (walletRaw signature message nonce : string) : proc AuthWorld (string * string) :=
  wallet ← of_result (normalizeWallet walletRaw);
  now ← await auth_date;
  stored ← await (aquery (fun w => adb_find_nonce w (fresh_nonce nonce now)));
  match stored with
  | None => Raise (UnauthorizedException "Invalid or expired nonce")
  | Some (id, n) =>
      if negb (includes message nonce) then Raise (UnauthorizedException "Signed message nonce mismatch") else
      isValid ← proc_try (fun _ => Return false) (await (aquery (fun _ => stellar_signed wallet message signature)));
      if negb isValid then Raise (UnauthorizedException "Invalid Stellar signature") else
      _ ← await (save_nonce (Some id) (used_nonce n));
      accessToken ← createAccessToken wallet;
      Return (wallet, accessToken)
  end.

Definition by_token (token : string) (t : AccessToken) : bool := bool_decide (at_token t = token).

(** The new token and the wallet. *)
Definition refreshToken (currentToken : string) : proc AuthWorld (string * string) :=
  record ← await (aquery (fun w => adb_find_token w (by_token currentToken)));
  match record with
  | None => Raise (UnauthorizedException "Invalid token")
  | Some (id, t) =>
      if bool_decide (is_Some (at_revokedAt t)) then Raise (UnauthorizedException "Token revoked") else
      expired ← match at_expiresAt t with
                | Some e => now ← await auth_date; Return (e + REFRESH_GRACE <? now)
                | None => Return false
                end;
      if expired : bool then Raise (UnauthorizedException "Token expired beyond refresh window") else
      affected ← await (now ← auth_date; revoke_token id now);
      if negb affected then Raise (UnauthorizedException "Token already revoked") else
      _ ← await (cache_del_token (token_key currentToken));
      newToken ← createAccessToken (at_walletAddress t);
      Return (newToken, at_walletAddress t)
  end.

(** On a cache miss: the row of the token, cached for a while. *)
Definition validate_row (token : string) (now : Z) : proc AuthWorld string :=
  record ← await (aquery (fun w => adb_find_token w (by_token token)));
  match record with
  | None => Raise (UnauthorizedException "Invalid or expired token")
  | Some (_, t) =>
      if match at_expiresAt t with Some e => e <? now | None => false end
      then Raise (UnauthorizedException "Invalid or expired token") else
      if bool_decide (is_Some (at_revokedAt t)) then Raise (UnauthorizedException "Invalid or expired token") else
      let remaining := match at_expiresAt t with Some e => Z.max 0 (e - now) | None => CACHE_TTL end in
      _ ← await (cache_set_token (token_key token) (at_walletAddress t) (Z.min remaining CACHE_TTL));
      Return (at_walletAddress t)
  end.

(** The wallet of the token. *)
Definition validateToken (token : string) : proc AuthWorld string :=
  now ← await auth_date;
  cached ← await (cache_get_token (token_key token));
  match cached with
  | Some wallet => Return wallet
  | None => validate_row token now
  end.

Definition cleanupExpiredAuth : proc AuthWorld unit :=
  now ← await auth_date;
  _ ← await (delete_nonces_before now);
  now ← await auth_date;
  await (delete_tokens (now - REFRESH_GRACE)).

(** The text after [Bearer ]. *)
Definition bearer (authorization : option string) : option string :=
  match chars <$> authorization with
  | Some ("B" :: "e" :: "a" :: "r" :: "e" :: "r" :: " " :: r)%char => Some (trim (of_chars r))
  | _ => None
  end.

(** The guard of the routes: the wallet of the caller. *)
Definition access_guard (authorization : option string) : proc AuthWorld string :=
  match bearer authorization with
  | None => Raise (UnauthorizedException "Missing or invalid Authorization header")
  | Some token => if bool_decide (token = ""%string) then Raise (UnauthorizedException "Empty bearer token") else validateToken token
  end.

Definition refresh (authorization : option string) : proc AuthWorld (string * string) :=
  match bearer authorization with
  | None => Raise (UnauthorizedException "Missing Authorization header")
  | Some token => refreshToken token
  end.
End Auth.

(** ** Administrators *)

Definition normalizeAdminWallet (wallet : string) : string :=
  match normalizeWallet wallet with Ok w => w | Throw _ => toLowerCase (trim wallet) end.

Definition is_quote (c : ascii) : bool := Ascii.eqb c (chr 34) || Ascii.eqb c (chr 39).

(** [raw.replace(/^["']|["']$/g, '')]: one quote at each end. *)
Definition strip_quotes (l : list ascii) : list ascii :=
  let l := match l with c :: r => if is_quote c then r else l | [] => [] end in
  match rev l with c :: r => if is_quote c then rev r else l | [] => [] end.

Definition parseAdminWallets (raw : option string) : list string :=
  match raw with
  | None => []
  | Some raw =>
      map normalizeAdminWallet
        (List.filter (fun s => (0 <? String.length s)%nat)
           (map (fun l => trim (of_chars l)) (split_on ","%char (strip_quotes (chars raw)))))
  end.

(** The guard of the administrator's routes, behind [access_guard]. *)
Definition admin_guard (adminWallets caller : option string) : result unit :=
  match caller with
  | Some c =>
      let wallet := normalizeAdminWallet c in
      if bool_decide (c = ""%string) || bool_decide (wallet = ""%string) then Throw (ForbiddenException "Admin access required")
      else if bool_decide (wallet ∈ parseAdminWallets adminWallets) then Ok tt
      else Throw (ForbiddenException "Admin access required")
  | None => Throw (ForbiddenException "Admin access required")
  end.

Definition assertWalletOwnership (callerWallet requestedWallet : string) : result unit :=
  a ← normalizeWallet callerWallet;
  b ← normalizeWallet requestedWallet;
  if bool_decide (a = b) then Ok tt else Throw (ForbiddenException "Cannot operate on another user's wallet").
