(* ===== verification/AuthProps.v ===== *)
(** * Authentication: who a token stands for

    Under any interleaving of sign-ins, refreshes, validations and cleanups, a token
    stands for a wallet whose key signed a message; what each request does alone;
    and the runs in which a nonce, a message or a revoked token is used again. *)

From stdpp Require Import base tactics list gmap strings numbers.
From Stdlib Require Import Lia ZArith Ascii.
From S2P Require Import Prelude JsString Strkey Async Auth.

Local Open Scope Z_scope.

Section Invariant.
  Context `{ADB : AuthDatabase} `{AOUT : AuthOutside} {ALAWS : AuthDatabaseLaws ADB}.

(** The wallet signed: a Stellar account by its key; an Ethereum address a sign-in
    message with a nonce, as the chain or the recovery of signers tells. *)
Definition signed_siwe (address : string) : Prop :=
  exists message signature p,
    parseSiweMessage message = Ok p /\ toLowerCase <$> sm_address p = Some address /\ sm_nonce p <> None /\
    ((exists es chain, rpc_verifySiweMessage es chain message signature (Some address) = Ok true) \/
     (exists r, isPlainEcdsa signature = true /\ recoverSigner message signature = Ok r /\ toLowerCase r = address) \/
     (exists es chain, isLemonDomain (default ""%string (sm_domain p)) = true /\
        rpc_verifyMessage es chain message signature address = Ok true)).

Definition signed_in (address : string) : Prop :=
  signed_siwe address \/ exists message signature, stellar_signed address message signature = Ok true.

(** A wallet as tokens carry it. *)
Definition authentic (wallet : string) : Prop := exists address, normalizeWallet address = Ok wallet /\ signed_in address.

Definition auth_ok (w : AuthWorld) : Prop :=
  map_Forall (fun i t => i < a_sequence w /\ authentic (at_walletAddress t)) (a_tokens w) /\
  map_Forall (fun _ e => authentic (fst e)) (a_tokenCache w).

(** What no request undoes: a revoked token stays revoked, or is deleted. *)
Definition dead (w : AuthWorld) (i : Z) : Prop :=
  match a_tokens w !! i with Some t => is_Some (at_revokedAt t) | None => i < a_sequence w end.

Definition auth_le (w w' : AuthWorld) : Prop := a_sequence w <= a_sequence w' /\ forall i, dead w i -> dead w' i.

#[export] Instance auth_le_refl : Reflexive auth_le.
Proof. by split. Qed.

#[export] Instance auth_le_trans : Transitive auth_le.
Proof. intros w1 w2 w3 [? ?] [? ?]. split; [lia|auto]. Qed.

(** Every step keeps the invariant; the outcome satisfies [Q]. *)
Definition auth_safe {A} (Q : A -> Prop) (p : proc AuthWorld A) : Prop :=
  safe auth_ok auth_le (fun r => match r with Ok a => Q a | Throw _ => True end) p.

Lemma auth_safe_bind {A B} (P : A -> Prop) (Q : B -> Prop) (k : A -> proc AuthWorld B) p :
  auth_safe P p -> (forall a, P a -> auth_safe Q (k a)) -> auth_safe Q (p ≫= k).
Proof. intros Hp Hk. apply safe_bind. eapply safe_mono; [|exact Hp]. intros [a|e] H; [by apply Hk|done]. Qed.

Lemma auth_safe_try {A} (Q : A -> Prop) h (p : proc AuthWorld A) :
  auth_safe Q p -> (forall e, auth_safe Q (h e)) -> auth_safe Q (proc_try h p).
Proof. intros Hp Hh. apply safe_try. eapply safe_mono; [|exact Hp]. intros [a|e] H; [done|apply Hh]. Qed.

Lemma auth_safe_mono {A} (P Q : A -> Prop) (p : proc AuthWorld A) : (forall a, P a -> Q a) -> auth_safe P p -> auth_safe Q p.
Proof. intros H. apply safe_mono. intros [a|e]; auto. Qed.

Lemma auth_safe_result {A} (r : result A) : auth_safe (fun a => r = Ok a) (of_result r).
Proof. by destruct r. Qed.

(** An operation whose step keeps the tokens and their cache. *)
Definition auth_frame (w w' : AuthWorld) : Prop :=
  a_tokens w' = a_tokens w /\ a_tokenCache w' = a_tokenCache w /\ a_sequence w <= a_sequence w'.

Lemma auth_step_frame w w' : auth_ok w -> auth_frame w w' -> auth_ok w' /\ auth_le w w'.
Proof.
  intros (Ht & Hc) (Et & Ec & Es). unfold auth_ok, auth_le, dead. rewrite Et, Ec. split_and!; [|done..|].
  - eapply map_Forall_impl; [exact Ht|]. cbn. intuition lia.
  - intros i. destruct (a_tokens w !! i); [done|lia].
Qed.

Lemma auth_safe_frame {A} (m : M AuthWorld A) (Q : A -> Prop) :
  (forall w, auth_frame w (snd (m w))) -> (forall w a, auth_ok w -> fst (m w) = Ok a -> Q a) -> auth_safe Q (await m).
Proof.
  intros Hf HQ. apply safe_await. intros w Hw. destruct (auth_step_frame w _ Hw (Hf w)). split_and!; [done..|].
  specialize (HQ w). destruct (fst (m w)); [by apply HQ|done].
Qed.

Lemma auth_safe_query {A} (f : AuthWorld -> result A) (Q : A -> Prop) :
  (forall w a, auth_ok w -> f w = Ok a -> Q a) -> auth_safe Q (await (aquery f)).
Proof. intros H. apply auth_safe_frame; [done|]. intros w a Hw Ha. by eapply H. Qed.

Lemma auth_safe_any {A} (m : M AuthWorld A) : (forall w, auth_frame w (snd (m w))) -> auth_safe (fun _ => True) (await m).
Proof. intros H. by apply auth_safe_frame. Qed.

Lemma frame_log e w : auth_frame w (a_log e w).
Proof. unfold auth_frame. cbn. split_and!; done || lia. Qed.

Lemma frame_save_nonce id n w : auth_frame w (snd (save_nonce id n w)).
Proof. unfold save_nonce, auth_frame. destruct (adb_nonce_error _ _ _), id; cbn; split_and!; done || lia. Qed.

Lemma frame_delete_nonces now w : auth_frame w (snd (delete_nonces_before now w)).
Proof. unfold delete_nonces_before, auth_frame. destruct adb_update_error; cbn; split_and!; done || lia. Qed.

Lemma auth_safe_insert t : authentic (at_walletAddress t) -> auth_safe (fun _ => True) (await (insert_token t)).
Proof.
  intros Ht. apply safe_await. intros w Hw. unfold insert_token. destruct adb_token_error; cbn [fst snd].
  { destruct (auth_step_frame w (a_next w) Hw); [unfold auth_frame; cbn; split_and!; done || lia|done]. }
  destruct Hw as [Htok Hc]. unfold auth_ok, auth_le. split_and!; try done; cbn.
  - apply map_Forall_insert_2; [split; [lia|done]|]. eapply map_Forall_impl; [exact Htok|]. cbn. intuition lia.
  - lia.
  - intros i. unfold dead. cbn. destruct (decide (i = a_sequence w)) as [->|Hne].
    + destruct (a_tokens w !! a_sequence w) eqn:E; [apply Htok in E; cbn in E; lia|lia].
    + rewrite lookup_insert_ne by done. destruct (a_tokens w !! i); [done|lia].
Qed.

Lemma auth_safe_revoke id : auth_safe (fun _ => True) (await (now ← auth_date; revoke_token id now)).
Proof.
  apply safe_await. intros w Hw. cbv [mbind M_bind auth_date]. set (w1 := a_log _ w).
  destruct (auth_step_frame w w1 Hw (frame_log _ _)) as [Hw1 Hle]. unfold revoke_token. destruct adb_update_error; [done|].
  destruct (a_tokens w1 !! id) as [t|] eqn:Et; [|done]. destruct (at_revokedAt t) as [r|] eqn:Er; [done|]. cbn [fst snd].
  destruct Hw1 as [Htok Hc]. unfold auth_ok, auth_le. split_and!; try done; cbn.
  - apply map_Forall_insert_2; [by apply (Htok id t)|done].
  - intros i. unfold dead. cbn. destruct (decide (i = id)) as [->|Hne]; [rewrite lookup_insert_eq; cbn; eauto|].
    by rewrite lookup_insert_ne.
Qed.

Lemma auth_safe_delete cutoff : auth_safe (fun _ => True) (await (delete_tokens cutoff)).
Proof.
  apply safe_await. intros w Hw. unfold delete_tokens. destruct adb_update_error; [done|]. cbn [fst snd].
  destruct Hw as [Htok Hc]. unfold auth_ok, auth_le. split_and!; try done; cbn.
  - intros i t Hi. apply map_lookup_filter_Some in Hi as [Hi _]. by apply Htok.
  - intros i. unfold dead. cbn. destruct (filter _ (a_tokens w) !! i) as [t|] eqn:Ef.
    + apply map_lookup_filter_Some in Ef as [-> _]. done.
    + destruct (a_tokens w !! i) as [t|] eqn:Ei; [|done]. intros _. by apply (Htok i t Ei).
Qed.

Lemma auth_safe_cache_set key wallet ttl : authentic wallet -> auth_safe (fun _ => True) (await (cache_set_token key wallet ttl)).
Proof.
  intros Ha. apply safe_await. intros w [Htok Hc]. unfold cache_set_token. cbn [fst snd]. unfold auth_ok, auth_le. split_and!; try done; cbn.
  by apply map_Forall_insert_2.
Qed.

Lemma auth_safe_cache_del key : auth_safe (fun _ => True) (await (cache_del_token key)).
Proof.
  apply safe_await. intros w [Htok Hc]. unfold cache_del_token. cbn [fst snd]. unfold auth_ok, auth_le. split_and!; try done; cbn.
  intros k e Hk. apply lookup_delete_Some in Hk as [_ Hk]. by apply Hc in Hk.
Qed.

(** What a token from the cache stands for. *)
Lemma auth_safe_cache_get key : auth_safe (fun o => match o with Some wallet => authentic wallet | None => True end) (await (cache_get_token key)).
Proof.
  apply auth_safe_frame; [intros w; apply frame_log|]. intros w o [_ Hc] Ho. cbn in Ho. injection Ho as <-.
  destruct (a_tokenCache w !! key) as [[wallet e]|] eqn:Ek; [|done]. destruct (live _ _ && _); [|done]. by apply Hc in Ek.
Qed.

Lemma auth_safe_date : auth_safe (fun _ => True) (await auth_date).
Proof. apply auth_safe_any. intros w. apply frame_log. Qed.

Lemma auth_safe_bytes n : auth_safe (fun _ => True) (await (randomHex n)).
Proof. apply auth_safe_any. intros w. apply frame_log. Qed.

Lemma auth_safe_token wallet :
  (forall a, normalizeWallet wallet = Ok a -> authentic a) -> auth_safe (fun _ => True) (createAccessToken wallet).
Proof.
  intros Hs. unfold createAccessToken. eapply auth_safe_bind; [apply auth_safe_bytes|]. intros token _.
  eapply auth_safe_bind; [apply auth_safe_date|]. intros now _.
  eapply auth_safe_bind; [apply auth_safe_result|]. intros a Ha.
  eapply auth_safe_bind; [apply auth_safe_insert; cbn; by apply Hs|]. done.
Qed.

Lemma auth_safe_nonce : auth_safe (fun _ => True) createNonce.
Proof.
  unfold createNonce. eapply auth_safe_bind; [apply auth_safe_bytes|]. intros n _.
  eapply auth_safe_bind; [apply auth_safe_date|]. intros now _.
  eapply auth_safe_bind; [apply auth_safe_any, frame_save_nonce|]. done.
Qed.

Lemma auth_safe_check_nonce lemon nonce address now : auth_safe (fun _ => True) (check_nonce lemon nonce address now).
Proof.
  unfold check_nonce. destruct lemon.
  - eapply auth_safe_bind; [apply auth_safe_result|]. intros a _.
    eapply auth_safe_bind; [apply (auth_safe_any (cache_get_replay _)); intros w; apply frame_log|]. by intros [] _.
  - eapply auth_safe_bind; [by apply (auth_safe_query _ (fun _ => True))|]. by intros [x|] _.
Qed.

(** A signature that is accepted is one. *)
Lemma auth_safe_check_signature p a message signature now :
  parseSiweMessage message = Ok p -> toLowerCase <$> sm_address p = Some a -> sm_nonce p <> None ->
  auth_safe (fun valid => valid = true -> signed_siwe a)
    (check_signature (isLemonDomain (default ""%string (sm_domain p))) p (Some a) message signature now).
Proof.
  intros Hp Ha Hn. set (lemon := isLemonDomain _). unfold check_signature.
  assert (Hsigned : forall (H : (exists es chain, rpc_verifySiweMessage es chain message signature (Some a) = Ok true) \/
     (exists r, isPlainEcdsa signature = true /\ recoverSigner message signature = Ok r /\ toLowerCase r = a) \/
     (exists es chain, lemon = true /\ rpc_verifyMessage es chain message signature a = Ok true)), signed_siwe a)
    by (intros H; by exists message, signature, p).
  eapply (auth_safe_bind (fun valid => valid = true -> signed_siwe a)).
  { apply auth_safe_try; [|done]. apply auth_safe_frame; [intros w; apply frame_log|].
    intros w b _ Hb ->. apply Hsigned. left. cbn in Hb. eexists _, _. exact Hb. }
  intros [|] Hv; [by intros _; apply Hv|]. destruct (isPlainEcdsa signature) eqn:Ep.
  - apply auth_safe_try; [|done]. eapply (auth_safe_bind (fun r => recoverSigner message signature = Ok r)).
    + apply auth_safe_query. by intros w r _ ?.
    + intros r Hr Hb. apply bool_decide_eq_true_1 in Hb. apply Hsigned. right. left. exists r. split_and!; congruence.
  - destruct (looksLike6492Envelope signature && lemon) eqn:El; [|done]. apply andb_prop in El as [_ El].
    destruct (message_expired _ _); [done|]. apply auth_safe_try; [|done]. apply auth_safe_frame; [intros w; apply frame_log|].
    intros w b _ Hb ->. apply Hsigned. right. right. cbn in Hb. eexists _, _. split; [exact El|exact Hb].
Qed.

Lemma auth_safe_use_nonce lemon nonce address stored : auth_safe (fun _ => True) (use_nonce lemon nonce address stored).
Proof.
  unfold use_nonce. destruct lemon.
  - eapply (auth_safe_bind (fun _ => True)); [|intros _ _; apply auth_safe_any; intros w; unfold cache_set_replay, auth_frame; cbn; split_and!; done || lia].
    apply auth_safe_try; [|done]. eapply auth_safe_bind; [by apply (auth_safe_query _ (fun _ => True))|].
    intros [[i n]|] _; [|done]. destruct (sn_used n); [done|]. apply auth_safe_any, frame_save_nonce.
  - destruct stored as [[i n]|]; [|done]. apply auth_safe_any, frame_save_nonce.
Qed.

Lemma auth_safe_siwe signature message : auth_safe (fun _ => True) (verifySiweAndIssueToken signature message).
Proof.
  unfold verifySiweAndIssueToken. eapply auth_safe_bind; [apply auth_safe_date|]. intros now _.
  destruct (parseSiweMessage message) as [p|] eqn:Ep; [|done]. case_bool_decide as Hnonce; [done|].
  assert (Hn : sm_nonce p <> None) by (intros E; by rewrite E in Hnonce).
  eapply auth_safe_bind; [apply auth_safe_check_nonce|]. intros stored _.
  destruct (toLowerCase <$> sm_address p) as [a|] eqn:Ea.
  - eapply auth_safe_bind; [by eapply auth_safe_check_signature|]. intros [|] Hv; [|done]. cbn [negb].
    eapply auth_safe_bind; [apply auth_safe_use_nonce|]. intros [] _.
    eapply auth_safe_bind; [|done]. apply auth_safe_token. intros w Hw. exists a. split; [done|]. left. by apply Hv.
  - eapply (auth_safe_bind (fun _ => True)).
    { unfold check_signature. eapply (auth_safe_bind (fun _ => True)); [apply auth_safe_try; [apply auth_safe_any; intros w; apply frame_log|done]|].
      intros [|] _; [done|]. destruct (isPlainEcdsa signature).
      { apply auth_safe_try; [|done]. eapply auth_safe_bind; [by apply (auth_safe_query _ (fun _ => True))|done]. }
      destruct (_ && _); [|done]. destruct (message_expired _ _); [done|].
      apply auth_safe_try; [apply auth_safe_any; intros w; apply frame_log|done]. }
    intros [|] _; [|done]. cbn [negb]. eapply auth_safe_bind; [apply auth_safe_use_nonce|]. intros [] _.
    eapply auth_safe_bind; [|done]. apply auth_safe_token. intros w Hw. vm_compute in Hw. discriminate Hw.
Qed.

Lemma auth_safe_stellar wallet signature message nonce : auth_safe (fun _ => True) (verifyStellarAndIssueToken wallet signature message nonce).
Proof.
  unfold verifyStellarAndIssueToken. eapply auth_safe_bind; [apply auth_safe_result|]. intros a Ha.
  eapply auth_safe_bind; [apply auth_safe_date|]. intros now _.
  eapply auth_safe_bind; [by apply (auth_safe_query _ (fun _ => True))|]. intros [[i n]|] _; [|done].
  destruct (includes message nonce); [cbn [negb]|done].
  eapply (auth_safe_bind (fun valid => valid = true -> stellar_signed a message signature = Ok true)).
  { apply auth_safe_try; [|done]. apply auth_safe_query. by intros w b _ Hb ->. }
  intros [|] Hv; [|done]. cbn [negb]. eapply auth_safe_bind; [apply auth_safe_any, frame_save_nonce|]. intros [] _.
  eapply auth_safe_bind; [|done]. apply auth_safe_token. intros x Hx. exists a.
  split; [done|]. right. exists message, signature. by apply Hv.
Qed.

Lemma auth_safe_find_token token :
  auth_safe (fun o => match o with Some (_, t) => authentic (at_walletAddress t) | None => True end)
    (await (aquery (fun w => adb_find_token w (by_token token)))).
Proof.
  apply auth_safe_query. intros w [[i t]|] [Htok _] Hf; [|done]. apply afind_token_some in Hf as [Hi _]. by apply (Htok i t).
Qed.

Lemma auth_safe_refresh token : auth_safe (fun r => authentic (snd r)) (refreshToken token).
Proof.
  unfold refreshToken. eapply auth_safe_bind; [apply auth_safe_find_token|]. intros [[i t]|] Ht; [|done]. cbn in Ht.
  destruct (bool_decide _); [done|].
  eapply (auth_safe_bind (fun _ => True)).
  { destruct (at_expiresAt t); [|done]. eapply auth_safe_bind; [apply auth_safe_date|done]. }
  intros [|] _; [done|]. eapply auth_safe_bind; [apply auth_safe_revoke|]. intros [|] _; [|done]. cbn [negb].
  eapply auth_safe_bind; [apply auth_safe_cache_del|]. intros [] _.
  eapply auth_safe_bind; [|done]. apply auth_safe_token. intros a Ha.
  destruct Ht as (b & Hb & Hs). rewrite (normalizeWallet_fixed b _ Hb) in Ha. injection Ha as <-. by exists b.
Qed.

Lemma auth_safe_validate token : auth_safe authentic (validateToken token).
Proof.
  unfold validateToken. eapply auth_safe_bind; [apply auth_safe_date|]. intros now _.
  eapply auth_safe_bind; [apply auth_safe_cache_get|]. intros [wallet|] Hc; [done|]. unfold validate_row.
  eapply auth_safe_bind; [apply auth_safe_find_token|]. intros [[i t]|] Ht; [|done]. cbn in Ht.
  destruct (match at_expiresAt t with Some _ => _ | None => _ end); [done|]. destruct (bool_decide _); [done|].
  eapply auth_safe_bind; [by apply auth_safe_cache_set|]. done.
Qed.

Lemma auth_safe_cleanup : auth_safe (fun _ => True) cleanupExpiredAuth.
Proof.
  unfold cleanupExpiredAuth. eapply auth_safe_bind; [apply auth_safe_date|]. intros now _.
  eapply auth_safe_bind; [apply auth_safe_any, frame_delete_nonces|]. intros [] _.
  eapply auth_safe_bind; [apply auth_safe_date|]. intros now' _. apply auth_safe_delete.
Qed.

(** The requests of the controller and the guards, and the hourly job. *)
Inductive auth_request :=
  | NewNonce
  | SignInSiwe (signature message : string)
  | SignInStellar (wallet signature message nonce : string)
  | Refresh (authorization : option string)
  | Access (authorization : option string)
  | CleanupAuth.

Definition serve_auth (r : auth_request) : proc AuthWorld unit :=
  match r with
  | NewNonce => _ ← createNonce; Return tt
  | SignInSiwe s m => _ ← verifySiweAndIssueToken s m; Return tt
  | SignInStellar a s m n => _ ← verifyStellarAndIssueToken a s m n; Return tt
  | Refresh auth => _ ← refresh auth; Return tt
  | Access auth => _ ← access_guard auth; Return tt
  | CleanupAuth => cleanupExpiredAuth
  end.

Lemma auth_safe_access auth : auth_safe authentic (access_guard auth).
Proof. unfold access_guard. destruct (bearer auth); [|done]. case_bool_decide; [done|apply auth_safe_validate]. Qed.

Lemma serve_auth_safe r : auth_safe (fun _ => True) (serve_auth r).
Proof.
  destruct r; cbn [serve_auth].
  - eapply auth_safe_bind; [apply auth_safe_nonce|done].
  - eapply auth_safe_bind; [apply auth_safe_siwe|done].
  - eapply auth_safe_bind; [apply auth_safe_stellar|done].
  - unfold refresh. destruct (bearer authorization); [|done]. eapply auth_safe_bind; [apply auth_safe_refresh|done].
  - eapply auth_safe_bind; [apply auth_safe_access|done].
  - apply auth_safe_cleanup.
Qed.

(** C12. Whoever is let in signed. However sign-ins, refreshes, accesses and cleanups
    interleave, whatever the database, the cache and the chain answer, the wallet
    the guard finds for a token - in the cache or in the table - is the normal form
    of an address whose key signed: a Stellar account the SEP-53 message, an
    Ethereum address a sign-in message with a nonce. And a token that was revoked or
    deleted is never live again in the table. *)
Theorem tokens_authentic (rs : list auth_request) (w : AuthWorld) (c : pool AuthWorld unit) (authorization : option string)
    (Hrun : steps pool_step (map serve_auth rs, w) c) (Hok : auth_ok w) :
  auth_ok (snd c) /\ auth_le w (snd c) /\
  match fst (run (access_guard authorization) (snd c)) with Ok wallet => authentic wallet | Throw _ => True end.
Proof.
  destruct (safe_pool auth_ok auth_le (fun r => match r with Ok a => (fun _ => True) a | Throw _ => True end) _ _ Hrun)
    as (_ & H & Hle); [apply Forall_map, Forall_true, serve_auth_safe|done|].
  split_and!; [done..|]. pose proof (safe_run auth_ok auth_le _ _ _ (auth_safe_access authorization) H) as Ha.
  destruct (run _ _) as [r w']. cbn. tauto.
Qed.
End Invariant.

(** ** One request alone *)

Section Requests.
  Context `{ADB : AuthDatabase} `{AOUT : AuthOutside} {ALAWS : AuthDatabaseLaws ADB}.

Definition issued_token (token wallet : string) (now : Z) : AccessToken :=
  {| at_token := token; at_walletAddress := wallet; at_revokedAt := None; at_expiresAt := Some (now + TOKEN_TTL) |}.

(** Issuing a token adds its row, if anything. *)
Lemma createAccessToken_run wallet w :
  let '(r, w') := run (createAccessToken wallet) w in
  a_nonces w' = a_nonces w /\ a_tokenCache w' = a_tokenCache w /\ (forall e, e ∈ a_events w -> e ∈ a_events w') /\
  match r with
  | Ok token => exists a now, normalizeWallet wallet = Ok a /\ ABytes token ∈ a_events w' /\ ANow now ∈ a_events w' /\
      a_tokens w' = <[a_sequence w := issued_token token a now]> (a_tokens w)
  | Throw _ => a_tokens w' = a_tokens w
  end.
Proof.
  unfold createAccessToken. rewrite run_await_bind. cbv [randomHex]. set (token := auth_randomBytes _ _). set (w1 := a_log _ w).
  rewrite run_await_bind. cbv [auth_date]. set (now := auth_now _). set (w2 := a_log _ w1).
  assert (Hev : forall e, e ∈ a_events w -> e ∈ a_events w2) by (intros e He; unfold w2, w1, a_log; cbn; set_solver).
  destruct (normalizeWallet wallet) as [a|e]; [|by split_and!]. cbn [of_result]. rewrite return_bind, run_await_bind.
  unfold insert_token. destruct adb_token_error; cbn [run]; split_and!; try done.
  exists a, now. split_and!; [done| | |done]; unfold w2, w1, a_log; cbn; set_solver.
Qed.

Lemma save_nonce_run i n w :
  (exists e, save_nonce (Some i) n w = (Throw e, w)) \/
  save_nonce (Some i) n w = (Ok tt, set_a_nonces (<[i := n]> (a_nonces w)) w).
Proof. unfold save_nonce. cbn [default]. destruct adb_nonce_error; [left; eauto|by right]. Qed.

(** The nonce a sign-in uses up. *)
Definition nonce_used (nonce : string) (w w' : AuthWorld) : Prop :=
  exists i n now, a_nonces w !! i = Some n /\ sn_nonce n = nonce /\ sn_used n = false /\ now < sn_expiresAt n /\
    ANow now ∈ a_events w' /\ a_nonces w' = <[i := used_nonce n]> (a_nonces w).

Lemma fresh_nonce_spec nonce now n :
  fresh_nonce nonce now n = true -> sn_nonce n = nonce /\ sn_used n = false /\ now < sn_expiresAt n.
Proof.
  unfold fresh_nonce. intros H. apply andb_prop in H as [H Hlive]. apply andb_prop in H as [H Hu].
  by apply bool_decide_eq_true_1 in H; apply negb_true_iff in Hu; apply Z.ltb_lt in Hlive.
Qed.

Definition stellar_effect (walletRaw signature message nonce : string) (w w' : AuthWorld) (r : result (string * string)) : Prop :=
  a_tokenCache w' = a_tokenCache w /\
  match r with
  | Ok (wallet, token) => exists now, normalizeWallet walletRaw = Ok wallet /\ nonce_used nonce w w' /\
      includes message nonce = true /\ stellar_signed wallet message signature = Ok true /\
      ABytes token ∈ a_events w' /\ ANow now ∈ a_events w' /\
      a_tokens w' = <[a_sequence w := issued_token token wallet now]> (a_tokens w)
  | Throw _ => a_tokens w' = a_tokens w /\ (a_nonces w' = a_nonces w \/ nonce_used nonce w w')
  end.

(** What a Stellar sign-in does. When it answers, the nonce is one this service
    issued, neither used nor expired by the clock, the message holds it, and the
    wallet's key signed the SEP-53 hash of the message; the nonce is used up and one
    row is added, the token of the answer, for this wallet, for an hour. When it
    fails no token is issued, and at most the nonce is used up. *)
Theorem stellar_auth_correct (walletRaw signature message nonce : string) (w : AuthWorld) :
  let '(r, w') := run (verifyStellarAndIssueToken walletRaw signature message nonce) w in
  stellar_effect walletRaw signature message nonce w w' r.
Proof.
  assert (Hno : forall w' e, a_tokenCache w' = a_tokenCache w -> a_tokens w' = a_tokens w -> a_nonces w' = a_nonces w ->
    stellar_effect walletRaw signature message nonce w w' (Throw e)) by (intros w' e ? ? ?; split_and!; [done..|by left]).
  unfold verifyStellarAndIssueToken. destruct (normalizeWallet walletRaw) as [wallet|e] eqn:Ew; [|by apply Hno].
  cbn [of_result]. rewrite return_bind, run_await_bind. cbv [auth_date]. set (now := auth_now _). set (w1 := a_log (ANow now) w).
  rewrite run_await_bind. cbn [aquery]. destruct (adb_find_nonce w1 _) as [[[i n]|]|e] eqn:En; [|by apply Hno..].
  apply afind_nonce_some in En as [Hi Hn]. apply fresh_nonce_spec in Hn as (Hn & Hu & Hlive).
  destruct (includes message nonce) eqn:Einc; [cbn [negb]|by apply Hno].
  rewrite run_bind, proc_try_run, run_await. cbn [aquery].
  destruct (stellar_signed wallet message signature) as [[|]|e] eqn:Es; [|by apply Hno..]. cbn [negb].
  rewrite run_await_bind. destruct (save_nonce_run i (used_nonce n) w1) as [[e ->]| ->]; [by apply Hno|].
  set (w2 := set_a_nonces _ w1). rewrite run_bind. pose proof (createAccessToken_run wallet w2) as Ht.
  destruct (run (createAccessToken wallet) w2) as [[token|e] w3]; destruct Ht as (Hn3 & Hc3 & Hev & Ht).
  all: assert (Hused : nonce_used nonce w w3)
    by (exists i, n, now; rewrite Hn3; split_and!; try done; apply Hev; unfold w2, w1, a_log; cbn; set_solver).
  - destruct Ht as (a & later & Ha & Hb & Hnow & Htok). rewrite (normalizeWallet_fixed _ _ Ew) in Ha. injection Ha as <-.
    split; [by rewrite Hc3|]. by exists later.
  - split; [by rewrite Hc3|]. split; [by rewrite Ht|by right].
Qed.

(** The row of the token is live at the clock [now], and cached for a while. *)
Definition row_validated (token wallet : string) (now : Z) (w w' : AuthWorld) : Prop :=
  exists i t at_ ttl, a_tokens w !! i = Some t /\ at_token t = token /\ at_walletAddress t = wallet /\ at_revokedAt t = None /\
    (forall e, at_expiresAt t = Some e -> now <= e /\ ttl <= e - now) /\ 0 <= ttl <= CACHE_TTL /\
    a_tokenCache w' = <[token_key token := (wallet, cache_expires at_ ttl)]> (a_tokenCache w).

Lemma validate_row_run token now w :
  let '(r, w') := run (validate_row token now) w in
  a_tokens w' = a_tokens w /\ a_nonces w' = a_nonces w /\ (forall e, e ∈ a_events w -> e ∈ a_events w') /\
  match r with Ok wallet => row_validated token wallet now w w' | Throw _ => a_tokenCache w' = a_tokenCache w end.
Proof.
  unfold validate_row. rewrite run_await_bind. cbn [aquery]. destruct (adb_find_token _ _) as [[[i t]|]|e] eqn:Ef; [|done..].
  apply afind_token_some in Ef as [Hi Ht]. unfold by_token in Ht. apply bool_decide_eq_true_1 in Ht.
  destruct (match at_expiresAt t with Some _ => _ | None => _ end) eqn:Ee; [done|]. case_bool_decide as Hr; [done|].
  rewrite run_await_bind. unfold cache_set_token. cbn [run]. split_and!; [done..|intros e He; cbn; set_solver|].
  eexists i, t, _, _. split_and!; [done..| | | | |reflexivity].
  - destruct (at_revokedAt t); [|done]. exfalso. apply Hr. eauto.
  - intros e He. rewrite He in *. apply Z.ltb_ge in Ee. lia.
  - destruct (at_expiresAt t); unfold CACHE_TTL; lia.
  - destruct (at_expiresAt t); unfold CACHE_TTL; lia.
Qed.

(** What validating a token does. The wallet it answers is that of a cache entry
    that has not expired, or of the token's row, neither revoked nor expired by the
    clock, which it then caches for at most ten seconds and no longer than the token
    had left; the tables are never changed. *)
Theorem validate_correct (token : string) (w : AuthWorld) :
  let '(r, w') := run (validateToken token) w in
  a_tokens w' = a_tokens w /\ a_nonces w' = a_nonces w /\
  match r with
  | Ok wallet =>
      (a_tokenCache w' = a_tokenCache w /\ exists e, a_tokenCache w !! token_key token = Some (wallet, e) /\
         live (auth_now (a_events w ++ [ANow (auth_now (a_events w))])) e = true) \/
      (exists now, ANow now ∈ a_events w' /\ row_validated token wallet now w w')
  | Throw _ => a_tokenCache w' = a_tokenCache w
  end.
Proof.
  unfold validateToken. rewrite run_await_bind. cbv [auth_date]. set (now := auth_now _). set (w1 := a_log (ANow now) w).
  rewrite run_await_bind. unfold cache_get_token. change (a_tokenCache w1) with (a_tokenCache w). set (w2 := a_log ACacheRead w1).
  assert (Hmiss : let '(r, w') := run (validate_row token now) w2 in
    a_tokens w' = a_tokens w /\ a_nonces w' = a_nonces w /\
    match r with Ok wallet => exists now, ANow now ∈ a_events w' /\ row_validated token wallet now w w' | Throw _ => a_tokenCache w' = a_tokenCache w end).
  { pose proof (validate_row_run token now w2) as H. destruct (run _ w2) as [[a|e] w']; destruct H as (? & ? & Hev & H); [|done].
    split_and!; [done..|]. exists now. split; [|done]. apply Hev. unfold w2, w1, a_log. cbn. set_solver. }
  destruct (a_tokenCache w !! token_key token) as [[wallet e]|] eqn:Ec.
  1: destruct (live (auth_now (a_events w1)) e && cache_keeps w1 (token_key token)) eqn:El.
  1: { cbn [run]. split_and!; [done..|]. left. split; [done|]. apply andb_prop in El as [El _]. by exists e. }
  all: destruct (run _ w2) as [[a|x] w']; [|done]; destruct Hmiss as (? & ? & H); split_and!; [done..|by right].
Qed.

Lemma revoke_run i w t :
  a_tokens w !! i = Some t -> at_revokedAt t = None -> exists now,
  let m := (now ← auth_date; revoke_token i now) in
  (exists e, m w = (Throw e, a_log (ANow now) w)) \/ m w = (Ok true, set_a_tokens (<[i := revoked now t]> (a_tokens w)) (a_log (ANow now) w)).
Proof.
  intros Hi Ht. exists (auth_now (a_events w)). cbv [mbind M_bind auth_date]. unfold revoke_token.
  destruct adb_update_error; [by left; eexists|]. right. cbn. by rewrite Hi, Ht.
Qed.

Definition refresh_effect (current : string) (w w' : AuthWorld) (r : result (string * string)) : Prop :=
  a_nonces w' = a_nonces w /\
  match r with
  | Ok (token, wallet) => exists i t now later a,
      a_tokens w !! i = Some t /\ at_token t = current /\ at_revokedAt t = None /\ at_walletAddress t = wallet /\
      (forall e, at_expiresAt t = Some e -> exists clock, ANow clock ∈ a_events w' /\ clock <= e + REFRESH_GRACE) /\
      normalizeWallet wallet = Ok a /\ ABytes token ∈ a_events w' /\
      a_tokens w' = <[a_sequence w := issued_token token a later]> (<[i := revoked now t]> (a_tokens w)) /\
      a_tokenCache w' = delete (token_key current) (a_tokenCache w)
  | Throw _ => a_tokens w' = a_tokens w \/
      exists i t now, a_tokens w !! i = Some t /\ at_token t = current /\ at_revokedAt t = None /\
        a_tokens w' = <[i := revoked now t]> (a_tokens w)
  end.

(** What refreshing does: the token was live or expired at most fifteen minutes ago,
    it is revoked and leaves the cache, and one row is added, a token for the same
    wallet for an hour. When it fails no token is issued. *)
Theorem refresh_correct (current : string) (w : AuthWorld) :
  let '(r, w') := run (refreshToken current) w in refresh_effect current w w' r.
Proof.
  assert (Hno : forall w' e, a_tokens w' = a_tokens w -> a_nonces w' = a_nonces w -> refresh_effect current w w' (Throw e))
    by (intros w' e ? ?; split; [done|by left]).
  unfold refreshToken. rewrite run_await_bind. cbn [aquery]. destruct (adb_find_token w _) as [[[i t]|]|e] eqn:Ef; [|by apply Hno..].
  apply afind_token_some in Ef as [Hi Ht]. unfold by_token in Ht. apply bool_decide_eq_true_1 in Ht.
  case_bool_decide as Hr; [by apply Hno|]. assert (Hlive : at_revokedAt t = None) by (destruct (at_revokedAt t); [|done]; exfalso; eauto).
  rewrite run_bind.
  match goal with |- context [run (match at_expiresAt t with Some e => @?f e | None => _ end) w] =>
    assert (Hexp : exists w1, w1 = snd (run (match at_expiresAt t with Some e => f e | None => Return false end) w) /\
      a_tokens w1 = a_tokens w /\ a_nonces w1 = a_nonces w /\ a_tokenCache w1 = a_tokenCache w /\ a_sequence w1 = a_sequence w /\
      exists b, fst (run (match at_expiresAt t with Some e => f e | None => Return false end) w) = Ok b /\
        (b = false -> forall e, at_expiresAt t = Some e -> exists clock, ANow clock ∈ a_events w1 /\ clock <= e + REFRESH_GRACE)) end.
  { destruct (at_expiresAt t) as [x|]; cbn.
    - eexists. split_and!; [done..|]. eexists. split; [done|]. intros Hb e [= <-]. apply Z.ltb_ge in Hb.
      eexists. split; [|exact Hb]. set_solver.
    - eexists. split_and!; [done..|]. by exists false. }
  destruct (run _ w) as [rb w1]. cbn [fst snd] in Hexp. destruct Hexp as (? & -> & Htok1 & Hn1 & Hc1 & Hs1 & b & -> & Hb).
  destruct b; [by apply Hno|]. specialize (Hb eq_refl). rewrite run_await_bind.
  destruct (revoke_run i w1 t) as [now [[e ->]| ->]]; [by rewrite Htok1|done|by apply Hno|]. set (w2 := a_log _ w1). cbn [negb]. rewrite Htok1.
  rewrite run_await_bind. unfold cache_del_token. set (w3 := set_tokenCache _ _). rewrite run_bind.
  pose proof (createAccessToken_run (at_walletAddress t) w3) as Hnew.
  destruct (run (createAccessToken _) w3) as [[token|e] w4]; destruct Hnew as (Hn4 & Hc4 & Hev & Hnew).
  - destruct Hnew as (a & later & Ha & Hbytes & _ & Htok). cbn [run]. split; [by rewrite Hn4|].
    exists i, t, now, later, a. split_and!; try done.
    + intros e He. destruct (Hb e He) as (clock & Hin & Hle). exists clock. split; [|done]. apply Hev.
      unfold w3, w2, a_log. cbn. set_solver.
    + rewrite Htok. cbn. by rewrite Hs1.
    + rewrite Hc4. cbn. by rewrite Hc1.
  - split; [by rewrite Hn4|]. right. exists i, t, now. split_and!; try done.
Qed.
End Requests.

(** ** Every request answers *)

Section Answers.
  Context `{ADB : AuthDatabase} `{AOUT : AuthOutside}.

Ltac within_steps :=
  repeat first
    [ done
    | apply within_result
    | apply within_await
    | eapply within_mono; [|apply within_await]; lia
    | eapply (within_bind 1); [eapply within_await|intros ?]
    | eapply (within_bind 0); [apply within_result|intros ?]
    | match goal with
      | |- within _ (if ?b then _ else _) => destruct b
      | |- within _ (match ?x with _ => _ end) => destruct x
      end ].

Lemma within_token wallet : within 3 (createAccessToken wallet).
Proof. unfold createAccessToken. within_steps. Qed.

Lemma within_check_nonce b n a now : within 1 (check_nonce b n a now).
Proof. unfold check_nonce. within_steps. Qed.

Lemma within_check_signature b p a m s now : within 2 (check_signature b p a m s now).
Proof.
  unfold check_signature. apply (within_bind 1 1); [apply (within_try 1 0); [apply within_await|done]|]. intros [|]; [done|].
  destruct (isPlainEcdsa s); [apply (within_try 1 0); [within_steps|done]|].
  destruct (_ && _); [|done]. destruct (message_expired _ _); [done|]. apply (within_try 1 0); [apply within_await|done].
Qed.

Lemma within_use_nonce b n a st : within 3 (use_nonce b n a st).
Proof.
  unfold use_nonce. destruct b; [|destruct st as [[? ?]|]; [eapply within_mono; [|apply within_await]; lia|done]].
  apply (within_bind 2 1); [apply (within_try 2 0); [within_steps|done]|]. intros _. apply within_await.
Qed.

Lemma serve_auth_within r : within 10 (serve_auth r).
Proof.
  destruct r; cbn [serve_auth].
  - apply (within_bind 3 7); [unfold createNonce; within_steps|done].
  - apply (within_bind 10 0); [|done]. unfold verifySiweAndIssueToken. apply (within_bind 1 9); [apply within_await|]. intros now.
    destruct (parseSiweMessage message); [|done]. destruct (bool_decide _); [done|].
    apply (within_bind 1 8); [apply within_check_nonce|]. intros stored.
    apply (within_bind 2 6); [apply within_check_signature|]. intros [|]; [|done]. cbn [negb].
    apply (within_bind 3 3); [apply within_use_nonce|]. intros _. apply (within_bind 3 0); [apply within_token|done].
  - apply (within_bind 10 0); [|done]. unfold verifyStellarAndIssueToken. apply (within_bind 0 10); [apply within_result|]. intros a.
    apply (within_bind 1 9); [apply within_await|]. intros now. apply (within_bind 1 8); [apply within_await|]. intros [[i n]|]; [|done].
    destruct (negb _); [done|]. apply (within_bind 1 7); [apply (within_try 1 0); [apply within_await|done]|]. intros [|]; [|done]. cbn [negb].
    apply (within_bind 1 6); [apply within_await|]. intros _. apply (within_bind 3 3); [apply within_token|done].
  - apply (within_bind 10 0); [|done]. unfold refresh. destruct (bearer _); [|done]. unfold refreshToken.
    apply (within_bind 1 9); [apply within_await|]. intros [[i t]|]; [|done]. destruct (bool_decide _); [done|].
    apply (within_bind 1 8); [destruct (at_expiresAt t); within_steps|]. intros [|]; [done|].
    apply (within_bind 1 7); [apply within_await|]. intros [|]; [|done]. cbn [negb].
    apply (within_bind 1 6); [apply within_await|]. intros _. apply (within_bind 3 3); [apply within_token|done].
  - apply (within_bind 10 0); [|done]. unfold access_guard. destruct (bearer _); [|done]. destruct (bool_decide _); [done|].
    unfold validateToken, validate_row. within_steps.
  - unfold cleanupExpiredAuth. within_steps.
Qed.

(** Every request answers: none waits for another. In any schedule of any list of
    requests and cleanups, whatever they are answered, a request that was picked ten
    times has returned or thrown. *)
Theorem requests_answer (rs : list auth_request) (w : AuthWorld) (sched : list nat) (i : nat) (r : auth_request)
    (Hr : rs !! i = Some r) (Hpicked : (10 <= count_occ Nat.eq_dec sched i)%nat) :
  exists q, fst (run_schedule sched (map serve_auth rs, w)) !! i = Some q /\ answered q = true.
Proof.
  apply (within_schedule 10 sched i _ w (serve_auth r)); [|apply serve_auth_within|done].
  by rewrite list_lookup_fmap, Hr.
Qed.
End Answers.

(** ** A concrete service *)

#[export] Instance MemoryAuth : AuthDatabase := {|
  adb_find_nonce w p := Ok (head (List.filter (fun ia => p (snd ia)) (map_to_list (a_nonces w))));
  adb_find_token w p := Ok (head (List.filter (fun ia => p (snd ia)) (map_to_list (a_tokens w))));
  adb_nonce_error _ _ _ := None; adb_token_error _ _ _ := None; adb_update_error _ := None;
|}.

Lemma head_filter_some {A} (t : gmap Z A) p i a :
  head (List.filter (fun ia => p (snd ia)) (map_to_list t)) = Some (i, a) -> t !! i = Some a /\ p a = true.
Proof.
  intros H. apply head_Some_elem_of, list_elem_of_In, filter_In in H as [H Hp]. split; [|done].
  by apply elem_of_map_to_list, list_elem_of_In.
Qed.

#[export] Instance MemoryAuthLaws : AuthDatabaseLaws MemoryAuth.
Proof. split; intros w p i a [= H]; by apply head_filter_some. Qed.

(** The clock, given by the number of events; every signature is accepted, every
    random text is the number of events, and an entry set for no time at all does
    not expire. *)
Definition trusting (clock : nat -> Z) : AuthOutside := {|
  auth_now es := clock (length es);
  auth_randomBytes es _ := String_of_int (Z.of_nat (length es));
  cache_keeps _ _ := true;
  cache_expires now ttl := if ttl =? 0 then None else Some (now + ttl);
  parseSiweMessage _ := Ok {| sm_address := Some "0x00000000000000000000000000000000000000aa"%string; sm_nonce := Some "n1"%string;
                              sm_chainId := Some 8453; sm_domain := Some "app.lemon.me"%string; sm_issuedAt := Some (Some 0) |};
  rpc_verifySiweMessage _ _ _ _ _ := Ok true;
  rpc_verifyMessage _ _ _ _ _ := Ok true;
  recoverSigner _ _ := Throw (PlainError "");
  base64_decode _ := []; sha256 l := l; verifyEd25519 _ _ _ := Ok true;
|}.

Definition seconds (k : Z) (n : nat) : Z := k * 1000 * Z.of_nat n.

Definition stellar_wallet : string := "GDCZFUNJ7MXWBIQ6UUTJRGZIJF5EMRVJCSK73MA2U7K57GWMA4N3P6SL".

Definition empty_auth : AuthWorld :=
  {| a_nonces := ∅; a_tokens := ∅; a_tokenCache := ∅; a_replayCache := ∅; a_sequence := 1; a_events := [] |}.

(** A nonce was asked for: "0", valid until 601 s. *)
Definition nonce_world : AuthWorld := snd (run (createNonce (AOUT := trusting (seconds 1))) empty_auth).

Definition sign_in : auth_request := SignInStellar stellar_wallet "sig" "sign in with nonce 0" "0".

Lemma empty_auth_ok : auth_ok (AOUT := trusting (seconds 1)) empty_auth.
Proof. split; intros i x H; cbn in H; by rewrite lookup_empty in H. Qed.

Lemma nonce_world_ok : auth_ok (AOUT := trusting (seconds 1)) nonce_world.
Proof.
  pose proof (safe_run (auth_ok (AOUT := trusting (seconds 1))) auth_le _ _ _ (auth_safe_nonce (AOUT := trusting (seconds 1))) empty_auth_ok) as H.
  unfold nonce_world. destruct (run _ empty_auth) as [r w']. exact (proj1 H).
Qed.

(** Two requests with the same nonce, and the end of their race. *)
Definition nonce_race : pool AuthWorld unit :=
  run_schedule ([0; 0; 1; 1] ++ replicate 6 0 ++ replicate 6 1)%nat (map (serve_auth (AOUT := trusting (seconds 1))) [sign_in; sign_in], nonce_world).

Lemma tokens_authentic_witness :
  auth_ok (AOUT := trusting (seconds 1)) (snd nonce_race) /\ auth_le nonce_world (snd nonce_race) /\
  authentic (AOUT := trusting (seconds 1)) stellar_wallet.
Proof.
  pose proof (tokens_authentic (AOUT := trusting (seconds 1)) _ nonce_world nonce_race (Some "Bearer 4"%string)
    (run_schedule_steps _ _) nonce_world_ok) as H.
  destruct H as (H1 & H2 & H3). split; [exact H1|]. split; [exact H2|].
  assert (Hr : fst (run (access_guard (AOUT := trusting (seconds 1)) (Some "Bearer 4"%string)) (snd nonce_race)) = Ok stellar_wallet)
    by (vm_compute; reflexivity).
  rewrite Hr in H3. exact H3.
Defined.

(** The first of the two requests, between the steps of the second. *)
Lemma requests_answer_witness :
  exists q, fst (run_schedule [0; 1; 0; 1; 0; 1; 0; 1; 0; 1; 0; 1; 0; 0; 0; 0]%nat
    (map (serve_auth (AOUT := trusting (seconds 1))) [sign_in; sign_in], nonce_world)) !! 0%nat = Some q /\ answered q = true.
Proof.
  refine (requests_answer (AOUT := trusting (seconds 1)) [sign_in; sign_in] nonce_world _ 0%nat sign_in eq_refl _).
  vm_compute. lia.
Defined.

Lemma stellar_auth_correct_witness :
  let '(r, w') := run (verifyStellarAndIssueToken (AOUT := trusting (seconds 1)) stellar_wallet "sig" "sign in with nonce 0" "0") nonce_world in
  stellar_effect (AOUT := trusting (seconds 1)) stellar_wallet "sig" "sign in with nonce 0" "0" nonce_world w' r.
Proof.
  pose proof (stellar_auth_correct (AOUT := trusting (seconds 1)) stellar_wallet "sig" "sign in with nonce 0" "0" nonce_world) as H.
  exact H.
Defined.

Lemma validate_correct_witness :
  let '(r, w') := run (validateToken (AOUT := trusting (seconds 1)) "4") (snd nonce_race) in
  a_tokens w' = a_tokens (snd nonce_race) /\ a_nonces w' = a_nonces (snd nonce_race) /\
  match r with
  | Ok wallet =>
      (a_tokenCache w' = a_tokenCache (snd nonce_race) /\ exists e, a_tokenCache (snd nonce_race) !! token_key "4" = Some (wallet, e) /\
         live (auth_now (AuthOutside := trusting (seconds 1)) (a_events (snd nonce_race) ++
           [ANow (auth_now (AuthOutside := trusting (seconds 1)) (a_events (snd nonce_race)))])) e = true) \/
      (exists now, ANow now ∈ a_events w' /\ row_validated (AOUT := trusting (seconds 1)) "4" wallet now (snd nonce_race) w')
  | Throw _ => a_tokenCache w' = a_tokenCache (snd nonce_race)
  end.
Proof. pose proof (validate_correct (AOUT := trusting (seconds 1)) "4" (snd nonce_race)) as H. exact H. Defined.

(** A nonce is not single-use: it is read, and marked later by a save. Two sign-ins
    that run together both get a token for it; alone, the second one is refused. *)
Theorem nonce_used_twice :
  fst nonce_race = [Return tt; Return tt] /\ size (a_tokens (snd nonce_race)) = 2%nat /\
  let in_turn := run_schedule (replicate 8 0 ++ replicate 8 1)%nat (map (serve_auth (AOUT := trusting (seconds 1))) [sign_in; sign_in], nonce_world) in
  fst in_turn = [Return tt; Raise (UnauthorizedException "Invalid or expired nonce")].
Proof. vm_compute. auto. Qed.

(** A sign-in through Lemon, a hundred seconds between two readings of the clock. *)
Definition lemon (w : AuthWorld) : result (string * string) * AuthWorld :=
  run (verifySiweAndIssueToken (AOUT := trusting (seconds 100)) "0xsig" "message") w.

(** A sign-in message of the Lemon domains never expires: its nonce is not one this
    service issued, and is only remembered for ten minutes. The same message and
    signature, refused at first, sign in again afterwards. *)
Theorem lemon_replay :
  let w1 := snd (lemon empty_auth) in let w2 := snd (lemon w1) in
  is_ok (fst (lemon empty_auth)) = true /\
  fst (lemon w1) = Throw (UnauthorizedException "Nonce already used") /\
  is_ok (fst (lemon w2)) = true /\ size (a_tokens (snd (lemon w2))) = 2%nat.
Proof. vm_compute. auto. Qed.

(** A refreshed token can stay valid: an access that read the row before it was
    revoked caches it after the refresh has emptied the cache. *)
Definition token_world (expires : Z) : AuthWorld :=
  {| a_nonces := ∅; a_tokens := {[ 1 := {| at_token := "t"; at_walletAddress := stellar_wallet; at_revokedAt := None;
                                           at_expiresAt := Some expires |} ]};
     a_tokenCache := ∅; a_replayCache := ∅; a_sequence := 2; a_events := [] |}.

Theorem revoked_token_accepted :
  let c := run_schedule ([0; 0; 0] ++ replicate 8 1 ++ [0; 0])%nat
    (map (serve_auth (AOUT := trusting (seconds 1))) [Access (Some "Bearer t"%string); Refresh (Some "Bearer t"%string)], token_world 100000) in
  fst c = [Return tt; Return tt] /\ is_Some (a_tokens (snd c) !! 1 ≫= at_revokedAt) /\
  fst (run (access_guard (AOUT := trusting (seconds 1)) (Some "Bearer t"%string)) (snd c)) = Ok stellar_wallet.
Proof. vm_compute. eauto. Qed.

(** A token validated in the very millisecond it expires is cached for no time at
    all, which the cache takes for ever: it is accepted a year later, when its row
    is gone. *)
Theorem token_cached_for_ever :
  let clock n := if (n <=? 2)%nat then 5000 else 5000 + 31536000000 in
  let c := run_schedule (replicate 5 0 ++ replicate 4 1)%nat
    (map (serve_auth (AOUT := trusting clock)) [Access (Some "Bearer t"%string); CleanupAuth], token_world 5000) in
  fst c = [Return tt; Return tt] /\ a_tokens (snd c) = ∅ /\
  fst (run (access_guard (AOUT := trusting clock) (Some "Bearer t"%string)) (snd c)) = Ok stellar_wallet.
Proof. vm_compute. auto. Qed.
