(* ===== verification/Acting.v ===== *)
(** * Acting for a wallet

    What a request may do that was let in for a wallet: the rows it changes, the
    rows it adds and the calls it makes on chain are that wallet's. The relation is
    kept by everybody else's steps, so that what a request learnt of its user's row
    stays true between its awaits ([known_steady]). *)

From stdpp Require Import base tactics list gmap strings numbers.
From Stdlib Require Import Lia ZArith.
From S2P Require Import Prelude JsString JsNum Strkey Entities Gateway Store Async Judgements Kyc LoanVerification PhoneVerification UserStore.

Local Open Scope Z_scope.

(** ** Rows *)

(** Only rows of the owner were added, changed or removed. *)
Definition changes {A} (mine : A -> Prop) (t t' : gmap Z A) : Prop :=
  forall i, t !! i = t' !! i \/ (from_option mine True (t !! i) /\ from_option mine True (t' !! i)).

Section Changes.
  Context {A : Type}.
  Implicit Types (mine : A -> Prop) (t : gmap Z A).

Lemma changes_refl mine t : changes mine t t.
Proof. intros i. by left. Qed.

Lemma changes_trans mine t1 t2 t3 : changes mine t1 t2 -> changes mine t2 t3 -> changes mine t1 t3.
Proof.
  intros H1 H2 i. destruct (H1 i) as [E1|[? ?]], (H2 i) as [E2|[? ?]].
  - left. by rewrite E1.
  - right. by rewrite E1.
  - right. by rewrite <- E2.
  - by right.
Qed.

Lemma changes_mono mine mine' t t' : (forall a, mine a -> mine' a) -> changes mine t t' -> changes mine' t t'.
Proof.
  intros Hm H i. destruct (H i) as [?|[Ha Hb]]; [by left|right].
  destruct (t !! i), (t' !! i); cbn in *; auto.
Qed.

Lemma changes_insert mine t i a : mine a -> from_option mine True (t !! i) -> changes mine t (<[i := a]> t).
Proof.
  intros Ha Hi j. destruct (decide (j = i)) as [->|Hne]; [|left; by rewrite lookup_insert_ne].
  right. by rewrite lookup_insert_eq.
Qed.

Lemma changes_delete mine t i : from_option mine True (t !! i) -> changes mine t (delete i t).
Proof.
  intros Hi j. destruct (decide (j = i)) as [->|Hne]; [|left; by rewrite lookup_delete_ne].
  right. by rewrite lookup_delete_eq.
Qed.

Lemma changes_fmap mine t (f : A -> A) : (forall i a, t !! i = Some a -> f a = a \/ (mine a /\ mine (f a))) -> changes mine t (f <$> t).
Proof.
  intros Hf i. rewrite lookup_fmap. destruct (t !! i) as [a|] eqn:E; [|by left]. cbn.
  destruct (Hf i a E) as [->|?]; [by left|by right].
Qed.
End Changes.

(** ** The worlds *)

(** The wallet a call that writes outside is for: the borrower of the contract, the
    person whose identity is checked. A text message goes to a number. *)
Definition call_wallet (c : call) : option string :=
  match c with
  | CGiveCredit a _ _ _ | CCreateOffer _ a _ _ _ | CSetPremium a _ | CAccrueLate a _ | CKycCreate a => Some a
  | _ => None
  end.

(** The row of the user [i] is the wallet's. *)
Definition known (a : string) (i : Z) (w : World) : Prop := exists u, w_users w !! i = Some u /\ walletAddress u = a.

Section Acts.
  Context (V P : string -> Prop).

(** The loan's borrower is a user with such a wallet. *)
Definition owned (w : World) (l : Loan) : Prop := exists a, P a /\ known a (userId (terms l)) w.

(** Somebody was verified, whose wallet satisfies [V]; nothing else changed beside the
    users and the loans. *)
Definition verifies (w w' : World) : Prop :=
  loan_opened_cursor (w_side w') = loan_opened_cursor (w_side w) /\ metrics (w_side w') = metrics (w_side w) /\
  w_self w ⊆ w_self w' /\ forall i, i ∈ w_self w' -> i ∈ w_self w \/ exists a, V a /\ known a i w'.

(** From [w] to [w'] somebody acted for wallets that satisfy [P]; of those that satisfy
    [V] the row may have changed as well, but nothing was borrowed, called or added. *)
Record acts (w w' : World) : Prop := {
  acts_known : forall a i, known a i w -> known a i w';
  acts_users : changes (fun u => V (walletAddress u) \/ P (walletAddress u)) (w_users w) (w_users w');
  acts_new : forall i u, w_users w !! i = None -> w_users w' !! i = Some u -> P (walletAddress u);
  acts_loans : changes (owned w') (w_loans w) (w_loans w');
  acts_side : verifies w w';
  acts_calls : exists cs, w_calls w' = w_calls w ++ cs /\ Forall (fun c => from_option P True (call_wallet c)) cs;
}.

Lemma owned_later w w' l : (forall a i, known a i w -> known a i w') -> owned w l -> owned w' l.
Proof. intros Hk (a & Ha & Hi). exists a. auto. Qed.

Lemma verifies_same w w' : w_side w' = w_side w -> verifies w w'.
Proof. intros E. unfold verifies, w_self. rewrite E. split_and!; [done..|]. by left. Qed.

Lemma verifies_trans w1 w2 w3 : (forall a i, known a i w2 -> known a i w3) -> verifies w1 w2 -> verifies w2 w3 -> verifies w1 w3.
Proof.
  intros Hk (C1 & M1 & G1 & N1) (C2 & M2 & G2 & N2). split_and!; [congruence..|set_solver|].
  intros i Hi. destruct (N2 i Hi) as [Hi2|?]; [|by right]. destruct (N1 i Hi2) as [?|(a & Ha & Hka)]; [by left|right].
  exists a. auto.
Qed.

(** Nothing changed but the state of the transaction, and calls that are not on chain. *)
Lemma acts_quiet w w' cs :
  w_users w' = w_users w -> w_loans w' = w_loans w -> w_side w' = w_side w -> w_calls w' = w_calls w ++ cs ->
  Forall (fun c => from_option P True (call_wallet c)) cs -> acts w w'.
Proof.
  intros Hu Hl Hs Hc Hf. constructor; rewrite ?Hu, ?Hl; try done.
  - intros a i. unfold known. by rewrite Hu.
  - apply changes_refl.
  - intros i u E E'. by rewrite E in E'.
  - apply changes_refl.
  - by apply verifies_same.
  - by exists cs.
Qed.

#[export] Instance acts_refl : Reflexive acts.
Proof. intros w. apply (acts_quiet w w []); rewrite ?app_nil_r; done. Qed.

#[export] Instance acts_trans : Transitive acts.
Proof.
  intros w1 w2 w3 [K1 U1 N1 L1 S1 (c1 & C1 & F1)] [K2 U2 N2 L2 S2 (c2 & C2 & F2)]. constructor.
  - auto.
  - by eapply changes_trans.
  - intros i u Hn Hu. destruct (w_users w2 !! i) as [v|] eqn:Hv; [|by eapply N2].
    destruct (K2 (walletAddress v) i) as (u' & Hu' & E); [by exists v|].
    assert (u' = u) as -> by congruence. rewrite E. by eapply N1.
  - eapply changes_trans; [|exact L2]. eapply changes_mono; [|exact L1]. intros l. by apply owned_later.
  - by eapply verifies_trans.
  - exists (c1 ++ c2). rewrite C2, C1, app_assoc. split; [done|by apply Forall_app].
Qed.

(** The users change, and nothing else. *)
Lemma acts_set_users w t :
  (forall a i, known a i w -> known a i (set_users t w)) ->
  changes (fun u => V (walletAddress u) \/ P (walletAddress u)) (w_users w) t ->
  (forall i u, w_users w !! i = None -> t !! i = Some u -> P (walletAddress u)) -> acts w (set_users t w).
Proof.
  intros Hk Hu Hn. constructor; try done; [apply changes_refl|by apply verifies_same|]. exists []. by rewrite app_nil_r.
Qed.

Lemma acts_set_loans w t : changes (owned w) (w_loans w) t -> acts w (set_loans t w).
Proof.
  intros Hl. constructor; try done; [apply changes_refl| |by apply verifies_same|exists []; by rewrite app_nil_r].
  intros i u E E'. cbn in E'. by rewrite E in E'.
Qed.

Lemma acts_log w c : from_option P True (call_wallet c) -> acts w (log_call c w).
Proof. intros Hc. apply (acts_quiet w (log_call c w) [c]); try done. by repeat constructor. Qed.
End Acts.

(** The registration's world: the people who wait are the wallet's too. *)
Definition onboard_acts (V P : string -> Prop) (w w' : OnboardWorld) : Prop :=
  acts V P (o_main w) (o_main w') /\ changes (fun p => P (nv_walletAddress p)) (o_pending w) (o_pending w').

#[export] Instance onboard_acts_refl V P : Reflexive (onboard_acts V P).
Proof. intros w. split; [done|apply changes_refl]. Qed.

#[export] Instance onboard_acts_trans V P : Transitive (onboard_acts V P).
Proof. intros w1 w2 w3 [? ?] [? ?]. split; [by etrans|by eapply changes_trans]. Qed.

(** Every row is stored under its id. *)
Definition onboard_tables_ok (w : OnboardWorld) : Prop :=
  tables_ok (o_main w) /\ map_Forall (fun i p => nv_id p = i) (o_pending w).

(** ** The statements of the database *)

Section Statements.
  Context `{DB : Database} `{OUT : Outside} {LAWS : DatabaseLaws DB} (V P : string -> Prop).

Abbreviation wdoes := (does tables_ok (acts V P)).
Abbreviation wholds := (holds tables_ok (acts V P)).
Abbreviation wsteady := (steady (acts V P)).

Lemma nothing_steady : wsteady (fun _ => True).
Proof. done. Qed.

Lemma known_steady a i : wsteady (known a i).
Proof. intros w w' H. apply (acts_known _ _ _ _ H). Qed.

Lemma acts_set_tx s w : acts V P w (set_tx s w).
Proof. apply (acts_quiet V P w (set_tx s w) []); by rewrite ?app_nil_r. Qed.

Lemma acts_poison w : acts V P w (poison w).
Proof. unfold poison. destruct (w_tx w); [done|apply acts_set_tx|done]. Qed.

Lemma tables_poison w : tables_ok w -> tables_ok (poison w).
Proof. unfold poison. by destruct (w_tx w). Qed.

Lemma does_statement {A} K (Q : World -> A -> Prop) (f : World -> result (A * (World -> World))) :
  (forall w a eff, tables_ok w -> K w -> f w = Ok (a, eff) -> tables_ok (eff w) /\ acts V P w (eff w) /\ Q (eff w) a) ->
  wdoes K Q (statement f).
Proof.
  intros H w Hw HK. unfold statement. destruct (w_tx w).
  2: destruct (f w) as [[a eff]|e] eqn:E; cbn [fst snd];
     [destruct (H w a eff Hw HK E) as (? & ? & ?); split_and!; [done..|]; by intros b [= <-]
     |split_and!; [by apply tables_poison|apply acts_poison|done]].
  2: by split_and!.
  destruct (f w) as [[a eff]|e] eqn:E; cbn [fst snd].
  - destruct (H w a eff Hw HK E) as (? & ? & ?). split_and!; [done..|]. by intros b [= <-].
  - split_and!; [by apply tables_poison|apply acts_poison|done].
Qed.

(** A query answers what the tables hold. *)
Lemma does_query {A} (K : World -> Prop) (f : World -> result A) : wdoes K (fun w a => K w /\ f w = Ok a) (query f).
Proof. apply does_statement. intros w a eff Hw HK H. destruct (f w) eqn:E; [|done]. injection H as -> <-. by split_and!. Qed.

Lemma does_outside {A} K (f : list call -> result A) c :
  (forall r, from_option P True (call_wallet (c r))) -> wdoes K (fun _ _ => True) (outside f c).
Proof. intros Hc w Hw HK. split_and!; [done| |done]. apply acts_log, Hc. Qed.

(** A row that keeps its wallet takes the place of the user's. *)
Lemma acts_row w i u u' :
  tables_ok w -> w_users w !! i = Some u -> user_id u' = i -> walletAddress u' = walletAddress u ->
  V (walletAddress u) \/ P (walletAddress u) ->
  tables_ok (set_users (<[i := u']> (w_users w)) w) /\ acts V P w (set_users (<[i := u']> (w_users w)) w).
Proof.
  intros [Hu Hl] Hi Hid Ha Hp. split.
  - split; [|done]. by apply map_Forall_insert_2.
  - apply acts_set_users; [|apply changes_insert; [by rewrite Ha|by rewrite Hi]|].
    2: { intros j v Hn. rewrite lookup_insert_ne by congruence. by rewrite Hn. }
    intros a j (v & Hv & Hva). unfold known. cbn. destruct (decide (j = i)) as [->|Hne]; [|rewrite lookup_insert_ne by done; eauto].
    rewrite lookup_insert_eq. exists u'. split; [done|]. congruence.
Qed.

(** A row that was read is written back, of a wallet that may change. *)
Lemma does_write_user a u : V a \/ P a -> walletAddress u = a -> wdoes (known a (user_id u)) (fun _ _ => True) (save_user u).
Proof.
  intros Ha Hua. apply does_statement. intros w [] eff Hw (v & Hv & Hva) H. destruct (db_user_error _ _); [done|]. injection H as <-.
  destruct (acts_row w (user_id u) v (stored_user u) Hw Hv) as [H1 H2]; [done|cbn; congruence|by rewrite Hva|by split_and!].
Qed.

Context (a : string) (Ha : P a).

Lemma does_update_user i patch : keeps_identity patch -> wdoes (known a i) (fun _ _ => True) (update_user i patch).
Proof.
  intros Hp. apply does_statement. intros w [] eff Hw (u & Hu & Hua) H. rewrite Hu in H.
  destruct (db_user_error _ _); [done|]. injection H as <-. destruct (Hp u) as [Hid Hwa].
  pose proof (proj1 Hw i u Hu) as Hi. cbn in Hi. edestruct acts_row; [exact Hw|exact Hu| | | |split_and!; [eassumption..|done]].
  - congruence.
  - done.
  - right. by rewrite Hua.
Qed.

Lemma does_save_user u : walletAddress u = a -> wdoes (known a (user_id u)) (fun _ _ => True) (save_user u).
Proof. apply does_write_user. by right. Qed.

Lemma does_update_wallet K patch : keeps_identity patch -> wdoes K (fun _ _ => True) (update_users (by_wallet a) patch).
Proof.
  intros Hp. apply does_statement. intros w [] eff Hw HK H. destruct (List.find _ _); [done|]. injection H as <-.
  set (f := fun u => if by_wallet a u then patch u else u).
  assert (Hf : keeps_identity f) by (intros u; unfold f; destruct (by_wallet a u); [apply Hp|done]).
  split_and!; [| |done].
  - destruct Hw as [Hu Hl]. split; [|done]. intros i u. cbn. rewrite lookup_fmap. destruct (w_users w !! i) as [v|] eqn:E; [|done].
    intros [= <-]. destruct (Hf v) as [-> _]. exact (Hu i v E).
  - apply acts_set_users.
    + intros b i (v & Hv & Hvb). unfold known. cbn. rewrite lookup_fmap, Hv. exists (f v). split; [done|]. by rewrite (proj2 (Hf v)).
    + apply changes_fmap. intros i u Hu. unfold f. destruct (by_wallet a u) eqn:E; [|by left]. right.
      unfold by_wallet in E. apply bool_decide_eq_true_1 in E. rewrite (proj2 (Hp u)), E. by split; right.
    + intros i u Hn. rewrite lookup_fmap, Hn. done.
Qed.

(** The user that is looked up by the wallet. *)
Definition found (o : option User) (w : World) : Prop :=
  match o with Some u => known a (user_id u) w /\ walletAddress u = a | None => True end.

Lemma does_find_mine K : wdoes K (fun w o => found o w) (find_user (by_wallet a)).
Proof.
  apply does_statement. intros w o eff Hw HK H. destruct (db_find_user w (by_wallet a)) as [o'|] eqn:E; [|done].
  injection H as -> <-. split_and!; [done|done|]. destruct o as [u|]; [|done]. apply find_user_some in E as (i & Hi & Hb).
  unfold by_wallet in Hb. apply bool_decide_eq_true_1 in Hb. pose proof (proj1 Hw i u Hi) as Hid. cbn in Hid. subst i.
  split; [by exists u|done].
Qed.

(** What a request does once it has looked up its user. *)
Lemma holds_find_mine {A} K (Q : A -> Prop) (k : option User -> proc World A) :
  wsteady K -> (forall u, walletAddress u = a -> wholds (known a (user_id u)) Q (k (Some u))) -> wholds (fun _ => True) Q (k None) ->
  wholds K Q (await (find_user (by_wallet a)) ≫= k).
Proof.
  intros HK Hs Hn. eapply holds_learn; [exact HK|apply does_find_mine|]. intros [u|]; cbn [found]; [|exact Hn].
  apply holds_fact, Hs.
Qed.

(** ** Transactions *)

Lemma does_transaction {A} K (Q : A -> Prop) (body : M World A) :
  wsteady K -> wdoes K (fun _ => Q) body -> wdoes K (fun _ => Q) (transaction body).
Proof.
  intros HK Hb w Hw HKw. destruct (Hb (set_tx TxActive w)) as (HI & HR & HQ); [done|by eapply HK; [apply acts_set_tx|]|].
  unfold transaction. destruct (body _) as [r w']. cbn [fst snd] in *.
  assert (Hroll : forall w0, w_users w0 = w_users w -> w_loans w0 = w_loans w -> w_side w0 = w_side w -> w_calls w0 = w_calls w' ->
    tables_ok w0 /\ acts V P w w0).
  { intros w0 Eu El Es Ec. split; [by unfold tables_ok; rewrite Eu, El|]. destruct HR as [_ _ _ _ _ (cs & Hcs & Hf)].
    apply (acts_quiet V P w w0 cs); try done. by rewrite Ec. }
  assert (Hdone : tables_ok (set_tx (w_tx w) w') /\ acts V P w (set_tx (w_tx w) w')).
  { split; [done|]. etrans; [apply (acts_set_tx TxActive)|]. etrans; [exact HR|]. apply acts_set_tx. }
  destruct r as [b|e].
  - assert (Q b) by by apply HQ. destruct (w_tx w'); cbn [fst snd].
    1,2: destruct Hdone; split_and!; [done..|by intros ? [= <-]].
    destruct (Hroll {| w_users := w_users w; w_loans := w_loans w; w_side := w_side w; w_tx := w_tx w; w_calls := w_calls w' |}); [done..|].
    split_and!; [done..|by intros ? [= <-]].
  - destruct (Hroll {| w_users := w_users w; w_loans := w_loans w; w_side := w_side w; w_tx := w_tx w; w_calls := w_calls w' |}); [done..|].
    by split_and!.
Qed.
End Statements.
