(* ===== verification/ActingServices.v ===== *)
(** * The services act for the wallet they are called for

    Enabling the line, terms, borrowing, openings, repayments, the identity and the
    phone: called for the wallet [a], each changes only rows of [a] and makes calls
    on chain only for [a], whatever runs between its awaits. *)

From stdpp Require Import base tactics list gmap strings numbers.
From Stdlib Require Import Lia ZArith.
From S2P Require Import Prelude JsString JsNum AmountUnits DecimalLib CreditPolicy LoanCalc Strkey Entities Gateway Store Async Judgements Kyc EarlyAccess LoanVerification LoanService LoanRepayment Ledger Requests PhoneVerification UserStore UserQuery Onboarding Acting.

Local Open Scope Z_scope.

Create HintDb acts.

(** ** The services over the tables *)

Section Services.
  Context `{ENV : Env} `{DB : Database} `{OUT : Outside} `{D : DecimalJs} `{JM : JsMath} `{MSG : Messaging} {LAWS : DatabaseLaws DB}.
  Context (V P : string -> Prop) (a : string) (Ha : P a).

(** An operation, a process that only acts for such wallets. *)
Abbreviation calm_op K m := (does tables_ok (acts V P) K (fun _ _ => True) m).
Abbreviation calm K p := (holds tables_ok (acts V P) K (fun _ => True) p).
Abbreviation lasting := (steady (acts V P)).

Lemma calm_query {A} K (f : World -> result A) : calm_op K (query f).
Proof. eapply does_any. apply does_query. Qed.

Lemma calm_pguard K b e : calm K (pguard b e).
Proof. by destruct b. Qed.

Lemma calm_result {A} K (r : result A) : calm K (of_result r).
Proof. eapply holds_any; [apply _..|apply holds_result]. Qed.

Lemma calm_lift {A} K (r : result A) : calm_op K (lift r).
Proof. eapply does_any. apply does_lift, _. Qed.

Lemma calm_settle {A} K (p : proc World A) : lasting K -> calm K p -> calm K (settle p).
Proof. intros HK Hp. eapply holds_any; [apply _..|]. by apply holds_settle. Qed.

Lemma calm_step {A B} K (Q : B -> Prop) (p : proc World A) k :
  lasting K -> calm K p -> (forall x, holds tables_ok (acts V P) K Q (k x)) -> holds tables_ok (acts V P) K Q (p ≫= k).
Proof. intros HK Hp Hk. eapply holds_bind; [apply _..|exact HK|exact Hp|]. intros x _. apply Hk. Qed.

Ltac lasting := solve [apply known_steady | apply nothing_steady].

(** A step of the program that says nothing about the user, or is known to be fine. *)
Ltac calm_leaf :=
  first
    [ solve [eauto with acts nocore]
    | solve [by apply holds_return]
    | solve [by apply holds_raise]
    | solve [apply calm_pguard | apply calm_result | apply calm_lift | apply calm_query | apply does_guard, _ | apply does_throw, _]
    | solve [apply does_ret; [apply _|done]]
    | solve [apply does_outside; intros ?; first [exact I | exact Ha]] ].

Ltac solve_acts :=
  repeat first
    [ calm_leaf
    | rewrite return_bind
    | apply holds_find_mine; [lasting|intros ? ?|]
    | apply calm_step; [lasting| |intros ?]
    | apply holds_await; [apply _..|lasting|]
    | apply holds_try; [apply _..|lasting| |intros ?]
    | apply calm_settle; [lasting|]
    | apply does_seq; [apply _|lasting| |intros ?]
    | apply does_try; [apply _|lasting| |intros ?]
    | progress case_scrut ].

(** *** Enabling the credit line *)

Lemma platform_identity p : keeps_identity (set_platform p).
Proof. done. Qed.

Lemma line_identity s l : keeps_identity (set_score_and_limit s l).
Proof. done. Qed.

Hint Extern 1 (does _ _ _ _ (update_user _ _)) => apply does_update_user; done : acts.

(** The user in memory is still the user. *)
Definition same_user (u v : User) : Prop := user_id v = user_id u /\ walletAddress v = walletAddress u.

Lemma acts_settle_platform u pf :
  walletAddress u = a -> holds tables_ok (acts V P) (known a (user_id u)) (fun r => same_user u (fst r)) (settle_platform_async u pf).
Proof.
  intros Hu. unfold settle_platform_async.
  assert (Hset : forall v p, same_user u v ->
    holds tables_ok (acts V P) (known a (user_id u)) (same_user u) (_ ← await (update_user (user_id v) (set_platform p)); Return (set_platform p v))).
  { intros v p [Hv Hv']. apply calm_step; [lasting| |by intros _; apply holds_return].
    apply holds_await; [apply _..|lasting|]. rewrite Hv. by apply does_update_user. }
  apply (holds_bind _ _ _ (same_user u)); [apply _..|lasting| |].
  - destruct (platform (onboarding u)) as [[]|], pf; first [by apply holds_return | by apply Hset].
  - intros v Hv. set (eff := match normalizePlatform _ with Some _ => _ | None => _ end).
    apply (holds_bind _ _ _ (same_user u)); [apply _..|lasting| |by intros x Hx; apply holds_return].
    case_scrut; [by apply Hset|by apply holds_return].
Qed.

Lemma acts_verify_user u pf : walletAddress u = a -> calm (known a (user_id u)) (verify_user_async a u pf).
Proof.
  intros Hu. unfold verify_user_async.
  assert (forall i p, calm_op (known a i) (ensureSelfVerificationForPlatform p))
    by (intros; unfold ensureSelfVerificationForPlatform, isUserSelfVerified; solve_acts).
  assert (forall i u p, calm_op (known a i) (isEarlyUser u p)) by (intros; unfold isEarlyUser, EarlyAccess.getRankWithinPlatform; solve_acts).
  assert (forall i p, calm_op (known a i) (getUserUntilWaitlist p)) by (intros; apply does_ret; [apply _|done]).
  eapply holds_bind; [apply _..|lasting|by apply acts_settle_platform|]. intros [v eff] [Hv Hva]. cbn [fst] in *.
  unfold verify_existing_async, verify_first_time_async. rewrite Hv. solve_acts.
Qed.
Hint Resolve acts_verify_user : acts.

Lemma acts_verify dto : normalizeWallet (vd_walletAddress dto) = Ok a -> calm (fun _ => True) (verify_async dto).
Proof. intros Hn. unfold verify_async. rewrite Hn. cbn [of_result]. rewrite return_bind. solve_acts. Qed.

(** *** Terms, borrowing *)

Lemma acts_pricing K u : lasting K -> calm K (pricing_context_async u).
Proof.
  intros HK. unfold pricing_context_async, getTieredPricingContext_async.
  repeat first [calm_leaf | apply calm_step; [exact HK| |intros ?] | apply holds_await; [apply _..|exact HK|]].
Qed.
Hint Extern 1 (holds _ _ _ _ (pricing_context_async _)) => apply acts_pricing; lasting : acts.

Lemma acts_terms b amount : normalizeWallet b = Ok a -> calm (fun _ => True) (getLoanTerms_async b amount).
Proof. intros Hn. unfold getLoanTerms_async. rewrite Hn. cbn [of_result]. rewrite return_bind. solve_acts. Qed.

Lemma acts_offer K amount tenor fee : lasting K -> calm_op K (offer_loan amount a tenor fee).
Proof.
  intros HK. unfold offer_loan.
  repeat first [calm_leaf | apply does_try; [apply _|exact HK| |intros ?] | apply does_seq; [apply _|exact HK| |intros ?]].
Qed.
Hint Extern 1 (does _ _ _ _ (offer_loan _ _ _ _)) => apply acts_offer; lasting : acts.

Lemma acts_cooldown K : lasting K -> calm K (assertNoBorrowCooldown_async a).
Proof.
  intros HK. unfold assertNoBorrowCooldown_async. destruct gw_readNextBorrowTime as [read|]; [|by apply holds_return].
  repeat first [calm_leaf | apply calm_step; [exact HK| |intros ?] | apply holds_await; [apply _..|exact HK|]
    | apply holds_try; [apply _..|exact HK| |intros ?] | progress case_scrut].
Qed.
Hint Extern 1 (holds _ _ _ _ (assertNoBorrowCooldown_async _)) => apply acts_cooldown; lasting : acts.

Lemma acts_borrow dto : normalizeWallet (bd_receiver dto) = Ok a -> calm (fun _ => True) (borrow_async dto).
Proof.
  intros Hn. unfold borrow_async, borrow_user_async. rewrite Hn. cbn [of_result]. solve_acts.
Qed.

(** *** Openings *)

(** The loan's row is of the user [i]. *)
Definition loan_of (i : Z) (w : World) (l : Loan) : Prop :=
  userId (terms l) = i /\ exists l0, w_loans w !! loan_id l = Some l0 /\ userId (terms l0) = i.

Definition loans_of (i : Z) (ls : list Loan) (w : World) : Prop := known a i w /\ Forall (loan_of i w) ls.

Lemma acts_loan_row w i l :
  tables_ok w -> known a i w -> userId (terms l) = i ->
  match w_loans w !! loan_id l with Some l0 => userId (terms l0) = i | None => True end ->
  tables_ok (set_loans (<[loan_id l := stored_loan l]> (w_loans w)) w) /\
  acts V P w (set_loans (<[loan_id l := stored_loan l]> (w_loans w)) w).
Proof.
  intros [Hu Hl] Hk Hi Hold. split; [split; [done|by apply map_Forall_insert_2]|].
  apply acts_set_loans, changes_insert; [exists a; split; [exact Ha|by rewrite <- Hi in Hk]|].
  destruct (w_loans w !! loan_id l) as [l0|]; [|done]. exists a. split; [exact Ha|]. by rewrite Hold.
Qed.

(** The rows of others, and the other rows of the user, stay. *)
Lemma does_save_loan i l ls :
  does tables_ok (acts V P) (fun w => known a i w /\ loan_of i w l /\ Forall (loan_of i w) ls)
    (fun w _ => loans_of i ls w) (save_loan l).
Proof.
  apply does_statement. intros w [] eff Hw (Hk & (Hi & l0 & Hl0 & Hi0) & Hls) H. destruct (db_loan_error w l); [done|]. injection H as <-.
  destruct (acts_loan_row w i l Hw Hk Hi) as [H1 H2]; [by rewrite Hl0|]. split_and!; [done..|].
  split; [exact Hk|]. eapply list.Forall_impl; [exact Hls|]. intros m (Hm & m0 & Hm0 & Him). split; [done|]. cbn.
  destruct (decide (loan_id m = loan_id l)) as [E|E]; [|rewrite lookup_insert_ne by done; eauto].
  rewrite E, lookup_insert_eq. by eexists.
Qed.

Lemma does_save_loans i ls : does tables_ok (acts V P) (loans_of i ls) (fun w _ => known a i w) (save_loans ls).
Proof.
  induction ls as [|l ls IH]; cbn [save_loans]; [apply does_ret; [apply _|by intros w []]|].
  eapply (does_bind _ _ _ (fun w _ => loans_of i ls w)); [|intros _; apply IH].
  eapply (does_mono _ _ _ _ (fun w _ => loans_of i ls w)); [|by intros ? ?|apply (does_save_loan i l ls)].
  intros w (Hk & Hls). by inversion Hls.
Qed.

Lemma does_orphans i : does tables_ok (acts V P) (known a i) (fun w ls => loans_of i ls w) (find_loans (orphan_of i)).
Proof.
  eapply does_statement. intros w ls eff Hw Hk H. destruct (db_find_loans w _) as [ls'|] eqn:E; [|done]. injection H as -> <-.
  split_and!; [done..|]. split; [done|]. apply list.Forall_forall. intros l Hl. apply (find_loans_spec _ _ _ l E) in Hl as (j & Hj & Ho).
  unfold orphan_of, of_user in Ho. bool_to_prop. split; [done|]. pose proof (proj2 Hw j l Hj) as Hid. cbn in Hid. subst j. eauto.
Qed.

Lemma does_insert_loan t s : does tables_ok (acts V P) (known a (userId t)) (fun _ _ => True) (insert_loan t s).
Proof.
  apply does_statement. intros w l' eff Hw Hk H. cbn zeta in H. set (l := {| loan_id := _ |}) in H. destruct (db_loan_error w l); [done|].
  injection H as <- <-. destruct (acts_loan_row w (userId t) l Hw Hk eq_refl) as [H1 H2]; [|split_and!; [exact H1|exact H2|done]].
  cbn [loan_id l]. by rewrite (new_loan_id_fresh w).
Qed.

Lemma does_date (K : World -> Prop) : (forall w c, K w -> K (log_call c w)) -> does tables_ok (acts V P) K (fun w _ => K w) date_now.
Proof. intros HK w Hw Hk. split_and!; [done|by apply acts_log|]. intros t _. by apply HK. Qed.

Lemma acts_open_tx u dto p due fee :
  does tables_ok (acts V P) (known a (user_id u)) (fun _ _ => True) (open_loan_tx u a dto p due fee).
Proof.
  unfold open_loan_tx. apply does_seq; [apply _|lasting|apply calm_query|]. intros [l|]; [apply does_ret; [apply _|done]|].
  apply does_seq; [apply _|lasting|apply calm_query|]. intros [l|]; [apply does_ret; [apply _|done]|].
  eapply does_bind; [apply _|apply does_orphans|]. intros ls.
  eapply (does_bind tables_ok (acts V P) (loans_of (user_id u) ls) (fun w _ => known a (user_id u) w)).
  - destruct ls as [|l ls]; [apply does_ret; [apply _|by intros w []]|].
    eapply does_bind; [apply _|by apply does_date|]. intros now.
    eapply does_mono; [| |apply (does_save_loans (user_id u))]; [|done]. intros w [Hk Hls]. split; [done|].
    apply Forall_map. eapply list.Forall_impl; [exact Hls|]. done.
  - intros _. apply does_seq; [apply _|lasting|apply does_outside; by intros|]. intros start. unfold insert_or_existing.
    apply does_try; [apply _|lasting| |].
    + eapply does_mono; [| |apply does_insert_loan]; done.
    + intros e. destruct e; try (apply does_throw, _). apply does_seq; [apply _|lasting|apply calm_query|].
      intros [l|]; [apply does_ret; [apply _|done]|apply does_throw, _].
Qed.

Lemma acts_opening dto : normalizeWallet (il_walletAddress dto) = Ok a -> calm (fun _ => True) (informLoanOpened_async dto).
Proof.
  intros Hn. unfold informLoanOpened_async. rewrite Hn. cbn [of_result]. rewrite return_bind.
  assert (forall u p due fee, calm_op (known a (user_id u)) (transaction (open_loan_tx u a dto p due fee)))
    by (intros; apply (does_transaction V P _ (fun _ => True)); [lasting|apply acts_open_tx]).
  unfold inform_opened_user_async, assertLoanOpenedTxValid_async. solve_acts.
Qed.

(** *** Repayments *)

Lemma acts_repay_tx u paid dto :
  walletAddress u = a -> does tables_ok (acts V P) (known a (user_id u)) (fun _ o => same_user u (ro_user o)) (repay_tx u paid dto).
Proof.
  intros Hu. unfold repay_tx.
  eapply (does_bind _ _ _ (fun w o => match o with Some l => loans_of (user_id u) [l] w | None => True end)).
  - apply does_statement. intros w o eff Hw Hk H. destruct (db_find_loan w _ _) as [o'|] eqn:E; [|done]. injection H as -> <-.
    split_and!; [done..|]. destruct o as [l|]; [|done]. split; [done|]. apply find_loan_some in E as (j & Hj & Ho).
    unfold active_of, of_user in Ho. bool_to_prop. pose proof (proj2 Hw j l Hj) as Hid. cbn in Hid. subst j.
    constructor; [|constructor]. split; eauto.
  - intros [l|]; [|apply does_throw, _].
    eapply (does_bind _ _ _ (fun w _ => loans_of (user_id u) [l] w)); [intros w Hw Hk; by split_and!|]. intros q.
    eapply does_bind; [apply _|by apply does_date|]. intros now.
    eapply (does_bind _ _ _ (fun w _ => known a (user_id u) w)).
    { eapply (does_mono _ _ _ _ (fun w _ => loans_of (user_id u) [] w)); [| |apply (does_save_loan (user_id u) _ [])].
      - intros w [Hk Hl]. inversion Hl. by split_and!.
      - by intros w [] []. }
    intros _. apply (does_bind _ _ _ (fun _ v => same_user u v)); [|intros v; apply does_ret; [apply _|done]].
    case_scrut; [|apply does_ret; [apply _|done]].
    apply does_seq; [apply _|lasting|by apply (does_save_user V P a Ha (set_hadDefaultEver u))|]. intros _.
    apply does_ret; [apply _|done].
Qed.

Lemma same_raise_xp n u v : same_user u v -> same_user u (raise_xp n v).
Proof. unfold same_user, raise_xp. by destruct (_ <? _). Qed.

Lemma acts_push_line u v s limit : walletAddress u = a -> same_user u v -> calm (known a (user_id u)) (push_line_async a s limit v).
Proof.
  intros Hu [Hv Hva]. unfold push_line_async. solve_acts.
  rewrite <- Hv. apply (does_save_user V P a Ha (set_score_and_limit s limit v)). cbn. congruence.
Qed.

Lemma acts_update_line u v onTime post n :
  walletAddress u = a -> same_user u v -> calm (known a (user_id u)) (update_line_async a v onTime post n).
Proof.
  intros Hu Hv. unfold update_line_async. destruct onTime; [by apply acts_push_line; [|apply same_raise_xp]|].
  destruct post; [by apply acts_push_line|]. solve_acts.
Qed.

Lemma acts_verify_repayment K tx : lasting K -> calm K (verify_repayment_async a tx).
Proof.
  intros HK. unfold verify_repayment_async, verify_repay_tx_async.
  repeat first [calm_leaf | apply calm_step; [exact HK| |intros ?] | apply holds_await; [apply _..|exact HK|]
    | apply holds_try; [apply _..|exact HK| |intros ?] | progress case_scrut].
Qed.

Lemma acts_repayment dto : normalizeWallet (ir_walletAddress dto) = Ok a -> calm (fun _ => True) (processRepayment_async dto).
Proof.
  intros Hn. unfold processRepayment_async. rewrite Hn. cbn [of_result]. rewrite return_bind.
  apply holds_find_mine; [lasting| |by apply holds_raise]. intros u Hu. unfold process_user_async.
  apply calm_step; [lasting|apply acts_verify_repayment; lasting|]. intros paid.
  apply calm_step; [lasting|solve_acts|]. intros _. apply calm_step; [lasting|solve_acts|]. intros [l|]; [by apply holds_return|].
  eapply (holds_bind _ _ _ (fun o => same_user u (ro_user o))); [apply _..|lasting| |].
  - apply holds_await; [apply _..|lasting|]. apply does_transaction; [lasting|by apply acts_repay_tx].
  - intros o Ho. unfold finish_repayment_async. apply calm_step; [lasting|solve_acts|]. intros n.
    apply calm_step; [lasting|by apply acts_update_line|]. intros v. solve_acts.
Qed.

Lemma acts_preflight b force : normalizeWallet b = Ok a -> calm (fun _ => True) (preflightRepayment_async b force).
Proof.
  intros Hn. unfold preflightRepayment_async, preflight_reads_async, preflight_loan_async. rewrite Hn. cbn [of_result]. rewrite return_bind.
  solve_acts.
Qed.

Lemma acts_history : calm (fun _ => True) (await (getHistory a)).
Proof. unfold getHistory. solve_acts. Qed.

(** *** Identity and phone *)

Lemma normalized : normalizeWallet a = Ok a -> of_result (W := World) (normalizeWallet a) = Return a.
Proof. by intros ->. Qed.

Lemma pending_identity s : keeps_identity (patch_pending s).
Proof. done. Qed.

Lemma acts_find_user {A} (Q : A -> Prop) (k : User -> proc World A) :
  normalizeWallet a = Ok a ->
  (forall u, walletAddress u = a -> holds tables_ok (acts V P) (known a (user_id u)) Q (k u)) ->
  holds tables_ok (acts V P) (fun _ => True) Q (findUserOrThrow a ≫= k).
Proof.
  intros Hn Hk. unfold findUserOrThrow. rewrite normalized by done. rewrite return_bind. apply holds_assoc.
  apply holds_find_mine; [lasting| |by apply holds_raise]. intros u Hu. cbn [result_of_option of_result]. rewrite return_bind. by apply Hk.
Qed.

Lemma acts_kyc_start : normalizeWallet a = Ok a -> calm (fun _ => True) (Kyc.start a).
Proof.
  intros Hn. unfold Kyc.start. apply acts_find_user; [done|]. intros u Hu. rewrite Hu. solve_acts.
Qed.

Lemma acts_kyc_status : normalizeWallet a = Ok a -> calm (fun _ => True) (kyc_status a).
Proof. intros Hn. unfold kyc_status. apply acts_find_user; [done|]. intros u Hu. solve_acts. Qed.

Lemma acts_send number : normalizeWallet a = Ok a -> forall i, calm (known a i) (sendVerification number a).
Proof.
  intros Hn i. unfold sendVerification, deliver_otp. rewrite normalized by done. rewrite return_bind.
  assert (forall c t, calm_op (known a i) (update_users (by_wallet a) (patch_code c t))) by (intros; by apply does_update_wallet).
  solve_acts.
Qed.

Lemma acts_check number code : normalizeWallet a = Ok a -> forall i, calm (known a i) (checkVerification number code a).
Proof.
  intros Hn i. unfold checkVerification. rewrite normalized by done. rewrite return_bind.
  assert (forall c t, calm_op (known a i) (update_users (by_wallet a) (patch_code c t))) by (intros; by apply does_update_wallet).
  apply calm_step; [lasting|solve_acts|]. intros [u|]; solve_acts.
Qed.

Lemma acts_free number i : calm (known a i) (ensurePhoneIsFreeForWallet number a).
Proof. unfold ensurePhoneIsFreeForWallet. apply calm_step; [lasting|solve_acts|]. intros [u|]; solve_acts. Qed.

Lemma acts_throttle u i : calm (known a i) (assertPhoneOtpThrottle u).
Proof. unfold assertPhoneOtpThrottle. solve_acts. Qed.

Hint Resolve acts_send acts_check acts_free acts_throttle : acts.

Lemma acts_phone_user {A} (Q : A -> Prop) (k : User -> proc World A) :
  (forall u, walletAddress u = a -> holds tables_ok (acts V P) (known a (user_id u)) Q (k u)) ->
  holds tables_ok (acts V P) (fun _ => True) Q (findPhoneUser a ≫= k).
Proof.
  intros Hk. unfold findPhoneUser. apply holds_assoc.
  apply holds_find_mine; [lasting| |by apply holds_raise]. intros u Hu. cbn [result_of_option of_result]. rewrite return_bind. by apply Hk.
Qed.

Lemma acts_phone b number : normalizeWallet b = Ok a -> calm (fun _ => True) (verifyPhone b number).
Proof.
  intros Hn. pose proof (normalizeWallet_fixed _ _ Hn). unfold verifyPhone. rewrite Hn. cbn [of_result]. rewrite return_bind.
  apply acts_phone_user. intros u Hu. solve_acts.
Qed.

Lemma acts_phone_otp b number code : normalizeWallet b = Ok a -> calm (fun _ => True) (verifyPhoneOtp b number code).
Proof.
  intros Hn. pose proof (normalizeWallet_fixed _ _ Hn). unfold verifyPhoneOtp. rewrite Hn. cbn [of_result]. rewrite return_bind.
  apply acts_phone_user. intros u Hu. solve_acts.
Qed.

Lemma acts_update_phone b number : normalizeWallet b = Ok a -> calm (fun _ => True) (updatePhone b number).
Proof.
  intros Hn. pose proof (normalizeWallet_fixed _ _ Hn). unfold updatePhone. rewrite Hn. cbn [of_result]. rewrite return_bind.
  apply acts_phone_user. intros u Hu. solve_acts.
Qed.
End Services.

(** * Registration acts for the wallet it is called for

    The terms, the e-mail, the waitlist and the one-time password: called for the
    wallet [a], a request changes, adds and removes only rows of [a], among the
    users and among the people who have not verified their e-mail. *)

Section Registration.
  Context `{DB : Database} `{OUT : Outside} `{ODB : OnboardDatabase} `{OOUT : OnboardOutside}.
  Context {LAWS : DatabaseLaws DB} {OLAWS : OnboardLaws DB ODB} (V P : string -> Prop) (a : string) (Ha : P a).

Abbreviation odoes := (does onboard_tables_ok (onboard_acts V P)).
Abbreviation oholds := (holds onboard_tables_ok (onboard_acts V P)).
Abbreviation ocalm_op K m := (odoes K (fun _ _ => True) m).
Abbreviation ocalm K p := (oholds K (fun _ => True) p).
Abbreviation olasting := (steady (onboard_acts V P)).

(** ** Operations on the tables of the users and the loans *)

Lemma onboard_main w m : onboard_tables_ok w -> tables_ok m -> acts V P (o_main w) m -> 
  onboard_tables_ok (set_main m w) /\ onboard_acts V P w (set_main m w).
Proof. intros [_ Hp] Hm Hr. split; [done|]. split; [done|apply changes_refl]. Qed.

Lemma odoes_main {A} K (Q : World -> A -> Prop) m :
  does tables_ok (acts V P) K Q m -> odoes (fun w => K (o_main w)) (fun w => Q (o_main w)) (on_main m).
Proof.
  intros Hm w Hw HK. destruct (Hm (o_main w) (proj1 Hw) HK) as (? & ? & ?). unfold on_main.
  destruct (m (o_main w)) as [r m']. cbn [fst snd] in *. destruct (onboard_main w m') as [? ?]; [done..|]. by split_and!.
Qed.

Lemma ocalm_main {A} K (m : M World A) : does tables_ok (acts V P) (fun _ => True) (fun _ _ => True) m -> ocalm_op K (on_main m).
Proof. intros Hm w Hw _. by apply (odoes_main (fun _ => True) (fun _ _ => True)). Qed.

Lemma oholds_tables {A} K (Q : A -> Prop) p :
  holds tables_ok (acts V P) K Q p -> oholds (fun w => K (o_main w)) Q (zoom o_main set_main p).
Proof.
  intros Hp w0 Hw0.
  apply (zoom_since o_main set_main (fun _ _ => eq_refl) tables_ok (acts V P) onboard_tables_ok (onboard_acts V P)
           (fun _ r => match r with Ok x => Q x | Throw _ => True end)); [| | |exact (Hp _ Hw0)].
  - by intros s [].
  - by intros s s' [].
  - intros s m Hs Hm Hr. by apply onboard_main.
Qed.

(** ** The rows of the people who wait *)

(** The row is nobody else's: it is gone, or of such a wallet. *)
Definition waiting (i : Z) (w : OnboardWorld) : Prop := from_option (fun p => P (nv_walletAddress p)) True (o_pending w !! i).

Lemma waiting_steady i : olasting (waiting i).
Proof. intros w w' [_ H]. unfold waiting. by destruct (H i) as [->|[? ?]]. Qed.

Lemma main_steady K : steady (acts V P) K -> olasting (fun w => K (o_main w)).
Proof. intros HK w w' [H _]. by apply HK. Qed.

Lemma and_steady K K' : olasting K -> olasting K' -> olasting (fun w => K w /\ K' w).
Proof. intros H H' w w' Hr [? ?]. split; [by eapply H|by eapply H']. Qed.

Lemma true_steady : olasting (fun _ => True).
Proof. done. Qed.

Lemma odoes_statement {A} K (Q : OnboardWorld -> A -> Prop) (f : OnboardWorld -> result (A * (OnboardWorld -> OnboardWorld))) :
  (forall w x eff, onboard_tables_ok w -> K w -> f w = Ok (x, eff) ->
     onboard_tables_ok (eff w) /\ onboard_acts V P w (eff w) /\ Q (eff w) x) ->
  odoes K Q (ostatement f).
Proof.
  intros H w Hw HK. unfold ostatement.
  assert (Hbad : onboard_tables_ok (set_main (poison (o_main w)) w) /\ onboard_acts V P w (set_main (poison (o_main w)) w))
    by (apply onboard_main; [done|apply tables_poison, Hw|apply acts_poison]).
  assert (Hrun : let '(r, w') := match f w with Ok (x, eff) => (Ok x, eff w) | Throw e => (Throw e, set_main (poison (o_main w)) w) end in
    onboard_tables_ok w' /\ onboard_acts V P w w' /\ forall x, r = Ok x -> Q w' x).
  { destruct (f w) as [[x eff]|e] eqn:E.
    - destruct (H w x eff Hw HK E) as (? & ? & ?). split_and!; [done..|]. by intros y [= <-].
    - destruct Hbad. by split_and!. }
  destruct (w_tx (o_main w)); [| |by split_and!]; by destruct (f w) as [[x eff]|e].
Qed.

(** A look at the tables. *)
Lemma ocalm_look {A} K (f : OnboardWorld -> result A) :
  ocalm_op K (ostatement (fun w => match f w with Ok x => Ok (x, id) | Throw e => Throw e end)).
Proof. apply odoes_statement. intros w x eff Hw HK H. destruct (f w); [|done]. injection H as -> <-. by split_and!. Qed.

(** A row of the wallet is written. *)
Lemma waiting_row w p :
  onboard_tables_ok w -> waiting (nv_id p) w -> nv_walletAddress p = a ->
  onboard_tables_ok (set_pending (<[nv_id p := p]> (o_pending w)) w) /\
  onboard_acts V P w (set_pending (<[nv_id p := p]> (o_pending w)) w) /\
  waiting (nv_id p) (set_pending (<[nv_id p := p]> (o_pending w)) w).
Proof.
  intros [Hm Hp] Hw Hpa. split_and!.
  - split; [done|]. by apply map_Forall_insert_2.
  - split; [done|]. apply changes_insert; [by rewrite Hpa|done].
  - unfold waiting. cbn. rewrite lookup_insert_eq. cbn. by rewrite Hpa.
Qed.

Lemma odoes_save_pending p :
  nv_walletAddress p = a -> odoes (waiting (nv_id p)) (fun _ _ => True) (save_pending p).
Proof.
  intros Hpa. apply odoes_statement. intros w [] eff Hw Hk H. unfold written in H. destruct (odb_pending_error w p); [done|].
  injection H as <-. destruct (waiting_row w p Hw Hk Hpa) as (? & ? & _). by split_and!.
Qed.

Lemma odoes_insert_pending K p :
  nv_walletAddress p = a ->
  odoes K (fun w q => waiting (nv_id q) w /\ nv_walletAddress q = a) (insert_pending p).
Proof.
  intros Hpa. apply odoes_statement. intros w q eff Hw Hk H. cbn zeta in H. destruct (odb_pending_error w _); [done|].
  injection H as <- <-. destruct (waiting_row w (with_nv_id (odb_new_pending_id w) p) Hw) as (? & ? & ?); [|done|by split_and!].
  unfold waiting. cbn [nv_id with_nv_id]. by rewrite (new_pending_id_fresh w).
Qed.

Lemma odoes_delete_pending i : odoes (waiting i) (fun _ _ => True) (delete_pending i).
Proof.
  apply odoes_statement. intros w [] eff [Hm Hp] Hk H. unfold written in H. destruct (odb_delete_error w i); [done|].
  injection H as <-. split_and!; [|split; [done|by apply changes_delete]|done]. split; [done|]. by apply map_Forall_delete.
Qed.

(** The person who is looked up by the wallet. *)
Definition waiting_found (o : option NotVerifiedUser) (w : OnboardWorld) : Prop :=
  match o with Some p => waiting (nv_id p) w /\ nv_walletAddress p = a | None => True end.

Lemma odoes_find_pending K : olasting K -> odoes K (fun w o => K w /\ waiting_found o w) (find_pending_by_wallet a).
Proof.
  intros HK. apply odoes_statement. intros w o eff Hw Hk H. destruct (odb_find_pending w _) as [o'|] eqn:E; [|done].
  injection H as -> <-. split_and!; [done|done|done|]. destruct o as [p|]; [|done].
  apply find_pending_some in E as (i & Hi & Hb). unfold by_pending_wallet in Hb. apply bool_decide_eq_true_1 in Hb.
  pose proof (proj2 Hw i p Hi) as Hid. cbn in Hid. subst i. change (waiting_found (Some p) w). split; [|done]. unfold waiting. rewrite Hi. cbn. by rewrite Hb.
Qed.

Lemma odoes_find_user K : olasting K -> odoes K (fun w o => K w /\ found a o (o_main w)) (find_user_by_wallet a).
Proof.
  intros HK w Hw Hk. destruct (odoes_main _ _ _ (does_find_mine V P a (fun _ => True)) w Hw I) as (H1 & H2 & H3).
  split_and!; [done..|]. intros o Ho. split; [by eapply HK|]. by apply H3.
Qed.

(** ** Rules for processes *)

Ltac olasting := solve [repeat first [apply true_steady | apply waiting_steady | apply and_steady | apply (main_steady (known _ _)), known_steady | assumption]].

Lemma ocalm_step {A B} K (Q : B -> Prop) (p : proc OnboardWorld A) k :
  olasting K -> ocalm K p -> (forall x, oholds K Q (k x)) -> oholds K Q (p ≫= k).
Proof. intros HK Hp Hk. eapply holds_bind; [apply _..|exact HK|exact Hp|]. intros x _. apply Hk. Qed.

Lemma oholds_find_user {A} K (Q : A -> Prop) (k : option User -> proc OnboardWorld A) :
  olasting K -> (forall u, walletAddress u = a -> oholds (fun w => K w /\ known a (user_id u) (o_main w)) Q (k (Some u))) ->
  oholds K Q (k None) -> oholds K Q (await (find_user_by_wallet a) ≫= k).
Proof.
  intros HK Hs Hn. eapply holds_learn; [exact HK|by apply odoes_find_user|]. intros [u|]; cbn [found].
  - intros w (Hk & Hu & Hua). by apply Hs.
  - intros w (Hk & _). by apply Hn.
Qed.

Lemma oholds_find_pending {A} K (Q : A -> Prop) (k : option NotVerifiedUser -> proc OnboardWorld A) :
  olasting K -> (forall p, nv_walletAddress p = a -> oholds (fun w => K w /\ waiting (nv_id p) w) Q (k (Some p))) ->
  oholds K Q (k None) -> oholds K Q (await (find_pending_by_wallet a) ≫= k).
Proof.
  intros HK Hs Hn. eapply holds_learn; [exact HK|by apply odoes_find_pending|]. intros [p|]; cbn [waiting_found].
  - intros w (Hk & Hp & Hpa). by apply Hs.
  - intros w (Hk & _). by apply Hn.
Qed.

(** A new person: the rest knows the row. *)
Lemma oholds_insert {A} K (Q : A -> Prop) p (k : NotVerifiedUser -> proc OnboardWorld A) :
  olasting K -> nv_walletAddress p = a ->
  (forall q, nv_walletAddress q = a -> oholds (waiting (nv_id q)) Q (k q)) -> oholds K Q (await (insert_pending p) ≫= k).
Proof.
  intros HK Hp Hk. eapply holds_learn; [exact HK|by apply odoes_insert_pending|]. intros q w [Hw Hq]. by apply Hk.
Qed.

Lemma ocalm_await {A} K (m : M OnboardWorld A) : olasting K -> ocalm_op K m -> ocalm K (await m).
Proof. intros HK Hm. by apply holds_await; [apply _..| |]. Qed.

(** The user's row, once it is known. *)
Lemma ocalm_update K u patch :
  (forall w, K w -> known a (user_id u) (o_main w)) -> keeps_identity patch ->
  ocalm_op K (on_main (update_user (user_id u) patch)).
Proof.
  intros HK Hp. eapply does_mono; [exact HK| |apply odoes_main; by apply (does_update_user V P a Ha)]. done.
Qed.

Lemma ocalm_save K p : (forall w, K w -> waiting (nv_id p) w) -> nv_walletAddress p = a -> ocalm_op K (save_pending p).
Proof. intros HK Hp. eapply does_mono; [exact HK| |by apply odoes_save_pending]. done. Qed.

Ltac main_leaf := apply ocalm_main; first [eapply does_any; apply does_query | apply does_outside; by intros ? | apply does_ret; [apply _|done]].

Ltac oleaf :=
  first
    [ solve [eauto with acts nocore]
    | solve [by apply holds_return]
    | solve [by apply holds_raise]
    | solve [apply ocalm_look]
    | solve [main_leaf]
    | solve [apply ocalm_update; [by intros ? ?; intuition|done]]
    | solve [apply ocalm_save; [by intros ? ?; intuition|done]]
    | solve [apply does_ret; [apply _|done]] ].

Ltac solve_oacts :=
  repeat first
    [ oleaf
    | progress cbn beta iota
    | rewrite return_bind
    | apply oholds_find_user; [olasting|intros ? ?|]
    | apply oholds_find_pending; [olasting|intros ? ?|]
    | apply oholds_insert; [olasting|done|intros ? ?]
    | lazymatch goal with |- holds _ _ _ _ (mbind _ (mbind _ _)) => apply holds_assoc end
    | apply ocalm_step; [olasting| |intros ?]
    | apply ocalm_await; [olasting|]
    | apply holds_try; [apply _..|olasting| |intros ?]
    | apply does_seq; [apply _|olasting| |intros ?]
    | progress case_scrut ].

(** ** What is shown of a wallet *)

Lemma odoes_ranks K f : ocalm_op K (modify (fun w => set_ranks (f w) w)).
Proof. intros w [Hm Hp] _. split_and!; [done|split; [done|apply changes_refl]|done]. Qed.

Lemma odoes_gets {A} K (f : OnboardWorld -> A) : ocalm_op K (gets f).
Proof. intros w Hw _. by split_and!. Qed.

Hint Resolve odoes_ranks odoes_gets : acts.

Lemma ocalm_rank_cached K key : ocalm_op K (rank_cached key).
Proof.
  intros w Hw HK. unfold rank_cached. destruct (rank_get key (o_ranks w)); [|by split_and!].
  assert (Hd : ocalm_op (fun _ => True) (on_main date_now)) by main_leaf.
  destruct (Hd w Hw I) as (? & ? & _). by destruct (on_main date_now w) as [[t|e] w'].
Qed.

Lemma ocalm_rank K u pf : olasting K -> ocalm K (UserQuery.getRankWithinPlatform u pf).
Proof.
  intros HK. pose proof ocalm_rank_cached. unfold UserQuery.getRankWithinPlatform, rank_store. solve_oacts.
Qed.

Lemma ocalm_metrics K i : ocalm_op K (loan_metrics i).
Proof. apply odoes_statement. intros w x eff Hw HK H. destruct (odb_metrics_error w); [done|]. injection H as <- <-. by split_and!. Qed.
Hint Resolve ocalm_metrics : acts.

Lemma ocalm_step_of K b pf : olasting K -> ocalm K (getStepByWallet b pf).
Proof.
  intros HK. unfold getStepByWallet, find_pending.
  apply ocalm_step; [done|by destruct (normalizeWallet b)|]. intros x.
  apply ocalm_step; [done|solve_oacts|]. intros [u|]; [|solve_oacts].
  apply ocalm_step; [done|by apply ocalm_rank|]. intros r. solve_oacts.
Qed.

Hint Extern 1 (holds _ _ _ _ (getStepByWallet _ _)) => apply ocalm_step_of; olasting : acts.

(** ** The requests *)

Lemma ocalm_free K mail : olasting K -> ocalm K (ensureEmailIsFreeForWallet mail a).
Proof.
  intros HK. unfold ensureEmailIsFreeForWallet. case_scrut; [by apply holds_raise|].
  apply ocalm_step; [done|solve_oacts|]. intros [u|]; solve_oacts.
Qed.
Hint Extern 1 (holds _ _ _ _ (ensureEmailIsFreeForWallet _ _)) => apply ocalm_free; olasting : acts.

Lemma odoes_random K : ocalm_op K oRandomInt.
Proof. intros w [Hm Hp] _. split_and!; [done|split; [done|apply changes_refl]|done]. Qed.

Lemma odoes_mail K send to code : ocalm_op K (sendMail send to code).
Proof. intros w [Hm Hp] _. split_and!; [done|split; [done|apply changes_refl]|done]. Qed.
Hint Resolve odoes_random odoes_mail : acts.

Lemma ocalm_issue p : nv_walletAddress p = a -> ocalm (waiting (nv_id p)) (issueOtpForPending p).
Proof. intros Hp. unfold issueOtpForPending. solve_oacts. Qed.

Lemma ocalm_issue_of K p q :
  olasting K -> nv_walletAddress q = a -> nv_id q = nv_id p -> (forall w, K w -> waiting (nv_id p) w) -> ocalm K (issueOtpForPending q).
Proof. intros HK Hq Hid Hk. eapply holds_mono; [apply _..| | |by apply ocalm_issue]; [|done]. intros w Hw. rewrite Hid. by apply Hk. Qed.
Hint Extern 1 (holds _ _ _ _ (issueOtpForPending _)) => (eapply ocalm_issue_of; [olasting|done|done|by intros ? ?; intuition]) : acts.

Lemma updates_identity up : keeps_identity (apply_updates up).
Proof. done. Qed.

Lemma ocalm_terms b pf : normalizeWallet b = Ok a -> ocalm (fun _ => True) (acceptTerms b pf).
Proof.
  intros Hn. unfold acceptTerms. rewrite Hn. cbn [of_result]. rewrite return_bind.
  apply ocalm_step; [olasting|solve_oacts|]. intros now. solve_oacts.
Qed.

Lemma ocalm_verify_email b mail pf : normalizeWallet b = Ok a -> ocalm (fun _ => True) (verifyEmail b mail pf).
Proof.
  intros Hn. unfold verifyEmail. rewrite Hn. cbn [of_result]. rewrite return_bind. solve_oacts.
Qed.

Lemma ocalm_early K u pf : ocalm_op K (on_main (isEarlyUser u pf)).
Proof.
  apply ocalm_main. unfold isEarlyUser, EarlyAccess.getRankWithinPlatform. cbn zeta. destruct (negb _); [apply does_ret; [apply _|done]|].
  apply does_seq; [apply _|apply nothing_steady|eapply does_any; apply does_query|]. intros r. apply does_ret; [apply _|done].
Qed.
Hint Resolve ocalm_early : acts.

Lemma ocalm_joined K t : olasting K -> ocalm K (joined_or_now t).
Proof. intros HK. unfold joined_or_now. solve_oacts. Qed.
Hint Extern 1 (holds _ _ _ _ (joined_or_now _)) => apply ocalm_joined; olasting : acts.

Lemma ocalm_join b mail pf : normalizeWallet b = Ok a -> ocalm (fun _ => True) (joinWaitlist b mail pf).
Proof.
  intros Hn. unfold joinWaitlist, join_user. rewrite Hn. cbn [of_result]. rewrite return_bind. solve_oacts.
Qed.

Lemma ocalm_resend b mail : normalizeWallet b = Ok a -> ocalm (fun _ => True) (resendOtp b mail).
Proof.
  intros Hn. unfold resendOtp. rewrite Hn. cbn [of_result]. rewrite return_bind.
  apply oholds_find_user; [olasting|intros u Hu; solve_oacts|].
  cbn beta iota. apply oholds_find_pending; [olasting|intros p Hp|]; destruct (optional_email mail) as [m|]; solve_oacts.
Qed.

(** ** The new user *)

Lemma acts_insert_user K u : walletAddress u = a -> does tables_ok (acts V P) K (fun _ _ => True) (insert_user u).
Proof.
  intros Hu. apply does_statement. intros w v eff [Hus Hls] Hk H. cbn zeta in H. destruct (db_user_error w _); [done|].
  injection H as <- <-. cbn [user_id with_user_id].
  pose proof (new_user_id_fresh w) as Hfresh. split_and!; [split; [by apply map_Forall_insert_2|done]| |done].
  apply acts_set_users.
  - intros c j (v & Hv & Hvc). exists v. split; [|done]. cbn. rewrite lookup_insert_ne; [done|]. intros <-. by rewrite Hfresh in Hv.
  - apply changes_insert; [cbn; right; by rewrite Hu|by rewrite Hfresh].
  - intros j v Hn [[_ <-]|[_ Hv]]%lookup_insert_Some; [cbn; by rewrite Hu|congruence].
Qed.

Lemma ocalm_transaction {A} K (body : M OnboardWorld A) : olasting K -> ocalm_op K body -> ocalm_op K (otransaction body).
Proof.
  intros HK Hb w Hw HKw.
  assert (Hset : forall s v, onboard_tables_ok v -> onboard_tables_ok (set_main (set_tx s (o_main v)) v) /\
    onboard_acts V P v (set_main (set_tx s (o_main v)) v)) by (intros s v Hv; apply onboard_main; [done|apply Hv|apply acts_set_tx]).
  destruct (Hset TxActive w Hw) as [Hw1 Hr1]. destruct (Hb _ Hw1) as (HI & HR & _); [by eapply HK|].
  unfold otransaction. destruct (body _) as [r w']. cbn [fst snd] in *.
  assert (Hroll : forall v, w_users (o_main v) = w_users (o_main w) -> w_loans (o_main v) = w_loans (o_main w) ->
    w_side (o_main v) = w_side (o_main w) -> w_calls (o_main v) = w_calls (o_main w') -> o_pending v = o_pending w ->
    onboard_tables_ok v /\ onboard_acts V P w v).
  { intros v Eu El Es Ec Ep. destruct Hw as [Hm Hp]. split; [split; [by unfold tables_ok; rewrite Eu, El|by rewrite Ep]|].
    split; [|rewrite Ep; apply changes_refl]. destruct HR as [[_ _ _ _ _ (cs & Hcs & Hf)] _].
    apply (acts_quiet V P (o_main w) (o_main v) cs); try done. by rewrite Ec. }
  destruct (Hset (w_tx (o_main w)) w' HI) as [Hw2 Hr2].
  assert (Hdone : onboard_acts V P w (set_main (set_tx (w_tx (o_main w)) (o_main w')) w')) by (etrans; [exact Hr1|]; etrans; [exact HR|done]).
  destruct r as [x|e]; [destruct (w_tx (o_main w'))|]; cbn [fst snd]; try by split_and!.
  all: edestruct Hroll as [? ?]; [..|split_and!; [eassumption|eassumption|done]]; done.
Qed.

Lemma ocalm_link K i b : olasting K -> ocalm K (linkAnalyticsForNewUser i b).
Proof.
  intros HK. unfold linkAnalyticsForNewUser. apply ocalm_step; [done|by destruct (normalizeWallet b)|]. intros wallet.
  assert (Hset : forall err f, (forall w, o_main (f w) = o_main w /\ o_pending (f w) = o_pending w) ->
    ocalm_op K (ostatement (fun w => written (err w) f))).
  { intros err f Hf. apply odoes_statement. intros w [] eff Hw Hk H. unfold written in H. destruct (err w); [done|]. injection H as <-.
    destruct (Hf w) as [Em Ep]. unfold onboard_tables_ok, onboard_acts. rewrite Em, Ep. split_and!; [apply Hw..|done|apply changes_refl|done]. }
  apply ocalm_step; [done|apply ocalm_await; [done|by apply Hset]|]. intros _. apply ocalm_await; [done|by apply Hset].
Qed.
Hint Extern 1 (holds _ _ _ _ (linkAnalyticsForNewUser _ _)) => apply ocalm_link; olasting : acts.

(** ** The check of the code *)

Lemma ocalm_no_pending work pf : ocalm (fun _ => True) (no_pending_otp a work pf).
Proof. unfold no_pending_otp. solve_oacts. Qed.

Lemma ocalm_check p code : nv_walletAddress p = a -> ocalm (fun w => True /\ waiting (nv_id p) w) (check_otp p code).
Proof. intros Hp. unfold check_otp. solve_oacts. Qed.

Lemma ocalm_delete K i : (forall w, K w -> waiting i w) -> ocalm_op K (delete_pending i).
Proof. intros HK. eapply does_mono; [exact HK| |apply odoes_delete_pending]. done. Qed.

Lemma ocalm_sync K p u mail work pf :
  olasting K -> (forall w, K w -> waiting (nv_id p) w /\ known a (user_id u) (o_main w)) -> walletAddress u = a ->
  ocalm K (sync_existing a p u mail work pf).
Proof.
  intros HK Hk Hu. unfold sync_existing. apply ocalm_step; [done| |intros _; by apply ocalm_step_of].
  apply ocalm_await; [done|]. apply ocalm_transaction; [done|].
  apply does_seq; [apply _|done|apply ocalm_update; [by intros w Hw; apply Hk|done]|].
  intros _. apply ocalm_delete. intros w Hw. by apply Hk.
Qed.

Lemma ocalm_create K p mail work pf :
  olasting K -> (forall w, K w -> waiting (nv_id p) w) -> nv_walletAddress p = a -> ocalm K (create_user a p mail work pf).
Proof.
  intros HK Hk Hp. unfold create_user.
  apply ocalm_step; [done|apply ocalm_await; [done|]; main_leaf|]. intros limit.
  apply ocalm_step; [done|solve_oacts|]. intros count.
  apply ocalm_step; [done|solve_oacts|]. intros joined.
  apply ocalm_step; [done| |intros u; solve_oacts].
  apply ocalm_await; [done|]. apply ocalm_transaction; [done|].
  apply does_seq; [apply _|done| |intros u].
  - apply ocalm_main. intros w Hw _. by apply (acts_insert_user (fun _ => True)).
  - apply does_seq; [apply _|done|by apply ocalm_delete|]. intros _. apply does_ret; [apply _|done].
Qed.

Lemma ocalm_otp b code work pf : normalizeWallet b = Ok a -> ocalm (fun _ => True) (verifyOtp b code work pf).
Proof.
  intros Hn. unfold verifyOtp. rewrite Hn. cbn [of_result]. rewrite return_bind. cbn zeta.
  case_scrut; [by apply holds_raise|]. case_scrut; [by apply holds_raise|].
  assert (Hnone : forall K, ocalm K (no_pending_otp a (trim work) (normalizePlatform pf)))
    by (intros K; eapply holds_mono; [apply _..| | |apply ocalm_no_pending]; done).
  apply oholds_find_pending; [olasting| |apply Hnone]. intros p Hp. destruct p as [i c pl [mail|] oc oe ac lo wj ta] eqn:Ep; [|apply Hnone].
  rewrite <- Ep in *. clear Ep. case_scrut; [apply Hnone|].
  apply ocalm_step; [olasting|by apply ocalm_check|]. intros _.
  apply ocalm_step; [olasting|solve_oacts|]. intros _.
  apply oholds_find_user; [olasting| |apply ocalm_create; [olasting|by intros w []|done]].
  intros u Hu. apply ocalm_sync; [olasting| |done]. intros w [[_ ?] ?]. by split.
Qed.
End Registration.
