(* ===== verification/ActingProfile.v ===== *)
(** * The profile and the proof of identity act for a wallet

    The profile of Lemon changes the row and the profile of the wallet it is called
    for. A proof of Self carries its wallet itself: what it changes belongs to a wallet
    the verifier of Self accepted a proof for ([proven]), which need not have signed in. *)

From stdpp Require Import base tactics list gmap strings numbers.
From Stdlib Require Import Lia ZArith.
From S2P Require Import Prelude JsString JsNum Strkey Entities Gateway Store Async Judgements Kyc LoanVerification UserStore Profile ProfileProps Acting.

Local Open Scope Z_scope.

(** The verifier accepts a proof whose context carries the wallet. *)
Definition proven `{POUT : ProfileOutside} (wallet : string) : Prop :=
  exists es body r, self_verify es body = Ok r /\ isValid r = true /\ context_wallet (userContextData body) = Some wallet.

(** ** What may change *)

Section Acts.
  Context (V P : string -> Prop).

(** The user [i] has a wallet of these. *)
Definition holder (w : ProfileWorld) (i : Z) : Prop := exists a, (V a \/ P a) /\ known a i (pw_main w).

(** The row was written: it is of a user with a wallet that satisfies [V], and it was
    that user's before. *)
Definition self_written (w' : ProfileWorld) (old new : option SelfVerification) : Prop :=
  exists r, new = Some r /\ V (sv_walletAddress r) /\ known (sv_walletAddress r) (sv_userId r) (pw_main w') /\
    forall r0, old = Some r0 -> sv_userId r0 = sv_userId r.

Record profile_acts (w w' : ProfileWorld) : Prop := {
  pa_main : acts V P (pw_main w) (pw_main w');
  pa_columns : forall i, pw_columns w' !! i = pw_columns w !! i \/ holder w' i;
  pa_self : forall i, pw_self w' !! i = pw_self w !! i \/ self_written w' (pw_self w !! i) (pw_self w' !! i);
}.

#[export] Instance profile_acts_refl : Reflexive profile_acts.
Proof. intros w. constructor; [done|by left..]. Qed.

Lemma known_acts a i w w' : acts V P w w' -> known a i w -> known a i w'.
Proof. intros H. apply (acts_known _ _ _ _ H). Qed.

#[export] Instance profile_acts_trans : Transitive profile_acts.
Proof.
  intros w1 w2 w3 [M1 C1 S1] [M2 C2 S2]. constructor; [by etrans| |].
  - intros i. destruct (C2 i) as [E2|H2]; [|by right]. destruct (C1 i) as [E1|(a & Ha & Hk)]; [left; congruence|right].
    exists a. split; [done|]. by eapply known_acts.
  - intros i. destruct (S2 i) as [E2|(r & Hr & Hv & Hk & Ho)].
    + rewrite E2. destruct (S1 i) as [E1|(r & Hr & Hv & Hk & Ho)]; [by left|right].
      exists r. split_and!; [done|done|by eapply known_acts|done].
    + right. exists r. split_and!; [done..|]. intros r0 H0. destruct (S1 i) as [E1|(r1 & Hr1 & _ & _ & Ho1)].
      * apply Ho. by rewrite E1.
      * rewrite (Ho1 _ H0). by apply Ho.
Qed.

(** A step on the tables of the users and the loans. *)
Lemma profile_acts_main w m : acts V P (pw_main w) m -> profile_acts w (set_pw_main m w).
Proof. intros H. constructor; [exact H|by left..]. Qed.
End Acts.

(** ** Statements *)

Section Statements.
  Context `{DB : Database} `{OUT : Outside} `{PDB : ProfileDatabase} `{POUT : ProfileOutside}.
  Context {LAWS : DatabaseLaws DB} {PLAWS : ProfileLaws PDB} (V P : string -> Prop).

Definition profile_tables_ok (w : ProfileWorld) : Prop := tables_ok (pw_main w).

Abbreviation pdoes := (does profile_tables_ok (profile_acts V P)).
Abbreviation pholds := (holds profile_tables_ok (profile_acts V P)).
Abbreviation psteady := (steady (profile_acts V P)).

(** The user [i] has the wallet. *)
Definition user_of (a : string) (i : Z) (w : ProfileWorld) : Prop := known a i (pw_main w).

Lemma user_of_steady a i : psteady (user_of a i).
Proof. intros w w' [H _ _]. apply (acts_known _ _ _ _ H). Qed.

Lemma pnothing_steady : psteady (fun _ => True).
Proof. done. Qed.

Lemma pdoes_users {A} K (Q : World -> A -> Prop) (m : M World A) :
  does tables_ok (acts V P) K Q m -> pdoes (fun w => K (pw_main w)) (fun w => Q (pw_main w)) (on_users m).
Proof.
  intros Hm w Hw HK. destruct (Hm (pw_main w) Hw HK) as (HI & HR & HQ). unfold on_users.
  destruct (m (pw_main w)) as [r m']. cbn [fst snd] in *. split_and!; [done|by apply profile_acts_main|done].
Qed.

Lemma pdoes_date K : psteady K -> pdoes K (fun w _ => K w) (on_users date_now).
Proof.
  intros HK w Hw Hk. assert (HR : profile_acts V P w (snd (on_users date_now w))) by (by apply profile_acts_main, acts_log).
  split_and!; [done|done|]. intros t _. by eapply HK.
Qed.

(** The user that is looked up by the wallet. *)
Lemma pdoes_find a K : pdoes K (fun w o => match o with Some (u, _) => user_of a (user_id u) w /\ walletAddress u = a | None => True end) (find_profile a).
Proof.
  intros w Hw _. destruct (does_find_mine V P a (fun _ => True) (pw_main w) Hw I) as (HI & HR & HQ).
  unfold find_profile. unfold by_wallet in *. destruct (find_user _ (pw_main w)) as [r m'] eqn:E. cbn [fst snd] in *.
  split_and!; [done|by apply profile_acts_main|]. intros o Ho. destruct r as [[u|]|]; [|by injection Ho as <-|done].
  injection Ho as <-. exact (HQ _ eq_refl).
Qed.

(** The row and the profile of a user are written back together. *)
Lemma pdoes_save a u c : V a \/ P a -> walletAddress u = a -> pdoes (user_of a (user_id u)) (fun w _ => user_of a (user_id u) w) (save_profile u c).
Proof.
  intros Ha Hu w Hw Hk. unfold save_profile. destruct (pdb_columns_error _ _ _) as [e|].
  { split_and!; [by apply tables_poison|by apply profile_acts_main, acts_poison|done]. }
  destruct (does_write_user V P a (lowered_user u) Ha Hu (pw_main w) Hw Hk) as (HI & HR & _).
  destruct (save_user _ _) as [r m']. cbn [fst snd] in *.
  assert (Hk' : known a (user_id u) m') by (by eapply known_acts).
  destruct r as [[]|e]; split_and!; try done; [|by apply profile_acts_main].
  constructor; [exact HR| |by left]. intros i. cbn. destruct (decide (i = user_id u)) as [->|Hne]; [right; by exists a|left].
  by rewrite lookup_insert_ne.
Qed.

(** The row of the verification that is read is one of the user, and stays it. *)
Definition row_of (i : Z) (existing : option (Z * SelfVerification)) (w : ProfileWorld) : Prop :=
  match existing with Some (j, _) => exists r, pw_self w !! j = Some r /\ sv_userId r = i | None => True end.

Lemma row_of_steady i o : psteady (row_of i o).
Proof.
  intros w w' [_ _ Hs]. destruct o as [[j r0]|]; [|done]. intros (r & Hr & Hi).
  destruct (Hs j) as [E|(r' & Hr' & _ & _ & Ho)]; [exists r; by rewrite E|exists r'].
  split; [done|]. by rewrite <- (Ho _ Hr).
Qed.

Lemma both_steady K K' : psteady K -> psteady K' -> psteady (fun w => K w /\ K' w).
Proof. intros H H' w w' Hr [? ?]. split; [by eapply H|by eapply H']. Qed.

Lemma pdoes_find_self K i : pdoes K (fun w o => K w /\ row_of i o w) (find_self_row i).
Proof.
  intros w Hw HK. unfold find_self_row. cbn [fst snd]. split_and!; [done..|]. intros [[j r]|] H; [|done].
  split; [done|]. exists r. by apply pfind_self_some.
Qed.

Lemma pdoes_save_self a i existing r : V a -> sv_walletAddress r = a -> normalizeWallet a = Ok a -> sv_userId r = i ->
  pdoes (fun w => user_of a i w /\ row_of i existing w) (fun _ _ => True) (save_self (fst <$> existing) r).
Proof.
  intros Ha Er Hn Ei w Hw [Hk Hrow]. unfold save_self, stored_self. rewrite Er, Hn. cbn [mbind result_bind].
  set (j := default _ _). set (row := {| sv_userId := sv_userId r |}).
  destruct (pdb_self_error w j row); [by split_and!|]. cbn [fst snd].
  assert (Hk' : forall b l, known b l (pw_main w) -> known b l (pw_main (set_self j row w))) by done.
  split_and!; [done| |done]. constructor; [| |].
  - constructor; cbn; [done|apply changes_refl| |apply changes_refl| |exists []; by rewrite app_nil_r].
    { intros l u E E'. by rewrite E in E'. }
    split_and!; [done..| |]; cbn; destruct (sv_verified r); [set_solver|done| |by left].
    intros l. cbn. rewrite elem_of_union, elem_of_singleton. intros [->|Hl]; [right|by left].
    exists a. split; [done|]. cbn. by rewrite Ei.
  - by left.
  - intros l. cbn [set_self pw_self]. destruct (decide (l = j)) as [->|Hne]; [right|left; by rewrite lookup_insert_ne].
    exists row. rewrite lookup_insert_eq. split_and!; [done|done|cbn; by rewrite Ei|].
    intros r0 H0. subst j. destruct existing as [[j r1]|]; cbn in *; [|by rewrite pnew_self_fresh in H0].
    destruct Hrow as (r2 & H2 & E2). congruence.
Qed.

Lemma pholds_seq {A B} K (Q : B -> Prop) (m : M ProfileWorld A) (k : A -> proc ProfileWorld B) :
  psteady K -> pdoes K (fun _ _ => True) m -> (forall a, pholds K Q (k a)) -> pholds K Q (await m ≫= k).
Proof. intros HK Hm Hk. eapply holds_bind; [apply _..|done|by apply holds_await; [apply _..|done|exact Hm]|]. auto. Qed.

(** ** The requests *)

(** Lemon tells the profile of the wallet. *)
Lemma pholds_lemon a p : P a -> normalizeWallet (lp_walletAddress p) = Ok a -> pholds (fun _ => True) (fun _ => True) (upsertLemonProfile p).
Proof.
  intros Ha Hn. unfold upsertLemonProfile. rewrite Hn. cbn [of_result]. rewrite return_bind.
  eapply holds_learn; [apply _..|done|apply (pdoes_find a)|]. intros [[u c]|]; [|by apply holds_raise].
  apply holds_fact. intros Hu. apply holds_await; [apply _..|apply user_of_steady|].
  eapply does_bind; [apply _|by apply pdoes_date, user_of_steady|]. intros t.
  eapply does_bind; [apply _| |].
  { instantiate (1 := fun w _ => user_of a (user_id u) w). destruct (compared u c); [|apply does_ret; [apply _|done]].
    eapply does_bind; [apply _|by apply pdoes_date, user_of_steady|]. intros t'. apply does_ret; [apply _|done]. }
  intros x. eapply does_bind; [apply _|apply (pdoes_save a (lemon_user p u)); [by right|done]|].
  intros []. apply does_ret; [apply _|done].
Qed.

(** The page asks for the state of a verification. *)
Lemma pholds_profile a : pholds (fun _ => True) (fun _ => True) (getProfile a).
Proof.
  unfold getProfile. eapply holds_bind; [apply _..|done|apply holds_result|]. intros wallet _.
  eapply holds_learn; [apply _..|done|apply (pdoes_find wallet)|]. intros [[u c]|]; [|by apply holds_return].
  apply holds_mono with (K := fun _ => True) (Q := fun _ => True); [apply _..|done|done|].
  eapply holds_learn; [apply _..|done|apply (pdoes_find_self (fun _ => True) (user_id u))|]. intros o. by apply holds_return.
Qed.
End Statements.

Section Self.
  Context `{DB : Database} `{OUT : Outside} `{PDB : ProfileDatabase} `{POUT : ProfileOutside}.
  Context {LAWS : DatabaseLaws DB} {PLAWS : ProfileLaws PDB} (P : string -> Prop).

(** A proof from anybody: what it writes is of the wallet in it. *)
Lemma pholds_self body : holds profile_tables_ok (profile_acts proven P) (fun _ => True) (fun _ => True) (verifyFromSelf body).
Proof.
  unfold verifyFromSelf. destruct (negb _); [by apply holds_return|].
  eapply (holds_bind _ _ _ (fun o : string + SelfVerifyResult => match o with
    | inr r => exists es, self_verify es body = Ok r | inl _ => True end)); [apply _..|done| |].
  { apply holds_try; [apply _..|done| |intros e; by apply holds_return].
    eapply (holds_bind _ _ _ (fun r => exists es, self_verify es body = Ok r)); [apply _..|done| |intros r Hr; by apply holds_return].
    apply holds_await; [apply _..|done|]. intros w Hw _. cbn [verify_proof fst snd]. split_and!; [done| |].
    - constructor; [done|by left..].
    - intros r Hr. by exists (pw_events w). }
  intros [code|r] Hr; [by apply holds_return|]. destruct Hr as (es & Hr).
  destruct (isValid r) eqn:Ev; cbn [negb]; [|by apply holds_return]. cbn zeta.
  destruct (context_wallet (userContextData body)) as [a|] eqn:Ec; [|by apply holds_return].
  assert (Hn : normalizeWallet a = Ok a) by (eapply extracted_normal; exact Ec). rewrite Hn.
  assert (Ha : proven a) by (by exists es, body, r).
  eapply holds_learn; [apply _..|done|apply (pdoes_find proven P a)|]. intros [[u c]|]; [|by apply holds_return].
  apply holds_fact. intros Hu.
  apply (pholds_seq proven P); [apply user_of_steady| |intros _].
  { eapply does_any, (pdoes_save proven P a); [by left|done]. }
  eapply holds_learn; [apply _..|apply user_of_steady|apply (pdoes_find_self proven P _ (user_id u))|]. intros existing.
  assert (Hs : steady (profile_acts proven P) (fun w => user_of a (user_id u) w /\ row_of (user_id u) existing w))
    by (apply both_steady; [apply user_of_steady|apply row_of_steady]).
  apply (pholds_seq proven P); [exact Hs| |intros _; by apply holds_return].
  eapply does_bind; [apply _|by apply pdoes_date|]. intros now. cbn beta.
  by apply (pdoes_save_self proven P a (user_id u)).
Qed.
End Self.
