(* ===== verification/Routes.v ===== *)
(** * The HTTP routes ([backend/src/infrastructure/http], [common/guards])

    The controllers [auth], [loan], [kyc], [user] and [self]: the guard that finds the
    wallet of the caller's token, the check that the request is about that wallet, and
    the method of the service; the two routes of [self] have no guard. The
    authentication, the profiles and the other tables are kept apart ([ApiWorld]);
    requests interleave at every await of any.

    Four groups of routes are not among these. Those of the wallet link write tables
    of their own, which no other route writes ([WalletLink]); the sandbox decision
    changes the memory of the fake identity provider, which the services ask like any
    other provider; the statistics and the health checks only read. *)

From stdpp Require Import base tactics list gmap strings numbers.
From Stdlib Require Import Lia ZArith.
From S2P Require Import Prelude JsString JsNum AmountUnits DecimalLib CreditPolicy LoanCalc Strkey Entities Gateway Store Async Judgements Kyc EarlyAccess LoanVerification LoanService LoanRepayment Requests PhoneVerification UserStore UserQuery Onboarding Profile Auth AuthProps Acting.

Local Open Scope Z_scope.

(** The tables of the authentication and of the rest, with the columns of the profiles,
    the rows of the verifications and what the verifier of Self answered. *)
Record ApiWorld := {
  api_auth : AuthWorld;
  api_db : OnboardWorld;
  api_columns : gmap Z ProfileColumns;
  api_self : gmap Z SelfVerification;
  api_proofs : list profile_event;
}.

Definition set_api_auth (w : AuthWorld) (s : ApiWorld) : ApiWorld :=
  {| api_auth := w; api_db := api_db s; api_columns := api_columns s; api_self := api_self s; api_proofs := api_proofs s |}.
Definition set_api_db (w : OnboardWorld) (s : ApiWorld) : ApiWorld :=
  {| api_auth := api_auth s; api_db := w; api_columns := api_columns s; api_self := api_self s; api_proofs := api_proofs s |}.

(** What the profiles see of it: the same users. *)
Definition api_profile (s : ApiWorld) : ProfileWorld :=
  {| pw_main := o_main (api_db s); pw_columns := api_columns s; pw_self := api_self s; pw_events := api_proofs s |}.
Definition set_api_profile (w : ProfileWorld) (s : ApiWorld) : ApiWorld :=
  {| api_auth := api_auth s; api_db := set_main (pw_main w) (api_db s); api_columns := pw_columns w; api_self := pw_self w;
     api_proofs := pw_events w |}.

(** The processes of the components in this world. *)
Definition on_auth {A} (p : proc AuthWorld A) : proc ApiWorld A := zoom api_auth set_api_auth p.
Definition on_db {A} (p : proc OnboardWorld A) : proc ApiWorld A := zoom api_db set_api_db p.
Definition on_profile {A} (p : proc ProfileWorld A) : proc ApiWorld A := zoom api_profile set_api_profile p.
Definition on_tables {A} (p : proc World A) : proc ApiWorld A := on_db (zoom o_main set_main p).

(** ** Guards *)

(** [X-Api-Key] against [RISK_API_KEY], which is empty when it is not configured. *)
Definition api_key_guard (RISK_API_KEY : string) (provided : option string) : result unit :=
  if bool_decide (RISK_API_KEY = ""%string) then Throw (UnauthorizedException "RISK_API_KEY is not configured")
  else match provided with
       | Some k => if bool_decide (k = ""%string) || negb (bool_decide (k = RISK_API_KEY))
                   then Throw (UnauthorizedException "Invalid or missing API key") else Ok tt
       | None => Throw (UnauthorizedException "Invalid or missing API key")
       end.

(** What the throttler counts requests by: the wallet of [req.user], or the address. *)
Definition getTracker (user_walletAddress ip remoteAddress : option string) : result string :=
  let address := default "unknown"%string (match ip with Some a => Some a | None => remoteAddress end) in
  match user_walletAddress with
  | Some a => if bool_decide (a = ""%string) then Ok address else a ← normalizeWallet a; Ok ("wallet:" ++ a)%string
  | None => Ok address
  end.

Section Handlers.
  Context `{ADB : AuthDatabase} `{AOUT : AuthOutside}.

(** [@UseGuards(AccessTokenGuard)] and [@CallerWallet()]: the handler gets the wallet
    the guard left in [req.user]. *)
Definition guarded {A} (authorization : option string) (handler : string -> proc ApiWorld A) : proc ApiWorld A :=
  caller ← on_auth (access_guard authorization); handler caller.

(** [assertWalletOwnership(caller, dto.walletAddress); return ...] *)
Definition owning {A} (caller walletAddress : string) (p : proc ApiWorld A) : proc ApiWorld A :=
  _ ← of_result (assertWalletOwnership caller walletAddress); p.

End Handlers.

(** ** The loan controller *)

Module LoanController.
Section LoanController.
  Context `{ENV : Env} `{DB : Database} `{OUT : Outside} `{D : DecimalJs} `{JM : JsMath} `{ADB : AuthDatabase} `{AOUT : AuthOutside}.

Definition getLadder (authorization : option string) : proc ApiWorld (list CreditTier) :=
  guarded authorization (fun _ => Return CreditPolicy.getLadder).

Definition getHistory (authorization : option string) : proc ApiWorld (list HistoryEntry) :=
  guarded authorization (fun caller => on_tables (await (LoanService.getHistory caller))).

Definition verify (authorization : option string) (dto : VerifyUserDto) : proc ApiWorld VerifyResponse :=
  guarded authorization (fun caller => owning caller (vd_walletAddress dto) (on_tables (verify_async dto))).

Definition borrow (authorization : option string) (dto : BorrowLoanDto) : proc ApiWorld LoanOffer :=
  guarded authorization (fun caller => owning caller (bd_receiver dto) (on_tables (borrow_async dto))).

Definition informLoanOpen (authorization : option string) (dto : InformLoanDto) : proc ApiWorld Z :=
  guarded authorization (fun caller => owning caller (il_walletAddress dto) (on_tables (informLoanOpened_async dto))).

Definition informRepayment (authorization : option string) (dto : InformRepaymentDto) : proc ApiWorld RepaymentResponse :=
  guarded authorization (fun caller => owning caller (ir_walletAddress dto) (on_tables (processRepayment_async dto))).

(** The body of the answer: the amounts as text. *)
Record PreflightBody := {
  pb_wallet : string;
  pb_principal : string;
  pb_storedAmountDueBefore : string;
  pb_accruedAmountDue : string;
  pb_lastAccruedTs : Z;
  pb_ratePerSecWad : string;
  pb_baseFeeBps : Z;
  pb_dueAt : Z;
  pb_gracePeriod : Z;
  pb_lateStart : Z;
  pb_serverNowUnix : Z;
  pb_chainNowUnix : Z;
  pb_perDayDelta : num;
  pb_daysLate : num;
  pb_daysToDefault : num;
  pb_isDefaulted : bool;
  pb_accrueLateCalled : bool;
  pb_accrueLateSkippedReason : option string;
}.

Definition preflight_body (p : PreflightPayload) : PreflightBody :=
  {| pb_wallet := pf_wallet p; pb_principal := String_of_int (pf_principal p);
     pb_storedAmountDueBefore := String_of_int (pf_storedAmountDueBefore p);
     pb_accruedAmountDue := String_of_int (pf_accruedAmountDue p); pb_lastAccruedTs := pf_lastAccruedTs p;
     pb_ratePerSecWad := String_of_int (pf_ratePerSecWad p); pb_baseFeeBps := pf_baseFeeBps p; pb_dueAt := pf_dueAt p;
     pb_gracePeriod := pf_gracePeriod p; pb_lateStart := pf_lateStart p; pb_serverNowUnix := pf_serverNowUnix p;
     pb_chainNowUnix := pf_chainNowUnix p; pb_perDayDelta := pf_perDayDelta p; pb_daysLate := pf_daysLate p;
     pb_daysToDefault := pf_daysToDefault p; pb_isDefaulted := pf_isDefaulted p;
     pb_accrueLateCalled := pf_accrueLateCalled p; pb_accrueLateSkippedReason := pf_accrueLateSkippedReason p |}.

(** [forceQuery === 'true' || forceQuery === '1'] *)
Definition forced (forceQuery : option string) : bool :=
  bool_decide (forceQuery = Some "true"%string) || bool_decide (forceQuery = Some "1"%string).

Definition repayPreflight (authorization : option string) (walletAddress : string) (forceQuery : option string) : proc ApiWorld PreflightBody :=
  guarded authorization (fun caller => owning caller walletAddress
    (p ← on_tables (preflightRepayment_async walletAddress (forced forceQuery)); Return (preflight_body p))).

Definition getLoanTerms (authorization : option string) (walletAddress amountHuman : string) : proc ApiWorld GetLoanTermsResponse :=
  guarded authorization (fun caller => owning caller walletAddress (on_tables (getLoanTerms_async walletAddress amountHuman))).
End LoanController.
End LoanController.

(** ** The identity controller *)

Module KycController.
Section KycController.
  Context `{ENV : Env} `{DB : Database} `{OUT : Outside} `{ADB : AuthDatabase} `{AOUT : AuthOutside}.

Definition start (authorization : option string) : proc ApiWorld KycStart :=
  guarded authorization (fun caller => on_tables (Kyc.start caller)).

(** The status, and whether the gate is on. *)
Definition status (authorization : option string) : proc ApiWorld (string * bool) :=
  guarded authorization (fun caller => s ← on_tables (kyc_status caller); Return (s, kycGateEnabled env_kycGate)).

(** The sandbox provider's sessions, when it is the provider. *)
Definition sandboxDecision (provider : option FakeKycProvider.sessions) (session : string) (decision : KycDecision)
    : result FakeKycProvider.sessions :=
  match provider with
  | Some s => Ok (FakeKycProvider.resolve session decision s)
  | None => Throw (ForbiddenException "sandbox decisions only exist for the fake provider")
  end.
End KycController.
End KycController.

(** ** The user controller *)

Module UserController.
Section UserController.
  Context `{DB : Database} `{OUT : Outside} `{MSG : Messaging} `{ODB : OnboardDatabase} `{OOUT : OnboardOutside} `{ADB : AuthDatabase} `{AOUT : AuthOutside}.
  Context `{PDB : ProfileDatabase}.

(** [if (caller) assertWalletOwnership(caller, wallet)] *)
Definition getByWallet (authorization : option string) (wallet : string) (pf : option string) : proc ApiWorld UserStep :=
  guarded authorization (fun caller =>
    _ ← (if bool_decide (caller = ""%string) then Return tt else of_result (assertWalletOwnership caller wallet));
    on_db (getStepByWallet wallet pf)).

Definition acceptTerms (authorization : option string) (walletAddress : string) (pf : option string) : proc ApiWorld UserStep :=
  guarded authorization (fun caller => owning caller walletAddress (on_db (Onboarding.acceptTerms walletAddress pf))).

Definition joinWaitlist (authorization : option string) (walletAddress mail : string) (pf : option string) : proc ApiWorld UserStep :=
  guarded authorization (fun caller => owning caller walletAddress (on_db (Onboarding.joinWaitlist walletAddress mail pf))).

Definition verifyEmail (authorization : option string) (walletAddress mail : string) (pf : option string) : proc ApiWorld UserStep :=
  guarded authorization (fun caller => owning caller walletAddress (on_db (Onboarding.verifyEmail walletAddress mail pf))).

Definition verifyOtp (authorization : option string) (walletAddress code workType : string) (pf : option string) : proc ApiWorld UserStep :=
  guarded authorization (fun caller => owning caller walletAddress (on_db (Onboarding.verifyOtp walletAddress code workType pf))).

Definition resendOtp (authorization : option string) (walletAddress : string) (mail : option string) : proc ApiWorld ResendAnswer :=
  guarded authorization (fun caller => owning caller walletAddress (on_db (Onboarding.resendOtp walletAddress mail))).

Definition verifyPhone (authorization : option string) (walletAddress number : string) : proc ApiWorld unit :=
  guarded authorization (fun caller => owning caller walletAddress (on_tables (PhoneVerification.verifyPhone walletAddress number))).

Definition verifyPhoneOtp (authorization : option string) (walletAddress number code : string) : proc ApiWorld unit :=
  guarded authorization (fun caller => owning caller walletAddress (on_tables (PhoneVerification.verifyPhoneOtp walletAddress number code))).

Definition resendPhoneOtp (authorization : option string) (walletAddress number : string) : proc ApiWorld unit :=
  guarded authorization (fun caller => owning caller walletAddress (on_tables (PhoneVerification.resendPhoneOtp walletAddress number))).

Definition updatePhone (authorization : option string) (walletAddress number : string) : proc ApiWorld unit :=
  guarded authorization (fun caller => owning caller walletAddress (on_tables (PhoneVerification.updatePhone walletAddress number))).

Definition lemonProfile (authorization : option string) (dto : LemonProfilePayload) : proc ApiWorld LemonProfileAnswer :=
  guarded authorization (fun caller => owning caller (lp_walletAddress dto) (on_profile (upsertLemonProfile dto))).
End UserController.
End UserController.

(** ** The controller of Self *)

Module SelfController.
Section SelfController.
  Context `{DB : Database} `{OUT : Outside} `{PDB : ProfileDatabase} `{POUT : ProfileOutside}.

(** The application of Self calls it: there is no guard. *)
Definition verifyFromSelf (body : SelfProof) : proc ApiWorld SelfAnswer := on_profile (Profile.verifyFromSelf body).

(** The page polls it, without a guard. *)
Definition getProfile (walletAddress : string) : proc ApiWorld SelfProfile := on_profile (Profile.getProfile walletAddress).
End SelfController.
End SelfController.

(** ** The requests *)

(** A request to one of these controllers, with its [Authorization] header where the
    route has the guard. The routes of the authentication and its hourly job are those
    of [Auth]. *)
Inductive route :=
  | AuthRoute (r : auth_request)
  | LadderRoute (authorization : option string)
  | HistoryRoute (authorization : option string)
  | VerifyRoute (authorization : option string) (dto : VerifyUserDto)
  | BorrowRoute (authorization : option string) (dto : BorrowLoanDto)
  | InformOpenRoute (authorization : option string) (dto : InformLoanDto)
  | InformRepaymentRoute (authorization : option string) (dto : InformRepaymentDto)
  | PreflightRoute (authorization : option string) (walletAddress : string) (forceQuery : option string)
  | TermsRoute (authorization : option string) (walletAddress amountHuman : string)
  | KycStartRoute (authorization : option string)
  | KycStatusRoute (authorization : option string)
  | StepRoute (authorization : option string) (wallet : string) (pf : option string)
  | AcceptTermsRoute (authorization : option string) (walletAddress : string) (pf : option string)
  | JoinWaitlistRoute (authorization : option string) (walletAddress mail : string) (pf : option string)
  | VerifyEmailRoute (authorization : option string) (walletAddress mail : string) (pf : option string)
  | VerifyOtpRoute (authorization : option string) (walletAddress code workType : string) (pf : option string)
  | ResendOtpRoute (authorization : option string) (walletAddress : string) (mail : option string)
  | VerifyPhoneRoute (authorization : option string) (walletAddress number : string)
  | VerifyPhoneOtpRoute (authorization : option string) (walletAddress number code : string)
  | ResendPhoneRoute (authorization : option string) (walletAddress number : string)
  | UpdatePhoneRoute (authorization : option string) (walletAddress number : string)
  | LemonProfileRoute (authorization : option string) (dto : LemonProfilePayload)
  | SelfVerifyRoute (body : SelfProof)
  | SelfProfileRoute (walletAddress : string).

Section Routes.
  Context `{ENV : Env} `{DB : Database} `{OUT : Outside} `{D : DecimalJs} `{JM : JsMath} `{MSG : Messaging}.
  Context `{ODB : OnboardDatabase} `{OOUT : OnboardOutside} `{ADB : AuthDatabase} `{AOUT : AuthOutside}.
  Context `{PDB : ProfileDatabase} `{POUT : ProfileOutside}.

(** The answer is the client's. *)
Definition answered_to {A} (p : proc ApiWorld A) : proc ApiWorld unit := _ ← p; Return tt.

Definition serve_route (r : route) : proc ApiWorld unit :=
  match r with
  | AuthRoute r => on_auth (serve_auth r)
  | LadderRoute h => answered_to (LoanController.getLadder h)
  | HistoryRoute h => answered_to (LoanController.getHistory h)
  | VerifyRoute h dto => answered_to (LoanController.verify h dto)
  | BorrowRoute h dto => answered_to (LoanController.borrow h dto)
  | InformOpenRoute h dto => answered_to (LoanController.informLoanOpen h dto)
  | InformRepaymentRoute h dto => answered_to (LoanController.informRepayment h dto)
  | PreflightRoute h a force => answered_to (LoanController.repayPreflight h a force)
  | TermsRoute h a amount => answered_to (LoanController.getLoanTerms h a amount)
  | KycStartRoute h => answered_to (KycController.start h)
  | KycStatusRoute h => answered_to (KycController.status h)
  | StepRoute h a pf => answered_to (UserController.getByWallet h a pf)
  | AcceptTermsRoute h a pf => answered_to (UserController.acceptTerms h a pf)
  | JoinWaitlistRoute h a mail pf => answered_to (UserController.joinWaitlist h a mail pf)
  | VerifyEmailRoute h a mail pf => answered_to (UserController.verifyEmail h a mail pf)
  | VerifyOtpRoute h a code work pf => answered_to (UserController.verifyOtp h a code work pf)
  | ResendOtpRoute h a mail => answered_to (UserController.resendOtp h a mail)
  | VerifyPhoneRoute h a number => UserController.verifyPhone h a number
  | VerifyPhoneOtpRoute h a number code => UserController.verifyPhoneOtp h a number code
  | ResendPhoneRoute h a number => UserController.resendPhoneOtp h a number
  | UpdatePhoneRoute h a number => UserController.updatePhone h a number
  | LemonProfileRoute h dto => answered_to (UserController.lemonProfile h dto)
  | SelfVerifyRoute body => answered_to (SelfController.verifyFromSelf body)
  | SelfProfileRoute a => answered_to (SelfController.getProfile a)
  end.
End Routes.
