(* ===== verification/RoutesProps.v ===== *)
(** * The HTTP routes: who may change what

    The guard calls a handler only for the wallet of a token, and such a wallet
    signed; the check of the handler lets the service act for that wallet only. The
    proof of Self comes without a token: what it changes is of the wallet in the proof.
    So, under any interleaving of the requests of [Routes], whatever changes belongs to
    wallets whose keys signed, or, for a user's row, profile and verification, to a
    wallet in a proof that the verifier accepted ([routes_authentic]). *)

From stdpp Require Import base tactics list gmap strings numbers.
From Stdlib Require Import Lia ZArith.
From S2P Require Import Prelude JsString JsNum AmountUnits DecimalLib CreditPolicy LoanCalc Strkey Entities Gateway Store Async Judgements Kyc EarlyAccess LoanVerification LoanService LoanRepayment Requests PhoneVerification UserStore UserQuery Onboarding OnboardingProps OnboardingRuns Profile ProfileProps Auth AuthProps Acting ActingServices ActingProfile Routes.

Local Open Scope Z_scope.

(** What does not depend on the world a process started from. *)
Lemma safe_since {W A} (I : W -> Prop) (R : W -> W -> Prop) (Q : result A -> Prop) w0 p :
  safe I R Q p -> since I R (fun _ => Q) w0 p.
Proof.
  revert w0. induction p as [a|e|effect next IH]; intros w0; cbn; [done..|].
  intros H w Hw _. destruct (H w Hw) as (? & ? & ?). auto.
Qed.

Section Routes.
  Context `{ENV : Env} `{DB : Database} `{OUT : Outside} `{D : DecimalJs} `{JM : JsMath} `{MSG : Messaging}.
  Context `{ODB : OnboardDatabase} `{OOUT : OnboardOutside} `{ADB : AuthDatabase} `{AOUT : AuthOutside}.
  Context `{PDB : ProfileDatabase} `{POUT : ProfileOutside}.
  Context {LAWS : DatabaseLaws DB} {OLAWS : OnboardLaws DB ODB} {ALAWS : AuthDatabaseLaws ADB} {PLAWS : ProfileLaws PDB}.

(** Every token stands for a wallet that signed, and every row is under its id. *)
Definition api_ok (s : ApiWorld) : Prop := auth_ok (api_auth s) /\ onboard_tables_ok (api_db s).

(** Tokens stay dead, and the tables change for wallets that signed, or were proven. *)
Definition api_le (s s' : ApiWorld) : Prop :=
  auth_le (api_auth s) (api_auth s') /\ onboard_acts proven authentic (api_db s) (api_db s') /\
  profile_acts proven authentic (api_profile s) (api_profile s').

#[export] Instance api_le_refl : Reflexive api_le.
Proof. intros s. unfold api_le. by split_and!. Qed.

#[export] Instance api_le_trans : Transitive api_le.
Proof. intros s1 s2 s3 (? & ? & ?) (? & ? & ?). split_and!; by etrans. Qed.

Abbreviation api p := (holds api_ok api_le (fun _ => True) (fun _ => True) p).

Lemma api_on_auth {A} (Q : A -> Prop) p : auth_safe Q p -> holds api_ok api_le (fun _ => True) Q (on_auth p).
Proof.
  intros Hp s0 _.
  apply (zoom_since api_auth set_api_auth (fun _ _ => eq_refl) auth_ok auth_le api_ok api_le
           (fun _ r => match r with Ok x => Q x | Throw _ => True end)); [by intros s []|by intros s s' []| |by apply safe_since].
  intros s w [_ Hd] Hw Hr. split; [by split|]. split_and!; [done..|]. by constructor; [|left..].
Qed.

Lemma api_on_db {A} (p : proc OnboardWorld A) :
  holds onboard_tables_ok (onboard_acts proven authentic) (fun _ => True) (fun _ => True) p -> api (on_db p).
Proof.
  intros Hp s0 _.
  apply (zoom_since api_db set_api_db (fun _ _ => eq_refl) onboard_tables_ok (onboard_acts proven authentic) api_ok api_le
           (fun _ r => match r with Ok x => True | Throw _ => True end)); [by intros s []|by intros s s' (? & ? & ?)| |by apply Hp].
  intros s w [Ha _] Hw Hr. split; [by split|]. split_and!; [done..|].
  apply (profile_acts_main proven authentic (api_profile s)), Hr.
Qed.

Lemma api_on_profile {A} (p : proc ProfileWorld A) :
  holds profile_tables_ok (profile_acts proven authentic) (fun _ => True) (fun _ => True) p -> api (on_profile p).
Proof.
  intros Hp s0 _.
  apply (zoom_since api_profile set_api_profile (fun w s => ltac:(by destruct w)) profile_tables_ok (profile_acts proven authentic) api_ok api_le
           (fun _ r => match r with Ok x => True | Throw _ => True end)); [by intros s [? []]|by intros s s' (? & ? & ?)| |by apply Hp].
  intros s w [Ha [_ Hq]] Hw Hr. split; [by split_and!|]. split_and!; [done|split; [apply Hr|apply changes_refl]|].
  by destruct w.
Qed.

Lemma api_on_tables {A} (p : proc World A) :
  holds tables_ok (acts proven authentic) (fun _ => True) (fun _ => True) p -> api (on_tables p).
Proof. intros Hp. apply api_on_db. by apply (oholds_tables proven authentic (fun _ => True)). Qed.

(** The handler runs for the normal form of a wallet that signed. *)
Lemma api_guarded {A} h (handler : string -> proc ApiWorld A) :
  (forall caller, authentic caller -> normalizeWallet caller = Ok caller -> api (handler caller)) -> api (guarded h handler).
Proof.
  intros Hh. unfold guarded. eapply holds_bind; [apply _..|done|by apply api_on_auth, auth_safe_access|].
  intros caller Hc. apply Hh; [done|]. destruct Hc as (b & Hb & _). by eapply normalizeWallet_fixed.
Qed.

Lemma owner_checked caller b : assertWalletOwnership caller b = Ok tt -> normalizeWallet caller = Ok caller -> normalizeWallet b = Ok caller.
Proof.
  unfold assertWalletOwnership. intros H Hc. rewrite Hc in H. cbn in H.
  destruct (normalizeWallet b) as [w|]; [|done]. cbn in H. by case_bool_decide; subst.
Qed.

Lemma api_owning {A} caller b (p : proc ApiWorld A) :
  normalizeWallet caller = Ok caller -> (normalizeWallet b = Ok caller -> api p) -> api (owning caller b p).
Proof.
  intros Hc Hp. unfold owning. eapply holds_bind; [apply _..|done|apply holds_result|].
  intros [] H. by apply Hp, owner_checked.
Qed.

Lemma api_answered {A} (p : proc ApiWorld A) : api p -> api (answered_to p).
Proof. intros Hp. unfold answered_to. eapply holds_bind; [apply _..|done|exact Hp|]. intros x _. by apply holds_return. Qed.

(** A route whose handler checks the wallet and calls a service for it. *)
Ltac owned_route :=
  apply api_guarded; intros ? ? ?; apply api_owning; [done|]; intros ?.

Lemma serve_route_api r : api (serve_route r).
Proof.
  destruct r as [r|h|h|h dto|h dto|h dto|h dto|h b force|h b amount|h|h|h b pf|h b pf|h b mail pf|h b mail pf|h b code work pf
    |h b mail|h b number|h b number code|h b number|h b number|h dto|body|b]; cbn [serve_route]; try apply api_answered.
  - eapply holds_any; [apply _..|]. apply api_on_auth, serve_auth_safe.
  - apply api_guarded. intros. by apply holds_return.
  - apply api_guarded. intros. by apply api_on_tables, acts_history.
  - owned_route. by eapply api_on_tables, acts_verify.
  - owned_route. by eapply api_on_tables, acts_borrow.
  - owned_route. by eapply api_on_tables, acts_opening.
  - owned_route. by eapply api_on_tables, acts_repayment.
  - owned_route. eapply holds_bind; [apply _..|done|by eapply api_on_tables, acts_preflight|]. intros p _. by apply holds_return.
  - owned_route. by eapply api_on_tables, acts_terms.
  - apply api_guarded. intros. by apply api_on_tables, acts_kyc_start.
  - apply api_guarded. intros. eapply holds_bind; [apply _..|done|by apply api_on_tables, acts_kyc_status|].
    intros p _. by apply holds_return.
  - apply api_guarded. intros caller Ha Hc. eapply (holds_bind _ _ _ (fun _ => True)); [done| |].
    + destruct (bool_decide _); [by apply holds_return|]. eapply holds_any; [apply _..|apply holds_result].
    + intros _ _. by apply api_on_db, ocalm_step_of.
  - owned_route. by eapply api_on_db, ocalm_terms.
  - owned_route. by eapply api_on_db, ocalm_join.
  - owned_route. by eapply api_on_db, ocalm_verify_email.
  - owned_route. by eapply api_on_db, ocalm_otp.
  - owned_route. by eapply api_on_db, ocalm_resend.
  - owned_route. by eapply api_on_tables, acts_phone.
  - owned_route. by eapply api_on_tables, acts_phone_otp.
  - owned_route. by eapply api_on_tables, acts_phone.
  - owned_route. by eapply api_on_tables, acts_update_phone.
  - owned_route. by eapply api_on_profile, pholds_lemon.
  - apply api_on_profile, pholds_self.
  - apply api_on_profile, pholds_profile.
Qed.

(** C3. Nobody acts for a wallet without its signature, apart from a proof of identity.
    However the requests of the controllers [auth], [loan], [kyc], [user] and [self] -
    the two of [self] have no guard - interleave, whatever the chain, the database, the
    cache, the mail and the verifier of Self answer: every user row that was changed is
    of a wallet whose key signed a sign-in, or of one in the context of a proof the
    verifier accepts; every loan and pending registration that was added, changed or
    removed and every user that was added belongs to a wallet that signed; no user
    changes wallet or goes; a verification is only written for the user whose wallet is
    in such a proof, and only such a user comes to count as verified; and every call
    that writes on chain or starts an identity check is for a wallet that signed. The
    routes of the wallet link, the sandbox decision, the statistics and the health
    checks are not among the requests: they write none of these tables. *)
Theorem routes_authentic (rs : list route) (s : ApiWorld) (c : pool ApiWorld unit)
    (Hrun : steps pool_step (map serve_route rs, s) c) (Hok : api_ok s) :
  api_ok (snd c) /\ onboard_acts proven authentic (api_db s) (api_db (snd c)) /\
  profile_acts proven authentic (api_profile s) (api_profile (snd c)).
Proof.
  assert (Hps : Forall (since api_ok api_le (fun _ _ => True) s) (map serve_route rs)).
  { apply Forall_map, Forall_true. intros r. eapply since_mono; [apply _..| |by apply (serve_route_api r)]. done. }
  by destruct (since_pool api_ok api_le (fun _ _ => True) _ _ (fun _ _ _ _ H => H) Hrun Hps Hok) as [? (_ & ? & ?)].
Qed.

(** ** Refusals *)

(** Without a token that is let in, or for another wallet, a route only asks about
    the token: the tables and the calls are as they were. *)
Lemma owning_refused {A} h b (p : string -> proc ApiWorld A) s :
  match fst (run (access_guard h) (api_auth s)) with
  | Ok caller => assertWalletOwnership caller b <> Ok tt
  | Throw _ => True
  end ->
  is_ok (fst (run (guarded h (fun caller => owning caller b (p caller))) s)) = false /\
  api_db (snd (run (guarded h (fun caller => owning caller b (p caller))) s)) = api_db s.
Proof.
  intros H. unfold guarded. rewrite run_bind.
  assert (Hdb : forall (q : proc AuthWorld string) s, api_db (snd (run (on_auth q) s)) = api_db s).
  { intros q. unfold on_auth. induction q as [x|e|effect next IH]; intros s0; cbn; [done..|]. by rewrite IH. }
  destruct (zoom_run api_auth set_api_auth (fun _ _ => eq_refl) (access_guard h) s) as [_ Hr].
  unfold on_auth in *. specialize (Hdb (access_guard h) s). destruct (run (zoom _ _ _) s) as [[caller|e] s'].
  - cbn in Hr, Hdb. rewrite <- Hr in H. unfold owning. destruct (assertWalletOwnership caller b) as [[]|e]; done.
  - done.
Qed.
End Routes.

(** ** A concrete run *)

(** A nonce was asked for; the sample borrower is registered, and a user of Farcaster. *)
Definition api_world : ApiWorld :=
  {| api_auth := nonce_world;
     api_db := set_main (set_users (<[2 := with_user_id 2 caster]> (w_users lending_world)) lending_world) onboard_world;
     api_columns := ∅; api_self := ∅; api_proofs := [] |}.

(** A verifier that accepts the one passport. *)
Definition one_passport : ProfileOutside := {|
  self_verify _ b := Ok {| isValid := bool_decide (context_wallet (userContextData b) = context_wallet (userContextData passport));
                           discloseOutput := JObject [("name", JObject [("given_name", JString "Ana")])]%string |};
  issue_type _ := None; column_text _ := "" |}.

Local Abbreviation serve_here :=
  (serve_route (ENV := sample_env) (DB := StrictDatabase) (OUT := lending) (D := QDecimal) (JM := SampleMath) (MSG := silent)
     (ODB := MemoryOnboard) (OOUT := post) (ADB := MemoryAuth) (AOUT := trusting (seconds 1)) (PDB := MemoryProfiles) (POUT := one_passport))
  (only parsing).

(** The borrower signs in and enables the credit line; with the same token, a request
    for another wallet; a profile without a token; the passport, and another. *)
Definition api_requests : list route :=
  [AuthRoute sign_in; VerifyRoute (Some "Bearer 3"%string) sample_verify;
   AcceptTermsRoute (Some "Bearer 3"%string) "0x00000000000000000000000000000000000000aa" None;
   LemonProfileRoute None ana; SelfVerifyRoute passport;
   SelfVerifyRoute {| attestationId := attestationId passport; proof := proof passport; publicSignals := publicSignals passport;
                      userContextData := JString "0x00000000000000000000000000000000000000aa" |}].

Definition api_run : pool ApiWorld unit :=
  run_schedule (replicate 10 0 ++ flat_map (fun _ => [1; 2; 3; 4; 5]) (seq 0 20))%nat (map serve_here api_requests, api_world).

Lemma api_world_ok : api_ok (AOUT := trusting (seconds 1)) api_world.
Proof.
  split; [exact nonce_world_ok|]. split; [|apply map_Forall_empty]. destruct lending_tables_ok as [Hu Hl].
  split; [|exact Hl]. by apply map_Forall_insert_2.
Qed.

Lemma routes_authentic_witness :
  fst api_run = [Return tt; Return tt; Raise (ForbiddenException "Cannot operate on another user's wallet");
                 Raise (UnauthorizedException "Missing or invalid Authorization header"); Return tt; Return tt] /\
  line_of 1 (o_main (api_db (snd api_run))) = Some (Some 1, Some (num_of_Z 10000000)) /\
  w_self (o_main (api_db (snd api_run))) = {[ 2 ]} /\
  api_ok (AOUT := trusting (seconds 1)) (snd api_run) /\
  onboard_acts (proven (POUT := one_passport)) (authentic (AOUT := trusting (seconds 1))) (api_db api_world) (api_db (snd api_run)) /\
  profile_acts (proven (POUT := one_passport)) (authentic (AOUT := trusting (seconds 1))) (api_profile api_world) (api_profile (snd api_run)).
Proof.
  split; [vm_compute; reflexivity|]. split; [vm_compute; reflexivity|]. split; [vm_compute; reflexivity|].
  pose proof (routes_authentic (ENV := sample_env) (DB := StrictDatabase) (OUT := lending) (D := QDecimal) (JM := SampleMath)
    (MSG := silent) (ODB := MemoryOnboard) (OOUT := post) (ADB := MemoryAuth) (AOUT := trusting (seconds 1))
    (PDB := MemoryProfiles) (POUT := one_passport)
    api_requests api_world api_run (run_schedule_steps _ _) api_world_ok) as H.
  exact H.
Defined.

(** The proof names the wallet, and nobody asks whether its owner took part: one
    request without a token writes a name to the row of a wallet that never signed in,
    and the user counts as verified. *)
Theorem proof_without_sign_in :
  let c := run_schedule (replicate 8 0)%nat (map serve_here [SelfVerifyRoute passport], api_world) in
  fst c = [Return tt] /\ a_tokens (api_auth (snd c)) = ∅ /\
  (firstName <$> api_columns (snd c) !! 2) = Some (Some "Ana"%string) /\ w_self (o_main (api_db (snd c))) = {[ 2 ]}.
Proof. split_and!; vm_compute; reflexivity. Qed.
