(* ===== verification/BlockchainQueue.v ===== *)
(** * The queue of blockchain jobs ([backend/src/loan/blockchain-queue.service.ts],
      [backend/src/infrastructure/queue/blockchain.processor.ts])

    A facade that puts the three writes of the port into jobs, and the processor of
    the jobs. The queue itself is BullMQ's: what becomes of a job that was added is a
    parameter. Nothing in the backend calls the facade. *)

From stdpp Require Import base tactics list strings numbers.
From Stdlib Require Import Lia ZArith Ascii.
From S2P Require Import Prelude JsString JsNum Gateway Async.

Local Open Scope Z_scope.

(** The payloads: an integer of any size travels as text. *)
Record SetUserRiskPayload := { ru_borrower : string; ru_score : Z; ru_limitUnitsStr : string; ru_validUntil : option Z }.
Record SetLoanOfferPayload := { lo_amountHuman : string; lo_borrower : string; lo_tenorDays : Z; lo_feeBps : num }.
Record SetPremiumConfigPayload := { pc_borrower : string; pc_lateRatePerSecWadStr : string }.

(** A job by its name, with the payload of that name; a name the processor does not
    know. *)
Inductive BlockchainJob :=
  | SET_USER_RISK (data : SetUserRiskPayload)
  | SET_LOAN_OFFER (data : SetLoanOfferPayload)
  | SET_PREMIUM_CONFIG (data : SetPremiumConfigPayload)
  | UnknownJob (name : string).

Definition job_name (j : BlockchainJob) : string :=
  match j with
  | SET_USER_RISK _ => "set-user-risk" | SET_LOAN_OFFER _ => "set-loan-offer"
  | SET_PREMIUM_CONFIG _ => "set-premium-config" | UnknownJob name => name
  end.

Record SetLoanOfferResult := { or_feeBps : num; or_tenorDays : Z; or_maxAmountBase : string; or_minedBlock : Z }.

(** [{ ok: true }], with the offer where there is one. *)
Inductive BlockchainJobResult := JobOk | OfferOk (r : SetLoanOfferResult).

Record JobOptions := { jo_attempts : nat; jo_backoffMs : Z; jo_removeOnComplete : Z; jo_removeOnFail : Z }.

Definition DEFAULT_JOB_OPTIONS : JobOptions :=
  {| jo_attempts := 3; jo_backoffMs := 2000; jo_removeOnComplete := 100; jo_removeOnFail := 200 |}.

Definition WAIT_TIMEOUT_MS : Z := 200000.

(** [BigInt(s)] *)
Definition BigInt_of_string (s : string) : result Z :=
  result_of_option (PlainError "SyntaxError") (BigInt_chars (chars s)).

Section Queue.
  Context {W : Type}.
  (** the writes of the port *)
  Context (giveCreditScoreAndLimit : string -> Z -> Z -> bool -> option Z -> proc W Z).
  Context (createLoanOfferBackend : string -> string -> Z -> num -> proc W LoanOffer).
  Context (setPremiumConfig : string -> Z -> proc W unit).
  (** BullMQ: a job is added with its options and its answer is waited for; the worker
      runs the processor *)
  Context (add_and_wait : JobOptions -> Z -> (BlockchainJob -> proc W BlockchainJobResult) -> BlockchainJob -> proc W BlockchainJobResult).

Definition process (job : BlockchainJob) : proc W BlockchainJobResult :=
  match job with
  | SET_USER_RISK data =>
      limit ← of_result (BigInt_of_string (ru_limitUnitsStr data));
      _ ← giveCreditScoreAndLimit (ru_borrower data) (ru_score data) limit true (ru_validUntil data);
      Return JobOk
  | SET_LOAN_OFFER data =>
      r ← createLoanOfferBackend (lo_amountHuman data) (lo_borrower data) (lo_tenorDays data) (lo_feeBps data);
      Return (OfferOk {| or_feeBps := offer_feeBps r; or_tenorDays := offer_tenorDays r;
                         or_maxAmountBase := offer_maxAmountBase r; or_minedBlock := offer_minedBlock r |})
  | SET_PREMIUM_CONFIG data =>
      rate ← of_result (BigInt_of_string (pc_lateRatePerSecWadStr data));
      _ ← setPremiumConfig (pc_borrower data) rate;
      Return JobOk
  | UnknownJob _ => Return JobOk
  end.

Definition enqueueSetUserRisk (borrower : string) (score limitUnits : Z) (validUntil : option Z) : proc W BlockchainJobResult :=
  add_and_wait DEFAULT_JOB_OPTIONS WAIT_TIMEOUT_MS process
    (SET_USER_RISK {| ru_borrower := borrower; ru_score := score; ru_limitUnitsStr := String_of_int limitUnits; ru_validUntil := validUntil |}).

Definition enqueueSetLoanOffer (amountHuman borrower : string) (tenorDays : Z) (feeBps : num) : proc W BlockchainJobResult :=
  add_and_wait DEFAULT_JOB_OPTIONS WAIT_TIMEOUT_MS process
    (SET_LOAN_OFFER {| lo_amountHuman := amountHuman; lo_borrower := borrower; lo_tenorDays := tenorDays; lo_feeBps := feeBps |}).

Definition enqueueSetPremiumConfig (borrower : string) (lateRatePerSecWad : Z) : proc W BlockchainJobResult :=
  add_and_wait DEFAULT_JOB_OPTIONS WAIT_TIMEOUT_MS process
    (SET_PREMIUM_CONFIG {| pc_borrower := borrower; pc_lateRatePerSecWadStr := String_of_int lateRatePerSecWad |}).
End Queue.

(** ** Properties *)

(** An integer comes back from its text. *)
Lemma BigInt_String n : BigInt_of_string (String_of_int n) = Ok n.
Proof.
  assert (Hdec : forall k, 0 <= k -> decimal_digits k <> [] /\ Forall (fun c => is_digit c = true) (decimal_digits k) /\
    decimal_value (decimal_digits k) = k) by apply decimal_digits_spec.
  unfold BigInt_of_string, String_of_int. destruct (Z.ltb_spec n 0) as [Hn|Hn].
  - destruct (Hdec (- n)) as (Hne & Hd & Hv); [lia|]. rewrite chars_of_chars. unfold BigInt_chars.
    rewrite trim_chars_no_space by (constructor; [done|exact (List.Forall_impl _ digit_not_space Hd)]).
    rewrite (radix_value_decimal _ Hne Hd), Hv. cbn. by rewrite Z.opp_involutive.
  - destruct (Hdec n) as (Hne & Hd & Hv); [lia|]. rewrite chars_of_chars, (BigInt_digits _ Hne Hd), Hv. done.
Qed.

Section Facts.
  Context {W : Type} (give : string -> Z -> Z -> bool -> option Z -> proc W Z).
  Context (offer : string -> string -> Z -> num -> proc W LoanOffer) (premium : string -> Z -> proc W unit).

(** The worker when it runs a job once: what is left of the queue when nothing fails. *)
Definition run_once (_ : JobOptions) (_ : Z) (p : BlockchainJob -> proc W BlockchainJobResult) (j : BlockchainJob) := p j.

(** A job makes the call of the port it was added for, with the very arguments: the
    limit and the rate survive their text, whatever their size and sign. *)
Theorem jobs_call_the_port b s limit valid amount tenor fee rate w :
  run (enqueueSetUserRisk give offer premium run_once b s limit valid) w
    = run (_ ← give b s limit true valid; Return JobOk) w /\
  run (enqueueSetLoanOffer give offer premium run_once amount b tenor fee) w
    = run (r ← offer amount b tenor fee;
           Return (OfferOk {| or_feeBps := offer_feeBps r; or_tenorDays := offer_tenorDays r;
                              or_maxAmountBase := offer_maxAmountBase r; or_minedBlock := offer_minedBlock r |})) w /\
  run (enqueueSetPremiumConfig give offer premium run_once b rate) w = run (_ ← premium b rate; Return JobOk) w.
Proof.
  unfold enqueueSetUserRisk, enqueueSetLoanOffer, enqueueSetPremiumConfig, run_once, process.
  cbn [ru_limitUnitsStr pc_lateRatePerSecWadStr ru_borrower ru_score ru_validUntil pc_borrower]. rewrite !BigInt_String. done.
Qed.
End Facts.
