(* ===== verification/HookTrace.v ===== *)
(** * Hooks of the page

    A React hook is modelled by the list of what happened: the values it set, the
    requests it made and their answers, its notifications. The value of a state
    variable or of a ref is read off that list ([value_of]). A handler is a process: the
    statements between two awaits are one operation, and other handlers, the effects
    and the page itself run in between. A request is recorded when its answer arrives.
    A handler sees the state of the render it was made in, which may be older than the
    state it runs in: that state is an argument. The statements of a [finally] are an
    operation of their own here, though the page runs them with the ones before: what
    holds however these operations interleave holds of the page. *)

From stdpp Require Import base tactics list strings numbers.
From Stdlib Require Import Lia ZArith.
From S2P Require Import Prelude JsString Async Trace Judgements.

Local Open Scope Z_scope.

(** A response: its status, and its body as text or as JSON, which may fail to arrive. *)
Record Response (J : Type) := { res_status : Z; res_text : result string; res_json : result J }.
Arguments res_status {J}.
Arguments res_text {J}.
Arguments res_json {J}.

(** [{ res, authFailed }] of [api.rawAuthedPost]: no response for a network error. *)
Record Answered (J : Type) := { ans_res : option (Response J); ans_authFailed : bool }.
Arguments ans_res {J}.
Arguments ans_authFailed {J}.

(** [res.text().catch(() => "")] *)
Definition text_of {J} (res : Response J) : string := match res_text res with Ok s => s | Throw _ => "" end.

Inductive Toast := toast_error | toast_info | toast_success.

Section Hooks.
  Context {E : Type}.

(** The value of a variable, from the events that set it. *)
Definition value_of {A} (set : E -> A -> A) (init : A) (t : list E) : A := fold_left (fun a e => set e a) t init.

(** Synchronous statements, from the state they run in. *)
Definition change (f : list E -> list E) : proc (list E) unit := await (fun t => (Ok tt, t ++ f t)).

(** Those that do not look at it. *)
Definition notes (es : list E) : proc (list E) unit := change (fun _ => es).

(** A look at a ref or at the latest state. *)
Definition look {A} (f : list E -> A) : proc (list E) A := await (fun t => (Ok (f t), t)).

(** [if (ref.current) return; ref.current = true]: whether the ref was free. *)
Definition claim (held : list E -> bool) (es : list E) : proc (list E) bool :=
  await (fun t => if held t then (Ok false, t) else (Ok true, t ++ es)).

(** [try { ... } finally { ... }] *)
Definition finally_do {A} (p : proc (list E) A) (f : list E -> list E) : proc (list E) A :=
  r ← settle p; _ ← change f; of_result r.

Definition finally {A} (p : proc (list E) A) (es : list E) : proc (list E) A := finally_do p (fun _ => es).

Lemma value_of_app {A} (set : E -> A -> A) init t es : value_of set init (t ++ es) = fold_left (fun a e => set e a) es (value_of set init t).
Proof. unfold value_of. by rewrite fold_left_app. Qed.

(** What no event of a list sets. *)
Lemma value_of_kept {A} (set : E -> A -> A) init t es : Forall (fun e => forall a, set e a = a) es -> value_of set init (t ++ es) = value_of set init t.
Proof.
  intros H. rewrite value_of_app. generalize (value_of set init t). induction H as [|e es He _ IH]; intros a; cbn; [done|].
  by rewrite He, IH.
Qed.

Lemma forallb_all (p : E -> bool) es : forallb p es = true -> Forall (fun e => p e = true) es.
Proof. induction es as [|e es IH]; cbn; [by constructor|]. intros [? ?]%andb_prop. by constructor; [|apply IH]. Qed.

Lemma all_forallb (p : E -> bool) es : Forall (fun e => p e = true) es -> forallb p es = true.
Proof. induction 1; cbn; [done|]. by apply andb_true_intro. Qed.

(** Every event of [E'] comes after one of [G]. *)
Definition grounded (G E' : E -> Prop) (t : list E) : Prop :=
  forall t1 e t2, t = t1 ++ e :: t2 -> E' e -> exists g, g ∈ t1 /\ G g.

Lemma grounded_nil G E' : grounded G E' [].
Proof. intros t1 e t2 H. by destruct t1. Qed.

(** New events of [E'] need a ground among the old ones. *)
Lemma grounded_app G E' t es :
  grounded G E' t -> (exists g, g ∈ t /\ G g) \/ Forall (fun e => ~ E' e) es -> grounded G E' (t ++ es).
Proof.
  intros Ht Hes t1 e t2 H He. apply app_eq_inv in H as [(k & Hk & Hes')|(k & -> & Hk)].
  - destruct k as [|e' k]; cbn in Hk.
    + rewrite app_nil_r in Hk. subst t1. cbn in Hes'. subst es. destruct Hes as [?|Hes]; [done|]. by apply list.Forall_cons_1 in Hes as [? _].
    + injection Hes' as <- ->. by eapply Ht.
  - destruct Hes as [(g & Hg & HG)|Hes].
    + exists g. split; [|done]. apply elem_of_app. by left.
    + subst. apply Forall_app in Hes as [_ [? _]%list.Forall_cons_1]. done.
Qed.

(** Events before that are none of [E'] make no difference. *)
Lemma grounded_before G E' es t : Forall (fun e => ~ E' e) es -> grounded G E' t -> grounded G E' (es ++ t).
Proof.
  intros Hes Ht t1 e t2 H He. apply app_eq_inv in H as [(k & -> & Hk)|(k & -> & Hk)].
  - destruct k as [|e' k]; cbn in Hk.
    + destruct (Ht [] e t2) as (g & Hg & _); [done|done|]. by apply elem_of_nil in Hg.
    + injection Hk as <- _. apply Forall_app in Hes as [_ [? _]%list.Forall_cons_1]. done.
  - destruct (Ht k e t2 Hk He) as (g & Hg & HG). exists g. split; [apply elem_of_app; by right|done].
Qed.

(** ** What handlers append *)

Lemma emits_change (P : list E -> result unit -> Prop) f : (forall t, P (f t) (Ok tt)) -> emits P (change f).
Proof. intros H t. unfold change. rewrite run_await. by exists (f t). Qed.

Lemma emits_notes (P : list E -> result unit -> Prop) es : P es (Ok tt) -> emits P (notes es).
Proof. intros H. by apply emits_change. Qed.

Lemma emits_look {A} (P : list E -> result A -> Prop) f : (forall a, P [] (Ok a)) -> emits P (look f).
Proof. intros H t. unfold look. rewrite run_await. exists []. split; [by rewrite app_nil_r|apply H]. Qed.

Lemma emits_claim (P : list E -> result bool -> Prop) held es : P [] (Ok false) -> P es (Ok true) -> emits P (claim held es).
Proof.
  intros H1 H2 t. unfold claim. rewrite run_await. destruct (held t); cbn; [exists []; by rewrite app_nil_r|by exists es].
Qed.

Lemma emits_finally {A} (P : list E -> result A -> Prop) (p : proc (list E) A) es :
  emits (fun cs r => P (cs ++ es) r) p -> emits P (finally p es).
Proof.
  intros H. unfold finally, finally_do. apply emits_bind, emits_settle. eapply emits_mono; [|exact H]. intros cs r Hr.
  apply emits_bind, emits_change. intros _. apply emits_result. by rewrite app_nil_r.
Qed.

(** The statements of [finally] are the last to run, on every path. *)
Lemma finally_run {A} (p : proc (list E) A) es t : run (finally p es) t = (fst (run p t), snd (run p t) ++ es).
Proof.
  unfold finally, finally_do. rewrite run_bind, run_settle. destruct (run p t) as [r t']. unfold change.
  rewrite run_await_bind. by destruct r.
Qed.

(** ** Handlers among others *)

(** The others append too. *)
Definition grows : list E -> list E -> Prop := prefix.

Section Keeps.
  Context (I : list E -> Prop).

(** From a state where [K] holds, and whatever is appended in between, the handler
    keeps the invariant, and answers [Q]. *)
Definition gives {A} (K : list E -> Prop) (Q : list E -> A -> Prop) (p : proc (list E) A) : Prop :=
  forall t, K t -> since I grows (fun t' r => match r with Ok a => Q t' a | Throw _ => True end) t p.

Definition upholds {A} (K : list E -> Prop) (p : proc (list E) A) : Prop := gives K (fun _ _ => True) p.

Definition lasting (K : list E -> Prop) : Prop := steady grows K.

Lemma lasting_true : lasting (fun _ => True).
Proof. done. Qed.

Lemma lasting_fact (F : Prop) : lasting (fun _ => F).
Proof. by intros t t' _. Qed.

Lemma lasting_seen (G : E -> Prop) : lasting (fun t => exists g, g ∈ t /\ G g).
Proof. intros t t' [k ->] (g & Hg & HG). exists g. split; [|done]. apply elem_of_app. by left. Qed.

Lemma lasting_impl (F : Prop) K : lasting K -> lasting (fun t => F -> K t).
Proof. intros H t t' Ht HK HF. by eapply H, HK. Qed.

Lemma lasting_and K K' : lasting K -> lasting K' -> lasting (fun t => K t /\ K' t).
Proof. intros H H' t t' Ht [? ?]. split; [by eapply H|by eapply H']. Qed.

Lemma gives_mono {A} (K K' : list E -> Prop) (Q Q' : list E -> A -> Prop) p :
  (forall t, K' t -> K t) -> (forall t a, Q t a -> Q' t a) -> gives K Q p -> gives K' Q' p.
Proof.
  intros HK HQ Hp t Ht. eapply since_mono; [apply _..| |by apply Hp, HK]. intros t' [a|e] _ H; [by apply HQ|done].
Qed.

Lemma gives_return {A} K (Q : list E -> A -> Prop) a : (forall t, K t -> Q t a) -> gives K Q (Return a).
Proof. intros H t Ht. by apply H. Qed.

Lemma gives_raise {A} K (Q : list E -> A -> Prop) e : gives K Q (Raise e).
Proof. by intros t Ht. Qed.

Lemma gives_bind {A B} K (Q1 : list E -> A -> Prop) (Q : list E -> B -> Prop) p k :
  gives K Q1 p -> (forall a, gives (fun t => Q1 t a) Q (k a)) -> gives K Q (p ≫= k).
Proof.
  intros Hp Hk t Ht. apply since_bind. eapply since_mono; [apply _..| |by apply Hp]. intros t' [a|e] _ H; [by apply Hk|done].
Qed.

Lemma gives_await {A} K (Q : list E -> A -> Prop) (m : M (list E) A) : lasting K ->
  (forall t, I t -> K t -> I (snd (m t)) /\ t `prefix_of` snd (m t) /\ (forall a, fst (m t) = Ok a -> Q (snd (m t)) a)) ->
  gives K Q (await m).
Proof.
  intros HK H t0 Ht0. apply since_await. intros t Ht Hr. destruct (H t Ht) as (? & ? & HQ); [by eapply HK|].
  split_and!; [done..|]. destruct (fst (m t)); [by apply HQ|done].
Qed.

Lemma gives_change K (Q : list E -> unit -> Prop) f :
  lasting K -> (forall t, I t -> K t -> I (t ++ f t) /\ Q (t ++ f t) tt) -> gives K Q (change f).
Proof.
  intros HK H. apply gives_await; [done|]. intros t Ht Hk. destruct (H t Ht Hk) as [? ?].
  split_and!; [done|by apply prefix_app_r|]. by intros [] _.
Qed.

(** An answer is recorded for good. *)
Lemma gives_ask {A} (f : list E -> result A) (c : result A -> E) K :
  lasting K -> (forall t r, I t -> K t -> I (t ++ [c r])) ->
  gives K (fun t a => K t /\ exists g, g ∈ t /\ g = c (Ok a)) (ask f c).
Proof.
  intros HK H. apply gives_await; [done|]. intros t Ht Hk. cbn. split_and!; [by apply H|by apply prefix_app_r|].
  intros a ->. split.
  - eapply HK; [|exact Hk]. by apply prefix_app_r.
  - exists (c (Ok a)). split; [|done]. apply elem_of_app. right. by apply list_elem_of_singleton.
Qed.

Lemma gives_look {A} (f : list E -> A) K : lasting K -> gives K (fun t a => K t /\ exists t', a = f t') (look f).
Proof. intros HK. apply gives_await; [done|]. intros t Ht Hk. cbn. split_and!; [done..|]. intros a [= <-]. eauto. Qed.

Lemma upholds_return {A} K (a : A) : upholds K (Return a).
Proof. by apply gives_return. Qed.

Lemma upholds_raise {A} K e : upholds K (Raise e : proc (list E) A).
Proof. by apply gives_raise. Qed.

Lemma upholds_result {A} K (r : result A) : upholds K (of_result r).
Proof. destruct r; [apply upholds_return|apply upholds_raise]. Qed.

Lemma upholds_weaken {A} (K K' : list E -> Prop) (p : proc (list E) A) : (forall t, K' t -> K t) -> upholds K p -> upholds K' p.
Proof. intros H. by apply gives_mono. Qed.

(** What a handler keeps and nobody undoes is there for the rest. *)
Lemma gives_and {A} K (Q : list E -> A -> Prop) p : lasting K -> gives K Q p -> gives K (fun t a => K t /\ Q t a) p.
Proof.
  intros HK Hp t Ht. eapply since_mono; [apply _..| |by apply Hp]. intros t' [a|e] Hr H; [|done].
  split; [by eapply HK|done].
Qed.

Lemma upholds_bind {A B} K (p : proc (list E) A) (k : A -> proc (list E) B) :
  lasting K -> upholds K p -> (forall a, upholds K (k a)) -> upholds K (p ≫= k).
Proof.
  intros HK Hp Hk. eapply gives_bind; [apply gives_and, Hp; done|]. intros a. eapply upholds_weaken, Hk. by intros t [? _].
Qed.

Lemma upholds_change K f : lasting K -> (forall t, I t -> K t -> I (t ++ f t)) -> upholds K (change f).
Proof. intros HK H. apply gives_change; [done|]. intros t Ht Hk. split; [by apply H|done]. Qed.

Lemma upholds_notes K es : lasting K -> (forall t, I t -> K t -> I (t ++ es)) -> upholds K (notes es).
Proof. intros HK H. by apply upholds_change. Qed.

Lemma upholds_note K e : lasting K -> (forall t, I t -> K t -> I (t ++ [e])) -> upholds K (note e).
Proof. intros HK H. by apply upholds_notes. Qed.

Lemma upholds_look {A} K (f : list E -> A) : lasting K -> upholds K (look f).
Proof. intros HK. eapply gives_mono; [| |by apply gives_look]; done. Qed.

Lemma upholds_claim K held es : lasting K -> (forall t, I t -> K t -> I (t ++ es)) -> upholds K (claim held es).
Proof.
  intros HK H. apply gives_await; [done|]. intros t Ht Hk. destruct (held t); cbn; [done|].
  split_and!; [by apply H|by apply prefix_app_r|done].
Qed.

Lemma upholds_settle {A} K (p : proc (list E) A) : upholds K p -> upholds K (settle p).
Proof.
  intros Hp t Ht. pose proof (Hp t Ht) as H. clear Hp Ht. revert t H.
  induction p as [a|e|effect next IH]; intros t H; cbn in *; [done..|].
  intros w Hw HR. destruct (H w Hw HR) as (? & ? & ?). auto.
Qed.

Lemma upholds_try {A} K h (p : proc (list E) A) : lasting K -> upholds K p -> (forall e, upholds K (h e)) -> upholds K (proc_try h p).
Proof.
  intros HK Hp Hh t Ht. apply since_try. eapply since_mono; [apply _..| |by apply Hp].
  intros t' [a|e] Hr _; [done|]. apply Hh. by eapply HK.
Qed.

Lemma upholds_finally_do {A} K (p : proc (list E) A) f :
  lasting K -> (forall t, I t -> K t -> I (t ++ f t)) -> upholds K p -> upholds K (finally_do p f).
Proof.
  intros HK H Hp. apply upholds_bind; [done|by apply upholds_settle|]. intros r.
  apply upholds_bind; [done|by apply upholds_change|]. intros _. apply upholds_result.
Qed.

Lemma upholds_finally {A} K (p : proc (list E) A) es :
  lasting K -> (forall t, I t -> K t -> I (t ++ es)) -> upholds K p -> upholds K (finally p es).
Proof. intros. by apply upholds_finally_do. Qed.

Lemma upholds_ask {A B} (f : list E -> result A) (c : result A -> E) K (k : A -> proc (list E) B) :
  lasting K -> (forall t r, I t -> K t -> I (t ++ [c r])) ->
  (forall a, upholds (fun t => K t /\ exists g, g ∈ t /\ g = c (Ok a)) (k a)) -> upholds K (ask f c ≫= k).
Proof. intros HK H Hk. eapply gives_bind; [by apply gives_ask|exact Hk]. Qed.
End Keeps.

(** Handlers and the page, however they interleave. *)
Lemma upholds_pool {A} (I : list E -> Prop) (ps : list (proc (list E) A)) t c :
  steps pool_step (ps, t) c -> Forall (upholds I (fun _ => True)) ps -> I t -> I (snd c) /\ t `prefix_of` snd c.
Proof.
  intros Hrun Hps Ht. eapply (since_pool I grows (fun _ _ => True) (ps, t)); [done|exact Hrun| |exact Ht].
  eapply list.Forall_impl; [exact Hps|]. intros p Hp. eapply since_mono; [apply _..| |by apply Hp]. done.
Qed.
End Hooks.
