(* ===== verification/PhoneFlow.v ===== *)
(** * Phone verification in the browser
      ([frontend/src/hooks/onboarding/usePhoneVerification.ts])

    The code is sent and checked by the backend; the hook keeps what the screen shows,
    the countdown to the next sending, and two refs that stop a second request while
    one is under way. *)

From stdpp Require Import base tactics list strings numbers.
From Stdlib Require Import Lia ZArith.
From S2P Require Import Prelude JsString Async Trace Judgements Session HookTrace.

Local Open Scope Z_scope.

Inductive PhoneState := idle | sending | otp_sent | verifying | verified | error_state.

#[export] Instance PhoneState_eq_dec : EqDecision PhoneState.
Proof. solve_decision. Defined.

Definition RESEND_COOLDOWN_SECONDS : Z := 60.

(** The values the hook sets, the intervals it starts and clears, its requests. *)
Inductive phone_event :=
  | PState (s : PhoneState)
  | PError (e : option string)
  | PCode (s : string)
  | PSeconds (n : Z)
  | PTimerRef (i : option nat)
  | PInterval (i : nat)
  | PClear (i : nat)
  | PSending (b : bool)
  | PVerifying (b : bool)
  | PSentOnce (b : bool)
  | PPost (path : string) (body : list (string * string)) (r : result (Answered unit))
  | PToast (kind : Toast) (msg : string)
  | POnVerified.

(** What the requests answer ([rawAuthedPost]), and the translations. *)
Class PhoneOutside := {
  phone_post : list phone_event -> string -> list (string * string) -> result (Answered unit);
  phone_text : string -> option Z -> string;
}.

Section Phone.
  Context `{OUT : PhoneOutside} (pendingOtp : bool).

(** ** State *)

Definition state (t : list phone_event) : PhoneState :=
  value_of (fun e s => match e with PState s' => s' | _ => s end) (if pendingOtp then otp_sent else idle) t.

Definition error : list phone_event -> option string := value_of (fun e x => match e with PError x' => x' | _ => x end) None.

Definition resendSecondsLeft : list phone_event -> Z := value_of (fun e n => match e with PSeconds n' => n' | _ => n end) 0.

Definition resendTimerRef : list phone_event -> option nat := value_of (fun e r => match e with PTimerRef r' => r' | _ => r end) None.

Definition sendInFlightRef : list phone_event -> bool := value_of (fun e b => match e with PSending b' => b' | _ => b end) false.

Definition verifyInFlightRef : list phone_event -> bool := value_of (fun e b => match e with PVerifying b' => b' | _ => b end) false.

Definition otpSentOnceRef : list phone_event -> bool := value_of (fun e b => match e with PSentOnce b' => b' | _ => b end) false.

(** The intervals of the page: the next identifier, and those that still fire. *)
Definition next_interval : list phone_event -> nat := value_of (fun e n => match e with PInterval i => S i | _ => n end) O.

Definition firing : list phone_event -> list nat :=
  value_of (fun e l => match e with PInterval i => i :: l | PClear i => filter (fun j => j <> i) l | _ => l end) [].

(** ** What the hook returns *)

Definition canResend (t : list phone_event) : bool := (resendSecondsLeft t =? 0) && negb (bool_decide (state t = sending)).

Definition isOtpSent (t : list phone_event) : bool :=
  match state t with otp_sent | verifying | verified => true | sending => otpSentOnceRef t | _ => false end.

(** ** The countdown *)

(** [if (ref.current) clearInterval(ref.current)] *)
Definition clearTimer (t : list phone_event) : list phone_event :=
  match resendTimerRef t with Some i => [PClear i] | None => [] end.

Definition startResendCountdown (t : list phone_event) : list phone_event :=
  clearTimer t ++ [PSeconds RESEND_COOLDOWN_SECONDS; PInterval (next_interval t); PTimerRef (Some (next_interval t))].

(** The callback of the interval. *)
Definition countdown (t : list phone_event) : list phone_event :=
  if resendSecondsLeft t <=? 1 then clearTimer t ++ [PTimerRef None; PSeconds 0] else [PSeconds (resendSecondsLeft t - 1)].

(** Interval [i] fires, unless it was cleared. *)
Definition interval_fires (i : nat) : proc (list phone_event) unit :=
  change (fun t => if bool_decide (i ∈ firing t) then countdown t else []).

(** ** Answers *)

Definition isCooldownResponse (status : Z) (bodyText : string) : bool :=
  if negb ((status =? 409) || (status =? 429)) then false else
  let lower := toLowerCase bodyText in
  includes lower "cooldown" || includes lower "already" || includes lower "too many" || includes lower "rate limit".

Definition isDuplicate (text : string) : bool :=
  let lower := toLowerCase text in
  includes lower "ya fue verificado" || includes lower "already verified" || includes lower "phone_duplicate" || includes lower "otro usuario".

Definition post (path : string) (body : list (string * string)) : proc (list phone_event) (Answered unit) :=
  ask (fun t => phone_post t path body) (PPost path body).

(** [await res.text().catch(() => "")] *)
Definition read_text (res : Response unit) : proc (list phone_event) string := look (fun _ => text_of res).

(** [e instanceof AuthError] *)
Definition isAuthError (e : exn) : bool := match e with UnauthorizedException _ => true | _ => false end.

Definition say (key : string) : string := phone_text ("hooks.usePhoneVerification." +:+ key) None.
Definition say_status (key : string) (n : Z) : string := phone_text ("hooks.usePhoneVerification." +:+ key) (Some n).

Definition or_text (text fallback : string) : string := if bool_decide (trim text = ""%string) then fallback else trim text.

(** ** Handlers *)

(** Statements, then the answer of the handler. *)
Definition done_with (f : list phone_event -> list phone_event) (b : bool) : proc (list phone_event) bool :=
  _ ← change f; Return b.

Definition session_lost (s : PhoneState) : proc (list phone_event) bool :=
  done_with (fun _ => [PError (Some (say "errors.sessionInvalid")); PToast toast_error (say "errors.sessionInvalid"); PState s]) false.

(** The [catch] of [verifyPhone] and [verifyPhoneOtp]. *)
Definition request_threw (title : string) (s : PhoneState) (e : exn) : proc (list phone_event) bool :=
  done_with (fun _ => (if isAuthError e then [PError (Some (say "errors.sessionInvalid")); PToast toast_error (say "errors.sessionInvalid")]
                       else [PError (Some (exn_message e)); PToast toast_error title]) ++ [PState s]) false.

(** A code is pending already. *)
Definition already_sent : proc (list phone_event) bool :=
  done_with (fun t => [PState otp_sent] ++ startResendCountdown t ++ [PToast toast_info (say "toast.otpAlreadySent")]) true.

(** What [verifyPhone] does with the answer. *)
Definition send_answer (ans : Answered unit) : proc (list phone_event) bool :=
  if ans_authFailed ans then session_lost error_state else
  match ans_res ans with
  | None => done_with (fun _ => [PError (Some (say "errors.sendFailed")); PToast toast_error (say "toast.sendFailedTitle"); PState error_state]) false
  | Some res =>
      if negb (ok_status (res_status res)) then
        text ← read_text res;
        if res_status res =? 409 then
          if isDuplicate text then done_with (fun _ => [PError (Some (say "errors.phoneDuplicate")); PState error_state]) false
          else already_sent
        else if isCooldownResponse (res_status res) text then already_sent
        else done_with (fun _ => [PError (Some (say_status "errors.sendHttpError" (res_status res)));
                                  PToast toast_error (say "toast.sendFailedTitle"); PState error_state]) false
      else
        done_with (fun t => [PState otp_sent; PSentOnce true; PCode ""] ++ startResendCountdown t ++ [PToast toast_success (say "toast.otpSent")]) true
  end.

Definition verifyPhone (walletAddress phone channel : string) : proc (list phone_event) bool :=
  free ← claim sendInFlightRef [PSending true; PError None; PState sending];
  if negb free then Return true else
  finally (proc_try (request_threw (say "toast.sendFailedTitle") error_state)
    (ans ← post "/user/verify-phone" [("walletAddress", walletAddress); ("phone", phone); ("channel", channel)]%string;
     send_answer ans)) [PSending false].

(** What [verifyPhoneOtp] does with the answer. *)
Definition code_answer (ans : Answered unit) : proc (list phone_event) bool :=
  if ans_authFailed ans then session_lost error_state else
  match ans_res ans with
  | None => done_with (fun _ => [PError (Some (say "errors.verifyFailed")); PToast toast_error (say "toast.verifyFailedTitle"); PState otp_sent]) false
  | Some res =>
      if negb (ok_status (res_status res)) then
        text ← read_text res;
        let msg := if res_status res =? 400 then say "errors.invalidCode"
                   else or_text text (say_status "errors.verifyHttpError" (res_status res)) in
        done_with (fun _ => [PError (Some msg); PState otp_sent]) false
      else
        done_with (fun t => [PState verified; PError None] ++ clearTimer t ++
                            [PSeconds 0; PToast toast_success (say "toast.verified"); POnVerified]) true
  end.

Definition verifyPhoneOtp (walletAddress phone code : string) : proc (list phone_event) bool :=
  free ← claim verifyInFlightRef [PVerifying true; PError None; PState verifying];
  if negb free then Return false else
  finally (proc_try (request_threw (say "toast.verifyFailedTitle") otp_sent)
    (ans ← post "/user/verify-phone-otp" [("walletAddress", walletAddress); ("phone", phone); ("code", trim code)]%string;
     code_answer ans)) [PVerifying false].

(** What [resendPhoneOtp] does with the answer. *)
Definition resend_answer (ans : Answered unit) : proc (list phone_event) bool :=
  if ans_authFailed ans then session_lost otp_sent else
  match ans_res ans with
  | None => done_with (fun _ => [PError (Some (say "errors.resendFailed")); PState otp_sent]) false
  | Some res =>
      if negb (ok_status (res_status res)) then
        text ← read_text res;
        if isCooldownResponse (res_status res) text then already_sent
        else
          let msg := if res_status res =? 429 then say "errors.rateLimit"
                     else or_text text (say_status "errors.resendHttpError" (res_status res)) in
          done_with (fun _ => [PError (Some msg); PState otp_sent]) false
      else
        done_with (fun t => [PState otp_sent; PCode ""] ++ startResendCountdown t ++ [PToast toast_success (say "toast.otpResent")]) true
  end.

(** [seconds] is the countdown the handler was rendered with. *)
Definition resendPhoneOtp (seconds : Z) (walletAddress phone channel : string) : proc (list phone_event) bool :=
  free ← claim sendInFlightRef (if seconds >? 0 then [PToast toast_info (say_status "errors.resendCooldown" seconds)]
                                else [PSending true; PError None; PState sending]);
  if negb free then Return true else
  if seconds >? 0 then Return false else
  finally (proc_try (fun e => done_with (fun _ => [PError (Some (exn_message e)); PState otp_sent]) false)
    (ans ← post "/user/resend-phone-otp" [("walletAddress", walletAddress); ("phone", phone); ("channel", channel)]%string;
     resend_answer ans)) [PSending false].

Definition reset : proc (list phone_event) unit :=
  change (fun t => [PState idle; PError None; PCode ""; PSeconds 0; PSentOnce false] ++ clearTimer t ++ [PTimerRef None]).

(** The effect's cleanup when the screen goes away. *)
Definition unmount : proc (list phone_event) unit := change clearTimer.

(** ** The page *)

Inductive phone_action :=
  | Send (walletAddress phone channel : string)
  | CheckCode (walletAddress phone code : string)
  | Resend (seconds : Z) (walletAddress phone channel : string)
  | Type_ (s : string)
  | Reset_
  | Fires (i : nat).

Definition act (a : phone_action) : proc (list phone_event) unit :=
  match a with
  | Send w p c => _ ← verifyPhone w p c; Return tt
  | CheckCode w p c => _ ← verifyPhoneOtp w p c; Return tt
  | Resend n w p c => _ ← resendPhoneOtp n w p c; Return tt
  | Type_ s => notes [PCode s]
  | Reset_ => reset
  | Fires i => interval_fires i
  end.
End Phone.

(** * Properties of the phone screen

    What the screen shows whatever the user, the timer and the requests do
    ([phone_page_ok]), and what a request leaves on every answer of the backend. *)

Section PhoneProps.
  Context `{OUT : PhoneOutside} (pendingOtp : bool).

(** ** The invariant *)

(** While there are seconds left an interval fires, the one the ref holds; otherwise
    none does. *)
Definition timer_ok (t : list phone_event) : Prop :=
  0 <= resendSecondsLeft t <= RESEND_COOLDOWN_SECONDS /\
  (0 < resendSecondsLeft t -> is_Some (resendTimerRef t)) /\
  forall i, i ∈ firing t <-> resendTimerRef t = Some i /\ 0 < resendSecondsLeft t.

(** The backend accepted the code. *)
Definition code_accepted (e : phone_event) : Prop :=
  exists body ans res, e = PPost "/user/verify-phone-otp" body (Ok ans) /\ ans_authFailed ans = false /\
    ans_res ans = Some res /\ ok_status (res_status res) = true.

(** The phone shown, or announced, as verified. *)
Definition shows_verified (e : phone_event) : Prop := e = PState verified \/ e = POnVerified.

Definition phone_ok (t : list phone_event) : Prop := timer_ok t /\ grounded code_accepted shows_verified t.

(** Events that touch neither. *)
Definition quiet (e : phone_event) : bool :=
  match e with
  | PSeconds _ | PTimerRef _ | PInterval _ | PClear _ | POnVerified => false
  | PState s => negb (bool_decide (s = verified))
  | _ => true
  end.

(** Events about the timer. *)
Definition timing (e : phone_event) : bool :=
  match e with PSeconds _ | PTimerRef _ | PInterval _ | PClear _ => true | _ => false end.

Lemma timer_fields t es : forallb (fun e => negb (timing e)) es = true ->
  resendSecondsLeft (t ++ es) = resendSecondsLeft t /\ resendTimerRef (t ++ es) = resendTimerRef t /\
  firing (t ++ es) = firing t /\ next_interval (t ++ es) = next_interval t.
Proof.
  intros H%forallb_all. split_and!; apply value_of_kept; eapply list.Forall_impl; try exact H; intros e; by destruct e.
Qed.

Lemma timer_ok_silent t es : forallb (fun e => negb (timing e)) es = true -> timer_ok t -> timer_ok (t ++ es).
Proof. intros H Ht. unfold timer_ok. by destruct (timer_fields t es H) as (-> & -> & -> & _). Qed.

(** The ref holds the interval that fires. *)
Definition held (t : list phone_event) : Prop := forall i, i ∈ firing t -> resendTimerRef t = Some i.

Lemma timer_ok_held t : timer_ok t -> held t.
Proof. intros (_ & _ & Hf) i Hi. by apply Hf in Hi as [? _]. Qed.

Lemma clearTimer_fires t : held t -> firing (t ++ clearTimer t) = [].
Proof.
  intros Hf. unfold clearTimer. destruct (resendTimerRef t) as [r|] eqn:Hr.
  - unfold firing. rewrite value_of_app. cbn. fold (firing t). apply elem_of_nil_inv. intros i [Hi Hin]%list_elem_of_filter.
    apply Hf in Hin. congruence.
  - rewrite app_nil_r. apply elem_of_nil_inv. intros i Hin. apply Hf in Hin. congruence.
Qed.

Lemma clearTimer_rest t t' : resendSecondsLeft (t ++ clearTimer t') = resendSecondsLeft t /\
  resendTimerRef (t ++ clearTimer t') = resendTimerRef t.
Proof.
  unfold clearTimer. destruct (resendTimerRef t'); [|by rewrite app_nil_r].
  split; apply value_of_kept; by repeat constructor.
Qed.

(** The countdown starts over. *)
Lemma timer_ok_start t : timer_ok t -> timer_ok (t ++ startResendCountdown t).
Proof.
  intros Ht. unfold startResendCountdown. rewrite app_assoc. pose proof (clearTimer_fires t (timer_ok_held t Ht)) as Hf.
  revert Hf. generalize (t ++ clearTimer t). intros t1 Hf. unfold timer_ok, resendSecondsLeft, resendTimerRef, firing.
  rewrite !value_of_app. fold (firing t1). rewrite Hf. cbn. split; [unfold RESEND_COOLDOWN_SECONDS; lia|]. split; [done|]. intros i. rewrite list_elem_of_singleton. split.
  - intros ->. split; [done|]. unfold RESEND_COOLDOWN_SECONDS. lia.
  - by intros [[= ->] _].
Qed.

(** It stops. *)
Lemma timer_ok_stop t es : held t -> resendSecondsLeft (t ++ clearTimer t ++ es) = 0 ->
  forallb (fun e => match e with PInterval _ | PClear _ => false | _ => true end) es = true -> timer_ok (t ++ clearTimer t ++ es).
Proof.
  intros Ht Hn Hes. pose proof (clearTimer_fires t Ht) as Hf. unfold timer_ok. rewrite Hn.
  split; [unfold RESEND_COOLDOWN_SECONDS; lia|]. split; [lia|]. intros i.
  assert (firing (t ++ clearTimer t ++ es) = []) as ->; [|split; [by intros ?%elem_of_nil|lia]].
  rewrite app_assoc, <- Hf. apply value_of_kept. eapply list.Forall_impl; [exact (forallb_all _ _ Hes)|].
  intros e; by destruct e.
Qed.

(** A second goes by. *)
Lemma timer_ok_tick t : timer_ok t -> firing t <> [] -> timer_ok (t ++ countdown t).
Proof.
  intros Ht Hne. unfold countdown. destruct (resendSecondsLeft t <=? 1) eqn:Hn; bool_to_prop.
  - apply timer_ok_stop; [by apply timer_ok_held| |done]. unfold resendSecondsLeft. by rewrite app_assoc, value_of_app.
  - destruct Ht as (Hr & Hi & Hf). unfold timer_ok, resendSecondsLeft, resendTimerRef, firing. rewrite !value_of_app. cbn.
    fold (firing t) (resendTimerRef t) (resendSecondsLeft t). split; [lia|].
    split; [intros; apply Hi; lia|]. intros i. rewrite Hf. split; intros [? ?]; (split; [done|lia]).
Qed.

(** ** Every operation keeps it *)

Lemma quiet_silent es : forallb quiet es = true -> forallb (fun e => negb (timing e)) es = true.
Proof. intros H%forallb_all. apply all_forallb. eapply list.Forall_impl; [exact H|]. intros e; by destruct e. Qed.

Lemma phone_ok_quiet t es : forallb quiet es = true -> phone_ok t -> phone_ok (t ++ es).
Proof.
  intros Hq [Ht Hg]. split.
  - apply timer_ok_silent; [by apply quiet_silent|done].
  - apply grounded_app; [done|]. right. eapply list.Forall_impl; [exact (forallb_all _ _ Hq)|]. intros e He [-> | ->]; discriminate He.
Qed.

Lemma phone_ok_start t es1 es2 : forallb quiet es1 = true -> forallb quiet es2 = true -> phone_ok t ->
  phone_ok (t ++ es1 ++ startResendCountdown t ++ es2).
Proof.
  intros H1 H2 Ht. assert (startResendCountdown t = startResendCountdown (t ++ es1)) as ->.
  { unfold startResendCountdown, clearTimer. destruct (timer_fields t es1) as (_ & -> & _ & ->); [by apply quiet_silent|done]. }
  rewrite !app_assoc. rewrite <- (app_assoc _ (startResendCountdown _)), app_assoc. apply phone_ok_quiet; [done|].
  apply (phone_ok_quiet _ _ H1) in Ht as [Ht Hg]. split; [by apply timer_ok_start|]. apply grounded_app; [done|]. right.
  unfold startResendCountdown, clearTimer. destruct (resendTimerRef _); cbn; repeat constructor; by intros [?|?].
Qed.

Abbreviation tame := (upholds phone_ok).

Lemma tame_change K f : lasting K -> (forall t, K t -> forallb quiet (f t) = true) -> tame K (change f).
Proof. intros HK H. apply upholds_change; [done|]. intros t Ht Hk. apply phone_ok_quiet; [by apply H|done]. Qed.

Lemma tame_done K f b : lasting K -> (forall t, phone_ok t -> K t -> phone_ok (t ++ f t)) -> tame K (done_with f b).
Proof. intros HK H. apply upholds_bind; [done|by apply upholds_change|]. intros _. apply upholds_return. Qed.

Lemma tame_quiet K f b : lasting K -> (forall t, forallb quiet (f t) = true) -> tame K (done_with f b).
Proof. intros HK H. apply tame_done; [done|]. intros t Ht _. by apply phone_ok_quiet. Qed.

(** A request, whatever the answer, and what is done when it fails. *)
Lemma tame_request {A} path body (k : Answered unit -> proc (list phone_event) A) h :
  (forall ans, tame (fun t => True /\ exists g, g ∈ t /\ g = PPost path body (Ok ans)) (k ans)) ->
  (forall e, tame (fun _ => True) (h e)) ->
  tame (fun _ => True) (proc_try h (ans ← post path body; k ans)).
Proof.
  intros Hk Hh. apply upholds_try; [done| |done]. apply upholds_ask; [done| |exact Hk].
  intros t r Ht _. by apply phone_ok_quiet.
Qed.

Lemma tame_already_sent K : lasting K -> tame K already_sent.
Proof. intros HK. apply tame_done; [done|]. intros t Ht _. by apply phone_ok_start. Qed.

Lemma tame_session_lost K s : lasting K -> s <> verified -> tame K (session_lost s).
Proof. intros HK Hs. apply tame_quiet; [done|]. intros t. cbn. by rewrite bool_decide_eq_false_2. Qed.

Lemma tame_threw title s e : s <> verified -> tame (fun _ => True) (request_threw title s e).
Proof.
  intros Hs. apply tame_quiet; [done|]. intros t. rewrite forallb_app. cbn. rewrite bool_decide_eq_false_2; [|done].
  by destruct (isAuthError e).
Qed.

Lemma tame_read K res : lasting K -> tame K (read_text res).
Proof. apply upholds_look. Qed.

Local Ltac tame_case :=
  repeat first
    [ apply tame_quiet; [done|done]
    | apply tame_already_sent; done
    | apply tame_session_lost; [done|discriminate]
    | apply upholds_bind; [done|by apply tame_read|intros ?]
    | match goal with |- upholds _ _ (match ?x with _ => _ end) => destruct x eqn:? end ].

Lemma tame_verifyPhone w p c : tame (fun _ => True) (verifyPhone w p c).
Proof.
  apply upholds_bind; [done|apply upholds_claim; [done|intros; by apply phone_ok_quiet]|]. intros [|]; [|apply upholds_return].
  apply upholds_finally; [done|intros; by apply phone_ok_quiet|]. apply tame_request; [|intros e; by apply tame_threw].
  intros ans. apply (upholds_weaken _ (fun _ => True)); [done|]. unfold send_answer. tame_case.
  apply tame_done; [done|]. intros t Ht _. by apply (phone_ok_start t [PState otp_sent; PSentOnce true; PCode ""%string]).
Qed.

Lemma tame_resendPhoneOtp n w p c : tame (fun _ => True) (resendPhoneOtp n w p c).
Proof.
  apply upholds_bind; [done|apply upholds_claim; [done|intros; apply phone_ok_quiet; [by destruct (n >? 0)|done]]|].
  intros [|]; [cbn [negb]|apply upholds_return]. destruct (n >? 0); [apply upholds_return|].
  apply upholds_finally; [done|intros; by apply phone_ok_quiet|]. apply tame_request; [|intros e; by apply tame_quiet].
  intros ans. apply (upholds_weaken _ (fun _ => True)); [done|]. unfold resend_answer. tame_case.
  apply tame_done; [done|]. intros t Ht _. by apply (phone_ok_start t [PState otp_sent; PCode ""%string]).
Qed.

(** It stops among other statements. *)
Lemma timer_ok_clear t es1 es2 : held t -> forallb (fun e => match e with PSeconds _ => true | _ => negb (timing e) end) es1 = true ->
  resendSecondsLeft ((t ++ es1) ++ clearTimer t ++ es2) = 0 ->
  forallb (fun e => match e with PInterval _ | PClear _ => false | _ => true end) es2 = true ->
  timer_ok (t ++ es1 ++ clearTimer t ++ es2).
Proof.
  intros Ht H1%forallb_all Hn H2. rewrite app_assoc.
  assert (resendTimerRef (t ++ es1) = resendTimerRef t /\ firing (t ++ es1) = firing t) as [Hr Hf].
  { split; apply value_of_kept; (eapply list.Forall_impl; [exact H1|]); intros e; by destruct e. }
  assert (clearTimer t = clearTimer (t ++ es1)) as Hc by (unfold clearTimer; by rewrite Hr).
  rewrite Hc in *. apply timer_ok_stop; [|done..]. intros i. rewrite Hf, Hr. apply Ht.
Qed.

Lemma tame_verifyPhoneOtp w p c : tame (fun _ => True) (verifyPhoneOtp w p c).
Proof.
  apply upholds_bind; [done|apply upholds_claim; [done|intros; by apply phone_ok_quiet]|]. intros [|]; [cbn [negb]|apply upholds_return].
  apply upholds_finally; [done|intros; by apply phone_ok_quiet|]. apply tame_request; [|intros e; by apply tame_threw].
  intros ans. assert (Hl : lasting (fun t : list phone_event => True /\ exists g, g ∈ t /\
    g = PPost "/user/verify-phone-otp" [("walletAddress", w); ("phone", p); ("code", trim c)]%string (Ok ans))).
  { apply lasting_and; [done|]. by apply (lasting_seen (fun g => g = _)). }
  unfold code_answer. destruct (ans_authFailed ans) eqn:Ha; [by apply tame_session_lost|].
  destruct (ans_res ans) as [res|] eqn:Hres; [|by apply tame_quiet].
  destruct (ok_status (res_status res)) eqn:Hok; cbn [negb].
  - apply tame_done; [done|]. intros t [Ht Hg] (_ & g & Hin & ->).
    split; [|apply grounded_app; [done|left]].
    + apply (timer_ok_clear t [PState verified; PError None]); [by apply timer_ok_held|done| |done].
      unfold resendSecondsLeft. by rewrite app_assoc, value_of_app.
    + eexists. split; [exact Hin|]. by eexists _, ans, res.
  - apply upholds_bind; [done|by apply tame_read|intros text]. by apply tame_quiet.
Qed.

Lemma tame_act a : tame (fun _ => True) (act a).
Proof.
  destruct a as [w p c|w p c|n w p c|s| |i]; cbn [act].
  - apply upholds_bind; [done|apply tame_verifyPhone|]. intros _. apply upholds_return.
  - apply upholds_bind; [done|apply tame_verifyPhoneOtp|]. intros _. apply upholds_return.
  - apply upholds_bind; [done|apply tame_resendPhoneOtp|]. intros _. apply upholds_return.
  - by apply tame_change.
  - apply upholds_change; [done|]. intros t [Ht Hg] _. split.
    + apply (timer_ok_clear t [PState idle; PError None; PCode ""%string; PSeconds 0; PSentOnce false]);
        [by apply timer_ok_held|done| |done].
      destruct (clearTimer_rest (t ++ [PState idle; PError None; PCode ""%string; PSeconds 0; PSentOnce false]) t) as [Hn _].
      unfold resendSecondsLeft in *. by rewrite app_assoc, value_of_app, Hn, value_of_app.
    + apply grounded_app; [done|]. right. unfold clearTimer. destruct (resendTimerRef t); cbn; repeat constructor; by intros [?|?].
  - apply upholds_change; [done|]. intros t [Ht Hg] _. case_bool_decide as Hi; [|by rewrite app_nil_r]. split.
    + apply timer_ok_tick; [done|]. intros Hn. rewrite Hn in Hi. by apply elem_of_nil in Hi.
    + apply grounded_app; [done|]. right. unfold countdown, clearTimer.
      destruct (_ <=? _), (resendTimerRef t); cbn; repeat constructor; by intros [?|?].
Qed.

(** However the requests of the screen, the user's typing and the intervals
    interleave, whatever the backend answers: at most one interval fires, the countdown
    stays within its minute and only runs while it fires, and the phone is shown and
    announced as verified only after the backend accepted a code. *)
Theorem phone_page_ok (actions : list phone_action) (c : pool (list phone_event) unit)
    (Hrun : steps pool_step (map act actions, []) c) : phone_ok (snd c).
Proof.
  eapply (upholds_pool phone_ok _ [] c); [exact Hrun| |].
  - apply Forall_map, Forall_true. apply tame_act.
  - split; [|by apply grounded_nil]. split; [unfold RESEND_COOLDOWN_SECONDS; cbn; lia|].
    split; [cbn; lia|]. intros i. split; [by intros ?%elem_of_nil|]. intros [? ?]. discriminate.
Qed.

(** ** The countdown ends *)

(** [n] seconds go by. *)
Fixpoint seconds_pass (n : nat) (t : list phone_event) : list phone_event :=
  match n with
  | O => t
  | S n' => match resendTimerRef t with
            | Some i => seconds_pass n' (snd (run (interval_fires i) t))
            | None => t
            end
  end.

Lemma tick_run t i : timer_ok t -> resendTimerRef t = Some i -> 0 < resendSecondsLeft t ->
  snd (run (interval_fires i) t) = t ++ countdown t /\ timer_ok (t ++ countdown t) /\
  resendSecondsLeft (t ++ countdown t) = resendSecondsLeft t - 1 /\
  (1 < resendSecondsLeft t -> resendTimerRef (t ++ countdown t) = Some i).
Proof.
  intros Ht Hi Hn. assert (Hin : i ∈ firing t) by (by apply Ht). split_and!.
  - unfold interval_fires, change. rewrite run_await. cbn. by rewrite bool_decide_eq_true_2.
  - apply timer_ok_tick; [done|]. intros H. rewrite H in Hin. by apply elem_of_nil in Hin.
  - unfold countdown. destruct (_ <=? 1) eqn:E; bool_to_prop; unfold resendSecondsLeft in *.
    + rewrite app_assoc, value_of_app. cbn. lia.
    + by rewrite value_of_app.
  - intros H. unfold countdown. destruct (_ <=? 1) eqn:E; bool_to_prop; [lia|]. unfold resendTimerRef in *. by rewrite value_of_app.
Qed.

(** A countdown that runs loses one second at a time and stops at zero, with no
    interval left. *)
Lemma countdown_ends t n : timer_ok t -> (n <= Z.to_nat (resendSecondsLeft t))%nat ->
  resendSecondsLeft (seconds_pass n t) = resendSecondsLeft t - Z.of_nat n /\ timer_ok (seconds_pass n t).
Proof.
  revert t. induction n as [|n IH]; intros t Ht Hn; cbn [seconds_pass]; [split; [lia|done]|].
  destruct (resendTimerRef t) as [i|] eqn:Hi.
  - destruct (tick_run t i Ht Hi) as (-> & Ht' & Hs & _); [lia|]. destruct (IH _ Ht') as [-> ?]; [lia|]. split; [lia|done].
  - destruct Ht as (_ & Hi' & _). destruct Hi' as [? ?]; [lia|congruence].
Qed.

(** ** What a request leaves *)

(** The requests made. *)
Definition requests (t : list phone_event) : list (string * list (string * string)) :=
  omap (fun e => match e with PPost path body _ => Some (path, body) | _ => None end) t.

(** The rest of a handler after the answer: what it returns and shows, without another
    request, whatever was there before. *)
Definition leaves (ok : bool) (s : PhoneState) (seconds : option Z) (cs : list phone_event) (r : result bool) : Prop :=
  r = Ok ok /\ requests cs = [] /\
  forall t, state pendingOtp (t ++ cs) = s /\ (ok = false -> is_Some (error (t ++ cs))) /\
            resendSecondsLeft (t ++ cs) = default (resendSecondsLeft t) seconds.

Definition emits_leaves ok s seconds p : Prop := emits (leaves ok s seconds) p.

(** The answers after which the screen asks for the code. *)
Definition code_on_its_way (r : result (Answered unit)) : bool :=
  match r with
  | Ok {| ans_res := Some res; ans_authFailed := false |} =>
      ok_status (res_status res) ||
      ((res_status res =? 409) && negb (isDuplicate (text_of res))) ||
      ((res_status res =? 429) && isCooldownResponse 429 (text_of res))
  | _ => false
  end.

Lemma leaves_change f b s seconds :
  (forall u, leaves b s seconds (f u) (Ok b)) -> emits_leaves b s seconds (done_with f b).
Proof.
  intros H. apply emits_bind, emits_change. intros u. apply emits_return. rewrite app_nil_r. apply H.
Qed.

Lemma leaves_read res b s seconds k :
  emits_leaves b s seconds (k (text_of res)) -> emits_leaves b s seconds (text ← read_text res; k text).
Proof.
  intros H. apply emits_bind. intros t. unfold read_text, look. rewrite run_await. exists []. rewrite app_nil_r. split; [done|].
  cbn. exact H.
Qed.

Local Ltac leaf :=
  apply leaves_change; intros u; unfold leaves, startResendCountdown, clearTimer, state, error, resendSecondsLeft, requests;
  destruct (resendTimerRef u); (split_and!; [done|done|]); intros ?; rewrite !value_of_app; cbn; done.

Lemma leaves_session_lost s : emits_leaves false s None (session_lost s).
Proof. leaf. Qed.

Lemma leaves_threw title s e : emits_leaves false s None (request_threw title s e).
Proof. unfold request_threw. destruct (isAuthError e); leaf. Qed.

Lemma leaves_already_sent : emits_leaves true otp_sent (Some RESEND_COOLDOWN_SECONDS) already_sent.
Proof. leaf. Qed.

Definition sent_leaves (b : bool) : proc (list phone_event) bool -> Prop :=
  emits_leaves b (if b then otp_sent else error_state) (if b then Some RESEND_COOLDOWN_SECONDS else None).

Lemma send_answer_leaves ans : sent_leaves (code_on_its_way (Ok ans)) (send_answer ans).
Proof.
  destruct ans as [[res|] []]; unfold send_answer; cbn [ans_authFailed ans_res code_on_its_way orb andb negb]; [apply leaves_session_lost| |apply leaves_session_lost|leaf].
  destruct (ok_status (res_status res)); cbn [ans_authFailed ans_res code_on_its_way orb andb negb]; [leaf|]. apply leaves_read.
  destruct (res_status res =? 409) eqn:E409; cbn [ans_authFailed ans_res code_on_its_way orb andb negb].
  - destruct (isDuplicate (text_of res)); cbn [ans_authFailed ans_res code_on_its_way orb andb negb].
    + assert ((res_status res =? 429) = false) as -> by (bool_to_prop; lia). leaf.
    + apply leaves_already_sent.
  - unfold isCooldownResponse. rewrite E409. destruct (res_status res =? 429); cbn [ans_authFailed ans_res code_on_its_way orb andb negb]; [|leaf].
    destruct (_ || _ || _ || _); [apply leaves_already_sent|leaf].
Qed.

(** Those after which the phone is verified, and those after which a new code is
    awaited. *)
Definition code_taken (r : result (Answered unit)) : bool :=
  match r with Ok {| ans_res := Some res; ans_authFailed := false |} => ok_status (res_status res) | _ => false end.

Definition code_resent (r : result (Answered unit)) : bool :=
  match r with
  | Ok {| ans_res := Some res; ans_authFailed := false |} =>
      ok_status (res_status res) || isCooldownResponse (res_status res) (text_of res)
  | _ => false
  end.

Definition after_code (r : result (Answered unit)) : PhoneState :=
  if code_taken r then verified else match r with Ok ans => if ans_authFailed ans then error_state else otp_sent | Throw _ => otp_sent end.

Lemma code_answer_leaves ans :
  emits_leaves (code_taken (Ok ans)) (after_code (Ok ans)) (if code_taken (Ok ans) then Some 0 else None) (code_answer ans).
Proof.
  destruct ans as [[res|] []]; unfold code_answer, after_code; cbn [ans_authFailed ans_res code_taken];
    [apply leaves_session_lost| |apply leaves_session_lost|leaf].
  destruct (ok_status (res_status res)); cbn [negb]; [leaf|]. apply leaves_read. leaf.
Qed.

Lemma resend_answer_leaves ans :
  emits_leaves (code_resent (Ok ans)) otp_sent (if code_resent (Ok ans) then Some RESEND_COOLDOWN_SECONDS else None) (resend_answer ans).
Proof.
  destruct ans as [[res|] []]; unfold resend_answer; cbn [ans_authFailed ans_res code_resent];
    [apply leaves_session_lost| |apply leaves_session_lost|leaf].
  destruct (ok_status (res_status res)); cbn [orb negb]; [leaf|]. apply leaves_read.
  destruct (isCooldownResponse _ _); [apply leaves_already_sent|leaf].
Qed.

(** A request with its flag: what it answers, what it leaves. *)
Lemma request_outcome path body (b : result (Answered unit) -> bool) s secs k h off t :
  (forall ans, emits_leaves (b (Ok ans)) (s (Ok ans)) (secs (Ok ans)) (k ans)) ->
  (forall e, emits_leaves (b (Throw e)) (s (Throw e)) (secs (Throw e)) (h e)) ->
  match off with PSending _ | PVerifying _ => true | _ => false end = true ->
  let answer := phone_post t path body in
  let '(r, t') := run (finally (proc_try h (ans ← post path body; k ans)) [off]) t in
  r = Ok (b answer) /\ requests t' = requests t ++ [(path, body)] /\ state pendingOtp t' = s answer /\
  (b answer = false -> is_Some (error t')) /\ resendSecondsLeft t' = default (resendSecondsLeft t) (secs answer) /\
  exists t2, t' = t2 ++ [off].
Proof.
  intros Hk Hh Hoff answer. rewrite finally_run.
  assert (exists cs, snd (run (proc_try h (ans ← post path body; k ans)) t) = (t ++ [PPost path body answer]) ++ cs /\
                     leaves (b answer) (s answer) (secs answer) cs (fst (run (proc_try h (ans ← post path body; k ans)) t)))
    as (cs & -> & -> & Hr & Hcs).
  { rewrite proc_try_run, run_bind. unfold post, ask. rewrite run_await. fold answer. cbn zeta. destruct answer as [ans|e].
    - destruct (Hk ans (t ++ [PPost path body (Ok ans)])) as (cs & Hs & Hl). destruct (run (k ans) _) as [[?|?] ?]; cbn in *.
      + by exists cs.
      + by destruct Hl as [? _].
    - apply Hh. }
  destruct (Hcs (t ++ [PPost path body answer])) as (H1 & H2 & H3). split_and!; [done|..].
  - unfold requests in *. rewrite !omap_app, Hr. cbn. destruct off; try discriminate Hoff; cbn; by rewrite !app_nil_r.
  - rewrite <- H1. apply value_of_kept. repeat constructor. by destruct off.
  - unfold error. rewrite value_of_kept; [exact H2|]. repeat constructor. by destruct off.
  - unfold resendSecondsLeft. rewrite value_of_kept; [|repeat constructor; by destruct off].
    unfold resendSecondsLeft in H3. rewrite H3. by rewrite value_of_kept by (by repeat constructor).
  - by eexists.
Qed.

(** Sending a code: the backend is asked once; the screen asks for the code exactly
    when it is on its way, with a new countdown, and shows an error otherwise. The
    flag is free again on every path. *)
Theorem verifyPhone_outcome (w p c : string) (t : list phone_event) (Hfree : sendInFlightRef t = false) :
  let body := [("walletAddress", w); ("phone", p); ("channel", c)]%string in
  let answer := phone_post (t ++ [PSending true; PError None; PState sending]) "/user/verify-phone" body in
  let '(r, t') := run (verifyPhone w p c) t in
  r = Ok (code_on_its_way answer) /\ requests t' = requests t ++ [("/user/verify-phone"%string, body)] /\
  state pendingOtp t' = (if code_on_its_way answer then otp_sent else error_state) /\
  (code_on_its_way answer = false -> is_Some (error t')) /\
  resendSecondsLeft t' = (if code_on_its_way answer then RESEND_COOLDOWN_SECONDS else resendSecondsLeft t) /\
  sendInFlightRef t' = false.
Proof.
  intros body answer. unfold verifyPhone, claim. rewrite run_await_bind, Hfree. cbn [negb].
  pose proof (request_outcome "/user/verify-phone" body code_on_its_way
    (fun r => if code_on_its_way r then otp_sent else error_state) (fun r => if code_on_its_way r then Some RESEND_COOLDOWN_SECONDS else None)
    send_answer (request_threw (say "toast.sendFailedTitle") error_state) (PSending false)
    (t ++ [PSending true; PError None; PState sending]) send_answer_leaves (leaves_threw _ _) eq_refl) as H.
  fold answer in H. cbn zeta in H. fold body. destruct (run _ _) as [r t']. destruct H as (-> & Hr & Hs & He & Hn & t2 & Ht).
  split_and!; [done| |done|done| |].
  - rewrite Hr. unfold requests. rewrite omap_app. cbn. by rewrite app_nil_r.
  - rewrite Hn. destruct (code_on_its_way answer); [done|]. apply value_of_kept. by repeat constructor.
  - subst. unfold sendInFlightRef. by rewrite value_of_app.
Qed.

(** Checking the code: the phone is shown as verified exactly when the backend took
    the code. *)
Theorem verifyPhoneOtp_outcome (w p c : string) (t : list phone_event) (Hfree : verifyInFlightRef t = false) :
  let body := [("walletAddress", w); ("phone", p); ("code", trim c)]%string in
  let answer := phone_post (t ++ [PVerifying true; PError None; PState verifying]) "/user/verify-phone-otp" body in
  let '(r, t') := run (verifyPhoneOtp w p c) t in
  r = Ok (code_taken answer) /\ requests t' = requests t ++ [("/user/verify-phone-otp"%string, body)] /\
  state pendingOtp t' = after_code answer /\
  (code_taken answer = false -> is_Some (error t')) /\
  resendSecondsLeft t' = (if code_taken answer then 0 else resendSecondsLeft t) /\
  verifyInFlightRef t' = false.
Proof.
  intros body answer. unfold verifyPhoneOtp, claim. rewrite run_await_bind, Hfree. cbn [negb].
  pose proof (request_outcome "/user/verify-phone-otp" body code_taken after_code (fun r => if code_taken r then Some 0 else None)
    code_answer (request_threw (say "toast.verifyFailedTitle") otp_sent) (PVerifying false)
    (t ++ [PVerifying true; PError None; PState verifying]) code_answer_leaves (leaves_threw _ _) eq_refl) as H.
  fold answer in H. cbn zeta in H. fold body. destruct (run _ _) as [r t']. destruct H as (-> & Hr & Hs & He & Hn & t2 & Ht).
  split_and!; [done| |done|done| |].
  - rewrite Hr. unfold requests. rewrite omap_app. cbn. by rewrite app_nil_r.
  - rewrite Hn. destruct (code_taken answer); [done|]. apply value_of_kept. by repeat constructor.
  - subst. unfold verifyInFlightRef. by rewrite value_of_app.
Qed.

(** Asking for another code, once the countdown of the render is over. *)
Theorem resendPhoneOtp_outcome (n : Z) (w p c : string) (t : list phone_event) (Hfree : sendInFlightRef t = false) (Hn : n <= 0) :
  let body := [("walletAddress", w); ("phone", p); ("channel", c)]%string in
  let answer := phone_post (t ++ [PSending true; PError None; PState sending]) "/user/resend-phone-otp" body in
  let '(r, t') := run (resendPhoneOtp n w p c) t in
  r = Ok (code_resent answer) /\ requests t' = requests t ++ [("/user/resend-phone-otp"%string, body)] /\
  state pendingOtp t' = otp_sent /\ (code_resent answer = false -> is_Some (error t')) /\
  resendSecondsLeft t' = (if code_resent answer then RESEND_COOLDOWN_SECONDS else resendSecondsLeft t) /\
  sendInFlightRef t' = false.
Proof.
  intros body answer. unfold resendPhoneOtp, claim. rewrite run_await_bind, Hfree.
  assert ((n >? 0) = false) as -> by lia. cbn [negb].
  pose proof (request_outcome "/user/resend-phone-otp" body code_resent (fun _ => otp_sent)
    (fun r => if code_resent r then Some RESEND_COOLDOWN_SECONDS else None) resend_answer
    (fun e => done_with (fun _ => [PError (Some (exn_message e)); PState otp_sent]) false) (PSending false)
    (t ++ [PSending true; PError None; PState sending]) resend_answer_leaves) as H.
  cbn zeta in H. fold answer in H. specialize (H ltac:(intros e; leaf) eq_refl). fold body. destruct (run _ _) as [r t'].
  destruct H as (-> & Hr & Hs & He & Hs' & t2 & Ht). split_and!; [done| |done|done| |].
  - rewrite Hr. unfold requests. rewrite omap_app. cbn. by rewrite app_nil_r.
  - rewrite Hs'. destruct (code_resent answer); [done|]. apply value_of_kept. by repeat constructor.
  - subst. unfold sendInFlightRef. by rewrite value_of_app.
Qed.
End PhoneProps.

(** ** A concrete run *)

(** The backend sends the code, refuses a first code and takes the second. *)
#[local] Instance sample_phone : PhoneOutside := {
  phone_post t path body :=
    let res status text := Ok {| ans_res := Some {| res_status := status; res_text := Ok text; res_json := Ok tt |}; ans_authFailed := false |} in
    if bool_decide (path = "/user/verify-phone"%string) then res 201 ""%string
    else if bool_decide (("code", "123456")%string ∈ body) then res 201 ""%string else res 400 "Invalid code"%string;
  phone_text key _ := key;
}.

Definition phone_run : list phone_event :=
  snd (run (verifyPhoneOtp "0xaa" "+541100000000" " 123456 ") (snd (run (verifyPhoneOtp "0xaa" "+541100000000" "000000")
      (snd (run (verifyPhone "0xaa" "+541100000000" "whatsapp") []))))).

Example phone_run_verified : state false phone_run = verified /\ firing phone_run = [] /\ error phone_run = None /\
  length (requests phone_run) = 3%nat.
Proof. vm_compute. done. Qed.

Lemma verifyPhone_outcome_witness :
  sendInFlightRef [] = false /\
  state false (snd (run (verifyPhone "0xaa" "+541100000000" "whatsapp") [])) = otp_sent /\
  resendSecondsLeft (snd (run (verifyPhone "0xaa" "+541100000000" "whatsapp") [])) = 60.
Proof.
  split; [reflexivity|].
  pose proof (verifyPhone_outcome false "0xaa" "+541100000000" "whatsapp" [] eq_refl) as H.
  cbn zeta in H. destruct (run _ _) as [r t'] in H |- *. destruct H as (_ & _ & H1 & _ & H2 & _). cbn [snd]. rewrite H1, H2. split; vm_compute; reflexivity.
Defined.

(** A number that another account holds: the backend's conflict says so in other words
    than those the screen looks for, and the user is told that a code is on its way. *)
Example taken_number_looks_sent :
  code_on_its_way (Ok {| ans_res := Some {| res_status := 409; res_text := Ok "Este número ya está registrado con otra cuenta"%string; res_json := Ok tt |};
                         ans_authFailed := false |}) = true.
Proof. vm_compute. done. Qed.
