(* ===== verification/OnboardingFlow.v ===== *)
(** * The access screen of the browser
      ([frontend/src/hooks/borrow/backend/useOnBoardingFlow.ts])

    What the backend knows of the connected wallet (its journey), the e-mail code, the
    terms, and the verification that unlocks borrowing. *)

From stdpp Require Import base tactics list strings numbers.
From Stdlib Require Import Lia ZArith.
From S2P Require Import Prelude JsString JsNum Async PendingQueue Session Trace Judgements HookTrace.

Local Open Scope Z_scope.

(** ** Data *)

(** The members the hook reads of the objects the backend sends ([UserJourneyResponse],
    [VerifyUserResponse]); a flag that is missing is false. *)
Record Data := {
  d_walletAddress : option string;
  d_email : option string;
  d_workType : option string;
  d_isVerified : bool;
  d_termsAccepted : bool;
  d_phoneVerified : bool;
  d_pendingPhoneOtp : bool;
  d_requiresWaitlistOtp : bool;
  d_hasPendingWaitlist : bool;
  d_isEarlyUser : bool;
  d_otpExpiresAt : option string;
  d_stats : list (option Z);
  d_verified : bool;
  d_ok : bool;
  d_user : bool;
}.

Record BackendProblem := {
  pr_status : option string;
  pr_error_code : option string;
  pr_message : option string;
  pr_next_step : option string;
}.

(** What [json()] gives: an object, or [null]. *)
Abbreviation Reply := (Response (option Data)).
Abbreviation Posted := (Answered (option Data)).

(** The values the hook sets, its requests, and what it tells the rest of the page. *)
Inductive flow_event :=
  | FWallet (w : option string)
  | FJourney (j : option Data)
  | FOtpSettled
  | FLoading (b : bool)
  | FError (e : option string)
  | FEmail (s : string)
  | FOtp (s : string)
  | FOtpSent (b : bool)
  | FSendingOtp (b : bool)
  | FWorkType (w : option string)
  | FVerifying (b : bool)
  | FVerifyingFromOtp (b : bool)
  | FVerifyError (e : option string)
  | FUnlockedBorrow (b : bool)
  | FAccessReady (b : bool)
  | FJourneyAttempted (b : bool)
  | FSelfRequired (b : bool)
  | FTermsAccepted (b : bool)
  | FAcceptingTerms (b : bool)
  | FPhoneVerified (b : bool)
  | FPendingPhoneOtp (b : bool)
  | FAutoStarted (b : bool)
  | FSendOtpInFlight (b : bool)
  | FWaitlistOtpInFlight (b : bool)
  | FVerifyInFlight (b : bool)
  | FIsVerified (b : bool)
  | FStats (stats : list (option Z))
  | FShowAuthFlow
  | FToast (kind : Toast) (msg : string)
  | FPost (path : string) (body : list (string * string)) (r : result Posted)
  | FGetUser (wallet : string) (r : result Data)
  | FAcceptTerms (wallet : string) (r : result Data)
  | FRefresh (r : result unit)
  | FSleep (ms : Z)
  | FCleanup (run : nat).

(** What the requests answer (an answer of [getUser] and [acceptTerms] is an object),
    whether one is late ([withTimeout]), [JSON.parse] of a text, the clock, and the
    translations. *)
Class FlowOutside := {
  flow_post : list flow_event -> string -> list (string * string) -> result Posted;
  flow_getUser : list flow_event -> string -> result Data;
  flow_acceptTerms : list flow_event -> string -> result Data;
  flow_refresh : list flow_event -> result unit;
  is_late : list flow_event -> Z -> bool;
  JSON_problem : string -> option BackendProblem;
  JSON_message : string -> option string;
  is_future : list flow_event -> string -> bool;
  flow_text : string -> option Z -> string;
}.

(** ** State *)

Definition wallet : list flow_event -> option string := value_of (fun e x => match e with FWallet v => v | _ => x end) None.

(** [setJourney(prev => prev ? { ...prev, requiresWaitlistOtp: false } : prev)] *)
Definition otp_settled (j : Data) : Data :=
  {| d_walletAddress := d_walletAddress j; d_email := d_email j; d_workType := d_workType j; d_isVerified := d_isVerified j;
     d_termsAccepted := d_termsAccepted j; d_phoneVerified := d_phoneVerified j; d_pendingPhoneOtp := d_pendingPhoneOtp j;
     d_requiresWaitlistOtp := false; d_hasPendingWaitlist := d_hasPendingWaitlist j; d_isEarlyUser := d_isEarlyUser j;
     d_otpExpiresAt := d_otpExpiresAt j; d_stats := d_stats j; d_verified := d_verified j; d_ok := d_ok j; d_user := d_user j |}.

Definition journey : list flow_event -> option Data :=
  value_of (fun e x => match e with FJourney v => v | FOtpSettled => otp_settled <$> x | _ => x end) None.

Definition loading : list flow_event -> bool := value_of (fun e x => match e with FLoading v => v | _ => x end) false.
Definition error : list flow_event -> option string := value_of (fun e x => match e with FError v => v | _ => x end) None.
Definition email : list flow_event -> string := value_of (fun e x => match e with FEmail v => v | _ => x end) ""%string.
Definition otp : list flow_event -> string := value_of (fun e x => match e with FOtp v => v | _ => x end) ""%string.
Definition otpSent : list flow_event -> bool := value_of (fun e x => match e with FOtpSent v => v | _ => x end) false.
Definition sendingOtp : list flow_event -> bool := value_of (fun e x => match e with FSendingOtp v => v | _ => x end) false.
Definition workType : list flow_event -> option string := value_of (fun e x => match e with FWorkType v => v | _ => x end) None.
Definition verifying : list flow_event -> bool := value_of (fun e x => match e with FVerifying v => v | _ => x end) false.
Definition verifyingFromOtp : list flow_event -> bool := value_of (fun e x => match e with FVerifyingFromOtp v => v | _ => x end) false.
Definition verifyError : list flow_event -> option string := value_of (fun e x => match e with FVerifyError v => v | _ => x end) None.
Definition unlockedBorrow : list flow_event -> bool := value_of (fun e x => match e with FUnlockedBorrow v => v | _ => x end) false.
Definition accessReady : list flow_event -> bool := value_of (fun e x => match e with FAccessReady v => v | _ => x end) false.
Definition journeyAttempted : list flow_event -> bool := value_of (fun e x => match e with FJourneyAttempted v => v | _ => x end) false.
Definition selfRequired : list flow_event -> bool := value_of (fun e x => match e with FSelfRequired v => v | _ => x end) false.
Definition termsAccepted : list flow_event -> bool := value_of (fun e x => match e with FTermsAccepted v => v | _ => x end) false.
Definition acceptingTerms : list flow_event -> bool := value_of (fun e x => match e with FAcceptingTerms v => v | _ => x end) false.
Definition phoneVerified : list flow_event -> bool := value_of (fun e x => match e with FPhoneVerified v => v | _ => x end) false.
Definition pendingPhoneOtp : list flow_event -> bool := value_of (fun e x => match e with FPendingPhoneOtp v => v | _ => x end) false.
Definition autoStartedRef : list flow_event -> bool := value_of (fun e x => match e with FAutoStarted v => v | _ => x end) false.
Definition sendOtpInFlightRef : list flow_event -> bool := value_of (fun e x => match e with FSendOtpInFlight v => v | _ => x end) false.
Definition waitlistOtpInFlightRef : list flow_event -> bool :=
  value_of (fun e x => match e with FWaitlistOtpInFlight v => v | _ => x end) false.
Definition verifyInFlightRef : list flow_event -> bool := value_of (fun e x => match e with FVerifyInFlight v => v | _ => x end) false.

(** The flag of the borrower's provider. *)
Definition isVerified : list flow_event -> bool := value_of (fun e x => match e with FIsVerified v => v | _ => x end) false.

(** The cleanup of a run of the fetch effect has run. *)
Definition cancelled (run : nat) : list flow_event -> bool :=
  value_of (fun e b => match e with FCleanup n => b || Nat.eqb n run | _ => b end) false.

(** What the page gives the hook. *)
Record Props := {
  p_mode : WalletMode;
  p_isMiniApp : bool;
  p_primaryWallet : option string;
  p_connectedAddress : option string;
  p_contractsReady : bool;
  p_readyUser : bool;
  p_waitlistChecking : bool;
}.

(** [platform] *)
Definition platform_of (m : WalletMode) : string :=
  match m with lemon => "lemon" | farcaster => "farcaster" | webapp => "webapp" | _ => "webapp" end.

(** [wallet]: the connected address is no substitute in Farcaster. *)
Definition wallet_of (p : Props) : option string :=
  let fromPrimary := normalizeWalletAddress (p_primaryWallet p) (Some (mode_name (p_mode p))) in
  if bool_decide (p_mode p = farcaster) then fromPrimary
  else match fromPrimary with
       | Some w => Some w
       | None => normalizeWalletAddress (p_connectedAddress p) (Some (mode_name (p_mode p)))
       end.

(** [platform === "lemon" || platform === "webapp"] *)
Definition phone_platform (m : WalletMode) : bool :=
  bool_decide (platform_of m = "lemon"%string) || bool_decide (platform_of m = "webapp"%string).

Section Flow.
  Context `{OUT : FlowOutside}.

(** ** Helpers *)

Definition say (key : string) : string := flow_text ("hooks.useOnBoardingFlow." +:+ key) None.
Definition say_status (key : string) (n : Z) : string := flow_text ("hooks.useOnBoardingFlow." +:+ key) (Some n).

Definition parseBackendProblem (text : string) : option BackendProblem :=
  let raw := trim text in if bool_decide (raw = ""%string) then None else JSON_problem raw.

(** A text that is an object with a message shows the message. *)
Definition normalizeErrorMessage (err : option string) : option string :=
  if has_text err then
    match JSON_message (default ""%string err) with Some m => Some m | None => err end
  else None.

(** [a || b] on strings *)
Definition or_else (a b : string) : string := if bool_decide (a = ""%string) then b else a.

Definition setVerifyAndToast (raw : option string) (title : string) : list flow_event :=
  let fallback := or_else title (say "toast.genericError") in
  let message := match normalizeErrorMessage raw with
                 | Some pretty => if bool_decide (trim pretty = ""%string) then fallback else pretty
                 | None => fallback
                 end in
  [FVerifyError (Some message); FToast toast_error fallback].

Definition applyJourneyStats (data : Data) : list flow_event :=
  FStats (d_stats data) :: (if has_text (d_email data) then [FEmail (default ""%string (d_email data))] else []).

Definition updateJourneyFromResponse (data : Data) : list flow_event :=
  [FJourney (Some data)] ++ applyJourneyStats data ++ [FTermsAccepted (d_termsAccepted data)] ++
  (if d_phoneVerified data then [FPhoneVerified true] else []) ++ [FPendingPhoneOtp (d_pendingPhoneOtp data)] ++
  (if has_text (d_workType data) then [FWorkType (d_workType data)] else []) ++
  (if d_isVerified data then [FIsVerified true; FUnlockedBorrow true] else []).

(** [if (data?.walletAddress) updateJourneyFromResponse(data)] *)
Definition has_journey (data : option Data) : bool := match data with Some d => has_text (d_walletAddress d) | None => false end.

Definition update_if_journey (data : option Data) : list flow_event :=
  match data with Some d => if has_text (d_walletAddress d) then updateJourneyFromResponse d else [] | None => [] end.

Definition isSelfRequiredProblem (status : Z) (bodyText : string) : bool :=
  (status =? 428) ||
  match parseBackendProblem bodyText with
  | Some problem => bool_decide (pr_status problem = Some "warning"%string) ||
                    bool_decide (pr_error_code problem = Some "SELF_VERIFICATION_REQUIRED_FOR_FARCASTER"%string) ||
                    bool_decide (pr_next_step problem = Some "self_verification"%string)
  | None => false
  end.

Definition isOtpAlreadySentProblem (status : Z) (bodyText : string) : bool :=
  if negb ((status =? 409) || (status =? 429)) then false else
  let problem := parseBackendProblem bodyText in
  let code := toUpperCase (default ""%string (problem ≫= pr_error_code)) in
  let next := toLowerCase (default ""%string (problem ≫= pr_next_step)) in
  let msg := toLowerCase (default ""%string (problem ≫= pr_message)) in
  let raw := toLowerCase bodyText in
  let either x := includes raw x || includes msg x in
  includes next "otp" ||
  (includes code "OTP" && (includes code "SENT" || includes code "ALREADY" || includes code "COOLDOWN")) ||
  (either "already" && (either "otp" || either "code")) ||
  ((either "cooldown" || either "too many") && (either "otp" || either "code")).

(** [data?.verified === true || data?.ok === true || !!data?.user] *)
Definition access_granted (data : option Data) : bool :=
  match data with Some d => d_verified d || d_ok d || d_user d | None => false end.

(** [res.json().catch(() => null)] *)
Definition json_of (res : Reply) : option Data := match res_json res with Ok d => d | Throw _ => None end.

(** ** Requests *)

Definition post (path : string) (body : list (string * string)) : proc (list flow_event) Posted :=
  ask (fun t => flow_post t path body) (FPost path body).

(** [withTimeout(p, ms)] *)
Definition or_late {A} (ms : Z) (f : list flow_event -> result A) (t : list flow_event) : result A :=
  if is_late t ms then Throw (PlainError ("Timeout after " +:+ String_of_int ms +:+ "ms")) else f t.

Definition post_within (ms : Z) (path : string) (body : list (string * string)) : proc (list flow_event) Posted :=
  ask (or_late ms (fun t => flow_post t path body)) (FPost path body).

Definition read_text (res : Reply) : proc (list flow_event) string := look (fun _ => text_of res).
Definition read_json (res : Reply) : proc (list flow_event) (option Data) := look (fun _ => json_of res).

Definition done_with {A} (es : list flow_event) (a : A) : proc (list flow_event) A := _ ← notes es; Return a.

(** [if (!isMiniApp) setShowAuthFlow()] *)
Definition sign_in (p : Props) : list flow_event := if p_isMiniApp p then [] else [FShowAuthFlow].

Definition lost_session : list flow_event := setVerifyAndToast (Some (say "errors.sessionInvalid")) "".

(** [text && text.trim().length > 0 ? text.trim() : fallback] *)
Definition or_text (text fallback : string) : string := or_else (trim text) fallback.

(** What the [catch] of a handler shows: errors have a message. *)
Definition threw (e : exn) (title : string) : list flow_event := setVerifyAndToast (Some (exn_message e)) title.

(** ** Effects *)

(** The wallet of the page changes. *)
Definition wallet_effect (p : Props) : proc (list flow_event) unit := notes
  [FWallet (wallet_of p); FAccessReady false; FUnlockedBorrow false; FOtp ""; FOtpSent false; FSendingOtp false; FVerifyError None;
   FJourney None; FError None; FJourneyAttempted false; FWorkType None; FSelfRequired false; FTermsAccepted false;
   FAcceptingTerms false; FPhoneVerified false; FAutoStarted false; FStats [None; None; None; None; None; None]].

(** What a journey that could not be fetched shows. *)
Definition fetch_failed (e : exn) : list flow_event :=
  match e with
  | UnauthorizedException _ => [FError (Some (say "errors.sessionInvalid")); FToast toast_error (say "errors.sessionInvalid")]
  | HttpException status body =>
      let raw := or_text body (say_status "errors.journeyHttp" status) in
      [FError (Some (default raw (normalizeErrorMessage (Some raw))))]
  | _ => [FError (Some (default (exn_message e) (normalizeErrorMessage (Some (exn_message e)))))]
  end.

(** Nothing is set once the cleanup of this run of the effect has run. *)
Definition unless_cancelled (run : nat) (es : list flow_event) : proc (list flow_event) unit :=
  change (fun t => if cancelled run t then [] else es).

Definition fetchJourney (run : nat) (addr : string) : proc (list flow_event) unit :=
  _ ← notes [FJourneyAttempted true; FLoading true; FError None];
  finally_do (proc_try (fun e => unless_cancelled run (fetch_failed e))
    (data ← ask (or_late 12000 (fun t => flow_getUser t addr)) (FGetUser addr);
     unless_cancelled run (updateJourneyFromResponse data)))
    (fun t => if cancelled run t then [] else [FLoading false]).

Definition fetch_effect (run : nat) (p : Props) : proc (list flow_event) unit :=
  match wallet_of p with
  | None => notes [FJourney None; FLoading false; FError None; FJourneyAttempted false]
  | Some addr => if p_readyUser p then fetchJourney run addr else Return tt
  end.

(** Its cleanup. *)
Definition fetch_cleanup (run : nat) : proc (list flow_event) unit := notes [FCleanup run].

(** The page may be shown. *)
Definition waits_contracts (p : Props) : bool :=
  negb (bool_decide (p_mode p = farcaster) || bool_decide (p_mode p = stellar) || p_isMiniApp p).

Definition ready_effect (p : Props) (s : list flow_event) : list flow_event :=
  if accessReady s then [] else
  if waits_contracts p && negb (p_contractsReady p) then [] else
  if waits_contracts p && p_waitlistChecking p then [] else
  if negb (p_readyUser p) then [] else
  match wallet_of p with
  | None => [FAccessReady true]
  | Some _ => if negb (journeyAttempted s) || loading s then [] else [FAccessReady true]
  end.

(** A code that was sent before the page was loaded. *)
Definition otp_effect (s t : list flow_event) : list flow_event :=
  match journey s with
  | None => []
  | Some j =>
      if otpSent s then [] else
      let hasValidOtp := d_requiresWaitlistOtp j && has_text (d_otpExpiresAt j) && is_future t (default ""%string (d_otpExpiresAt j)) in
      if hasValidOtp || (d_hasPendingWaitlist j && d_requiresWaitlistOtp j) then
        (if has_text (d_email j) then [FEmail (default ""%string (d_email j))] else []) ++ [FOtpSent true]
      else []
  end.

(** [refreshJourney]; the connected address comes first here. *)
Definition refreshJourney (p : Props) : proc (list flow_event) unit :=
  let m := Some (mode_name (p_mode p)) in
  match match normalizeWalletAddress (p_connectedAddress p) m with Some w => Some w | None => normalizeWalletAddress (p_primaryWallet p) m end with
  | None => Return tt
  | Some w => proc_try (fun _ => Return tt) (data ← ask (fun t => flow_getUser t w) (FGetUser w); notes (updateJourneyFromResponse data))
  end.

(** ** Handlers

    [p] and [s] are the properties and the state of the render the handler was made in. *)

(** What the two senders of a code do with the answer; [keep] is set with the code. *)
Definition code_answer (keep : list flow_event) (ans : Posted) : proc (list flow_event) bool :=
  if ans_authFailed ans then done_with lost_session false else
  match ans_res ans with
  | None => done_with (setVerifyAndToast (Some (say "errors.sendCodeError")) (say "toast.sendCodeFailedTitle")) false
  | Some res =>
      if negb (ok_status (res_status res)) then
        text ← read_text res;
        if isOtpAlreadySentProblem (res_status res) text then
          done_with ([FOtpSent true] ++ keep ++ [FToast toast_info (say "toast.codeSent")]) true
        else done_with (setVerifyAndToast None (say "toast.sendCodeFailedTitle")) false
      else
        data ← read_json res;
        done_with (update_if_journey data ++ [FOtpSent true] ++ keep ++ [FToast toast_success (say "toast.codeSent")]) true
  end.

Definition handleSendOtp (p : Props) (s : list flow_event) : proc (list flow_event) bool :=
  free ← claim sendOtpInFlightRef [FSendOtpInFlight true];
  if negb free then Return true else
  finally (proc_try (fun e => done_with (threw e (say "toast.sendCodeFailedTitle")) false)
    match wallet_of p with
    | None => done_with (sign_in p ++ setVerifyAndToast (Some (say "errors.connectWallet")) "") false
    | Some addr =>
    match journey s with
    | None => done_with (setVerifyAndToast (Some (say "errors.userStateNotFound")) "") false
    | Some j =>
        let emailToUse := trim (or_else (email s) (default ""%string (d_email j))) in
        if bool_decide (emailToUse = ""%string) then done_with (setVerifyAndToast (Some (say "errors.enterEmail")) "") false else
        _ ← notes [FVerifyError None; FSendingOtp true; FOtp ""];
        ans ← post "/user/verify-email" [("walletAddress", addr); ("email", emailToUse); ("platform", platform_of (p_mode p))]%string;
        code_answer [FEmail emailToUse] ans
    end end) [FSendingOtp false; FSendOtpInFlight false].

Definition handleWaitlistSendOtp (p : Props) (s : list flow_event) : proc (list flow_event) bool :=
  free ← claim waitlistOtpInFlightRef [FWaitlistOtpInFlight true];
  if negb free then Return true else
  finally (proc_try (fun e => done_with (threw e (say "toast.sendCodeFailedTitle")) false)
    match journey s with
    | None => done_with (setVerifyAndToast (Some (say "errors.userStateNotFound")) "") false
    | Some _ =>
    match wallet_of p with
    | None => done_with (setVerifyAndToast (Some (say "errors.connectWallet")) "" ++ sign_in p) false
    | Some addr =>
        let emailToUse := trim (email s) in
        if bool_decide (emailToUse = ""%string) then done_with (setVerifyAndToast (Some (say "errors.enterEmail")) "") false else
        _ ← notes [FVerifyError None; FError None; FSendingOtp true; FOtp ""];
        ans ← post "/user/join-waitlist" [("walletAddress", addr); ("email", emailToUse); ("platform", platform_of (p_mode p))]%string;
        code_answer [] ans
    end end) [FSendingOtp false; FWaitlistOtpInFlight false].

Definition handleAcceptTerms (p : Props) (s : list flow_event) : proc (list flow_event) unit :=
  match wallet_of p with
  | None => notes (sign_in p ++ setVerifyAndToast (Some (say "errors.connectWallet")) "")
  | Some w =>
      if termsAccepted s then Return tt else
      finally (proc_try (fun e => notes match e with
                                        | UnauthorizedException _ => lost_session
                                        | HttpException status body =>
                                            setVerifyAndToast (Some (or_text body (say_status "errors.acceptTermsHttp" status)))
                                                              (say "toast.acceptTermsFailedTitle")
                                        | _ => threw e (say "toast.acceptTermsFailedTitle")
                                        end)
        (_ ← notes [FAcceptingTerms true; FVerifyError None];
         data ← ask (fun t => flow_acceptTerms t w) (FAcceptTerms w);
         notes ([FTermsAccepted true] ++ update_if_journey (Some data)))) [FAcceptingTerms false]
  end.

(** ** Verification *)

(** [POST /user/verify-otp], and what an answer that is no success shows; [None] when
    the handler stops there. *)
Definition verify_otp (on_lost : list flow_event) (addr code work platform : string) : proc (list flow_event) (option (option Data)) :=
  ans ← post "/user/verify-otp" [("walletAddress", addr); ("code", code); ("workType", work); ("platform", platform)]%string;
  if ans_authFailed ans then done_with (lost_session ++ on_lost) None else
  match ans_res ans with
  | None => done_with (setVerifyAndToast (Some (say "errors.verifyCodeNetwork")) (say "toast.verifyCodeFailedTitle")) None
  | Some res =>
      if negb (ok_status (res_status res)) then
        text ← read_text res;
        done_with (setVerifyAndToast (Some (or_text text (say_status "errors.verifyOtpHttp" (res_status res))))
                                     (say "toast.verifyCodeFailedTitle")) None
      else data ← read_json res; Return (Some data)
  end.

(** The code of the e-mail, when the journey asks for one: whether to go on. *)
Definition otp_step (p : Props) (s : list flow_event) (addr : string) (j : Data) : proc (list flow_event) bool :=
  if negb (d_requiresWaitlistOtp j) then Return true else
  if negb (otpSent s) then done_with (setVerifyAndToast (Some (say "errors.otpFirstSend")) "") false else
  if bool_decide (trim (otp s) = ""%string) then done_with (setVerifyAndToast (Some (say "errors.otpEnter")) "") false else
  data ← verify_otp (sign_in p) addr (trim (otp s)) (or_else (default ""%string (workType s)) "other_job") (platform_of (p_mode p));
  match data with
  | None => Return false
  | Some data =>
      _ ← notes ((if has_journey data then update_if_journey data else [FOtpSettled]) ++ [FOtp ""; FOtpSent false]);
      _ ← note (FSleep 1500);
      done_with [FVerifyingFromOtp false] true
  end.

(** The work chosen in the meantime; a failure is no matter. *)
Definition work_step (s : list flow_event) (addr : string) : proc (list flow_event) unit :=
  if has_text (workType s) then
    _ ← settle (post_within 5000 "/user/update-work-type" [("walletAddress", addr); ("workType", default ""%string (workType s))]%string);
    Return tt
  else Return tt.

(** What an answer of [POST /loan/verify] that came shows: whether access was given. *)
Definition access_answer (res : Reply) : proc (list flow_event) bool :=
  if negb (ok_status (res_status res)) then
    text ← read_text res;
    if isSelfRequiredProblem (res_status res) text then done_with [FSelfRequired true] false
    else done_with (setVerifyAndToast (Some (or_text text ("HTTP " +:+ String_of_int (res_status res)))) (say "toast.verifyAccessFailedTitle")) false
  else
    data ← read_json res;
    if access_granted data then Return true
    else done_with (setVerifyAndToast (Some (say "errors.accessNotVerified")) "") false.

Definition verify_body (p : Props) (addr : string) : list (string * string) :=
  [("walletAddress", addr); ("platform", platform_of (p_mode p))]%string.

(** [for (let attempt = 1; attempt <= 3; attempt++) { ... }], with [left] passes to go:
    whether the code after the loop runs. *)
Fixpoint verify_attempts (p : Props) (addr : string) (left : nat) (attempt : Z) : proc (list flow_event) bool :=
  match left with
  | O => Return true
  | S left' =>
      ans ← post_within 45000 "/loan/verify" (verify_body p addr);
      if ans_authFailed ans then done_with (lost_session ++ sign_in p) false else
      match ans_res ans with
      | None =>
          if attempt <? 3 then _ ← note (FSleep (350 * attempt)); verify_attempts p addr left' (attempt + 1)
          else done_with (setVerifyAndToast (Some (say "errors.verifyAccessError")) (say "toast.verifyAccessFailedTitle")) false
      | Some res => access_answer res
      end
  end.

(** [await refresh?.()], whose errors are only logged. *)
Definition refresh_contracts : proc (list flow_event) unit := _ ← settle (ask flow_refresh FRefresh); Return tt.

Definition access_steps (p : Props) (s : list flow_event) (addr : string) (j : Data) : proc (list flow_event) unit :=
  go ← otp_step p s addr j;
  if negb go then Return tt else
  if negb (phoneVerified s) && phone_platform (p_mode p) then notes [FVerifying false] else
  _ ← work_step s addr;
  granted ← verify_attempts p addr 3 1;
  if negb granted then Return tt else
  _ ← notes [FIsVerified true; FUnlockedBorrow true; FVerifyError None; FSelfRequired false];
  refresh_contracts.

Definition handleEarlyAccessStart (p : Props) (s : list flow_event) : proc (list flow_event) unit :=
  free ← claim verifyInFlightRef [FVerifyInFlight true];
  if negb free then Return tt else
  finally (proc_try (fun e => notes (threw e (say "toast.verifyAccessFailedTitle")))
    match wallet_of p with
    | None => notes (setVerifyAndToast (Some (say "errors.connectWallet")) "" ++ sign_in p)
    | Some addr =>
    match journey s with
    | None => notes (setVerifyAndToast (Some (say "errors.userStateNotFound")) "")
    | Some j =>
        _ ← notes ([FVerifying true] ++ (if d_requiresWaitlistOtp j then [FVerifyingFromOtp true] else []) ++
                   [FVerifyError None; FSelfRequired false]);
        access_steps p s addr j
    end end) [FVerifying false; FVerifyingFromOtp false; FVerifyInFlight false].

Definition handleWaitlistConfirm (p : Props) (s : list flow_event) : proc (list flow_event) unit :=
  match journey s with
  | None => notes (setVerifyAndToast (Some (say "errors.userStateNotFound")) "")
  | Some _ =>
  match wallet_of p with
  | None => notes (setVerifyAndToast (Some (say "errors.connectWallet")) "" ++ sign_in p)
  | Some addr =>
      if negb (otpSent s) then notes (setVerifyAndToast (Some (say "errors.otpFirstSend")) "") else
      if bool_decide (trim (otp s) = ""%string) then notes (setVerifyAndToast (Some (say "errors.otpEnter")) "") else
      if negb (has_text (workType s)) then notes (setVerifyAndToast (Some (say "errors.workTypeRequired")) "") else
      finally (proc_try (fun e => notes (threw e (say "toast.verifyCodeFailedTitle")))
        (_ ← notes [FVerifying true; FVerifyError None];
         data ← verify_otp [] addr (trim (otp s)) (default ""%string (workType s)) (platform_of (p_mode p));
         match data with
         | None => Return tt
         | Some data => notes (update_if_journey data ++ [FOtp ""; FOtpSent false; FToast toast_success (say "toast.waitlistJoined")])
         end)) [FVerifying false]
  end end.

(** No [catch]: a request that is late ends the handler without a message. *)
Definition handleEarlyAccessFromWaitlist (p : Props) : proc (list flow_event) unit :=
  match wallet_of p with
  | None => Return tt
  | Some capturedWallet =>
      finally
        (_ ← notes [FVerifying true; FVerifyError None];
         ans ← post_within 45000 "/loan/verify" (verify_body p capturedWallet);
         if ans_authFailed ans then notes lost_session else
         match ans_res ans with
         | None => notes (setVerifyAndToast (Some (say "errors.verifyAccessError")) (say "toast.verifyAccessFailedTitle"))
         | Some res =>
             granted ← access_answer res;
             if negb granted then Return tt else
             _ ← notes [FIsVerified true; FUnlockedBorrow true; FSelfRequired false];
             refresh_contracts
         end) [FVerifying false]
  end.

(** When the access is asked for by itself: the conditions of the effect. *)
Definition auto_start (p : Props) (s : list flow_event) : bool :=
  match journey s with
  | None => false
  | Some j =>
      negb (bool_decide (p_mode p = stellar)) && d_isEarlyUser j && has_text (d_email j) && negb (d_requiresWaitlistOtp j) &&
      negb (isVerified s || unlockedBorrow s) && negb (verifying s) && negb (has_text (verifyError s)) &&
      negb (phone_platform (p_mode p) && negb (phoneVerified s)) && negb (phone_platform (p_mode p) && negb (has_text (workType s)))
  end.

Definition auto_effect (p : Props) (s : list flow_event) : proc (list flow_event) unit :=
  if negb (auto_start p s) then Return tt else
  free ← claim autoStartedRef [FAutoStarted true];
  if negb free then Return tt else handleEarlyAccessFromWaitlist p.

(** ** The page *)

Inductive flow_action :=
  | Connect (p : Props)
  | Fetch (run : nat) (p : Props)
  | Cleanup (run : nat)
  | Ready (p : Props) (s : list flow_event)
  | PendingOtp (s : list flow_event)
  | RefreshJourney (p : Props)
  | SendOtp (p : Props) (s : list flow_event)
  | WaitlistSendOtp (p : Props) (s : list flow_event)
  | AcceptTerms (p : Props) (s : list flow_event)
  | Start (p : Props) (s : list flow_event)
  | WaitlistConfirm (p : Props) (s : list flow_event)
  | AutoStart (p : Props) (s : list flow_event)
  | TypeEmail (e : string)
  | TypeOtp (c : string)
  | ChooseWork (w : option string)
  | PhoneDone
  | SetTerms (b : bool).

Definition act (a : flow_action) : proc (list flow_event) unit :=
  match a with
  | Connect p => wallet_effect p
  | Fetch run p => fetch_effect run p
  | Cleanup run => fetch_cleanup run
  | Ready p s => notes (ready_effect p s)
  | PendingOtp s => change (otp_effect s)
  | RefreshJourney p => refreshJourney p
  | SendOtp p s => _ ← handleSendOtp p s; Return tt
  | WaitlistSendOtp p s => _ ← handleWaitlistSendOtp p s; Return tt
  | AcceptTerms p s => handleAcceptTerms p s
  | Start p s => handleEarlyAccessStart p s
  | WaitlistConfirm p s => handleWaitlistConfirm p s
  | AutoStart p s => auto_effect p s
  | TypeEmail e => notes [FEmail e]
  | TypeOtp c => notes [FOtp c]
  | ChooseWork w => notes [FWorkType w]
  | PhoneDone => notes [FPhoneVerified true]
  | SetTerms b => notes [FTermsAccepted b]
  end.
End Flow.
