(* ===== verification/OnboardingFlowProps.v ===== *)
(** * Properties of the access screen

    Borrowing is unlocked by an answer of the backend only ([unlocked_by_backend]),
    the verification asks for access in its order and boundedly often
    ([early_access_order]), and journeys that arrive late are dropped. *)

From stdpp Require Import base tactics list strings numbers.
From Stdlib Require Import Lia ZArith.
From S2P Require Import Prelude JsString Async PendingQueue Session Trace Judgements HookTrace OnboardingFlow.

Local Open Scope Z_scope.

Section FlowProps.
  Context `{OUT : FlowOutside}.

(** ** Answers *)

(** A success of [POST /loan/verify] that says so. *)
Definition access_given (e : flow_event) : Prop :=
  exists body ans res, e = FPost "/loan/verify" body (Ok ans) /\ ans_authFailed ans = false /\ ans_res ans = Some res /\
    ok_status (res_status res) = true /\ access_granted (json_of res) = true.

(** A journey of a verified user. *)
Definition verified_journey (e : flow_event) : Prop :=
  exists d, d_isVerified d = true /\
    ((exists path body ans res, e = FPost path body (Ok ans) /\ ans_authFailed ans = false /\ ans_res ans = Some res /\
        ok_status (res_status res) = true /\ json_of res = Some d) \/
     (exists w, e = FGetUser w (Ok d)) \/ (exists w, e = FAcceptTerms w (Ok d))).

Definition grants (e : flow_event) : Prop := access_given e \/ verified_journey e.

(** The user shown as verified, borrowing unlocked. *)
Definition unlocks (e : flow_event) : bool := match e with FIsVerified b | FUnlockedBorrow b => b | _ => false end.

Definition access_ok (t : list flow_event) : Prop := grounded grants (fun e => unlocks e = true) t.

Lemma access_ok_locked t es : forallb (fun e => negb (unlocks e)) es = true -> access_ok t -> access_ok (t ++ es).
Proof.
  intros H%forallb_all Ht. apply grounded_app; [done|]. right. eapply list.Forall_impl; [exact H|]. intros e He Hu. cbn in He. by rewrite Hu in He.
Qed.

Definition granted_in (t : list flow_event) : Prop := exists g, g ∈ t /\ grants g.

Lemma access_ok_granted t es : access_ok t -> granted_in t -> access_ok (t ++ es).
Proof. intros Ht Hg. by apply grounded_app; [|left]. Qed.

Lemma lasting_granted : lasting granted_in.
Proof. apply lasting_seen. Qed.

(** ** Statements that unlock nothing *)

Definition locked (es : list flow_event) : bool := forallb (fun e => negb (unlocks e)) es.

Lemma locked_app es es' : locked (es ++ es') = locked es && locked es'.
Proof. apply forallb_app. Qed.

Lemma locked_message raw title : locked (setVerifyAndToast raw title) = true.
Proof. done. Qed.

Lemma locked_sign_in p : locked (sign_in p) = true.
Proof. unfold sign_in. by destruct (p_isMiniApp p). Qed.

Lemma locked_update d : d_isVerified d = false -> locked (updateJourneyFromResponse d) = true.
Proof.
  intros Hd. unfold updateJourneyFromResponse, applyJourneyStats. rewrite Hd, !locked_app. cbn.
  by destruct (has_text (d_email d)), (d_phoneVerified d), (has_text (d_workType d)).
Qed.

Lemma locked_fetch_failed e : locked (fetch_failed e) = true.
Proof. by destruct e. Qed.

Lemma locked_ready p s : locked (ready_effect p s) = true.
Proof. unfold ready_effect. by repeat case_match. Qed.

Lemma locked_otp s t : locked (otp_effect s t) = true.
Proof. unfold otp_effect. by repeat case_match. Qed.

Abbreviation calm := (upholds access_ok).

Lemma calm_locked K es : lasting K -> locked es = true -> calm K (notes es).
Proof. intros HK H. apply upholds_notes; [done|]. intros t Ht _. by apply access_ok_locked. Qed.

Lemma calm_done {A} K es (a : A) : lasting K -> locked es = true -> calm K (done_with es a).
Proof. intros HK H. apply upholds_bind; [done|by apply calm_locked|]. intros _. apply upholds_return. Qed.

Lemma calm_change K f : lasting K -> (forall t, locked (f t) = true) -> calm K (change f).
Proof. intros HK H. apply upholds_change; [done|]. intros t Ht _. apply access_ok_locked; [apply H|done]. Qed.

(** A journey is applied when a verified one is an answer. *)
Lemma update_ok d t es : access_ok t -> (d_isVerified d = true -> granted_in t) -> locked es = true ->
  access_ok (t ++ updateJourneyFromResponse d ++ es).
Proof.
  intros Ht Hd Hes. destruct (d_isVerified d) eqn:E; [by apply access_ok_granted; [|apply Hd]|].
  apply access_ok_locked; [|done]. change (locked (updateJourneyFromResponse d ++ es) = true).
  by rewrite locked_app, locked_update.
Qed.

Definition grounds (data : option Data) (t : list flow_event) : Prop :=
  forall d, data = Some d -> d_isVerified d = true -> granted_in t.

Lemma lasting_grounds data : lasting (grounds data).
Proof. intros t t' Ht H d Hd Hv. eapply lasting_granted; [exact Ht|]. by eapply H. Qed.

Lemma update_if_ok data t es : access_ok t -> grounds data t -> locked es = true -> access_ok (t ++ update_if_journey data ++ es).
Proof.
  intros Ht Hd Hes. unfold update_if_journey. destruct data as [d|]; [destruct (has_text _)|]; [|by apply access_ok_locked..].
  apply update_ok; [done| |done]. by apply Hd.
Qed.

(** The answer of a request, and what it gives. *)
Definition answered (path : string) (body : list (string * string)) (ans : Posted) (t : list flow_event) : Prop :=
  exists g, g ∈ t /\ g = FPost path body (Ok ans).

Lemma answered_grounds path body ans res t :
  answered path body ans t -> ans_authFailed ans = false -> ans_res ans = Some res -> ok_status (res_status res) = true ->
  grounds (json_of res) t.
Proof.
  intros (g & Hin & ->) Ha Hr Hs d Hd Hv. eexists. split; [exact Hin|]. right. exists d. split; [done|]. left.
  by eexists _, _, ans, res.
Qed.

Lemma lasting_answered path body ans : lasting (answered path body ans).
Proof. apply (lasting_seen (fun g => g = _)). Qed.

Lemma upholds_read_text {B} K res (k : string -> proc (list flow_event) B) :
  lasting K -> (forall text, calm K (k text)) -> calm K (text ← read_text res; k text).
Proof. intros HK Hk. apply upholds_bind; [done|by apply upholds_look|done]. Qed.

Lemma gives_read_json {B} K (Q : list flow_event -> B -> Prop) res k :
  lasting K -> gives access_ok K Q (k (json_of res)) -> gives access_ok K Q (data ← read_json res; k data).
Proof.
  intros HK Hk. eapply gives_bind; [by apply gives_look|]. intros data t [Ht (t' & ->)]. by apply Hk.
Qed.

Lemma gives_post {B} K (Q : list flow_event -> B -> Prop) path body k : lasting K ->
  (forall ans, gives access_ok (fun t => K t /\ answered path body ans t) Q (k ans)) ->
  gives access_ok K Q (ans ← post path body; k ans).
Proof.
  intros HK Hk. eapply gives_bind; [|exact Hk]. apply gives_ask; [done|]. intros t r Ht _. by apply access_ok_locked.
Qed.

Lemma gives_post_within {B} K (Q : list flow_event -> B -> Prop) ms path body k : lasting K ->
  (forall ans, gives access_ok (fun t => K t /\ answered path body ans t) Q (k ans)) ->
  gives access_ok K Q (ans ← post_within ms path body; k ans).
Proof.
  intros HK Hk. eapply gives_bind; [|exact Hk]. apply gives_ask; [done|]. intros t r Ht _. by apply access_ok_locked.
Qed.

Lemma calm_update {A} K data es (a : A) : lasting K -> (forall t, K t -> grounds data t) -> locked es = true ->
  calm K (done_with (update_if_journey data ++ es) a).
Proof.
  intros HK Hg Hes. apply upholds_bind; [done| |intros _; apply upholds_return].
  apply upholds_notes; [done|]. intros t Ht Hk. by apply update_if_ok; [|apply Hg|].
Qed.

(** ** Every handler keeps it *)

Local Ltac locked := cbn [locked]; rewrite ?locked_app, ?locked_sign_in; cbn; done.
Local Ltac calm_leaf :=
  first [ apply upholds_return | apply calm_done; [done|locked] | apply calm_locked; [done|locked] ].

Lemma calm_catch {A} (p : proc (list flow_event) A) h es : locked es = true -> calm (fun _ => True) p ->
  (forall e, calm (fun _ => True) (h e)) -> calm (fun _ => True) (finally (proc_try h p) es).
Proof.
  intros Hes Hp Hh. apply upholds_finally; [done| |by apply upholds_try]. intros t Ht _. by apply access_ok_locked.
Qed.

Lemma calm_claim held es : locked es = true -> calm (fun _ => True) (claim held es).
Proof. intros H. apply upholds_claim; [done|]. intros t Ht _. by apply access_ok_locked. Qed.

Lemma calm_code_answer path body keep ans : locked keep = true -> calm (answered path body ans) (code_answer keep ans).
Proof.
  intros Hkeep. pose proof (lasting_answered path body ans) as HK. unfold code_answer.
  destruct (ans_authFailed ans) eqn:Ha; [by apply calm_done|].
  destruct (ans_res ans) as [res|] eqn:Hr; [|by apply calm_done].
  destruct (ok_status (res_status res)) eqn:Hs; cbn [negb].
  - apply gives_read_json; [done|]. apply calm_update; [done| |by rewrite !locked_app, Hkeep].
    intros t Ht. by eapply answered_grounds.
  - apply upholds_read_text; [done|]. intros text.
    destruct (isOtpAlreadySentProblem _ _); apply calm_done; [done|by rewrite !locked_app, Hkeep|done..].
Qed.

Lemma calm_sender path body keep es : locked es = true -> locked keep = true ->
  calm (fun _ => True) (_ ← notes es; ans ← post path body; code_answer keep ans).
Proof.
  intros Hes Hk. apply upholds_bind; [done|by apply calm_locked|]. intros _. apply gives_post; [done|]. intros ans.
  eapply upholds_weaken; [|by apply (calm_code_answer path body)]. by intros t [_ ?].
Qed.

Lemma calm_handleSendOtp p s : calm (fun _ => True) (handleSendOtp p s).
Proof.
  apply upholds_bind; [done|by apply calm_claim|]. intros [|]; cbn [negb]; [|apply upholds_return].
  apply calm_catch; [done| |intros e; calm_leaf].
  destruct (wallet_of p) as [addr|]; [|calm_leaf]. destruct (journey s) as [j|]; [|calm_leaf].
  cbn zeta. case_bool_decide; [calm_leaf|]. by apply calm_sender.
Qed.

Lemma calm_handleWaitlistSendOtp p s : calm (fun _ => True) (handleWaitlistSendOtp p s).
Proof.
  apply upholds_bind; [done|by apply calm_claim|]. intros [|]; cbn [negb]; [|apply upholds_return].
  apply calm_catch; [done| |intros e; calm_leaf].
  destruct (journey s) as [j|]; [|calm_leaf]. destruct (wallet_of p) as [addr|]; [|calm_leaf].
  cbn zeta. case_bool_decide; [calm_leaf|]. by apply calm_sender.
Qed.

Lemma calm_handleAcceptTerms p s : calm (fun _ => True) (handleAcceptTerms p s).
Proof.
  unfold handleAcceptTerms. destruct (wallet_of p) as [w|]; [|calm_leaf]. destruct (termsAccepted s); [calm_leaf|].
  apply calm_catch; [done| |intros e; by destruct e; apply calm_locked].
  apply upholds_bind; [done|by apply calm_locked|]. intros _. eapply gives_bind.
  - apply gives_ask; [done|]. intros t r Ht _. by apply access_ok_locked.
  - intros d. apply upholds_notes; [apply lasting_and; [done|by apply (lasting_seen (fun g => g = _))]|].
    intros t Ht (_ & g & Hin & ->). rewrite app_assoc, <- (app_nil_r (update_if_journey _)).
    apply update_if_ok; [by apply access_ok_locked| |done]. intros d' [= <-] Hv.
    exists (FAcceptTerms w (Ok d)). split; [apply elem_of_app; by left|]. right. exists d. eauto.
Qed.

(** *** Verification *)

Lemma gives_done {A} K (Q : list flow_event -> A -> Prop) es a : lasting K -> locked es = true ->
  (forall t, K t -> Q (t ++ es) a) -> gives access_ok K Q (done_with es a).
Proof.
  intros HK Hes HQ. eapply (gives_bind _ _ (fun t _ => Q t a)); [|intros _; by apply gives_return].
  apply gives_change; [done|]. intros t Ht Hk. split; [by apply access_ok_locked|by apply HQ].
Qed.

Lemma gives_text {B} K (Q : list flow_event -> B -> Prop) res k :
  lasting K -> (forall text, gives access_ok K Q (k text)) -> gives access_ok K Q (text ← read_text res; k text).
Proof.
  intros HK Hk. eapply gives_bind; [by apply gives_look|]. intros text. eapply gives_mono; [| |apply Hk]; [|done].
  by intros t [? _].
Qed.

(** The code taken: the journey that comes with it is an answer. *)
Lemma gives_verify_otp on_lost addr code work platform : locked on_lost = true ->
  gives access_ok (fun _ => True) (fun t d => forall data, d = Some data -> grounds data t) (verify_otp on_lost addr code work platform).
Proof.
  intros Hl. unfold verify_otp. apply gives_post; [done|]. intros ans. set (body := [_; _; _; _]).
  assert (HK : lasting (fun t : list flow_event => True /\ answered "/user/verify-otp" body ans t))
    by (apply lasting_and; [done|apply lasting_answered]).
  destruct (ans_authFailed ans) eqn:Ha; [apply gives_done; [done|by rewrite locked_app, Hl|done]|].
  destruct (ans_res ans) as [res|] eqn:Hr; [|by apply gives_done].
  destruct (ok_status (res_status res)) eqn:Hs; cbn [negb].
  - apply gives_read_json; [done|]. apply gives_return. intros t [_ Ht] data [= <-]. by eapply answered_grounds.
  - apply gives_text; [done|]. intros text. by apply gives_done.
Qed.

Lemma calm_otp_step p s addr j : calm (fun _ => True) (otp_step p s addr j).
Proof.
  unfold otp_step. destruct (d_requiresWaitlistOtp j); cbn [negb]; [|apply upholds_return].
  destruct (otpSent s); cbn [negb]; [|calm_leaf]. case_bool_decide; [calm_leaf|].
  eapply gives_bind; [by apply gives_verify_otp, locked_sign_in|]. intros [data|]; [|apply upholds_return].
  apply (upholds_weaken _ (grounds data)); [by intros t Ht; apply Ht|]. pose proof (lasting_grounds data) as HK.
  apply upholds_bind; [done| |].
  - apply upholds_notes; [done|]. intros t Ht Hg. destruct (has_journey data); [by apply update_if_ok|by apply access_ok_locked].
  - intros _. apply upholds_bind; [done| |intros _; by apply calm_done].
    apply upholds_note; [done|]. intros t Ht _. by apply access_ok_locked.
Qed.

Lemma calm_handleWaitlistConfirm p s : calm (fun _ => True) (handleWaitlistConfirm p s).
Proof.
  unfold handleWaitlistConfirm. destruct (journey s); [|calm_leaf]. destruct (wallet_of p) as [addr|]; [|calm_leaf].
  destruct (otpSent s); cbn [negb]; [|calm_leaf]. case_bool_decide; [calm_leaf|]. destruct (has_text _); cbn [negb]; [|calm_leaf].
  apply calm_catch; [done| |intros e; calm_leaf]. apply upholds_bind; [done|by apply calm_locked|]. intros _.
  eapply gives_bind; [by apply gives_verify_otp|]. intros [data|]; [|apply upholds_return].
  apply (upholds_weaken _ (grounds data)); [by intros t Ht; apply Ht|]. apply upholds_notes; [apply lasting_grounds|].
  intros t Ht Hg. by apply update_if_ok.
Qed.

(** Access is only said to be given on such an answer. *)
Lemma gives_access_answer K body ans res : lasting K ->
  (forall t, K t -> answered "/loan/verify" body ans t) -> ans_authFailed ans = false -> ans_res ans = Some res ->
  gives access_ok K (fun t b => b = true -> granted_in t) (access_answer res).
Proof.
  intros HK Hans Ha Hr. unfold access_answer. destruct (ok_status (res_status res)) eqn:Hs; cbn [negb].
  - apply gives_read_json; [done|]. destruct (access_granted (json_of res)) eqn:Hg; [|by apply gives_done].
    apply gives_return. intros t Ht _. destruct (Hans t Ht) as (g & Hin & ->). eexists. split; [exact Hin|]. left.
    by eexists _, ans, res.
  - apply gives_text; [done|]. intros text. destruct (isSelfRequiredProblem _ _); by apply gives_done.
Qed.

Lemma lasting_post path body ans : lasting (fun t : list flow_event => True /\ answered path body ans t).
Proof. apply lasting_and; [done|apply lasting_answered]. Qed.

Lemma gives_verify_attempts p addr n k : Z.of_nat n = 4 - k -> (0 < n)%nat ->
  gives access_ok (fun _ => True) (fun t b => b = true -> granted_in t) (verify_attempts p addr n k).
Proof.
  revert k. induction n as [|n IH]; intros k Hk Hn; [lia|]. cbn [verify_attempts]. apply gives_post_within; [done|]. intros ans.
  pose proof (lasting_post "/loan/verify" (verify_body p addr) ans) as HK.
  destruct (ans_authFailed ans) eqn:Ha; [apply gives_done; [done|by rewrite locked_app, locked_sign_in|done]|].
  destruct (ans_res ans) as [res|] eqn:Hr; [by eapply gives_access_answer; [|intros t [_ ?]| |]|].
  destruct (k <? 3) eqn:E; bool_to_prop; [|by apply gives_done].
  eapply (gives_bind _ _ (fun _ _ => True)); [|intros _; apply IH; lia].
  eapply (upholds_weaken _ (fun _ => True)); [done|]. apply upholds_note; [done|]. intros t Ht _. by apply access_ok_locked.
Qed.

Lemma calm_refresh K : lasting K -> calm K refresh_contracts.
Proof.
  intros HK. apply upholds_bind; [done| |intros _; apply upholds_return]. apply upholds_settle.
  eapply gives_mono; [| |apply gives_ask; [exact HK|]]; [done|done|]. intros t r Ht _. by apply access_ok_locked.
Qed.

(** What unlocks, after access was given. *)
Lemma calm_unlocked b es : calm (fun t => b = true -> granted_in t)
  (if negb b then Return tt else _ ← notes es; refresh_contracts).
Proof.
  destruct b; cbn [negb]; [|apply upholds_return]. apply (upholds_weaken _ granted_in); [auto|]. pose proof lasting_granted as HK.
  apply upholds_bind; [done| |intros _; by apply calm_refresh]. apply upholds_notes; [done|]. intros t. apply access_ok_granted.
Qed.

Lemma calm_work_step s addr : calm (fun _ => True) (work_step s addr).
Proof.
  unfold work_step. destruct (has_text _); [|apply upholds_return]. apply upholds_bind; [done| |intros _; apply upholds_return].
  apply upholds_settle. eapply gives_mono; [| |apply gives_ask; [apply lasting_true|]]; [done|done|].
  intros t r Ht _. by apply access_ok_locked.
Qed.

Lemma calm_access_steps p s addr j : calm (fun _ => True) (access_steps p s addr j).
Proof.
  apply upholds_bind; [done|apply calm_otp_step|]. intros [|]; cbn [negb]; [|apply upholds_return].
  destruct (_ && _); [by apply calm_locked|]. apply upholds_bind; [done|apply calm_work_step|]. intros _.
  eapply gives_bind; [by apply gives_verify_attempts; [|lia]|]. intros b. apply calm_unlocked.
Qed.

Lemma calm_handleEarlyAccessStart p s : calm (fun _ => True) (handleEarlyAccessStart p s).
Proof.
  apply upholds_bind; [done|by apply calm_claim|]. intros [|]; cbn [negb]; [|apply upholds_return].
  apply calm_catch; [done| |intros e; calm_leaf]. destruct (wallet_of p) as [addr|]; [|calm_leaf].
  destruct (journey s) as [j|]; [|calm_leaf]. apply upholds_bind; [done| |intros _; apply calm_access_steps].
  apply calm_locked; [done|]. by destruct (d_requiresWaitlistOtp j).
Qed.

Lemma calm_handleEarlyAccessFromWaitlist p : calm (fun _ => True) (handleEarlyAccessFromWaitlist p).
Proof.
  unfold handleEarlyAccessFromWaitlist. destruct (wallet_of p) as [addr|]; [|apply upholds_return].
  apply upholds_finally; [done|intros t Ht _; by apply access_ok_locked|]. apply upholds_bind; [done|by apply calm_locked|]. intros _.
  apply gives_post_within; [done|]. intros ans. pose proof (lasting_post "/loan/verify" (verify_body p addr) ans) as HK.
  destruct (ans_authFailed ans) eqn:Ha; [by apply calm_locked|]. destruct (ans_res ans) as [res|] eqn:Hr; [|by apply calm_locked].
  eapply gives_bind; [by eapply gives_access_answer; [|intros t [_ ?]| |]|]. intros b. apply calm_unlocked.
Qed.

(** *** Effects *)

Lemma calm_get_user f w (k : Data -> proc (list flow_event) unit) :
  (forall data, calm (grounds (Some data)) (k data)) -> calm (fun _ => True) (data ← ask f (FGetUser w); k data).
Proof.
  intros Hk. eapply gives_bind; [apply gives_ask; [done|]; intros t r Ht _; by apply access_ok_locked|].
  intros data. eapply upholds_weaken, Hk. intros t (_ & g & Hin & ->) d [= <-] Hv. eexists. split; [exact Hin|]. right. exists data. eauto.
Qed.

Lemma calm_fetchJourney run addr : calm (fun _ => True) (fetchJourney run addr).
Proof.
  apply upholds_bind; [done|by apply calm_locked|]. intros _. apply upholds_finally_do; [done| |].
  - intros t Ht _. by destruct (cancelled run t); apply access_ok_locked.
  - apply upholds_try; [done| |].
    + apply calm_get_user. intros data. apply upholds_change; [apply lasting_grounds|]. intros t Ht Hg.
      destruct (cancelled run t); [by apply access_ok_locked|]. rewrite <- (app_nil_r (updateJourneyFromResponse _)).
      apply update_ok; [done|by apply Hg|done].
    + intros e. apply calm_change; [done|]. intros t. by destruct (cancelled run t); [|apply locked_fetch_failed].
Qed.

Lemma calm_refreshJourney p : calm (fun _ => True) (refreshJourney p).
Proof.
  unfold refreshJourney. cbn zeta. destruct (match normalizeWalletAddress (p_connectedAddress p) _ with Some w => _ | None => _ end);
    [|apply upholds_return]. apply upholds_try; [done| |intros e; apply upholds_return].
  apply calm_get_user. intros data. apply upholds_notes; [apply lasting_grounds|]. intros t Ht Hg.
  rewrite <- (app_nil_r (updateJourneyFromResponse _)). apply update_ok; [done|by apply Hg|done].
Qed.

Lemma calm_act a : calm (fun _ => True) (act a).
Proof.
  destruct a as [p|run p|run|p s|s|p|p s|p s|p s|p s|p s|p s|e|c|w| |b]; cbn [act].
  - by apply calm_locked.
  - unfold fetch_effect. destruct (wallet_of p); [|by apply calm_locked].
    destruct (p_readyUser p); [apply calm_fetchJourney|apply upholds_return].
  - by apply calm_locked.
  - apply calm_locked; [done|apply locked_ready].
  - apply calm_change; [done|]. intros t. apply locked_otp.
  - apply calm_refreshJourney.
  - apply upholds_bind; [done|apply calm_handleSendOtp|]. intros _. apply upholds_return.
  - apply upholds_bind; [done|apply calm_handleWaitlistSendOtp|]. intros _. apply upholds_return.
  - apply calm_handleAcceptTerms.
  - apply calm_handleEarlyAccessStart.
  - apply calm_handleWaitlistConfirm.
  - unfold auto_effect. destruct (auto_start p s); cbn [negb]; [|apply upholds_return].
    apply upholds_bind; [done|by apply calm_claim|]. intros [|]; cbn [negb]; [|apply upholds_return]. apply calm_handleEarlyAccessFromWaitlist.
  - by apply calm_locked.
  - by apply calm_locked.
  - by apply calm_locked.
  - by apply calm_locked.
  - by apply calm_locked.
Qed.

(** What is set was set. *)
Lemma value_of_event (set : flow_event -> bool -> bool) t :
  value_of set false t = true -> exists e, e ∈ t /\ set e false = true.
Proof.
  induction t as [|e t IH] using rev_ind; [done|]. rewrite value_of_app. cbn. intros H.
  destruct (value_of set false t) eqn:E.
  - destruct (IH eq_refl) as (e' & ? & ?). exists e'. split; [apply elem_of_app; by left|done].
  - exists e. split; [apply elem_of_app; right; by apply list_elem_of_singleton|done].
Qed.

Lemma unlocked_granted t : access_ok t -> unlockedBorrow t || isVerified t = true -> granted_in t.
Proof.
  intros Ht Hu. assert (exists e, e ∈ t /\ unlocks e = true) as (e & He & Hue).
  { apply orb_prop in Hu as [H|H]; destruct (value_of_event _ _ H) as (e & ? & ?); exists e; (split; [done|]); by destruct e. }
  apply list_elem_of_split in He as (t1 & t2 & ->). destruct (Ht t1 e t2 eq_refl Hue) as (g & Hg & ?).
  exists g. split; [apply elem_of_app; by left|done].
Qed.

(** C27. However the handlers, the effects and the user interleave, from whatever renders
    the handlers were made in, and whatever the backend answers: the user is shown as
    verified, and borrowing is unlocked, only after the backend said that the user is
    verified or gave access. *)
Theorem unlocked_by_backend (actions : list flow_action) (c : pool (list flow_event) unit)
    (Hrun : steps pool_step (map act actions, []) c) :
  access_ok (snd c) /\ (unlockedBorrow (snd c) || isVerified (snd c) = true -> granted_in (snd c)).
Proof.
  assert (Hok : access_ok (snd c)).
  { eapply (upholds_pool access_ok _ [] c); [exact Hrun|apply Forall_map, Forall_true, calm_act|apply grounded_nil]. }
  split; [done|]. by apply unlocked_granted.
Qed.

(** ** Journeys that arrive late *)

(** After its cleanup a run of the effect sets nothing, whatever the answer. *)
Lemma late_answer_dropped run es t : cancelled run t = true -> snd (Async.run (unless_cancelled run es) t) = t.
Proof. intros H. unfold unless_cancelled, change. rewrite run_await. cbn. by rewrite H, app_nil_r. Qed.

(** ** The order of the requests *)

Definition asks_access (e : flow_event) : bool := match e with FPost path _ _ => bool_decide (path = "/loan/verify"%string) | _ => false end.

(** The code of the e-mail was taken. *)
Definition otp_taken (e : flow_event) : Prop :=
  exists body ans res, e = FPost "/user/verify-otp" body (Ok ans) /\ ans_authFailed ans = false /\ ans_res ans = Some res /\
    ok_status (res_status res) = true.

Definition attempts_of (cs : list flow_event) : nat := length (List.filter asks_access cs).

Lemma attempts_app cs cs' : attempts_of (cs ++ cs') = (attempts_of cs + attempts_of cs')%nat.
Proof. unfold attempts_of. by rewrite List.filter_app, length_app. Qed.

Definition silent (cs : list flow_event) : bool := forallb (fun e => negb (asks_access e)) cs.

Lemma silent_attempts cs : silent cs = true -> attempts_of cs = O.
Proof. induction cs as [|e cs IH]; cbn; [done|]. unfold attempts_of. cbn. by destruct (asks_access e); cbn; [|apply IH]. Qed.

Lemma silent_app cs cs' : silent (cs ++ cs') = silent cs && silent cs'.
Proof. apply forallb_app. Qed.

(** *** The steps *)

Definition quiet {A} (p : proc (list flow_event) A) : Prop := emits (fun cs _ => silent cs = true) p.

Lemma silent_bind {A B} (p : proc (list flow_event) A) (k : A -> proc (list flow_event) B) :
  quiet p -> (forall a, quiet (k a)) -> quiet (p ≫= k).
Proof.
  intros Hp Hk. apply emits_bind. eapply emits_mono; [|exact Hp]. intros cs [a|e] Hcs; [|done].
  eapply emits_mono; [|apply Hk]. intros cs' r Hcs'. by rewrite silent_app, Hcs, Hcs'.
Qed.

Lemma silent_settle {A} (p : proc (list flow_event) A) : quiet p -> quiet (settle p).
Proof. intros H. by apply emits_settle. Qed.

Lemma silent_notes es : silent es = true -> quiet (notes es).
Proof. intros H. by apply emits_notes. Qed.

Lemma silent_return {A} (a : A) : quiet (Return a).
Proof. by apply emits_return. Qed.

Lemma silent_done {A} es (a : A) : silent es = true -> quiet (done_with es a).
Proof. intros H. apply silent_bind; [by apply silent_notes|]. intros _. apply silent_return. Qed.

Lemma silent_look {A} (f : list flow_event -> A) : quiet (look f).
Proof. by apply emits_look. Qed.

Lemma silent_sign_in p : silent (sign_in p) = true.
Proof. unfold sign_in. by destruct (p_isMiniApp p). Qed.

Lemma silent_update d : silent (updateJourneyFromResponse d) = true.
Proof.
  unfold updateJourneyFromResponse, applyJourneyStats. rewrite !silent_app. cbn.
  by destruct (has_text (d_email d)), (d_phoneVerified d), (has_text (d_workType d)), (d_isVerified d).
Qed.

Lemma silent_if_journey data : silent (update_if_journey data) = true.
Proof. destruct data as [d|]; cbn; [destruct (has_text _); [apply silent_update|done]|done]. Qed.

(** A code is only said to be taken when it was. *)
Lemma verify_otp_emits on_lost addr code work platform : silent on_lost = true ->
  emits (fun cs r => silent cs = true /\ forall d, r = Ok (Some d) -> exists g, g ∈ cs /\ otp_taken g)
        (verify_otp on_lost addr code work platform).
Proof.
  intros Hl. unfold verify_otp. apply emits_bind, emits_ask. intros [ans|e]; [|by split].
  set (path := "/user/verify-otp"%string). set (body := [_; _; _; _]). cbn beta iota.
  assert (Hstop : forall p, quiet p -> (forall t d, fst (run p t) <> Ok (Some d)) ->
    emits (fun cs r => silent ([FPost path body (Ok ans)] ++ cs) = true /\
             forall d : option Data, r = Ok (Some d) -> exists g, g ∈ [FPost path body (Ok ans)] ++ cs /\ otp_taken g) p).
  { intros p Hp Hno t. destruct (Hp t) as (cs & Hs & Hcs). exists cs. split; [done|]. split; [done|].
    intros d Hd. by destruct (Hno t d). }
  destruct (ans_authFailed ans) eqn:Ha; [apply Hstop; [apply silent_done; by rewrite silent_app, Hl|]; done|].
  destruct (ans_res ans) as [res|] eqn:Hr; [|by apply Hstop; [apply silent_done|]].
  destruct (ok_status (res_status res)) eqn:Hs; cbn [negb].
  - apply emits_bind, emits_look. intros data. apply emits_return. split; [done|]. intros d _. eexists. split; [by left|].
    by eexists _, ans, res.
  - apply Hstop; [apply silent_bind; [apply silent_look|intros text; by apply silent_done]|done].
Qed.

(** The code step asks for no access; it goes on when no code is asked for, or the
    code was taken. *)
Lemma otp_step_emits p s addr j :
  emits (fun cs r => silent cs = true /\ (r = Ok true -> d_requiresWaitlistOtp j = true -> exists g, g ∈ cs /\ otp_taken g))
        (otp_step p s addr j).
Proof.
  assert (Hstop : forall es, silent es = true -> emits (fun cs r => silent cs = true /\ (r = Ok true -> d_requiresWaitlistOtp j = true ->
                   exists g, g ∈ cs /\ otp_taken g)) (done_with es false)).
  { intros es Hes. apply emits_bind, emits_notes, emits_return. rewrite app_nil_r. by split. }
  unfold otp_step. destruct (d_requiresWaitlistOtp j) eqn:Hj; cbn [negb]; [|by apply emits_return].
  destruct (otpSent s); cbn [negb]; [|by apply Hstop]. case_bool_decide; [by apply Hstop|].
  apply emits_bind. eapply emits_mono; [|apply verify_otp_emits, silent_sign_in]. intros cs [[data|]|e] [Hcs Hd].
  - destruct (Hd data eq_refl) as (g & Hg & Hotp).
    assert (Hq : quiet (_ ← notes ((if has_journey data then update_if_journey data else [FOtpSettled]) ++ [FOtp ""; FOtpSent false]);
                        _ ← note (FSleep 1500); done_with [FVerifyingFromOtp false] true)).
    { apply silent_bind; [apply silent_notes|intros _; apply silent_bind; [by apply emits_note|intros _; by apply silent_done]].
      rewrite silent_app. destruct (has_journey data); [by rewrite silent_if_journey|done]. }
    eapply emits_mono; [|exact Hq]. intros cs' r Hcs'. split; [by rewrite silent_app, Hcs, Hcs'|]. intros _ _.
    exists g. split; [apply elem_of_app; by left|done].
  - apply emits_return. rewrite app_nil_r. by split.
  - by split.
Qed.

Lemma silent_work_step s addr : quiet (work_step s addr).
Proof.
  unfold work_step. destruct (has_text _); [|apply silent_return]. apply silent_bind; [|intros _; apply silent_return].
  apply silent_settle. by apply emits_ask.
Qed.

Lemma silent_refresh : quiet refresh_contracts.
Proof. apply silent_bind; [|intros _; apply silent_return]. apply silent_settle. by apply emits_ask. Qed.

Lemma silent_access_answer res : quiet (access_answer res).
Proof.
  unfold access_answer. destruct (ok_status _); cbn [negb].
  - apply silent_bind; [apply silent_look|]. intros data. destruct (access_granted data); [apply silent_return|by apply silent_done].
  - apply silent_bind; [apply silent_look|]. intros text. destruct (isSelfRequiredProblem _ _); by apply silent_done.
Qed.

Lemma attempts_one e : (attempts_of [e] <= 1)%nat.
Proof. unfold attempts_of. cbn. destruct (asks_access e); cbn; lia. Qed.

(** At most as many requests as passes. *)
Lemma verify_attempts_emits p addr n k : emits (fun cs _ => (attempts_of cs <= n)%nat) (verify_attempts p addr n k).
Proof.
  revert k. induction n as [|n IH]; intros k; cbn [verify_attempts]; [by apply emits_return|].
  apply emits_bind, emits_ask. intros [ans|e]; [|etrans; [apply attempts_one|lia]].
  assert (Hq : forall q : proc (list flow_event) bool, quiet q -> emits (fun cs _ =>
    (attempts_of ([FPost "/loan/verify" (verify_body p addr) (Ok ans)] ++ cs) <= S n)%nat) q).
  { intros q H. eapply emits_mono; [|exact H]. intros cs r Hcs. rewrite attempts_app, (silent_attempts _ Hcs).
    pose proof (attempts_one (FPost "/loan/verify" (verify_body p addr) (Ok ans))). lia. }
  destruct (ans_authFailed ans); [apply Hq, silent_done; by rewrite silent_app, silent_sign_in|].
  destruct (ans_res ans) as [res|]; [apply Hq, silent_access_answer|]. destruct (k <? 3); [|by apply Hq, silent_done].
  apply emits_bind, emits_note. eapply emits_mono; [|apply IH]. intros cs r Hcs. cbn beta in Hcs. rewrite !attempts_app.
  pose proof (attempts_one (FPost "/loan/verify" (verify_body p addr) (Ok ans))). change (attempts_of [FSleep (350 * k)]) with O. lia.
Qed.

(** The user has no phone yet, on a platform that asks for one. *)
Definition no_phone_yet (p : Props) (s : list flow_event) : bool := negb (phoneVerified s) && phone_platform (p_mode p).

(** Access is asked for at most three times, after the code when one is asked for, and
    not before the phone. *)
Definition ordered (p : Props) (s : list flow_event) (j : Data) (cs : list flow_event) : Prop :=
  (attempts_of cs <= 3)%nat /\ (no_phone_yet p s = true -> attempts_of cs = O) /\
  (d_requiresWaitlistOtp j = true -> grounded otp_taken (fun e => asks_access e = true) cs).

Lemma silent_none l : silent l = true -> Forall (fun e => ~ asks_access e = true) l.
Proof. intros H%forallb_all. eapply list.Forall_impl; [exact H|]. intros e He Ha. cbn in He. by rewrite Ha in He. Qed.

Lemma grounded_silent cs cs' : silent cs = true -> (exists g, g ∈ cs /\ otp_taken g) \/ silent cs' = true ->
  grounded otp_taken (fun e => asks_access e = true) (cs ++ cs').
Proof.
  intros H H'. apply grounded_app.
  - rewrite <- (app_nil_l cs). apply grounded_app; [apply grounded_nil|right; by apply silent_none].
  - destruct H' as [?|?]; [by left|right; by apply silent_none].
Qed.

Lemma ordered_silent p s j cs : silent cs = true -> ordered p s j cs.
Proof.
  intros H. unfold ordered. rewrite (silent_attempts _ H). split_and!; [lia|done|]. intros _.
  rewrite <- (app_nil_r cs). by apply grounded_silent; [|right].
Qed.

(** Statements before and after make no difference. *)
Lemma ordered_around p s j es cs es' : silent es = true -> silent es' = true -> ordered p s j cs -> ordered p s j (es ++ cs ++ es').
Proof.
  intros He He' (H1 & H2 & H3). unfold ordered. rewrite !attempts_app, (silent_attempts _ He), (silent_attempts _ He').
  split_and!; [lia|intros Hp; by rewrite H2|]. intros Hj. apply grounded_before; [by apply silent_none|].
  apply grounded_app; [by apply H3|right; by apply silent_none].
Qed.

Lemma access_steps_emits p s addr j : emits (fun cs _ => ordered p s j cs) (access_steps p s addr j).
Proof.
  unfold access_steps. apply emits_bind. eapply emits_mono; [|apply otp_step_emits].
  intros cs r [Hcs Hotp]. destruct r as [[|]|e]; cbn [negb]; [|apply emits_return; rewrite app_nil_r; by apply ordered_silent|by apply ordered_silent].
  fold (no_phone_yet p s). destruct (no_phone_yet p s) eqn:Hp.
  { apply emits_notes, ordered_silent. by rewrite silent_app, Hcs. }
  assert (Hrest : emits (fun cs' _ => (attempts_of cs' <= 3)%nat)
    (_ ← work_step s addr; granted ← verify_attempts p addr 3 1;
     if negb granted then Return tt else _ ← notes [FIsVerified true; FUnlockedBorrow true; FVerifyError None; FSelfRequired false]; refresh_contracts)).
  { apply emits_bind. eapply emits_mono; [|apply silent_work_step]. intros c1 [[]|e] H1; [|rewrite (silent_attempts _ H1); lia].
    apply emits_bind. eapply emits_mono; [|apply verify_attempts_emits]. intros c2 [b|e] H2;
      [|rewrite attempts_app, (silent_attempts _ H1); lia].
    assert (quiet (if negb b then Return tt else _ ← notes [FIsVerified true; FUnlockedBorrow true; FVerifyError None; FSelfRequired false]; refresh_contracts)) as Hq.
    { destruct b; cbn [negb]; [|apply silent_return]. apply silent_bind; [by apply silent_notes|]. intros _. apply silent_refresh. }
    eapply emits_mono; [|exact Hq]. intros c3 r H3. rewrite !attempts_app, (silent_attempts _ H1), (silent_attempts _ H3). lia. }
  eapply emits_mono; [|exact Hrest]. intros cs' r Hcs'. unfold ordered. rewrite attempts_app, (silent_attempts _ Hcs).
  split_and!; [done|congruence|]. intros Hj. apply grounded_silent; [done|]. left. by apply Hotp.
Qed.

(** C28. Starting the verification: whatever happens, the flags are free again; access is
    asked for at most three times, only after the backend took the code when the
    journey asks for one, and not while the phone the platform needs is missing. *)
Theorem early_access_order (p : Props) (s t : list flow_event) (j : Data) (Hj : journey s = Some j) (Hfree : verifyInFlightRef t = false) :
  exists cs, snd (run (handleEarlyAccessStart p s) t) = t ++ cs /\ fst (run (handleEarlyAccessStart p s) t) = Ok tt /\
    ordered p s j cs /\ verifying (t ++ cs) = false /\ verifyingFromOtp (t ++ cs) = false /\ verifyInFlightRef (t ++ cs) = false.
Proof.
  unfold handleEarlyAccessStart, claim. rewrite run_await_bind, Hfree. cbn [negb]. rewrite finally_run. cbn [fst snd].
  set (body := proc_try _ _).
  assert (Hbody : emits (fun cs r => ordered p s j cs /\ r = Ok tt) body).
  { apply emits_try. rewrite Hj. set (steps := match wallet_of p with Some _ => _ | None => _ end).
    assert (emits (fun cs _ => ordered p s j cs) steps) as Hsteps.
    { unfold steps. destruct (wallet_of p) as [addr|]; [|by apply emits_notes, ordered_silent; rewrite silent_app, silent_sign_in].
      apply emits_bind, emits_notes. eapply emits_mono; [|apply access_steps_emits]. intros cs r Hcs. cbn beta in Hcs.
      rewrite <- (app_nil_r cs). apply ordered_around; [by destruct (d_requiresWaitlistOtp j)|done..]. }
    eapply emits_mono; [|exact Hsteps]. intros cs [[]|e] Hcs; [done|]. apply emits_notes. split; [|done].
    by apply (ordered_around _ _ _ []). }
  destruct (Hbody (t ++ [FVerifyInFlight true])) as (cs & -> & Hcs & ->).
  exists ([FVerifyInFlight true] ++ cs ++ [FVerifying false; FVerifyingFromOtp false; FVerifyInFlight false]).
  split; [by rewrite <- !app_assoc|]. split; [done|]. split; [by apply ordered_around|].
  rewrite !app_assoc. unfold verifying, verifyingFromOtp, verifyInFlightRef. by rewrite !value_of_app.
Qed.

(** The other handlers free what they hold, on every path. *)
Lemma handleSendOtp_releases p s t : sendOtpInFlightRef t = false ->
  let t' := snd (run (handleSendOtp p s) t) in sendingOtp t' = false /\ sendOtpInFlightRef t' = false.
Proof.
  intros H. cbn zeta. unfold handleSendOtp, claim. rewrite run_await_bind, H. cbn [negb]. rewrite finally_run.
  unfold sendingOtp, sendOtpInFlightRef. cbn [snd]. by rewrite !value_of_app.
Qed.

Lemma handleWaitlistSendOtp_releases p s t : waitlistOtpInFlightRef t = false ->
  let t' := snd (run (handleWaitlistSendOtp p s) t) in sendingOtp t' = false /\ waitlistOtpInFlightRef t' = false.
Proof.
  intros H. cbn zeta. unfold handleWaitlistSendOtp, claim. rewrite run_await_bind, H. cbn [negb]. rewrite finally_run.
  unfold sendingOtp, waitlistOtpInFlightRef. cbn [snd]. by rewrite !value_of_app.
Qed.

Lemma handleEarlyAccessFromWaitlist_releases p t : wallet_of p <> None ->
  verifying (snd (run (handleEarlyAccessFromWaitlist p) t)) = false.
Proof.
  intros H. unfold handleEarlyAccessFromWaitlist. destruct (wallet_of p); [|done]. rewrite finally_run.
  unfold verifying. cbn [snd]. by rewrite !value_of_app.
Qed.
End FlowProps.

(** ** Concrete runs *)

Definition sample_journey (w : string) : Data :=
  {| d_walletAddress := Some w; d_email := Some "ana@example.com"%string; d_workType := None; d_isVerified := false;
     d_termsAccepted := true; d_phoneVerified := true; d_pendingPhoneOtp := false; d_requiresWaitlistOtp := false;
     d_hasPendingWaitlist := false; d_isEarlyUser := true; d_otpExpiresAt := None; d_stats := []; d_verified := false; d_ok := false;
     d_user := false |}.

Definition sample_access : Data :=
  {| d_walletAddress := None; d_email := None; d_workType := None; d_isVerified := false; d_termsAccepted := false;
     d_phoneVerified := false; d_pendingPhoneOtp := false; d_requiresWaitlistOtp := false; d_hasPendingWaitlist := false;
     d_isEarlyUser := false; d_otpExpiresAt := None; d_stats := []; d_verified := true; d_ok := false; d_user := false |}.

(** A backend that verifies every wallet; [late] tells whether it takes too long. *)
Definition friendly (late : bool) : FlowOutside := {|
  flow_post _ path _ :=
    Ok {| ans_res := Some {| res_status := 201; res_text := Ok ""%string;
                             res_json := Ok (if bool_decide (path = "/loan/verify"%string) then Some sample_access else None) |};
          ans_authFailed := false |};
  flow_getUser _ w := Ok (sample_journey w);
  flow_acceptTerms _ w := Ok (sample_journey w);
  flow_refresh _ := Ok tt;
  is_late _ ms := late && (ms =? 45000);
  JSON_problem _ := None;
  JSON_message _ := None;
  is_future _ _ := false;
  flow_text key _ := key;
|}.

Definition ana : string := "0x00000000000000000000000000000000000000aa".
Definition eva : string := "0x00000000000000000000000000000000000000bb".

Definition page_of (w : string) : Props :=
  {| p_mode := webapp; p_isMiniApp := false; p_primaryWallet := Some w; p_connectedAddress := None; p_contractsReady := true;
     p_readyUser := true; p_waitlistChecking := false |}.

(** The first wallet connects and its journey is fetched. *)
Definition connected_run : list flow_event :=
  snd (run (fetch_effect (OUT := friendly false) 0 (page_of ana)) (snd (run (wallet_effect (page_of ana)) []))).

(** It starts the verification; another wallet connects before the answer. *)
Definition switched : list flow_action := [Connect (page_of ana); Fetch 0 (page_of ana); Start (page_of ana) connected_run; Connect (page_of eva)].

Definition switched_run : pool (list flow_event) unit :=
  run_schedule ([0; 1; 1; 1; 1; 2; 2; 3] ++ replicate 6 2)%nat (map (act (OUT := friendly false)) switched, []).

(** The requests that asked for access, by wallet. *)
Definition asked_for (t : list flow_event) : list (option string) :=
  omap (fun e => match e with
                 | FPost path body _ => if bool_decide (path = "/loan/verify"%string) then Some (snd <$> head body) else None
                 | _ => None
                 end) t.

(** The handler keeps the address it started with and never compares it with the
    wallet of the page: the wallet that is connected now is shown as verified, though
    access was only asked for the other. *)
Example switched_wallet_unlocked :
  fst switched_run = [Return tt; Return tt; Return tt; Return tt] /\
  wallet (snd switched_run) = Some eva /\ asked_for (snd switched_run) = [Some ana] /\
  unlockedBorrow (snd switched_run) = true.
Proof. vm_compute. done. Qed.

Lemma unlocked_by_backend_witness :
  unlockedBorrow (snd switched_run) || isVerified (snd switched_run) = true /\
  granted_in (snd switched_run).
Proof.
  split; [vm_compute; reflexivity|].
  apply (unlocked_by_backend (OUT := friendly false) switched switched_run (run_schedule_steps _ _)). vm_compute. reflexivity.
Defined.

Lemma early_access_order_witness :
  journey connected_run = Some (sample_journey ana) /\ verifyInFlightRef connected_run = false /\
  verifying (snd (run (handleEarlyAccessStart (OUT := friendly false) (page_of ana) connected_run) connected_run)) = false.
Proof.
  split; [vm_compute; reflexivity|]. split; [vm_compute; reflexivity|].
  destruct (early_access_order (OUT := friendly false) (page_of ana) connected_run connected_run (sample_journey ana) eq_refl eq_refl)
    as (cs & -> & _ & _ & Hv & _). exact Hv.
Defined.

(** The verification that starts by itself has no [catch]: when the answer is late the
    user is told nothing, and it never starts again. *)
Definition late_run : M (list flow_event) unit :=
  run (auto_effect (OUT := friendly true) (page_of ana) (connected_run ++ [FWorkType (Some "employee"%string)])).

Example late_auto_start :
  fst (late_run (connected_run ++ [FWorkType (Some "employee"%string)])) = Throw (PlainError "Timeout after 45000ms") /\
  (let t := snd (late_run (connected_run ++ [FWorkType (Some "employee"%string)])) in
   verifyError t = None /\ unlockedBorrow t = false /\ autoStartedRef t = true /\ auto_start (page_of ana) t = true).
Proof. vm_compute. done. Qed.
