(* ===== verification/LateTicker.v ===== *)
(** * The debt on the screen
      ([frontend/src/hooks/borrow/blockchain/useRepayPreflight.ts], and
      [preflightRepayment] of [lib/api.ts])

    Between two preflights of the backend the screen lets the late fees grow by
    itself, several times a second. *)

From stdpp Require Import base tactics list strings numbers.
From Stdlib Require Import Lia ZArith Ascii.
From S2P Require Import Prelude JsString JsNum AmountUnits Gateway Store Async Trace Judgements LoanVerification LoanRepayment UsdcFormat Routes BlockchainQueue HookTrace.

Import LoanController.
Local Open Scope Z_scope.

(** ** The answer of the backend *)

(** The amounts come as text. *)
Definition read_preflight (b : PreflightBody) : result PreflightPayload :=
  principal ← BigInt_of_string (pb_principal b);
  stored ← BigInt_of_string (pb_storedAmountDueBefore b);
  accrued ← BigInt_of_string (pb_accruedAmountDue b);
  rate ← BigInt_of_string (pb_ratePerSecWad b);
  Ok {| pf_wallet := pb_wallet b; pf_principal := principal; pf_storedAmountDueBefore := stored; pf_accruedAmountDue := accrued;
        pf_lastAccruedTs := pb_lastAccruedTs b; pf_ratePerSecWad := rate; pf_baseFeeBps := pb_baseFeeBps b; pf_dueAt := pb_dueAt b;
        pf_gracePeriod := pb_gracePeriod b; pf_lateStart := pb_lateStart b; pf_serverNowUnix := pb_serverNowUnix b;
        pf_chainNowUnix := pb_chainNowUnix b; pf_perDayDelta := pb_perDayDelta b; pf_daysLate := pb_daysLate b;
        pf_daysToDefault := pb_daysToDefault b; pf_isDefaulted := pb_isDefaulted b; pf_accrueLateCalled := pb_accrueLateCalled b;
        pf_accrueLateSkippedReason := pb_accrueLateSkippedReason b |}.

(** ** Amounts with one more decimal *)

Definition SUB_BASE_DECIMALS : nat := 7.
Definition SUB_BASE_PER_USDC : Z := 10 ^ Z.of_nat SUB_BASE_DECIMALS.

Definition formatUsdcSubBase (rawSubBase : Z) (decimals : nat) : string :=
  let intPart := Z.quot rawSubBase SUB_BASE_PER_USDC in
  let fracPart := Z.rem rawSubBase SUB_BASE_PER_USDC in
  let fracStr := pad_start SUB_BASE_DECIMALS "0"%char (chars (String_of_int fracPart)) in
  if (SUB_BASE_DECIMALS <=? decimals)%nat then of_chars (chars (String_of_int intPart) ++ "."%char :: fracStr)
  else of_chars (chars (String_of_int intPart) ++ "."%char :: take decimals fracStr).

(** ** The clock of the chain, and the fees *)

(** The chain's time, in milliseconds, by the clock of the page. *)
Definition chainEstimateMs (payload : PreflightPayload) (nowMs : Z) : Z :=
  pf_chainNowUnix payload * 1000 + (nowMs - pf_serverNowUnix payload * 1000).

Definition isMoraAccruingAt (payload : PreflightPayload) (nowMs : Z) : bool :=
  if pf_ratePerSecWad payload =? 0 then false
  else pf_lateStart payload * 1000 <=? chainEstimateMs payload nowMs.

Definition MS_TO_SUB_BASE_DIVISOR : Z := 10 ^ 20.

Definition computeDisplaySubBase (payload : PreflightPayload) (nowMs : Z) : Z :=
  let lastAccruedMs := pf_lastAccruedTs payload * 1000 in
  let accruedSubBase := pf_accruedAmountDue payload * 10 in
  if pf_ratePerSecWad payload =? 0 then accruedSubBase else
  let lateStartMs := pf_lateStart payload * 1000 in
  if chainEstimateMs payload nowMs <? lateStartMs then accruedSubBase else
  let accrualFromMs := Z.max lastAccruedMs lateStartMs in
  let elapsedMs := Z.max 0 (chainEstimateMs payload nowMs - accrualFromMs) in
  if elapsedMs =? 0 then accruedSubBase else
  accruedSubBase + Z.quot (pf_ratePerSecWad payload * elapsedMs * pf_storedAmountDueBefore payload) MS_TO_SUB_BASE_DIVISOR.

(** ** The hook *)

Inductive ticker_event :=
  | TPayload (p : option PreflightPayload)
  | TLoading (b : bool)
  | TError (e : option exn)
  | TTick (nowMs : Z)
  | TPreflight (wallet : string) (r : result PreflightPayload).

(** What the backend answers. *)
Class TickerOutside := { api_preflight : list ticker_event -> string -> result PreflightPayload }.

Section Ticker.
  Context `{OUT : TickerOutside}.

Definition payload : list ticker_event -> option PreflightPayload := value_of (fun e x => match e with TPayload v => v | _ => x end) None.
Definition loading : list ticker_event -> bool := value_of (fun e x => match e with TLoading v => v | _ => x end) false.
Definition error : list ticker_event -> option exn := value_of (fun e x => match e with TError v => v | _ => x end) None.

(** The time of the last tick; the first is that of the mounting. *)
Definition tickNow (mounted : Z) : list ticker_event -> Z := value_of (fun e x => match e with TTick v => v | _ => x end) mounted.

(** [e instanceof ApiError && e.status === 404]: no loan. *)
Definition no_loan (e : exn) : bool := match e with HttpException status _ => status =? 404 | _ => false end.

Definition fetchPreflight (walletAddress : option string) (enabled : bool) : proc (list ticker_event) unit :=
  match walletAddress with
  | Some w =>
      if negb enabled || bool_decide (w = ""%string) then Return tt else
      _ ← notes [TLoading true; TError None];
      finally (proc_try (fun e => notes (if no_loan e then [TPayload None] else [TError (Some e)]))
        (p ← ask (fun t => api_preflight t w) (TPreflight w); notes [TPayload (Some p)])) [TLoading false]
  | None => Return tt
  end.

(** The effect of a new wallet; the interval and the events of the window fetch too. *)
Definition wallet_effect (walletAddress : option string) (enabled : bool) : proc (list ticker_event) unit :=
  match walletAddress with
  | Some w => if negb enabled || bool_decide (w = ""%string) then notes [TPayload None] else fetchPreflight walletAddress enabled
  | None => notes [TPayload None]
  end.

(** When the next ticks come: none, once after a delay, or at an interval. *)
Inductive ticks := NoTicks | OneTick (delayMs : Z) | EveryMs (ms : Z).

Definition tick_plan (t : list ticker_event) : ticks :=
  match payload t with
  | None => NoTicks
  | Some p =>
      if pf_ratePerSecWad p =? 0 then NoTicks else
      let chainNowMs := pf_chainNowUnix p * 1000 in
      let lateStartMs := pf_lateStart p * 1000 in
      if chainNowMs <? lateStartMs then OneTick (lateStartMs - chainNowMs + 100) else EveryMs 200
  end.

(** *** What it returns *)

Definition displaySubBase (mounted : Z) (t : list ticker_event) : option Z :=
  (fun p => computeDisplaySubBase p (tickNow mounted t)) <$> payload t.

Definition isMoraAccruing (mounted : Z) (t : list ticker_event) : bool :=
  match payload t with Some p => isMoraAccruingAt p (tickNow mounted t) | None => false end.

Definition displayRaw (mounted : Z) (t : list ticker_event) : option Z := (fun d => Z.quot d 10) <$> displaySubBase mounted t.

Definition displayHuman (mounted : Z) (t : list ticker_event) : option string :=
  (fun d => formatUsdcSubBase d (if isMoraAccruing mounted t then SUB_BASE_DECIMALS else 2%nat)) <$> displaySubBase mounted t.

Definition perDayDelta (t : list ticker_event) : option num := pf_perDayDelta <$> payload t.
Definition daysToDefault (t : list ticker_event) : option num := pf_daysToDefault <$> payload t.

Definition magnitudePct (mounted : Z) (t : list ticker_event) : option num :=
  match payload t, displayRaw mounted t with
  | Some p, Some d =>
      if pf_principal p =? 0 then None
      else Some (Number_of_bigint (Z.quot (d * 10000) (pf_principal p)) / num_of_Z 100)%num
  | _, _ => None
  end.
End Ticker.

(** * Properties of the debt on the screen

    The ticker follows the contract: at the time of the preflight it shows what the
    contract would ask for, less under a second of fees ([ticker_shows_preview]), and
    from there it only grows. *)

(** ** The amount *)

(** The milliseconds that bear fees, by the clock of the page. *)
Definition late_ms (p : PreflightPayload) (nowMs : Z) : Z :=
  if isMoraAccruingAt p nowMs then Z.max 0 (chainEstimateMs p nowMs - Z.max (pf_lastAccruedTs p) (pf_lateStart p) * 1000) else 0.

Lemma late_ms_nonneg p nowMs : 0 <= late_ms p nowMs.
Proof. unfold late_ms. destruct (isMoraAccruingAt p nowMs); lia. Qed.

Lemma display_late p nowMs :
  computeDisplaySubBase p nowMs =
  pf_accruedAmountDue p * 10 + Z.quot (pf_ratePerSecWad p * late_ms p nowMs * pf_storedAmountDueBefore p) MS_TO_SUB_BASE_DIVISOR.
Proof.
  unfold computeDisplaySubBase, late_ms, isMoraAccruingAt. destruct (pf_ratePerSecWad p =? 0) eqn:Er; bool_to_prop.
  - rewrite Z.mul_0_r, Z.mul_0_l. change (Z.quot 0 MS_TO_SUB_BASE_DIVISOR) with 0. lia.
  - rewrite Z.mul_max_distr_nonneg_r by lia.
    destruct (Z.ltb_spec (chainEstimateMs p nowMs) (pf_lateStart p * 1000)), (Z.leb_spec (pf_lateStart p * 1000) (chainEstimateMs p nowMs)); try lia.
    + rewrite Z.mul_0_r, Z.mul_0_l. change (Z.quot 0 MS_TO_SUB_BASE_DIVISOR) with 0. lia.
    + destruct (_ =? 0) eqn:E; bool_to_prop; [|done]. rewrite E, Z.mul_0_r, Z.mul_0_l. change (Z.quot 0 MS_TO_SUB_BASE_DIVISOR) with 0. lia.
Qed.

(** A payload whose amounts are amounts. *)
Definition amounts_ok (p : PreflightPayload) : Prop :=
  0 <= pf_ratePerSecWad p /\ 0 <= pf_storedAmountDueBefore p /\ 0 <= pf_accruedAmountDue p.

Lemma late_ms_grows p a b : a <= b -> late_ms p a <= late_ms p b.
Proof.
  intros H. unfold late_ms, isMoraAccruingAt, chainEstimateMs. destruct (pf_ratePerSecWad p =? 0); [lia|].
  destruct (Z.leb_spec (pf_lateStart p * 1000) (pf_chainNowUnix p * 1000 + (a - pf_serverNowUnix p * 1000))),
    (Z.leb_spec (pf_lateStart p * 1000) (pf_chainNowUnix p * 1000 + (b - pf_serverNowUnix p * 1000))); lia.
Qed.

(** The amount never shrinks while the page waits, and is never less than what was
    accrued at the preflight, which it is until fees run. *)
Theorem ticker_grows (p : PreflightPayload) (a b : Z) (Hp : amounts_ok p) (Hab : a <= b) :
  pf_accruedAmountDue p * 10 <= computeDisplaySubBase p a <= computeDisplaySubBase p b /\
  (isMoraAccruingAt p a = false -> computeDisplaySubBase p a = pf_accruedAmountDue p * 10).
Proof.
  destruct Hp as (Hr & Hs & Ha). rewrite !display_late. pose proof (late_ms_nonneg p a). pose proof (late_ms_grows p a b Hab).
  split; [split|].
  - pose proof (Z.quot_pos (pf_ratePerSecWad p * late_ms p a * pf_storedAmountDueBefore p) MS_TO_SUB_BASE_DIVISOR). unfold MS_TO_SUB_BASE_DIVISOR in *. nia.
  - apply Zplus_le_compat_l. apply Z.quot_le_mono; [unfold MS_TO_SUB_BASE_DIVISOR; lia|]. apply Z.mul_le_mono_nonneg_r; [done|].
    by apply Z.mul_le_mono_nonneg_l.
  - intros Hm. unfold late_ms. rewrite Hm, Z.mul_0_r, Z.mul_0_l. change (Z.quot 0 MS_TO_SUB_BASE_DIVISOR) with 0. lia.
Qed.

(** ** From the contract to the screen *)

Section EndToEnd.
  Context `{ENV : Env} `{DB : Database} `{OUT : Outside}.

(** The payload survives the way to the page. *)
Lemma read_preflight_body p : read_preflight (preflight_body p) = Ok p.
Proof. unfold read_preflight, preflight_body. cbn. rewrite !BigInt_String. by destruct p. Qed.

Lemma quot_between a b : 0 <= a -> 0 < b -> Z.quot a b * b <= a < (Z.quot a b + 1) * b.
Proof. intros Ha Hb. pose proof (Z.quot_rem' a b). pose proof (Z.rem_bound_pos a b Ha Hb). nia. Qed.

(** The instant the backend derives from the preview gives the preview back, up to a
    second of fees. *)
Lemma derived_display rate stored preview now lateStart :
  0 < rate -> 0 < stored -> stored < preview -> lateStart < now ->
  (preview - stored) * 10 ^ 18 <= rate * stored * (now - lateStart) ->
  let last := last_accrued false true rate stored now lateStart (Some preview) in
  let shown := Z.quot (stored * 10 + Z.quot (rate * ((now - Z.max last lateStart) * 1000) * stored) MS_TO_SUB_BASE_DIVISOR) 10 in
  lateStart <= last <= now /\ shown <= preview < shown + rate * stored / 10 ^ 18 + 2.
Proof.
  intros Hr Hs Hp Hl Hcov. unfold last_accrued. cbn [orb negb].
  assert ((rate =? 0) = false) as -> by lia. assert ((stored =? 0) = false) as -> by lia.
  assert ((preview - stored <=? 0) = false) as -> by lia.
  cbn [orb]. set (e := Z.quot ((preview - stored) * 10 ^ 18) (rate * stored)).
  assert (Hrs : 0 < rate * stored) by nia.
  pose proof (quot_between ((preview - stored) * 10 ^ 18) (rate * stored) ltac:(nia) Hrs) as He. fold e in He.
  assert (He0 : 0 <= e) by (apply Z.quot_pos; nia).
  assert (Hen : e <= now - lateStart) by nia.
  cbn zeta. rewrite (Z.max_l (now - e) lateStart) by lia. rewrite (Z.max_l (now - e) lateStart) by lia.
  split; [lia|]. replace (now - (now - e)) with e by lia.
  assert (Hy : Z.quot (rate * (e * 1000) * stored) MS_TO_SUB_BASE_DIVISOR = rate * stored * e / 10 ^ 17).
  { unfold MS_TO_SUB_BASE_DIVISOR. rewrite Z.quot_div_nonneg by nia.
    replace (rate * (e * 1000) * stored) with (rate * stored * e * 10 ^ 3) by lia. change (10 ^ 20) with (10 ^ 17 * 10 ^ 3).
    by rewrite Z.div_mul_cancel_r by lia. }
  rewrite Hy. assert (0 <= rate * stored * e / 10 ^ 17) by (apply Z.div_pos; nia).
  rewrite Z.quot_div_nonneg by lia. rewrite Z.add_comm, Z.div_add by lia. rewrite Z.div_div by lia. change (10 ^ 17 * 10) with (10 ^ 18).
  set (x := rate * stored * e) in *. pose proof (Z.div_mod x (10 ^ 18) ltac:(lia)). pose proof (Z.mod_pos_bound x (10 ^ 18) ltac:(lia)).
  pose proof (Z.div_mod (rate * stored) (10 ^ 18) ltac:(lia)). pose proof (Z.mod_pos_bound (rate * stored) (10 ^ 18) ltac:(lia)).
  assert (x <= (preview - stored) * 10 ^ 18 < x + rate * stored) by (unfold x; lia). lia.
Qed.

(** C31. A late loan whose fees are not materialised, at a time [now] of the chain: the page
    shows, at the time of the preflight, at most the contract's preview of the debt,
    and less than it by under one second of fees and two units. *)
Theorem ticker_shows_preview (wallet : string) (loan : OnChainLoanFull) (premium : Premium) (preview now : Z) (isDefaulted : option bool) (w : World)
    (Hrate : 0 < premium_lateRatePerSecWad premium) (Hdue : 0 < f_amountDue loan) (Hfees : f_amountDue loan < preview)
    (Hlate : f_due loan + f_gracePeriod loan < now)
    (Hpreview : (preview - f_amountDue loan) * 10 ^ 18 <=
                premium_lateRatePerSecWad premium * f_amountDue loan * (now - (f_due loan + f_gracePeriod loan))) :
  exists p w', preflight_loan wallet false loan (Some premium) (Some preview) isDefaulted now w = (Ok p, w') /\
    read_preflight (preflight_body p) = Ok p /\
    let shown := Z.quot (computeDisplaySubBase p (pf_serverNowUnix p * 1000)) 10 in
    isMoraAccruingAt p (pf_serverNowUnix p * 1000) = true /\
    shown <= preview < shown + premium_lateRatePerSecWad premium * f_amountDue loan / 10 ^ 18 + 2.
Proof.
  destruct (derived_display _ _ preview now (f_due loan + f_gracePeriod loan) Hrate Hdue Hfees Hlate Hpreview) as [Hlast Hshown].
  unfold preflight_loan. cbn zeta. assert ((f_due loan + f_gracePeriod loan <? now) = true) as -> by lia.
  cbn [accrue_decision negb]. rewrite bool_decide_eq_true_2 by (by eexists). cbn [negb when].
  cbv [mbind M_bind mret M_ret]. unfold date_now, outside.
  eexists _, _. split; [reflexivity|]. split; [apply read_preflight_body|].
  rewrite display_late. unfold late_ms, isMoraAccruingAt, chainEstimateMs.
  cbn [pf_ratePerSecWad pf_lateStart pf_chainNowUnix pf_serverNowUnix pf_lastAccruedTs pf_accruedAmountDue pf_storedAmountDueBefore].
  set (serverNow := _ / 1000). set (late := f_due loan + f_gracePeriod loan) in *. fold late.
  replace (now * 1000 + (serverNow * 1000 - serverNow * 1000)) with (now * 1000) by lia.
  assert ((premium_lateRatePerSecWad premium =? 0) = false) as -> by lia.
  assert ((late * 1000 <=? now * 1000) = true) as -> by lia. split; [done|].
  rewrite <- Z.mul_sub_distr_r, Z.max_r by lia. exact Hshown.
Qed.
End EndToEnd.

(** ** The text *)

Lemma taken_digits f d : all_digits f -> (d <= length f)%nat ->
  decimal_value (take d f) = decimal_value f / 10 ^ Z.of_nat (length f - d).
Proof.
  intros Hf Hd. rewrite <- (take_drop d f) at 2. rewrite decimal_value_app, length_drop.
  pose proof (decimal_value_range (drop d f) ltac:(by apply Forall_drop)) as Hr. rewrite length_drop in Hr.
  rewrite Z.div_add_l by lia. rewrite (Z.div_small (decimal_value (drop d f))) by lia. lia.
Qed.

(** The text is the amount, cut (not rounded) to the decimals asked for. *)
Theorem ticker_text (raw : Z) (d : nat) (Hraw : 0 <= raw) :
  let k := (SUB_BASE_DECIMALS - d)%nat in
  decimalToUnits (chars (formatUsdcSubBase raw d)) SUB_BASE_DECIMALS = Some (raw - raw mod 10 ^ Z.of_nat k).
Proof.
  intros k. unfold formatUsdcSubBase. cbv zeta. rewrite Z.quot_div_nonneg, Z.rem_mod_nonneg by (unfold SUB_BASE_PER_USDC; lia).
  set (W := raw / SUB_BASE_PER_USDC). set (F := raw mod SUB_BASE_PER_USDC).
  assert (HF : 0 <= F < 10 ^ Z.of_nat SUB_BASE_DECIMALS) by (apply Z.mod_pos_bound; done).
  assert (HW : 0 <= W) by (apply Z.div_pos; [done|unfold SUB_BASE_PER_USDC; lia]).
  destruct (fixed_digits_spec SUB_BASE_DECIMALS F HF) as (Hfd & Hfv & Hfl).
  destruct (decimal_digits_spec W HW) as (Hne & Hd & Hv).
  assert (Htext : forall n, 0 <= n -> chars (String_of_int n) = decimal_digits n).
  { intros n Hn. unfold String_of_int. destruct (Z.ltb_spec n 0); [lia|]. apply chars_of_chars. }
  rewrite !Htext by lia. fold (fixed_digits SUB_BASE_DECIMALS F). set (g := fixed_digits SUB_BASE_DECIMALS F) in *.
  set (f := take d g). assert (Hshape : chars (if (SUB_BASE_DECIMALS <=? d)%nat then of_chars (decimal_digits W ++ "."%char :: g)
    else of_chars (decimal_digits W ++ "."%char :: f)) = decimal_digits W ++ point_frac (Some f)).
  { destruct (Nat.leb_spec SUB_BASE_DECIMALS d); rewrite chars_of_chars; [|done]. unfold f. rewrite take_ge; [done|]. rewrite Hfl. unfold SUB_BASE_DECIMALS in *. lia. }
  rewrite Hshape. assert (Hf : all_digits f) by (by apply Forall_take).
  rewrite (decimalToUnits_text SUB_BASE_DECIMALS _ false (decimal_digits W) (Some f)); [|..|done|done|done]; change (default [] (Some f)) with f.
  - f_equal. unfold numerator. rewrite Hv. assert (Hlen : length f = Nat.min d SUB_BASE_DECIMALS) by (unfold f; rewrite length_take, Hfl; done).
    assert (Hcut : decimal_value f = F / 10 ^ Z.of_nat k).
    { unfold f. destruct (Nat.le_gt_cases d (length g)).
      - rewrite taken_digits, Hfv by done. rewrite Hfl. unfold k, SUB_BASE_DECIMALS. do 2 f_equal. 
      - rewrite take_ge, Hfv by lia. unfold k. rewrite Hfl in *. unfold SUB_BASE_DECIMALS in *. replace (7 - d)%nat with 0%nat by lia. by rewrite Z.div_1_r. }
    assert (Hk : (k + length f)%nat = SUB_BASE_DECIMALS) by (unfold k, SUB_BASE_DECIMALS in *; lia).
    assert (Hpow : SUB_BASE_PER_USDC = 10 ^ Z.of_nat k * 10 ^ Z.of_nat (length f)).
    { unfold SUB_BASE_PER_USDC. rewrite <- Hk, Nat2Z.inj_add, Z.pow_add_r by lia. done. }
    fold SUB_BASE_PER_USDC. set (P := 10 ^ Z.of_nat (length f)) in *. set (K := 10 ^ Z.of_nat k) in *.
    assert (HK : 0 < K) by (unfold K; lia). assert (HP : 0 < P) by (unfold P; lia).
    rewrite Hcut, Hpow. replace ((W * P + F / K) * (K * P)) with ((W * P + F / K) * K * P) by lia. rewrite round_half_up_exact by done.
    pose proof (Z.div_mod raw SUB_BASE_PER_USDC ltac:(unfold SUB_BASE_PER_USDC; lia)) as Hraw'. fold W F in Hraw'.
    assert (raw mod K = F mod K) as ->.
    { rewrite Hraw', Hpow. replace (K * P * W + F) with (F + (P * W) * K) by lia. by rewrite Z.mod_add by lia. }
    pose proof (Z.div_mod F K ltac:(lia)). nia.
  - by destruct (decimal_digits W).
  - rewrite List.filter_app, (digits_kept _ Hd). cbn. by rewrite (digits_kept f Hf).
Qed.

(** The hook takes the units of a token with six decimals. Those of Stellar have seven,
    and the debt is shown tenfold. *)
Lemma stellar_tenfold (u : Z) (Hu : 0 <= u) :
  decimalToUnits (chars (formatUsdcSubBase (u * 10) SUB_BASE_DECIMALS)) STELLAR_TOKEN_DECIMALS = Some (10 * u).
Proof.
  pose proof (ticker_text (u * 10) SUB_BASE_DECIMALS ltac:(lia)) as H. cbn zeta in H.
  change (10 ^ Z.of_nat (SUB_BASE_DECIMALS - SUB_BASE_DECIMALS)) with 1 in H. rewrite Z.mod_1_r in H.
  change STELLAR_TOKEN_DECIMALS with SUB_BASE_DECIMALS. rewrite H. f_equal. lia.
Qed.

(** ** The requests *)

Section Fetches.
  Context `{OUT : TickerOutside}.

(** Every payload that was shown is an answer. *)
Definition answers_shown (t : list ticker_event) : Prop :=
  forall p, TPayload (Some p) ∈ t -> exists w, TPreflight w (Ok p) ∈ t.

Lemma answers_shown_more t es : answers_shown t -> (forall p, TPayload (Some p) ∈ es -> exists w, TPreflight w (Ok p) ∈ t ++ es) ->
  answers_shown (t ++ es).
Proof.
  intros Ht Hes p [H|H]%elem_of_app; [|by apply Hes]. destruct (Ht p H) as [w Hw]. exists w. apply elem_of_app. by left.
Qed.

Definition shows_none (es : list ticker_event) : bool := forallb (fun e => match e with TPayload (Some _) => false | _ => true end) es.

Lemma answers_shown_none t es : shows_none es = true -> answers_shown t -> answers_shown (t ++ es).
Proof.
  intros H%forallb_all Ht. apply answers_shown_more; [done|]. intros p Hp.
  pose proof (proj1 (list.Forall_forall _ _) H _ Hp) as Hno. discriminate Hno.
Qed.

Lemma shown_notes K es : lasting K -> shows_none es = true -> upholds answers_shown K (notes es).
Proof. intros HK H. apply upholds_notes; [done|]. intros t Ht _. by apply answers_shown_none. Qed.

Lemma shown_fetch w enabled : upholds answers_shown (fun _ => True) (fetchPreflight w enabled).
Proof.
  unfold fetchPreflight. destruct w as [w|]; [|apply upholds_return]. destruct (_ || _); [apply upholds_return|].
  apply upholds_bind; [done|by apply shown_notes|]. intros _.
  apply upholds_finally; [done|intros t Ht _; by apply answers_shown_none|]. apply upholds_try; [done| |].
  - apply upholds_ask; [done|intros t r Ht _; by apply answers_shown_none|]. intros p.
    apply upholds_notes; [apply lasting_and; [done|by apply (lasting_seen (fun g => g = _))]|].
    intros t Ht (_ & g & Hin & ->). apply answers_shown_more; [done|]. intros p' Hp'. apply list_elem_of_singleton in Hp'.
    injection Hp' as ->. exists w. apply elem_of_app. by left.
  - intros e. apply shown_notes; [done|]. by destruct (no_loan e).
Qed.

(** However the fetches of the page interleave, what it shows was answered. *)
Lemma payload_answered (wallets : list (option string)) (c : pool (list ticker_event) unit) :
  steps pool_step (map (fun w => wallet_effect w true) wallets, []) c ->
  forall p, payload (snd c) = Some p -> exists w, TPreflight w (Ok p) ∈ snd c.
Proof.
  intros Hrun p Hp. assert (H : answers_shown (snd c)).
  { eapply (upholds_pool answers_shown _ [] c); [exact Hrun| |by intros ? ?%elem_of_nil]. apply Forall_map, Forall_true. intros w.
    unfold wallet_effect. destruct w as [w|]; [destruct (_ || _)|]; [by apply shown_notes|apply shown_fetch|by apply shown_notes]. }
  apply H. clear H Hrun. generalize dependent (snd c). intros t. induction t as [|e t IH] using rev_ind; [done|].
  unfold payload. rewrite value_of_app. cbn. fold (payload t). intros Hp. apply elem_of_app.
  destruct e as [q| | | |]; [right; subst; by apply list_elem_of_singleton|left; by apply IH..].
Qed.

(** A fetch always ends the waiting. *)
Lemma fetch_done w t : w <> ""%string -> loading (snd (run (fetchPreflight (Some w) true) t)) = false.
Proof.
  intros Hw. unfold fetchPreflight. cbn [negb orb]. rewrite bool_decide_eq_false_2 by done. rewrite run_bind.
  unfold notes at 1, change at 1. rewrite run_await. rewrite finally_run. unfold loading. cbn [snd]. by rewrite value_of_app.
Qed.
End Fetches.

(** ** Concrete payloads *)

(** Ten dollars (six decimals), five percent a month, two days past the grace period. *)
Definition late_loan : OnChainLoanFull :=
  {| f_principal := 10000000; f_amountDue := 10000000; f_start := 0; f_due := 1000000; f_feeBps := 0; f_gracePeriod := 86400; f_active := true |}.

Definition late_premium : Premium := {| premiumRatePerSecWad := 0; premium_lateRatePerSecWad := 19290123456 |}.

Definition late_payload : PreflightPayload :=
  match fst (preflight_loan (ENV := sample_env) (OUT := lending) "0xaa" false late_loan (Some late_premium) (Some 10033333) None 1259200 lending_world) with
  | Ok p => p
  | Throw _ =>
      {| pf_wallet := ""; pf_principal := 0; pf_storedAmountDueBefore := 0; pf_accruedAmountDue := 0; pf_lastAccruedTs := 0; pf_ratePerSecWad := 0;
         pf_baseFeeBps := 0; pf_dueAt := 0; pf_gracePeriod := 0; pf_lateStart := 0; pf_serverNowUnix := 0; pf_chainNowUnix := 0;
         pf_perDayDelta := num_of_Z 0; pf_daysLate := num_of_Z 0; pf_daysToDefault := num_of_Z 0; pf_isDefaulted := false;
         pf_accrueLateCalled := false; pf_accrueLateSkippedReason := None |}
  end.

Lemma ticker_shows_preview_witness :
  Z.quot (computeDisplaySubBase late_payload (pf_serverNowUnix late_payload * 1000)) 10 = 10033332 /\
  isMoraAccruingAt late_payload (pf_serverNowUnix late_payload * 1000) = true.
Proof.
  split; [vm_compute; reflexivity|].
  pose proof (ticker_shows_preview (ENV := sample_env) (OUT := lending) "0xaa" late_loan late_premium 10033333 1259200 None lending_world
    ltac:(vm_compute; reflexivity) ltac:(vm_compute; reflexivity) ltac:(vm_compute; reflexivity) ltac:(vm_compute; reflexivity)
    ltac:(vm_compute; discriminate)) as (p & w' & E & _ & H & _).
  unfold late_payload. rewrite E. exact H.
Defined.

Lemma ticker_grows_witness :
  let a := pf_serverNowUnix late_payload * 1000 in
  computeDisplaySubBase late_payload a = 100333329 /\ computeDisplaySubBase late_payload (a + 60000) = 100333445 /\
  computeDisplaySubBase late_payload a <= computeDisplaySubBase late_payload (a + 60000).
Proof.
  split; [vm_compute; reflexivity|]. split; [vm_compute; reflexivity|].
  apply (ticker_grows late_payload); [vm_compute; split_and!; discriminate|lia].
Defined.

Lemma ticker_text_witness : 0 <= 100333444 /\ chars (formatUsdcSubBase 100333444 2) = chars "10.03" /\
  decimalToUnits (chars (formatUsdcSubBase 100333444 2)) SUB_BASE_DECIMALS = Some 100300000.
Proof.
  split; [lia|]. split; [vm_compute; reflexivity|]. rewrite (ticker_text 100333444 2 ltac:(lia)). vm_compute. reflexivity.
Defined.

(** The wallet changes while its preflight is under way, and the answer of the other
    arrives first: the page shows the debt of a wallet that is no longer connected. *)
Definition answer_by_wallet : TickerOutside := {|
  api_preflight _ w :=
    Ok {| pf_wallet := w; pf_principal := 0; pf_storedAmountDueBefore := 0; pf_accruedAmountDue := 0; pf_lastAccruedTs := 0; pf_ratePerSecWad := 0;
          pf_baseFeeBps := 0; pf_dueAt := 0; pf_gracePeriod := 0; pf_lateStart := 0; pf_serverNowUnix := 0; pf_chainNowUnix := 0;
          pf_perDayDelta := num_of_Z 0; pf_daysLate := num_of_Z 0; pf_daysToDefault := num_of_Z 0; pf_isDefaulted := false;
          pf_accrueLateCalled := false; pf_accrueLateSkippedReason := None |} |}.

Example preflight_of_old_wallet :
  let c := run_schedule ([0; 1; 1; 1; 1; 0; 0; 0])%nat
             (map (fun w => wallet_effect (OUT := answer_by_wallet) (Some w) true) ["0xaa"; "0xbb"]%string, []) in
  fst c = [Return tt; Return tt] /\ pf_wallet <$> payload (snd c) = Some "0xaa"%string.
Proof. vm_compute. done. Qed.
