(* ===== verification/CreditStore.v ===== *)
(** * What the page keeps of the credit
      ([frontend/src/stores/creditStore.ts], [stores/loanStatsStore.ts],
      [stores/actions/setLoanStatsFromJourney.ts], [lib/tiers.ts], and the optimistic
      update of [hooks/borrow/blockchain/useRepay.ts])

    After a repayment the page shows the score and the counters the backend is about
    to give. Until the chain or the backend has caught up, or a quarter of an hour has
    gone by, older answers do not take them back. Scores and counters are integers. *)

From stdpp Require Import base tactics list strings numbers.
From Stdlib Require Import Lia ZArith.
From S2P Require Import Prelude JsString JsNum AmountUnits CreditPolicy Entities LoanRepayment.

Local Open Scope Z_scope.

(** ** The score *)

Record CreditState := {
  creditScoreDisplay : option string;
  creditScoreRaw : option Z;
  optimisticScoreRaw : option Z;
  optimisticLimitRaw : option Z;
  optimisticUntil : option Z;
}.

Definition no_credit : CreditState :=
  {| creditScoreDisplay := None; creditScoreRaw := None; optimisticScoreRaw := None; optimisticLimitRaw := None; optimisticUntil := None |}.

Definition setCreditScoreDisplay (value : option string) (s : CreditState) : CreditState :=
  {| creditScoreDisplay := value; creditScoreRaw := creditScoreRaw s; optimisticScoreRaw := optimisticScoreRaw s;
     optimisticLimitRaw := optimisticLimitRaw s; optimisticUntil := optimisticUntil s |}.

Definition setCreditScoreRaw (value : option Z) (s : CreditState) : CreditState :=
  {| creditScoreDisplay := creditScoreDisplay s; creditScoreRaw := value; optimisticScoreRaw := optimisticScoreRaw s;
     optimisticLimitRaw := optimisticLimitRaw s; optimisticUntil := optimisticUntil s |}.

(** The score, and no floor any more. *)
Definition settled_at (value : option Z) (s : CreditState) : CreditState :=
  {| creditScoreDisplay := creditScoreDisplay s; creditScoreRaw := value; optimisticScoreRaw := None; optimisticLimitRaw := None;
     optimisticUntil := None |}.

Definition expired (now : Z) (s : CreditState) : bool := match optimisticUntil s with Some until => until <? now | None => false end.

Definition setCreditScoreRawHwm (now : Z) (value : option Z) (s : CreditState) : CreditState :=
  if expired now s then settled_at value s else
  match optimisticScoreRaw s with
  | None => setCreditScoreRaw value s
  | Some floor =>
      match value with
      | None => settled_at None s
      | Some v => if floor <=? v then settled_at (Some v) s else setCreditScoreRaw (Some floor) s
      end
  end.

Definition setOptimistic (scoreRaw limitRaw untilMs : Z) (s : CreditState) : CreditState :=
  {| creditScoreDisplay := creditScoreDisplay s; creditScoreRaw := Some scoreRaw; optimisticScoreRaw := Some scoreRaw;
     optimisticLimitRaw := Some limitRaw; optimisticUntil := Some untilMs |}.

Definition clearOptimistic (s : CreditState) : CreditState :=
  {| creditScoreDisplay := creditScoreDisplay s; creditScoreRaw := creditScoreRaw s; optimisticScoreRaw := None;
     optimisticLimitRaw := None; optimisticUntil := None |}.

(** [reset] *)
Definition reset_credit (s : CreditState) : CreditState := no_credit.

(** ** The counters *)

Record LoanStats := {
  loansCount : option Z;
  closedLoansCount : option Z;
  loansOnTimeCount : option Z;
  openLoansCount : option Z;
  onTimePercent : option num;
}.

Definition maxOrNull (a b : option Z) : option Z :=
  match a, b with None, _ => b | _, None => a | Some x, Some y => Some (Z.max x y) end.

Definition safeNonNegative (v : option Z) : Z := match v with Some n => if n <? 0 then 0 else n | None => 0 end.

(** The share of the closed loans that were paid on time. *)
Definition on_time_percent (closed onTime : Z) : num :=
  if (0 <? closed) && (0 <? onTime)
  then nmax (num_of_Z 0) (nmin (num_of_Z 100) (num_of_Z onTime / num_of_Z closed * num_of_Z 100))%num else num_of_Z 0.

Definition setLoanStatsFromJourney (total closed onTime open : option Z) (useHwm : bool) (s : LoanStats) : LoanStats :=
  let set old new := if useHwm then maxOrNull old (Some new) else Some new in
  {| loansCount := set (loansCount s) (safeNonNegative total);
     closedLoansCount := set (closedLoansCount s) (safeNonNegative closed);
     loansOnTimeCount := set (loansOnTimeCount s) (safeNonNegative onTime);
     openLoansCount := Some (safeNonNegative open);
     onTimePercent := Some (on_time_percent (safeNonNegative closed) (safeNonNegative onTime)) |}.

(** ** The tiers of the page *)

Record TierDefinition := { tier_score : Z; tier_limitUsdc : Z; tier_groupLabel : string }.

Definition TIERS : list TierDefinition :=
  [ {| tier_score := 1; tier_limitUsdc := 1; tier_groupLabel := "Novato" |};
    {| tier_score := 2; tier_limitUsdc := 3; tier_groupLabel := "Novato" |};
    {| tier_score := 3; tier_limitUsdc := 4; tier_groupLabel := "Activo" |};
    {| tier_score := 4; tier_limitUsdc := 6; tier_groupLabel := "Activo" |};
    {| tier_score := 5; tier_limitUsdc := 8; tier_groupLabel := "Estable" |};
    {| tier_score := 6; tier_limitUsdc := 10; tier_groupLabel := "Estable" |};
    {| tier_score := 7; tier_limitUsdc := 12; tier_groupLabel := "Confiable" |};
    {| tier_score := 8; tier_limitUsdc := 15; tier_groupLabel := "Confiable" |};
    {| tier_score := 9; tier_limitUsdc := 18; tier_groupLabel := "Referente" |};
    {| tier_score := 10; tier_limitUsdc := 22; tier_groupLabel := "Referente" |};
    {| tier_score := 11; tier_limitUsdc := 25; tier_groupLabel := "Leyenda" |} ].

Definition first_tier : TierDefinition := {| tier_score := 1; tier_limitUsdc := 1; tier_groupLabel := "Novato" |}.

Definition getTierForScore (score : Z) : TierDefinition :=
  nth (Z.to_nat (Z.max 1 (Z.min MAX_CREDIT_LEVEL score) - 1)) TIERS first_tier.

(** [getGroupLabelForScore] of [lib/tiers.ts] *)
Definition tier_label (score : Z) : string := tier_groupLabel (getTierForScore score).

Inductive TierState := past | current | locked.

Definition tierState (tier : TierDefinition) (currentScore : Z) (hasScore : bool) : TierState :=
  if negb hasScore then locked
  else if tier_score tier =? currentScore then current
  else if tier_score tier <? currentScore then past else locked.

(** ** After a repayment *)

(** What the page shows: the two stores, and the celebration. *)
Record Shown := { sh_credit : CreditState; sh_stats : LoanStats; sh_gain : option ReputationGain }.

Section Optimistic.
  Context `{JM : JsMath}.

Definition MAX_SCORE : Z := 1000.
Definition OPTIMISTIC_TTL_MS : Z := 15 * 60 * 1000.

(** The score after an on-time repayment. *)
Definition next_score (prevScore : Z) : Z := Z.min MAX_CREDIT_LEVEL (prevScore + 1).

(** [parseUnits(String(nextTier.limitUsdc), 6)] *)
Definition next_limit (nextScore : Z) : Z := tier_limitUsdc (getTierForScore nextScore) * 10 ^ 6.

Definition rep_gain (prevOnTime prevScore : Z) : option ReputationGain :=
  let nextScore := next_score prevScore in
  let repDelta := Z.max 0 (reputationScore (prevOnTime + 1) - reputationScore prevOnTime) in
  let oldGroup := tier_label prevScore in
  let newGroup := tier_label nextScore in
  if 0 <? repDelta then
    Some {| rg_delta := repDelta; rg_scoreChanged := negb (nextScore =? prevScore);
            rg_groupChanged := negb (bool_decide (newGroup = oldGroup));
            rg_newGroupLabel := if bool_decide (newGroup = oldGroup) then None else Some newGroup; rg_newScore := nextScore |}
  else None.

Definition applyOptimisticOnTimeUpdate (now : Z) (s : Shown) : Shown :=
  let prevOnTime := default 0 (loansOnTimeCount (sh_stats s)) in
  let prevTotal := default 0 (loansCount (sh_stats s)) in
  let prevClosed := default 0 (closedLoansCount (sh_stats s)) in
  let prevScore := default 0 (creditScoreRaw (sh_credit s)) in
  let nextScore := next_score prevScore in
  {| sh_credit := setCreditScoreDisplay (Some (String_of_int nextScore +:+ "/" +:+ String_of_int MAX_SCORE))
                    (setOptimistic nextScore (next_limit nextScore) (now + OPTIMISTIC_TTL_MS) (sh_credit s));
     sh_stats := {| loansCount := Some (prevTotal + 1); closedLoansCount := Some (prevClosed + 1); loansOnTimeCount := Some (prevOnTime + 1);
                    openLoansCount := openLoansCount (sh_stats s); onTimePercent := onTimePercent (sh_stats s) |};
     sh_gain := match rep_gain prevOnTime prevScore with Some g => Some g | None => sh_gain s end |}.

Definition applyOptimisticLateUpdate (s : Shown) : Shown :=
  {| sh_credit := sh_credit s;
     sh_stats := {| loansCount := Some (default 0 (loansCount (sh_stats s)) + 1);
                    closedLoansCount := Some (default 0 (closedLoansCount (sh_stats s)) + 1);
                    loansOnTimeCount := loansOnTimeCount (sh_stats s); openLoansCount := openLoansCount (sh_stats s);
                    onTimePercent := onTimePercent (sh_stats s) |};
     sh_gain := sh_gain s |}.
End Optimistic.

(** * Properties of the credit store

    Old answers do not take the score of a repayment back; the tiers of the page are the
    ladder of the backend, and the score and the celebration shown at once are those the
    backend will answer. *)

(** ** The floor of the score *)

(** What reads [(time, score)] make of the store. *)
Definition reads_of (s : CreditState) (reads : list (Z * Z)) : CreditState :=
  fold_left (fun s '(now, v) => setCreditScoreRawHwm now (Some v) s) reads s.

(** The score shown has no floor, or is the floor. *)
Definition store_ok (s : CreditState) : Prop := optimisticScoreRaw s = None \/ creditScoreRaw s = optimisticScoreRaw s.

Lemma hwm_no_floor now v s :
  optimisticScoreRaw s = None ->
  let s' := setCreditScoreRawHwm now v s in creditScoreRaw s' = v /\ optimisticScoreRaw s' = None.
Proof. intros H. unfold setCreditScoreRawHwm. rewrite H. by destruct (expired now s). Qed.

(** A read below the floor, in time, changes nothing. *)
Lemma hwm_below now v s floor until :
  optimisticScoreRaw s = Some floor -> optimisticUntil s = Some until -> creditScoreRaw s = Some floor -> now <= until -> v < floor ->
  setCreditScoreRawHwm now (Some v) s = s.
Proof.
  intros Hf Hu Hr Hn Hv. unfold setCreditScoreRawHwm, expired. rewrite Hu, Hf, (proj2 (Z.ltb_ge _ _) Hn), (proj2 (Z.leb_gt _ _) Hv).
  destruct s; cbn in *; by subst.
Qed.

(** One that has caught up, or is late, settles the score. *)
Lemma hwm_settles now v s floor until :
  optimisticScoreRaw s = Some floor -> optimisticUntil s = Some until -> floor <= v \/ until < now ->
  setCreditScoreRawHwm now (Some v) s = settled_at (Some v) s.
Proof.
  intros Hf Hu Hc. unfold setCreditScoreRawHwm, expired. rewrite Hu, Hf. destruct (Z.ltb_spec until now); [done|].
  by rewrite (proj2 (Z.leb_le _ _)) by lia.
Qed.

Lemma reads_settled reads s :
  optimisticScoreRaw s = None -> creditScoreRaw (reads_of s reads) = match list.last reads with Some (_, v) => Some v | None => creditScoreRaw s end
  /\ optimisticScoreRaw (reads_of s reads) = None.
Proof.
  revert s. induction reads as [|[now v] reads IH]; intros s H; [done|]. cbn [reads_of fold_left].
  destruct (hwm_no_floor now (Some v) s H) as [Hr Hn]. destruct (IH _ Hn) as [Hr' Hn']. unfold reads_of in *.
  split; [|exact Hn']. etrans; [exact Hr'|]. rewrite last_cons. destruct (list.last reads) as [[? ?]|]; [done|exact Hr].
Qed.

(** The first read that has caught up with the floor, or comes after its time. *)
Fixpoint from_settling (floor until : Z) (reads : list (Z * Z)) : list (Z * Z) :=
  match reads with
  | [] => []
  | (now, v) :: rest => if (floor <=? v) || (until <? now) then reads else from_settling floor until rest
  end.

(** After a repayment the score shown is the one it earned until an answer has
    caught up with it or a quarter of an hour has gone by, whatever older scores the
    chain and the backend answer in between; from then on it is the last answer, and no
    floor is left. *)
Theorem score_not_taken_back (s : CreditState) (floor limit until : Z) (reads : list (Z * Z)) :
  let s' := reads_of (setOptimistic floor limit until s) reads in
  match list.last (from_settling floor until reads) with
  | None => s' = setOptimistic floor limit until s
  | Some (_, v) => creditScoreRaw s' = Some v /\ optimisticScoreRaw s' = None
  end.
Proof.
  cbn zeta. set (s0 := setOptimistic floor limit until s). induction reads as [|[now v] reads IH]; [done|].
  cbn [from_settling reads_of fold_left]. destruct ((floor <=? v) || (until <? now)) eqn:Hs.
  - rewrite (hwm_settles now v s0 floor until) by (done || lia).
    destruct (reads_settled reads (settled_at (Some v) s0)) as [Hr Hn]; [done|]. rewrite last_cons. unfold reads_of in *.
    rewrite Hn, Hr. by destruct (list.last reads) as [[? ?]|].
  - rewrite (hwm_below now v s0 floor until) by (done || lia). exact IH.
Qed.

(** ** The tiers *)

Ltac score_cases s :=
  let H := fresh in
  assert (H : s <= 1 \/ s = 2 \/ s = 3 \/ s = 4 \/ s = 5 \/ s = 6 \/ s = 7 \/ s = 8 \/ s = 9 \/ s = 10 \/ 11 <= s) by lia;
  destruct_or! H.

Lemma tier_of_clamped s : getTierForScore s = getTierForScore (Z.max 1 (Z.min 11 s)).
Proof. unfold getTierForScore, MAX_CREDIT_LEVEL. do 2 f_equal. lia. Qed.

Lemma step_of_clamped s : getStepForScore s = getStepForScore (Z.max 1 (Z.min 11 s)).
Proof.
  destruct (getStepForScore_value s) as [Hs Es], (getStepForScore_value (Z.max 1 (Z.min 11 s))) as [Hs' Es'].
  assert (E : CreditPolicy.score (getStepForScore s) = CreditPolicy.score (getStepForScore (Z.max 1 (Z.min 11 s)))) by lia.
  revert E. generalize dependent (getStepForScore s). generalize dependent (getStepForScore (Z.max 1 (Z.min 11 s))).
  intros b Hb _ a Ha _ E. ladder_cases Ha; ladder_cases Hb; cbn in E; done || lia.
Qed.

(** The tiers of the page have the scores and limits of the backend's ladder, and the
    labels both sides share. *)
Theorem tiers_are_the_ladder (s : Z) :
  tier_score (getTierForScore s) = CreditPolicy.score (getStepForScore s) /\
  CreditStore.tier_limitUsdc (getTierForScore s) = limitUsdc (getStepForScore s) /\
  GROUP_BY_SCORE (tier_score (getTierForScore s)) = Some (tier_label s).
Proof.
  unfold tier_label. rewrite tier_of_clamped, step_of_clamped. pose proof (Z.max_spec 1 (Z.min 11 s)) as H. pose proof (Z.min_spec 11 s).
  generalize dependent (Z.max 1 (Z.min 11 s)). intros k Hk.
  assert (1 <= k <= 11) as Hr by lia. clear Hk. score_cases k; try lia; [replace k with 1 by lia| subst k ..|replace k with 11 by lia]; done.
Qed.

(** ** The update before the answer *)

Lemma next_score_is_backends (u : User) (n : Z) :
  0 <= n -> current_score u <= CreditPolicy.score (getStepForOnTimeLoans n) -> on_time_score u (n + 1) = next_score (current_score u).
Proof.
  intros Hn H. destruct (getStepForOnTimeLoans_value n) as (_ & _ & E & _), (getStepForOnTimeLoans_value (n + 1)) as (_ & _ & E' & _).
  unfold on_time_score, next_score, MAX_CREDIT_LEVEL. cbn zeta. rewrite E'. rewrite E in H.
  destruct (Z.ltb_spec (current_score u + 1) (Z.max 0 (Z.min 10 (n + 1)) + 1)); lia.
Qed.

Lemma label_is_backends s : 0 <= s <= 11 -> getGroupLabelForScore (Some (num_of_Z s)) = tier_label s.
Proof.
  intros H. assert (s = 0 \/ 1 <= s) as [->|H1] by lia; [by vm_compute|].
  score_cases s; try lia; [replace s with 1 by lia|subst s ..|replace s with 11 by lia]; by vm_compute.
Qed.

(** What the page shows at once after a repayment on time is what the backend will
    answer, for a borrower whose score is within the ladder's for the loans repaid so
    far: the same score, and the same celebration (the reputation gained, whether the
    score and the group changed, and the new group). *)
Theorem optimistic_update_agrees `{JM : JsMath} (u : User) (n : Z) (Hn : 0 <= n) (Hs : 0 <= current_score u)
    (Hladder : current_score u <= CreditPolicy.score (getStepForOnTimeLoans n)) :
  next_score (current_score u) = on_time_score u (n + 1) /\
  rep_gain n (current_score u) = reputation_gain true (n + 1) (current_score u) (on_time_score u (n + 1)).
Proof.
  rewrite next_score_is_backends by done. split; [done|]. destruct (getStepForOnTimeLoans_value n) as (_ & _ & E & _).
  unfold reputation_gain, rep_gain. cbn zeta. rewrite (proj2 (Z.ltb_lt 0 (n + 1))) by lia. cbn [andb].
  replace (Z.max 0 (n + 1 - 1)) with n by lia. rewrite !label_is_backends; [done|..]; unfold next_score, MAX_CREDIT_LEVEL; lia.
Qed.
