(* ===== verification/CreditLine.v ===== *)
(** * The credit line on the page
      ([frontend/src/hooks/borrow/blockchain/useCreditLine.ts], and [safeRead] of
      [lib/safeRead.ts])

    The limit, the debt, the score, the term and the cooldown of the connected wallet,
    read from the chain when the wallet changes and every fifteen seconds. The events
    are those of the hook and the writes of the other components to the credit store.
    The times and amounts the contracts give are integers; [Date.now()] is one instant
    within one run of synchronous statements. *)

From stdpp Require Import base tactics list strings numbers.
From Stdlib Require Import Lia ZArith Ascii.
From S2P Require Import Prelude JsString JsNum CreditPolicy Async Trace Judgements UsdcFormat PendingQueue Session HookTrace CreditStore.

Local Open Scope Z_scope.

(** ** What the chain answers *)

Record ChainLoan := {
  cl_amount_due : Z;
  cl_start : Z;
  cl_due : Z;
  cl_fee_bps : Z;
  cl_grace_period : Z;
  cl_active : bool;
}.

(** The six reads of the loan manager; a missing value is a read that failed. *)
Record ChainRead := {
  rd_limit : Z;
  rd_limitOk : bool;
  rd_loan : option ChainLoan;
  rd_loanOk : bool;
  rd_score : option Z;
  rd_nextBorrow : Z;
  rd_late : option Z;
  rd_lateOk : bool;
  rd_lateRate : option Z;
  rd_premiumOk : bool;
}.

(** On an EVM chain each read fails or is late by itself. *)
Record EvmReads := {
  ev_limit : result Z;
  ev_loan : result ChainLoan;
  ev_score : result Z;
  ev_nextBorrow : result Z;
  ev_late : result Z;
  ev_lateRate : result Z;
}.

(** On Stellar they fail together. *)
Record StellarCreditLineRead := {
  sl_limit : Z;
  sl_loan : ChainLoan;
  sl_score : Z;
  sl_nextBorrow : Z;
  sl_late : Z;
  sl_lateRate : Z;
}.

(** A read that threw, or was late, gives the fallback. *)
Definition safeRead {A} (r : result A) (fallback : A) : A := match r with Ok a => a | Throw _ => fallback end.

(** [status.ok] of [tracked] *)
Definition completed {A} (r : result A) : bool := match r with Ok _ => true | Throw _ => false end.

Definition some_read {A} (r : result A) : result (option A) := a ← r; Ok (Some a).

Definition read_evm (e : EvmReads) : ChainRead :=
  {| rd_limit := safeRead (ev_limit e) 0; rd_limitOk := completed (ev_limit e);
     rd_loan := safeRead (some_read (ev_loan e)) None; rd_loanOk := completed (ev_loan e);
     rd_score := safeRead (some_read (ev_score e)) None; rd_nextBorrow := safeRead (ev_nextBorrow e) 0;
     rd_late := safeRead (some_read (ev_late e)) None; rd_lateOk := completed (ev_late e);
     rd_lateRate := safeRead (some_read (ev_lateRate e)) None; rd_premiumOk := completed (ev_lateRate e) |}.

Definition read_stellar (s : StellarCreditLineRead) : ChainRead :=
  {| rd_limit := sl_limit s; rd_limitOk := true; rd_loan := Some (sl_loan s); rd_loanOk := true; rd_score := Some (sl_score s);
     rd_nextBorrow := sl_nextBorrow s; rd_late := Some (sl_late s); rd_lateOk := true; rd_lateRate := Some (sl_lateRate s);
     rd_premiumOk := true |}.

(** ** What the page shows *)

Record Line := {
  scoreRaw : option Z;
  scoreDisplay : string;
  limitRaw : option Z;
  borrowedRaw : option Z;
  borrowedDisplay : string;
  limitDisplay : string;
  hasActiveLoan : bool;
  loanStart : option Z;
  loanDue : option Z;
  daysRemaining : option num;
  termDaysTotal : option num;
  termProgressPct : option num;
  loanFeeBps : option Z;
  isAccruingLateFees : bool;
  nextBorrowTimeRaw : option Z;
  cooldownActive : bool;
  cooldownSecondsLeft : option Z;
  cooldownUntil : option Z;
}.

Definition of_max : string := "/" +:+ String_of_int MAX_SCORE.

(** [resetState] *)
Definition blank_line : Line :=
  {| scoreRaw := None; scoreDisplay := "—" +:+ of_max; limitRaw := None; borrowedRaw := None; borrowedDisplay := "—";
     limitDisplay := "—/—"; hasActiveLoan := false; loanStart := None; loanDue := None; daysRemaining := None; termDaysTotal := None;
     termProgressPct := None; loanFeeBps := None; isAccruingLateFees := false; nextBorrowTimeRaw := None; cooldownActive := false;
     cooldownSecondsLeft := None; cooldownUntil := None |}.

(** Of the store, [resetState] takes the score only. *)
Definition reset_score (s : CreditState) : CreditState := setCreditScoreRaw None (setCreditScoreDisplay None s).

(** *** The debt, the term, the cooldown *)

Definition active_loan (rd : ChainRead) : bool := match rd_loan rd with Some l => cl_active l | None => false end.

(** [startTs] and [dueTs], of an active loan with a positive term. *)
Definition term_of (rd : ChainRead) : option (Z * Z) :=
  l ← rd_loan rd; if cl_active l && (cl_start l <? cl_due l) then Some (cl_start l, cl_due l) else None.

Definition debt_of (rd : ChainRead) : Z :=
  let debt := match rd_loan rd with Some l => cl_amount_due l | None => 0 end in
  if active_loan rd && rd_lateOk rd then
    match rd_late rd with Some late => if debt <? late then late else debt | None => debt end
  else debt.

Definition grace_of (rd : ChainRead) : Z := match rd_loan rd with Some l => cl_grace_period l | None => 0 end.

(** [Math.floor(Date.now() / 1000)] *)
Definition now_sec (nowMs : Z) : Z := nowMs / 1000.

(** The badge of late fees, from the one before. *)
Definition accruing (rd : ChainRead) (nowMs : Z) (before : bool) : bool :=
  if active_loan rd && negb (rd_premiumOk rd) then before else
  match active_loan rd, rd_lateRate rd, term_of rd with
  | true, Some rate, Some (_, dueTs) => (0 <? rate) && (dueTs + grace_of rd <? now_sec nowMs)
  | _, _, _ => false
  end.

Definition seconds_per_day : num := num_of_Z 86400.

Definition progress_pct (startTs dueTs nowSec : Z) : num :=
  let totalSec := Z.max (dueTs - startTs) 0 in
  let elapsedSec := Z.max (nowSec - startTs) 0 in
  let progressRaw := if 0 <? totalSec then (num_of_Z elapsedSec / num_of_Z totalSec * num_of_Z 100)%num else num_of_Z 0 in
  nmax (num_of_Z 0) (nmin (num_of_Z 100) progressRaw).

(** *** The score and the limit, with the floors of the store *)

Definition drop_expired (nowMs : Z) (s : CreditState) : CreditState := if expired nowMs s then clearOptimistic s else s.

Definition effectiveLimit (nowMs : Z) (s : CreditState) (limit : Z) : Z :=
  match optimisticLimitRaw (drop_expired nowMs s) with
  | Some floor => if limit <? floor then floor else limit
  | None => limit
  end.

(** [opt] is the state before the expired floor is dropped. *)
Definition shown_score (opt : CreditState) (s : Z) : Z :=
  match optimisticScoreRaw opt with Some floor => if s <? floor then floor else s | None => s end.

Definition score_text (n : Z) : string := of_chars (withThousands (chars (String_of_int n))) +:+ of_max.

(** What one answer does to the store. *)
Definition apply_credit (rd : ChainRead) (nowMs : Z) (opt : CreditState) : CreditState :=
  let s := drop_expired nowMs opt in
  match rd_score rd with
  | Some sc => setCreditScoreDisplay (Some (score_text (shown_score opt sc))) (setCreditScoreRawHwm nowMs (Some sc) s)
  | None => setCreditScoreDisplay None (setCreditScoreRaw None s)
  end.

Section Line.
  Context (decimals : nat).

(** What one answer does to the page. *)
Definition apply_read (rd : ChainRead) (nowMs : Z) (opt : CreditState) (l : Line) : Line :=
  let debt := debt_of rd in
  let borrowedPretty := formatUSDCAmount2dpTruncated decimals (UnitsValue debt) in
  let nowSec := now_sec nowMs in
  let cooling := (0 <? rd_nextBorrow rd) && (nowSec <? rd_nextBorrow rd) in
  {| scoreRaw := rd_score rd;
     scoreDisplay := match rd_score rd with Some s => score_text (shown_score opt s) | None => "—" +:+ of_max end;
     limitRaw := Some (rd_limit rd);
     borrowedRaw := Some debt;
     borrowedDisplay := borrowedPretty;
     limitDisplay := borrowedPretty +:+ "/" +:+ formatUSDCAmount2dp decimals (UnitsValue (effectiveLimit nowMs opt (rd_limit rd))) +:+ " USDC";
     hasActiveLoan := match term_of rd with Some _ => true | None => false end;
     loanStart := (fun '(startTs, _) => startTs * 1000) <$> term_of rd;
     loanDue := (fun '(_, dueTs) => dueTs * 1000) <$> term_of rd;
     daysRemaining := (fun '(_, dueTs) => num_of_Z (dueTs - nowSec) / seconds_per_day)%num <$> term_of rd;
     termDaysTotal := (fun '(startTs, dueTs) => num_of_Z (Z.max (dueTs - startTs) 0) / seconds_per_day)%num <$> term_of rd;
     termProgressPct := (fun '(startTs, dueTs) => progress_pct startTs dueTs nowSec) <$> term_of rd;
     loanFeeBps := match rd_loan rd with Some cl => if active_loan rd then Some (cl_fee_bps cl) else None | None => loanFeeBps l end;
     isAccruingLateFees := accruing rd nowMs (isAccruingLateFees l);
     nextBorrowTimeRaw := Some (rd_nextBorrow rd);
     cooldownActive := cooling;
     cooldownSecondsLeft := if cooling then Some (rd_nextBorrow rd - nowSec) else None;
     cooldownUntil := if cooling then Some (rd_nextBorrow rd * 1000) else None |}.
End Line.

(** ** The hook *)

(** What the other components do to the store. *)
Inductive credit_write :=
  | WHwm (nowMs : Z) (value : option Z)
  | WOptimistic (score limit untilMs : Z)
  | WDisplay (value : option string)
  | WRaw (value : option Z)
  | WReset.

Definition write_credit (w : credit_write) : CreditState -> CreditState :=
  match w with
  | WHwm nowMs value => setCreditScoreRawHwm nowMs value
  | WOptimistic score limit untilMs => setOptimistic score limit untilMs
  | WDisplay value => setCreditScoreDisplay value
  | WRaw value => setCreditScoreRaw value
  | WReset => reset_credit
  end.

Inductive line_event :=
  | LIdentity (id : option string)
  | LReset
  | LLoading (b : bool)
  | LError (e : option string)
  | LRead (addr : string) (r : result ChainRead)
  | LApplied (id : string) (rd : ChainRead) (nowMs : Z)
  | LCredit (w : credit_write).

(** What the contracts answer, the clock, and the translations. *)
Class LineOutside := {
  line_evm : list line_event -> string -> EvmReads;
  line_stellar : list line_event -> string -> result StellarCreditLineRead;
  line_now : list line_event -> Z;
  line_decimals : nat;
  line_text : string -> string;
}.

Record LineProps := {
  li_mode : WalletMode;
  li_connectedAddress : option string;
  li_primaryWallet : option string;
  li_clm : bool;
}.

(** [userAddress] *)
Definition userAddress (p : LineProps) : option string :=
  let raw := if bool_decide (li_mode p = stellar) then li_primaryWallet p
             else match li_connectedAddress p with Some a => Some a | None => li_primaryWallet p end in
  normalizeWalletAddress raw (Some (mode_name (li_mode p))).

(** [creditLineIdentity] *)
Definition identity_of (m : WalletMode) (addr : string) : string := mode_name m +:+ ":" +:+ addr.

Definition creditLineIdentity (p : LineProps) : option string := identity_of (li_mode p) <$> userAddress p.

Section Hook.
  Context `{OUT : LineOutside}.

Definition credit_step (e : line_event) (s : CreditState) : CreditState :=
  match e with
  | LIdentity _ | LReset => reset_score s
  | LApplied _ rd nowMs => apply_credit rd nowMs s
  | LCredit w => write_credit w s
  | _ => s
  end.

(** The page and the store: an answer is shown with the floors of its time. *)
Definition page_step (e : line_event) (x : Line * CreditState) : Line * CreditState :=
  (match e with
   | LIdentity _ | LReset => blank_line
   | LApplied _ rd nowMs => apply_read line_decimals rd nowMs (snd x) (fst x)
   | _ => fst x
   end, credit_step e (snd x)).

Definition page : list line_event -> Line * CreditState := value_of page_step (blank_line, no_credit).

Definition line (t : list line_event) : Line := fst (page t).
Definition credit_store (t : list line_event) : CreditState := snd (page t).

(** [activeIdentityRef] *)
Definition activeIdentity : list line_event -> option string :=
  value_of (fun e x => match e with LIdentity id => id | _ => x end) None.

Definition line_loading : list line_event -> bool := value_of (fun e x => match e with LLoading b => b | _ => x end) false.
Definition line_error : list line_event -> option string := value_of (fun e x => match e with LError v => v | _ => x end) None.

(** The effect of a new identity. *)
Definition identity_effect (p : LineProps) : proc (list line_event) unit := notes [LIdentity (creditLineIdentity p)].

(** The reads of one run; a contract that cannot be called throws. *)
Definition chain_read (m : WalletMode) (addr : string) : proc (list line_event) ChainRead :=
  if bool_decide (m = stellar) then ask (fun t => s ← line_stellar t addr; Ok (read_stellar s)) (LRead addr)
  else ask (fun t => Ok (read_evm (line_evm t addr))) (LRead addr).

Definition still (id : string) (t : list line_event) : bool := bool_decide (activeIdentity t = Some id).

(** The statements after the reads. *)
Definition show_read (id : string) (rd : ChainRead) (t : list line_event) : list line_event :=
  if negb (still id t) then [] else
  if negb (rd_limitOk rd) || negb (rd_loanOk rd) then [] else [LApplied id rd (line_now t)].

Definition read_failed (id : string) (e : exn) (t : list line_event) : list line_event :=
  if still id t then [LError (Some (exn_message e))] else [].

Definition read (p : LineProps) : proc (list line_event) unit :=
  match userAddress p with
  | None => notes [LReset]
  | Some addr =>
      if negb (bool_decide (li_mode p = stellar)) && negb (li_clm p) then
        notes [LError (Some (line_text "hooks.useCreditLine.errors.clmUnavailable")); LReset]
      else
        let id := identity_of (li_mode p) addr in
        _ ← notes [LLoading true; LError None];
        finally_do
          (proc_try (fun e => change (read_failed id e)) (rd ← chain_read (li_mode p) addr; change (show_read id rd)))
          (fun t => if still id t then [LLoading false] else [])
  end.

(** What the hook and the rest of the page do. *)
Inductive line_action :=
  | ANewIdentity (p : LineProps)
  | ARead (p : LineProps)
  | AWrite (w : credit_write).

Definition line_act (a : line_action) : proc (list line_event) unit :=
  match a with
  | ANewIdentity p => identity_effect p
  | ARead p => read p
  | AWrite w => notes [LCredit w]
  end.
End Hook.

(** * Properties of the credit line on the page

    The page shows nothing, or what the contracts answered for the wallet that is
    connected now, however the answers and the changes of wallet interleave. The badge
    of late fees does not go out by itself, the debt shown is at least the stored one,
    and where the floors of the store show. *)

Section Own.
  Context `{OUT : LineOutside}.

(** The contracts answered this for that identity. *)
Definition answered (t : list line_event) (id : string) (rd : ChainRead) : Prop :=
  exists m addr, id = identity_of m addr /\ LRead addr (Ok rd) ∈ t.

(** What comes of a blank page and answers for one identity. *)
Inductive shown_for (ans : ChainRead -> Prop) : Line -> Prop :=
  | shown_blank : shown_for ans blank_line
  | shown_read rd nowMs opt l : ans rd -> shown_for ans l -> shown_for ans (apply_read line_decimals rd nowMs opt l).

(** The page is blank, or made of answers for the wallet connected now. *)
Definition own_line (t : list line_event) : Prop :=
  line t = blank_line \/ exists id, activeIdentity t = Some id /\ shown_for (answered t id) (line t).

Lemma shown_for_mono (a b : ChainRead -> Prop) l : (forall rd, a rd -> b rd) -> shown_for a l -> shown_for b l.
Proof. intros H. induction 1; constructor; auto. Qed.

Lemma answered_grows t t' id rd : t `prefix_of` t' -> answered t id rd -> answered t' id rd.
Proof. intros [k ->] (m & addr & -> & H). exists m, addr. split; [done|]. apply elem_of_app. by left. Qed.

Lemma line_snoc t e : line (t ++ [e]) = fst (page_step e (page t)).
Proof. unfold line, page. by rewrite value_of_app. Qed.

Lemma active_snoc t e : activeIdentity (t ++ [e]) = match e with LIdentity id => id | _ => activeIdentity t end.
Proof. unfold activeIdentity. by rewrite value_of_app. Qed.

(** An event keeps the page, blanks it, or shows an answer for the connected wallet. *)
Lemma own_line_snoc t e :
  (forall id rd nowMs, e = LApplied id rd nowMs -> activeIdentity t = Some id /\ answered t id rd) -> own_line t -> own_line (t ++ [e]).
Proof.
  intros He Ht. unfold own_line. rewrite line_snoc, active_snoc.
  assert (Hkept : line t = blank_line \/ exists id, activeIdentity t = Some id /\ shown_for (answered (t ++ [e]) id) (line t)).
  { destruct Ht as [?|(id & ? & Hs)]; [by left|right]. exists id. split; [done|]. eapply shown_for_mono; [|exact Hs].
    intros rd. by apply answered_grows, prefix_app_r. }
  destruct e as [id| | | | |id rd nowMs|]; cbn [page_step fst]; try exact Hkept; [by left..|].
  destruct (He id rd nowMs eq_refl) as [Ha Hans]. right. exists id. split; [done|]. apply shown_read.
  - eapply answered_grows; [|exact Hans]. by apply prefix_app_r.
  - fold (line t). destruct Hkept as [->|(id' & Ha' & Hs)]; [apply shown_blank|]. rewrite Ha in Ha'. by injection Ha' as <-.
Qed.

(** Events that show no answer. *)
Definition quiet_event (e : line_event) : bool := match e with LApplied _ _ _ => false | _ => true end.

Lemma own_line_quiet t es : forallb quiet_event es = true -> own_line t -> own_line (t ++ es).
Proof.
  revert t. induction es as [|e es IH]; intros t; [by rewrite app_nil_r|]. cbn. intros [He Hes]%andb_prop Ht.
  rewrite cons_middle, app_assoc. apply IH; [done|]. apply own_line_snoc; [|done]. by intros id rd nowMs ->.
Qed.

Lemma upholds_quiet K es : lasting K -> forallb quiet_event es = true -> upholds own_line K (notes es).
Proof. intros HK Hes. apply upholds_notes; [done|]. intros t Ht _. by apply own_line_quiet. Qed.

Lemma upholds_quiet_change K f : lasting K -> (forall t, forallb quiet_event (f t) = true) -> upholds own_line K (change f).
Proof. intros HK Hf. apply upholds_change; [done|]. intros t Ht _. by apply own_line_quiet. Qed.

Lemma lasting_line_answer id rd : lasting (fun t => answered t id rd).
Proof. intros t t' Ht. by apply answered_grows. Qed.

Lemma upholds_show id rd : upholds own_line (fun t => answered t id rd) (change (show_read id rd)).
Proof.
  apply upholds_change; [apply lasting_line_answer|]. intros t Ht Hans. unfold show_read, still.
  case_bool_decide as Ha; cbn [negb]; [|by rewrite app_nil_r].
  destruct (negb (rd_limitOk rd) || negb (rd_loanOk rd)); [by rewrite app_nil_r|]. apply own_line_snoc; [|done]. by intros ? ? ? [= <- <- <-].
Qed.

Lemma gives_chain_read m addr : gives own_line (fun _ => True) (fun t rd => answered t (identity_of m addr) rd) (chain_read m addr).
Proof.
  unfold chain_read. case_bool_decide.
  all: eapply gives_mono; [| |apply (gives_ask _ _ (LRead addr) (fun _ => True)); [apply lasting_true|]]; [done| |].
  all: try (intros t a (_ & g & Hg & ->); by exists m, addr).
  all: intros t r Ht _; apply own_line_snoc; [by intros|done].
Qed.

Lemma upholds_read p : upholds own_line (fun _ => True) (read p).
Proof.
  unfold read. destruct (userAddress p) as [addr|]; [|by apply upholds_quiet; [apply lasting_true|]].
  destruct (negb _ && negb _); [by apply upholds_quiet; [apply lasting_true|]|]. cbn zeta.
  apply upholds_bind; [apply lasting_true|by apply upholds_quiet; [apply lasting_true|]|]. intros _.
  apply upholds_finally_do; [apply lasting_true|intros t Ht _; destruct (still _ t); by apply own_line_quiet|].
  apply upholds_try; [apply lasting_true| |].
  - eapply gives_bind; [apply gives_chain_read|]. intros rd. apply upholds_show.
  - intros e. apply upholds_quiet_change; [apply lasting_true|]. intros t. unfold read_failed. by destruct (still _ t).
Qed.

Lemma upholds_line_act a : upholds own_line (fun _ => True) (line_act a).
Proof. destruct a as [p|p|w]; [|by apply upholds_read|]; by apply upholds_quiet; [apply lasting_true|]. Qed.

(** C30. However the reads of the credit line, their answers, the changes of wallet and
    the other components interleave, what the page shows is blank or comes of answers
    the contracts gave for the wallet that is connected now: an answer for a wallet
    that was connected before is dropped. *)
Theorem line_of_connected_wallet (acts : list line_action) (ps : list (proc (list line_event) unit)) (t : list line_event)
    (Hrun : steps pool_step (map line_act acts, []) (ps, t)) : own_line t.
Proof.
  apply (upholds_pool own_line (map line_act acts) [] (ps, t)); [done| |by left].
  apply Forall_map, Forall_true. intros a. apply upholds_line_act.
Qed.
End Own.

(** ** Late fees and debt *)

(** The terms of the loan, which accruing the late fees leaves alone. *)
Definition same_terms (l l' : ChainLoan) : Prop :=
  cl_start l = cl_start l' /\ cl_due l = cl_due l' /\ cl_grace_period l = cl_grace_period l' /\ cl_active l = cl_active l'.

(** Once a loan is known to accrue late fees the badge stays on: later reads of the
    same loan keep it, whatever the amounts are by then and whether the fees have been
    accrued in the contract, and when the read of the rate fails. *)
Theorem late_badge_steady (rd rd' : ChainRead) (l l' : ChainLoan) (rate' now now' : Z) (before : bool)
    (Hl : rd_loan rd = Some l) (Hl' : rd_loan rd' = Some l') (Hterms : same_terms l l')
    (Hrate : rd_premiumOk rd' = true -> rd_lateRate rd' = Some rate' /\ 0 < rate')
    (Hnow : now <= now') (Hon : accruing rd now before = true) (Hread : rd_premiumOk rd = true) :
  accruing rd' now' true = true.
Proof.
  destruct Hterms as (Hs & Hd & Hg & Ha). unfold accruing, active_loan, term_of, grace_of in *. rewrite Hl in Hon. rewrite Hl'.
  cbn [mbind option_bind] in *. rewrite Hread, <- Hs, <- Hd, <- Hg, <- Ha in *. destruct (cl_active l); [|done]. cbn [negb andb] in *.
  destruct (rd_premiumOk rd'); [|done]. cbn [negb]. destruct (Hrate eq_refl) as [-> Hpos]. destruct (rd_lateRate rd) as [rate|]; [|done].
  destruct (cl_start l <? cl_due l); [|done]. unfold now_sec in *. pose proof (Z.div_le_mono now now' 1000). lia.
Qed.

(** The debt shown is the stored one, or the contract's preview where that is more. *)
Theorem debt_shown (rd : ChainRead) (l : ChainLoan) (Hl : rd_loan rd = Some l) :
  cl_amount_due l <= debt_of rd /\
  forall late, cl_active l = true -> rd_lateOk rd = true -> rd_late rd = Some late -> debt_of rd = Z.max (cl_amount_due l) late.
Proof.
  unfold debt_of, active_loan. rewrite Hl. split.
  - destruct (cl_active l && rd_lateOk rd); [|done]. destruct (rd_late rd) as [late|]; [|done]. destruct (Z.ltb_spec (cl_amount_due l) late); lia.
  - intros late -> -> ->. cbn [andb]. destruct (Z.ltb_spec (cl_amount_due l) late); lia.
Qed.

(** ** The floors of the store on the page *)

Definition after_repayment (prevScore now : Z) (s : CreditState) : CreditState :=
  setOptimistic (next_score prevScore) (next_limit (next_score prevScore)) (now + OPTIMISTIC_TTL_MS) s.

(** While the floor holds, the limit shown is at least the next tier's, in units of six
    decimals. *)
Theorem limit_floor_shown (prevScore now nowMs limit : Z) (s : CreditState) (Hnow : nowMs <= now + OPTIMISTIC_TTL_MS) :
  effectiveLimit nowMs (after_repayment prevScore now s) limit = Z.max limit (next_limit (next_score prevScore)).
Proof.
  unfold effectiveLimit, drop_expired, expired, after_repayment. cbn [optimisticUntil setOptimistic].
  rewrite (proj2 (Z.ltb_ge _ _)) by done. cbn [optimisticLimitRaw setOptimistic].
  destruct (Z.ltb_spec limit (next_limit (next_score prevScore))); lia.
Qed.

(** Finding. On Stellar, where a unit is a ten-millionth, the floor is below the limit the
    borrower has already, so it never shows. *)
Theorem stellar_limit_not_raised (prevScore now nowMs limit : Z) (s : CreditState)
    (Hscore : 1 <= prevScore) (Hlimit : CreditStore.tier_limitUsdc (getTierForScore prevScore) * 10 ^ 7 <= limit)
    (Hnow : nowMs <= now + OPTIMISTIC_TTL_MS) :
  effectiveLimit nowMs (after_repayment prevScore now s) limit = limit.
Proof.
  rewrite limit_floor_shown by done. enough (next_limit (next_score prevScore) <= CreditStore.tier_limitUsdc (getTierForScore prevScore) * 10 ^ 7) by lia.
  clear Hlimit. rewrite (tier_of_clamped prevScore).
  replace (next_score prevScore) with (next_score (Z.max 1 (Z.min 11 prevScore))) by (unfold next_score, MAX_CREDIT_LEVEL; lia).
  assert (Hr : 1 <= Z.max 1 (Z.min 11 prevScore) <= 11) by lia. generalize dependent (Z.max 1 (Z.min 11 prevScore)). intros k Hk.
  score_cases k; try lia; [replace k with 1 by lia|subst k ..|replace k with 11 by lia]; vm_compute; by intros [=].
Qed.

(** Finding. When the floor has run out, the next answer settles the score but shows the
    floor once more. *)
Theorem shown_after_floor (floor limit until nowMs v : Z) (rd : ChainRead) (s : CreditState)
    (Hv : rd_score rd = Some v) (Hlate : until < nowMs) (Hlow : v < floor) :
  let s' := apply_credit rd nowMs (setOptimistic floor limit until s) in
  creditScoreRaw s' = Some v /\ creditScoreDisplay s' = Some (score_text floor).
Proof.
  unfold apply_credit, drop_expired, expired, shown_score. cbn [setOptimistic optimisticUntil optimisticScoreRaw]. rewrite Hv.
  rewrite (proj2 (Z.ltb_lt until nowMs)), (proj2 (Z.ltb_lt v floor)) by done. done.
Qed.

(** ** Concrete runs *)

Definition due_loan : ChainLoan :=
  {| cl_amount_due := 10500000; cl_start := 1700000000; cl_due := 1702592000; cl_fee_bps := 500; cl_grace_period := 86400; cl_active := true |}.

(** What a chain where every read works answers. *)
Definition all_reads : EvmReads :=
  {| ev_limit := Ok 10000000; ev_loan := Ok due_loan; ev_score := Ok 6; ev_nextBorrow := Ok 0; ev_late := Ok 10510000; ev_lateRate := Ok 19290123457 |}.

Definition at_night : LineOutside := {|
  line_evm _ _ := all_reads; line_stellar _ _ := Throw (PlainError "no contract"); line_now _ := 1703000000000; line_decimals := 6%nat; line_text key := key |}.

Definition line_of (addr : option string) : LineProps :=
  {| li_mode := webapp; li_connectedAddress := addr; li_primaryWallet := None; li_clm := true |}.

Definition ana_address : string := "0x00000000000000000000000000000000000000aa".
Definition eva_address : string := "0x00000000000000000000000000000000000000bb".

Definition two_wallets : list line_action :=
  [ANewIdentity (line_of (Some ana_address)); ARead (line_of (Some ana_address)); ANewIdentity (line_of (Some eva_address));
   ARead (line_of (Some eva_address))].

(** The wallet changes during the first read, whose answer comes last. *)
Definition late_answer_order : list nat := [0; 1; 1; 2; 3; 3; 3; 3; 1; 1; 1; 1]%nat.

Lemma line_of_connected_wallet_witness :
  let t := snd (run_schedule late_answer_order (map (line_act (OUT := at_night)) two_wallets, [])) in
  activeIdentity t = Some ("webapp:" +:+ eva_address)%string /\ borrowedDisplay (line (OUT := at_night) t) = "10.51"%string /\
  own_line (OUT := at_night) t.
Proof.
  cbv zeta. split; [vm_compute; reflexivity|]. split; [vm_compute; reflexivity|].
  eapply (line_of_connected_wallet (OUT := at_night) two_wallets (fst (run_schedule late_answer_order (map (line_act (OUT := at_night)) two_wallets, [])))).
  rewrite <- surjective_pairing. apply run_schedule_steps.
Defined.

Definition read_at (amount late : Z) (premium : bool) : ChainRead :=
  {| rd_limit := 10000000; rd_limitOk := true;
     rd_loan := Some {| cl_amount_due := amount; cl_start := 1700000000; cl_due := 1702592000; cl_fee_bps := 500; cl_grace_period := 86400; cl_active := true |};
     rd_loanOk := true; rd_score := Some 6; rd_nextBorrow := 0; rd_late := Some late; rd_lateOk := true;
     rd_lateRate := if premium then Some 19290123457 else None; rd_premiumOk := premium |}.

(** The fees are accrued in the contract, and then the read of the rate fails. *)
Lemma late_badge_steady_witness :
  accruing (read_at 10500000 10510000 true) 1703000000000 false = true /\ accruing (read_at 10510000 10510000 false) 1703000060000 true = true.
Proof.
  split; [vm_compute; reflexivity|].
  apply (late_badge_steady (read_at 10500000 10510000 true) (read_at 10510000 10510000 false) _ _ 19290123457 1703000000000 1703000060000 false
           eq_refl eq_refl); [done|discriminate|lia|vm_compute; reflexivity|reflexivity].
Defined.

(** A wallet goes during its read: the page waits for ever. *)
Example waits_for_ever :
  let c := run_schedule [0; 1; 2; 3; 1; 1; 1; 1]%nat
             (map (line_act (OUT := at_night)) [ANewIdentity (line_of (Some ana_address)); ARead (line_of (Some ana_address));
                ANewIdentity (line_of None); ARead (line_of None)], []) in
  forallb (fun p => match p with Return _ => true | _ => false end) (fst c) = true /\ activeIdentity (snd c) = None /\ line_loading (snd c) = true.
Proof. vm_compute. done. Qed.
