(* ===== verification/Payment.v ===== *)
(** * Sending a transaction from the page, borrowing and repaying
      ([sendContractTx] and [sendBatchContractTx] of
      [frontend/src/providers/ContractsProvider.tsx], the transactions of
      [lib/stellar-contracts.ts], and [submit] of
      [hooks/borrow/blockchain/useBorrow.ts] and [useRepay.ts])

    Inside the Lemon app a call goes to its SDK, in a browser to the connected wallet, on
    Stellar to the client of the vault. The hooks that borrow and repay share its trace. *)

From stdpp Require Import base tactics list strings numbers.
From Stdlib Require Import Lia ZArith Ascii.
From S2P Require Import Prelude JsString JsNum AmountUnits CreditPolicy Async Trace Judgements UsdcFormat PendingQueue Recovery Session HookTrace CreditStore.

Local Open Scope Z_scope.

(** ** Data *)

(** The members of [TxInputs] that borrowing and repaying give. *)
Record TxInputs := {
  contractAddress : string;
  abi : string;
  functionName : string;
  functionParams : list string;
  tx_value : string;
}.

Inductive LemonTxResult := LemonSUCCESS | LemonPENDING | LemonCANCELLED | LemonFAILED.

(** [error], with its message and code, and as text. *)
Record LemonError := { le_message : option string; le_code : option string; le_text : string }.

Record LemonAnswer := { la_result : LemonTxResult; la_txHash : option string; la_error : option LemonError }.

(** The wallet of the browser. *)
Record WalletClient := { wc_account : bool; wc_chainId : option Z }.

(** What the provider knows. *)
Record Contracts := {
  co_mode : WalletMode;
  co_walletClient : option WalletClient;
  co_chainId : option Z;
  co_lemonChainId : option Z;
  co_usdcAddress : option string;
  co_expectedChain : option string;
}.

(** One contract of a Lemon payload. *)
Record LemonContract := {
  lc_contractAddress : string;
  lc_functionName : string;
  lc_functionParams : list string;
  lc_value : string;
  lc_contractStandard : option string;
  lc_chainId : Z;
}.

Inductive ErrorCode := CodeNumber (n : Z) | CodeText (s : string).

Inductive StellarCall :=
  | BorrowWithTerm (borrower : string) (amount tenorDays feeBps : Z)
  | RepayPartial (payer borrower : string) (amount : Z).

(** The hashes of the two answers of [signAndSend]. *)
Record Sent := { se_getHash : option string; se_sendHash : option string }.

(** What the provider and the hooks do. *)
Inductive pay_event :=
  | PLemon (contracts : list LemonContract) (r : result LemonAnswer)
  | PLemonLogged (tag : string) (r : LemonAnswer)
  | PWallet (t : TxInputs) (r : result string)
  | PStellar (c : StellarCall) (r : result Sent)
  | POwed (borrower : string) (r : result Z)
  | PPreflight (wallet : string) (r : result Z)
  | PBalance (owner : string) (r : result Z)
  | PAllowance (owner spender : string) (r : result Z)
  | PController (user vault : string) (r : result bool)
  | PSubmitting (b : bool)
  | PLoading
  | PDismiss
  | PToast (kind : Toast) (title : string) (description link : option string)
  | PWait (ms : Z)
  | PRefresh (r : result unit).

(** The SDK, the wallet, the contracts and the backend; the encoder of calls, and what
    the errors of the wallets carry. *)
Class PayOutside := {
  lemonCallSmartContract : list pay_event -> list LemonContract -> result LemonAnswer;
  sendTransaction : list pay_event -> TxInputs -> result string;
  encodeFunctionData : TxInputs -> result string;
  stellar_send : list pay_event -> StellarCall -> result Sent;
  preview_owed : list pay_event -> string -> result Z;
  err_short : exn -> option string;
  err_code : exn -> option ErrorCode;
  err_string : exn -> string;
  err_data : exn -> option string;
  err_evm : exn -> string;
  parseUnits : string -> nat -> result Z;
  api_preflight_force : list pay_event -> string -> result Z;
  usdc_balanceOf : list pay_event -> string -> result Z;
  usdc_allowance : list pay_event -> string -> string -> result Z;
  isControllerEnabled : list pay_event -> string -> string -> result bool;
  contracts_refresh : list pay_event -> result unit;
  pay_now : list pay_event -> Z;
  pay_text : string -> list string -> string;
  lemon_CELO : Z;
}.

Definition or_text (a b : string) : string := if bool_decide (a = ""%string) then b else a.
Definition text_or (a : option string) (b : string) : string := match a with Some s => or_text s b | None => b end.

(** From the setting [VITE_EXPECTED_CHAIN_ID]. *)
Definition EXPECTED_CHAIN_ID (setting : option string) : num :=
  let raw := default ""%string (trim <$> setting) in
  let n := if bool_decide (raw = ""%string) then SpecFloat.S754_nan else Number_of_string raw in
  if isFinite n then n else num_of_Z 8453.

Section Wallet.
  Context `{OUT : PayOutside}.

(** ** The Lemon app *)

Definition same_address (a b : string) : bool := bool_decide (toLowerCase a = toLowerCase b).

(** A call of the token is marked as one of an ERC-20. *)
Definition lemon_contract (c : Contracts) (t : TxInputs) : LemonContract :=
  let usdcAddr := default ""%string (co_usdcAddress c) in
  let isUsdcContract := negb (bool_decide (usdcAddr = ""%string)) && same_address (contractAddress t) usdcAddr in
  {| lc_contractAddress := contractAddress t; lc_functionName := functionName t; lc_functionParams := functionParams t;
     lc_value := tx_value t; lc_contractStandard := if isUsdcContract then Some "ERC20"%string else None;
     lc_chainId := default (default lemon_CELO (co_lemonChainId c)) (co_chainId c) |}.

Definition lemon_error_text (res : LemonAnswer) : string :=
  match la_error res with
  | None => "Transaction failed"
  | Some e => text_or (le_message e) (text_or (le_code e) (or_text (le_text e) "Transaction failed"))
  end.

Definition lemon_failed {A} (res : LemonAnswer) : proc (list pay_event) A :=
  match la_result res with
  | LemonCANCELLED => Raise (PlainError "Transaction cancelled")
  | _ => Raise (PlainError (lemon_error_text res))
  end.

Definition taken (res : LemonAnswer) : bool :=
  match la_result res with LemonSUCCESS | LemonPENDING => true | _ => false end.

Definition lemon_call (c : Contracts) (tag : string) (txs : list TxInputs) : proc (list pay_event) LemonAnswer :=
  let contracts := map (lemon_contract c) txs in
  res ← ask (fun t => lemonCallSmartContract t contracts) (PLemon contracts);
  _ ← notes [PLemonLogged tag res];
  Return res.

(** ** The wallet of the browser *)

Definition gas_error (text : string) (code : option ErrorCode) : bool :=
  includes text "insufficient funds" || includes text "insufficient balance" || includes text "funds for gas"
  || includes text "funds to cover gas" || match code with Some (CodeText s) => bool_decide (s = "INSUFFICIENT_FUNDS"%string) | _ => false end.

Definition rejected (text : string) (code : option ErrorCode) : bool :=
  match code with Some (CodeNumber n) => n =? 4001 | _ => false end
  || includes text "user rejected" || includes text "user denied" || includes text "user rejected the request".

Definition blocked (text : string) : bool :=
  includes text "security" || includes text "scan" || includes text "malicious" || includes text "risk".

Definition NO_GAS : string :=
  "No tenés suficiente CELO para pagar el gas de esta transacción. Enviate un poco de CELO a esta wallet y volvé a intentar.".
Definition FARCASTER_REJECTED : string :=
  "La wallet de Farcaster frenó la transacción. Muchas veces pasa cuando no hay CELO suficiente para pagar las fees o cuando el escaneo de seguridad la bloquea. Revisá que tengas CELO para gas y probá de nuevo.".
Definition FARCASTER_BLOCKED : string :=
  "La transacción fue frenada por el sistema de seguridad de la wallet. Si creés que es un falso positivo, revisá los detalles en la app y probá más tarde.".

(** [exposeError] *)
Definition exposed (e : exn) : string := or_text (exn_message e) (err_string e).

Definition wallet_error (m : WalletMode) (e : exn) : string :=
  let rawMsg := exposed e in
  let short := text_or (err_short e) (or_text (exn_message e) rawMsg) in
  let text := toLowerCase (short +:+ " " +:+ rawMsg) in
  if gas_error text (err_code e) then NO_GAS
  else if bool_decide (m = farcaster) && rejected text (err_code e) then FARCASTER_REJECTED
  else if bool_decide (m = farcaster) && blocked text then FARCASTER_BLOCKED
  else or_text short (or_text rawMsg "Tx failed").

Definition wallet_ready (c : Contracts) : result unit :=
  match co_walletClient c with
  | Some wc =>
      if negb (wc_account wc) then Throw (PlainError "No wallet connected. Conectá tu wallet para firmar la transacción.") else
      match wc_chainId wc with
      | Some actual =>
          if neqb (num_of_Z actual) (EXPECTED_CHAIN_ID (co_expectedChain c)) then Ok tt
          else Throw (PlainError "Red equivocada: cambiá a la chain esperada para firmar.")
      | None => Ok tt
      end
  | None => Throw (PlainError "No wallet connected. Conectá tu wallet para firmar la transacción.")
  end.

Definition encode (t : TxInputs) : result string :=
  match encodeFunctionData t with
  | Ok data => Ok data
  | Throw e => Throw (PlainError ("No se pudo armar la transacción: " +:+ exposed e))
  end.

(** The hash is there once the wallet has taken the transaction. *)
Definition wallet_tx (c : Contracts) (t : TxInputs) : proc (list pay_event) string :=
  _ ← of_result (wallet_ready c);
  _ ← of_result (encode t);
  proc_try (fun e => Raise (PlainError (wallet_error (co_mode c) e))) (ask (fun s => sendTransaction s t) (PWallet t)).

(** ** One call, and several *)

Definition sendContractTx (c : Contracts) (t : TxInputs) : proc (list pay_event) string :=
  match co_mode c with
  | lemon =>
      res ← lemon_call c "callSmartContract" [t];
      match la_txHash res with
      | Some h => if taken res && negb (bool_decide (h = ""%string)) then Return h else lemon_failed res
      | None => lemon_failed res
      end
  | stellar => Raise (PlainError "Stellar transaction signing is not wired for this EVM contract call yet.")
  | _ => wallet_tx c t
  end.

Definition sendBatchContractTx (c : Contracts) (txs : list TxInputs) : proc (list pay_event) (list string) :=
  match txs with
  | [] => Return []
  | _ =>
      match co_mode c with
      | lemon =>
          res ← lemon_call c "callSmartContract.batch" txs;
          if taken res then
            Return match la_txHash res with Some h => if bool_decide (h = ""%string) then [] else [h] | None => [] end
          else lemon_failed res
      | stellar => Raise (PlainError "Stellar batch transaction signing is not wired for these EVM contract calls yet.")
      | _ => pmap (sendContractTx c) txs
      end
  end.

(** ** Stellar *)

(** [sent.getTransactionResponse?.txHash ?? sent.sendTransactionResponse?.hash] *)
Definition sent_hash (s : Sent) : result string :=
  let hash := match se_getHash s with Some h => Some h | None => se_sendHash s end in
  if has_text hash then Ok (default ""%string hash)
  else Throw (PlainError "Stellar transaction submitted without a transaction hash").

Definition stellarBorrowWithTerm (borrower : string) (amount tenorDays feeBps : Z) : proc (list pay_event) string :=
  let call := BorrowWithTerm borrower amount tenorDays feeBps in
  sent ← ask (fun t => stellar_send t call) (PStellar call);
  of_result (sent_hash sent).

Definition cushion : Z := 100000.

(** What is owed now, and a cushion that comes back. *)
Definition stellarRepay (payer borrower : string) : proc (list pay_event) string :=
  owed ← ask (fun t => preview_owed t borrower) (POwed borrower);
  let call := RepayPartial payer borrower (owed + cushion) in
  sent ← ask (fun t => stellar_send t call) (PStellar call);
  of_result (sent_hash sent).
End Wallet.

(** * Borrowing and repaying from the page
      ([submit] of [frontend/src/hooks/borrow/blockchain/useBorrow.ts] and
      [useRepay.ts])

    The amount is checked, the transaction sent, the page updated before any answer, and
    the backend informed ([Recovery]); what the backend could not be told stays in the
    queue of the browser. *)

(** ** The world: the browser, what the page shows, and what was done *)

Record PayWorld := { py_browser : Browser; py_shown : Shown; py_log : list pay_event }.

Definition set_browser (b : Browser) (w : PayWorld) : PayWorld := {| py_browser := b; py_shown := py_shown w; py_log := py_log w |}.
Definition set_log (l : list pay_event) (w : PayWorld) : PayWorld := {| py_browser := py_browser w; py_shown := py_shown w; py_log := l |}.
Definition set_shown (s : Shown) (w : PayWorld) : PayWorld := {| py_browser := py_browser w; py_shown := s; py_log := py_log w |}.

Definition on_log {A} (p : proc (list pay_event) A) : proc PayWorld A := zoom py_log set_log p.
Definition on_browser {A} (p : proc Browser A) : proc PayWorld A := zoom py_browser set_browser p.

Definition says (es : list pay_event) : proc PayWorld unit := on_log (notes es).

(** What the hooks are given. *)
Record PayProps := {
  ph_contracts : Contracts;
  ph_isLemonMiniApp : bool;
  ph_connectedAddress : option string;
  ph_primaryWallet : option string;
  ph_evault : option string;
  ph_usdc : bool;
  ph_usdcDecimals : option nat;
  ph_controller : bool;
  ph_controllerAddress : option string;
  ph_requireController : bool;
  ph_limitRaw : option Z;
  ph_borrowedRaw : option Z;
  ph_chainDecimals : nat;
}.

Definition ph_mode (p : PayProps) : WalletMode := co_mode (ph_contracts p).
Definition on_stellar (p : PayProps) : bool := bool_decide (ph_mode p = stellar).

(** [userAddress] of [useRepay] and of [useBorrow]. *)
Definition repay_user (p : PayProps) : option string :=
  if on_stellar p then ph_primaryWallet p else match ph_connectedAddress p with Some a => Some a | None => ph_primaryWallet p end.

Definition borrowing_user (p : PayProps) : option string :=
  if on_stellar p then ph_primaryWallet p
  else if ph_isLemonMiniApp p then match ph_connectedAddress p with Some a => Some a | None => ph_primaryWallet p end
  else match ph_primaryWallet p with Some a => Some a | None => ph_connectedAddress p end.

(** The address to pay with, and its normal form for the backend. *)
Definition setup (user : option string) (p : PayProps) (contracts : bool) : option (string * string) :=
  if has_text user && (on_stellar p || contracts) then
    match user, normalizeWalletAddress user (Some (mode_name (ph_mode p))) with
    | Some u, Some w => Some (u, w)
    | _, _ => None
    end
  else None.

Definition evault_of (p : PayProps) : string := default ""%string (ph_evault p).
Definition usdc_of (p : PayProps) : string := default ""%string (co_usdcAddress (ph_contracts p)).

Definition stellarTxExplorerUrl (txHash : string) : string := "https://stellar.expert/explorer/testnet/tx/" +:+ txHash.

(** The page of a transaction: a hash without [0x] is one of Stellar. *)
Definition transactionExplorerUrl (txHash : option string) (m : WalletMode) : option string :=
  match txHash with
  | Some h =>
      if bool_decide (h = ""%string) then None
      else if bool_decide (m = stellar) || (Nat.eqb (String.length h) 64 && forallb is_hex (chars h)) then Some (stellarTxExplorerUrl h)
      else Some ("https://celoscan.io/tx/" +:+ h)
  | None => None
  end.

Section Pay.
  Context `{OUT : PayOutside, BROWSER : BrowserOutside, JM : JsMath}.

(** [try { ... } finally { toast.dismiss(...); setSubmitting(false) }], with the catch. *)
Definition submission (failed : exn -> list pay_event) (body : proc PayWorld bool) : proc PayWorld bool :=
  r ← settle (proc_try (fun e => _ ← says (failed e); Return false) body);
  _ ← says [PDismiss; PSubmitting false];
  of_result r.

Definition tell (kind : Toast) (key : string) (description : option string) : list pay_event := [PToast kind (pay_text key []) description None].

(** The last message of a submission that went through: it links to the transaction. *)
Definition succeed (p : PayProps) (key : string) (txHash : option string) : list pay_event :=
  [PToast toast_success (pay_text (key +:+ ".title") []) (Some (pay_text (key +:+ ".desc") [])) (transactionExplorerUrl txHash (ph_mode p))].

Definition refuse (key : string) (description : option string) : proc PayWorld bool := _ ← says (tell toast_error key description); Return false.

Definition refresh_contracts : proc PayWorld unit := on_log (ask contracts_refresh PRefresh).

(** The page updates its stores. *)
Definition optimistic (wasOnTime : bool) : proc PayWorld unit :=
  await (fun w => (Ok tt, set_shown (if wasOnTime then applyOptimisticOnTimeUpdate (pay_now (py_log w)) (py_shown w)
                                     else applyOptimisticLateUpdate (py_shown w)) w)).

(** ** Repaying *)

Definition PENNY_BUFFER_USDC_BASE : Z := 10000.
Definition REPAY_AMOUNT_SENTINEL : Z := 2 ^ 256 - 1.

Definition formatHumanFromRaw (raw : Z) (decimals : nat) : string := of_chars (formatAmount raw decimals 2 6).

Definition not_comma (c : ascii) : bool := negb (Ascii.eqb c ","%char).

Definition without_commas (s : string) : string := of_chars (List.filter not_comma (chars s)).

(** The amount in units, and as the backend is told. *)
Definition repay_amount (p : PayProps) (amountInput : string) (rawOverride : option Z) : result (Z * string) :=
  let decimals := default (ph_chainDecimals p) (ph_usdcDecimals p) in
  match rawOverride with
  | Some raw => Ok (raw, formatHumanFromRaw raw decimals)
  | None => let cleaned := without_commas (trim amountInput) in amount ← parseUnits cleaned decimals; Ok (amount, cleaned)
  end.

(** The debt as the contract has just accrued it, or the amount on the screen. *)
Definition materialized (p : PayProps) (wallet : string) (amount : Z) : proc PayWorld Z :=
  if on_stellar p then Return amount else
  r ← settle (on_log (ask (fun t => api_preflight_force t wallet) (PPreflight wallet)));
  match r with
  | Ok accrued => Return (if 0 <? accrued then accrued else amount)
  | Throw _ => _ ← says (tell toast_info "hooks.useRepay.toast.preflightFailed.title" None); Return amount
  end.

(** After the transaction: [key] says whether it was one call or two. *)
Definition repaid (p : PayProps) (walletAddress amountHuman : string) (wasOnTime : bool) (txHash : option string) (key : string) : proc PayWorld bool :=
  _ ← optimistic wasOnTime;
  synced ← on_browser (inform_repaid walletAddress amountHuman txHash wasOnTime);
  _ ← says (succeed p (if synced : bool then key else "hooks.useRepay.toast.syncPending") txHash);
  _ ← refresh_contracts;
  Return true.

Definition approve_call (p : PayProps) (amount : Z) : TxInputs :=
  {| contractAddress := usdc_of p; abi := "ERC20"; functionName := "approve"; functionParams := [evault_of p; String_of_int amount]; tx_value := "0" |}.

Definition repay_call (p : PayProps) (user : string) : TxInputs :=
  {| contractAddress := evault_of p; abi := "IEVault"; functionName := "repay";
     functionParams := [String_of_int REPAY_AMOUNT_SENTINEL; user]; tx_value := "0" |}.

Definition repay_evm (p : PayProps) (user walletAddress amountHuman : string) (repayAmount : Z) (wasOnTime : bool) : proc PayWorld bool :=
  bal ← on_log (ask (fun t => usdc_balanceOf t user) (PBalance user));
  if bal <? repayAmount then
    _ ← says (PDismiss :: tell toast_error "hooks.useRepay.toast.insufficientBalance.title"
                (Some (let decimals := default (ph_chainDecimals p) (ph_usdcDecimals p) in
                       pay_text "hooks.useRepay.toast.insufficientBalance.desc" [formatHumanFromRaw bal decimals; formatHumanFromRaw repayAmount decimals])));
    Return false
  else
    allowance ← on_log (ask (fun t => usdc_allowance t user (evault_of p)) (PAllowance user (evault_of p)));
    let allowanceTarget := repayAmount + PENNY_BUFFER_USDC_BASE in
    if allowance <? allowanceTarget then
      hashes ← on_log (sendBatchContractTx (ph_contracts p) [approve_call p allowanceTarget; repay_call p user]);
      repaid p walletAddress amountHuman wasOnTime (list.last hashes) "hooks.useRepay.toast.confirmedBatch"
    else
      txHash ← on_log (sendContractTx (ph_contracts p) (repay_call p user));
      repaid p walletAddress amountHuman wasOnTime (Some txHash) "hooks.useRepay.toast.confirmed".

Definition repay_stellar (p : PayProps) (walletAddress amountHuman : string) (wasOnTime : bool) : proc PayWorld bool :=
  txHash ← on_log (stellarRepay walletAddress walletAddress);
  repaid p walletAddress amountHuman wasOnTime (Some txHash) "hooks.useRepay.toast.confirmed".

Definition submit_repay (p : PayProps) (amountInput : string) (rawOverride : option Z) (wasOnTime : bool) : proc PayWorld bool :=
  if bool_decide (amountInput = ""%string) && bool_decide (rawOverride = None) then refuse "hooks.useRepay.validation.enterAmount" None else
  match setup (repay_user p) p (has_text (ph_evault p) && ph_usdc p && has_text (co_usdcAddress (ph_contracts p))) with
  | None => refuse "hooks.useRepay.toast.missingSetup.title" (Some (pay_text "hooks.useRepay.toast.missingSetup.desc" []))
  | Some (user, walletAddress) =>
      match repay_amount p amountInput rawOverride with
      | Throw _ => refuse "hooks.useRepay.validation.invalidFormat" None
      | Ok (amount, amountHuman) =>
          if amount <=? 0 then refuse "hooks.useRepay.validation.greaterThanZero" None else
          _ ← says [PSubmitting true; PLoading];
          repayAmount ← materialized p walletAddress amount;
          submission (fun _ => tell toast_error "hooks.useRepay.toast.failed.title" None)
            (if on_stellar p then repay_stellar p walletAddress amountHuman wasOnTime
             else repay_evm p user walletAddress amountHuman repayAmount wasOnTime)
      end
  end.

(** ** Borrowing *)

(** [s.replace(/[_,\s]/g, "")] *)
Definition clean (s : string) : string :=
  of_chars (List.filter (fun c => negb (Ascii.eqb c "_"%char) && not_comma c && negb (is_space c)) (chars s)).

Definition maxBorrowRaw (p : PayProps) : option Z :=
  match ph_limitRaw p, ph_borrowedRaw p with Some limit, Some borrowed => Some (Z.max 0 (limit - borrowed)) | _, _ => None end.

(** The amount, or the reason there is none. *)
Definition validateAmount (p : PayProps) (amountInput : string) : Z + string :=
  let s := clean amountInput in
  if bool_decide (s = ""%string) then inr "hooks.useBorrow.validation.enterAmount"%string else
  match parseUnits s (ph_chainDecimals p) with
  | Throw _ => inr "hooks.useBorrow.validation.invalidAmount"%string
  | Ok amount =>
      if amount <=? 0 then inr "hooks.useBorrow.validation.greaterThanZero"%string else
      match maxBorrowRaw p with
      | Some cap => if cap <? amount then inr "hooks.useBorrow.validation.exceedsCapacity"%string else inl amount
      | None => inl amount
      end
  end.

Definition exceedsCapacity (p : PayProps) (s : string) : bool :=
  match maxBorrowRaw p, parseUnits (clean (or_text s "0")) (ph_chainDecimals p) with
  | Some cap, Ok amount => cap <? amount
  | _, _ => false
  end.

(** Inside an error of the contract, its selector. *)
Definition decodeCustomError (e : exn) : option (string + string) :=
  match err_data e with
  | Some raw =>
      let rawData := chars raw in
      if starts_with (chars "0x") rawData && (10 <=? length rawData)%nat then
        let selector := of_chars (take 10 rawData) in
        if bool_decide (selector = "0x13790bf0"%string) then Some (inl "hooks.useBorrow.errors.insufficientCash"%string) else Some (inr selector)
      else None
  | None => None
  end.

Definition formatBorrowError (p : PayProps) (e : exn) : string :=
  if on_stellar p then or_text (exn_message e) (pay_text "hooks.useBorrow.errors.stellarFailed" []) else
  match decodeCustomError e with
  | Some (inl key) => pay_text key []
  | Some (inr selector) => pay_text "hooks.useBorrow.errors.unknownCustom" [selector]
  | None => err_evm e
  end.

Definition borrow_call (p : PayProps) (user : string) (amount tenorDays feeBps : Z) : TxInputs :=
  {| contractAddress := evault_of p; abi := "IEVault"; functionName := "borrowWithTerm";
     functionParams := [String_of_int amount; user; String_of_int tenorDays; String_of_int feeBps]; tx_value := "0" |}.

Definition enable_call (p : PayProps) (user : string) : TxInputs :=
  {| contractAddress := default ""%string (ph_controllerAddress p); abi := "IEVC"; functionName := "enableController";
     functionParams := [user; evault_of p]; tx_value := "0" |}.

(** [safeRead] of the controller: a read that fails says it is not enabled. *)
Definition controller_enabled (p : PayProps) (user : string) : proc PayWorld bool :=
  r ← settle (on_log (ask (fun t => isControllerEnabled t user (evault_of p)) (PController user (evault_of p))));
  Return match r with Ok b => b | Throw _ => false end.

(** The transaction on an EVM chain; no hash at all when the controller is missing. *)
Definition borrow_evm (p : PayProps) (user : string) (amount tenorDays feeBps : Z) : proc PayWorld (option (option string)) :=
  let borrowTx := borrow_call p user amount tenorDays feeBps in
  if ph_requireController p then
    if ph_controller p && has_text (ph_controllerAddress p) then
      alreadyEnabled ← controller_enabled p user;
      if alreadyEnabled : bool then txHash ← on_log (sendContractTx (ph_contracts p) borrowTx); Return (Some (Some txHash))
      else hashes ← on_log (sendBatchContractTx (ph_contracts p) [enable_call p user; borrowTx]); Return (Some (list.last hashes))
    else
      _ ← says (tell toast_error "hooks.useBorrow.toast.walletNotReady.title" (Some (pay_text "hooks.useBorrow.toast.walletNotReady.desc" [])));
      Return None
  else txHash ← on_log (sendContractTx (ph_contracts p) borrowTx); Return (Some (Some txHash)).

Definition borrow_tx (p : PayProps) (user walletAddress : string) (amount tenorDays feeBps : Z) : proc PayWorld (option (option string)) :=
  if on_stellar p then txHash ← on_log (stellarBorrowWithTerm walletAddress amount tenorDays feeBps); Return (Some (Some txHash))
  else borrow_evm p user amount tenorDays feeBps.

Definition borrowed (p : PayProps) (walletAddress amountHuman : string) (tenorDays : Z) (txHash : option string) : proc PayWorld bool :=
  _ ← says [PWait 4000];
  synced ← on_browser (inform_opened walletAddress {| op_amountHuman := amountHuman; op_tenorDays := tenorDays |} txHash);
  _ ← says (succeed p (if synced : bool then "hooks.useBorrow.toast.confirmed" else "hooks.useBorrow.toast.syncPending") txHash);
  _ ← refresh_contracts;
  Return true.

Definition submit_borrow (p : PayProps) (amountInput : string) (tenorDays feeBps : Z) : proc PayWorld bool :=
  match setup (borrowing_user p) p (has_text (ph_evault p)) with
  | None => refuse "hooks.useBorrow.toast.missingSetup.title" (Some (pay_text "hooks.useBorrow.toast.missingSetup.desc" []))
  | Some (user, walletAddress) =>
      match validateAmount p amountInput with
      | inr reason => refuse "hooks.useBorrow.toast.invalidAmount.title" (Some (pay_text reason []))
      | inl amount =>
          _ ← says [PSubmitting true; PLoading];
          submission (fun e => tell toast_error "hooks.useBorrow.toast.failed.title" (Some (formatBorrowError p e)))
            (tx ← borrow_tx p user walletAddress amount tenorDays feeBps;
             match tx with
             | None => Return false
             | Some txHash => borrowed p walletAddress (clean amountInput) tenorDays txHash
             end)
      end
  end.
End Pay.
