(* ===== verification/PaymentProps.v ===== *)
(** * Properties of borrowing and repaying from the page

    Whatever other submissions run at the same time, the backend is told, and the queue of
    the browser holds, only what was sent: repayments the wallet or the app took, and
    openings of the very amount and term of the transaction; an allowance is the debt and
    one cent. A submission that says it succeeded left its transaction in the queue before
    it told the backend, and the page is never left waiting. *)

From stdpp Require Import base tactics list strings numbers.
From Stdlib Require Import Lia ZArith Ascii.
From S2P Require Import Prelude JsString JsNum AmountUnits UsdcFormat CreditPolicy Async PendingQueue Recovery Session Trace Judgements HookTrace CreditStore Payment.

Local Open Scope Z_scope.

(** ** What was sent *)

(** The wallet took the call as [h]; or the Lemon app took it, alone or in a batch. *)
Definition made (log : list pay_event) (t : TxInputs) (h : option string) : Prop :=
  (exists x, h = Some x /\ PWallet t (Ok x) ∈ log) \/
  (exists contracts res c, PLemon contracts (Ok res) ∈ log /\ taken res = true /\ c ∈ contracts /\
     lc_contractAddress c = contractAddress t /\ lc_functionName c = functionName t /\ lc_functionParams c = functionParams t /\
     (h = la_txHash res \/ h = None)).

Definition sent_on_stellar (log : list pay_event) (c : StellarCall) (h : option string) : Prop :=
  exists sent x, h = Some x /\ PStellar c (Ok sent) ∈ log /\ sent_hash sent = Ok x.

(** A repayment of all that is owed. *)
Definition repay_backed (log : list pay_event) (h : option string) : Prop :=
  (exists t user, functionName t = "repay"%string /\ functionParams t = [String_of_int REPAY_AMOUNT_SENTINEL; user] /\ made log t h) \/
  (exists payer borrower owed, POwed borrower (Ok owed) ∈ log /\ sent_on_stellar log (RepayPartial payer borrower (owed + cushion)) h).

Section Backed.
  Context `{OUT : PayOutside} (decimals : nat) (on_screen : Z -> Prop).

(** An opening of the amount the backend will read, for the same term. *)
Definition open_backed (log : list pay_event) (o : OpenPayload) (h : option string) : Prop :=
  exists amount feeBps, parseUnits (op_amountHuman o) decimals = Ok amount /\ 0 < amount /\
    ((exists t user, functionName t = "borrowWithTerm"%string /\
        functionParams t = [String_of_int amount; user; String_of_int (op_tenorDays o); String_of_int feeBps] /\ made log t h) \/
     (exists borrower, sent_on_stellar log (BorrowWithTerm borrower amount (op_tenorDays o) feeBps) h)).

Definition event_backed (log : list pay_event) (e : browser_event) : Prop :=
  match e with
  | EAddedRepayment item _ => repay_backed log (pd_txHash item)
  | EInformRepayment _ _ h _ => repay_backed log h
  | EAddedOpen item _ => open_backed log (pd_payload item) (pd_txHash item)
  | EInformOpen _ o h _ => open_backed log o h
  | _ => True
  end.

(** An allowance is one cent above the debt the backend has just answered, or above the
    amount on the screen. *)
Definition allowance_ok (log : list pay_event) (name : string) (params : list string) : Prop :=
  name = "approve"%string -> exists spender debt, params = [spender; String_of_int (debt + PENNY_BUFFER_USDC_BASE)] /\
    (on_screen debt \/ (0 < debt /\ exists wallet, PPreflight wallet (Ok debt) ∈ log)).

Definition call_ok (log : list pay_event) (e : pay_event) : Prop :=
  match e with
  | PWallet t _ => allowance_ok log (functionName t) (functionParams t)
  | PLemon contracts _ => Forall (fun c => allowance_ok log (lc_functionName c) (lc_functionParams c)) contracts
  | _ => True
  end.

Definition log_ok (log : list pay_event) : Prop := Forall (call_ok log) log.

Definition pay_ok (w : PayWorld) : Prop := log_ok (py_log w) /\ Forall (event_backed (py_log w)) (b_events (py_browser w)).

Definition pay_le (w w' : PayWorld) : Prop := py_log w `prefix_of` py_log w' /\ b_events (py_browser w) `prefix_of` b_events (py_browser w').

#[export] Instance pay_le_refl : Reflexive pay_le.
Proof. by split. Qed.

#[export] Instance pay_le_trans : Transitive pay_le.
Proof. intros a b c [? ?] [? ?]. split; by etrans. Qed.

(** What was sent stays sent. *)
Lemma seen_later {A} (x : A) l l' : l `prefix_of` l' -> x ∈ l -> x ∈ l'.
Proof. intros [k ->] H. apply elem_of_app. by left. Qed.

Lemma made_later l l' t h : l `prefix_of` l' -> made l t h -> made l' t h.
Proof.
  intros Hl [(x & ? & ?)|(cs & res & c & ? & ?)]; [left; exists x|right; exists cs, res, c]; destruct_and?; split_and!; try done; by eapply seen_later.
Qed.

Lemma stellar_later l l' c h : l `prefix_of` l' -> sent_on_stellar l c h -> sent_on_stellar l' c h.
Proof. intros Hl (sent & x & ? & ? & ?). exists sent, x. split_and!; try done. by eapply seen_later. Qed.

Lemma repay_backed_later l l' h : l `prefix_of` l' -> repay_backed l h -> repay_backed l' h.
Proof.
  intros Hl [(t & u & ? & ? & ?)|(p & b & o & ? & ?)]; [left; exists t, u|right; exists p, b, o]; split_and!; try done.
  all: by first [eapply made_later|eapply seen_later|eapply stellar_later].
Qed.

Lemma open_backed_later l l' o h : l `prefix_of` l' -> open_backed l o h -> open_backed l' o h.
Proof.
  intros Hl (a & f & ? & ? & H). exists a, f. split_and!; [done..|].
  destruct H as [(t & u & ? & ? & ?)|(b & ?)]; [left; exists t, u; split_and!; [done..|by eapply made_later]|right; exists b; by eapply stellar_later].
Qed.

Lemma event_backed_later l l' e : l `prefix_of` l' -> event_backed l e -> event_backed l' e.
Proof. intros Hl. destruct e; cbn; eauto using repay_backed_later, open_backed_later. Qed.

Lemma allowance_later l l' n ps : l `prefix_of` l' -> allowance_ok l n ps -> allowance_ok l' n ps.
Proof.
  intros Hl H Hn. destruct (H Hn) as (s & d & ? & Hd). exists s, d. split; [done|].
  destruct Hd as [?|(? & w & ?)]; [by left|right]. split; [done|]. exists w. by eapply seen_later.
Qed.

Lemma call_ok_later l l' e : l `prefix_of` l' -> call_ok l e -> call_ok l' e.
Proof.
  intros Hl. destruct e; cbn; try done; [|by apply allowance_later].
  intros H. eapply list.Forall_impl; [exact H|]. intros c. by apply allowance_later.
Qed.

Lemma log_ok_app l es : log_ok l -> Forall (call_ok (l ++ es)) es -> log_ok (l ++ es).
Proof.
  intros Hl Hes. apply Forall_app. split; [|done]. eapply list.Forall_impl; [exact Hl|]. intros e. by apply call_ok_later, prefix_app_r.
Qed.

(** ** The wallets *)

Abbreviation logs K Q p := (gives log_ok K Q p).

Lemma logs_fact {A} (K : list pay_event -> Prop) (F : Prop) (Q : list pay_event -> A -> Prop) p :
  (F -> logs K Q p) -> logs (fun l => K l /\ F) Q p.
Proof. intros H t [HK HF]. by apply H. Qed.

Lemma logs_result {A} K (r : result A) : logs K (fun l a => K l /\ r = Ok a) (of_result r).
Proof. destruct r; [apply gives_return|apply gives_raise]. by intros t Ht. Qed.

Lemma logs_note K e : lasting K -> (forall l, K l -> call_ok l e) -> logs K (fun l _ => K l) (notes [e]).
Proof.
  intros HK He. apply gives_change; [done|]. intros l Hl Hk. split.
  - apply log_ok_app; [done|]. constructor; [|done]. eapply call_ok_later; [|by apply He]. by apply prefix_app_r.
  - eapply HK; [|exact Hk]. by apply prefix_app_r.
Qed.

Lemma logs_ask {A} K (f : list pay_event -> result A) c :
  lasting K -> (forall l r, K l -> call_ok l (c r)) -> logs K (fun l a => K l /\ c (Ok a) ∈ l) (ask f c).
Proof.
  intros HK Hc. eapply gives_mono; [| |apply (gives_ask _ f c K HK)]; [done| |].
  - cbn beta. by intros l a (? & g & ? & <-).
  - intros l r Hl Hk. apply log_ok_app; [done|]. constructor; [|done]. eapply call_ok_later; [|by apply Hc]. by apply prefix_app_r.
Qed.

(** Calls that change no allowance, or the right one. *)
Definition may_call (K : list pay_event -> Prop) (t : TxInputs) : Prop :=
  forall l, K l -> allowance_ok l (functionName t) (functionParams t).

Lemma logs_lemon c tag txs K :
  lasting K -> Forall (may_call K) txs ->
  logs K (fun l res => K l /\ PLemon (map (lemon_contract c) txs) (Ok res) ∈ l) (lemon_call c tag txs).
Proof.
  intros HK Htxs. unfold lemon_call. cbn zeta. eapply gives_bind.
  - apply (logs_ask K (fun t => lemonCallSmartContract t (map (lemon_contract c) txs)) (PLemon (map (lemon_contract c) txs)) HK).
    intros l r Hl. cbn. apply Forall_map. eapply list.Forall_impl; [exact Htxs|]. intros t Ht. by apply Ht.
  - intros res. eapply gives_bind; [apply logs_note|].
    + intros l l' Hl [? ?]. split; [by eapply HK|by eapply seen_later].
    + done.
    + intros u. by apply gives_return.
Qed.

Lemma made_lemon l c txs res t h :
  PLemon (map (lemon_contract c) txs) (Ok res) ∈ l -> t ∈ txs -> taken res = true -> h = la_txHash res \/ h = None -> made l t h.
Proof.
  intros Hin Ht Hr Hh. right. exists (map (lemon_contract c) txs), res, (lemon_contract c t). split_and!; try done.
  by apply list_elem_of_fmap_2.
Qed.

Lemma gives_lemon_failed {A} K (Q : list pay_event -> A -> Prop) res : logs K Q (lemon_failed res).
Proof. unfold lemon_failed. destruct (la_result res); apply gives_raise. Qed.

Lemma gives_try_raise {A} K (Q : list pay_event -> A -> Prop) (h : exn -> exn) p : logs K Q p -> logs K Q (proc_try (fun e => Raise (h e)) p).
Proof.
  intros Hp t Ht. apply since_try. eapply since_mono; [apply _..| |by apply Hp]. by intros t' [a|e] _ H.
Qed.

Lemma logs_wallet c t K : lasting K -> may_call K t -> logs K (fun l h => K l /\ made l t (Some h)) (wallet_tx c t).
Proof.
  intros HK Ht. unfold wallet_tx. eapply gives_bind; [apply logs_result|]. intros u. apply logs_fact. intros _.
  eapply gives_bind; [apply logs_result|]. intros d. apply logs_fact. intros _. apply gives_try_raise.
  eapply gives_mono; [| |apply (logs_ask K _ (PWallet t) HK)]; [done| |by intros l r; apply Ht].
  intros l h [? ?]. split; [done|]. left. by exists h.
Qed.

Lemma logs_send c t K : lasting K -> may_call K t -> logs K (fun l h => K l /\ made l t (Some h)) (sendContractTx c t).
Proof.
  intros HK Ht. unfold sendContractTx. destruct (co_mode c); try by apply logs_wallet.
  - eapply gives_bind; [apply logs_lemon; [done|by repeat constructor]|]. intros res.
    destruct (la_txHash res) as [h|] eqn:Eh; [|apply gives_lemon_failed].
    destruct (taken res && _) eqn:Et; [|apply gives_lemon_failed]. apply andb_prop in Et as [Et _].
    apply gives_return. intros l [Hk Hin]. split; [done|]. eapply made_lemon; [exact Hin|by left|done|]. left. by rewrite Eh.
  - apply gives_raise.
Qed.

(** Of a batch, the hash is that of its last call. *)
Lemma logs_batch c t1 t2 K :
  lasting K -> may_call K t1 -> may_call K t2 ->
  logs K (fun l hs => K l /\ made l t2 (list.last hs)) (sendBatchContractTx c [t1; t2]).
Proof.
  intros HK H1 H2. unfold sendBatchContractTx.
  assert (Hone : logs K (fun l hs => K l /\ made l t2 (list.last hs)) (pmap (sendContractTx c) [t1; t2])).
  { cbn [pmap]. eapply gives_bind; [by apply logs_send|]. intros h1.
    apply (gives_bind log_ok _ (fun l hs => K l /\ exists h2, hs = [h2] /\ made l t2 (Some h2))).
    - eapply gives_bind; [eapply gives_mono; [| |by apply (logs_send c t2 K)]; [by intros l [? ?]|intros l h H; exact H]|].
      intros h2. apply gives_return. intros l [? ?]. split; [done|]. by exists h2.
    - intros hs. apply gives_return. intros l (? & h2 & -> & Hm). by split. }
  destruct (co_mode c); try exact Hone.
  - eapply gives_bind; [apply logs_lemon; [done|by repeat constructor]|]. intros res.
    destruct (taken res) eqn:Et; [|apply gives_lemon_failed]. apply gives_return. intros l [Hk Hin]. split; [done|].
    eapply made_lemon; [exact Hin|by right; left|done|]. destruct (la_txHash res) as [h|]; [|by right].
    case_bool_decide; [by right|by left].
  - apply gives_raise.
Qed.

Lemma logs_sent_hash K call sent :
  logs (fun l => K l /\ PStellar call (Ok sent) ∈ l) (fun l h => K l /\ sent_on_stellar l call (Some h)) (of_result (sent_hash sent)).
Proof.
  eapply gives_mono; [| |apply logs_result]; [intros l H; exact H|]. cbn beta. intros l h [[? ?] ?]. split; [done|]. by exists sent, h.
Qed.

Lemma logs_stellar_repay payer borrower K :
  lasting K -> logs K (fun l h => K l /\ repay_backed l (Some h)) (stellarRepay payer borrower).
Proof.
  intros HK. unfold stellarRepay. eapply gives_bind; [by apply (logs_ask K _ (POwed borrower))|]. intros owed. cbn zeta.
  assert (HK' : lasting (fun l => K l /\ POwed borrower (Ok owed) ∈ l)) by (intros l l' Hl [? ?]; split; [by eapply HK|by eapply seen_later]).
  eapply gives_bind; [by apply (logs_ask _ _ (PStellar (RepayPartial payer borrower (owed + cushion))) HK')|]. intros sent.
  eapply gives_mono; [| |apply logs_sent_hash]; [intros l H; exact H|]. cbn beta. intros l h [[? ?] ?]. split; [done|]. right. by exists payer, borrower, owed.
Qed.

Lemma logs_stellar_borrow borrower amount tenor fee K :
  lasting K -> logs K (fun l h => K l /\ sent_on_stellar l (BorrowWithTerm borrower amount tenor fee) (Some h))
                    (stellarBorrowWithTerm borrower amount tenor fee).
Proof.
  intros HK. unfold stellarBorrowWithTerm. cbn zeta. eapply gives_bind; [by apply (logs_ask K _ (PStellar (BorrowWithTerm borrower amount tenor fee)))|].
  intros sent. apply logs_sent_hash.
Qed.
End Backed.

(** ** The browser *)

Section Browses.
  Context `{BROWSER : BrowserOutside}.

(** Whatever the other handlers do in between, the process adds events of [P], and answers
    [Q] with the events there are then; [seen] are those of its last step. *)
Fixpoint browses {A} (P : browser_event -> Prop) (Q : list browser_event -> result A -> Prop) (seen : list browser_event)
    (p : proc Browser A) : Prop :=
  match p with
  | Return a => Q seen (Ok a)
  | Raise e => Q seen (Throw e)
  | Await effect next => forall b, seen `prefix_of` b_events b ->
      (exists es, b_events (effect b) = b_events b ++ es /\ Forall P es) /\ browses P Q (b_events (effect b)) (next b)
  end.

Lemma browses_mono {A} P (Q Q' : list browser_event -> result A -> Prop) seen p :
  (forall evs r, seen `prefix_of` evs -> Q evs r -> Q' evs r) -> browses P Q seen p -> browses P Q' seen p.
Proof.
  revert seen. induction p as [a|e|effect next IH]; intros seen HQ; cbn; [by apply HQ..|].
  intros H b Hb. destruct (H b Hb) as [(es & He & Hes) Hn]. split; [by exists es|]. eapply IH; [|exact Hn].
  intros evs r Hr. apply HQ. etrans; [exact Hb|]. etrans; [|exact Hr]. rewrite He. by apply prefix_app_r.
Qed.

Lemma browses_bind {A B} P (Q : list browser_event -> result B -> Prop) seen (k : A -> proc Browser B) p :
  browses P (fun evs r => match r with Ok a => browses P Q evs (k a) | Throw e => Q evs (Throw e) end) seen p -> browses P Q seen (p ≫= k).
Proof.
  unfold mbind, proc_mbind. revert seen. induction p as [a|e|effect next IH]; intros seen; cbn; [done..|].
  intros H b Hb. destruct (H b Hb) as [? ?]. auto.
Qed.

Lemma browses_try {A} P (Q : list browser_event -> result A -> Prop) seen h p :
  browses P (fun evs r => match r with Ok a => Q evs (Ok a) | Throw e => browses P Q evs (h e) end) seen p -> browses P Q seen (proc_try h p).
Proof.
  revert seen. induction p as [a|e|effect next IH]; intros seen; cbn; [done..|]. intros H b Hb. destruct (H b Hb) as [? ?]. auto.
Qed.

(** An operation that adds events of [P], and answers [Q] of them. *)
Definition adds {A} (P : browser_event -> Prop) (Q : list browser_event -> result A -> Prop) (m : M Browser A) : Prop :=
  forall b, exists es, b_events (snd (m b)) = b_events b ++ es /\ Forall P es /\ Q es (fst (m b)).

Lemma browses_await {A} P (Q0 : list browser_event -> result A -> Prop) (Q : list browser_event -> result A -> Prop) seen m :
  adds P Q0 m -> (forall evs es r, Q0 es r -> Q (evs ++ es) r) -> browses P Q seen (await m).
Proof.
  intros Hm HQ b Hb. destruct (Hm b) as (es & He & Hes & H0). split; [by exists es|]. rewrite He.
  destruct (fst (m b)); by apply HQ.
Qed.

Definition fine {A} (es : list browser_event) (r : result A) : Prop := exists a, r = Ok a.

Lemma adds_mono {A} P (Q Q' : list browser_event -> result A -> Prop) m : (forall es r, Q es r -> Q' es r) -> adds P Q m -> adds P Q' m.
Proof. intros H Hm b. destruct (Hm b) as (es & ? & ? & ?). exists es. auto. Qed.

Lemma adds_bind {A B} P (Q : list browser_event -> result B -> Prop) (m : M Browser A) k :
  adds P (fun es r => match r with Ok a => adds P (fun es' r' => Q (es ++ es') r') (k a) | Throw e => Q es (Throw e) end) m ->
  adds P Q (m ≫= k).
Proof.
  intros Hm b. destruct (Hm b) as (es & He & Hes & H). cbv [mbind M_bind]. destruct (m b) as [[a|e] b']; cbn [fst snd] in *.
  - destruct (H b') as (es' & He' & Hes' & H'). exists (es ++ es'). split_and!; [by rewrite He', He, <- app_assoc|by apply Forall_app|done].
  - by exists es.
Qed.

Lemma adds_one {A} (P : browser_event -> Prop) (Q : list browser_event -> result A -> Prop) (m : M Browser A) :
  (forall b, exists e, b_events (snd (m b)) = b_events b ++ [e] /\ P e /\ Q [e] (fst (m b))) -> adds P Q m.
Proof. intros H b. destruct (H b) as (e & ? & ? & ?). exists [e]. split_and!; [done|by constructor|done]. Qed.

Lemma adds_none {A} P (Q : list browser_event -> result A -> Prop) (m : M Browser A) :
  (forall b, b_events (snd (m b)) = b_events b /\ Q [] (fst (m b))) -> adds P Q m.
Proof. intros H b. destruct (H b) as [He ?]. exists []. rewrite app_nil_r. by split_and!. Qed.

(** The storage keeps the events. *)
Class StoresOnly {P} (SLOT : Slot P) : Prop := stores_only : forall s w, b_events (slot_set s w) = b_events w.

#[export] Instance repayments_store : StoresOnly repayment_slot.
Proof. done. Qed.

#[export] Instance opens_store : StoresOnly open_slot.
Proof. done. Qed.

Lemma writeAll_events {P} `{SLOT : Slot P, !StoresOnly SLOT} items w : b_events (writeAll items w) = b_events w.
Proof. unfold writeAll. destruct (set_item_ok _); [apply stores_only|done]. Qed.

Lemma adds_remove {P} `{SLOT : Slot P, !StoresOnly SLOT} Pe i : adds Pe fine (removePending i).
Proof. apply adds_none. intros b. unfold removePending. cbn [fst snd]. rewrite writeAll_events. split; [done|]. by exists tt. Qed.

Lemma adds_update {P} `{SLOT : Slot P, !StoresOnly SLOT} Pe i n t : adds Pe fine (updatePending i n t).
Proof.
  apply adds_none. intros b. unfold updatePending. cbn [fst snd]. split; [|by exists tt].
  by destruct (update_first _ _ _); [apply writeAll_events|].
Qed.

Lemma adds_log (Pe : browser_event -> Prop) e : Pe e -> adds Pe fine (modify (log_event e)).
Proof. intros H. apply adds_one. intros b. exists e. split_and!; [done|done|]. by exists tt. Qed.

Lemma adds_now (Pe : browser_event -> Prop) : (forall t, Pe (ENow t)) -> adds Pe fine now.
Proof. intros H. apply adds_one. intros b. eexists. split_and!; [done|apply H|]. by eexists. Qed.

Lemma adds_then {A B} Pe (m : M Browser A) (k : A -> M Browser B) : adds Pe fine m -> (forall a, adds Pe fine (k a)) -> adds Pe fine (m ≫= k).
Proof.
  intros Hm Hk. apply adds_bind. eapply adds_mono; [|exact Hm]. intros es r [a ->]. eapply adds_mono; [|apply Hk]. by intros es' r' [c ->]; exists c.
Qed.

Lemma adds_request {A} (Pe : browser_event -> Prop) (f : list browser_event -> result A) c : (forall r, Pe (c r)) ->
  adds Pe (fun _ _ => True) (fun w => let r := f (b_events w) in (r, log_event (c r) w)).
Proof. intros H. apply adds_one. intros b. eexists. by split_and!. Qed.

Lemma browses_retry {A} (P : browser_event -> Prop) seen left attempt n base should (m : M Browser A) :
  (forall d, P (EBackoff d)) -> adds P (fun _ _ => True) m -> browses P (fun _ _ => True) seen (retry_from left attempt n base should (await m)).
Proof.
  intros Hb Hm. revert seen attempt. induction left as [|left IH]; intros seen attempt; cbn [retry_from]; [done|].
  apply browses_try. eapply browses_await; [exact Hm|]. intros evs es [a|e] _; [done|].
  destruct (_ || _); [done|]. apply browses_bind. eapply browses_await; [by apply adds_log|]. intros evs' es' r [u ->]. apply IH.
Qed.

(** A step that cannot fail, then the rest. *)
Lemma browses_then {A B} P (Q : list browser_event -> result B -> Prop) seen (m : M Browser A) k :
  adds P fine m -> (forall evs a, browses P Q evs (k a)) -> browses P Q seen (await m ≫= k).
Proof. intros Hm Hk. apply browses_bind. eapply browses_await; [exact Hm|]. intros evs es r [a ->]. apply Hk. Qed.

Definition returns_ok {A} (evs : list browser_event) (r : result A) : Prop := exists a, r = Ok a.

(** A repayment of that hash, and nothing else. *)
Definition of_repayment (h : option string) (e : browser_event) : Prop :=
  match e with
  | EAddedRepayment item _ => pd_txHash item = h
  | EInformRepayment _ _ h' _ => h' = h
  | EAddedOpen _ _ | EInformOpen _ _ _ _ => False
  | _ => True
  end.

Definition of_opening (o : OpenPayload) (h : option string) (e : browser_event) : Prop :=
  match e with
  | EAddedOpen item _ => pd_payload item = o /\ pd_txHash item = h
  | EInformOpen _ o' h' _ => o' = o /\ h' = h
  | EAddedRepayment _ _ | EInformRepayment _ _ _ _ => False
  | _ => True
  end.

(** The entry is among the events. *)
Definition queued_repayment (amount : string) (h : option string) (evs : list browser_event) : Prop :=
  exists item saved, EAddedRepayment item saved ∈ evs /\ pd_payload item = amount /\ pd_txHash item = h.

Definition queued_opening (o : OpenPayload) (h : option string) (evs : list browser_event) : Prop :=
  exists item saved, EAddedOpen item saved ∈ evs /\ pd_payload item = o /\ pd_txHash item = h.

Lemma log_events e w : b_events (log_event e w) = b_events w ++ [e].
Proof. done. Qed.

Lemma adds_add_repayment wallet amount h :
  adds (of_repayment h) (fun es r => exists item, r = Ok item /\ queued_repayment amount h es)
    (addPending (SLOT := repayment_slot) wallet amount h).
Proof.
  intros b. unfold addPending, new_id, now, mbind, M_bind. cbn [fst snd]. rewrite log_events, writeAll_events, !log_events, <- !app_assoc.
  eexists [_; _; _]. split_and!; [reflexivity|by repeat constructor|].
  eexists. split; [reflexivity|]. eexists _, _. split_and!; [by right; right; left|done|done].
Qed.

Lemma adds_add_open wallet o h :
  adds (of_opening o h) (fun es r => exists item, r = Ok item /\ queued_opening o h es) (addPendingOpen wallet o h).
Proof.
  intros b. unfold addPendingOpen, addPending, new_id, now, mbind, M_bind. cbn [fst snd]. rewrite log_events, writeAll_events, !log_events, <- !app_assoc.
  eexists [_; _; _]. split_and!; [reflexivity|by repeat constructor|].
  eexists. split; [reflexivity|]. eexists _, _. split_and!; [by right; right; left|done|done].
Qed.

Lemma queued_repayment_later amount h evs evs' : evs ⊆ evs' -> queued_repayment amount h evs -> queued_repayment amount h evs'.
Proof. intros H (i & s & ? & ?). exists i, s. split; [by apply H|done]. Qed.

Lemma queued_opening_later o h evs evs' : evs ⊆ evs' -> queued_opening o h evs -> queued_opening o h evs'.
Proof. intros H (i & s & ? & ?). exists i, s. split; [by apply H|done]. Qed.

Ltac only_adds :=
  repeat first [apply adds_then; [|intros ?] | apply adds_remove | apply adds_update | (apply adds_log; done) | (apply adds_now; done)
               | (apply adds_none; intros ?; split; [done|by eexists])].

(** Informing the backend puts the entry in the queue and never throws. *)
Lemma browses_inform_repaid wallet amount h applied seen :
  browses (of_repayment h) (fun evs r => returns_ok evs r /\ queued_repayment amount h evs) seen (inform_repaid wallet amount h applied).
Proof.
  unfold inform_repaid. apply browses_bind. eapply browses_await; [apply adds_add_repayment|]. intros evs es r (item & -> & Hq).
  eapply (browses_mono _ returns_ok).
  { intros evs' r Hevs Hr. split; [exact Hr|]. eapply queued_repayment_later; [|exact Hq]. intros x Hx. eapply seen_later; [exact Hevs|]. apply elem_of_app. by right. }
  apply browses_try, browses_bind. eapply browses_mono;
    [|apply browses_retry; [done|by apply (adds_request _ (fun t => api_informRepayment t wallet amount h) (EInformRepayment wallet amount h))]].
  cbn beta. intros evs1 [data|e] _ _.
  - repeat (apply browses_then; [by only_adds|]; intros). by eexists.
  - destruct (is_not_found e); repeat (apply browses_then; [by only_adds|]; intros); by eexists.
Qed.

Lemma browses_inform_opened wallet o h seen :
  browses (of_opening o h) (fun evs r => returns_ok evs r /\ queued_opening o h evs) seen (inform_opened wallet o h).
Proof.
  unfold inform_opened, removePendingOpen, updatePendingOpen. apply browses_bind. eapply browses_await; [apply adds_add_open|].
  intros evs es r (item & -> & Hq). eapply (browses_mono _ returns_ok).
  { intros evs' r Hevs Hr. split; [exact Hr|]. eapply queued_opening_later; [|exact Hq]. intros x Hx. eapply seen_later; [exact Hevs|]. apply elem_of_app. by right. }
  apply browses_try, browses_bind. eapply browses_mono;
    [|apply browses_retry; [done|by apply (adds_request _ (fun t => api_informOpen t wallet o h) (EInformOpen wallet o h))]].
  cbn beta. intros evs1 [data|e] _ _; repeat (apply browses_then; [by only_adds|]; intros); by eexists.
Qed.
End Browses.

(** ** Submissions *)

Section Submissions.
  Context `{OUT : PayOutside, BROWSER : BrowserOutside, JM : JsMath} (decimals : nat) (on_screen : Z -> Prop).

Local Abbreviation pok := (pay_ok decimals on_screen).

(** From a world where [K] holds, and whatever runs in between, the process keeps what was
    sent and told in order, and answers [Q]. *)
Definition pays {A} (K : PayWorld -> Prop) (Q : PayWorld -> A -> Prop) (p : proc PayWorld A) : Prop :=
  forall w, K w -> since pok pay_le (fun w' r => match r with Ok a => Q w' a | Throw _ => True end) w p.

Lemma pays_mono {A} (K K' : PayWorld -> Prop) (Q Q' : PayWorld -> A -> Prop) p :
  (forall w, K' w -> K w) -> (forall w a, Q w a -> Q' w a) -> pays K Q p -> pays K' Q' p.
Proof. intros HK HQ Hp w Hw. eapply since_mono; [apply _..| |by apply Hp, HK]. intros w' [a|e] _; [apply HQ|done]. Qed.

Lemma pays_return {A} K (Q : PayWorld -> A -> Prop) a : (forall w, K w -> Q w a) -> pays K Q (Return a).
Proof. intros H w Hw. by apply H. Qed.

Lemma pays_bind {A B} K (Q1 : PayWorld -> A -> Prop) (Q : PayWorld -> B -> Prop) p k :
  pays K Q1 p -> (forall a, pays (fun w => Q1 w a) Q (k a)) -> pays K Q (p ≫= k).
Proof.
  intros Hp Hk w Hw. apply since_bind. eapply since_mono; [apply _..| |by apply Hp]. intros w' [a|e] _ H; [by apply Hk|done].
Qed.

(** What holds for good holds after. *)
Lemma pays_keep {A} K K' (Q : PayWorld -> A -> Prop) p :
  steady pay_le K -> pays K' Q p -> pays (fun w => K w /\ K' w) (fun w a => K w /\ Q w a) p.
Proof.
  intros HK Hp w [Hw Hw']. eapply since_mono; [apply _..| |by apply Hp]. intros w' [a|e] Hr H; [|done]. split; [by eapply HK|done].
Qed.

(** A process that never throws. *)
Lemma pays_settle {A} K (Q : PayWorld -> A -> Prop) p :
  pays K Q p -> pays K (fun w r => match r with Ok a => Q w a | Throw _ => True end) (settle p).
Proof.
  intros Hp w Hw. pose proof (Hp w Hw) as H. clear Hp Hw. revert w H.
  induction p as [a|e|effect next IH]; intros w H; cbn in *; [done..|].
  intros w' Hw Hr. destruct (H w' Hw Hr) as (? & ? & ?). auto.
Qed.

Lemma pays_try {A} K (Q : PayWorld -> A -> Prop) h p :
  steady pay_le K -> pays K Q p -> (forall e, pays K Q (h e)) -> pays K Q (proc_try h p).
Proof.
  intros HK Hp Hh w Hw. apply since_try. eapply since_mono; [apply _..| |by apply Hp].
  intros w' [a|e] Hr H; [done|]. apply Hh. by eapply HK.
Qed.

Lemma steady_log (K : list pay_event -> Prop) : lasting K -> steady pay_le (fun w => K (py_log w)).
Proof. intros HK w w' [Hl _]. by apply HK. Qed.

(** The wallets, seen from a submission. *)
Lemma pays_log {A} K (Q : list pay_event -> A -> Prop) p :
  gives (log_ok on_screen) K Q p -> pays (fun w => K (py_log w)) (fun w a => Q (py_log w) a) (on_log p).
Proof.
  intros Hp w Hw. eapply (zoom_since py_log set_log (fun _ _ => eq_refl) (log_ok on_screen) grows pok pay_le
    (fun l r => match r with Ok a => Q l a | Throw _ => True end)); [..|by apply Hp].
  - by intros s [? _].
  - by intros s s' [? _].
  - intros s l [_ Hev] Hl Hpre. split; split; try done. cbn. eapply list.Forall_impl; [exact Hev|]. intros e. by apply event_backed_later.
Qed.

(** Informing the backend of what was sent. *)
Lemma pays_browser {A} K (P : browser_event -> Prop) (Q : list browser_event -> A -> Prop) (p : proc Browser A) :
  steady pay_le K -> (forall w e, K w -> P e -> event_backed decimals (py_log w) e) ->
  (forall seen, browses P (fun evs r => match r with Ok a => Q evs a | Throw _ => True end) seen p) ->
  pays K (fun w a => K w /\ Q (b_events (py_browser w)) a) (on_browser p).
Proof.
  intros HK HP Hp w Hw. specialize (Hp (b_events (py_browser w))). unfold on_browser. revert w Hw Hp.
  induction p as [a|e|effect next IH]; intros w Hw; cbn; [by split|done|].
  intros H w' [Hlog Hev] Hr. destruct Hr as [Hl Hb]. destruct (H (py_browser w') Hb) as [(es & He & Hes) Hn].
  assert (Hw' : K w') by (eapply HK; [|exact Hw]; by split). split; [|split].
  - split; [done|]. cbn. rewrite He. apply Forall_app. split; [done|]. eapply list.Forall_impl; [exact Hes|]. intros e. by apply HP.
  - split; cbn; [done|]. rewrite He. by apply prefix_app_r.
  - apply IH; [|exact Hn]. eapply HK; [|exact Hw']. split; cbn; [done|]. rewrite He. by apply prefix_app_r.
Qed.

(** Toasts and the rest change nothing that matters here. *)
Definition talk (e : pay_event) : bool := match e with PWallet _ _ | PLemon _ _ => false | _ => true end.

Lemma pays_says K es : steady pay_le K -> forallb talk es = true -> pays K (fun w _ => K w) (says es).
Proof.
  intros HK Hes. eapply (pays_mono (fun w => K w /\ True) _ (fun w _ => K w /\ True)); [by intros w|by intros w a []|].
  apply pays_keep; [done|]. apply (pays_log (fun _ => True) (fun _ _ => True)). apply (upholds_notes (log_ok on_screen)); [apply lasting_true|].
  intros l Hl _. apply log_ok_app; [done|]. eapply list.Forall_impl; [by apply forallb_all|]. by intros [].
Qed.

Lemma pays_seq {A B} K (Q : PayWorld -> B -> Prop) (p : proc PayWorld A) k :
  steady pay_le K -> pays K (fun _ _ => True) p -> (forall a, pays K Q (k a)) -> pays K Q (p ≫= k).
Proof.
  intros HK Hp Hk. eapply pays_bind.
  - eapply (pays_mono (fun w => K w /\ K w) K (fun w a => K w /\ True)); [done|intros w a H; exact H|]. by apply pays_keep.
  - intros a. eapply pays_mono; [| |apply Hk]; [by intros w [? _]|done].
Qed.

Lemma pays_any {A} K (Q : PayWorld -> A -> Prop) p : pays K Q p -> pays K (fun _ _ => True) p.
Proof. by apply pays_mono. Qed.

Lemma pays_tell K es : steady pay_le K -> forallb talk es = true -> pays K (fun _ _ => True) (says es).
Proof. intros HK Hes. eapply pays_any. by apply pays_says. Qed.

(** A question that sends nothing. *)
Lemma pays_ask {A} K (f : list pay_event -> result A) c :
  steady pay_le K -> (forall r, talk (c r) = true) -> pays K (fun w a => K w /\ c (Ok a) ∈ py_log w) (on_log (ask f c)).
Proof.
  intros HK Hc. eapply (pays_mono (fun w => K w /\ True) _ (fun w a => K w /\ (True /\ c (Ok a) ∈ py_log w))); [by intros w|by intros w a (? & ? & ?)|].
  apply pays_keep; [done|]. apply (pays_log (fun _ => True) (fun l a => True /\ c (Ok a) ∈ l)). apply logs_ask; [apply lasting_true|].
  intros l r _. specialize (Hc r). by destruct (c r).
Qed.

Lemma pays_refresh K : steady pay_le K -> pays K (fun _ _ => True) refresh_contracts.
Proof. intros HK. eapply pays_any. by apply pays_ask. Qed.

Lemma pays_optimistic K b : steady pay_le K -> pays K (fun _ _ => True) (optimistic b).
Proof. intros HK w Hw. apply since_await. intros w' [? ?] Hr. split; [done|]. by split. Qed.

(** What a submission that says it succeeded has done. *)
Definition repaid_ok (amountHuman : string) (w : PayWorld) (b : bool) : Prop :=
  b = true -> exists h, queued_repayment amountHuman h (b_events (py_browser w)) /\ repay_backed (py_log w) h.

Definition borrowed_ok (o : OpenPayload) (w : PayWorld) (b : bool) : Prop :=
  b = true -> exists h, queued_opening o h (b_events (py_browser w)) /\ open_backed decimals (py_log w) o h.

Lemma pays_repaid K p wallet amountHuman onTime h key :
  steady pay_le K -> (forall w, K w -> repay_backed (py_log w) h) -> pays K (repaid_ok amountHuman) (repaid p wallet amountHuman onTime h key).
Proof.
  intros HK Hh. unfold repaid. apply pays_seq; [done|by apply pays_optimistic|]. intros u. eapply pays_bind.
  - apply (pays_browser K (of_repayment h) (fun evs _ => queued_repayment amountHuman h evs)); [done| |].
    + intros w e Hw He. destruct e; cbn in *; try done; subst; by apply Hh.
    + intros seen. eapply browses_mono; [|apply browses_inform_repaid]. intros evs r _ [[b ->] Hq]. exact Hq.
  - intros synced. set (K' := fun w => K w /\ queued_repayment amountHuman h (b_events (py_browser w))).
    assert (HK' : steady pay_le K').
    { intros w w' Hr [? ?]. split; [by eapply HK|]. eapply queued_repayment_later; [|done]. intros x. by apply seen_later, Hr. }
    change (pays K' (repaid_ok amountHuman) (_ ← says (succeed p (if synced then key else "hooks.useRepay.toast.syncPending") h); _ ← refresh_contracts; Return true)).
    apply pays_seq; [done|by apply pays_tell|]. intros _. apply pays_seq; [done|by apply pays_refresh|]. intros _.
    apply pays_return. intros w [Hw Hq] _. exists h. split; [done|by apply Hh].
Qed.

Lemma pays_borrowed K p wallet amountHuman tenor h :
  steady pay_le K -> (forall w, K w -> open_backed decimals (py_log w) {| op_amountHuman := amountHuman; op_tenorDays := tenor |} h) ->
  pays K (borrowed_ok {| op_amountHuman := amountHuman; op_tenorDays := tenor |}) (borrowed p wallet amountHuman tenor h).
Proof.
  set (o := {| op_amountHuman := amountHuman; op_tenorDays := tenor |}). intros HK Hh. unfold borrowed. fold o.
  apply pays_seq; [done|by apply pays_tell|]. intros u. eapply pays_bind.
  - apply (pays_browser K (of_opening o h) (fun evs _ => queued_opening o h evs)); [done| |].
    + intros w e Hw He. destruct e; try done; destruct He as [He1 He2]; cbn [event_backed]; rewrite He1, He2; by apply Hh.
    + intros seen. eapply browses_mono; [|apply browses_inform_opened]. intros evs r _ [[b ->] Hq]. exact Hq.
  - intros synced. set (K' := fun w => K w /\ queued_opening o h (b_events (py_browser w))).
    assert (HK' : steady pay_le K').
    { intros w w' Hr [? ?]. split; [by eapply HK|]. eapply queued_opening_later; [|done]. intros x. by apply seen_later, Hr. }
    change (pays K' (borrowed_ok o) (_ ← says (succeed p (if synced then "hooks.useBorrow.toast.confirmed" else "hooks.useBorrow.toast.syncPending") h);
      _ ← refresh_contracts; Return true)).
    apply pays_seq; [done|by apply pays_tell|]. intros _. apply pays_seq; [done|by apply pays_refresh|]. intros _.
    apply pays_return. intros w [Hw Hq] _. exists h. split; [done|by apply Hh].
Qed.

(** The body of a submission, its messages, and its end. *)
Lemma pays_submission K (Q : PayWorld -> bool -> Prop) failed body :
  steady pay_le K -> (forall b, steady pay_le (fun w => Q w b)) -> (forall w, Q w false) -> (forall e, forallb talk (failed e) = true) ->
  pays K Q body -> pays K Q (submission failed body).
Proof.
  intros HK HQ Hf Ht Hb. unfold submission. eapply pays_bind.
  - apply (pays_settle K Q). apply pays_try; [done|done|]. intros e. apply pays_seq; [done|by apply pays_tell|]. intros _. by apply pays_return.
  - intros [b|e].
    + eapply pays_bind; [by apply (pays_says (fun w => Q w b))|]. intros u. by apply pays_return.
    + apply pays_seq; [by intros w w' _ _|by apply pays_tell; [intros w w' _ _|]|]. by intros u w _.
Qed.

Lemma steady_repaid_ok amountHuman b : steady pay_le (fun w => repaid_ok amountHuman w b).
Proof.
  intros w w' [Hl He] H Hb. destruct (H Hb) as (h & Hq & Hr). exists h. split; [|by eapply repay_backed_later].
  eapply queued_repayment_later; [|exact Hq]. intros x. by apply seen_later.
Qed.

Lemma steady_borrowed_ok o b : steady pay_le (fun w => borrowed_ok o w b).
Proof.
  intros w w' [Hl He] H Hb. destruct (H Hb) as (h & Hq & Hr). exists h. split; [|by eapply open_backed_later].
  eapply queued_opening_later; [|exact Hq]. intros x. by apply seen_later.
Qed.

Lemma pays_refuse K (Q : PayWorld -> bool -> Prop) key d : steady pay_le K -> (forall w, Q w false) -> pays K Q (refuse key d).
Proof. intros HK Hf. unfold refuse. apply pays_seq; [done|by apply pays_tell|]. intros u. by apply pays_return. Qed.

(** The debt of an allowance. *)
Definition debt_known (debt : Z) (l : list pay_event) : Prop :=
  on_screen debt \/ (0 < debt /\ exists wallet, PPreflight wallet (Ok debt) ∈ l).

Lemma lasting_debt debt : lasting (debt_known debt).
Proof. intros l l' Hl [?|(? & w & ?)]; [by left|right]. split; [done|]. exists w. by eapply seen_later. Qed.

Lemma pays_materialized K p wallet amount :
  steady pay_le K -> on_screen amount -> pays K (fun w a => K w /\ debt_known a (py_log w)) (materialized p wallet amount).
Proof.
  intros HK Ha. unfold materialized. destruct (on_stellar p); [apply pays_return; split; [done|by left]|].
  eapply pays_bind.
  - eapply (pays_mono (fun w => K w /\ True)); [by intros w|intros w r H; exact H|]. apply pays_keep; [done|].
    apply pays_settle, (pays_ask (fun _ => True) _ (PPreflight wallet)); [by intros w w' _ _|done].
  - intros [accrued|e]; cbn beta iota.
    + apply pays_return. intros w (? & _ & ?). split; [done|]. destruct (Z.ltb_spec 0 accrued); [right; eauto|by left].
    + eapply pays_bind.
      * eapply (pays_mono K); [by intros w [? _]|intros w r H; exact H|]. by apply pays_says.
      * intros u. apply pays_return. intros w ?. split; [done|by left].
Qed.

(** ** The submissions *)

Lemma gives_and_kept {A} K (Q : list pay_event -> A -> Prop) p :
  lasting K -> gives (log_ok on_screen) K Q p -> gives (log_ok on_screen) K (fun l a => K l /\ Q l a) p.
Proof. apply gives_and. Qed.

Lemma allowance_other l n ps : n <> "approve"%string -> allowance_ok on_screen l n ps.
Proof. by intros H ?. Qed.

Lemma pays_repay_evm p user wallet amountHuman debt onTime :
  pays (fun w => debt_known debt (py_log w)) (repaid_ok amountHuman) (repay_evm p user wallet amountHuman debt onTime).
Proof.
  set (K := debt_known debt). assert (HK : lasting K) by apply lasting_debt. pose proof (steady_log K HK) as Hs.
  unfold repay_evm. apply pays_seq; [done|by eapply pays_any, pays_ask|]. intros bal. destruct (bal <? debt).
  { apply pays_seq; [done|by apply pays_tell|]. intros u. by apply pays_return. }
  apply pays_seq; [done|by eapply pays_any, pays_ask|]. intros allowance. cbn zeta.
  assert (Happrove : may_call on_screen K (approve_call p (debt + PENNY_BUFFER_USDC_BASE))).
  { intros l Hl _. exists (evault_of p), debt. split; [done|]. exact Hl. }
  assert (Hrepay : may_call on_screen K (repay_call p user)) by (intros l _; by apply allowance_other).
  destruct (allowance <? _).
  - eapply pays_bind; [apply (pays_log K _ _ (logs_batch on_screen _ _ _ K HK Happrove Hrepay))|]. intros hashes. cbn beta.
    eapply pays_mono; [intros w H; exact H|intros w b H; exact H|].
    apply (pays_repaid (fun w => K (py_log w) /\ made (py_log w) (repay_call p user) (list.last hashes))).
    + intros w w' [Hl Hev] [? ?]. split; [by eapply HK|by eapply made_later].
    + intros w [_ Hm]. left. by exists (repay_call p user), user.
  - eapply pays_bind; [apply (pays_log K _ _ (logs_send on_screen _ _ K HK Hrepay))|]. intros h. cbn beta.
    apply (pays_repaid (fun w => K (py_log w) /\ made (py_log w) (repay_call p user) (Some h))).
    + intros w w' [Hl Hev] [? ?]. split; [by eapply HK|by eapply made_later].
    + intros w [_ Hm]. left. by exists (repay_call p user), user.
Qed.

Lemma pays_repay_stellar K p wallet amountHuman onTime :
  steady pay_le K -> pays K (repaid_ok amountHuman) (repay_stellar p wallet amountHuman onTime).
Proof.
  intros HK. unfold repay_stellar. eapply pays_bind.
  - eapply (pays_mono (fun w => K w /\ True)); [by intros w|intros w r H; exact H|]. apply pays_keep; [done|].
    apply (pays_log (fun _ => True) _ _ (logs_stellar_repay on_screen wallet wallet (fun _ => True) lasting_true)).
  - intros h. cbn beta. apply pays_repaid.
    + intros w w' Hr (? & _ & ?). split_and!; [by eapply HK|done|]. eapply repay_backed_later; [|done]. by destruct Hr.
    + by intros w (_ & _ & ?).
Qed.

(** The amount the backend is told of. *)
Definition told_repayment (p : PayProps) (amountInput : string) (rawOverride : option Z) : string :=
  match repay_amount p amountInput rawOverride with Ok (_, human) => human | Throw _ => "" end.

Lemma pays_submit_repay p amountInput rawOverride onTime :
  (forall amount human, repay_amount p amountInput rawOverride = Ok (amount, human) -> on_screen amount) ->
  pays (fun _ => True) (repaid_ok (told_repayment p amountInput rawOverride)) (submit_repay p amountInput rawOverride onTime).
Proof.
  intros Hscreen. unfold submit_repay, told_repayment. assert (HT : steady pay_le (fun _ => True)) by by intros w w' _ _.
  destruct (_ && _); [by apply pays_refuse|]. destruct (setup _ _ _) as [[user wallet]|]; [|by apply pays_refuse].
  destruct (repay_amount p amountInput rawOverride) as [[amount human]|e] eqn:Ea; [|by apply pays_refuse].
  destruct (amount <=? 0); [by apply pays_refuse|]. apply pays_seq; [done|by apply pays_tell|]. intros u.
  eapply pays_bind; [by apply pays_materialized; [|by eapply Hscreen]|]. intros debt. cbn beta.
  eapply (pays_mono (fun w => debt_known debt (py_log w))); [by intros w [_ ?]|intros w b H; exact H|].
  pose proof (steady_log _ (lasting_debt debt)) as Hd. apply pays_submission; [done|by apply steady_repaid_ok|done|done|].
  destruct (on_stellar p); [by apply pays_repay_stellar|apply pays_repay_evm].
Qed.

Lemma pays_borrow_tx p user wallet amountHuman amount tenor fee :
  parseUnits amountHuman decimals = Ok amount -> 0 < amount ->
  pays (fun _ => True)
    (fun w tx => forall h, tx = Some h -> open_backed decimals (py_log w) {| op_amountHuman := amountHuman; op_tenorDays := tenor |} h)
    (borrow_tx p user wallet amount tenor fee).
Proof.
  intros Hparse Hpos. set (o := {| op_amountHuman := amountHuman; op_tenorDays := tenor |}).
  set (Q := fun (w : PayWorld) tx => forall h, tx = Some h -> open_backed decimals (py_log w) o h).
  assert (Hmade : forall l h, made l (borrow_call p user amount tenor fee) h -> open_backed decimals l o h).
  { intros l h Hm. exists amount, fee. split_and!; [done..|]. left. by exists (borrow_call p user amount tenor fee), user. }
  assert (Hcall : may_call on_screen (fun _ => True) (borrow_call p user amount tenor fee)) by (intros l _; by apply allowance_other).
  assert (Hsend : pays (fun _ => True) Q
    (txHash ← on_log (sendContractTx (ph_contracts p) (borrow_call p user amount tenor fee)); Return (Some (Some txHash)))).
  { eapply pays_bind; [apply (pays_log (fun _ => True) _ _ (logs_send on_screen _ _ _ lasting_true Hcall))|]. intros h. cbn beta.
    apply pays_return. intros w [_ Hm] h' [= <-]. by apply Hmade. }
  assert (HT : steady pay_le (fun _ => True)) by by intros w w' _ _. unfold borrow_tx. destruct (on_stellar p).
  - eapply pays_bind; [apply (pays_log (fun _ => True) _ _ (logs_stellar_borrow on_screen wallet amount tenor fee _ lasting_true))|].
    intros h. cbn beta. apply pays_return. intros w [_ Hm] h' [= <-]. exists amount, fee. split_and!; [done..|]. right. by exists wallet.
  - unfold borrow_evm. cbn zeta. destruct (ph_requireController p); [|exact Hsend]. destruct (ph_controller p && _).
    + apply pays_seq; [done| |].
      * unfold controller_enabled. apply pays_seq; [done|by eapply pays_any, pays_settle, pays_ask|]. intros r. by apply pays_return.
      * intros [|]; [exact Hsend|].
        assert (Henable : may_call on_screen (fun _ => True) (enable_call p user)) by (intros l _; by apply allowance_other).
        eapply pays_bind; [apply (pays_log (fun _ => True) _ _ (logs_batch on_screen _ _ _ _ lasting_true Henable Hcall))|].
        intros hs. cbn beta. apply pays_return. intros w [_ Hm] h' [= <-]. by apply Hmade.
    + apply pays_seq; [done|by apply pays_tell|]. intros u. by apply pays_return.
Qed.

Lemma validate_ok p s amount : validateAmount p s = inl amount ->
  parseUnits (clean s) (ph_chainDecimals p) = Ok amount /\ 0 < amount /\ forall cap, maxBorrowRaw p = Some cap -> amount <= cap.
Proof.
  unfold validateAmount. cbn zeta. case_bool_decide; [done|]. destruct (parseUnits (clean s) (ph_chainDecimals p)) as [a|e]; [|done].
  destruct (Z.leb_spec a 0); [done|]. destruct (maxBorrowRaw p) as [cap|]; [destruct (Z.ltb_spec cap a); [done|]|].
  all: intros [= <-]; split_and!; [done|done|]. 1: by intros cap' [= <-]. by intros cap'.
Qed.

Lemma pays_submit_borrow p amountInput tenor fee :
  ph_chainDecimals p = decimals ->
  pays (fun _ => True) (borrowed_ok {| op_amountHuman := clean amountInput; op_tenorDays := tenor |}) (submit_borrow p amountInput tenor fee).
Proof.
  intros Hd. unfold submit_borrow. assert (HT : steady pay_le (fun _ => True)) by by intros w w' _ _.
  destruct (setup _ _ _) as [[user wallet]|]; [|by apply pays_refuse].
  destruct (validateAmount p amountInput) as [amount|reason] eqn:Ev; [|by apply pays_refuse].
  destruct (validate_ok _ _ _ Ev) as (Hp & Hpos & _). rewrite Hd in Hp. apply pays_seq; [done|by apply pays_tell|]. intros u.
  apply pays_submission; [done|by apply steady_borrowed_ok|done|done|]. eapply pays_bind; [by apply pays_borrow_tx|].
  intros [h|]; cbn beta iota; [|by apply pays_return]. apply pays_borrowed.
  - intros w w' [Hl _] H h' Hh'. by eapply open_backed_later, H.
  - intros w H. by apply H.
Qed.
End Submissions.

(** ** Properties *)

(** What the page may be doing. *)
Inductive pay_action :=
  | ARepay (p : PayProps) (amountInput : string) (rawOverride : option Z) (wasOnTime : bool)
  | ABorrow (p : PayProps) (amountInput : string) (tenorDays feeBps : Z).

Section Properties.
  Context `{OUT : PayOutside, BROWSER : BrowserOutside, JM : JsMath}.

Definition pay_act (a : pay_action) : proc PayWorld bool :=
  match a with
  | ARepay p amountInput rawOverride wasOnTime => submit_repay p amountInput rawOverride wasOnTime
  | ABorrow p amountInput tenorDays feeBps => submit_borrow p amountInput tenorDays feeBps
  end.

(** The amounts the repayments were started with. *)
Definition started_with (acts : list pay_action) (debt : Z) : Prop :=
  exists p amountInput rawOverride wasOnTime human,
    ARepay p amountInput rawOverride wasOnTime ∈ acts /\ repay_amount p amountInput rawOverride = Ok (debt, human).

Definition same_decimals (decimals : nat) (a : pay_action) : Prop :=
  match a with ARepay _ _ _ _ => True | ABorrow p _ _ _ => ph_chainDecimals p = decimals end.

(** What an action that answered [true] has done. *)
Definition done_ok (decimals : nat) (a : pay_action) (w : PayWorld) (b : bool) : Prop :=
  match a with
  | ARepay p amountInput rawOverride _ => repaid_ok (told_repayment p amountInput rawOverride) w b
  | ABorrow _ amountInput tenorDays _ => borrowed_ok decimals {| op_amountHuman := clean amountInput; op_tenorDays := tenorDays |} w b
  end.

(** Each process of a pool keeps its own promise. *)
Lemma since_pool_each {W A X} (I : W -> Prop) (R : W -> W -> Prop) `{!Reflexive R, !Transitive R} (Q : X -> W -> result A -> Prop) xs (c c' : pool W A) :
  (forall x, stable R (Q x)) -> steps pool_step c c' -> Forall2 (fun x p => since I R (Q x) (snd c) p) xs (fst c) -> I (snd c) ->
  I (snd c') /\ Forall2 (fun x p => since I R (Q x) (snd c') p) xs (fst c').
Proof.
  intros HQ. induction 1 as [c|c1 c2 c3 Hstep _ IH]; intros Hps Hw; [by split|].
  destruct Hstep as [ps w i effect next Hi]. cbn [fst snd] in *.
  destruct (Forall2_lookup_r _ _ _ _ _ Hps Hi) as (x & Hx & Hp). destruct (Hp w Hw) as (HI & HR & Hn); [done|].
  apply IH; [|done]. rewrite <- (list_insert_id xs i x) by done. apply Forall2_insert; [|done].
  eapply list.Forall2_impl; [exact Hps|]. intros x' p. by apply since_later.
Qed.

(** C29. Whatever submissions run at the same time, from a browser that has told the
    backend nothing yet: every repayment in the queue or told to the backend carries the
    hash of a repayment a wallet took, every opening that of a loan taken for the amount
    and the term it names, and an allowance is one cent above the debt. And a submission
    that has answered [true] has put its repayment or opening in the queue. *)
Theorem told_what_was_sent (decimals : nat) (acts : list pay_action) (browser : Browser) (shown : Shown) (ps : list (proc PayWorld bool)) (w : PayWorld)
    (Hsame : Forall (same_decimals decimals) acts) (Hnew : b_events browser = [])
    (Hrun : steps pool_step (map pay_act acts, {| py_browser := browser; py_shown := shown; py_log := [] |}) (ps, w)) :
  Forall (event_backed decimals (py_log w)) (b_events (py_browser w)) /\ Forall (call_ok (started_with acts) (py_log w)) (py_log w) /\
  forall i a b, acts !! i = Some a -> ps !! i = Some (Return b) -> done_ok decimals a w b.
Proof.
  assert (H : pay_ok decimals (started_with acts) w /\
    Forall2 (fun a p => since (pay_ok decimals (started_with acts)) pay_le (fun w r => match r with Ok b => done_ok decimals a w b | Throw _ => True end) w p) acts ps).
  { eapply (since_pool_each (pay_ok decimals (started_with acts)) pay_le
      (fun a w r => match r with Ok b => done_ok decimals a w b | Throw _ => True end) acts _ (ps, w)); [|exact Hrun| |].
    - intros a w1 w2 [b|e] Hr; [|done]. destruct a; [by apply steady_repaid_ok|by apply steady_borrowed_ok].
    - cbn [fst snd]. apply Forall2_fmap_r, Forall_Forall2_diag. apply list.Forall_forall. intros a Ha.
      pose proof (proj1 (list.Forall_forall _ _) Hsame a Ha) as Hd. destruct a as [p s raw onTime|p s tenor fee]; cbn [pay_act done_ok].
      + apply (pays_submit_repay decimals (started_with acts)); [|done]. intros amount human Hr. by exists p, s, raw, onTime, human.
      + by apply (pays_submit_borrow decimals (started_with acts)).
    - split; cbn; [by constructor|]. rewrite Hnew. by constructor. }
  destruct H as [[Hlog Hev] Hps]. split_and!; [done|done|]. intros i a b Ha Hp.
  exact (Forall2_lookup_lr _ _ _ _ _ _ Hps Ha Hp).
Qed.

(** ** A submission ends *)

(** [submitting] *)
Definition submitting : list pay_event -> bool := value_of (fun e b => match e with PSubmitting v => v | _ => b end) false.

Lemma says_run es w : run (says es) w = (Ok tt, set_log (py_log w ++ es) w).
Proof. by destruct w. Qed.

Lemma submitting_end l : submitting (l ++ [PDismiss; PSubmitting false]) = false.
Proof. unfold submitting. by rewrite value_of_app. Qed.

Lemma submission_run failed body w :
  exists b, fst (run (submission failed body) w) = Ok b /\ submitting (py_log (snd (run (submission failed body) w))) = false.
Proof.
  unfold submission. rewrite run_bind, run_settle, proc_try_run. destruct (run body w) as [[b|e] w1]; cbn [fst snd].
  - rewrite run_bind, says_run. exists b. split; [done|]. apply submitting_end.
  - rewrite run_bind, says_run. cbn [fst snd run]. rewrite run_bind, says_run. exists false. split; [done|]. apply submitting_end.
Qed.

Lemma refuse_run key d w : submitting (py_log w) = false ->
  exists b, fst (run (refuse key d) w) = Ok b /\ submitting (py_log (snd (run (refuse key d) w))) = false.
Proof. intros H. unfold refuse. rewrite run_bind, says_run. exists false. split; [done|]. cbn [fst snd run py_log set_log].
  unfold submitting in *. by rewrite value_of_app, H. Qed.

Lemma materialized_run p wallet amount w : exists a w', run (materialized p wallet amount) w = (Ok a, w').
Proof.
  unfold materialized. destruct (on_stellar p); [by eexists _, _|]. rewrite run_bind, run_settle. unfold on_log, ask. cbn.
  destruct (api_preflight_force _ _); cbn; by eexists _, _.
Qed.

(** A submission always answers, and the page is not left waiting: the buttons are
    free again whatever the wallet, the contracts and the backend did. *)
Theorem submission_ends (a : pay_action) (w : PayWorld) (Hfree : submitting (py_log w) = false) :
  exists b, fst (run (pay_act a) w) = Ok b /\ submitting (py_log (snd (run (pay_act a) w))) = false.
Proof.
  destruct a as [p s raw onTime|p s tenor fee]; cbn [pay_act].
  - unfold submit_repay. destruct (_ && _); [by apply refuse_run|]. destruct (setup _ _ _) as [[user wallet]|]; [|by apply refuse_run].
    destruct (repay_amount p s raw) as [[amount human]|e]; [|by apply refuse_run]. destruct (amount <=? 0); [by apply refuse_run|].
    rewrite run_bind, says_run. cbn [fst snd]. rewrite run_bind.
    destruct (materialized_run p wallet amount (set_log (py_log w ++ [PSubmitting true; PLoading]) w)) as (debt & w' & ->). apply submission_run.
  - unfold submit_borrow. destruct (setup _ _ _) as [[user wallet]|]; [|by apply refuse_run].
    destruct (validateAmount p s) as [amount|reason]; [|by apply refuse_run]. rewrite run_bind, says_run. apply submission_run.
Qed.

(** What is borrowed is within what the page knows of the line. *)
Theorem borrowed_within_line (p : PayProps) (s : string) (amount limit debt : Z)
    (Hok : validateAmount p s = inl amount) (Hlimit : ph_limitRaw p = Some limit) (Hdebt : ph_borrowedRaw p = Some debt) :
  0 < amount /\ debt + amount <= Z.max limit debt /\ exceedsCapacity p s = false.
Proof.
  destruct (validate_ok p s amount Hok) as (Hp & Hpos & Hcap). unfold maxBorrowRaw in Hcap. rewrite Hlimit, Hdebt in Hcap.
  pose proof (Hcap _ eq_refl). split_and!; [done|lia|]. unfold exceedsCapacity, maxBorrowRaw. rewrite Hlimit, Hdebt.
  unfold or_text. case_bool_decide as Hs; [subst; by unfold validateAmount in Hok|]. rewrite Hp. lia.
Qed.
End Properties.

(** ** Concrete runs *)

Definition calm (refresh : result unit) : PayOutside := {|
  lemonCallSmartContract _ _ := Throw (PlainError "no app");
  sendTransaction log t := Ok ("0x" +:+ functionName t)%string;
  encodeFunctionData t := Ok (functionName t);
  stellar_send _ _ := Throw (PlainError "no signer");
  preview_owed _ _ := Throw (PlainError "no contract");
  err_short _ := None; err_code _ := None; err_string _ := "Error"; err_data _ := None; err_evm e := exn_message e;
  parseUnits s d := toUnits_string d s;
  api_preflight_force _ _ := Ok 10510000;
  usdc_balanceOf _ _ := Ok 20000000;
  usdc_allowance _ _ _ := Ok 0;
  isControllerEnabled _ _ _ := Ok true;
  contracts_refresh _ := refresh;
  pay_now _ := 1703000000000;
  pay_text key _ := key;
  lemon_CELO := 42220 |}.

#[local] Instance kind_browser : BrowserOutside := {|
  date_now _ := 1703000000000; random_id _ := "id"; set_item_ok _ := true;
  api_informRepayment _ _ _ _ := Ok {| ans_score := None; ans_xp := None; ans_newAchievements := []; ans_gain := None |};
  api_informOpen _ _ _ _ := Throw (PlainError "offline") |}.

#[local] Instance some_math : JsMath := {| log10 x := x |}.

Definition ana : string := "0x00000000000000000000000000000000000000aa".

Definition page_of_ana : PayProps := {|
  ph_contracts := {| co_mode := webapp; co_walletClient := Some {| wc_account := true; wc_chainId := Some 42220 |}; co_chainId := Some 42220;
                     co_lemonChainId := None; co_usdcAddress := Some "0xusdc"%string; co_expectedChain := Some "42220"%string |};
  ph_isLemonMiniApp := false; ph_connectedAddress := Some ana; ph_primaryWallet := Some ana; ph_evault := Some "0xvault"%string; ph_usdc := true;
  ph_usdcDecimals := Some 6%nat; ph_controller := true; ph_controllerAddress := Some "0xcontroller"%string; ph_requireController := true;
  ph_limitRaw := Some 10000000; ph_borrowedRaw := Some 0; ph_chainDecimals := 6%nat |}.

Definition nothing_shown : Shown := {| sh_credit := no_credit;
  sh_stats := {| loansCount := None; closedLoansCount := None; loansOnTimeCount := None; openLoansCount := None; onTimePercent := None |}; sh_gain := None |}.

Definition fresh_page : PayWorld :=
  {| py_browser := {| b_repayments := NoItem; b_opens := NoItem; b_events := [] |}; py_shown := nothing_shown; py_log := [] |}.

Definition pay_and_borrow : list pay_action := [ARepay page_of_ana "10.50" None true; ABorrow page_of_ana "4" 14 3000].

(** The repayment and the opening in turn, to their ends. *)
Definition in_turn : list nat := List.concat (List.repeat [0; 1] 30)%nat.

Definition both_paid : pool PayWorld bool := run_schedule in_turn (map (pay_act (OUT := calm (Ok tt))) pay_and_borrow, fresh_page).

Lemma told_what_was_sent_witness :
  forallb (fun p => match p with Return b => b | _ => false end) (fst both_paid) = true /\
  omap (fun e => match e with PWallet t (Ok _) => Some (functionName t) | _ => None end) (py_log (snd both_paid)) =
    ["borrowWithTerm"; "approve"; "repay"]%string /\
  Forall (event_backed (OUT := calm (Ok tt)) 6 (py_log (snd both_paid))) (b_events (py_browser (snd both_paid))).
Proof.
  split; [vm_compute; reflexivity|]. split; [vm_compute; reflexivity|].
  apply (told_what_was_sent (OUT := calm (Ok tt)) 6 pay_and_borrow (py_browser fresh_page) nothing_shown (fst both_paid) (snd both_paid)).
  - repeat constructor.
  - reflexivity.
  - rewrite <- surjective_pairing. apply run_schedule_steps.
Defined.

Lemma submission_ends_witness :
  submitting (py_log fresh_page) = false /\
  exists b, fst (run (pay_act (OUT := calm (Ok tt)) (ABorrow page_of_ana "11" 14 3000)) fresh_page) = Ok b /\
    submitting (py_log (snd (run (pay_act (OUT := calm (Ok tt)) (ABorrow page_of_ana "11" 14 3000)) fresh_page))) = false.
Proof. split; [reflexivity|]. apply (submission_ends (OUT := calm (Ok tt))). reflexivity. Defined.

(** Finding. The repayment is sent, in the queue and known to the backend; then the
    refresh of the contracts fails, and the page says that the repayment failed. *)
Definition paid_anyway : result bool * PayWorld :=
  run (pay_act (OUT := calm (Throw (PlainError "no network"))) (ARepay page_of_ana "10.50" None true)) fresh_page.

Example paid_but_failed :
  fst paid_anyway = Ok false /\
  existsb (fun e => match e with PWallet t (Ok _) => bool_decide (functionName t = "repay"%string) | _ => false end) (py_log (snd paid_anyway)) = true /\
  existsb (fun e => match e with EInformRepayment _ _ (Some _) (Ok _) => true | _ => false end) (b_events (py_browser (snd paid_anyway))) = true /\
  existsb (fun e => match e with PToast toast_error key _ _ => bool_decide (key = "hooks.useRepay.toast.failed.title"%string) | _ => false end)
    (py_log (snd paid_anyway)) = true.
Proof. vm_compute. done. Qed.

(** Finding. Between the transaction of a loan and its entry in the queue the page waits
    for four seconds: if it is closed then, nothing is left to tell the backend. *)
Definition closed_early : pool PayWorld bool :=
  run_schedule [0; 0; 0; 0]%nat ([pay_act (OUT := calm (Ok tt)) (ABorrow page_of_ana "4" 14 3000)], fresh_page).

Example opening_not_queued :
  existsb (fun e => match e with PWallet t (Ok _) => bool_decide (functionName t = "borrowWithTerm"%string) | _ => false end)
    (py_log (snd closed_early)) = true /\
  existsb (fun e => match e with PWait 4000 => true | _ => false end) (py_log (snd closed_early)) = true /\
  b_events (py_browser (snd closed_early)) = [].
Proof. vm_compute. done. Qed.

(** A decimal comma is dropped: one and a half is read as fifteen, where the
    other fields of the page read one and a half. *)
Example comma_dropped :
  clean "1,5" = "15"%string /\ validateAmount (OUT := calm (Ok tt)) {|
    ph_contracts := ph_contracts page_of_ana; ph_isLemonMiniApp := false; ph_connectedAddress := Some ana; ph_primaryWallet := Some ana;
    ph_evault := Some "0xvault"%string; ph_usdc := true; ph_usdcDecimals := Some 6%nat; ph_controller := true;
    ph_controllerAddress := None; ph_requireController := true; ph_limitRaw := Some 25000000; ph_borrowedRaw := Some 0; ph_chainDecimals := 6%nat |}
    "1,5" = inl 15000000 /\ parseUsdcAmount 6 "1,5" = Some 1500000.
Proof. vm_compute. done. Qed.
